(* ===== verification/_CoqProject ===== *)
-Q . S2P
Prelude.v
Float64.v
GoRuntime.v
Backoff.v
BaseFSM.v
FSMManager.v
PortManager.v
Instance.v
ConfigNames.v
Nmap.v
Monitor.v
Container.v
AgentMonitor.v
RedpandaMonitor.v
BenthosMonitor.v
GoBytes.v
Ring.v
FailureRate.v
S6Logs.v
S6Status.v
TopicBuffer.v
BridgeAdmission.v
GoPaths.v
StateMonad.v
GoRegexp.v
FileSystem.v
MemOS.v
FileCaches.v
FileTrace.v
S6Config.v
S6Lifecycle.v
S6LifecycleFacts.v
S6Creation.v
S6DefaultService.v
S6Instance.v
S6Recovery.v
Documents.v
DocumentStore.v
MemoryStore.v
TriangularStore.v
ChangeFeed.v
TriangularFacts.v
TriangularFeed.v
TriangularProperties.v
PanicMonad.v
WorkerConfig.v
Supervisor.v
SupervisorWorker.v
SupervisorTree.v
SupervisorFacts.v
SupervisorLaws.v
SupervisorSafety.v
SupervisorFlags.v
SupervisorGiveUp.v
SupervisorChildren.v
SupervisorReconcile.v
DataModel.v
DataModelFacts.v
DataModelValidity.v
Translator.v
TranslatorFacts.v
TranslatorProperties.v
SchemaRegistry.v
SchemaRegistryFacts.v
SchemaRegistryRequests.v
SchemaRegistrySync.v
SchemaRegistryExamples.v
Configuration.v
ConfigTemplates.v
ConfigManager.v
ConfigEdits.v
ConfigEditFacts.v
ConfigCache.v
ConfigExamples.v
