(* ===== verification/Prelude.v ===== *)
(** * The control plane of umh-core, modelled and verified

    umh-core ([src/umh-core]) supervises the services of an edge gateway.  Its
    control loop ticks; each tick hands a snapshot of the configuration to a
    set of managers, each manager reconciles its instances, each instance steps
    a state machine towards its desired state and drives a service, and the
    services end in directories and commands of the s6 supervision suite.
    Beside that stands a second generation ([fsmv2]) whose workers keep their
    state in a document store with a change feed.  This library models those
    parts as executable functions and proves what makes them correct.

    ** Reading order and correspondence

    Basis.  [Prelude]: integers at their width ([wrap_u64], [wrap_i64]),
    strings, list and map lemmas, hints and tactics.  [Float64]: the binary64
    operations Go's [float64] code performs.  [GoRuntime]: errors, contexts,
    the clock and the random source, with [pkg/ctxutil/timeout.go] and
    [pkg/constants/loop.go].  [GoBytes], [GoPaths], [GoRegexp]: the functions
    of Go's standard library the parsers call.  [StateMonad]: computations that
    pass a state and return errors as values.  [Ring]: arrays overwritten in
    place against the stream written to them.

    State machines.
    - [Backoff]: [pkg/backoff] and the vendored policy of cenkalti/backoff; the
      state is [BackoffManager].
    - [BaseFSM]: [internal/fsm] and the vendored looplab machine; [St X W] is
      the base instance, the concrete instance [X] and the world [W], and
      operations run in a monad that also represents panics.
    - [FSMManager]: [pkg/fsm/base_manager.go]; the manager knows an instance
      through the class [FSMInstance] and its own parts through the record
      [ManagerOps].
    - [PortManager]: [pkg/portmanager]; the client a manager calls before and
      after it reconciles.
    - [Instance]: the frame every [pkg/fsm/*/reconcile.go] repeats, over a
      record of what differs; [inst_inv] is the invariant of an instance.
    - [Nmap], and over [Monitor] the four monitors [Container], [AgentMonitor],
      [RedpandaMonitor], [BenthosMonitor]: the instances, each with its table,
      reconcile functions, actions and the functions its manager injects.
    - [ConfigNames], [BridgeAdmission]: what may be created
      ([pkg/config/validation.go], [pkg/bridgeadmission] and the part of
      [pkg/service/protocolconverter] that calls it).
    - [FailureRate]: [fsmv2/deps/retry/failurerate].

    The s6 service and the file system.
    - [FileSystem]: [pkg/service/filesystem/filesystem.go]: the interface
      [Service], the default implementation with its caches over the class
      [OS].  [FileCaches] has the theorems, [FileTrace] wraps a service so that
      theorems can speak about the calls made, [MemOS] is an operating system
      for concrete runs.
    - [S6Config]: run scripts and what is read back from them; [S6Lifecycle]:
      creation, removal, supervision and the commands; [S6LifecycleFacts] and
      [S6Creation]: their theorems; [S6Status]: status files; [S6Logs]: log
      files.  All are parts of [pkg/service/s6].
    - [S6Instance]: [pkg/fsm/s6], the instance that drives one service, on an
      interface of the service that [S6DefaultService] implements with the
      modelled lifecycle; [S6Recovery] has the theorems about both.
    - [TopicBuffer]: [pkg/service/topicbrowser], which reads such a log.

    The worker stores of the second generation.
    - [Documents], [DocumentStore] (interface and its laws), [MemoryStore]
      ([fsmv2/persistence/memory]), [TriangularStore]
      ([fsmv2/cse/storage]).  [ChangeFeed] is the abstract side of the feed,
      [TriangularFacts] and [TriangularFeed] the effect of the operations on
      any store that keeps the laws, [TriangularProperties] the contract.

    The supervisors of the second generation.
    - [PanicMonad]: computations that may panic and be recovered, with the
      rules for both ways they end.
    - [WorkerConfig]: [fsmv2/config]: variables, specifications of children with
      their hashes and validation, lifecycle phases.
    - [Supervisor], [SupervisorWorker], [SupervisorTree]: [fsmv2/supervisor]:
      the state of a supervisor and the parts of a worker's tick; the life of a
      worker; the tick of a supervisor, its circuit breakers, its children and
      the interface it offers its parent.  [WorkerTypes], [WorkerCode],
      [WorkerStore], [Runners] and [SupervisorInterface] are the interfaces to
      the workers, the store, the collectors and executors, and the children;
      [Tower] instantiates the last one level by level.
    - [SupervisorFacts]: what every operation leaves alone; [SupervisorLaws]:
      the laws of the interfaces and a concrete system that has them;
      [SupervisorSafety], [SupervisorGiveUp], [SupervisorFlags],
      [SupervisorReconcile], [SupervisorChildren]: the theorems.

    Data models and the schema registry.
    - [DataModel], [DataModelFacts], [DataModelValidity]:
      [pkg/datamodel/validator.go] over the types of [pkg/config/config.go]; a
      model, its four traversals, and the specification [valid_model] of what
      they accept.
    - [Translator], [TranslatorFacts], [TranslatorProperties]:
      [pkg/datamodel/translator.go]: virtual paths, JSON schemas and subjects.
    - [SchemaRegistry]: [pkg/service/redpanda/schema_registry.go], the five
      phases of the reconciliation of a registry known through the class
      [HTTP].  [SchemaRegistryFacts] has the effect of the phases,
      [SchemaRegistryRequests] the requests sent to any registry,
      [SchemaRegistrySync] what becomes of a registry that keeps the laws
      [Cooperative], and [SchemaRegistryExamples] a registry that keeps them.

    The configuration.
    - [Configuration]: [pkg/config/config.go], [yamlParsing.go] and the parsing
      of the file; the blocks nobody looks into here are the class [Blocks], the
      YAML library is [Yaml] with the laws [YamlLaws].  [ConfigTemplates] has
      the theorems: how templates are factored out of the file and expanded.
    - [ConfigManager]: [pkg/config/manager.go]: the cache of the file, the
      goroutine that refreshes it as the steps [refresh_load] and
      [refresh_store], start-up, writes, backups and the wrapper with back-off.
    - [ConfigEdits]: the atomic edits of [manager.go], [datamodel.go],
      [datacontract.go], [protocolconverter.go] and [streamprocessor.go] as
      decisions on a configuration, with identifiers from the class [Uuids].
      [ConfigEditFacts] has what every edit keeps, [ConfigCache] what the cache
      and the file hold on a file system that keeps the laws [SteadyFile], and
      [ConfigExamples] one that keeps them, with the runs behind the defects.

    Components meet at type classes: a manager's theorems hold for any
    [FSMInstance], an instance's for any service class with its laws, the s6
    lifecycle's for any file system [Service] with [ServiceLaws], the worker
    stores' for any [Store] with [StoreLaws]; the concrete implementations are
    instances of these classes.

    ** What the theorems show

    - A request to remove an instance is never lost, the machine's events
      terminate, a permanent error puts an instance on its way to removal or has
      it removed by force, the back-off escalates exactly after its retries
      ([BaseFSM], [Backoff]).
    - A manager creates at most one instance per cooldown, removes an instance
      only for the reasons the code gives, and collects what is removed; the
      nmap manager composes all of it ([FSMManager], [Nmap]).
    - No port belongs to two instances under any interleaving, and release
      undoes allocation ([PortManager]).
    - Every reconcile keeps the instance's invariant, and a healthy service
      brings the instance to its desired state in a bounded number of ticks
      ([Nmap]).
    - The buffers refine the last entries of their streams, snapshots never
      change after they were taken, parsers agree with each other and invert
      the writers ([S6Logs], [S6Status], [TopicBuffer], [FailureRate],
      [S6Config]).
    - Removal of a service makes recorded progress, is resumed where it failed
      and fails only when a call failed; a forced removal that succeeds leaves
      nothing but links that lead nowhere; what was created passes the health check; config files stay in
      their directory ([S6LifecycleFacts], [S6Creation]).
    - Answers of the file system service are as fresh as its caches allow, and
      cached contents equal the file's ([FileCaches]).
    - The change feed of the worker stores tells every change in order, so that
      a client that applies it holds the stored documents, until the feed is
      compacted; pages are seamless;
      a tombstone is set on all roles or on none and survives saves; snapshots
      are current; compaction removes what has expired ([TriangularProperties]).
    - A corrupted s6 service is removed by force on the fourth tick if that
      succeeds, and a forced removal is complete or reported; a removal under way is carried out;
      restarts are spaced ([S6Recovery]).
    - A worker of a supervisor is stepped only on fresh data, and acts only once
      on an observation; an unresponsive collector is restarted as often as
      allowed and then given up; lifecycle flags survive the derivations of the
      desired state; the children follow the specifications; an open circuit of
      a child stops its parents ([SupervisorSafety] to [SupervisorChildren]).
    - The validator accepts exactly the valid data models, and a valid model
      translates unless its references are too deep for the translator or a
      shape is unknown; the translation holds exactly the leaves of the model
      ([DataModelValidity], [TranslatorProperties]).
    - A reconciliation of the schema registry returns; it deletes only subjects
      that the lookup found and the contracts do not expect, and adds only
      missing ones; a registry that works ends with exactly the expected
      subjects and the protected ones; a phase that cannot succeed is never
      left ([SchemaRegistryRequests], [SchemaRegistrySync]).
    - A configuration survives its file; edits keep names unique and versions of
      data models for good; after an edit the file and the cache agree when
      instances share a template only with equal blocks, also when a template is
      renamed.  A changed file reaches
      the callers after one refresh, an edit at once; a file that cannot be read
      reads as the empty configuration, without an error ([ConfigTemplates],
      [ConfigEditFacts], [ConfigCache]).

    ** Bounds and fuel

    [send_event] is called at most one level deep from a callback, hence depth
    2.  Searches, trims and parsers consume their input and take its length as
    fuel; [ReadFileRange] takes the number of chunks the file holds.  Theorems
    about such functions are proved for that fuel, never under the assumption
    that it sufficed.  Ticks are [uint64] and wrap; ports are [uint16];
    durations are [int64] nanoseconds; sync ids of the worker stores stay below
    2^63, which is a hypothesis where it matters.  The traversals of data models
    recurse on the structure, and into a referenced model on the number of
    references that may still be followed, which the code limits to ten.  The
    loop over the phases of the schema registry takes fuel, and
    [reconcile_returns] proves that some fuel is enough.  An instant is nanoseconds
    since year 1.

    ** Idealisations

    Methods under a mutex, and single calls of the file system or of a store,
    are atomic steps; the goroutines a manager starts within one tick run one
    after the other.  Go's map iteration order is an argument where the result
    depends on it and a canonical order where only a list's order does (the
    change lists of [Documents], the removals of a pass).  Metrics, logging and
    sentry reports are left out except where a theorem speaks about them.
    Strings of JSON documents are taken to be UTF-8.  Memory is unbounded; a
    nil pointer the code would dereference is a panic of [BaseFSM]'s monad.
    The goroutines beside a supervisor's tick (collectors, executors, a caller
    of [Shutdown], writers of the store) show in the answers of the interfaces;
    its [Shutdown] is modelled as supervisors call it on their children.
    In configurations nil maps and lists are empty ones and a deep copy is the
    value itself; an edit is the two steps [begin_edit] and [commit_edit], and
    its mutexes are semaphores that a caller gets or not.

    ** Not modelled

    - The wiring of the process: [cmd], [pkg/control], metrics, logging,
      sentry, environment; input and output with little logic of their own.
    - The FSMv1 instances that repeat the frame of [Instance] over larger
      services (connection, dataflowcomponent, benthos, redpanda,
      protocolconverter, streamprocessor, topicbrowser), and those services.
    - The concrete workers of the second generation, the collectors and action
      executors of their supervisors (goroutines, timers and channels), and the
      generic support library for workers, which is reflection over Go types.
    - The communicator with its actions and the generated GraphQL server; of
      the configuration the rendering of templates, the detection of YAML
      anchors and the environment variables.
    - Vendored packages other than the functions named above. *)

From stdpp Require Export base tactics option list gmap strings pretty.
From Stdlib Require Export ZArith Lia.

#[global] Set Default Goal Selector "!".
#[global] Set Warnings "-clear-no-such-hyp".

(** ** Integers at their width *)

#[global] Arguments Z.add : simpl never.
#[global] Arguments Z.sub : simpl never.
#[global] Arguments Z.mul : simpl never.
#[global] Arguments Z.pow : simpl never.
#[global] Arguments Z.div : simpl never.
#[global] Arguments Z.modulo : simpl never.
#[global] Arguments Z.quot : simpl never.

Declare Scope umh_scope.
Delimit Scope umh_scope with umh.

(** Go's [uint64] and [int64] values are kept in [Z]; every arithmetic result
    is brought back into range with one of these. *)
Definition wrap_u64 (z : Z) : Z := Z.modulo z (2 ^ 64).
Definition wrap_u16 (z : Z) : Z := Z.modulo z (2 ^ 16).
Definition wrap_i64 (z : Z) : Z := Z.modulo (z + 2 ^ 63) (2 ^ 64) - 2 ^ 63.

Notation "x +u64 y" := (wrap_u64 (x + y)) (at level 50, left associativity) : umh_scope.
Notation "x -u64 y" := (wrap_u64 (x - y)) (at level 50, left associativity) : umh_scope.
Notation "x +u16 y" := (wrap_u16 (x + y)) (at level 50, left associativity) : umh_scope.
Notation "x -u16 y" := (wrap_u16 (x - y)) (at level 50, left associativity) : umh_scope.
#[global] Open Scope umh_scope.

Definition in_u64 (z : Z) : Prop := (0 <= z < 2 ^ 64)%Z.
Definition in_u16 (z : Z) : Prop := (0 <= z < 2 ^ 16)%Z.

Lemma wrap_u64_small z : in_u64 z → wrap_u64 z = z.
Proof. apply Z.mod_small. Qed.

Lemma wrap_u16_small z : in_u16 z → wrap_u16 z = z.
Proof. apply Z.mod_small. Qed.

Lemma wrap_i64_small z : (- 2 ^ 63 <= z < 2 ^ 63)%Z → wrap_i64 z = z.
Proof. intros H. unfold wrap_i64. rewrite Z.mod_small; lia. Qed.

Lemma wrap_u64_range z : in_u64 (wrap_u64 z).
Proof. apply Z.mod_pos_bound. lia. Qed.

(** ** Strings: [strings.Contains], [strings.HasPrefix] *)

Fixpoint has_prefix (p s : string) : bool :=
  match p, s with
  | EmptyString, _ => true
  | String a p', String b s' => bool_decide (a = b) && has_prefix p' s'
  | _, EmptyString => false
  end.

Fixpoint contains (s sub : string) : bool :=
  has_prefix sub s ||
  match s with
  | EmptyString => false
  | String _ s' => contains s' sub
  end.

Lemma string_app_cons a (s t : string) : (String a s ++ t)%string = String a (s ++ t).
Proof. done. Qed.

Lemma string_app_nil_r (s : string) : (s ++ "")%string = s.
Proof. induction s as [|a s IH]; [done|]. by rewrite string_app_cons, IH. Qed.

Lemma has_prefix_app p s : has_prefix p (p ++ s)%string = true.
Proof.
  induction p as [|a p IH]; [done|]. rewrite string_app_cons. simpl.
  by rewrite bool_decide_true.
Qed.

Lemma contains_app_r s t sub : contains t sub = true → contains (s ++ t)%string sub = true.
Proof.
  intros H. induction s as [|a s IH]; [done|]. rewrite string_app_cons. simpl.
  rewrite IH. apply orb_true_r.
Qed.

Lemma has_prefix_app_r p s t : has_prefix p s = true → has_prefix p (s ++ t)%string = true.
Proof.
  revert s. induction p as [|a p IH]; intros [|b s]; try done.
  rewrite string_app_cons. simpl. rewrite !andb_true_iff. intros [? ?]. auto.
Qed.

Lemma contains_app_l s t sub : contains s sub = true → contains (s ++ t)%string sub = true.
Proof.
  induction s as [|a s IH].
  - destruct sub; [by destruct t|done].
  - rewrite string_app_cons. simpl. intros [H|H]%orb_true_iff; apply orb_true_iff; auto.
    left. by apply (has_prefix_app_r sub (String a s)).
Qed.

Lemma contains_refl s : contains s s = true.
Proof.
  destruct s as [|a s]; [done|]. simpl. apply orb_true_iff. left.
  rewrite bool_decide_true by done.
  pose proof (has_prefix_app s "") as H. by rewrite string_app_nil_r in H.
Qed.

(** [strings.ToLower], on ASCII letters. *)
Definition lower_ascii (a : Ascii.ascii) : Ascii.ascii :=
  let n := Ascii.nat_of_ascii a in
  if (65 <=? n)%nat && (n <=? 90)%nat then Ascii.ascii_of_nat (n + 32) else a.
Fixpoint to_lower (s : string) : string :=
  match s with EmptyString => EmptyString | String a s' => String (lower_ascii a) (to_lower s') end.

(** ** A state monad whose failure is a Go panic

    [None] stands for a run that never returns to its caller: a nil
    dereference, or a callback chain deeper than the bound given to it. *)

Definition M (S A : Type) : Type := S → option (A * S).

#[export] Instance M_ret S : MRet (M S) := λ A a s, Some (a, s).
#[export] Instance M_bind S : MBind (M S) := λ A B f m s,
  match m s with Some (a, s') => f a s' | None => None end.

Definition get {S} : M S S := λ s, Some (s, s).
Definition gets {S A} (f : S → A) : M S A := λ s, Some (f s, s).
Definition modify {S} (f : S → S) : M S unit := λ s, Some (tt, f s).
Definition panic {S A} : M S A := λ _, None.

(** Total correctness: [m] returns from [s], and [Q] holds of what it returns. *)
Definition wp {S A} (m : M S A) (Q : A → S → Prop) (s : S) : Prop :=
  ∃ a s', m s = Some (a, s') ∧ Q a s'.

Section wp.
Context {S : Type}.

Lemma wp_ret {A} (a : A) (Q : A → S → Prop) s : Q a s → wp (mret a) Q s.
Proof. intros. by exists a, s. Qed.

Lemma wp_bind {A B} (m : M S A) (f : A → M S B) (Q : B → S → Prop) s :
  wp m (λ a s', wp (f a) Q s') s → wp (m ≫= f) Q s.
Proof.
  intros (a & s' & Hm & b & s'' & Hf & HQ). exists b, s''. split; [|done].
  unfold mbind, M_bind. by rewrite Hm.
Qed.

Lemma wp_mono {A} (m : M S A) (Q Q' : A → S → Prop) s :
  wp m Q s → (∀ a s', Q a s' → Q' a s') → wp m Q' s.
Proof. intros (a & s' & Hm & HQ) H. exists a, s'. auto. Qed.

Lemma wp_gets {A} (f : S → A) (Q : A → S → Prop) s : Q (f s) s → wp (gets f) Q s.
Proof. intros. by exists (f s), s. Qed.

Lemma wp_modify (f : S → S) (Q : unit → S → Prop) s : Q tt (f s) → wp (modify f) Q s.
Proof. intros. by exists tt, (f s). Qed.

Lemma wp_elim {A} (m : M S A) (Q : A → S → Prop) s a s' :
  wp m Q s → m s = Some (a, s') → Q a s'.
Proof. intros (a1 & s1 & Hm & HQ) E. congruence. Qed.
End wp.

(** ** Automation shared by the components *)

Create HintDb umh discriminated.
#[export] Hint Resolve wp_ret wp_gets wp_modify wrap_u64_range contains_refl : umh.

(** Split every conjunction and run the basic solvers. *)
Ltac umh := repeat split; try done; try lia; eauto with umh.

(** Destruct the innermost [match] of the goal (or a hypothesis), remembering the equation. *)
Ltac case_match_inner :=
  match goal with
  | |- context [match ?x with _ => _ end] =>
      lazymatch x with context [match _ with _ => _ end] => fail | _ => destruct x eqn:? end
  end.

(** Turn every boolean comparison on [Z] in the goal into its arithmetic meaning. *)
Ltac zcases :=
  repeat match goal with
  | |- context [(?a <=? ?b)%Z] => destruct (Z.leb_spec a b)
  | |- context [(?a <? ?b)%Z] => destruct (Z.ltb_spec a b)
  | |- context [(?a =? ?b)%Z] => destruct (Z.eqb_spec a b)
  end.

(** One symbolic step of a monadic program under [wp]. *)
Ltac wp_step :=
  lazymatch goal with
  | |- wp (_ ≫= _) _ _ => apply wp_bind
  | |- wp (mret _) _ _ => apply wp_ret
  | |- wp (gets _) _ _ => apply wp_gets; cbn beta
  | |- wp (modify _) _ _ => apply wp_modify; cbn beta
  | |- wp (match ?x with _ => _ end) _ _ => destruct x eqn:?
  end.
