(* ===== verification/Float64.v ===== *)
(** * Float64: the binary64 arithmetic the control plane uses

    Go's [float64] appears in the exponential back-off, the manager's cooldown
    jitter, the splitting of a context deadline, the timeouts of the s6
    commands, the failure rate, the limit of bridges and the numbers of JSON
    documents.  A value is a signed mantissa and a binary exponent; every
    operation rounds its exact result to 53 significant bits, ties to even.
    Infinities, NaNs and subnormals do not arise: the operands are durations
    and tick counts, far from the limits of the exponent. *)

From S2P Require Import Prelude.
Local Open Scope Z_scope.

Record float64 := F { mant : Z; expo : Z }.

(** [|m| / 2^k] to the nearest integer, ties to even, with the sign of [m] ([k > 0]). *)
Definition rne (m k : Z) : Z :=
  let q := Z.abs m / 2 ^ k in
  let r := Z.abs m mod 2 ^ k in
  let half := 2 ^ (k - 1) in
  let q' := if (half <? r) || ((half =? r) && Z.odd q) then q + 1 else q in
  Z.sgn m * q'.

(** Round the exact value [m * 2^e] to binary64. *)
Definition fround (m e : Z) : float64 :=
  let k := Z.log2 (Z.abs m) - 52 in
  if k <=? 0 then F m e else F (rne m k) (e + k).

Definition of_int (z : Z) : float64 := fround z 0.
Definition fmul (a b : float64) : float64 := fround (mant a * mant b) (expo a + expo b).
Definition fadd (a b : float64) : float64 :=
  let e := Z.min (expo a) (expo b) in
  fround (mant a * 2 ^ (expo a - e) + mant b * 2 ^ (expo b - e)) e.
Definition fopp (a : float64) : float64 := F (- mant a) (expo a).
Definition fsub (a b : float64) : float64 := fadd a (fopp b).
(** [a / b] for [b > 0]: 120 extra quotient bits and a sticky bit, then one rounding. *)
Definition fdiv (a b : float64) : float64 :=
  let n := Z.abs (mant a) * 2 ^ 120 in
  let q := 2 * (n / mant b) + (if n mod mant b =? 0 then 0 else 1) in
  fround (Z.sgn (mant a) * q) (expo a - expo b - 121).
Definition fleb (a b : float64) : bool :=
  let e := Z.min (expo a) (expo b) in
  mant a * 2 ^ (expo a - e) <=? mant b * 2 ^ (expo b - e).
(** Conversion to an integer type truncates towards zero. *)
Definition ftrunc (a : float64) : Z :=
  if 0 <=? expo a then mant a * 2 ^ expo a else Z.quot (mant a) (2 ^ (- expo a)).

(** ** Exactness below 2^53 *)

Lemma fround_exact m e : Z.abs m < 2 ^ 53 → fround m e = F m e.
Proof.
  intros H. unfold fround. destruct (Z.leb_spec (Z.log2 (Z.abs m) - 52) 0); [done|].
  destruct (decide (m = 0)) as [->|]; [done|].
  pose proof (Z.log2_spec (Z.abs m)). pose proof (Z.log2_lt_pow2 (Z.abs m) 53). lia.
Qed.

Lemma of_int_exact z : Z.abs z < 2 ^ 53 → of_int z = F z 0.
Proof. apply fround_exact. Qed.

Lemma rne_dist m k : 0 < k → Z.abs (rne m k * 2 ^ k - m) <= 2 ^ (k - 1).
Proof.
  intros Hk. unfold rne.
  pose proof (Z.div_mod (Z.abs m) (2 ^ k)) as Hd.
  pose proof (Z.mod_pos_bound (Z.abs m) (2 ^ k)) as Hb.
  assert (Hp : 2 ^ k = 2 * 2 ^ (k - 1)) by (rewrite <- Z.pow_succ_r; [f_equal; lia|lia]).
  pose proof (Z.pow_pos_nonneg 2 (k - 1)).
  destruct (Z.ltb_spec (2 ^ (k - 1)) (Z.abs m mod 2 ^ k));
    destruct (Z.eqb_spec (2 ^ (k - 1)) (Z.abs m mod 2 ^ k));
    destruct (Z.odd (Z.abs m / 2 ^ k)); simpl; nia.
Qed.

(** A bound that is a multiple of the rounding unit is respected by the rounding. *)
Lemma rne_le m k b : 0 < k → 0 <= m → m <= b * 2 ^ k → rne m k <= b.
Proof.
  intros Hk Hm Hb. pose proof (rne_dist m k Hk).
  assert (Hp : 2 ^ k = 2 * 2 ^ (k - 1)) by (rewrite <- Z.pow_succ_r; [f_equal; lia|lia]).
  pose proof (Z.pow_pos_nonneg 2 (k - 1)).
  assert (rne m k * 2 ^ k <= b * 2 ^ k + 2 ^ (k - 1)) by lia.
  assert (rne m k < b + 1) by nia. lia.
Qed.

Lemma rne_ge m k b : 0 < k → 0 <= m → b * 2 ^ k <= m → b <= rne m k.
Proof.
  intros Hk Hm Hb. pose proof (rne_dist m k Hk).
  assert (Hp : 2 ^ k = 2 * 2 ^ (k - 1)) by (rewrite <- Z.pow_succ_r; [f_equal; lia|lia]).
  pose proof (Z.pow_pos_nonneg 2 (k - 1)).
  assert (b - 1 < rne m k) by nia. lia.
Qed.

(** ** Multiplication and division by 3/2, the multiplier of the back-off policy *)

Definition three_halves : float64 := F 3 (-1).

Lemma fmul_three_halves c : 0 <= c < 2 ^ 51 → ftrunc (fmul (of_int c) three_halves) = 3 * c / 2.
Proof.
  intros H. rewrite of_int_exact by lia. unfold fmul. simpl.
  rewrite fround_exact by lia. unfold ftrunc. simpl.
  rewrite Z.quot_div_nonneg by lia. f_equal; lia.
Qed.

(** The quotient [max / 1.5] before rounding, in units of 2^-120. *)
Lemma third_bounds m :
  0 <= m →
  let q := 2 * (m * 2 ^ 120 / 3) + (if m * 2 ^ 120 mod 3 =? 0 then 0 else 1) in
  - 1 <= 3 * q - 2 * m * 2 ^ 120 <= 1.
Proof.
  intros H q. subst q.
  pose proof (Z.div_mod (m * 2 ^ 120) 3). pose proof (Z.mod_pos_bound (m * 2 ^ 120) 3).
  destruct (Z.eqb_spec (m * 2 ^ 120 mod 3) 0); lia.
Qed.

(** [float64(cur) >= float64(max) / 1.5] decides [3 * cur >= 2 * max] exactly. *)
Lemma fdiv_three_halves_le m c :
  0 < m < 2 ^ 50 → 0 <= c < 2 ^ 50 →
  fleb (fdiv (of_int m) three_halves) (of_int c) = (2 * m <=? 3 * c).
Proof.
  intros Hm Hc. rewrite !of_int_exact by lia. unfold fdiv. simpl mant. simpl expo.
  rewrite Z.abs_eq, Z.sgn_pos by lia. pose proof (third_bounds m) as Hq.
  cbv zeta in Hq. set (q := 2 * _ + _) in *. rewrite Z.mul_1_l.
  assert (Hq0 : 2 ^ 120 <= 3 * q < 2 ^ 172) by lia.
  assert (HL : 118 <= Z.log2 q <= 170).
  { split.
    - apply Z.log2_le_pow2; lia.
    - apply Z.lt_succ_r, Z.log2_lt_pow2; lia. }
  unfold fround. rewrite Z.abs_eq by lia.
  set (k := Z.log2 q - 52) in *. assert (Hk : 66 <= k <= 118) by lia.
  destruct (Z.leb_spec k 0); [lia|]. unfold fleb. simpl mant. simpl expo.
  rewrite Z.min_l, Z.sub_diag, Z.pow_0_r, Z.mul_1_r by lia.
  replace (0 - (0 - -1 - 121 + k)) with (120 - k) by lia.
  pose proof (Z.pow_pos_nonneg 2 (120 - k)) as Hp.
  assert (E : 2 ^ 120 = 2 ^ (120 - k) * 2 ^ k) by (rewrite <- Z.pow_add_r; [f_equal; lia|lia..]).
  pose proof (rne_dist q k) as Hd.
  assert (Hh : 2 ^ k = 2 * 2 ^ (k - 1)) by (rewrite <- Z.pow_succ_r; [f_equal; lia|lia]).
  pose proof (Z.pow_pos_nonneg 2 (k - 1)) as Hh0.
  assert (H4 : 4 <= 2 ^ (120 - k)) by (change 4 with (2 ^ 2); apply Z.pow_le_mono_r; lia).
  destruct (Z.lt_trichotomy (2 * m) (3 * c)) as [Hlt|[Heq|Hgt]].
  - rewrite !(proj2 (Z.leb_le _ _)); [done|lia|]. apply rne_le; [lia..|].
    rewrite <- Z.mul_assoc, <- E. lia.
  - rewrite !(proj2 (Z.leb_le _ _)); [done|lia|]. apply rne_le; [lia..|].
    rewrite <- Z.mul_assoc, <- E. lia.
  - rewrite !(proj2 (Z.leb_gt _ _)); [done|lia|].
    assert (rne q k * 2 ^ k > c * 2 ^ (120 - k) * 2 ^ k); [|nia].
    rewrite <- Z.mul_assoc, <- E. nia.
Qed.

(** ** Sums of integers *)

Lemma fadd_int a b : Z.abs (a + b) < 2 ^ 53 → fadd (F a 0) (F b 0) = F (a + b) 0.
Proof.
  intros H. unfold fadd. cbn [mant expo].
  change (2 ^ (0 - Z.min 0 0)) with 1. rewrite !Z.mul_1_r. by apply fround_exact.
Qed.

Lemma fsub_int a b : Z.abs (a - b) < 2 ^ 53 → fsub (F a 0) (F b 0) = F (a - b) 0.
Proof. intros H. unfold fsub, fopp. cbn [mant expo]. by rewrite fadd_int. Qed.

(** [trunc (cur + r)] for an integer [cur] and [r] in [0, 1), up to the rounding of the sum. *)
Lemma fadd_unit_trunc cur k :
  0 <= k < 2 ^ 53 → 0 <= cur < 2 ^ 50 →
  cur <= ftrunc (fadd (F cur 0) (F k (-53))) <= cur + 1.
Proof.
  intros Hk Hc. unfold fadd. cbn [mant expo].
  change (Z.min 0 (-53)) with (-53). change (0 - -53) with 53. change (-53 - -53) with 0.
  rewrite Z.pow_0_r, Z.mul_1_r.
  set (m := cur * 2 ^ 53 + k). assert (Hm : 0 <= m < 2 ^ 103) by lia.
  unfold fround. rewrite Z.abs_eq by lia. set (d := Z.log2 m - 52).
  destruct (Z.leb_spec d 0).
  - unfold ftrunc. cbn [mant expo]. change (0 <=? -53) with false. cbv iota.
    change (- -53) with 53. rewrite Z.quot_div_nonneg by lia. split.
    + apply Z.div_le_lower_bound; lia.
    + apply Z.lt_succ_r, Z.div_lt_upper_bound; lia.
  - assert (Hd : d <= 50).
    { unfold d. destruct (decide (m = 0)) as [E|]; [rewrite E; simpl; lia|].
      pose proof (Z.log2_lt_pow2 m 103). lia. }
    assert (E : 2 ^ 53 = 2 ^ (53 - d) * 2 ^ d) by (rewrite <- Z.pow_add_r; [f_equal; lia|lia..]).
    pose proof (Z.pow_pos_nonneg 2 (53 - d)) as Hp.
    assert (cur * 2 ^ (53 - d) <= rne m d <= (cur + 1) * 2 ^ (53 - d)).
    { split; [apply rne_ge|apply rne_le]; try lia; rewrite <- Z.mul_assoc, <- E; unfold m; lia. }
    unfold ftrunc. cbn [mant expo]. destruct (Z.leb_spec 0 (-53 + d)); [lia|].
    replace (- (-53 + d)) with (53 - d) by lia.
    rewrite Z.quot_div_nonneg by nia. split.
    + apply Z.div_le_lower_bound; nia.
    + apply Z.lt_succ_r, Z.div_lt_upper_bound; nia.
Qed.

(** ** Rounding respects representable bounds

    [fval a] is the value of [a] in units of 2^-60. *)

Definition fval (a : float64) : Z := mant a * 2 ^ (expo a + 60).
Definition fine (a : float64) : Prop := -60 <= expo a.
Definition representable (v : Z) : Prop := ∃ q j, v = q * 2 ^ j ∧ 0 <= q < 2 ^ 53 ∧ 0 <= j.

Lemma log2_unit m k : 0 < m → k = Z.log2 m - 52 → 0 < k → 2 ^ 52 * 2 ^ k <= m < 2 ^ 53 * 2 ^ k.
Proof.
  intros Hm -> Hk. pose proof (Z.log2_spec m Hm) as [H1 H2].
  rewrite <- !Z.pow_add_r by lia.
  replace (52 + (Z.log2 m - 52)) with (Z.log2 m) by lia.
  by replace (53 + (Z.log2 m - 52)) with (Z.succ (Z.log2 m)) by lia.
Qed.

Lemma fround_between m e lo hi :
  -60 <= e → 0 <= m → lo <= m * 2 ^ (e + 60) <= hi → representable lo → representable hi →
  lo <= fval (fround m e) <= hi ∧ fine (fround m e) ∧ 0 <= mant (fround m e).
Proof.
  intros He Hm Hv (ql & jl & -> & Hql & Hjl) (qh & jh & -> & Hqh & Hjh).
  unfold fround. rewrite Z.abs_eq by done. set (k := Z.log2 m - 52).
  destruct (Z.leb_spec k 0); [done|].
  assert (Hm0 : 0 < m) by (destruct (decide (m = 0)) as [->|]; [by unfold k in *|lia]).
  pose proof (log2_unit m k Hm0 eq_refl ltac:(lia)) as [Hu1 Hu2].
  unfold fval, fine. cbn [mant expo].
  set (u := e + 60) in *. replace (e + k + 60) with (k + u) by lia.
  assert (HP : ∀ i, 0 <= i → 0 < 2 ^ i) by (intros; by apply Z.pow_pos_nonneg).
  pose proof (HP k ltac:(lia)). pose proof (HP u ltac:(lia)). rewrite Z.pow_add_r by lia.
  split; [|split; [lia|]].
  - split.
    + destruct (Z.le_gt_cases (k + u) jl) as [Hj|Hj].
      * assert (∃ d, jl = d + (k + u) ∧ 0 <= d) as (d & -> & Hd) by (exists (jl - (k + u)); lia).
        pose proof (HP d Hd). rewrite !Z.pow_add_r in Hv |- * by lia.
        assert (Hle : ql * 2 ^ d * 2 ^ k <= m) by (apply (Z.mul_le_mono_pos_r _ _ (2 ^ u)); lia).
        rewrite Z.mul_assoc. apply Z.mul_le_mono_nonneg_r; [lia|]. apply rne_ge; lia.
      * assert (2 ^ 52 <= rne m k) by (apply rne_ge; lia).
        assert (2 ^ jl * 2 <= 2 ^ k * 2 ^ u).
        { rewrite <- Z.pow_add_r by lia. rewrite Z.mul_comm, <- Z.pow_succ_r by lia. apply Z.pow_le_mono_r; lia. }
        nia.
    + destruct (Z.le_gt_cases (k + u) jh) as [Hj|Hj].
      * assert (∃ d, jh = d + (k + u) ∧ 0 <= d) as (d & -> & Hd) by (exists (jh - (k + u)); lia).
        pose proof (HP d Hd). rewrite !Z.pow_add_r in Hv |- * by lia.
        assert (Hle : m <= qh * 2 ^ d * 2 ^ k) by (apply (Z.mul_le_mono_pos_r _ _ (2 ^ u)); lia).
        rewrite (Z.mul_assoc qh). apply Z.mul_le_mono_nonneg_r; [lia|]. apply rne_le; lia.
      * assert (2 ^ jh * 2 <= 2 ^ k * 2 ^ u).
        { rewrite <- Z.pow_add_r by lia. rewrite Z.mul_comm, <- Z.pow_succ_r by lia. apply Z.pow_le_mono_r; lia. }
        nia.
  - pose proof (rne_ge m k 0). lia.
Qed.

Lemma fround_exact_le m e : -60 <= e → Z.abs m <= 2 ^ 53 →
  fval (fround m e) = m * 2 ^ (e + 60) ∧ fine (fround m e).
Proof.
  intros He Hm. destruct (decide (Z.abs m = 2 ^ 53)) as [E|].
  - assert (Hs : m = 2 ^ 53 ∨ m = - 2 ^ 53) by lia.
    assert (Hf : fround m e = F (m / 2) (e + 1)) by (destruct Hs as [->| ->]; done).
    rewrite Hf. unfold fval, fine. cbn [mant expo]. split; [|lia].
    replace (e + 1 + 60) with (Z.succ (e + 60)) by lia. rewrite Z.pow_succ_r by lia.
    destruct Hs as [->| ->]; [change (2 ^ 53 / 2) with (2 ^ 52)|change (- 2 ^ 53 / 2) with (- 2 ^ 52)]; lia.
  - rewrite fround_exact by lia. done.
Qed.

Lemma ftrunc_fval a : fine a → 0 <= mant a → ftrunc a = fval a / 2 ^ 60.
Proof.
  intros Hf Hm. unfold fine in Hf. unfold ftrunc, fval.
  destruct (Z.leb_spec 0 (expo a)).
  - rewrite Z.pow_add_r, Z.mul_assoc, Z.div_mul by lia. done.
  - pose proof (Z.pow_pos_nonneg 2 (- expo a)). pose proof (Z.pow_pos_nonneg 2 (expo a + 60)).
    rewrite Z.quot_div_nonneg by lia.
    assert (E : 2 ^ 60 = 2 ^ (- expo a) * 2 ^ (expo a + 60)).
    { rewrite <- Z.pow_add_r by lia. f_equal. lia. }
    rewrite E, Z.div_mul_cancel_r by lia. done.
Qed.

Lemma fadd_value a b : fine a → fine b →
  ∃ m, let e := Z.min (expo a) (expo b) in
    fadd a b = fround m e ∧ m * 2 ^ (e + 60) = fval a + fval b.
Proof.
  unfold fine. intros Ha Hb. eexists. split; [done|]. unfold fval.
  rewrite Z.mul_add_distr_r, <- !Z.mul_assoc, <- !Z.pow_add_r by lia. f_equal; f_equal; f_equal; lia.
Qed.

Lemma fround_expo m e : e <= expo (fround m e).
Proof. unfold fround. destruct (Z.leb_spec (Z.log2 (Z.abs m) - 52) 0); simpl; lia. Qed.

Lemma fround_mant m e : Z.abs m <= 2 ^ 53 → Z.abs (mant (fround m e)) <= 2 ^ 53.
Proof.
  intros Hm. destruct (decide (Z.abs m = 2 ^ 53)) as [E|].
  - assert (Hs : m = 2 ^ 53 ∨ m = - 2 ^ 53) by lia. by destruct Hs as [->| ->].
  - by rewrite fround_exact by lia.
Qed.

Lemma fround_double k e : 0 <= k < 2 ^ 53 → -60 <= e →
  fval (fround (k * 2) e) = k * 2 ^ (e + 61) ∧ fine (fround (k * 2) e).
Proof.
  intros Hk He. replace (e + 61) with (Z.succ (e + 60)) by lia. rewrite Z.pow_succ_r by lia.
  destruct (Z.le_gt_cases (k * 2) (2 ^ 53)).
  - destruct (fround_exact_le (k * 2) e) as [-> ?]; [lia..|]. split; [lia|done].
  - assert (HL : Z.log2 (k * 2) = 53) by (apply Z.log2_unique; lia).
    assert (E : fround (k * 2) e = F k (e + 1)).
    { unfold fround. rewrite Z.abs_eq, HL by lia. cbn [Z.leb]. change (53 - 52) with 1.
      change (1 <=? 0) with false. cbv iota. f_equal. unfold rne. rewrite Z.abs_eq by lia.
      rewrite Z.sgn_pos, Z.pow_1_r, Z.mod_mul, Z.div_mul by lia. simpl. lia. }
    rewrite E. unfold fval, fine. cbn [mant expo]. split; [|lia].
    replace (e + 1 + 60) with (Z.succ (e + 60)) by lia. rewrite Z.pow_succ_r by lia. lia.
Qed.

(** ** The jitter of the manager's cooldowns *)

(** [base * (1 + (r * 2 - 1) * j)], rounded to the nearest integer. *)
Definition jittered (j r : float64) (base : Z) : Z :=
  let factor := fadd (F 1 0) (fmul (fsub (fmul r (F 2 0)) (F 1 0)) j) in
  let delta := fmul (of_int base) factor in
  ftrunc (fadd delta (F 1 (-1))).

Definition one_quarter : float64 := F 1 (-2).

Lemma jitter_factor k : 0 <= k < 2 ^ 53 →
  let f := fadd (F 1 0) (fmul (fsub (fmul (F k (-53)) (F 2 0)) (F 1 0)) one_quarter) in
  3 * 2 ^ 58 <= fval f <= 5 * 2 ^ 58 ∧ fine f ∧ 0 <= mant f.
Proof.
  intros Hk f.
  assert (Hf : f = fadd (F 1 0) (fmul (fsub (fround (k * 2) (-53)) (F 1 0)) one_quarter)) by done.
  clearbody f.
  destruct (fround_double k (-53) Hk ltac:(lia)) as [V1 F1]. pose proof (fround_expo (k * 2) (-53)) as E1.
  set (x1 := fround (k * 2) (-53)) in *. change (2 ^ (-53 + 61)) with (2 ^ 8) in V1.
  unfold fsub in Hf. change (fopp (F 1 0)) with (F (-1) 0) in Hf.
  destruct (fadd_value x1 (F (-1) 0)) as (m2 & Ef2 & V2); [done|unfold fine; simpl; lia|].
  cbn [expo] in *. set (e2 := Z.min (expo x1) 0) in *.
  change (fval (F (-1) 0)) with (- 2 ^ 60) in V2. rewrite Ef2 in Hf.
  assert (He2 : -53 <= e2 <= 0) by lia.
  assert (Hm2 : Z.abs m2 <= 2 ^ 53).
  { assert (2 ^ 7 <= 2 ^ (e2 + 60)) by (apply Z.pow_le_mono_r; lia). nia. }
  destruct (fround_exact_le m2 e2 ltac:(lia) Hm2) as [V2' F2].
  pose proof (fround_mant m2 e2 Hm2) as M2. pose proof (fround_expo m2 e2) as E2.
  set (x2 := fround m2 e2) in *.
  unfold fmul in Hf. cbn [mant expo one_quarter] in Hf. rewrite Z.mul_1_r in Hf.
  destruct (fround_exact_le (mant x2) (expo x2 + -2) ltac:(lia) M2) as [V3 F3].
  set (x3 := fround (mant x2) (expo x2 + -2)) in *.
  assert (V3' : 4 * fval x3 = fval x2).
  { rewrite V3. unfold fval. replace (expo x2 + 60) with (Z.succ (Z.succ (expo x2 + -2 + 60))) by lia.
    rewrite !Z.pow_succ_r by lia. lia. }
  destruct (fadd_value (F 1 0) x3) as (m4 & Ef4 & V4); [unfold fine; simpl; lia|done|].
  cbn [expo] in *. rewrite Ef4 in Hf. subst f. change (fval (F 1 0)) with (2 ^ 60) in V4. unfold fine in *.
  set (e4 := Z.min 0 (expo x3)) in *.
  apply fround_between; [lia| |lia|exists 3, 58; lia|exists 5, 58; lia].
  pose proof (Z.pow_pos_nonneg 2 (e4 + 60)). nia.
Qed.

Lemma jittered_bounds k base : 0 <= k < 2 ^ 53 → 0 <= base < 2 ^ 50 →
  (3 * base + 2) / 4 <= jittered one_quarter (F k (-53)) base <= (5 * base + 2) / 4.
Proof.
  intros Hk Hb. unfold jittered. rewrite of_int_exact by lia.
  pose proof (jitter_factor k Hk) as (V & Ff & M). cbv zeta in *.
  set (f := fadd (F 1 0) _) in *. unfold fmul. cbn [mant expo]. rewrite Z.add_0_l.
  unfold fine in Ff.
  assert (E5 : base * mant f * 2 ^ (expo f + 60) = base * fval f) by (unfold fval; lia).
  destruct (fround_between (base * mant f) (expo f) (3 * base * 2 ^ 58) (5 * base * 2 ^ 58))
    as (V5 & F5 & M5); [lia|nia|rewrite E5; nia|exists (3 * base), 58; lia|exists (5 * base), 58; lia|].
  set (x5 := fround (base * mant f) (expo f)) in *.
  destruct (fadd_value x5 (F 1 (-1))) as (m6 & Ef6 & V6); [done|unfold fine; simpl; lia|].
  cbn [expo] in *. rewrite Ef6. change (fval (F 1 (-1))) with (2 ^ 59) in V6. unfold fine in *.
  set (e6 := Z.min (expo x5) (-1)) in *.
  destruct (fround_between m6 e6 ((3 * base + 2) * 2 ^ 58) ((5 * base + 2) * 2 ^ 58))
    as (V7 & F7 & M7);
    [lia|pose proof (Z.pow_pos_nonneg 2 (e6 + 60)); nia|lia|exists (3 * base + 2), 58; lia|exists (5 * base + 2), 58; lia|].
  rewrite ftrunc_fval by done. split.
  - apply Z.div_le_lower_bound; [lia|]. pose proof (Z.mul_div_le (3 * base + 2) 4). lia.
  - assert ((5 * base + 2) / 4 = (5 * base + 2) * 2 ^ 58 / 2 ^ 60) as ->.
    { change (2 ^ 60) with (4 * 2 ^ 58). by rewrite Z.div_mul_cancel_r. }
    apply Z.div_le_mono; lia.
Qed.
