(* ===== verification/GoRuntime.v ===== *)
(** * GoRuntime: the parts of the Go language and standard library the code uses

    Errors ([errors.New], [fmt.Errorf] with [%w], [errors.Join], [errors.Is],
    [errors.Unwrap]), contexts with deadlines and cancellation, the wall clock
    and the pseudo-random source, and the two context helpers of the
    repository ([pkg/ctxutil/timeout.go], [pkg/constants/loop.go]). *)

From S2P Require Import Prelude Float64.

(** ** Errors *)

(** An [error] value that is not nil; a Go variable of type [error] is an
    [option GoErr].  Package-level sentinels are compared by identity, which
    their package and text determine; errors made on the spot are equal to
    nothing but themselves.  The four errors of [looplab/fsm]
    ([errors.go]) that can arise keep their fields, and so does
    [config.ConfigError] of [fsmv2/config/config_error.go]. *)
#[warnings="-register-all"]
Inductive GoErr : Type :=
  | ENew (msg : string)
  | ESentinel (pkg msg : string)
  | EWrap (prefix : string) (inner : GoErr)
  | EJoin (errs : list GoErr)
  | EInvalidEvent (event state : string)
  | EUnknownEvent (event : string)
  | EInTransition (event : string)
  | ENoTransition
  | EConfig (field : string) (err : option GoErr).

(** [err.Error()]. *)
Fixpoint Error (e : GoErr) : string :=
  match e with
  | ENew msg => msg
  | ESentinel _ msg => msg
  | EWrap prefix inner => prefix +:+ Error inner
  | EJoin errs => (fix go l := match l with
                   | [] => ""
                   | [x] => Error x
                   | x :: l' => Error x +:+ String (Ascii.ascii_of_nat 10) (go l')
                   end) errs
  | EInvalidEvent ev st => "event " +:+ ev +:+ " inappropriate in current state " +:+ st
  | EUnknownEvent ev => "event " +:+ ev +:+ " does not exist"
  | EInTransition ev => "event " +:+ ev +:+ " inappropriate because previous transition did not complete"
  | ENoTransition => "no transition"
  | EConfig field None => field
  | EConfig field (Some inner) => if bool_decide (field = "") then Error inner else field +:+ ": " +:+ Error inner
  end.

(** [errors.Is(err, sentinel)]. *)
Fixpoint Is (e : GoErr) (pkg msg : string) : bool :=
  match e with
  | ESentinel p m => bool_decide (p = pkg ∧ m = msg)
  | EWrap _ inner => Is inner pkg msg
  | EJoin errs => existsb (λ x, Is x pkg msg) errs
  | EConfig _ (Some inner) => Is inner pkg msg
  | _ => false
  end.

Definition IsErr (e target : GoErr) : bool :=
  match target with ESentinel p m => Is e p m | _ => false end.

(** [errors.Unwrap(err)]: [fmt.Errorf] with one [%w] and a config error have an
    [Unwrap() error]. *)
Definition Unwrap (e : GoErr) : option GoErr :=
  match e with EWrap _ inner => Some inner | EConfig _ inner => inner | _ => None end.

Definition Canceled : GoErr := ESentinel "context" "context canceled".
Definition DeadlineExceeded : GoErr := ESentinel "context" "context deadline exceeded".

Lemma IsErr_refl p m : IsErr (ESentinel p m) (ESentinel p m) = true.
Proof. simpl. by rewrite bool_decide_true. Qed.

Lemma Error_wrap_contains p e sub : contains (Error e) sub = true → contains (Error (EWrap p e)) sub = true.
Proof. simpl. apply contains_app_r. Qed.
#[export] Hint Resolve Error_wrap_contains : umh.

(** ** The outside world: the clock and the random source

    [clock] is [time.Now()] in nanoseconds, [randw] the next word of the
    process-wide generator.  Reading either may advance the world. *)
Class World (W : Type) := {
  clock : W → Z * W;
  randw : W → Z * W;
}.

(** [rand.Float64()]: a 53-bit integer divided by 2^53. *)
Definition rand_Float64 `{World W} (w : W) : float64 * W :=
  let (k, w') := randw w in (F (k mod 2 ^ 53)%Z (-53), w').
(** [rand.IntN(n)]: an integer of [0, n). *)
Definition rand_IntN `{World W} (n : Z) (w : W) : Z * W :=
  let (k, w') := randw w in ((k mod n)%Z, w').

Definition Millisecond : Z := 1000000.
Definition Second : Z := 1000 * Millisecond.

(** ** Contexts

    A context carries its deadline and the instant its owner cancels it (an
    instant the program cannot see in advance; it only asks [Err]). *)
Record Ctx := mkCtx { ctx_Deadline : option Z; ctx_cancelled_at : option Z }.

Definition Background : Ctx := mkCtx None None.

Definition passed (o : option Z) (t : Z) : bool :=
  match o with Some d => (d <=? t)%Z | None => false end.

(** [ctx.Err()] at instant [t]: the first of the two events decides. *)
Definition ctx_Err_at (c : Ctx) (t : Z) : option GoErr :=
  match passed (ctx_cancelled_at c) t, passed (ctx_Deadline c) t with
  | true, true =>
      if (default 0 (ctx_cancelled_at c) <? default 0 (ctx_Deadline c))%Z
      then Some Canceled else Some DeadlineExceeded
  | true, false => Some Canceled
  | false, true => Some DeadlineExceeded
  | false, false => None
  end.

Definition ctx_Err `{World W} (c : Ctx) (w : W) : option GoErr * W :=
  let (t, w') := clock w in (ctx_Err_at c t, w').

Definition min_deadline (o : option Z) (d : Z) : option Z :=
  match o with Some d' => Some (Z.min d' d) | None => Some d end.

(** [context.WithDeadline(parent, d)]: never later than the parent. *)
Definition WithDeadline (c : Ctx) (d : Z) : Ctx :=
  mkCtx (min_deadline (ctx_Deadline c) d) (ctx_cancelled_at c).
(** [context.WithTimeout(parent, d)]. *)
Definition WithTimeout `{World W} (c : Ctx) (d : Z) (w : W) : Ctx * W :=
  let (t, w') := clock w in (WithDeadline c (t + d)%Z, w').

(** ** pkg/ctxutil/timeout.go *)

Definition ErrNoDeadline : GoErr := ESentinel "ctxutil" "context has no deadline".

Definition HasSufficientTime `{World W} (ctx : Ctx) (requiredTime : Z) (w : W)
  : (Z * bool * option GoErr) * W :=
  match ctx_Deadline ctx with
  | None => ((0%Z, false, Some ErrNoDeadline), w)
  | Some deadline =>
      let (t, w') := clock w in
      let remaining := (deadline - t)%Z in
      if (remaining <? requiredTime)%Z then ((remaining, false, None), w')
      else ((remaining, true, None), w')
  end.

(** ** pkg/constants/loop.go *)

(** The float64 nearest to 0.80 and to 1.0 - 0.05. *)
Definition UpdateObservedStatePercent : float64 := F 7205759403792794 (-53).
Definition BaseManagerControlLoopTimeFactor : float64 := F 8556839292003942 (-53).
Definition MaxConcurrentFSMOperations : nat := 1000.

(** [time.Duration(float64(d) * f)]. *)
Definition scale_duration (d : Z) (f : float64) : Z := ftrunc (fmul (of_int d) f).

Definition CreateUpdateObservedStateContextWithMinimum `{World W}
    (managerCtx : Ctx) (minimumTimeout : Z) (w : W) : Ctx * W :=
  match ctx_Deadline managerCtx with
  | None => WithTimeout managerCtx minimumTimeout w
  | Some deadline =>
      let (t, w1) := clock w in
      let remainingTime := (deadline - t)%Z in
      if (remainingTime <=? 0)%Z then (managerCtx, w1)
      else
        let percentageTime := scale_duration remainingTime UpdateObservedStatePercent in
        let timeoutDuration :=
          if (minimumTimeout <? percentageTime)%Z then percentageTime else minimumTimeout in
        WithTimeout managerCtx timeoutDuration w1
  end.

(** A context helper never hands out more time than its parent has. *)
Definition within_parent (parent child : Ctx) : Prop :=
  ctx_cancelled_at child = ctx_cancelled_at parent ∧
  match ctx_Deadline parent, ctx_Deadline child with
  | Some d, Some d' => (d' <= d)%Z
  | Some _, None => False
  | None, _ => True
  end.

Lemma WithDeadline_within c d : within_parent c (WithDeadline c d).
Proof. split; [done|]. simpl. destruct (ctx_Deadline c); simpl; [lia|done]. Qed.

Lemma within_parent_refl c : within_parent c c.
Proof. split; [done|]. by destruct (ctx_Deadline c). Qed.
#[export] Hint Resolve WithDeadline_within within_parent_refl : umh.

Section contexts.
Context `{World W}.

(** The update context is derived from the manager's, so its "guaranteed
    minimum" cannot extend the manager's own deadline. *)
Theorem update_context_within (c : Ctx) (m : Z) (w : W) :
  within_parent c (fst (CreateUpdateObservedStateContextWithMinimum c m w)).
Proof.
  unfold CreateUpdateObservedStateContextWithMinimum, WithTimeout.
  destruct (ctx_Deadline c) eqn:E.
  - destruct (clock w) as [t w1]. destruct (_ <=? 0)%Z; [apply within_parent_refl|].
    destruct (clock w1). apply WithDeadline_within.
  - destruct (clock w). apply WithDeadline_within.
Qed.

Lemma ctx_Err_at_mono c t t' : (t <= t')%Z → is_Some (ctx_Err_at c t) → is_Some (ctx_Err_at c t').
Proof.
  unfold ctx_Err_at, passed. intros Hle.
  destruct (ctx_cancelled_at c) as [a|], (ctx_Deadline c) as [d|]; simpl;
    zcases; intros [? ?]; first [done | by eexists | lia].
Qed.
End contexts.

(** A world for concrete runs: a counter that is both clock and random source,
    and that every reading advances by one nanosecond. *)
#[export] Instance counting_world : World Z := {
  clock t := (t, (t + 1)%Z);
  randw t := (t, (t + 1)%Z);
}.
