(* ===== verification/Backoff.v ===== *)
(** * Backoff: tick-based exponential back-off (pkg/backoff)

    [BackoffManager] turns a stream of reconcile errors into a suspension
    expressed in ticks, and into a permanent failure once the retries are
    used up.  Its policy is the vendored cenkalti/backoff exponential policy
    wrapped with a retry limit; one millisecond of that policy is one tick. *)

From S2P Require Import Prelude Float64 GoRuntime.
Local Open Scope Z_scope.

(** ** vendor/github.com/cenkalti/backoff *)

Definition Stop : Z := -1.
Definition DefaultMultiplier : float64 := F 3 (-1).
Definition DefaultMaxElapsedTime : Z := 15 * 60 * Second.

Record ExponentialBackOff := mkExp {
  InitialInterval : Z;
  RandomizationFactor : float64;
  Multiplier : float64;
  MaxInterval : Z;
  MaxElapsedTime : Z;
  currentInterval : Z;
  startTime : Z;
}.

Definition set_currentInterval (i : Z) (b : ExponentialBackOff) : ExponentialBackOff :=
  mkExp (InitialInterval b) (RandomizationFactor b) (Multiplier b) (MaxInterval b)
        (MaxElapsedTime b) i (startTime b).

(** The manager installs a clock that always shows the epoch. *)
Definition TickClock_Now : Z := 0.

Definition exp_Reset (b : ExponentialBackOff) : ExponentialBackOff :=
  mkExp (InitialInterval b) (RandomizationFactor b) (Multiplier b) (MaxInterval b)
        (MaxElapsedTime b) (InitialInterval b) TickClock_Now.

Definition GetElapsedTime (b : ExponentialBackOff) : Z := TickClock_Now - startTime b.

Definition incrementCurrentInterval (b : ExponentialBackOff) : ExponentialBackOff :=
  if fleb (fdiv (of_int (MaxInterval b)) (Multiplier b)) (of_int (currentInterval b))
  then set_currentInterval (MaxInterval b) b
  else set_currentInterval (ftrunc (fmul (of_int (currentInterval b)) (Multiplier b))) b.

Definition getRandomValueFromInterval (randomizationFactor random : float64) (currentInterval : Z) : Z :=
  let delta := fmul randomizationFactor (of_int currentInterval) in
  let minInterval := fsub (of_int currentInterval) delta in
  let maxInterval := fadd (of_int currentInterval) delta in
  ftrunc (fadd minInterval (fmul random (fadd (fsub maxInterval minInterval) (of_int 1)))).

(** [random] is the value [rand.Float64()] returns in this call. *)
Definition exp_NextBackOff (random : float64) (b : ExponentialBackOff) : Z * ExponentialBackOff :=
  if negb (MaxElapsedTime b =? 0) && (MaxElapsedTime b <? GetElapsedTime b)
  then (Stop, b)
  else (getRandomValueFromInterval (RandomizationFactor b) random (currentInterval b),
        incrementCurrentInterval b).

Record backOffTries := mkTries {
  delegate : ExponentialBackOff;
  maxTries : Z;
  numTries : Z;
}.

Definition WithMaxRetries (b : ExponentialBackOff) (max : Z) : backOffTries := mkTries b max 0.

Definition NextBackOff (random : float64) (b : backOffTries) : Z * backOffTries :=
  if 0 <? maxTries b then
    if maxTries b <=? numTries b then (Stop, b)
    else
      let (d, e) := exp_NextBackOff random (delegate b) in
      (d, mkTries e (maxTries b) (numTries b +u64 1))
  else
    let (d, e) := exp_NextBackOff random (delegate b) in
    (d, mkTries e (maxTries b) (numTries b)).

Definition tries_Reset (b : backOffTries) : backOffTries :=
  mkTries (exp_Reset (delegate b)) (maxTries b) 0.

(** ** pkg/backoff/manager.go *)

Definition TemporaryBackoffError : string := "operation suspended due to temporary error".
Definition PermanentFailureError : string := "operation permanently failed after max retries".

Record Config := mkConfig {
  cfg_InitialInterval : Z;
  cfg_MaxInterval : Z;
  cfg_MaxRetries : Z;
}.

Definition DefaultConfig : Config := mkConfig 1 600 5.
Definition NewBackoffConfig (initInterval maxInterval maxRetries : Z) : Config :=
  mkConfig initInterval maxInterval maxRetries.

Record BackoffManager := mkBM {
  lastError : option GoErr;
  backoff : backOffTries;
  suspendedUntilTick : Z;
  ticksToWait : Z;
  permanentFailure : bool;
}.

(** [time.Duration(ticks) * time.Millisecond], in int64. *)
Definition ticks_to_duration (ticks : Z) : Z := wrap_i64 (wrap_i64 ticks * Millisecond).

Definition NewBackoffManager (config : Config) : BackoffManager :=
  let baseBackoff :=
    mkExp (ticks_to_duration (cfg_InitialInterval config)) (F 0 0) DefaultMultiplier
          (ticks_to_duration (cfg_MaxInterval config)) DefaultMaxElapsedTime 0 0 in
  let backoffWithMaxRetries := WithMaxRetries baseBackoff (cfg_MaxRetries config) in
  mkBM None (tries_Reset backoffWithMaxRetries) 0 0 false.

Definition SetError (err : option GoErr) (currentTick : Z) (random : float64)
    (m : BackoffManager) : bool * BackoffManager :=
  if permanentFailure m then
    (true, mkBM err (backoff m) (suspendedUntilTick m) (ticksToWait m) true)
  else
    let (next, b) := NextBackOff random (backoff m) in
    if next =? Stop then (true, mkBM err b 0 (ticksToWait m) true)
    else
      let millis := Z.quot next Millisecond in
      let ticks := wrap_u64 millis in
      let ticks := if ticks <? 1 then 1 else ticks in
      (false, mkBM err b (currentTick +u64 ticks) ticks false).

Definition Reset (m : BackoffManager) : BackoffManager :=
  mkBM None (tries_Reset (backoff m)) 0 (ticksToWait m) false.

Definition ShouldSkipOperation (currentTick : Z) (m : BackoffManager) : bool :=
  if permanentFailure m then true
  else if bool_decide (lastError m = None) || (suspendedUntilTick m =? 0) then false
  else currentTick <? suspendedUntilTick m.

Definition IsPermanentlyFailed (m : BackoffManager) : bool := permanentFailure m.
Definition GetLastError (m : BackoffManager) : option GoErr := lastError m.

(** [fmt.Errorf(prefix + "%w", err)]. *)
Definition wrap_w (prefix : string) (err : option GoErr) : GoErr :=
  match err with
  | Some e => EWrap prefix e
  | None => ENew (prefix +:+ "%!w(<nil>)")
  end.

Definition GetBackoffError (currentTick : Z) (m : BackoffManager) : option GoErr :=
  if permanentFailure m then Some (wrap_w (PermanentFailureError +:+ ": ") (lastError m))
  else if negb (bool_decide (lastError m = None)) && (0 <? suspendedUntilTick m)
          && (currentTick <? suspendedUntilTick m)
  then
    let ticksRemaining := suspendedUntilTick m -u64 currentTick in
    Some (wrap_w (TemporaryBackoffError +:+ " (retry after " +:+ pretty ticksRemaining +:+ " ticks): ")
                 (lastError m))
  else None.

(** ** pkg/backoff/errors.go *)

Definition IsTemporaryBackoffError (err : option GoErr) : bool :=
  match err with None => false | Some e => contains (Error e) TemporaryBackoffError end.
Definition IsPermanentFailureError (err : option GoErr) : bool :=
  match err with None => false | Some e => contains (Error e) PermanentFailureError end.
Definition IsBackoffError (err : option GoErr) : bool :=
  IsTemporaryBackoffError err || IsPermanentFailureError err.

Fixpoint unwrap_all (e : GoErr) : GoErr :=
  match e with EWrap _ inner | EConfig _ (Some inner) => unwrap_all inner | _ => e end.
Definition ExtractOriginalError (err : option GoErr) : option GoErr := unwrap_all <$> err.

Lemma SetError_lastError err tick r m : lastError (SetError err tick r m).2 = err.
Proof.
  unfold SetError. destruct (permanentFailure m); [done|].
  destruct (NextBackOff r (backoff m)) as [n b]. by destruct (n =? Stop).
Qed.

(** An error whose text starts with the marker is recognised as permanent. *)
Lemma permanent_prefix p e : IsPermanentFailureError (Some (EWrap (PermanentFailureError +:+ p) e)) = true.
Proof. unfold IsPermanentFailureError. cbn [Error]. apply contains_app_l, contains_app_l, contains_refl. Qed.

(** ** The exponential policy of the manager *)

(** Interval bounds for which the policy's arithmetic is exact: at most 2^29
    ticks, more than a year at 100 ms per tick. *)
Definition config_ok (c : Config) : Prop :=
  1 <= cfg_InitialInterval c <= cfg_MaxInterval c ∧ cfg_MaxInterval c <= 2 ^ 29 ∧
  in_u64 (cfg_MaxRetries c).

(** What every state of a manager built from [c] satisfies. *)
Record bm_inv (c : Config) (m : BackoffManager) : Prop := {
  inv_initial : InitialInterval (delegate (backoff m)) = cfg_InitialInterval c * Millisecond;
  inv_max : MaxInterval (delegate (backoff m)) = cfg_MaxInterval c * Millisecond;
  inv_factor : RandomizationFactor (delegate (backoff m)) = F 0 0;
  inv_mult : Multiplier (delegate (backoff m)) = three_halves;
  inv_clock : startTime (delegate (backoff m)) = TickClock_Now;
  inv_elapsed : MaxElapsedTime (delegate (backoff m)) = DefaultMaxElapsedTime;
  inv_current : cfg_InitialInterval c * Millisecond <= currentInterval (delegate (backoff m))
                <= cfg_MaxInterval c * Millisecond;
  inv_maxTries : maxTries (backoff m) = cfg_MaxRetries c;
  inv_numTries : 0 <= numTries (backoff m) <= maxTries (backoff m);
}.

(** States reachable through the manager's operations; [k] is the random word drawn. *)
Inductive bm_reach (c : Config) : BackoffManager → Prop :=
  | bm_reach_new : bm_reach c (NewBackoffManager c)
  | bm_reach_error m err tick k :
      bm_reach c m → 0 <= k < 2 ^ 53 → bm_reach c (SetError err tick (F k (-53)) m).2
  | bm_reach_reset m : bm_reach c m → bm_reach c (Reset m).

(** Without jitter the policy returns its current interval, up to one nanosecond
    of rounding in the addition of the random number. *)
Lemma random_value_bounds k cur :
  0 <= k < 2 ^ 53 → 0 <= cur < 2 ^ 50 →
  cur <= getRandomValueFromInterval (F 0 0) (F k (-53)) cur <= cur + 1.
Proof.
  intros Hk Hc. unfold getRandomValueFromInterval.
  rewrite (of_int_exact cur), (of_int_exact 1) by lia.
  assert (Hz : fmul (F 0 0) (F cur 0) = F 0 0) by done. rewrite Hz.
  rewrite fsub_int, fadd_int, fsub_int, fadd_int by lia.
  rewrite Z.sub_0_r, Z.add_0_r, Z.sub_diag. change (0 + 1) with 1.
  assert (Hu : fmul (F k (-53)) (F 1 0) = F k (-53)).
  { unfold fmul. cbn [mant expo]. rewrite Z.mul_1_r, fround_exact by lia. done. }
  rewrite Hu. by apply fadd_unit_trunc.
Qed.

Section policy.
Context (c : Config) (Hc : config_ok c).

Lemma ticks_to_duration_ok t : 0 <= t <= 2 ^ 29 → ticks_to_duration t = t * Millisecond.
Proof. intros. unfold ticks_to_duration, Millisecond. rewrite (wrap_i64_small t), wrap_i64_small by lia. done. Qed.

Lemma bm_inv_new : bm_inv c (NewBackoffManager c).
Proof.
  destruct Hc as (? & ? & ?). split; simpl; rewrite ?ticks_to_duration_ok by lia;
    try done; unfold in_u64, Millisecond in *; lia.
Qed.

Lemma bm_inv_reset m : bm_inv c m → bm_inv c (Reset m).
Proof.
  destruct Hc as (? & ? & ?). intros []. split; simpl; try done.
  - rewrite inv_initial0. unfold Millisecond in *; lia.
  - lia.
Qed.

(** One step of the policy: the interval grows by half, up to the maximum. *)
Lemma increment_spec m :
  bm_inv c m →
  let cur := currentInterval (delegate (backoff m)) in
  currentInterval (incrementCurrentInterval (delegate (backoff m)))
  = Z.min (cfg_MaxInterval c * Millisecond) (3 * cur / 2).
Proof.
  destruct Hc as (? & ? & ?). intros [] cur. subst cur. unfold incrementCurrentInterval.
  rewrite inv_mult0, inv_max0. unfold Millisecond in *.
  rewrite fdiv_three_halves_le by lia. rewrite fmul_three_halves by lia.
  set (cur := currentInterval _) in *. zcases; cbn [set_currentInterval currentInterval];
    Z.to_euclidean_division_equations; lia.
Qed.

Lemma incr_keeps b :
  let b' := incrementCurrentInterval b in
  InitialInterval b' = InitialInterval b ∧ MaxInterval b' = MaxInterval b ∧
  RandomizationFactor b' = RandomizationFactor b ∧ Multiplier b' = Multiplier b ∧
  startTime b' = startTime b ∧ MaxElapsedTime b' = MaxElapsedTime b.
Proof. unfold incrementCurrentInterval. by destruct (fleb _ _). Qed.

(** The policy's step, for a manager that has retries left. *)
Lemma next_backoff_spec m k :
  bm_inv c m → 0 <= k < 2 ^ 53 →
  (0 < cfg_MaxRetries c → numTries (backoff m) < cfg_MaxRetries c) →
  ∃ d b, NextBackOff (F k (-53)) (backoff m) = (d, b) ∧
    currentInterval (delegate (backoff m)) <= d <= currentInterval (delegate (backoff m)) + 1 ∧
    delegate b = incrementCurrentInterval (delegate (backoff m)) ∧
    maxTries b = maxTries (backoff m) ∧
    numTries b = (if 0 <? cfg_MaxRetries c then numTries (backoff m) + 1 else numTries (backoff m)).
Proof.
  intros Hi Hk Hn. pose proof Hc as (? & ? & ?). destruct Hi.
  assert (HE : exp_NextBackOff (F k (-53)) (delegate (backoff m)) =
    (getRandomValueFromInterval (F 0 0) (F k (-53)) (currentInterval (delegate (backoff m))),
     incrementCurrentInterval (delegate (backoff m)))).
  { unfold exp_NextBackOff, GetElapsedTime. by rewrite inv_clock0, inv_elapsed0, inv_factor0. }
  pose proof (random_value_bounds k (currentInterval (delegate (backoff m))) Hk) as HR.
  unfold Millisecond in *.
  unfold NextBackOff. rewrite inv_maxTries0, HE.
  destruct (Z.ltb_spec 0 (cfg_MaxRetries c)).
  - destruct (Z.leb_spec (cfg_MaxRetries c) (numTries (backoff m))); [lia|].
    do 2 eexists. split; [done|]. simpl. rewrite wrap_u64_small by (unfold in_u64 in *; lia).
    rewrite ?inv_maxTries0. split; [apply HR; lia|done].
  - do 2 eexists. split; [done|]. simpl. rewrite ?inv_maxTries0. split; [apply HR; lia|done].
Qed.
End policy.

Definition run_errors (es : list (option GoErr * Z * Z)) (m : BackoffManager) : BackoffManager :=
  fold_left (λ m '(err, tick, k), (SetError err tick (F k (-53)) m).2) es m.

Definition draws_ok (es : list (option GoErr * Z * Z)) : Prop :=
  Forall (λ '(_, _, k), 0 <= k < 2 ^ 53) es.

Section escalation.
Context (c : Config) (Hc : config_ok c).

(** The three outcomes of [SetError]. *)
Definition exhausted (m : BackoffManager) : Prop :=
  permanentFailure m = true ∨ (0 < cfg_MaxRetries c ∧ cfg_MaxRetries c <= numTries (backoff m)).

Lemma set_error_permanent m err tick k :
  bm_inv c m → 0 <= k < 2 ^ 53 → exhausted m →
  ∃ m', SetError err tick (F k (-53)) m = (true, m') ∧ permanentFailure m' = true ∧
    backoff m' = backoff m ∧ lastError m' = err.
Proof.
  intros Hi Hk [Hp|[HR Hn]]; unfold SetError.
  - rewrite Hp. eauto.
  - destruct (permanentFailure m); [eauto|]. destruct Hi.
    unfold NextBackOff. rewrite inv_maxTries0.
    rewrite (proj2 (Z.ltb_lt _ _)), (proj2 (Z.leb_le _ _)) by lia. simpl. eauto.
Qed.

Lemma set_error_temporary m err tick k :
  bm_inv c m → 0 <= k < 2 ^ 53 → ¬ exhausted m →
  let cur := currentInterval (delegate (backoff m)) in
  ∃ m', SetError err tick (F k (-53)) m = (false, m') ∧ permanentFailure m' = false ∧
    lastError m' = err ∧
    cur / Millisecond <= ticksToWait m' <= (cur + 1) / Millisecond ∧
    suspendedUntilTick m' = tick +u64 ticksToWait m' ∧
    delegate (backoff m') = incrementCurrentInterval (delegate (backoff m)) ∧
    maxTries (backoff m') = maxTries (backoff m) ∧
    numTries (backoff m') =
      (if 0 <? cfg_MaxRetries c then numTries (backoff m) + 1 else numTries (backoff m)).
Proof.
  intros Hi Hk Hx cur. unfold exhausted in Hx.
  destruct (next_backoff_spec c Hc m k Hi Hk) as (d & b & HN & Hd & Hb1 & Hb2 & Hb3).
  { intros. destruct (Z.lt_ge_cases (numTries (backoff m)) (cfg_MaxRetries c)); [done|]. tauto. }
  fold cur in Hd. pose proof (inv_current c m Hi) as Hcur. fold cur in Hcur.
  destruct Hc as (? & ? & ?). unfold SetError, Stop, Millisecond in *.
  destruct (permanentFailure m) eqn:Hpf; [tauto|]. rewrite HN.
  destruct (Z.eqb_spec d (-1)); [lia|].
  rewrite Z.quot_div_nonneg by lia.
  assert (Hq : cur / 1000000 <= d / 1000000 <= (cur + 1) / 1000000).
  { split; apply Z.div_le_mono; lia. }
  assert (1 <= cur / 1000000) by (apply Z.div_le_lower_bound; lia).
  assert (d / 1000000 < 2 ^ 50) by (apply Z.div_lt_upper_bound; lia).
  rewrite (wrap_u64_small (d / 1000000)) by (unfold in_u64; lia).
  destruct (Z.ltb_spec (d / 1000000) 1); [lia|].
  eexists. split; [done|]. simpl. umh.
Qed.

Lemma exhausted_dec m : exhausted m ∨ ¬ exhausted m.
Proof. unfold exhausted. destruct (permanentFailure m); [by left; left|]. destruct (Z.lt_ge_cases 0 (cfg_MaxRetries c)), (Z.le_gt_cases (cfg_MaxRetries c) (numTries (backoff m))); naive_solver lia. Qed.

Lemma bm_inv_set_error m err tick k :
  bm_inv c m → 0 <= k < 2 ^ 53 → bm_inv c (SetError err tick (F k (-53)) m).2.
Proof.
  intros Hi Hk. destruct (exhausted_dec m) as [Hx|Hx].
  - destruct (set_error_permanent m err tick k Hi Hk Hx) as (m' & -> & _ & E & _).
    destruct Hi. split; simpl; by rewrite E.
  - destruct (set_error_temporary m err tick k Hi Hk Hx) as (m' & -> & _ & _ & _ & _ & E & E1 & E2).
    pose proof (increment_spec c Hc m Hi) as Hinc. cbv zeta in Hinc.
    destruct (incr_keeps (delegate (backoff m))) as (F1 & F2 & F3 & F4 & F5 & F6).
    destruct Hc as (? & ? & ?). unfold exhausted in Hx. destruct Hi.
    split; simpl; rewrite ?E, ?F1, ?F2, ?F3, ?F4, ?F5, ?F6, ?E1, ?E2; try done.
    + rewrite Hinc. unfold Millisecond in *. Z.to_euclidean_division_equations; lia.
    + destruct (Z.ltb_spec 0 (cfg_MaxRetries c)); [|lia].
      assert (¬ cfg_MaxRetries c <= numTries (backoff m)) by tauto. lia.
Qed.

Lemma bm_reach_inv m : bm_reach c m → bm_inv c m.
Proof. induction 1; eauto using bm_inv_new, bm_inv_reset, bm_inv_set_error. Qed.

Lemma run_errors_permanent es m :
  bm_inv c m → draws_ok es → permanentFailure m = false →
  (0 < cfg_MaxRetries c → 0 <= numTries (backoff m)) →
  permanentFailure (run_errors es m) =
  bool_decide (0 < cfg_MaxRetries c ∧ cfg_MaxRetries c < numTries (backoff m) + Z.of_nat (length es)).
Proof.
  revert m. induction es as [|[[err tick] k] es IH]; intros m Hi Hd Hp Hn.
  { simpl. rewrite Hp. symmetry. apply bool_decide_eq_false. destruct Hi. lia. }
  apply Forall_cons in Hd as [Hk Hd]. simpl. destruct (exhausted_dec m) as [Hx|Hx].
  - destruct (set_error_permanent m err tick k Hi Hk Hx) as (m' & E & Hp' & _ & _).
    pose proof (bm_inv_set_error m err tick k Hi Hk) as Hi'. rewrite E in *. simpl in *.
    assert (Hall : ∀ l m0, draws_ok l → bm_inv c m0 → permanentFailure m0 = true →
      permanentFailure (run_errors l m0) = true).
    { induction l as [|[[e t] j] l IHl]; intros m0 Hl Hi0 Hp0; [done|]. simpl.
      apply Forall_cons in Hl as [Hj Hl]. apply IHl; auto using bm_inv_set_error.
      destruct (set_error_permanent m0 e t j Hi0 Hj (or_introl Hp0)) as (m1 & -> & ? & _). done. }
    rewrite Hall by done. symmetry. apply bool_decide_eq_true.
    destruct Hx; [congruence|lia].
  - destruct (set_error_temporary m err tick k Hi Hk Hx) as (m' & E & Hp' & _ & _ & _ & _ & _ & E2).
    pose proof (bm_inv_set_error m err tick k Hi Hk) as Hi'. rewrite E in *. simpl in *.
    rewrite IH; auto; rewrite E2.
    + destruct (Z.ltb_spec 0 (cfg_MaxRetries c)); apply bool_decide_ext; lia.
    + destruct (Z.ltb_spec 0 (cfg_MaxRetries c)); lia.
Qed.
End escalation.

(** ** Properties *)

(** After a reset, a back-off manager tolerates exactly [MaxRetries] errors in a
    row and declares the permanent failure on the next one; with [MaxRetries = 0]
    it never gives up. *)
Theorem backoff_escalation c m es :
  config_ok c → bm_reach c m → draws_ok es →
  IsPermanentlyFailed (run_errors es (Reset m)) =
  bool_decide (0 < cfg_MaxRetries c ∧ cfg_MaxRetries c < Z.of_nat (length es)).
Proof.
  intros Hc Hr Hd. unfold IsPermanentlyFailed.
  rewrite (run_errors_permanent c Hc); auto using bm_inv_reset, bm_reach_inv. simpl. lia.
Qed.

Lemma backoff_escalation_witness :
  IsPermanentlyFailed (run_errors (repeat (Some (ENew "x"), 7, 1) 6) (Reset (NewBackoffManager DefaultConfig)))
  = bool_decide (0 < 5 ∧ 5 < 6).
Proof.
  apply (backoff_escalation DefaultConfig _ (repeat (Some (ENew "x"), 7, 1) 6)).
  - unfold config_ok, in_u64. simpl. lia.
  - constructor.
  - repeat constructor; simpl; lia.
Defined.

(** Every suspension lasts between the initial and the maximal number of ticks,
    ends at the error's tick plus that number (in uint64), and consecutive
    errors never shorten it. *)
Theorem backoff_wait_bounds c m err tick k err' tick' k' m1 m2 :
  config_ok c → bm_reach c m → 0 <= k < 2 ^ 53 → 0 <= k' < 2 ^ 53 →
  SetError err tick (F k (-53)) m = (false, m1) →
  SetError err' tick' (F k' (-53)) m1 = (false, m2) →
  cfg_InitialInterval c <= ticksToWait m1 <= ticksToWait m2 ∧
  ticksToWait m2 <= cfg_MaxInterval c ∧
  suspendedUntilTick m1 = tick +u64 ticksToWait m1.
Proof.
  intros Hc Hr Hk Hk' E1 E2. pose proof (bm_reach_inv c Hc m Hr) as Hi.
  pose proof (bm_inv_set_error c Hc m err tick k Hi Hk) as Hi1. rewrite E1 in Hi1. simpl in Hi1.
  destruct (exhausted_dec c m) as [Hx|Hx].
  { destruct (set_error_permanent c m err tick k Hi Hk Hx) as (? & ? & _). congruence. }
  destruct (exhausted_dec c m1) as [Hx1|Hx1].
  { destruct (set_error_permanent c m1 err' tick' k' Hi1 Hk' Hx1) as (? & ? & _). congruence. }
  destruct (set_error_temporary c Hc m err tick k Hi Hk Hx) as (n1 & En1 & _ & _ & Ht1 & Hs1 & Hd & _).
  destruct (set_error_temporary c Hc m1 err' tick' k' Hi1 Hk' Hx1) as (n2 & En2 & _ & _ & Ht2 & _).
  rewrite E1 in En1. rewrite E2 in En2. injection En1 as <-. injection En2 as <-.
  pose proof (increment_spec c Hc m Hi) as Hinc. cbv zeta in Hinc. rewrite <- Hd in Hinc.
  pose proof (inv_current c m Hi) as Hcur. rewrite Hinc in Ht2.
  set (cur := currentInterval (delegate (backoff m))) in *.
  destruct Hc as (? & ? & ?). unfold Millisecond in *. split; [|split; [|done]];
    Z.to_euclidean_division_equations; lia.
Qed.

Lemma backoff_wait_bounds_witness :
  let m := NewBackoffManager DefaultConfig in
  let m1 := (SetError (Some (ENew "x")) 7 (F 1 (-53)) m).2 in
  let m2 := (SetError (Some (ENew "y")) 9 (F 2 (-53)) m1).2 in
  1 <= ticksToWait m1 <= ticksToWait m2 ∧ ticksToWait m2 <= 600 ∧
  suspendedUntilTick m1 = 7 +u64 ticksToWait m1.
Proof.
  intros m m1 m2.
  apply (backoff_wait_bounds DefaultConfig m (Some (ENew "x")) 7 1 (Some (ENew "y")) 9 2 m1 m2);
    [unfold config_ok, in_u64; simpl; lia|constructor|lia|lia|vm_compute; done..].
Defined.

(** The two views of a back-off agree: an operation is skipped at a tick exactly
    when there is a back-off error to report at that tick; the error of a
    permanent failure is recognised as permanent and that of a suspension as
    temporary, whatever the last error says. *)
Theorem skip_iff_backoff_error m tick :
  0 <= suspendedUntilTick m →
  ShouldSkipOperation tick m = bool_decide (is_Some (GetBackoffError tick m)) ∧
  (permanentFailure m = true → IsPermanentFailureError (GetBackoffError tick m) = true) ∧
  (permanentFailure m = false → ShouldSkipOperation tick m = true →
   IsTemporaryBackoffError (GetBackoffError tick m) = true).
Proof.
  intros Hs. unfold ShouldSkipOperation, GetBackoffError.
  destruct (permanentFailure m); [split; [done|split; [intros _; simpl|done]]|].
  - by destruct (lastError m).
  - destruct (lastError m) as [e|] eqn:E; [|done].
    rewrite bool_decide_false by done. simpl.
    destruct (Z.eqb_spec (suspendedUntilTick m) 0), (Z.ltb_spec 0 (suspendedUntilTick m)),
      (Z.ltb_spec tick (suspendedUntilTick m)); simpl; try lia; split; try done; split; done.
Qed.

Lemma skip_iff_backoff_error_witness :
  let m := (SetError (Some (ENew "x")) 7 (F 1 (-53)) (NewBackoffManager DefaultConfig)).2 in
  ShouldSkipOperation 7 m = bool_decide (is_Some (GetBackoffError 7 m)) ∧
  (permanentFailure m = true → IsPermanentFailureError (GetBackoffError 7 m) = true) ∧
  (permanentFailure m = false → ShouldSkipOperation 7 m = true →
   IsTemporaryBackoffError (GetBackoffError 7 m) = true).
Proof. intros m. apply (skip_iff_backoff_error m 7). vm_compute. done. Defined.
