(* ===== verification/BaseFSM.v ===== *)
(** * BaseFSM: the state machine under every FSMv1 instance

    [vendor/github.com/looplab/fsm] (the table-driven machine, with the one
    general [enter_state] callback the repository registers) and
    [internal/fsm] (lifecycle states, [BaseFSMInstance]).  Operations run in
    the panic monad over [St X W]: the base instance, the state [X] of the
    concrete instance that embeds it, and the outside world [W]. *)

From S2P Require Import Prelude Float64 GoRuntime Backoff.

(** ** vendor/github.com/looplab/fsm/fsm.go *)

Record EventDesc := mkEvent { ev_Name : string; ev_Src : list string; ev_Dst : string }.

Record FSM := mkFSM {
  current : string;
  transitions : gmap (string * string) string;
  transition : bool;  (** [f.transition != nil]: a transition is in progress *)
}.

Definition add_event (tbl : gmap (string * string) string) (e : EventDesc) :=
  fold_left (λ t src, <[(ev_Name e, src) := ev_Dst e]> t) (ev_Src e) tbl.

Definition NewFSM (initial : string) (events : list EventDesc) : FSM :=
  mkFSM initial (fold_left add_event events ∅) false.

Definition SetState (state : string) (f : FSM) : FSM := mkFSM state (transitions f) (transition f).
Definition set_transition (b : bool) (f : FSM) : FSM := mkFSM (current f) (transitions f) b.

Definition Can (event : string) (f : FSM) : bool :=
  bool_decide (is_Some (transitions f !! (event, current f))) && negb (transition f).

(** [for ekey := range f.transitions { if ekey.event == event ...]. *)
Definition has_event (event : string) (tbl : gmap (string * string) string) : bool :=
  existsb (λ kv, bool_decide (kv.1.1 = event)) (map_to_list tbl).

(** ** internal/fsm/lifecycle_states.go *)

Definition LifecycleEventRemove : string := "remove".
Definition LifecycleEventRemoveDone : string := "remove_done".
Definition LifecycleEventCreate : string := "create".
Definition LifecycleEventCreateDone : string := "create_done".
Definition LifecycleStateToBeCreated : string := "to_be_created".
Definition LifecycleStateCreating : string := "creating".
Definition LifecycleStateRemoving : string := "removing".
Definition LifecycleStateRemoved : string := "removed".

Definition IsLifecycleState (state : string) : bool :=
  bool_decide (state ∈ [LifecycleStateToBeCreated; LifecycleStateCreating;
                        LifecycleStateRemoving; LifecycleStateRemoved]).

(** ** internal/fsm/baseFSM.go *)

Definition DefaultMaxTicksToRemainInTransientState : Z := 600.
Definition ExpectedMaxP95ExecutionTimePerEvent : Z := Millisecond.
Definition FSMTransitionTimeout : Z := 200 * Millisecond.
Definition ErrInstanceRemoved : GoErr := ESentinel "standarderrors" "instance removed".
Definition ErrRemovalPending : GoErr := ESentinel "standarderrors" "service removal still in progress".

Record BaseFSMInstanceConfig := mkBaseCfg {
  cfg_ID : string;
  cfg_DesiredFSMState : string;
  cfg_OperationalStateAfterCreate : string;
  cfg_OperationalStateBeforeRemove : string;
  cfg_OperationalTransitions : list EventDesc;
  cfg_MaxTicksToRemainInTransientState : Z;
}.

(** The callbacks the repository registers either only log, or are the
    closure [Remove] arms. *)
Inductive Callback := CbLog | CbAutoRemove.

Record BaseFSMInstance := mkBase {
  cfg : BaseFSMInstanceConfig;
  fsm : FSM;
  callbacks : gmap string Callback;
  backoffManager : BackoffManager;
  lastObservedLifecycleState : string;
  transientStreakCounter : Z;
}.

Definition set_fsm (f : FSM → FSM) (b : BaseFSMInstance) : BaseFSMInstance :=
  mkBase (cfg b) (f (fsm b)) (callbacks b) (backoffManager b)
         (lastObservedLifecycleState b) (transientStreakCounter b).
Definition set_callbacks (f : gmap string Callback → gmap string Callback) (b : BaseFSMInstance) :=
  mkBase (cfg b) (fsm b) (f (callbacks b)) (backoffManager b)
         (lastObservedLifecycleState b) (transientStreakCounter b).
Definition set_backoff (m : BackoffManager) (b : BaseFSMInstance) : BaseFSMInstance :=
  mkBase (cfg b) (fsm b) (callbacks b) m
         (lastObservedLifecycleState b) (transientStreakCounter b).
Definition set_streak (st : string) (n : Z) (b : BaseFSMInstance) : BaseFSMInstance :=
  mkBase (cfg b) (fsm b) (callbacks b) (backoffManager b) st n.

Definition lifecycle_events (cfg : BaseFSMInstanceConfig) : list EventDesc := [
  mkEvent LifecycleEventCreate [LifecycleStateToBeCreated] LifecycleStateCreating;
  mkEvent LifecycleEventCreateDone [LifecycleStateCreating] (cfg_OperationalStateAfterCreate cfg);
  mkEvent LifecycleEventRemove [cfg_OperationalStateBeforeRemove cfg] LifecycleStateRemoving;
  mkEvent LifecycleEventRemoveDone [LifecycleStateRemoving] LifecycleStateRemoved ].

Definition AddCallback (eventName : string) (cb : Callback) (b : BaseFSMInstance) : BaseFSMInstance :=
  set_callbacks (insert eventName cb) b.

Definition NewBaseFSMInstance (c : BaseFSMInstanceConfig) (backoffConfig : Config) : BaseFSMInstance :=
  let c := if (cfg_MaxTicksToRemainInTransientState c =? 0)%Z
           then mkBaseCfg (cfg_ID c) (cfg_DesiredFSMState c) (cfg_OperationalStateAfterCreate c)
                  (cfg_OperationalStateBeforeRemove c) (cfg_OperationalTransitions c)
                  DefaultMaxTicksToRemainInTransientState
           else c in
  let events := lifecycle_events c ++ cfg_OperationalTransitions c in
  let b := mkBase c (NewFSM LifecycleStateToBeCreated events) ∅ (NewBackoffManager backoffConfig) "" 0 in
  AddCallback ("enter_" +:+ LifecycleStateRemoving) CbLog
    (AddCallback ("enter_" +:+ LifecycleStateToBeCreated) CbLog
      (AddCallback ("enter_" +:+ LifecycleStateCreating) CbLog
        (AddCallback ("enter_" +:+ LifecycleStateRemoved) CbLog b))).

Definition GetID (b : BaseFSMInstance) : string := cfg_ID (cfg b).
Definition base_GetDesiredFSMState (b : BaseFSMInstance) : string := cfg_DesiredFSMState (cfg b).
Definition base_GetCurrentFSMState (b : BaseFSMInstance) : string := current (fsm b).
Definition SetCurrentFSMState (state : string) (b : BaseFSMInstance) : BaseFSMInstance :=
  set_fsm (SetState state) b.
Definition base_SetDesiredFSMState (state : string) (b : BaseFSMInstance) : BaseFSMInstance :=
  mkBase (mkBaseCfg (cfg_ID (cfg b)) state (cfg_OperationalStateAfterCreate (cfg b))
            (cfg_OperationalStateBeforeRemove (cfg b)) (cfg_OperationalTransitions (cfg b))
            (cfg_MaxTicksToRemainInTransientState (cfg b)))
         (fsm b) (callbacks b) (backoffManager b) (lastObservedLifecycleState b) (transientStreakCounter b).
Definition IsRemoved (b : BaseFSMInstance) : bool := bool_decide (current (fsm b) = LifecycleStateRemoved).
Definition IsRemoving (b : BaseFSMInstance) : bool := bool_decide (current (fsm b) = LifecycleStateRemoving).
Definition ShouldSkipReconcileBecauseOfError (tick : Z) (b : BaseFSMInstance) : bool :=
  ShouldSkipOperation tick (backoffManager b).
Definition base_GetBackoffError (tick : Z) (b : BaseFSMInstance) : option GoErr :=
  GetBackoffError tick (backoffManager b).
(** [ClearError] and, but for the log deduplication, [ResetState]. *)
Definition ResetState (b : BaseFSMInstance) : BaseFSMInstance := set_backoff (Reset (backoffManager b)) b.
Definition IsTransientStreakCounterMaxed (b : BaseFSMInstance) : bool :=
  (cfg_MaxTicksToRemainInTransientState (cfg b) <=? transientStreakCounter b)%Z.

(** *** Operations with effects *)

Record St (X W : Type) := mkSt { base : BaseFSMInstance; own : X; env : W }.
Arguments mkSt {X W} _ _ _.
Arguments base {X W} _.
Arguments own {X W} _.
Arguments env {X W} _.

Section operations.
Context {X W : Type} `{World W}.
Local Abbreviation M' := (M (St X W)).

Definition liftE {A} (f : W → A * W) : M' A :=
  λ s, let (a, w) := f (env s) in Some (a, mkSt (base s) (own s) w).
Definition on_base (f : BaseFSMInstance → BaseFSMInstance) : M' unit :=
  modify (λ s, mkSt (f (base s)) (own s) (env s)).
Definition on_own (f : X → X) : M' unit := modify (λ s, mkSt (base s) (f (own s)) (env s)).

(** [SetError]; the random number is only used while the policy has retries left. *)
Definition base_SetError (err : GoErr) (tick : Z) : M' bool :=
  r ← liftE rand_Float64;
  b ← gets base;
  let (isPermanent, m) := SetError (Some err) tick r (backoffManager b) in
  _ ← on_base (set_backoff m);
  mret isPermanent.

(** [FSM.Event]; [enter] is what the [enter_state] callback does with the state entered. *)
Definition Event (enter : Ctx → string → M' unit) (ctx : Ctx) (event : string) : M' (option GoErr) :=
  b ← gets base;
  let f := fsm b in
  if transition f then mret (Some (EInTransition event))
  else
    match transitions f !! (event, current f) with
    | None =>
        if has_event event (transitions f) then mret (Some (EInvalidEvent event (current f)))
        else mret (Some (EUnknownEvent event))
    | Some dst =>
        if bool_decide (current f = dst) then mret (Some ENoTransition)
        else
          _ ← on_base (set_fsm (set_transition true));
          expired ← liftE (ctx_Err ctx);
          match expired with
          | Some err =>
              _ ← on_base (set_fsm (set_transition false));
              mret (Some err)
          | None =>
              _ ← on_base (set_fsm (λ f, set_transition false (SetState dst f)));
              _ ← enter ctx dst;
              mret None
          end
    end.

(** The [enter_state] callback of [NewBaseFSMInstance], with the closure armed by [Remove]. *)
Definition run_callback (send : Ctx → string → M' (option GoErr)) (ctx : Ctx) (dst : string) : M' unit :=
  b ← gets base;
  match callbacks b !! ("enter_" +:+ dst) with
  | Some CbAutoRemove =>
      err ← send ctx LifecycleEventRemove;
      _ ← match err with
          | Some e =>
              _ ← base_SetError (EWrap (PermanentFailureError +:+ ": remove transition failed: ") e) 0;
              mret tt
          | None => mret tt
          end;
      on_base (set_callbacks (delete "auto_remove_once"))
  | Some CbLog => mret tt
  | None => mret tt
  end.

Definition transition_failed (b : BaseFSMInstance) (eventName : string) (err : GoErr) : GoErr :=
  EWrap ("FSM " +:+ GetID b +:+ " failed transition: current_state='" +:+ base_GetCurrentFSMState b
         +:+ "' -> event='" +:+ eventName +:+ "' (desired_state='" +:+ base_GetDesiredFSMState b +:+ "'): ") err.

(** [SendEvent]; [depth] bounds how deeply callbacks may send events. *)
Fixpoint send_event (depth : nat) (ctx : Ctx) (eventName : string) : M' (option GoErr) :=
  match depth with
  | O => panic
  | S depth' =>
      e ← liftE (ctx_Err ctx);
      match e with
      | Some err => mret (Some err)
      | None =>
          tooLate ← match ctx_Deadline ctx with
                    | Some deadline =>
                        t ← liftE clock;
                        mret (deadline - t <? ExpectedMaxP95ExecutionTimePerEvent)%Z
                    | None => mret false
                    end;
          if tooLate : bool then mret (Some DeadlineExceeded)
          else
            b ← gets base;
            fsmCtx ← liftE (WithTimeout Background FSMTransitionTimeout);
            err ← Event (run_callback (send_event depth')) fsmCtx eventName;
            match err with
            | Some e => mret (Some (transition_failed b eventName e))
            | None => mret None
            end
      end
  end.

(** An event and the removal event its entry callback may send. *)
Definition SendEvent : Ctx → string → M' (option GoErr) := send_event 2.

Definition Remove (ctx : Ctx) : M' (option GoErr) :=
  b ← gets base;
  if IsRemoved b || IsRemoving b then mret None
  else
    let preRemove := cfg_OperationalStateBeforeRemove (cfg b) in
    _ ← on_base (base_SetDesiredFSMState preRemove);
    if bool_decide (base_GetCurrentFSMState b = preRemove) && Can LifecycleEventRemove (fsm b)
    then SendEvent ctx LifecycleEventRemove
    else
      match callbacks b !! "auto_remove_once" with
      | Some _ => mret None
      | None =>
          _ ← on_base (AddCallback ("enter_" +:+ preRemove) CbAutoRemove);
          mret None
      end.

Definition force_remove_failed (b : BaseFSMInstance) (err : GoErr) : GoErr :=
  EWrap ("failed to force remove the " +:+ GetID b +:+ " instance: " +:+ PermanentFailureError +:+ " : ") err.

Definition HandlePermanentError (ctx : Ctx) (err : option GoErr) (isInShutdownState : M' bool)
    (normalRemove forceRemove : Ctx → M' (option GoErr)) : M' (option GoErr * bool) :=
  shutdown ← isInShutdownState;
  if shutdown : bool then
    forceErr ← forceRemove ctx;
    b ← gets base;
    match forceErr with
    | Some e => mret (Some (force_remove_failed b e), false)
    | None =>
        _ ← on_base (SetCurrentFSMState LifecycleStateRemoved);
        mret (err, true)
    end
  else
    _ ← on_base ResetState;
    removeErr ← normalRemove ctx;
    match removeErr with
    | Some _ =>
        forceErr ← forceRemove ctx;
        b ← gets base;
        match forceErr with
        | Some e => mret (Some (force_remove_failed b e), false)
        | None =>
            _ ← on_base (SetCurrentFSMState LifecycleStateRemoved);
            mret (None, false)
        end
    | None => mret (None, false)
    end.

Definition ReconcileLifecycleStates (ctx : Ctx) (currentState : string)
    (createInstance removeInstance : Ctx → M' (option GoErr)) (checkForCreation : Ctx → M' bool)
    : M' (option GoErr * bool) :=
  b ← gets base;
  _ ← (if bool_decide (currentState = lastObservedLifecycleState b)
       then on_base (set_streak currentState (transientStreakCounter b +u64 1))
       else on_base (set_streak currentState 0));
  if bool_decide (currentState = LifecycleStateToBeCreated) then
    err ← createInstance ctx;
    match err with
    | Some e => mret (Some e, false)
    | None => e ← SendEvent ctx LifecycleEventCreate; mret (e, true)
    end
  else if bool_decide (currentState = LifecycleStateCreating) then
    created ← checkForCreation ctx;
    if created : bool then e ← SendEvent ctx LifecycleEventCreateDone; mret (e, true)
    else mret (None, false)
  else if bool_decide (currentState = LifecycleStateRemoving) then
    err ← removeInstance ctx;
    match err with
    | Some e => if IsErr e ErrRemovalPending then mret (None, false) else mret (Some e, false)
    | None => e ← SendEvent ctx LifecycleEventRemoveDone; mret (e, true)
    end
  else if bool_decide (currentState = LifecycleStateRemoved) then mret (Some ErrInstanceRemoved, true)
  else mret (None, false).

Definition IsDeadlineExceededAndHandle (err : GoErr) (tick : Z) : M' bool :=
  if IsErr err DeadlineExceeded then
    _ ← base_SetError err tick;
    mret true
  else mret false.
End operations.

(** ** What sending an event does *)

Definition at_state (state : string) (b : BaseFSMInstance) : BaseFSMInstance := set_fsm (SetState state) b.

Lemma at_state_id b st : current (fsm b) = st → at_state st b = b.
Proof. destruct b as [? [c ? ?] ? ? ? ?]. simpl. intros <-. reflexivity. Qed.

Definition armed (b : BaseFSMInstance) (state : string) : Prop :=
  callbacks b !! ("enter_" +:+ state) = Some CbAutoRemove.

Lemma armed_at_state b st st' : armed (at_state st b) st' ↔ armed b st'.
Proof. reflexivity. Qed.

#[export] Instance armed_dec b state : Decision (armed b state).
Proof. unfold armed. destruct (callbacks b !! _) as [[]|]; [right|left|right]; done. Defined.

(** The errors a context causes, possibly wrapped. *)
Fixpoint ctx_failure (e : GoErr) : Prop :=
  match e with
  | ESentinel _ _ => e = Canceled ∨ e = DeadlineExceeded
  | EWrap _ inner => ctx_failure inner
  | _ => False
  end.

(** The errors by which the state machine refuses an event. *)
Fixpoint event_refused (e : GoErr) : bool :=
  match e with
  | EInvalidEvent _ _ | EUnknownEvent _ | EInTransition _ | ENoTransition => true
  | EWrap _ inner => event_refused inner
  | EJoin errs => existsb event_refused errs
  | EConfig _ (Some inner) => event_refused inner
  | EConfig _ None | ENew _ | ESentinel _ _ => false
  end.

Lemma ctx_failure_not_refused e : ctx_failure e → event_refused e = false.
Proof. induction e; simpl; intros; done || eauto. Qed.
#[export] Hint Resolve ctx_failure_not_refused : umh.

(** Between operations no transition is pending, and only entering the
    pre-removal state can start the automatic removal. *)
Record base_wf (b : BaseFSMInstance) : Prop := {
  wf_idle : transition (fsm b) = false;
  wf_armed : ∀ state, armed b state → state = cfg_OperationalStateBeforeRemove (cfg b);
  wf_once : callbacks b !! "auto_remove_once" = None;
}.

Definition not_allowed (b : BaseFSMInstance) (ev : string) : Prop :=
  transitions (fsm b) !! (ev, current (fsm b)) = None ∨
  transitions (fsm b) !! (ev, current (fsm b)) = Some (current (fsm b)).

(** [sent b ev r b']: sending [ev] to [b] returns [r] and leaves [b']. *)
Inductive sent (b : BaseFSMInstance) (ev : string) : option GoErr → BaseFSMInstance → Prop :=
  | sent_rejected e : not_allowed b ev ∨ ctx_failure e → sent b ev (Some e) b
  | sent_moved dst :
      transitions (fsm b) !! (ev, current (fsm b)) = Some dst → dst ≠ current (fsm b) →
      ¬ armed b dst → sent b ev None (at_state dst b)
  | sent_removed dst dst' :
      transitions (fsm b) !! (ev, current (fsm b)) = Some dst → dst ≠ current (fsm b) →
      armed b dst → transitions (fsm b) !! (LifecycleEventRemove, dst) = Some dst' → dst' ≠ dst →
      sent b ev None (at_state dst' b)
  | sent_remove_failed dst e k :
      transitions (fsm b) !! (ev, current (fsm b)) = Some dst → dst ≠ current (fsm b) →
      armed b dst → not_allowed (at_state dst b) LifecycleEventRemove ∨ ctx_failure e →
      (0 <= k < 2 ^ 53)%Z →
      sent b ev None
        (set_backoff (SetError (Some (EWrap (PermanentFailureError +:+ ": remove transition failed: ") e)) 0
                               (F k (-53)) (backoffManager b)).2 (at_state dst b)).

Lemma ctx_Err_failure c t e : ctx_Err_at c t = Some e → ctx_failure e.
Proof.
  unfold ctx_Err_at, ctx_failure. destruct (passed _ _), (passed _ _); try destruct (_ <? _)%Z;
    intros ?; simplify_eq; [left|right|left|right]; done.
Qed.

Lemma ctx_failure_wrap p e : ctx_failure e → ctx_failure (EWrap p e).
Proof. done. Qed.
#[export] Hint Resolve ctx_Err_failure ctx_failure_wrap : umh.

Lemma rand_Float64_range `{World W} w f w' :
  rand_Float64 w = (f, w') → ∃ k, f = F k (-53) ∧ (0 <= k < 2 ^ 53)%Z.
Proof.
  unfold rand_Float64. destruct (randw w) as [k ?]. intros [= <- <-].
  eexists. split; [done|]. apply Z.mod_pos_bound. lia.
Qed.

Section send.
Context {X W : Type} `{World W}.
Implicit Types (s : St X W) (b : BaseFSMInstance).

Lemma wp_liftE {A} (f : W → A * W) (Q : A → St X W → Prop) s :
  (∀ a w, f (env s) = (a, w) → Q a (mkSt (base s) (own s) w)) → wp (liftE f) Q s.
Proof.
  intros HQ. unfold wp, liftE. destruct (f (env s)) as [a w] eqn:E.
  exists a, (mkSt (base s) (own s) w). auto.
Qed.

Lemma wp_on_base f (Q : unit → St X W → Prop) s :
  Q tt (mkSt (f (base s)) (own s) (env s)) → wp (on_base f) Q s.
Proof. intros HQ. unfold on_base. by apply wp_modify. Qed.

Lemma wp_base_SetError err tick (Q : bool → St X W → Prop) s :
  (∀ k w r m, (0 <= k < 2 ^ 53)%Z → SetError (Some err) tick (F k (-53)) (backoffManager (base s)) = (r, m) →
     Q r (mkSt (set_backoff m (base s)) (own s) w)) →
  wp (base_SetError err tick) Q s.
Proof.
  intros HQ. unfold base_SetError. apply wp_bind, wp_liftE. intros f w Hr.
  destruct (rand_Float64_range _ _ _ Hr) as (k & -> & Hk).
  apply wp_bind, wp_gets. simpl. destruct (SetError _ _ _ _) as [r m] eqn:E.
  apply wp_bind, wp_on_base, wp_ret. simpl. eauto.
Qed.

Lemma set_fsm_idle b dst : transition (fsm b) = false →
  set_fsm (λ f, set_transition false (SetState dst f)) (set_fsm (set_transition true) b) = at_state dst b.
Proof. intros E. destruct b as [? [? ? ?] ? ? ? ?]. simpl in *. by subst. Qed.

Lemma set_fsm_cancelled b : transition (fsm b) = false →
  set_fsm (set_transition false) (set_fsm (set_transition true) b) = b.
Proof. intros E. destruct b as [? [? ? ?] ? ? ? ?]. simpl in *. by subst. Qed.

(** One level of [send_event]: rejected with the instance untouched, or moved
    with only the entry callback left to run. *)
Lemma wp_send_event_unroll n ctx ev (Q : option GoErr → St X W → Prop) s :
  base_wf (base s) →
  (∀ e w, not_allowed (base s) ev ∨ ctx_failure e → Q (Some e) (mkSt (base s) (own s) w)) →
  (∀ dst ctx' w, transitions (fsm (base s)) !! (ev, current (fsm (base s))) = Some dst →
     dst ≠ current (fsm (base s)) →
     wp (run_callback (send_event n) ctx' dst) (λ _ s', Q None s') (mkSt (at_state dst (base s)) (own s) w)) →
  wp (send_event (S n) ctx ev) Q s.
Proof.
  intros [Hidle _ _] Hrej Hmove. cbn [send_event].
  apply wp_bind, wp_liftE. intros e w He. unfold ctx_Err in He. destruct (clock _) as [t w0].
  injection He as He <-. destruct e as [err|]; [apply wp_ret; eauto with umh|].
  apply wp_bind. eapply wp_mono with (Q := λ _ s', ∃ w, s' = mkSt (base s) (own s) w).
  { destruct (ctx_Deadline ctx); [|apply wp_ret; eauto].
    apply wp_bind, wp_liftE. intros. apply wp_ret. eauto. }
  intros tooLate ? [w1 ->]. destruct tooLate.
  { apply wp_ret, Hrej. right. by right. }
  apply wp_bind, wp_gets. cbn [base]. apply wp_bind, wp_liftE. intros fctx w2 _.
  apply wp_bind. unfold Event. apply wp_bind, wp_gets. cbn [base]. rewrite Hidle.
  destruct (transitions _ !! _) as [dst|] eqn:Ht.
  2:{ destruct (has_event _ _); apply wp_ret, wp_ret, Hrej; left; by left. }
  case_bool_decide as Hc.
  { apply wp_ret, wp_ret, Hrej. left. right. by rewrite Ht, Hc. }
  apply wp_bind, wp_on_base. apply wp_bind, wp_liftE. cbn [base own env]. intros e w3 He'.
  unfold ctx_Err in He'. destruct (clock w2) as [t' w3']. injection He' as He' <-.
  destruct e as [err|].
  - apply wp_bind, wp_on_base. cbn [base own env]. rewrite set_fsm_cancelled by done.
    apply wp_ret, wp_ret, Hrej. eauto with umh.
  - apply wp_bind, wp_on_base. cbn [base own env]. rewrite set_fsm_idle by done.
    apply wp_bind. eapply wp_mono; [by apply Hmove|]. intros [] s' HQ. by apply wp_ret, wp_ret.
Qed.

Lemma wp_run_callback_plain send ctx dst (Q : unit → St X W → Prop) s :
  ¬ armed (base s) dst → Q tt s → wp (run_callback send ctx dst) Q s.
Proof.
  intros Ha HQ. unfold run_callback. apply wp_bind, wp_gets.
  unfold armed in Ha. destruct (callbacks (base s) !! _) as [[]|]; [by apply wp_ret|done|by apply wp_ret].
Qed.

Lemma at_state_wf b dst : base_wf b → base_wf (at_state dst b).
Proof. intros []. by split. Qed.

Lemma set_backoff_wf b m : base_wf b → base_wf (set_backoff m b).
Proof. intros []. by split. Qed.

Lemma delete_once b : base_wf b → set_callbacks (delete "auto_remove_once") b = b.
Proof. intros []. destruct b. unfold set_callbacks. simpl in *. by rewrite delete_id. Qed.

(** [SendEvent] always returns, and does exactly what [sent] says. *)
Lemma wp_SendEvent ctx ev (Q : option GoErr → St X W → Prop) s :
  base_wf (base s) →
  (∀ r b' w, sent (base s) ev r b' → base_wf b' → Q r (mkSt b' (own s) w)) →
  wp (SendEvent ctx ev) Q s.
Proof.
  intros Hwf HQ. unfold SendEvent. apply wp_send_event_unroll; [done|..].
  { intros e w He. apply HQ; [by constructor|done]. }
  intros dst ctx' w Ht Hne. set (b := base s) in *.
  destruct (decide (armed b dst)) as [Ha|Ha].
  2:{ apply wp_run_callback_plain; [done|]. apply HQ; [by constructor|by apply at_state_wf]. }
  assert (Hwf' : base_wf (at_state dst b)) by by apply at_state_wf.
  unfold run_callback. apply wp_bind, wp_gets. cbn [base].
  change (callbacks (at_state dst b)) with (callbacks b). rewrite Ha.
  apply wp_bind, wp_send_event_unroll; [done|..]; cbn [base own].
  - intros e w1 He. apply wp_bind, wp_bind, wp_base_SetError. intros k w2 r m Hk Hm.
    apply wp_ret, wp_on_base. cbn [base own env] in *.
    rewrite delete_once by by apply set_backoff_wf.
    change (backoffManager (at_state dst b)) with (backoffManager b) in Hm.
    apply HQ; [|by apply set_backoff_wf].
    replace m with (SetError (Some (EWrap (PermanentFailureError +:+ ": remove transition failed: ") e)) 0
                             (F k (-53)) (backoffManager b)).2 by by rewrite Hm.
    by eapply sent_remove_failed.
  - intros dst' ctx'' w1 Ht' Hne'. apply wp_run_callback_plain; cbn [base].
    { intros Ha'. apply Hne'. cbn. transitivity (cfg_OperationalStateBeforeRemove (cfg b)).
      - by apply (wf_armed b Hwf).
      - symmetry. by apply (wf_armed b Hwf). }
    apply wp_bind, wp_ret, wp_on_base. cbn [base own env].
    rewrite delete_once by by do 2 apply at_state_wf.
    change (at_state dst' (at_state dst b)) with (at_state dst' b).
    apply HQ; [by eapply sent_removed|by apply at_state_wf].
Qed.
End send.

(** ** Removal *)

Definition preRemove (b : BaseFSMInstance) : string := cfg_OperationalStateBeforeRemove (cfg b).

(** [removal b r b']: what [Remove] returns and leaves. *)
Inductive removal (b : BaseFSMInstance) : option GoErr → BaseFSMInstance → Prop :=
  | removal_idempotent : IsRemoved b || IsRemoving b = true → removal b None b
  | removal_fired r b' :
      IsRemoved b || IsRemoving b = false → current (fsm b) = preRemove b →
      sent (base_SetDesiredFSMState (preRemove b) b) LifecycleEventRemove r b' → removal b r b'
  | removal_armed :
      IsRemoved b || IsRemoving b = false →
      (current (fsm b) = preRemove b → Can LifecycleEventRemove (fsm b) = false) →
      removal b None (AddCallback ("enter_" +:+ preRemove b) CbAutoRemove
                        (base_SetDesiredFSMState (preRemove b) b)).

Lemma enter_inj s1 s2 : ("enter_" +:+ s1)%string = "enter_" +:+ s2 → s1 = s2.
Proof. apply (inj (String.append "enter_")). Qed.

Lemma set_desired_wf b st : base_wf b → base_wf (base_SetDesiredFSMState st b).
Proof. intros []. by split. Qed.

Lemma armed_AddCallback b st cb st' :
  armed (AddCallback ("enter_" +:+ st) cb b) st' ↔
  if decide (st = st') then cb = CbAutoRemove else armed b st'.
Proof.
  unfold armed, AddCallback, set_callbacks. simpl. rewrite lookup_insert. case_decide as E.
  - apply enter_inj in E as ->. rewrite decide_True by done. naive_solver.
  - rewrite decide_False; [done|]. intros ->. done.
Qed.

Lemma add_auto_remove_wf b : base_wf b → base_wf (AddCallback ("enter_" +:+ preRemove b) CbAutoRemove b).
Proof.
  intros []. split; simpl; [done|..].
  - intros st. rewrite armed_AddCallback. case_decide; [done|]. apply wf_armed0.
  - by rewrite lookup_insert_ne.
Qed.

Section removal.
Context {X W : Type} `{World W}.
Implicit Types (s : St X W) (b : BaseFSMInstance).

Lemma wp_Remove ctx (Q : option GoErr → St X W → Prop) s :
  base_wf (base s) →
  (∀ r b' w, removal (base s) r b' → base_wf b' → Q r (mkSt b' (own s) w)) →
  wp (Remove ctx) Q s.
Proof.
  intros Hwf HQ. unfold Remove. apply wp_bind, wp_gets. set (b := base s) in *.
  destruct (IsRemoved b || IsRemoving b) eqn:Hr.
  { apply wp_ret. destruct s. apply HQ; [by constructor|done]. }
  apply wp_bind, wp_on_base. fold b.
  assert (Hwf' : base_wf (base_SetDesiredFSMState (preRemove b) b)) by by apply set_desired_wf.
  destruct (bool_decide _ && _) eqn:Hc.
  - apply andb_true_iff in Hc as [Hc%bool_decide_eq_true _].
    apply wp_SendEvent; [done|]. simpl. intros r b' w Hs ?. apply HQ; [|done].
    by apply removal_fired.
  - rewrite (wf_once b Hwf). apply wp_bind, wp_on_base, wp_ret. simpl.
    apply HQ; [|by apply (add_auto_remove_wf (base_SetDesiredFSMState _ _))].
    apply removal_armed; [done|]. intros Hcur. apply andb_false_iff in Hc as [Hc|Hc]; [|done].
    by apply bool_decide_eq_false in Hc.
Qed.

(** The closure armed by [Remove] outlives every later event. *)
Lemma sent_armed b ev r b' st : sent b ev r b' → armed b st → armed b' st.
Proof. by destruct 1. Qed.

Lemma sent_cfg b ev r b' : sent b ev r b' → cfg b' = cfg b ∧ transitions (fsm b') = transitions (fsm b).
Proof. by destruct 1. Qed.
End removal.

(** ** The lifecycle handlers *)

Section lifecycle.
Context {X W : Type} `{World W}.
Implicit Types (s : St X W) (b : BaseFSMInstance).

Lemma set_streak_wf b st n : base_wf b → base_wf (set_streak st n b).
Proof. intros []. by split. Qed.

Lemma reset_wf b : base_wf b → base_wf (ResetState b).
Proof. apply set_backoff_wf. Qed.

(** The observation [ReconcileLifecycleStates] records before anything else. *)
Definition observe (st : string) (b : BaseFSMInstance) : BaseFSMInstance :=
  if bool_decide (st = lastObservedLifecycleState b)
  then set_streak st (transientStreakCounter b +u64 1) b else set_streak st 0 b.

Lemma observe_wf st b : base_wf b → base_wf (observe st b).
Proof. unfold observe. case_bool_decide; apply set_streak_wf. Qed.

Lemma observe_fsm st b : fsm (observe st b) = fsm b.
Proof. unfold observe. by case_bool_decide. Qed.

Lemma wp_observe st {A} (k : unit → M (St X W) A) (Q : A → St X W → Prop) s :
  wp (k tt) Q (mkSt (observe st (base s)) (own s) (env s)) →
  wp ((if bool_decide (st = lastObservedLifecycleState (base s))
       then on_base (set_streak st (transientStreakCounter (base s) +u64 1))
       else on_base (set_streak st 0)) ≫= k) Q s.
Proof.
  unfold observe. case_bool_decide; intros HQ; apply wp_bind, wp_on_base; done.
Qed.

Lemma wp_deadline err tick (Q : bool → St X W → Prop) s :
  (IsErr err DeadlineExceeded = false → Q false s) →
  (IsErr err DeadlineExceeded = true →
   ∀ k w r m, (0 <= k < 2 ^ 53)%Z → SetError (Some err) tick (F k (-53)) (backoffManager (base s)) = (r, m) →
     Q true (mkSt (set_backoff m (base s)) (own s) w)) →
  wp (IsDeadlineExceededAndHandle err tick) Q s.
Proof.
  intros H1 H2. unfold IsDeadlineExceededAndHandle. destruct (IsErr err DeadlineExceeded).
  - apply wp_bind, wp_base_SetError. intros. apply wp_ret. eauto.
  - apply wp_ret. auto.
Qed.
End lifecycle.

(** ** Sending an event the table allows *)

(** Everything but the current state and the back-off stays as it was. *)
Definition same_machine (b b' : BaseFSMInstance) : Prop :=
  cfg b' = cfg b ∧ transitions (fsm b') = transitions (fsm b) ∧ callbacks b' = callbacks b.

Lemma same_machine_refl b : same_machine b b.
Proof. done. Qed.
Lemma same_machine_trans b1 b2 b3 : same_machine b1 b2 → same_machine b2 b3 → same_machine b1 b3.
Proof. unfold same_machine. intros (? & ? & ?) (? & ? & ?). split; [|split]; congruence. Qed.
Lemma sent_same_machine b ev r b' : sent b ev r b' → same_machine b b'.
Proof. by destruct 1. Qed.
#[export] Hint Resolve same_machine_refl sent_same_machine : umh.

(** An allowed event is refused only by its context, and then nothing changes;
    otherwise the machine is in the table's destination, or was removed from it. *)
Lemma sent_allowed b ev r b' dst :
  transitions (fsm b) !! (ev, current (fsm b)) = Some dst → dst ≠ current (fsm b) → sent b ev r b' →
  (∃ e, r = Some e ∧ ctx_failure e ∧ b' = b) ∨
  (r = None ∧ (current (fsm b') = dst ∨
     armed b dst ∧ transitions (fsm b) !! (LifecycleEventRemove, dst) = Some (current (fsm b')))).
Proof.
  intros Ht Hne Hs. destruct Hs as [e He|d Hd|d d' Hd ? ? Hd'|d e k Hd].
  - left. exists e. destruct He as [[He|He]|He]; [congruence| |done]. simplify_eq.
  - right. split; [done|]. left. simpl. congruence.
  - right. split; [done|]. right. simplify_eq. by simpl.
  - right. split; [done|]. left. simpl. congruence.
Qed.

(** What [ReconcileLifecycleStates] does with an observed instance [b], when
    the errors of the instance's own actions satisfy [E]. *)
Inductive lifecycle_result (E : GoErr → Prop) (b : BaseFSMInstance) (cur : string)
  : option GoErr → bool → BaseFSMInstance → Prop :=
  | lifecycle_wait e : (∀ x, e = Some x → E x) → lifecycle_result E b cur e false b
  | lifecycle_sent ev r b' :
      (cur, ev) ∈ [(LifecycleStateToBeCreated, LifecycleEventCreate);
                   (LifecycleStateCreating, LifecycleEventCreateDone);
                   (LifecycleStateRemoving, LifecycleEventRemoveDone)] →
      sent b ev r b' → lifecycle_result E b cur r true b'
  | lifecycle_gone : cur = LifecycleStateRemoved →
      lifecycle_result E b cur (Some ErrInstanceRemoved) true b.

(** An action of a concrete instance: it returns, leaves the instance alone (what
    it does is outside, in the world), and its errors satisfy [E]. *)
Definition action_ok {X W A} (E : A → Prop) (m : M (St X W) A) : Prop :=
  ∀ s, wp m (λ r s', base s' = base s ∧ own s' = own s ∧ E r) s.

Definition on_error (E : GoErr → Prop) (r : option GoErr) : Prop := ∀ e, r = Some e → E e.

Section reconcile_lifecycle.
Context {X W : Type} `{World W} (E : GoErr → Prop).
Implicit Types (s : St X W).

Lemma wp_ReconcileLifecycleStates ctx cur create remove check
    (Q : option GoErr * bool → St X W → Prop) s :
  (∀ c, action_ok (on_error E) (create c)) → (∀ c, action_ok (on_error E) (remove c)) →
  (∀ c, action_ok (λ _, True) (check c)) →
  base_wf (base s) →
  (∀ e r s', lifecycle_result E (observe cur (base s)) cur e r (base s') → base_wf (base s') →
     own s' = own s → Q (e, r) s') →
  wp (ReconcileLifecycleStates ctx cur create remove check) Q s.
Proof.
  intros Hc Hr Hk Hwf HQ. unfold ReconcileLifecycleStates.
  apply wp_bind, wp_gets, wp_observe.
  assert (Hwf' : base_wf (observe cur (base s))) by by apply observe_wf.
  set (b := observe cur (base s)) in *.
  assert (Hsend : ∀ ev s', base s' = b → own s' = own s →
    (cur, ev) ∈ [(LifecycleStateToBeCreated, LifecycleEventCreate);
                 (LifecycleStateCreating, LifecycleEventCreateDone);
                 (LifecycleStateRemoving, LifecycleEventRemoveDone)] →
    wp (SendEvent ctx ev ≫= λ e, mret (e, true)) Q s').
  { intros ev s' Hs' Ho Hin. apply wp_bind, wp_SendEvent; rewrite Hs'; [done|].
    intros r b' w Hsent ?. apply wp_ret, HQ; [|done..]. by eapply lifecycle_sent. }
  case_bool_decide as E1; [|case_bool_decide as E2; [|case_bool_decide as E3; [|case_bool_decide as E4]]].
  - apply wp_bind. eapply wp_mono; [apply Hc|]. intros [e|] s' (Hs' & Ho & He).
    + apply wp_ret, HQ; rewrite ?Hs'; [by constructor|done..].
    + apply Hsend; [done..|]. rewrite E1. by left.
  - apply wp_bind. eapply wp_mono; [apply Hk|]. intros [] s' (Hs' & Ho & _).
    + apply Hsend; [done..|]. rewrite E2. right. by left.
    + apply wp_ret, HQ; rewrite ?Hs'; [by constructor|done..].
  - apply wp_bind. eapply wp_mono; [apply Hr|]. intros [e|] s' (Hs' & Ho & He).
    + destruct (IsErr e ErrRemovalPending); apply wp_ret, HQ; rewrite ?Hs'; first [done | by constructor].
    + apply Hsend; [done..|]. rewrite E3. right. right. by left.
  - apply wp_ret, HQ; [by constructor|done..].
  - apply wp_ret, HQ; [by constructor|done..].
Qed.
End reconcile_lifecycle.

(** ** Undisturbed events *)

(** Two consecutive readings of the clock are less than a millisecond apart. *)
Class PromptClock (W : Type) `{World W} :=
  prompt : ∀ w, ((clock (clock w).2).1 < (clock w).1 + Millisecond)%Z.

Section calm.
Context {X W : Type} `{World W} `{!PromptClock W}.
Implicit Types (s : St X W).

Lemma ctx_Err_Background w : (ctx_Err Background w).1 = None.
Proof. unfold ctx_Err. by destruct (clock w). Qed.

(** A context that nobody cancels and that has at least [10 ms] left. *)
Definition open_ctx (ctx : Ctx) (w : W) : Prop :=
  ctx_cancelled_at ctx = None ∧ ∀ d, ctx_Deadline ctx = Some d → ((clock w).1 + 10 * Millisecond <= d)%Z.

Lemma open_Background w : open_ctx Background w.
Proof. done. Qed.

Lemma open_later ctx w e w' :
  ctx_cancelled_at ctx = None → (∀ d, ctx_Deadline ctx = Some d → ((clock w).1 + Millisecond <= d)%Z) →
  ctx_Err ctx w = (e, w') → e = None ∧ w' = (clock w).2.
Proof.
  intros Hc Hd. unfold ctx_Err, ctx_Err_at, passed. destruct (clock w) as [t w1]. rewrite Hc. simpl in *.
  destruct (ctx_Deadline ctx) as [d|]; intros [= <- <-]; [|done].
  specialize (Hd d eq_refl). destruct (Z.leb_spec d t); [unfold Millisecond in *; lia|done].
Qed.

(** With an open context, an allowed event moves the machine, and the entry
    callback runs with an open context. *)
Lemma wp_send_event_calm n ctx ev dst (Q : option GoErr → St X W → Prop) s :
  base_wf (base s) → transitions (fsm (base s)) !! (ev, current (fsm (base s))) = Some dst →
  dst ≠ current (fsm (base s)) → open_ctx ctx (env s) →
  (∀ ctx' w, open_ctx ctx' w →
     wp (run_callback (send_event n) ctx' dst) (λ _ s', Q None s') (mkSt (at_state dst (base s)) (own s) w)) →
  wp (send_event (S n) ctx ev) Q s.
Proof.
  intros [Hidle _ _] Ht Hne [Hc Hd] HQ. cbn [send_event]. pose proof (prompt (env s)) as Hp.
  apply wp_bind, wp_liftE. intros e w He. apply open_later in He as [-> ->]; [|done|].
  2:{ intros d Ed. specialize (Hd d Ed). unfold Millisecond in *. lia. }
  apply wp_bind. eapply (wp_mono _ (λ l s', l = false ∧ ∃ w, s' = mkSt (base s) (own s) w)).
  { destruct (ctx_Deadline ctx) as [d|]; [|apply wp_ret; eauto]. specialize (Hd d eq_refl).
    apply wp_bind, wp_liftE. cbn [env]. intros t w2 E. rewrite E in Hp. simpl in Hp. apply wp_ret. split; [|by eexists].
    apply Z.ltb_ge. unfold ExpectedMaxP95ExecutionTimePerEvent, Millisecond in *. lia. }
  intros l ? [-> [w ->]]. apply wp_bind, wp_gets. cbn [base].
  apply wp_bind, wp_liftE. cbn [base own env]. intros fctx w1 Hf. unfold WithTimeout in Hf.
  pose proof (prompt w) as Hp1. destruct (clock w) as [t w'] eqn:Ec. injection Hf as <- ->. simpl in Hp1.
  apply wp_bind. unfold Event. apply wp_bind, wp_gets. cbn [base]. rewrite Hidle, Ht.
  rewrite bool_decide_false by done. apply wp_bind, wp_on_base, wp_bind, wp_liftE. cbn [base own env].
  intros e w2 He2. pose proof (prompt w1) as Hp2. apply open_later in He2 as [-> ->]; [|done|].
  2:{ intros d [= <-]. unfold FSMTransitionTimeout, Millisecond in *. lia. }
  apply wp_bind, wp_on_base. cbn [base own env]. rewrite set_fsm_idle by done.
  apply wp_bind. eapply wp_mono; [apply HQ|].
  { split; [done|]. intros d [= <-]. unfold FSMTransitionTimeout, Millisecond in *. lia. }
  intros [] s' HQ'. by apply wp_ret, wp_ret.
Qed.

(** Without a deadline, an allowed event moves the machine. *)
Lemma wp_SendEvent_calm ev dst (Q : option GoErr → St X W → Prop) s :
  base_wf (base s) → transitions (fsm (base s)) !! (ev, current (fsm (base s))) = Some dst →
  dst ≠ current (fsm (base s)) → ¬ armed (base s) dst →
  (∀ w, Q None (mkSt (at_state dst (base s)) (own s) w)) →
  wp (SendEvent Background ev) Q s.
Proof.
  intros Hwf Ht Hne Ha HQ. apply (wp_send_event_calm _ _ _ dst); [done..|apply open_Background|].
  intros ctx' w _. by apply wp_run_callback_plain.
Qed.

(** The same when the destination is armed: the removal event follows at once. *)
Lemma wp_SendEvent_armed ev dst dst' (Q : option GoErr → St X W → Prop) s :
  base_wf (base s) → transitions (fsm (base s)) !! (ev, current (fsm (base s))) = Some dst →
  dst ≠ current (fsm (base s)) → armed (base s) dst →
  transitions (fsm (base s)) !! (LifecycleEventRemove, dst) = Some dst' → dst' ≠ dst →
  (∀ w, Q None (mkSt (at_state dst' (base s)) (own s) w)) →
  wp (SendEvent Background ev) Q s.
Proof.
  intros Hwf Ht Hne Ha Ht' Hne' HQ. apply (wp_send_event_calm _ _ _ dst); [done..|apply open_Background|].
  intros ctx' w Hopen. unfold run_callback. apply wp_bind, wp_gets. cbn [base].
  change (callbacks (at_state dst (base s))) with (callbacks (base s)). rewrite Ha.
  apply wp_bind, (wp_send_event_calm _ _ _ dst'); [by apply at_state_wf|done..|].
  intros ctx'' w1 _. apply wp_run_callback_plain; cbn [base].
  { intros Ha'. apply Hne'. transitivity (cfg_OperationalStateBeforeRemove (cfg (base s))).
    - by apply (wf_armed (base s) Hwf).
    - symmetry. by apply (wf_armed (base s) Hwf). }
  apply wp_bind, wp_ret, wp_on_base. cbn [base own env].
  rewrite delete_once by by do 2 apply at_state_wf. apply HQ.
Qed.
End calm.

(** ** The permanent-failure handler *)

(** The outcomes of [HandlePermanentError]: a failure the manager recognises,
    a removed instance, or an accepted removal of a reset instance. *)
Inductive permanent_result (err : option GoErr) (N : BaseFSMInstance → Prop)
  : option GoErr → bool → BaseFSMInstance → Prop :=
  | permanent_forced_failed e b : IsPermanentFailureError (Some e) = true → permanent_result err N (Some e) false b
  | permanent_forced b : current (fsm b) = LifecycleStateRemoved → permanent_result err N err true b
  | permanent_forced_late b : current (fsm b) = LifecycleStateRemoved → permanent_result err N None false b
  | permanent_removing b : N b → permanent_result err N None false b.

Lemma force_remove_failed_permanent b e : IsPermanentFailureError (Some (force_remove_failed b e)) = true.
Proof.
  simpl. apply contains_app_l, contains_app_r, contains_app_r, contains_app_r.
  apply contains_app_l, contains_refl.
Qed.

Section permanent.
Context {X W : Type} `{World W}.
Implicit Types (s : St X W).

Lemma wp_HandlePermanentError ctx err shutdown normal force (N : BaseFSMInstance → Prop)
    (Q : option GoErr * bool → St X W → Prop) s :
  base_wf (base s) →
  action_ok (λ _, True) shutdown → (∀ c, action_ok (λ _, True) (force c)) →
  (∀ s1, base s1 = ResetState (base s) → own s1 = own s →
     wp (normal ctx) (λ r s', base_wf (base s') ∧ own s' = own s ∧ (r = None → N (base s'))) s1) →
  (∀ e r s', permanent_result err N e r (base s') → base_wf (base s') → own s' = own s → Q (e, r) s') →
  wp (HandlePermanentError ctx err shutdown normal force) Q s.
Proof.
  intros Hwf Hs Hf Hn HQ. unfold HandlePermanentError.
  apply wp_bind. eapply wp_mono; [apply Hs|]. intros [] s1 (E1 & O1 & _).
  - apply wp_bind. eapply wp_mono; [apply Hf|]. intros [e|] s2 (E2 & O2 & _); apply wp_bind, wp_gets.
    + apply wp_ret, HQ; [constructor; apply force_remove_failed_permanent|congruence..].
    + apply wp_bind, wp_on_base, wp_ret, HQ; [by apply permanent_forced| |simpl; congruence].
      apply at_state_wf. congruence.
  - apply wp_bind, wp_on_base. rewrite E1. apply wp_bind. eapply wp_mono; [by apply Hn|].
    intros [e|] s2 (Hwf2 & O2 & HN).
    + apply wp_bind. eapply wp_mono; [apply Hf|]. intros [e'|] s3 (E3 & O3 & _); apply wp_bind, wp_gets.
      * apply wp_ret, HQ; [constructor; apply force_remove_failed_permanent|congruence..].
      * apply wp_bind, wp_on_base, wp_ret, HQ; [by apply permanent_forced_late| |simpl; congruence].
        apply at_state_wf. congruence.
    + apply wp_ret, HQ; [apply permanent_removing; auto|done..].
Qed.

(** Whatever the outcome, a property that a reset, the normal removal and the
    forced move to [removed] keep is kept. *)
Lemma wp_HandlePermanentError_keeps ctx err shutdown normal force (P : BaseFSMInstance → Prop) s :
  action_ok (λ _, True) shutdown → (∀ c, action_ok (λ _, True) (force c)) →
  (∀ b, P b → P (ResetState b)) → (∀ b, P b → P (SetCurrentFSMState LifecycleStateRemoved b)) →
  (∀ s1, P (base s1) → wp (normal ctx) (λ _ s', P (base s') ∧ own s' = own s1) s1) →
  P (base s) →
  wp (HandlePermanentError ctx err shutdown normal force) (λ _ s', P (base s') ∧ own s' = own s) s.
Proof.
  intros Hs Hf HR HS Hn HP. unfold HandlePermanentError.
  apply wp_bind. eapply wp_mono; [apply Hs|]. intros [] s1 (E1 & O1 & _).
  - apply wp_bind. eapply wp_mono; [apply Hf|]. intros [e|] s2 (E2 & O2 & _); apply wp_bind, wp_gets.
    + apply wp_ret. split; congruence.
    + apply wp_bind, wp_on_base, wp_ret. simpl. split; [apply HS|]; congruence.
  - apply wp_bind, wp_on_base. apply wp_bind. eapply wp_mono.
    { apply Hn. simpl. apply HR. congruence. }
    simpl. intros [e|] s2 (HP2 & O2); [|apply wp_ret; split; congruence].
    apply wp_bind. eapply wp_mono; [apply Hf|]. intros [e'|] s3 (E3 & O3 & _); apply wp_bind, wp_gets.
    + apply wp_ret. split; congruence.
    + apply wp_bind, wp_on_base, wp_ret. simpl. split; [apply HS|]; congruence.
Qed.
End permanent.

(** ** A freshly created instance *)

Lemma NewBase_callbacks c bc key : callbacks (NewBaseFSMInstance c bc) !! key ≠ Some CbAutoRemove.
Proof.
  unfold NewBaseFSMInstance, AddCallback, set_callbacks. simpl.
  rewrite !lookup_insert. repeat case_decide; try done.
Qed.

Lemma NewBase_wf c bc : base_wf (NewBaseFSMInstance c bc).
Proof.
  split; [done|..].
  - intros st Ha. by destruct (NewBase_callbacks c bc _ Ha).
  - unfold NewBaseFSMInstance, AddCallback, set_callbacks. simpl.
    rewrite !lookup_insert_ne by done. apply lookup_empty.
Qed.

Lemma NewBase_preRemove c bc : preRemove (NewBaseFSMInstance c bc) = cfg_OperationalStateBeforeRemove c.
Proof. unfold preRemove. simpl. by destruct (_ =? _)%Z. Qed.

(** ** Properties *)

Section properties.
Context {X W : Type} `{World W}.
Implicit Types (s : St X W) (b : BaseFSMInstance).

Fixpoint run_events (evs : list (Ctx * string)) : M (St X W) unit :=
  match evs with
  | [] => mret tt
  | (ctx, ev) :: evs' => _ ← SendEvent ctx ev; run_events evs'
  end.

Lemma wp_run_events evs (P : BaseFSMInstance → Prop) s :
  (∀ b ev r b', P b → sent b ev r b' → P b') →
  base_wf (base s) → P (base s) →
  wp (run_events evs) (λ _ s', base_wf (base s') ∧ P (base s')) s.
Proof.
  intros HP. revert s. induction evs as [|[ctx ev] evs IH]; intros s Hwf Hs; [by apply wp_ret|].
  apply wp_bind, wp_SendEvent; [done|]. intros r b' w Hsent Hwf'. apply IH; [done|]. simpl. eauto.
Qed.

(** C8: sending an event always returns: no run of callbacks is deeper than the
    event and the removal it triggers.  The instance is left either as it was
    (with the reason: the table does not allow the event, or the context is
    done), or in the table's destination, or, when a removal is armed there,
    removed from it; and it is never left with a transition pending, so that
    a later event is not refused for that reason. *)
Theorem send_event_total ctx ev s :
  base_wf (base s) →
  ∃ r b' w', SendEvent ctx ev s = Some (r, mkSt b' (own s) w') ∧
    sent (base s) ev r b' ∧ base_wf b' ∧ transition (fsm b') = false.
Proof.
  intros Hwf.
  destruct (wp_SendEvent ctx ev (λ r s', own s' = own s ∧ sent (base s) ev r (base s') ∧ base_wf (base s')) s)
    as (r & [b' o w'] & E & Ho & Hs & Hwf'); [done|by auto|]. simpl in *. subst o.
  exists r, b', w'. split; [done|]. split; [done|]. split; [done|]. apply Hwf'.
Qed.

(** C1: a removal that was requested is never undone.  Once [Remove] was called on
    a running instance, whatever desired state is set afterwards and whatever
    events follow, the next event that would bring the instance to rest in its
    pre-removal state takes it out of that state again by the removal event;
    if that fails, the failure is recorded as permanent. *)
Theorem removal_request_persists ctx desired evs ctx' ev dst' s :
  base_wf (base s) → IsRemoved (base s) || IsRemoving (base s) = false →
  current (fsm (base s)) ≠ preRemove (base s) →
  transitions (fsm (base s)) !! (LifecycleEventRemove, preRemove (base s)) = Some dst' →
  wp (_ ← Remove ctx; _ ← on_base (base_SetDesiredFSMState desired); run_events evs)
     (λ _ s1,
        transitions (fsm (base s1)) !! (ev, current (fsm (base s1))) = Some (preRemove (base s)) →
        current (fsm (base s1)) ≠ preRemove (base s) →
        wp (SendEvent ctx' ev) (λ r s2, r = None →
            current (fsm (base s2)) = dst' ∨
            IsPermanentFailureError (GetLastError (backoffManager (base s2))) = true) s1) s.
Proof.
  intros Hwf Hr Hc Hd. apply wp_bind, wp_Remove; [done|]. intros r b' w Hrm Hwf'.
  assert (Hb' : b' = AddCallback ("enter_" +:+ preRemove (base s)) CbAutoRemove
                       (base_SetDesiredFSMState (preRemove (base s)) (base s))) by by destruct Hrm; try congruence.
  apply wp_bind, wp_on_base.
  eapply wp_mono; [apply (wp_run_events _ (λ b, armed b (preRemove (base s)) ∧
      transitions (fsm b) = transitions (fsm (base s))))|].
  - intros b0 ev0 r0 b1 [? ?] Hs. split; [by eapply sent_armed|]. by rewrite (proj2 (sent_cfg _ _ _ _ Hs)).
  - simpl. by apply set_desired_wf.
  - simpl. rewrite Hb'. split; [|done]. unfold armed. simpl. by rewrite lookup_insert_eq.
  - intros [] s1 (Hwf1 & Ha & Ht) Hev Hne. apply wp_SendEvent; [done|]. intros r2 b2 w2 Hs _ ->. simpl.
    inversion Hs as [|d Hd1 Hd2 Hd3|d d' Hd1 Hd2 Hd3 Hd4|d e k Hd1]; subst.
    + congruence.
    + left. simpl. rewrite Ht in *. congruence.
    + right. unfold GetLastError. simpl. rewrite SetError_lastError. apply permanent_prefix.
Qed.

(** A removal that goes on by itself: the instance is being removed already, or
    rests elsewhere with the removal event armed where it is sent to. *)
Definition removal_under_way (b : BaseFSMInstance) : Prop :=
  IsRemoved b || IsRemoving b = true ∨
  base_GetDesiredFSMState b = preRemove b ∧ armed b (preRemove b) ∧ current (fsm b) ≠ preRemove b.

Lemma removal_goes_on b b' :
  base_wf b → transitions (fsm b) !! (LifecycleEventRemove, preRemove b) = Some LifecycleStateRemoving →
  removal b None b' → removal_under_way b' ∧ backoffManager b' = backoffManager b.
Proof.
  intros Hwf Ht Hr. inversion Hr as [Hin|r b1 _ Hcur Hs|_ Hcan]; subst; [split; [by left|done]| |].
  - assert (∀ dst, dst ≠ current (fsm b) → ¬ armed b dst) as Hna.
    { intros dst Hne Ha. apply Hne. rewrite Hcur. by apply (wf_armed b Hwf). }
    inversion Hs as [|dst Hd _ _|dst ? _ Hne Ha|dst ? ? _ Hne Ha]; subst; [|by destruct (Hna dst)..].
    simpl in Hd. rewrite Hcur, Ht in Hd. injection Hd as <-. split; [|done]. left. apply orb_true_iff. right.
    by apply bool_decide_eq_true.
  - split; [|done]. right. split; [done|]. split; [unfold armed; simpl; by rewrite lookup_insert_eq|]. simpl. intros Hcur.
    specialize (Hcan Hcur). apply andb_false_iff in Hcan as [Hcan%bool_decide_eq_false|Hcan]; [|by rewrite (wf_idle b Hwf) in Hcan].
    apply Hcan. rewrite Hcur. by eexists.
Qed.

(** The outcome of a forced removal that answered [answer]: a failure the manager
    recognises, or a removed instance. *)
Definition forced_outcome (err answer : option GoErr) (e : option GoErr) (reconciled : bool) (b : BaseFSMInstance) : Prop :=
  match answer with
  | Some forceErr => e = Some (force_remove_failed b forceErr) ∧ reconciled = false ∧ IsPermanentFailureError e = true
  | None => current (fsm b) = LifecycleStateRemoved ∧ (e = err ∧ reconciled = true ∨ e = None ∧ reconciled = false)
  end.

(** C7: the handler of permanent failures never leaves an instance stuck.  For
    an instance whose table has the removal event, it ends in one of two ways.
    Either it has called the forced removal, and then the instance is in the
    removed state if that succeeded, and if not the error returned names the
    failure and is one the manager treats as permanent.  Or, which only happens
    outside the shutdown states, it returns no error, the back-off has been
    reset, and the removal is under way: the instance is being removed, or
    rests elsewhere with the removal event armed for its arrival in the state
    it is sent to. *)
Theorem permanent_error_is_resolved ctx err shutdown force s :
  base_wf (base s) →
  transitions (fsm (base s)) !! (LifecycleEventRemove, preRemove (base s)) = Some LifecycleStateRemoving →
  action_ok (λ _, True) shutdown → (∀ c, action_ok (λ _, True) (force c)) →
  wp (HandlePermanentError ctx err shutdown Remove force)
     (λ '(e, reconciled) s',
        (∃ s1 answer s2, force ctx s1 = Some (answer, s2) ∧ env s' = env s2 ∧
           forced_outcome err answer e reconciled (base s')) ∨
        (∃ s1, shutdown s = Some (false, s1)) ∧ e = None ∧ reconciled = false ∧
          backoffManager (base s') = Reset (backoffManager (base s)) ∧ removal_under_way (base s')) s.
Proof.
  intros Hwf Ht Hs Hf. unfold HandlePermanentError.
  destruct (Hs s) as (sd & s1 & Esd & E1 & O1 & _). apply wp_bind. exists sd, s1. split; [done|]. destruct sd.
  - destruct (Hf ctx s1) as (a & s2 & Ef & E2 & O2 & _). apply wp_bind. exists a, s2. split; [done|]. apply wp_bind, wp_gets.
    destruct a as [fe|]; [|apply wp_bind, wp_on_base]; apply wp_ret; left; exists s1; eexists _, s2; (split; [exact Ef|]); (split; [done|]).
    + split; [done|]. split; [done|]. apply force_remove_failed_permanent.
    + split; [done|by left].
  - apply wp_bind, wp_on_base, wp_bind. rewrite E1. apply wp_Remove; [by apply reset_wf|].
    intros r b' w Hr _. cbn [base own env]. destruct r as [re|].
    + destruct (Hf ctx (mkSt b' (own s1) w)) as (a & s2 & Ef & E2 & O2 & _). apply wp_bind. exists a, s2. split; [done|]. apply wp_bind, wp_gets.
      destruct a as [fe|]; [|apply wp_bind, wp_on_base]; apply wp_ret; left; eexists _, _, s2; (split; [exact Ef|]); (split; [done|]).
      * split; [done|]. split; [done|]. apply force_remove_failed_permanent.
      * split; [done|by right].
    + apply wp_ret. right. apply removal_goes_on in Hr as [Hu Hb]; [|by apply reset_wf|done]. split; [by exists s1|].
      split; [done|]. split; [done|]. by split.
Qed.

Fixpoint observe_times (n : nat) (st : string) (b : BaseFSMInstance) : BaseFSMInstance :=
  match n with O => b | S n' => observe_times n' st (observe st b) end.

Lemma observe_times_fsm n st b : fsm (observe_times n st b) = fsm b.
Proof. revert b. induction n as [|n IH]; intros b; [done|]. simpl. by rewrite IH, observe_fsm. Qed.

Lemma observe_times_counter n st b :
  lastObservedLifecycleState b = st → in_u64 (transientStreakCounter b + Z.of_nat n)%Z →
  (0 <= transientStreakCounter b)%Z →
  transientStreakCounter (observe_times n st b) = (transientStreakCounter b + Z.of_nat n)%Z ∧
  cfg (observe_times n st b) = cfg b.
Proof.
  revert b. induction n as [|n IH]; intros b Hl Hr H0; simpl; [split; [lia|done]|].
  assert (E : observe st b = set_streak st (transientStreakCounter b + 1) b).
  { unfold observe. rewrite bool_decide_true by done.
    rewrite wrap_u64_small; [done|]. unfold in_u64 in *. lia. }
  rewrite E. destruct (IH (set_streak st (transientStreakCounter b + 1) b)) as [-> ->];
    simpl; [done|unfold in_u64 in *; lia|lia|]. split; [lia|done].
Qed.

Fixpoint reconcile_times (n : nat) (m : M (St X W) (option GoErr * bool)) : M (St X W) unit :=
  match n with O => mret tt | S n' => _ ← m; reconcile_times n' m end.

(** An instance stuck in a lifecycle state is detected, and not before its
    time: after [n + 1] consecutive reconciliations that find it still being
    created, the transient streak counter is [n], so the watch-dog's test holds
    exactly from the configured number of ticks on. *)
Theorem stuck_creation_is_detected n ctx create remove check s :
  base_wf (base s) → (∀ c, action_ok (λ created, created = false) (check c)) →
  lastObservedLifecycleState (base s) ≠ LifecycleStateCreating → in_u64 (Z.of_nat n) →
  wp (reconcile_times (S n) (ReconcileLifecycleStates ctx LifecycleStateCreating create remove check))
     (λ _ s', transientStreakCounter (base s') = Z.of_nat n ∧
        IsTransientStreakCounterMaxed (base s') =
          (cfg_MaxTicksToRemainInTransientState (cfg (base s)) <=? Z.of_nat n)%Z ∧
        current (fsm (base s')) = current (fsm (base s))) s.
Proof.
  intros Hwf Hk Hl Hn.
  assert (Hone : ∀ s0 (Q : _ → St X W → Prop),
    (∀ a s', base s' = observe LifecycleStateCreating (base s0) → Q a s') →
    wp (ReconcileLifecycleStates ctx LifecycleStateCreating create remove check) Q s0).
  { intros s0 Q HQ. unfold ReconcileLifecycleStates. apply wp_bind, wp_gets, wp_observe.
    rewrite bool_decide_false, bool_decide_true by done.
    apply wp_bind. eapply wp_mono; [apply Hk|]. intros created s' (E & _ & ->). by apply wp_ret, HQ. }
  assert (Hall : ∀ m s0, wp (reconcile_times m (ReconcileLifecycleStates ctx LifecycleStateCreating create remove check))
     (λ _ s', base s' = observe_times m LifecycleStateCreating (base s0)) s0).
  { induction m as [|m IH]; intros s0; simpl; [by apply wp_ret|].
    apply wp_bind, Hone. intros a s' E. eapply wp_mono; [apply IH|]. simpl. intros. by rewrite <- E. }
  eapply wp_mono; [apply Hall|]. intros [] s' E. simpl in E. rewrite E.
  assert (E1 : observe LifecycleStateCreating (base s) = set_streak LifecycleStateCreating 0 (base s)).
  { unfold observe. by rewrite bool_decide_false. }
  rewrite E1. destruct (observe_times_counter n LifecycleStateCreating
    (set_streak LifecycleStateCreating 0 (base s))) as [Hc1 Hc2]; [done|simpl; by rewrite Z.add_0_l|done|].
  unfold IsTransientStreakCounterMaxed. rewrite Hc1, Hc2. simpl. split; [lia|]. split; [done|].
  by rewrite observe_times_fsm.
Qed.
End properties.

(** ** Concrete runs *)

#[export] Instance counting_prompt : PromptClock Z.
Proof. intros w. simpl. unfold Millisecond. lia. Qed.

(** A two-state machine for the examples: stopped and running. *)
Definition demo_config : BaseFSMInstanceConfig :=
  mkBaseCfg "demo" "running" "stopped" "stopped"
    [mkEvent "start" ["stopped"] "running"; mkEvent "stop" ["running"] "stopped"] 600.
Definition demo_base : BaseFSMInstance := NewBaseFSMInstance demo_config DefaultConfig.
Definition demo_at (state : string) : St unit Z := mkSt (at_state state demo_base) tt 1%Z.

Lemma demo_wf state : base_wf (base (demo_at state)).
Proof. apply at_state_wf, NewBase_wf. Qed.

Lemma send_event_total_witness :
  ∃ r b' w', SendEvent Background "start" (demo_at "stopped") = Some (r, mkSt b' tt w') ∧
    sent (base (demo_at "stopped")) "start" r b' ∧ base_wf b' ∧ transition (fsm b') = false.
Proof. apply (send_event_total Background "start" (demo_at "stopped")), demo_wf. Defined.

Lemma removal_request_persists_witness :
  wp (_ ← Remove Background; _ ← on_base (base_SetDesiredFSMState "running"); run_events [])
     (λ _ s1,
        transitions (fsm (base s1)) !! ("stop", current (fsm (base s1))) = Some (preRemove demo_base) →
        current (fsm (base s1)) ≠ preRemove demo_base →
        wp (SendEvent Background "stop") (λ r s2, r = None →
            current (fsm (base s2)) = LifecycleStateRemoving ∨
            IsPermanentFailureError (GetLastError (backoffManager (base s2))) = true) s1)
     (demo_at "running").
Proof.
  apply (removal_request_persists Background "running" [] Background "stop" LifecycleStateRemoving (demo_at "running")).
  - apply demo_wf.
  - done.
  - done.
  - by vm_compute.
Defined.

(** The run behind the witness: stopping after the request ends in [removing]. *)
Example stop_after_cancelled_removal :
  (λ r, current (fsm (base r.2))) <$>
    (_ ← Remove Background; _ ← on_base (base_SetDesiredFSMState "running"); SendEvent Background "stop")
      (demo_at "running") = Some LifecycleStateRemoving.
Proof. by vm_compute. Qed.

Lemma permanent_error_is_resolved_witness :
  let err := Some (ENew PermanentFailureError) in
  wp (HandlePermanentError Background err (mret false) Remove (λ _, mret None))
     (λ '(e, reconciled) s',
        (∃ s1 answer s2, (mret None : M (St unit Z) (option GoErr)) s1 = Some (answer, s2) ∧ env s' = env s2 ∧
           forced_outcome err answer e reconciled (base s')) ∨
        (∃ s1, (mret false : M (St unit Z) bool) (demo_at "running") = Some (false, s1)) ∧ e = None ∧ reconciled = false ∧
          backoffManager (base s') = Reset (backoffManager (base (demo_at "running"))) ∧ removal_under_way (base s'))
     (demo_at "running").
Proof.
  intros err.
  apply (permanent_error_is_resolved Background err (mret false) (λ _, mret None) (demo_at "running")).
  - apply demo_wf.
  - by vm_compute.
  - intros s. by apply wp_ret.
  - intros c s. by apply wp_ret.
Defined.

Lemma stuck_creation_is_detected_witness :
  wp (reconcile_times 601 (ReconcileLifecycleStates Background LifecycleStateCreating
        (λ _, mret None) (λ _, mret None) (λ _, mret false)))
     (λ _ s', transientStreakCounter (base s') = 600%Z ∧
        IsTransientStreakCounterMaxed (base s') = true ∧
        current (fsm (base s')) = LifecycleStateCreating)
     (demo_at LifecycleStateCreating).
Proof.
  apply (stuck_creation_is_detected 600 Background (λ _, mret None) (λ _, mret None) (λ _, mret false)
           (demo_at LifecycleStateCreating)).
  - apply demo_wf.
  - intros c s. by apply wp_ret.
  - done.
  - unfold in_u64. lia.
Defined.
