(* ===== verification/FSMManager.v ===== *)
(** * FSMManager: the generic instance manager (pkg/fsm/base_manager.go)

    [BaseFSMManager] creates, updates, removes and reconciles a set of
    instances.  It knows them only through the interface [FSMInstance]; what a
    concrete manager injects (name, desired state, factory, comparison) is the
    record [ManagerOps]. *)

From S2P Require Import Prelude Float64 GoRuntime Backoff BaseFSM.

(** ** The instance interface *)

(** [SystemSnapshot] without the configuration, which is an argument of its own. *)
Record Snapshot := mkSnapshot { Tick : Z; SnapshotTime : Z }.

(** [fsm.FSMInstance].  [inst_ForceRemove] is the optional interface the manager
    tests for with a type assertion. *)
Class FSMInstance (I W : Type) := {
  inst_GetCurrentFSMState : I → string;
  inst_GetDesiredFSMState : I → string;
  inst_SetDesiredFSMState : string → I → option GoErr * I;
  inst_IsTransientStreakCounterMaxed : I → bool;
  inst_Reconcile : Ctx → Snapshot → M (I * W) (option GoErr * bool);
  inst_Remove : Ctx → M (I * W) (option GoErr);
  inst_ForceRemove : option (Ctx → M (I * W) (option GoErr));
}.

(** What the manager relies on: an invariant of the instances that every
    operation keeps and from which every operation returns; and asking for
    another desired state does not move the machine. *)
Class InstanceInv (I : Type) := inst_ok : I → Prop.

Class FSMInstanceLaws (I W : Type) `{FSMInstance I W} `{!InstanceInv I} := {
  inst_Reconcile_ok ctx snap i w : inst_ok i → wp (inst_Reconcile ctx snap) (λ _ p, inst_ok p.1) (i, w);
  inst_Remove_ok ctx i w : inst_ok i → wp (inst_Remove ctx) (λ _ p, inst_ok p.1) (i, w);
  inst_ForceRemove_ok f ctx i w :
    inst_ForceRemove = Some f → inst_ok i → wp (f ctx) (λ _ p, inst_ok p.1) (i, w);
  inst_SetDesired_ok d i : inst_ok i → inst_ok (inst_SetDesiredFSMState d i).2;
  inst_SetDesired_state d i :
    inst_GetCurrentFSMState (inst_SetDesiredFSMState d i).2 = inst_GetCurrentFSMState i;
}.

(** The functions a concrete manager injects. *)
Record ManagerOps (FullConfig C I : Type) := mkOps {
  extractConfigs : FullConfig → list C * option GoErr;
  getName : C → string * option GoErr;
  getDesiredState : C → string * option GoErr;
  createInstance : C → option I * option GoErr;
  compareConfig : I → C → bool * option GoErr;
  setConfig : I → C → option GoErr * I;
  getMinimumRequiredTime : I → Z * option GoErr;
}.
Arguments extractConfigs {_ _ _} _ _.
Arguments getName {_ _ _} _ _.
Arguments getDesiredState {_ _ _} _ _.
Arguments createInstance {_ _ _} _ _.
Arguments compareConfig {_ _ _} _ _ _.
Arguments setConfig {_ _ _} _ _ _.
Arguments getMinimumRequiredTime {_ _ _} _ _.

(** What the manager relies on in them. *)
Class ManagerOpsLaws {FullConfig C I : Type} `{!InstanceInv I} (ops : ManagerOps FullConfig C I) := {
  createInstance_ok c i : createInstance ops c = (Some i, None) → inst_ok i;
  setConfig_ok i c : inst_ok i → inst_ok (setConfig ops i c).2;
}.

(** ** The manager *)

Definition TicksBeforeNextAdd : Z := 30.
Definition TicksBeforeNextUpdate : Z := 10.
Definition TicksBeforeNextRemove : Z := 10.
Definition TicksBeforeNextState : Z := 10.
Definition JitterFraction : float64 := one_quarter.

Record BaseFSMManager (I : Type) := mkManager {
  instances : gmap string I;
  managerTick : Z;
  nextAddTick : Z;
  nextUpdateTick : Z;
  nextRemoveTick : Z;
  nextStateTick : Z;
}.
Arguments mkManager {I} _ _ _ _ _ _.
Arguments instances {I} _.
Arguments managerTick {I} _.
Arguments nextAddTick {I} _.
Arguments nextUpdateTick {I} _.
Arguments nextRemoveTick {I} _.
Arguments nextStateTick {I} _.

Definition NewBaseFSMManager {I} : BaseFSMManager I := mkManager ∅ 0 0 0 0 0.

Definition set_instances {I} (f : gmap string I → gmap string I) (m : BaseFSMManager I) :=
  mkManager (f (instances m)) (managerTick m) (nextAddTick m) (nextUpdateTick m) (nextRemoveTick m) (nextStateTick m).
Definition incr_managerTick {I} (m : BaseFSMManager I) :=
  mkManager (instances m) (managerTick m +u64 1) (nextAddTick m) (nextUpdateTick m) (nextRemoveTick m) (nextStateTick m).
Definition set_nextAddTick {I} (t : Z) (m : BaseFSMManager I) :=
  mkManager (instances m) (managerTick m) t (nextUpdateTick m) (nextRemoveTick m) (nextStateTick m).
Definition set_nextUpdateTick {I} (t : Z) (m : BaseFSMManager I) :=
  mkManager (instances m) (managerTick m) (nextAddTick m) t (nextRemoveTick m) (nextStateTick m).
Definition set_nextRemoveTick {I} (t : Z) (m : BaseFSMManager I) :=
  mkManager (instances m) (managerTick m) (nextAddTick m) (nextUpdateTick m) t (nextStateTick m).
Definition set_nextStateTick {I} (t : Z) (m : BaseFSMManager I) :=
  mkManager (instances m) (managerTick m) (nextAddTick m) (nextUpdateTick m) (nextRemoveTick m) t.

Record MSt (I W : Type) := mkMSt { mgr : BaseFSMManager I; menv : W }.
Arguments mkMSt {I W} _ _.
Arguments mgr {I W} _.
Arguments menv {I W} _.

(** Go fixes no order for [range] over a map: the world picks one. *)
Class MapOrder (W : Type) := {
  map_order : list string → W → list string * W;
  map_order_perm l w : (map_order l w).1 ≡ₚ l;
}.

(** How a step of [Reconcile] ends: go on with the next one, or return. *)
Inductive Outcome (A : Type) := Continue (a : A) | Return (err : option GoErr) (reconciled : bool).
Arguments Continue {A} _.
Arguments Return {A} _ _.

Section manager.
Context {FullConfig C I W : Type} `{World W} `{MapOrder W} `{FSMInstance I W}.
Context (ops : ManagerOps FullConfig C I).
Local Abbreviation MM := (M (MSt I W)).

Definition liftW {A} (f : W → A * W) : MM A :=
  λ s, let (a, w) := f (menv s) in Some (a, mkMSt (mgr s) w).
Definition on_mgr (f : BaseFSMManager I → BaseFSMManager I) : MM unit :=
  modify (λ s, mkMSt (f (mgr s)) (menv s)).
(** Run an operation of the instance called [name], if there is one. *)
Definition on_instance {A} (name : string) (i : I) (op : M (I * W) A) : MM A :=
  λ s, match op (i, menv s) with
       | Some (a, (i', w')) => Some (a, mkMSt (set_instances (insert name i') (mgr s)) w')
       | None => None
       end.

(** [schedule(base)]: the current tick plus the jittered cooldown. *)
Definition schedule (base : Z) : MM Z :=
  r ← liftW rand_Float64;
  m ← gets mgr;
  mret (managerTick m +u64 wrap_u64 (jittered JitterFraction r base)).

(** *** Step 2: create or update the instance of one configuration *)

Definition create_step (name : string) (cfg : C) : MM (Outcome unit) :=
  m ← gets mgr;
  if (managerTick m <? nextAddTick m)%Z then mret (Continue tt)
  else
    match createInstance ops cfg with
    | (Some inst, None) =>
        let (desired, err) := getDesiredState ops cfg in
        match err with
        | Some e => mret (Return (Some (EWrap "failed to get desired state: " e)) false)
        | None =>
            match inst_SetDesiredFSMState desired inst with
            | (Some _, _) => mret (Continue tt)
            | (None, inst') =>
                _ ← on_mgr (set_instances (insert name inst'));
                next ← schedule TicksBeforeNextAdd;
                _ ← on_mgr (set_nextAddTick next);
                mret (Return None true)
            end
        end
    | (_, err) => mret (Return (Some (wrap_w "failed to create instance: " err)) false)
    end.

Definition update_step (name : string) (inst : I) (cfg : C) : MM (Outcome unit) :=
  m ← gets mgr;
  let (equal, err) := compareConfig ops inst cfg in
  match err with
  | Some e => mret (Return (Some (EWrap "failed to compare config: " e)) false)
  | None =>
      if negb equal then
        if (managerTick m <? nextUpdateTick m)%Z then mret (Continue tt)
        else
          let (err, inst') := setConfig ops inst cfg in
          _ ← on_mgr (set_instances (insert name inst'));
          match err with
          | Some e => mret (Return (Some (EWrap "failed to set config: " e)) false)
          | None =>
              next ← schedule TicksBeforeNextUpdate;
              _ ← on_mgr (set_nextUpdateTick next);
              mret (Return None true)
          end
      else
        let (desired, err) := getDesiredState ops cfg in
        match err with
        | Some e => mret (Return (Some (EWrap "failed to get desired state: " e)) false)
        | None =>
            if bool_decide (inst_GetDesiredFSMState inst ≠ desired) then
              if (managerTick m <? nextStateTick m)%Z then mret (Continue tt)
              else
                let (err, inst') := inst_SetDesiredFSMState desired inst in
                _ ← on_mgr (set_instances (insert name inst'));
                match err with
                | Some _ => mret (Continue tt)
                | None =>
                    next ← schedule TicksBeforeNextState;
                    _ ← on_mgr (set_nextStateTick next);
                    mret (Return None true)
                end
            else mret (Continue tt)
        end
  end.

Definition config_step (cfg : C) : MM (Outcome unit) :=
  let (name, err) := getName ops cfg in
  match err with
  | Some e => mret (Return (Some (EWrap "failed to get name: " e)) false)
  | None =>
      m ← gets mgr;
      match instances m !! name with
      | Some inst =>
          if bool_decide (inst_GetCurrentFSMState inst = LifecycleStateRemoved) then mret (Continue tt)
          else update_step name inst cfg
      | None => create_step name cfg
      end
  end.

Fixpoint config_steps (cfgs : list C) : MM (Outcome unit) :=
  match cfgs with
  | [] => mret (Continue tt)
  | cfg :: cfgs' =>
      r ← config_step cfg;
      match r with
      | Continue _ => config_steps cfgs'
      | Return e b => mret (Return e b)
      end
  end.

(** *** Step 3: start removals, collect what is gone *)

(** Is [instanceName] the name of a desired configuration?  Stops at the first match. *)
Fixpoint find_name (instanceName : string) (desired : list C) : bool * option GoErr :=
  match desired with
  | [] => (false, None)
  | d :: desired' =>
      let (name, err) := getName ops d in
      match err with
      | Some e => (false, Some (EWrap "failed to get name: " e))
      | None => if bool_decide (name = instanceName) then (true, None)
                else find_name instanceName desired'
      end
  end.

Definition cleanup_step (ctx : Ctx) (desired : list C) (instanceName : string)
    (toDelete : list string) : MM (Outcome (list string)) :=
  let (found, err) := find_name instanceName desired in
  match err with
  | Some e => mret (Return (Some e) false)
  | None =>
      m ← gets mgr;
      match instances m !! instanceName with
      | None => mret (Continue toDelete)
      | Some inst =>
          let state := inst_GetCurrentFSMState inst in
          if bool_decide (state = LifecycleStateRemoving) then mret (Continue toDelete)
          else if bool_decide (state = LifecycleStateRemoved)
          then mret (Continue (toDelete ++ [instanceName]))
          else if found : bool then mret (Continue toDelete)
          else if (managerTick m <? nextRemoveTick m)%Z then mret (Continue toDelete)
          else
            err ← on_instance instanceName inst (inst_Remove ctx);
            match err with
            | Some e => mret (Return (Some e) false)
            | None =>
                next ← schedule TicksBeforeNextRemove;
                _ ← on_mgr (set_nextRemoveTick next);
                mret (Return None true)
            end
      end
  end.

Fixpoint cleanup_steps (ctx : Ctx) (desired : list C) (names toDelete : list string)
    : MM (Outcome (list string)) :=
  match names with
  | [] => mret (Continue toDelete)
  | n :: names' =>
      r ← cleanup_step ctx desired n toDelete;
      match r with
      | Continue toDelete' => cleanup_steps ctx desired names' toDelete'
      | Return e b => mret (Return e b)
      end
  end.

Definition delete_all (names : list string) (m : BaseFSMManager I) : BaseFSMManager I :=
  set_instances (λ l, fold_left (λ l n, delete n l) names l) m.

(** *** Step 4: reconcile a batch of instances *)

(** [startIdx, endIdx) of the instances scheduled on a tick. *)
Definition batch_bounds (n : nat) (tick : Z) : nat * nat :=
  if (MaxConcurrentFSMOperations <? n)%nat then
    let totalBatches := ((n + MaxConcurrentFSMOperations - 1) / MaxConcurrentFSMOperations)%nat in
    let currentBatch := Z.to_nat (tick mod Z.of_nat totalBatches) in
    let startIdx := (currentBatch * MaxConcurrentFSMOperations)%nat in
    let endIdx := (startIdx + MaxConcurrentFSMOperations)%nat in
    (startIdx, if (n <? endIdx)%nat then n else endIdx)
  else (0%nat, n).

Definition slice (l : list string) (b : nat * nat) : list string := take (b.2 - b.1) (drop b.1 l).

(** The forced removal [maybeEscalateRemoval] starts in a goroutine of its own,
    taken to finish before the next operation on the instance. *)
Definition force_remove_async (ctx : Ctx) (name : string) : MM unit :=
  m ← gets mgr;
  match inst_ForceRemove, instances m !! name with
  | Some forceRemove, Some inst => _ ← on_instance name inst (forceRemove ctx); mret tt
  | _, _ => mret tt
  end.

Definition maybeEscalateRemoval (ctx : Ctx) (name : string) (inst : I) : MM unit :=
  if negb (inst_IsTransientStreakCounterMaxed inst) then mret tt
  else if bool_decide (inst_GetCurrentFSMState inst = LifecycleStateRemoving)
  then force_remove_async ctx name
  else
    err ← on_instance name inst (inst_Remove ctx);
    match err with
    | Some _ => force_remove_async ctx name
    | None => mret tt
    end.

Record InstanceResult := mkResult { res_reconciled : bool; res_shallBeRemoved : bool; res_err : option GoErr }.

Definition reconcileInstanceWithTimeout (ctx : Ctx) (snapshot : Snapshot) (name : string) (inst : I)
    : MM InstanceResult :=
  '(reconcileErr, instanceReconciled) ← on_instance name inst (inst_Reconcile ctx snapshot);
  match reconcileErr with
  | Some e =>
      if IsPermanentFailureError (Some e) then mret (mkResult true true None)
      else mret (mkResult false false (Some (EWrap "error reconciling instance: " e)))
  | None =>
      m ← gets mgr;
      _ ← match instances m !! name with
          | Some inst' => maybeEscalateRemoval ctx name inst'
          | None => mret tt
          end;
      mret (mkResult instanceReconciled false None)
  end.

(** What one tick's goroutines produce: the instances that ran, each with its
    result, in the order in which they finish; and whether an instance was
    skipped for want of time. *)
Record Collected := mkCollected { skipped : bool; results : list (string * InstanceResult) }.

(** [hasAnyReconciles], [instancesToRemove] and the error group's first error. *)
Definition any_reconciles (rs : list (string * InstanceResult)) : bool :=
  existsb (λ r, bool_decide (res_err r.2 = None) && res_reconciled r.2) rs.
Definition to_remove (rs : list (string * InstanceResult)) : list string :=
  omap (λ r, if bool_decide (res_err r.2 = None) && res_shallBeRemoved r.2 then Some r.1 else None) rs.
Fixpoint first_error (rs : list (string * InstanceResult)) : option GoErr :=
  match rs with
  | [] => None
  | r :: rs' => match res_err r.2 with Some e => Some e | None => first_error rs' end
  end.

(** One goroutine: the closure given to [TryGo]. *)
Definition goroutine (ctx : Ctx) (snapshot : Snapshot) (name : string) (c : Collected) : MM Collected :=
  expired ← liftW (ctx_Err ctx);
  match expired with
  | Some _ => mret c
  | None =>
      m ← gets mgr;
      match instances m !! name with
      | Some inst =>
          r ← reconcileInstanceWithTimeout ctx snapshot name inst;
          mret (mkCollected (skipped c) (results c ++ [(name, r)]))
      | None => mret c
      end
  end.

(** The scheduling loop.  Goroutines are taken to run one after the other, in
    the order in which they are started; a batch never holds more of them than
    the group's limit, so [TryGo] starts them all. *)
Fixpoint schedule_batch (ctx : Ctx) (snapshot : Snapshot) (names : list string) (c : Collected)
    : MM (Outcome Collected) :=
  match names with
  | [] => mret (Continue c)
  | name :: names' =>
      expired ← liftW (ctx_Err ctx);
      match expired with
      | Some _ => mret (Continue c)
      | None =>
          m ← gets mgr;
          match instances m !! name with
          | None => schedule_batch ctx snapshot names' c
          | Some inst =>
              let (minimumRequiredTime, execTimeErr) := getMinimumRequiredTime ops inst in
              match execTimeErr with
              | Some e => mret (Return (Some (EWrap ("failed to get minimum required time for instance "
                                                     +:+ name +:+ ": ") e)) false)
              | None =>
                  '(_, sufficient, timeErr) ← liftW (HasSufficientTime ctx minimumRequiredTime);
                  match timeErr with
                  | Some e =>
                      if IsErr e ErrNoDeadline then mret (Return (Some (ENew "no deadline set in context")) false)
                      else mret (Return (Some (EWrap ("deadline check error for instance " +:+ name +:+ ": ") e)) false)
                  | None =>
                      if sufficient : bool then
                        c' ← goroutine ctx snapshot name c;
                        schedule_batch ctx snapshot names' c'
                      else schedule_batch ctx snapshot names' (mkCollected true (results c))
                  end
              end
          end
      end
  end.

(** The [select]: either all goroutines are done ([None]), or the context is,
    and then only the first [k] have finished.  The world decides which. *)
Definition wait_outcome (ctx : Ctx) (c : Collected) (doneFirst : option nat)
    : MM (option GoErr * list (string * InstanceResult)) :=
  match doneFirst with
  | None => mret (first_error (results c), results c)
  | Some k =>
      e ← liftW (ctx_Err ctx);
      match e with
      | Some err => mret (Some err, take k (results c))
      | None => mret (first_error (results c), results c)
      end
  end.

Definition reconcile_batch (ctx : Ctx) (snapshot : Snapshot) (select : W → option nat) : MM (option GoErr * bool) :=
  match ctx_Deadline ctx with
  | None => mret (Some ErrNoDeadline, false)
  | Some deadline =>
      t ← liftW clock;
      let timeToAdd := scale_duration (deadline - t) BaseManagerControlLoopTimeFactor in
      t' ← liftW clock;
      let innerCtx := WithDeadline ctx (t' + timeToAdd)%Z in
      m ← gets mgr;
      let snapshot' := mkSnapshot (managerTick m) (SnapshotTime snapshot) in
      instanceNames ← liftW (map_order (elements (dom (instances m))));
      let batch := slice instanceNames (batch_bounds (length instanceNames) (managerTick m)) in
      r ← schedule_batch innerCtx snapshot' batch (mkCollected false []);
      match r with
      | Return e b => mret (e, b)
      | Continue c =>
          s ← get;
          '(err, finished) ← wait_outcome innerCtx c (select (menv s));
          _ ← on_mgr (delete_all (to_remove finished));
          let hasAnyReconciles := skipped c || any_reconciles finished in
          match err with
          | Some e => if IsErr e DeadlineExceeded then mret (None, hasAnyReconciles) else mret (Some e, hasAnyReconciles)
          | None => mret (None, hasAnyReconciles)
          end
      end
  end.

(** *** [Reconcile] *)

Definition Reconcile (select : W → option nat) (ctx : Ctx) (config : FullConfig) (snapshot : Snapshot)
    : MM (option GoErr * bool) :=
  _ ← on_mgr incr_managerTick;
  e ← liftW (ctx_Err ctx);
  match e with
  | Some err => if IsErr err DeadlineExceeded then mret (None, false) else mret (Some err, false)
  | None =>
      let (desiredState, err) := extractConfigs ops config in
      match err with
      | Some e => mret (Some (EWrap "failed to extract configs: " e), false)
      | None =>
          r2 ← config_steps desiredState;
          match r2 with
          | Return e b => mret (e, b)
          | Continue _ =>
              m ← gets mgr;
              names ← liftW (map_order (elements (dom (instances m))));
              r3 ← cleanup_steps ctx desiredState names [];
              match r3 with
              | Return e b => mret (e, b)
              | Continue toDelete =>
                  _ ← on_mgr (delete_all toDelete);
                  reconcile_batch ctx snapshot select
              end
          end
      end
  end.

Definition GetInstance (name : string) (m : BaseFSMManager I) : option I := instances m !! name.

Definition GetCurrentFSMState (name : string) (m : BaseFSMManager I) : string * option GoErr :=
  match instances m !! name with
  | Some inst => (inst_GetCurrentFSMState inst, None)
  | None => ("", Some (ENew ("instance " +:+ name +:+ " not found")))
  end.
End manager.

(** ** Rotation of the batches *)

Section batches.
Implicit Types (n i : nat) (tick : Z).
Local Abbreviation limit := MaxConcurrentFSMOperations.

Definition totalBatches (n : nat) : nat := (n + limit - 1) / limit.

Lemma totalBatches_spec n : limit < n → 0 < totalBatches n ∧ n ≤ totalBatches n * limit.
Proof.
  unfold totalBatches, MaxConcurrentFSMOperations. intros Hn.
  split; [apply Nat.div_str_pos; lia|].
  pose proof (Nat.div_mod_eq (n + 1000 - 1) 1000). pose proof (Nat.mod_upper_bound (n + 1000 - 1) 1000). lia.
Qed.

(** The batch of index [j], for more instances than the limit. *)
Lemma batch_bounds_large n tick :
  limit < n → batch_bounds n tick =
  let j := Z.to_nat (tick mod Z.of_nat (totalBatches n)) in (j * limit, Nat.min n (j * limit + limit)).
Proof.
  intros Hn. unfold batch_bounds. rewrite (proj2 (Nat.ltb_lt _ _)) by done.
  cbv zeta. change ((n + limit - 1) / limit) with (totalBatches n).
  generalize (Z.to_nat (tick mod Z.of_nat (totalBatches n)) * limit). intros x.
  f_equal. destruct (Nat.ltb_spec n (x + limit)); lia.
Qed.

(** Among [p] consecutive numbers one has any given residue modulo [p]. *)
Lemma residue_hit (p t j : Z) : (0 <= j < p)%Z → ∃ k, (0 <= k < p)%Z ∧ ((t + k) mod p = j)%Z.
Proof.
  intros Hj. exists ((j - t) mod p)%Z. split; [by apply Z.mod_pos_bound; lia|].
  rewrite Z.add_mod_idemp_r by lia. replace (t + (j - t))%Z with j by lia. by apply Z.mod_small.
Qed.

(** The rotation of the batches is fair and respects the limit on concurrent
    operations: a tick never schedules more instances than the limit, so that
    the group accepts every one of them, and, with the instances listed in the
    same order each time, among any [totalBatches] consecutive ticks every
    instance is scheduled on one. *)
Theorem every_instance_gets_its_turn n i tick :
  i < n →
  (let (s, e) := batch_bounds n tick in e - s ≤ limit) ∧
  ∃ k, (0 <= k < Z.max 1 (Z.of_nat (totalBatches n)))%Z ∧
    let (s, e) := batch_bounds n (tick + k) in s ≤ i < e ∧ e ≤ n.
Proof.
  intros Hi. destruct (Nat.ltb_spec limit n) as [Hn|Hn].
  2:{ unfold batch_bounds. rewrite (proj2 (Nat.ltb_ge _ _)) by done. split; [lia|].
      exists 0%Z. repeat split; lia. }
  destruct (totalBatches_spec n Hn) as [Hp Hc]. rewrite batch_bounds_large by done.
  split; [cbv zeta; generalize (Z.to_nat (tick mod Z.of_nat (totalBatches n)) * limit); intros; lia|].
  set (p := totalBatches n) in *. set (j := i / limit).
  assert (Hj : j < p) by (apply Nat.Div0.div_lt_upper_bound; lia).
  destruct (residue_hit (Z.of_nat p) tick (Z.of_nat j)) as (k & Hk & E); [lia|].
  exists k. split; [lia|]. rewrite batch_bounds_large by done. fold p. cbv zeta. rewrite E, Nat2Z.id.
  unfold j, MaxConcurrentFSMOperations in *.
  pose proof (Nat.div_mod_eq i 1000). pose proof (Nat.mod_upper_bound i 1000). lia.
Qed.

Lemma every_instance_gets_its_turn_witness :
  (let (s, e) := batch_bounds 2500 7 in e - s ≤ limit) ∧
  ∃ k, (0 <= k < Z.max 1 (Z.of_nat (totalBatches 2500)))%Z ∧
    let (s, e) := batch_bounds 2500 (7 + k) in s ≤ 2400 < e ∧ e ≤ 2500.
Proof. apply (every_instance_gets_its_turn 2500 2400 7). lia. Defined.
End batches.

(** ** What a tick does to the manager *)

Definition mgr_ok {I} `{!InstanceInv I} (m : BaseFSMManager I) : Prop :=
  map_Forall (λ _ i, inst_ok i) (instances m).

Lemma mgr_ok_insert {I} `{!InstanceInv I} (m : BaseFSMManager I) name i :
  inst_ok i → mgr_ok m → mgr_ok (set_instances (insert name i) m).
Proof. intros Hi Hm. by apply map_Forall_insert_2. Qed.

Lemma mgr_ok_lookup {I} `{!InstanceInv I} (m : BaseFSMManager I) name i :
  mgr_ok m → instances m !! name = Some i → inst_ok i.
Proof. intros Hm Hi. by apply (Hm name i). Qed.
#[export] Hint Resolve mgr_ok_insert mgr_ok_lookup : umh.

(** The instances may have moved on, within their invariant; the names and the
    rate limits are the same. *)
Definition evolves {I} `{!InstanceInv I} (m m' : BaseFSMManager I) : Prop :=
  dom (instances m') = dom (instances m) ∧ managerTick m' = managerTick m ∧
  nextAddTick m' = nextAddTick m ∧ nextUpdateTick m' = nextUpdateTick m ∧
  nextRemoveTick m' = nextRemoveTick m ∧ nextStateTick m' = nextStateTick m ∧
  (mgr_ok m → mgr_ok m').

#[export] Instance evolves_preorder {I} `{!InstanceInv I} : PreOrder (@evolves I _).
Proof.
  split; [done|]. intros ??? (E1&E2&E3&E4&E5&E6&E7) (F1&F2&F3&F4&F5&F6&F7).
  unfold evolves. rewrite F1, F2, F3, F4, F5, F6. split_and!; auto.
Qed.

Lemma evolves_update {I} `{!InstanceInv I} (m : BaseFSMManager I) name i i' :
  instances m !! name = Some i → inst_ok i' → evolves m (set_instances (insert name i') m).
Proof.
  intros E Hi. unfold evolves. split_and!; try done; [|by apply mgr_ok_insert]. simpl. rewrite dom_insert_L.
  apply elem_of_dom_2 in E. rewrite subseteq_union_1_L; [done|]. by apply singleton_subseteq_l.
Qed.

Lemma evolves_ok {I} `{!InstanceInv I} (m m' : BaseFSMManager I) : evolves m m' → mgr_ok m → mgr_ok m'.
Proof. unfold evolves. tauto. Qed.
#[export] Hint Resolve evolves_update evolves_ok : umh.

(** [next] is a legal outcome of [schedule base] on tick [now]. *)
Definition cooldown (now base next : Z) : Prop :=
  ∃ d, ((3 * base + 2) / 4 <= d <= (5 * base + 2) / 4)%Z ∧ next = now +u64 d.

Section tick.
Context {FullConfig C I W : Type} `{World W} `{MapOrder W} `{FSMInstance I W} `{!InstanceInv I}.
Context (ops : ManagerOps FullConfig C I).
Implicit Types (m : BaseFSMManager I) (s : MSt I W) (cfgs : list C).

Definition configured (cfgs : list C) (name : string) : Prop :=
  ∃ c, c ∈ cfgs ∧ getName ops c = (name, None).

(** The instance [n] is gone and waits to be deleted; or is not. *)
Definition removed_in (m : BaseFSMManager I) (n : string) : Prop :=
  ∃ i, instances m !! n = Some i ∧ inst_GetCurrentFSMState i = LifecycleStateRemoved.
Definition live (m : BaseFSMManager I) (n : string) : Prop :=
  ∃ i, instances m !! n = Some i ∧ inst_GetCurrentFSMState i ≠ LifecycleStateRemoved.

(** [changed cfgs m m']: the manager [m'] is [m] after one rate-limited change. *)
Inductive changed (cfgs : list C) (m : BaseFSMManager I) : BaseFSMManager I → Prop :=
  | changed_added name i next :
      inst_ok i → configured cfgs name → instances m !! name = None →
      (nextAddTick m <= managerTick m)%Z → cooldown (managerTick m) TicksBeforeNextAdd next →
      changed cfgs m (set_nextAddTick next (set_instances (insert name i) m))
  | changed_updated name i next :
      inst_ok i → configured cfgs name → live m name →
      (nextUpdateTick m <= managerTick m)%Z → cooldown (managerTick m) TicksBeforeNextUpdate next →
      changed cfgs m (set_nextUpdateTick next (set_instances (insert name i) m))
  | changed_state name i next :
      inst_ok i → configured cfgs name → live m name →
      (nextStateTick m <= managerTick m)%Z → cooldown (managerTick m) TicksBeforeNextState next →
      changed cfgs m (set_nextStateTick next (set_instances (insert name i) m))
  | changed_removed name i next :
      inst_ok i → ¬ configured cfgs name → live m name →
      (nextRemoveTick m <= managerTick m)%Z → cooldown (managerTick m) TicksBeforeNextRemove next →
      changed cfgs m (set_nextRemoveTick next (set_instances (insert name i) m)).

(** Steps 2 and 3 leave the instances that are gone alone. *)
Definition steady (m m' : BaseFSMManager I) : Prop :=
  evolves m m' ∧ ∀ n, removed_in m n → removed_in m' n.

#[local] Instance steady_preorder : PreOrder steady.
Proof. split; [done|]. intros ??? [? ?] [? ?]. split; [by etrans|auto]. Qed.

Lemma steady_update m name i i' :
  instances m !! name = Some i → inst_ok i' → inst_GetCurrentFSMState i ≠ LifecycleStateRemoved →
  steady m (set_instances (insert name i') m).
Proof.
  intros E Hok Hi. split; [by eapply evolves_update|]. intros n (j & Hj & Hr). exists j. split; [|done].
  simpl. rewrite lookup_insert_ne; [done|]. intros ->. congruence.
Qed.

(** The outcome of the steps before the instances are reconciled. *)
Inductive step_result {A} (cfgs : list C) (m : BaseFSMManager I) (K : A → BaseFSMManager I → Prop)
  : Outcome A → BaseFSMManager I → Prop :=
  | step_continue a m' : steady m m' → K a m' → step_result cfgs m K (Continue a) m'
  | step_failed e m' : steady m m' → step_result cfgs m K (Return (Some e) false) m'
  | step_changed m1 m' : steady m m1 → changed cfgs m1 m' → step_result cfgs m K (Return None true) m'.

(** What step 2 may do to an instance and still go on: ask for another desired state. *)
Definition redesired : relation I := rtc (λ i j, ∃ d, j = (inst_SetDesiredFSMState d i).2).
Definition redesired_all (m m' : BaseFSMManager I) : Prop :=
  ∀ n, option_Forall2 redesired (instances m !! n) (instances m' !! n).

#[local] Instance redesired_preorder : PreOrder redesired.
Proof. split; apply _. Qed.
#[local] Instance redesired_all_preorder : PreOrder redesired_all.
Proof.
  split; [by intros m n|]. intros m1 m2 m3 H12 H23 n. etrans; [apply H12|apply H23].
Qed.

Lemma redesired_update m name i d :
  instances m !! name = Some i →
  redesired_all m (set_instances (insert name (inst_SetDesiredFSMState d i).2) m).
Proof.
  intros E n. simpl. destruct (decide (name = n)) as [<-|Hn].
  - rewrite lookup_insert_eq, E. constructor. apply rtc_once. by exists d.
  - by rewrite lookup_insert_ne.
Qed.

Lemma wp_liftW {A} (f : W → A * W) (Q : A → MSt I W → Prop) s :
  (∀ a w, f (menv s) = (a, w) → Q a (mkMSt (mgr s) w)) → wp (liftW f) Q s.
Proof.
  intros HQ. unfold wp, liftW. destruct (f (menv s)) as [a w] eqn:E. eauto.
Qed.

Lemma wp_on_mgr f (Q : unit → MSt I W → Prop) s : Q tt (mkMSt (f (mgr s)) (menv s)) → wp (on_mgr f) Q s.
Proof. intros HQ. unfold on_mgr. by apply wp_modify. Qed.

Lemma wp_schedule base (Q : Z → MSt I W → Prop) s :
  (0 <= base < 2 ^ 50)%Z →
  (∀ next w, cooldown (managerTick (mgr s)) base next → Q next (mkMSt (mgr s) w)) → wp (schedule base) Q s.
Proof.
  intros Hb HQ. unfold schedule. apply wp_bind, wp_liftW. intros r w Hr.
  destruct (rand_Float64_range _ _ _ Hr) as (k & -> & Hk).
  apply wp_bind, wp_gets, wp_ret. simpl. apply HQ.
  pose proof (jittered_bounds k base Hk Hb) as HJ. exists (jittered one_quarter (F k (-53)) base).
  split; [done|]. unfold JitterFraction. rewrite (wrap_u64_small (jittered _ _ _)); [done|].
  unfold in_u64. Z.to_euclidean_division_equations; lia.
Qed.

Lemma wp_on_instance {A} name i (op : M (I * W) A) (Q : A → MSt I W → Prop) s :
  wp op (λ _ p, inst_ok p.1) (i, menv s) →
  (∀ a i' w, op (i, menv s) = Some (a, (i', w)) → inst_ok i' →
     Q a (mkMSt (set_instances (insert name i') (mgr s)) w)) →
  wp (on_instance name i op) Q s.
Proof.
  intros (a & [i' w] & E & Hok) HQ. unfold wp, on_instance. rewrite E. eauto.
Qed.

Context `{!FSMInstanceLaws I W} `{!ManagerOpsLaws ops}.

(** *** Step 2 *)

Definition step2 cfgs m : Outcome unit → BaseFSMManager I → Prop :=
  step_result cfgs m (λ _ m', redesired_all m m').

Lemma step_continue_refl cfgs m : step2 cfgs m (Continue tt) m.
Proof. by apply step_continue. Qed.
#[local] Hint Resolve step_continue_refl : core.

Lemma step_failed_refl {A} cfgs m (K : A → _) e : step_result cfgs m K (Return (Some e) false) m.
Proof. by apply step_failed. Qed.
#[local] Hint Resolve step_failed_refl : core.

Lemma wp_create_step cfgs name cfg s :
  mgr_ok (mgr s) → cfg ∈ cfgs → getName ops cfg = (name, None) → instances (mgr s) !! name = None →
  wp (create_step ops name cfg) (λ o s', step2 cfgs (mgr s) o (mgr s')) s.
Proof.
  intros Hok Hin Hn Hm. unfold create_step. apply wp_bind, wp_gets. destruct (Z.ltb_spec (managerTick (mgr s)) (nextAddTick (mgr s))).
  { by apply wp_ret. }
  destruct (createInstance ops cfg) as [[inst|] [e|]] eqn:Ec; try by apply wp_ret, step_failed.
  destruct (getDesiredState ops cfg) as [desired [e|]]; [by apply wp_ret, step_failed|].
  apply createInstance_ok in Ec. apply (inst_SetDesired_ok desired) in Ec.
  destruct (inst_SetDesiredFSMState desired inst) as [[e|] inst']; [by apply wp_ret|].
  apply wp_bind, wp_on_mgr, wp_bind, wp_schedule; [unfold TicksBeforeNextAdd; lia|].
  intros next w Hc. apply wp_bind, wp_on_mgr, wp_ret. simpl in *.
  eapply step_changed; [done|]. apply (changed_added cfgs (mgr s)); [done|by exists cfg|done..].
Qed.

Lemma wp_update_step cfgs name inst cfg s :
  mgr_ok (mgr s) → cfg ∈ cfgs → getName ops cfg = (name, None) → instances (mgr s) !! name = Some inst →
  inst_GetCurrentFSMState inst ≠ LifecycleStateRemoved →
  wp (update_step ops name inst cfg) (λ o s', step2 cfgs (mgr s) o (mgr s')) s.
Proof.
  intros Hok Hin Hn Hm Hr. pose proof (mgr_ok_lookup _ _ _ Hok Hm) as Hi.
  assert (Hlive : live (mgr s) name) by by exists inst. unfold update_step. apply wp_bind, wp_gets.
  destruct (compareConfig ops inst cfg) as [equal [e|]]; [by apply wp_ret, step_failed|].
  destruct equal; simpl.
  - destruct (getDesiredState ops cfg) as [desired [e|]]; [by apply wp_ret, step_failed|].
    case_bool_decide; [|by apply wp_ret].
    destruct (Z.ltb_spec (managerTick (mgr s)) (nextStateTick (mgr s))); [by apply wp_ret|].
    pose proof (redesired_update (mgr s) name inst desired Hm) as Hd.
    apply (inst_SetDesired_ok desired) in Hi.
    destruct (inst_SetDesiredFSMState desired inst) as [[e|] inst']; apply wp_bind, wp_on_mgr.
    { apply wp_ret, step_continue; [by eapply steady_update|exact Hd]. }
    apply wp_bind, wp_schedule; [unfold TicksBeforeNextState; lia|].
    intros next w Hc. apply wp_bind, wp_on_mgr, wp_ret. simpl in *.
    eapply step_changed; [done|]. apply (changed_state cfgs (mgr s)); [done|by exists cfg|done..].
  - destruct (Z.ltb_spec (managerTick (mgr s)) (nextUpdateTick (mgr s))); [by apply wp_ret|].
    apply (setConfig_ok (ops := ops) inst cfg) in Hi. destruct (setConfig ops inst cfg) as [[e|] inst']; apply wp_bind, wp_on_mgr.
    { apply wp_ret, step_failed. by eapply steady_update. }
    apply wp_bind, wp_schedule; [unfold TicksBeforeNextUpdate; lia|].
    intros next w Hc. apply wp_bind, wp_on_mgr, wp_ret. simpl in *.
    eapply step_changed; [done|]. apply (changed_updated cfgs (mgr s)); [done|by exists cfg|done..].
Qed.

Lemma wp_config_step cfgs cfg s :
  mgr_ok (mgr s) → cfg ∈ cfgs → wp (config_step ops cfg) (λ o s', step2 cfgs (mgr s) o (mgr s')) s.
Proof.
  intros Hok Hin. unfold config_step. destruct (getName ops cfg) as [name [e|]] eqn:En; [by apply wp_ret, step_failed|].
  apply wp_bind, wp_gets. destruct (instances (mgr s) !! name) as [inst|] eqn:E.
  - case_bool_decide; [by apply wp_ret|]. by apply wp_update_step.
  - by apply wp_create_step.
Qed.

Lemma changed_ok cfgs m m' : mgr_ok m → changed cfgs m m' → mgr_ok m'.
Proof. intros Hm. destruct 1; by apply (mgr_ok_insert m name i). Qed.

Lemma step_result_ok {A} cfgs m (K : A → BaseFSMManager I → Prop) o m' :
  mgr_ok m → step_result cfgs m K o m' → mgr_ok m'.
Proof.
  intros Hm. destruct 1 as [a m' [He _] _|e m' [He _]|m1 m' [He _] Hc]; [by eapply evolves_ok..|].
  eapply changed_ok; [|done]. by eapply evolves_ok.
Qed.

(** Composition of a step that went on with what follows it. *)
Lemma step_result_trans {A} cfgs m m1 (K K' : A → BaseFSMManager I → Prop) o m' :
  steady m m1 → (∀ a m2, steady m1 m2 → K' a m2 → K a m2) →
  step_result cfgs m1 K' o m' → step_result cfgs m K o m'.
Proof.
  intros He HK. destruct 1.
  - apply step_continue; [by etrans|auto].
  - apply step_failed. by etrans.
  - eapply step_changed; [by etrans|done].
Qed.

Lemma wp_config_steps cfgs l s :
  mgr_ok (mgr s) → (∀ c, c ∈ l → c ∈ cfgs) → wp (config_steps ops l) (λ o s', step2 cfgs (mgr s) o (mgr s')) s.
Proof.
  revert s. induction l as [|c l IH]; intros s Hok Hl; [by apply wp_ret|]. simpl.
  apply wp_bind. eapply wp_mono; [apply (wp_config_step cfgs); [done|apply Hl; by left]|].
  intros o s' Ho. inversion Ho as [[] m' He HK|e m' He|m1 m' He Hc]; subst.
  - pose proof He as [He' _].
    eapply wp_mono; [apply IH; [by eapply evolves_ok|intros; apply Hl; by right]|]. intros o' s'' Ho'. simpl in *.
    eapply step_result_trans; [done| |done]. intros. simpl in *. by etrans.
  - by apply wp_ret.
  - by apply wp_ret.
Qed.

(** *** Step 3 *)

Lemma find_name_spec name cfgs :
  match find_name ops name cfgs with
  | (true, None) => configured cfgs name
  | (false, None) => ¬ configured cfgs name
  | _ => True
  end.
Proof.
  induction cfgs as [|c cfgs IH]; simpl; [by intros (c & Hc%not_elem_of_nil & _)|].
  destruct (getName ops c) as [n [e|]] eqn:En; [done|].
  case_bool_decide as E; [subst; exists c; split; [by left|done]|].
  destruct (find_name ops name cfgs) as [[] [e|]]; [done| |done|].
  - destruct IH as (d & Hd & Ed). exists d. split; [by right|done].
  - intros (d & Hd & Ed). apply elem_of_cons in Hd as [->|Hd]; [congruence|]. apply IH. by exists d.
Qed.

Definition step3 cfgs (names toDelete : list string) m : Outcome (list string) → BaseFSMManager I → Prop :=
  step_result cfgs m (λ l m', m' = m ∧
    ∀ n, n ∈ l ↔ n ∈ toDelete ∨ n ∈ names ∧ removed_in m n).


Lemma wp_cleanup_step cfgs ctx name l s :
  mgr_ok (mgr s) → wp (cleanup_step ops ctx cfgs name l) (λ o s', step3 cfgs [name] l (mgr s) o (mgr s')) s.
Proof.
  intros Hok. unfold cleanup_step. pose proof (find_name_spec name cfgs) as Hf.
  destruct (find_name ops name cfgs) as [found [e|]]; [by apply wp_ret, step_failed|].
  apply wp_bind, wp_gets.
  assert (Hsame : ¬ removed_in (mgr s) name → step3 cfgs [name] l (mgr s) (Continue l) (mgr s)).
  { intros Hn. apply step_continue; [done|]. split; [done|]. intros n. rewrite list_elem_of_singleton.
    split; [by left|]. intros [?|[-> ?]]; done. }
  destruct (instances (mgr s) !! name) as [inst|] eqn:E.
  2:{ apply wp_ret, Hsame. intros (i & ? & _). congruence. }
  case_bool_decide as E1; [apply wp_ret, Hsame; intros (i & Hi & Hs); simplify_eq; by rewrite E1 in Hs|].
  case_bool_decide as E2.
  { apply wp_ret, step_continue; [done|]. split; [done|]. intros n.
    rewrite elem_of_app, list_elem_of_singleton.
    split; [|by intros [?|[-> _]]; [left|right]].
    intros [?| ->]; [by left|]. right. split; [done|]. by exists inst. }
  assert (Hnr : ¬ removed_in (mgr s) name).
  { intros (i & Hi & Hs). rewrite E in Hi. injection Hi as ->. done. }
  destruct found; [by apply wp_ret, Hsame|].
  destruct (Z.ltb_spec (managerTick (mgr s)) (nextRemoveTick (mgr s))); [by apply wp_ret, Hsame|].
  apply wp_bind, wp_on_instance; [by eapply inst_Remove_ok, mgr_ok_lookup|].
  intros [e|] i' w _ Hi'; [apply wp_ret, step_failed; by eapply steady_update|].
  apply wp_bind, wp_schedule; [unfold TicksBeforeNextRemove; lia|].
  intros next w' Hc. apply wp_bind, wp_on_mgr, wp_ret. simpl in *.
  eapply step_changed; [done|]. apply (changed_removed cfgs (mgr s)); [done|done|by exists inst|done..].
Qed.

Lemma wp_cleanup_steps cfgs ctx names l s :
  mgr_ok (mgr s) → wp (cleanup_steps ops ctx cfgs names l) (λ o s', step3 cfgs names l (mgr s) o (mgr s')) s.
Proof.
  revert l s. induction names as [|n names IH]; intros l s Hok.
  { apply wp_ret, step_continue; [done|]. split; [done|]. intros n.
    split; [by left|]. by intros [?|[?%not_elem_of_nil _]]. }
  simpl. apply wp_bind. eapply wp_mono; [by apply wp_cleanup_step|].
  intros o s' Ho. inversion Ho as [l' m' He [Hm Hl]|e m' He|m1 m' He Hc]; subst.
  - eapply wp_mono; [apply IH; by rewrite Hm|]. intros o' s'' Ho'. simpl in *. rewrite Hm in Ho'.
    eapply (step_result_trans _ _ (mgr s)); [done| |exact Ho']. simpl. intros a m2 _ [-> Ha]. split; [done|].
    intros k. rewrite Ha, Hl, !elem_of_cons, elem_of_nil. tauto.
  - by apply wp_ret, step_failed.
  - apply wp_ret. by eapply step_changed.
Qed.

(** *** Step 4 *)

(** A reconciliation of the instance [n] ended in a permanent failure. *)
Definition permanently_failed (m : BaseFSMManager I) (n : string) : Prop :=
  ∃ i ctx snap w e b p, instances m !! n = Some i ∧
    inst_Reconcile ctx snap (i, w) = Some ((Some e, b), p) ∧ IsPermanentFailureError (Some e) = true.

Lemma wp_force_remove_async ctx name s :
  mgr_ok (mgr s) →
  wp (force_remove_async ctx name)
     (λ _ s', evolves (mgr s) (mgr s') ∧ ∀ n, n ≠ name → instances (mgr s') !! n = instances (mgr s) !! n) s.
Proof.
  intros Hok. unfold force_remove_async. apply wp_bind, wp_gets.
  destruct inst_ForceRemove as [f|] eqn:Ef; [|by apply wp_ret].
  destruct (instances (mgr s) !! name) as [i|] eqn:E; [|by apply wp_ret].
  apply wp_bind, wp_on_instance; [by eapply inst_ForceRemove_ok, mgr_ok_lookup|].
  intros a i' w _ Hi'. apply wp_ret. split; [by eapply evolves_update|].
  intros n Hn. simpl. by rewrite lookup_insert_ne.
Qed.

Lemma wp_maybeEscalateRemoval ctx name i s :
  mgr_ok (mgr s) → instances (mgr s) !! name = Some i →
  wp (maybeEscalateRemoval ctx name i)
     (λ _ s', evolves (mgr s) (mgr s') ∧ ∀ n, n ≠ name → instances (mgr s') !! n = instances (mgr s) !! n) s.
Proof.
  intros Hok E. unfold maybeEscalateRemoval. destruct (inst_IsTransientStreakCounterMaxed i); [|by apply wp_ret].
  simpl. case_bool_decide; [by apply wp_force_remove_async|].
  apply wp_bind, wp_on_instance; [by eapply inst_Remove_ok, mgr_ok_lookup|]. intros a i' w _ Hi'.
  assert (Hu : evolves (mgr s) (set_instances (insert name i') (mgr s))) by by eapply evolves_update.
  assert (Hl : ∀ n, n ≠ name → instances (set_instances (insert name i') (mgr s)) !! n = instances (mgr s) !! n).
  { intros n Hn. simpl. by rewrite lookup_insert_ne. }
  destruct a as [e|]; [|by apply wp_ret].
  eapply wp_mono; [apply wp_force_remove_async; by apply mgr_ok_insert|]. simpl. intros _ s' [He Hn].
  split; [by etrans|]. intros n Hne. by rewrite Hn, Hl.
Qed.

Lemma wp_reconcileInstance ctx snap name i s :
  mgr_ok (mgr s) → instances (mgr s) !! name = Some i →
  wp (reconcileInstanceWithTimeout ctx snap name i)
     (λ r s', evolves (mgr s) (mgr s') ∧
        (∀ n, n ≠ name → instances (mgr s') !! n = instances (mgr s) !! n) ∧
        (res_shallBeRemoved r = true → permanently_failed (mgr s) name)) s.
Proof.
  intros Hok E. unfold reconcileInstanceWithTimeout.
  apply wp_bind, wp_on_instance; [by eapply inst_Reconcile_ok, mgr_ok_lookup|]. intros [re b] i' w Hr Hi'.
  assert (Hu : evolves (mgr s) (set_instances (insert name i') (mgr s))) by by eapply evolves_update.
  assert (Hl : ∀ n, n ≠ name → instances (set_instances (insert name i') (mgr s)) !! n = instances (mgr s) !! n).
  { intros n Hn. simpl. by rewrite lookup_insert_ne. }
  destruct re as [e|].
  - destruct (IsPermanentFailureError (Some e)) eqn:Ep; apply wp_ret; split_and!; try done.
    intros _. by exists i, ctx, snap, (menv s), e, b, (i', w).
  - apply wp_bind, wp_gets. simpl. rewrite lookup_insert_eq. apply wp_bind.
    eapply wp_mono; [apply wp_maybeEscalateRemoval; [by apply mgr_ok_insert|simpl; by rewrite lookup_insert_eq]|].
    simpl. intros _ s' [He Hn]. apply wp_ret. split_and!; [by etrans| |done].
    intros n Hne. by rewrite Hn, Hl.
Qed.

(** Every instance a batch marks for removal failed permanently. *)
Definition batch_ok (m0 : BaseFSMManager I) (c : Collected) : Prop :=
  ∀ n r, (n, r) ∈ results c → res_shallBeRemoved r = true → permanently_failed m0 n.

Definition step4 m0 m : Outcome Collected → BaseFSMManager I → Prop :=
  λ o m', evolves m m' ∧
    match o with Continue c => batch_ok m0 c | Return (Some _) false => True | _ => False end.

Lemma wp_schedule_batch ctx snap names c m0 s :
  mgr_ok (mgr s) →
  NoDup names → (∀ n, n ∈ names → instances (mgr s) !! n = instances m0 !! n) → batch_ok m0 c →
  wp (schedule_batch ops ctx snap names c) (λ o s', step4 m0 (mgr s) o (mgr s')) s.
Proof.
  revert c s. induction names as [|name names IH]; intros c s Hmok Hnd Hsame Hok; [by apply wp_ret|].
  apply NoDup_cons in Hnd as [Hnotin Hnd]. cbn [schedule_batch].
  apply wp_bind, wp_liftW. intros expired w _. destruct expired as [e|]; [by apply wp_ret|].
  assert (Hsame' : ∀ n, n ∈ names → instances (mgr s) !! n = instances m0 !! n) by (intros; apply Hsame; by right).
  apply wp_bind, wp_gets. cbn [mgr menv].
  destruct (instances (mgr s) !! name) as [inst|] eqn:E; [|by apply (IH c (mkMSt (mgr s) w))].
  destruct (getMinimumRequiredTime ops inst) as [t [e|]]; [by apply wp_ret|].
  apply wp_bind, wp_liftW. intros [[rem suff] [e|]] w' _.
  { destruct (IsErr e ErrNoDeadline); by apply wp_ret. }
  destruct suff; [|by apply (IH _ (mkMSt (mgr s) w'))]. apply wp_bind. unfold goroutine.
  apply wp_bind, wp_liftW. intros [e|] w'' _; [by apply wp_ret, (IH c (mkMSt (mgr s) w''))|].
  apply wp_bind, wp_gets. cbn [mgr menv]. rewrite E.
  apply wp_bind. eapply wp_mono; [by apply wp_reconcileInstance|]. cbn [mgr].
  intros r s' (He & Hn & Hp). apply wp_ret.
  eapply wp_mono; [apply IH; [by eapply evolves_ok|done|..]|].
  - intros n Hin. rewrite Hn by set_solver. auto.
  - intros n r' [Hin|Hin]%elem_of_app Hr; [by eapply Hok|].
    apply list_elem_of_singleton in Hin. injection Hin as -> ->.
    destruct (Hp Hr) as (i & Hi). exists i. rewrite <- (Hsame name) by by left. done.
  - intros o s'' [He' Ho]. split; [by etrans|done].
Qed.

Lemma delete_all_lookup l m n :
  instances (delete_all l m) !! n = if decide (n ∈ l) then None else instances m !! n.
Proof.
  unfold delete_all. simpl. generalize (instances m). induction l as [|k l IH]; intros g; simpl; [done|].
  rewrite IH. destruct (decide (n ∈ l)), (decide (n ∈ k :: l)) as [Hk|Hk]; rewrite ?elem_of_cons in Hk; try tauto.
  - destruct (decide (n = k)) as [->|]; [by rewrite lookup_delete_eq|tauto].
  - rewrite lookup_delete_ne; [done|]. intros ->. tauto.
Qed.

Lemma delete_all_ticks l m :
  managerTick (delete_all l m) = managerTick m ∧ nextAddTick (delete_all l m) = nextAddTick m ∧
  nextUpdateTick (delete_all l m) = nextUpdateTick m ∧ nextRemoveTick (delete_all l m) = nextRemoveTick m ∧
  nextStateTick (delete_all l m) = nextStateTick m.
Proof. done. Qed.

Lemma delete_all_dom l m : dom (instances (delete_all l m)) ⊆ dom (instances m).
Proof.
  intros n. rewrite !elem_of_dom, delete_all_lookup. case_decide; [by intros [? ?]|done].
Qed.

Lemma delete_all_ok l m : mgr_ok m → mgr_ok (delete_all l m).
Proof.
  intros Hok n i. rewrite delete_all_lookup. case_decide; [done|]. by apply Hok.
Qed.

Lemma slice_NoDup l b : NoDup l → NoDup (slice l b).
Proof. intros Hl. eapply sublist_NoDup; [exact Hl|]. etrans; [apply sublist_take|apply sublist_drop]. Qed.

Lemma to_remove_ok m0 c rs n :
  batch_ok m0 c → (∀ x, x ∈ rs → x ∈ results c) → n ∈ to_remove rs → permanently_failed m0 n.
Proof.
  intros Hok Hrs Hn. unfold to_remove in Hn. apply list_elem_of_omap in Hn as ([k r] & Hin & Hk).
  simpl in Hk. destruct (bool_decide _ && res_shallBeRemoved r) eqn:E; [|done].
  injection Hk as ->. apply andb_true_iff in E as [_ E]. by eapply Hok; [apply Hrs|].
Qed.

Definition step4_result m (m' : BaseFSMManager I) : Prop :=
  ∃ m1 l, evolves m m1 ∧ (∀ n, n ∈ l → permanently_failed m n) ∧ m' = delete_all l m1.

Lemma wp_reconcile_batch ctx snap select s :
  mgr_ok (mgr s) → wp (reconcile_batch ops ctx snap select) (λ _ s', step4_result (mgr s) (mgr s')) s.
Proof.
  intros Hok. assert (Hnone : ∀ m m', evolves m m' → step4_result m m').
  { intros m m' He. exists m', []. split; [done|]. split; [by intros n ?%not_elem_of_nil|by destruct m']. }
  unfold reconcile_batch. destruct (ctx_Deadline ctx) as [d|]; [|by apply wp_ret, Hnone].
  apply wp_bind, wp_liftW. intros t w1 _. apply wp_bind, wp_liftW. intros t' w2 _.
  apply wp_bind, wp_gets. cbn [mgr menv].
  apply wp_bind, wp_liftW. cbn [mgr menv]. intros names w3 Hnames.
  assert (Hnd : NoDup names).
  { pose proof (map_order_perm (elements (dom (instances (mgr s)))) w2) as Hp. rewrite Hnames in Hp.
    simpl in Hp. rewrite Hp. apply NoDup_elements. }
  apply wp_bind. eapply wp_mono.
  { apply (wp_schedule_batch _ _ _ _ (mgr s)); [done|by apply slice_NoDup|done|].
    intros n r Hin. by apply not_elem_of_nil in Hin. }
  cbn [mgr]. intros o s' [He Ho]. destruct o as [c|e b]; [|apply wp_ret; by apply Hnone].
  apply wp_bind, (wp_gets (λ x, x)), wp_bind.
  apply (wp_mono _ (λ p s'', mgr s'' = mgr s' ∧ ∀ x, x ∈ p.2 → x ∈ results c)).
  { unfold wait_outcome. destruct (select _); [|by apply wp_ret].
    apply wp_bind, wp_liftW. intros [e|] w _; apply wp_ret; [|done].
    split; [done|]. intros x Hx. simpl in Hx. apply elem_of_take in Hx as (j & Hj & _).
    by eapply list_elem_of_lookup_2. }
  intros [err fin] s'' [Es Hfin]. apply wp_bind, wp_on_mgr. simpl in *.
  assert (HR : step4_result (mgr s) (delete_all (to_remove fin) (mgr s''))).
  { exists (mgr s''), (to_remove fin). rewrite Es. split; [done|]. split; [|done].
    intros n Hn. by eapply to_remove_ok. }
  repeat case_match; by apply wp_ret.
Qed.

(** *** The whole tick *)

(** [ticked cfgs m r m']: one [Reconcile] of the manager [m], its tick already
    counted, returns [r] and leaves [m']. *)
Inductive ticked cfgs m : option GoErr * bool → BaseFSMManager I → Prop :=
  | ticked_skipped : ticked cfgs m (None, false) m
  | ticked_failed e m' : steady m m' → ticked cfgs m (Some e, false) m'
  | ticked_changed m1 m' : steady m m1 → changed cfgs m1 m' → ticked cfgs m (None, true) m'
  | ticked_reconciled m1 gone m' r :
      steady m m1 → redesired_all m m1 → (∀ n, n ∈ gone ↔ removed_in m1 n) →
      step4_result (delete_all gone m1) m' → ticked cfgs m r m'.

Lemma wp_Reconcile select ctx config snap s :
  mgr_ok (mgr s) →
  wp (Reconcile ops select ctx config snap)
     (λ r s', mgr_ok (mgr s') ∧ ticked (extractConfigs ops config).1 (incr_managerTick (mgr s)) r (mgr s')) s.
Proof.
  intros Hok0. unfold Reconcile. apply wp_bind, wp_on_mgr, wp_bind, wp_liftW. cbn [mgr menv].
  set (m := incr_managerTick (mgr s)). assert (Hok : mgr_ok m) by done. intros [e|] w _.
  { destruct (IsErr e DeadlineExceeded); apply wp_ret; split; try done; [apply ticked_skipped|by apply ticked_failed]. }
  destruct (extractConfigs ops config) as [cfgs [e|]]; [apply wp_ret; split; [done|by apply ticked_failed]|].
  apply wp_bind. eapply wp_mono; [by apply (wp_config_steps cfgs)|]. cbn [mgr fst].
  intros o s1 Ho. pose proof (step_result_ok _ _ _ _ _ Hok Ho) as Hok1.
  inversion Ho as [[] m' He Hre|e m' He|m1 m' He Hc]; subst.
  2:{ apply wp_ret. split; [done|by apply ticked_failed]. }
  2:{ apply wp_ret. split; [done|by eapply ticked_changed]. }
  apply wp_bind, wp_gets, wp_bind, wp_liftW. intros names w1 Hnames.
  assert (Hin : ∀ n, n ∈ names ↔ is_Some (instances (mgr s1) !! n)).
  { intros n. pose proof (map_order_perm (elements (dom (instances (mgr s1)))) (menv s1)) as Hp.
    rewrite Hnames in Hp. simpl in Hp. rewrite Hp, elem_of_elements. apply elem_of_dom. }
  apply wp_bind. eapply wp_mono; [by apply (wp_cleanup_steps cfgs)|]. cbn [mgr].
  intros o s2 Ho2. pose proof (step_result_ok _ _ _ _ _ Hok1 Ho2) as Hok2.
  inversion Ho2 as [gone m' He2 [Hm Hgone]|e m' He2|m1 m' He2 Hc]; subst.
  - apply wp_bind, wp_on_mgr. eapply wp_mono; [apply wp_reconcile_batch; by apply delete_all_ok|].
    cbn [mgr]. rewrite Hm. intros r s3 Hr. split.
    + destruct Hr as (m1 & l & He1 & _ & ->). apply delete_all_ok. eapply evolves_ok; [exact He1|].
      by apply delete_all_ok.
    + eapply ticked_reconciled; [done..| |exact Hr].
      intros n. rewrite Hgone, Hin. split.
      * intros [?%not_elem_of_nil|[_ ?]]; done.
      * intros Hrm. right. split; [|done]. destruct Hrm as (i & -> & _). done.
  - apply wp_ret. split; [done|]. apply ticked_failed. by etrans.
  - apply wp_ret. split; [done|]. eapply ticked_changed; [|done]. by etrans.
Qed.
End tick.

(** ** Properties *)

Definition incr_ok {I} (m : BaseFSMManager I) (n : nat) : Prop :=
  (0 <= managerTick m)%Z ∧ (managerTick m + Z.of_nat n + 38 < 2 ^ 64)%Z.

(** No rate limit reaches further than the longest cooldown. *)
Record limits_ok {I} (m : BaseFSMManager I) : Prop := {
  limit_add : (nextAddTick m <= managerTick m + 38)%Z;
  limit_update : (nextUpdateTick m <= managerTick m + 13)%Z;
  limit_remove : (nextRemoveTick m <= managerTick m + 13)%Z;
  limit_state : (nextStateTick m <= managerTick m + 13)%Z;
}.

Lemma cooldown_range now base next :
  (0 <= now)%Z → (0 <= base <= 30)%Z → (now + 38 < 2 ^ 64)%Z → cooldown now base next →
  (now + (3 * base + 2) / 4 <= next <= now + (5 * base + 2) / 4)%Z.
Proof.
  intros Hn Hb Hw (d & Hd & ->). rewrite wrap_u64_small; [lia|].
  unfold in_u64. Z.to_euclidean_division_equations; lia.
Qed.

Section properties.
Context {FullConfig C I W : Type} `{World W} `{MapOrder W} `{FSMInstance I W} `{!InstanceInv I}
  `{!FSMInstanceLaws I W}.
Context (ops : ManagerOps FullConfig C I) `{!ManagerOpsLaws ops}.
Implicit Types (m : BaseFSMManager I) (s : MSt I W).

(** The arguments of one call of [Reconcile]. *)
Record Input := mkInput { in_select : W → option nat; in_ctx : Ctx; in_config : FullConfig; in_snap : Snapshot }.

Definition tick (i : Input) : M (MSt I W) (option GoErr * bool) :=
  Reconcile ops (in_select i) (in_ctx i) (in_config i) (in_snap i).

(** The names that appear during a tick. *)
Definition created m m' : gset string := dom (instances m') ∖ dom (instances m).

Fixpoint ticks (l : list Input) : M (MSt I W) (list (gset string)) :=
  match l with
  | [] => mret []
  | i :: l' =>
      s ← get;
      _ ← tick i;
      s' ← get;
      rest ← ticks l';
      mret ((created (mgr s) (mgr s')) :: rest)
  end.

Definition creations (l : list (gset string)) : nat := sum_list (size <$> l).

Lemma creations_cons c l : creations (c :: l) = size c + creations l.
Proof. done. Qed.

Lemma step4_result_spec m m' :
  step4_result m m' →
  dom (instances m') ⊆ dom (instances m) ∧ managerTick m' = managerTick m ∧
  nextAddTick m' = nextAddTick m ∧ nextUpdateTick m' = nextUpdateTick m ∧
  nextRemoveTick m' = nextRemoveTick m ∧ nextStateTick m' = nextStateTick m.
Proof.
  intros (m1 & l & (E1 & E2 & E3 & E4 & E5 & E6 & _) & _ & ->).
  pose proof (delete_all_dom l m1). rewrite E1 in *. done.
Qed.

(** What a tick may do to names and rate limits, in numbers. *)
Lemma ticked_limits cfgs m r m' :
  (0 <= managerTick m)%Z → (managerTick m + 38 < 2 ^ 64)%Z → ticked ops cfgs m r m' →
  managerTick m' = managerTick m ∧
  (nextUpdateTick m' <= Z.max (nextUpdateTick m) (managerTick m + 13))%Z ∧
  (nextRemoveTick m' <= Z.max (nextRemoveTick m) (managerTick m + 13))%Z ∧
  (nextStateTick m' <= Z.max (nextStateTick m) (managerTick m + 13))%Z ∧
  (dom (instances m') ⊆ dom (instances m) ∧ nextAddTick m' = nextAddTick m ∨
   ∃ name, configured ops cfgs name ∧ (name ∉ dom (instances m)) ∧
     dom (instances m') = {[name]} ∪ dom (instances m) ∧ r = (None, true) ∧
     (nextAddTick m <= managerTick m)%Z ∧
     (managerTick m + 23 <= nextAddTick m' <= managerTick m + 38)%Z).
Proof.
  intros H0' Hw. destruct 1 as [|e m' [E _]|m1 m' [E _] Hc|m1 gone m' r [E _] _ _ H4].
  - split_and!; try lia. left. done.
  - destruct E as (-> & -> & -> & -> & -> & -> & _). split_and!; try lia. by left.
  - destruct E as (E1 & E2 & E3 & E4 & E5 & E6 & _).
    assert (Hlive : ∀ name, live m1 name → name ∈ dom (instances m1)).
    { intros name (i & Hi & _). by apply elem_of_dom_2 in Hi. }
    destruct Hc as [name i next _ Hn Hi Ht Hc|name i next _ Hn Hl Ht Hc|name i next _ Hn Hl Ht Hc|name i next _ Hn Hl Ht Hc];
      apply cooldown_range in Hc; rewrite ?E2; try lia; try (cbv; split; done);
      try (apply Hlive in Hl as Hin);
      simpl; rewrite ?E2, ?E3, ?E4, ?E5, ?E6, dom_insert_L, E1 in *; split_and!; try lia.
    + right. exists name. split_and!; try done; try lia.
      * rewrite <- E1. by apply not_elem_of_dom.
      * unfold TicksBeforeNextAdd in Hc. Z.to_euclidean_division_equations; lia.
      * unfold TicksBeforeNextAdd in Hc. Z.to_euclidean_division_equations; lia.
    + unfold TicksBeforeNextUpdate in Hc. Z.to_euclidean_division_equations; lia.
    + left. set_solver.
    + unfold TicksBeforeNextState in Hc. Z.to_euclidean_division_equations; lia.
    + left. set_solver.
    + unfold TicksBeforeNextRemove in Hc. Z.to_euclidean_division_equations; lia.
    + left. set_solver.
  - destruct (step4_result_spec _ _ H4) as (D & -> & -> & -> & -> & ->).
    destruct E as (E1 & E2 & E3 & E4 & E5 & E6 & _).
    destruct (delete_all_ticks gone m1) as (-> & -> & -> & -> & ->). pose proof (delete_all_dom gone m1).
    rewrite E2, E3, E4, E5, E6. split_and!; try lia. left. split; [|done]. rewrite <- E1. set_solver.
Qed.

Lemma wp_tick i s :
  mgr_ok (mgr s) →
  wp (tick i) (λ r s', mgr_ok (mgr s') ∧
    ticked ops (extractConfigs ops (in_config i)).1 (incr_managerTick (mgr s)) r (mgr s')) s.
Proof. exact (wp_Reconcile ops (in_select i) (in_ctx i) (in_config i) (in_snap i) s). Qed.

(** The manager keeps the invariant of its instances, whatever it is given. *)
Lemma wp_ticks_ok l s : mgr_ok (mgr s) → wp (ticks l) (λ r s', length r = length l ∧ mgr_ok (mgr s')) s.
Proof.
  revert s. induction l as [|i l IH]; intros s Hm; [by apply wp_ret|].
  apply wp_bind, (wp_gets (λ x, x)), wp_bind. eapply wp_mono; [by apply wp_tick|]. intros r s' [Hm' _].
  apply wp_bind, (wp_gets (λ x, x)), wp_bind. eapply wp_mono; [by apply IH|]. intros rest s'' [Hr Hm''].
  apply wp_ret. simpl. by rewrite Hr.
Qed.

Lemma incr_ok_tick m n : incr_ok m (S n) →
  managerTick (incr_managerTick m) = (managerTick m + 1)%Z ∧ (managerTick m + 1 + Z.of_nat n + 38 < 2 ^ 64)%Z.
Proof. intros [? ?]. simpl. rewrite wrap_u64_small; [lia|unfold in_u64; lia]. Qed.

(** While additions are blocked, the next [n] ticks create nothing. *)
Lemma ticks_blocked l s :
  mgr_ok (mgr s) → incr_ok (mgr s) (length l) → (managerTick (mgr s) + Z.of_nat (length l) < nextAddTick (mgr s))%Z →
  wp (ticks l) (λ r _, creations r = 0) s.
Proof.
  revert s. induction l as [|i l IH]; intros s Hm Hok Hb; [by apply wp_ret|].
  cbn [length] in *. destruct (incr_ok_tick _ _ Hok) as [Et Hw].
  apply wp_bind, (wp_gets (λ x, x)), wp_bind. eapply wp_mono; [by apply wp_tick|]. intros r s' [Hm' Ht].
  apply ticked_limits in Ht as (E & _ & _ & _ & Hadd); [|destruct Hok; lia..]. rewrite Et in *.
  change (nextAddTick (incr_managerTick (mgr s))) with (nextAddTick (mgr s)) in Hadd.
  destruct Hadd as [[Hd Ha]|(name & _ & _ & _ & _ & Ha & _)]; [|lia].
  apply wp_bind, (wp_gets (λ x, x)), wp_bind. eapply wp_mono; [apply IH; [done|destruct Hok; split; lia|lia]|].
  intros rest s'' Hr. apply wp_ret. rewrite creations_cons, Hr.
  assert (Hc : created (mgr s) (mgr s') = ∅) by (unfold created; simpl in Hd; set_solver).
  by rewrite Hc, size_empty.
Qed.

(** C3: creations are spread out.  Whatever configurations, contexts and snapshots
    the ticks are given, every one of them returns, and in any 23 consecutive
    ticks at most one new instance appears in the manager. *)
Theorem creations_are_spaced l s :
  mgr_ok (mgr s) → length l ≤ 23 → incr_ok (mgr s) 23 → wp (ticks l) (λ r _, length r = length l ∧ creations r ≤ 1) s.
Proof.
  intros Hm Hl Hok.
  cut (wp (ticks l) (λ r _, creations r ≤ 1) s).
  { intros (r & s' & E & Hr). exists r, s'. split; [done|]. split; [|done].
    by destruct (wp_elim _ _ _ _ _ (wp_ticks_ok l s Hm) E). }
  assert (Hok' : incr_ok (mgr s) (length l)) by (destruct Hok; split; lia). clear Hok.
  revert s Hm Hok'. induction l as [|i l IH]; intros s Hm Hok; [apply wp_ret; cbv; lia|].
  cbn [length] in *. destruct (incr_ok_tick _ _ Hok) as [Et Hw].
  apply wp_bind, (wp_gets (λ x, x)), wp_bind. eapply wp_mono; [by apply wp_tick|]. intros r s' [Hm' Ht].
  apply ticked_limits in Ht as (E & _ & _ & _ & Hadd); [|destruct Hok; lia..]. rewrite Et in *.
  apply wp_bind, (wp_gets (λ x, x)), wp_bind.
  destruct Hadd as [[Hd _]|(name & _ & _ & Hd & _ & _ & Ha)]; simpl in Hd.
  - eapply wp_mono; [apply IH; [lia|done|destruct Hok; split; lia]|]. intros rest s'' Hr. apply wp_ret.
    rewrite creations_cons. assert (created (mgr s) (mgr s') = ∅) as -> by (unfold created; set_solver).
    by rewrite size_empty.
  - eapply wp_mono; [apply ticks_blocked; [done|destruct Hok; split; lia|lia]|]. intros rest s'' Hr. apply wp_ret.
    rewrite creations_cons, Hr. unfold created. rewrite Hd.
    transitivity (size ({[name]} : gset string)); [|by rewrite size_singleton].
    rewrite Nat.add_0_r. apply subseteq_size. set_solver.
Qed.

(** No rate limit blocks for longer than its cooldown: from a new manager on,
    after every tick each of the four limits lies at most its longest jittered
    cooldown (38 ticks for additions, 13 for the others) ahead. *)
Theorem rate_limits_expire l s :
  mgr_ok (mgr s) → limits_ok (mgr s) → incr_ok (mgr s) (length l) →
  wp (ticks l) (λ _ s', limits_ok (mgr s') ∧
    managerTick (mgr s') = (managerTick (mgr s) + Z.of_nat (length l))%Z) s.
Proof.
  revert s. induction l as [|i l IH]; intros s Hm Hlim Hok; [apply wp_ret; split; [done|simpl; lia]|].
  cbn [length] in *. destruct (incr_ok_tick _ _ Hok) as [Et Hw].
  apply wp_bind, (wp_gets (λ x, x)), wp_bind. eapply wp_mono; [by apply wp_tick|]. intros r s' [Hm' Ht].
  apply ticked_limits in Ht as (E & HU & HR & HS & Hadd); [|destruct Hok; lia..]. rewrite Et in *.
  cbn [incr_managerTick nextAddTick nextUpdateTick nextRemoveTick nextStateTick] in *.
  apply wp_bind, (wp_gets (λ x, x)), wp_bind.
  eapply wp_mono; [apply IH; [done|destruct Hlim; split; try lia|destruct Hok; split; lia]|].
  - destruct Hadd as [[_ ->]|(name & _ & _ & _ & _ & _ & Ha)]; lia.
  - intros rest s'' [Hl' E']. apply wp_ret. split; [done|]. rewrite E', E. lia.
Qed.

(** C4: the manager never loses a running instance: a name that disappears during a
    tick belonged to an instance in the removed state, or to one whose own
    reconciliation on that tick reported a permanent failure (it is then created
    again from the configuration). *)
Theorem deletion_is_justified i s :
  mgr_ok (mgr s) →
  wp (tick i) (λ _ s', ∀ n,
      n ∈ dom (instances (mgr s)) → n ∉ dom (instances (mgr s')) →
      removed_in (mgr s) n ∨ ∃ m1, redesired_all (mgr s) m1 ∧ permanently_failed m1 n) s.
Proof.
  intros Hm. eapply wp_mono; [by apply wp_tick|]. intros r s' [_ Ht]. revert Ht.
  cbn beta. generalize (mgr s'). intros mf Ht.
  destruct Ht as [|e m' [E _]|m1 m' [E _] Hc|m1 gone m' r' [E _] Hre Hgone H4]; intros n Hin Hout.
  - by destruct (Hout Hin).
  - destruct E as (E & _). rewrite E in Hout. done.
  - destruct E as (E & _). simpl in E.
    destruct Hc as [name j next _ _ _ _ _|name j next _ _ _ _ _|name j next _ _ _ _ _|name j next _ _ _ _ _];
      simpl in Hout; rewrite dom_insert_L, E in Hout; set_solver.
  - destruct H4 as (m2 & l & (E2 & _) & Hl & Hm'). rewrite Hm' in Hout.
    rewrite not_elem_of_dom, delete_all_lookup in Hout. case_decide as Hd.
    + right. exists m1. split; [done|]. destruct (Hl n Hd) as (j & c & sn & w & e & b & p & Hj & Hr & Hp).
      rewrite delete_all_lookup in Hj. case_decide; [done|].
      by exists j, c, sn, w, e, b, p.
    + left. apply not_elem_of_dom in Hout. rewrite E2, not_elem_of_dom, delete_all_lookup in Hout.
      destruct E as (E & _). simpl in E. rewrite <- E in Hin. apply elem_of_dom in Hin as [j Hj].
      case_decide as Hg; [|congruence]. apply Hgone in Hg as (k & Hk & Hs).
      specialize (Hre n). rewrite Hk in Hre. simpl in Hre. inversion Hre as [x y Hxy|]; subst.
      exists x. split; [done|]. rewrite <- Hs. clear -Hxy FSMInstanceLaws0.
      induction Hxy as [|x y z [d ->] _ IH]; [done|]. by rewrite <- IH, inst_SetDesired_state.
Qed.

(** An instance that is gone is never brought back to life and never blocks the
    manager: after a tick it is deleted, so that it can be created afresh, or it
    is still in the removed state because the tick was skipped, failed, or made
    its one change on another instance. *)
Theorem removed_instance_is_collected i n s :
  mgr_ok (mgr s) → removed_in (mgr s) n →
  wp (tick i) (λ r s',
      n ∉ dom (instances (mgr s')) ∨
      removed_in (mgr s') n ∧
        (r = (None, false) ∨ is_Some r.1 ∨
         ∃ m1, steady (incr_managerTick (mgr s)) m1 ∧
           changed ops (extractConfigs ops (in_config i)).1 m1 (mgr s'))) s.
Proof.
  intros Hm Hrm. eapply wp_mono; [by apply wp_tick|]. intros r s' [_ Ht]. revert Ht.
  cbn beta. generalize (mgr s'). intros mf Ht.
  destruct Ht as [|e m' [E Hk]|m1 m' [E Hk] Hc|m1 gone m' r' [E Hk] Hre Hgone H4].
  - right. split; [done|by left].
  - right. split; [by apply Hk|]. right. left. by eexists.
  - right. assert (Hr1 : removed_in m1 n) by by apply Hk. split.
    2:{ right. right. by exists m1. }
    destruct Hr1 as (j & Hj & Hs). exists j. split; [|done].
    destruct Hc as [name k next _ _ Hl _ _|name k next _ _ (k' & Hl & Hs') _ _|name k next _ _ (k' & Hl & Hs') _ _
      |name k next _ _ (k' & Hl & Hs') _ _]; simpl; (rewrite lookup_insert_ne; [done|intros ->; congruence]).
  - left. destruct (step4_result_spec _ _ H4) as (D & _). intros Hin%D.
    rewrite elem_of_dom, delete_all_lookup in Hin. rewrite decide_True in Hin; [by destruct Hin|].
    apply Hgone, Hk, Hrm.
Qed.
End properties.

(** ** Concrete runs *)

(** An instance that moves to its desired state at once, unless it is broken. *)
#[export] Instance demo_instance : FSMInstance (string * string) Z := {
  inst_GetCurrentFSMState := fst;
  inst_GetDesiredFSMState := snd;
  inst_SetDesiredFSMState d i := (None, (i.1, d));
  inst_IsTransientStreakCounterMaxed _ := false;
  inst_Reconcile _ _ := λ '(i, w),
    if bool_decide (i.1 = "broken") then Some ((Some (ENew PermanentFailureError), false), (i, w))
    else Some ((None, true), ((i.2, i.2), w));
  inst_Remove _ := λ '(i, w), Some (None, ((LifecycleStateRemoving, i.2), w));
  inst_ForceRemove := None;
}.

#[export] Instance demo_inv : InstanceInv (string * string) := λ _, True.

#[export] Instance demo_laws : FSMInstanceLaws (string * string) Z.
Proof.
  split; [|by intros ctx i w; eexists _, _|done..].
  intros ctx snap i w _. unfold wp. simpl. case_bool_decide; by eexists _, _.
Defined.

#[export, refine] Instance counting_order : MapOrder Z := { map_order l w := (l, w) }.
Proof. done. Defined.

(** Configurations are pairs of a name and a desired state. *)
Definition demo_ops : ManagerOps (list (string * string)) (string * string) (string * string) := {|
  extractConfigs l := (l, None);
  getName c := (c.1, None);
  getDesiredState c := (c.2, None);
  createInstance c := (Some (LifecycleStateToBeCreated, c.2), None);
  compareConfig _ _ := (true, None);
  setConfig i _ := (None, i);
  getMinimumRequiredTime _ := (10%Z, None);
|}.

#[export] Instance demo_ops_laws : ManagerOpsLaws demo_ops.
Proof. by split. Defined.

Definition demo_input (l : list (string * string)) : Input :=
  mkInput (λ _ : Z, None) (mkCtx (Some 10000000%Z) None) l (mkSnapshot 0 0).
Definition demo_mst (l : list (string * (string * string))) : MSt (string * string) Z :=
  mkMSt (set_instances (λ _, list_to_map l) NewBaseFSMManager) 0%Z.

(** Two instances are wanted at once: the second has to wait for its turn. *)
Example second_instance_waits :
  (λ r, creations r.1) <$> ticks demo_ops (repeat (demo_input [("a", "up"); ("b", "up")]) 23) (demo_mst []) = Some 1 ∧
  (λ r, creations r.1) <$> ticks demo_ops (repeat (demo_input [("a", "up"); ("b", "up")]) 39) (demo_mst []) = Some 2.
Proof. split; by vm_compute. Qed.

Lemma creations_are_spaced_witness :
  wp (ticks demo_ops (repeat (demo_input [("a", "up"); ("b", "up")]) 23))
     (λ r _, length r = 23 ∧ creations r ≤ 1) (demo_mst []).
Proof.
  apply (creations_are_spaced demo_ops (repeat (demo_input [("a", "up"); ("b", "up")]) 23)).
  - done.
  - done.
  - split; simpl; lia.
Defined.

Lemma rate_limits_expire_witness :
  wp (ticks demo_ops (repeat (demo_input [("a", "up")]) 40))
     (λ _ s', limits_ok (mgr s') ∧ managerTick (mgr s') = 40%Z) (demo_mst []).
Proof.
  apply (rate_limits_expire demo_ops (repeat (demo_input [("a", "up")]) 40)).
  - done.
  - split; simpl; lia.
  - split; simpl; lia.
Defined.

Lemma deletion_is_justified_witness :
  let s := demo_mst [("a", ("broken", "up")); ("b", (LifecycleStateRemoved, "up"))] in
  wp (tick demo_ops (demo_input [("a", "up"); ("b", "up")])) (λ _ s', ∀ n,
      n ∈ dom (instances (mgr s)) → n ∉ dom (instances (mgr s')) →
      removed_in (mgr s) n ∨ ∃ m1, redesired_all (W := Z) (mgr s) m1 ∧ permanently_failed (W := Z) m1 n) s.
Proof. intros s. apply (deletion_is_justified demo_ops (demo_input [("a", "up"); ("b", "up")]) s). done. Defined.

(** In that run both instances do disappear. *)
Example broken_and_removed_are_deleted :
  (λ r, elements (dom (instances (mgr r.2)))) <$>
    tick demo_ops (demo_input [("a", "up"); ("b", "up")])
      (demo_mst [("a", ("broken", "up")); ("b", (LifecycleStateRemoved, "up"))]) = Some [].
Proof. by vm_compute. Qed.

Lemma removed_instance_is_collected_witness :
  let s := demo_mst [("a", ("up", "up")); ("b", (LifecycleStateRemoved, "up"))] in
  let i := demo_input [("a", "down"); ("b", "up")] in
  wp (tick demo_ops i) (λ r s',
      "b" ∉ dom (instances (mgr s')) ∨
      removed_in (W := Z) (mgr s') "b" ∧
        (r = (None, false) ∨ is_Some r.1 ∨
         ∃ m1, steady (W := Z) (incr_managerTick (mgr s)) m1 ∧
           changed (W := Z) demo_ops (extractConfigs demo_ops (in_config i)).1 m1 (mgr s'))) s.
Proof.
  intros s i. apply (removed_instance_is_collected demo_ops i "b" s); [done|].
  eexists. split; [by vm_compute|done].
Defined.
