(* ===== verification/PortManager.v ===== *)
(** * PortManager: the port allocator (pkg/portmanager/portmanager.go)

    [DefaultPortManager] keeps three maps behind one mutex.  Every method that
    takes the mutex is one atomic step here; [PreReconcile], which takes it
    several times, is a sequence of such steps, and [pm_run] interleaves the
    steps of any number of callers. *)

From S2P Require Import Prelude Float64 GoRuntime.

(** [net.ListenConfig.Listen] on a TCP port and [Listener.Close]: the operating
    system's answers. *)
Class Net (W : Type) := {
  Listen : Ctx → Z → W → option GoErr * W;
  CloseListener : Z → W → option GoErr * W;
}.

Record DefaultPortManager := mkPM {
  instanceToPorts : gmap string Z;
  portToInstances : gmap Z string;
  allocatedPorts : gmap Z bool;
  minPort : Z;
  maxPort : Z;
}.

Definition getServicePortRange : Z * Z := (20000%Z, 32767%Z).
Definition newDefaultPortManager : DefaultPortManager :=
  mkPM ∅ ∅ ∅ getServicePortRange.1 getServicePortRange.2.

(** The three writes of a successful allocation, and of a release. *)
Definition store (name : string) (port : Z) (pm : DefaultPortManager) : DefaultPortManager :=
  mkPM (<[name := port]> (instanceToPorts pm)) (<[port := name]> (portToInstances pm))
       (<[port := true]> (allocatedPorts pm)) (minPort pm) (maxPort pm).
Definition unstore (name : string) (port : Z) (pm : DefaultPortManager) : DefaultPortManager :=
  mkPM (delete name (instanceToPorts pm)) (delete port (portToInstances pm))
       (delete port (allocatedPorts pm)) (minPort pm) (maxPort pm).

Definition show (z : Z) : string := pretty z.

Section operations.
Context {W : Type} `{World W} `{Net W}.
Local Abbreviation PM := (M (DefaultPortManager * W)).

Definition world {A} (f : W → A * W) : PM A := λ '(pm, w), let (a, w') := f w in Some (a, (pm, w')).
Definition update (f : DefaultPortManager → DefaultPortManager) : PM unit := modify (λ '(pm, w), (f pm, w)).

Definition maxRetries : nat := 5.

(** The retry loop of [AllocatePort]; [rand.IntN] panics on a range of zero. *)
Fixpoint allocate_loop (n : nat) (ctx : Ctx) (instanceName : string) : PM (Z * option GoErr) :=
  match n with
  | O => mret (0%Z, Some (ENew ("failed to allocate port for instance " +:+ instanceName +:+ " after "
                               +:+ show (Z.of_nat maxRetries) +:+ " attempts")))
  | S n' =>
      e ← world (ctx_Err ctx);
      match e with
      | Some err => mret (0%Z, Some (EWrap "port allocation cancelled: " err))
      | None =>
          pm ← gets fst;
          let portRange := (maxPort pm -u16 minPort pm) +u16 1 in
          if (portRange =? 0)%Z then panic
          else
            randomOffset ← world (rand_IntN portRange);
            let port := minPort pm +u16 wrap_u16 randomOffset in
            if default false (allocatedPorts pm !! port) then allocate_loop n' ctx instanceName
            else
              err ← world (Listen ctx port);
              match err with
              | Some _ => allocate_loop n' ctx instanceName
              | None =>
                  _ ← world (CloseListener port);
                  _ ← update (store instanceName port);
                  mret (port, None)
              end
      end
  end.

Definition AllocatePort (ctx : Ctx) (instanceName : string) : PM (Z * option GoErr) :=
  pm ← gets fst;
  match instanceToPorts pm !! instanceName with
  | Some port => mret (port, None)
  | None => allocate_loop maxRetries ctx instanceName
  end.

Definition ReleasePort (instanceName : string) : PM (option GoErr) :=
  pm ← gets fst;
  match instanceToPorts pm !! instanceName with
  | None => mret (Some (ENew ("instance " +:+ instanceName +:+ " has no allocated port")))
  | Some port => _ ← update (unstore instanceName port); mret None
  end.

Definition GetPort (instanceName : string) (pm : DefaultPortManager) : Z * bool :=
  match instanceToPorts pm !! instanceName with Some port => (port, true) | None => (0%Z, false) end.

Definition ReservePort (ctx : Ctx) (instanceName : string) (port : Z) : PM (option GoErr) :=
  pm ← gets fst;
  if (port <? minPort pm)%Z || (maxPort pm <? port)%Z
  then mret (Some (ENew ("invalid port " +:+ show port +:+ ": allowed range is " +:+ show (minPort pm) +:+ "-"
         +:+ show (maxPort pm) +:+ "; choose a port in range or let the manager allocate one")))
  else
    match portToInstances pm !! port with
    | Some existingInstance =>
        if bool_decide (existingInstance ≠ instanceName)
        then mret (Some (ENew ("port " +:+ show port +:+ " is already in use by instance " +:+ existingInstance)))
        else mret None
    | None =>
        match instanceToPorts pm !! instanceName with
        | Some existingPort =>
            if negb (existingPort =? port)%Z
            then mret (Some (ENew ("instance " +:+ instanceName +:+ " already has port " +:+ show existingPort
                                   +:+ " allocated")))
            else mret None
        | None =>
            err ← world (Listen ctx port);
            match err with
            | Some e => mret (Some (EWrap ("port " +:+ show port +:+ " is not available: ") e))
            | None =>
                err ← world (CloseListener port);
                match err with
                | Some e => mret (Some (EWrap ("failed to close listener for port " +:+ show port +:+ ": ") e))
                | None => _ ← update (store instanceName port); mret None
                end
            end
        end
    end.

Fixpoint preReconcile_loop (ctx : Ctx) (instanceNames : list string) (errs : list GoErr) : PM (list GoErr) :=
  match instanceNames with
  | [] => mret errs
  | name :: names' =>
      pm ← gets fst;
      match instanceToPorts pm !! name with
      | Some _ => preReconcile_loop ctx names' errs
      | None =>
          '(_, err) ← AllocatePort ctx name;
          preReconcile_loop ctx names'
            (match err with
             | Some e => errs ++ [EWrap ("failed to allocate port for instance " +:+ name +:+ ": ") e]
             | None => errs
             end)
      end
  end.

Definition PreReconcile (ctx : Ctx) (instanceNames : list string) : PM (option GoErr) :=
  errs ← preReconcile_loop ctx instanceNames [];
  match errs with
  | [] => mret None
  | _ => mret (Some (EWrap "port allocation failed: " (EJoin errs)))
  end.

Definition PostReconcile (ctx : Ctx) : PM (option GoErr) := mret None.

(** Any interleaving of callers: a sequence of the atomic methods. *)
Inductive PMOp :=
  | OpAllocate (ctx : Ctx) (name : string)
  | OpRelease (name : string)
  | OpReserve (ctx : Ctx) (name : string) (port : Z).

Definition pm_step (op : PMOp) : PM unit :=
  match op with
  | OpAllocate ctx name => _ ← AllocatePort ctx name; mret tt
  | OpRelease name => _ ← ReleasePort name; mret tt
  | OpReserve ctx name port => _ ← ReservePort ctx name port; mret tt
  end.

Fixpoint pm_run (ops : list PMOp) : PM unit :=
  match ops with [] => mret tt | op :: ops' => _ ← pm_step op; pm_run ops' end.
End operations.

(** ** The invariant of the three maps *)

Record pm_inv (pm : DefaultPortManager) : Prop := {
  pm_bij : ∀ n p, instanceToPorts pm !! n = Some p ↔ portToInstances pm !! p = Some n;
  pm_allocated : ∀ p b, allocatedPorts pm !! p = Some b ↔ b = true ∧ is_Some (portToInstances pm !! p);
  pm_range : ∀ n p, instanceToPorts pm !! n = Some p → (minPort pm <= p <= maxPort pm)%Z;
  pm_bounds : minPort pm = 20000%Z ∧ maxPort pm = 32767%Z;
}.

Lemma pm_inv_new : pm_inv newDefaultPortManager.
Proof.
  split; simpl; try done; intros *; rewrite ?lookup_empty; try done.
  split; [done|]. by intros [_ [? ?]].
Qed.

Section invariant.
Implicit Types (pm : DefaultPortManager).

Lemma pm_free pm p : pm_inv pm → default false (allocatedPorts pm !! p) = false ↔ portToInstances pm !! p = None.
Proof.
  intros Hi. destruct (allocatedPorts pm !! p) as [b|] eqn:E; simpl.
  - apply (pm_allocated pm Hi) in E as [-> [n E]]. by rewrite E.
  - split; [|done]. intros _. apply eq_None_not_Some. intros Hp.
    assert (E' : allocatedPorts pm !! p = Some true) by by apply (pm_allocated pm Hi). congruence.
Qed.

Lemma pm_inv_store pm n p :
  pm_inv pm → instanceToPorts pm !! n = None → portToInstances pm !! p = None →
  (minPort pm <= p <= maxPort pm)%Z → pm_inv (store n p pm).
Proof.
  intros Hi Hn Hp Hr. pose proof (pm_bij pm Hi) as Hb.
  split; simpl; [| | |apply Hi].
  - intros m q. rewrite !lookup_insert. repeat case_decide; simplify_eq; try done.
    + split; [congruence|]. intros Hq%Hb. congruence.
    + split; [|congruence]. intros Hq%Hb. congruence.
  - intros q b. rewrite !lookup_insert. case_decide; [|apply Hi].
    split; [intros [= <-]; split; [done|by eexists]|by intros [-> _]].
  - intros m q. rewrite lookup_insert. case_decide; [by intros [= <-]|apply Hi].
Qed.

Lemma pm_inv_unstore pm n p : pm_inv pm → instanceToPorts pm !! n = Some p → pm_inv (unstore n p pm).
Proof.
  intros Hi Hn. pose proof (pm_bij pm Hi) as Hb.
  split; simpl; [| | |apply Hi].
  - intros m q. rewrite !lookup_delete. repeat case_decide; simplify_eq; try done.
    + split; [done|]. intros Hq%Hb. congruence.
    + split; [|done]. intros Hq%Hb. apply Hb in Hn. congruence.
  - intros q b. rewrite !lookup_delete. case_decide; [|apply Hi].
    split; [done|by intros [_ [? ?]]].
  - intros m q. rewrite lookup_delete. case_decide; [done|apply Hi].
Qed.
End invariant.

(** ** What the methods do *)

(** [allocated pm name r pm']: [AllocatePort] returns [r] and leaves [pm']. *)
Inductive allocated (pm : DefaultPortManager) (name : string) : Z * option GoErr → DefaultPortManager → Prop :=
  | allocated_before p : instanceToPorts pm !! name = Some p → allocated pm name (p, None) pm
  | allocated_now p :
      instanceToPorts pm !! name = None → portToInstances pm !! p = None →
      (minPort pm <= p <= maxPort pm)%Z → allocated pm name (p, None) (store name p pm)
  | allocated_failed e : instanceToPorts pm !! name = None → allocated pm name (0%Z, Some e) pm.

(** [reserved pm name port r pm']: [ReservePort] returns [r] and leaves [pm']. *)
Inductive reserved (pm : DefaultPortManager) (name : string) (port : Z)
  : option GoErr → DefaultPortManager → Prop :=
  | reserved_before : instanceToPorts pm !! name = Some port → reserved pm name port None pm
  | reserved_now :
      instanceToPorts pm !! name = None → portToInstances pm !! port = None →
      (minPort pm <= port <= maxPort pm)%Z → reserved pm name port None (store name port pm)
  | reserved_refused e :
      instanceToPorts pm !! name ≠ Some port → reserved pm name port (Some e) pm.

Section methods.
Context {W : Type} `{World W} `{Net W}.
Implicit Types (pm : DefaultPortManager) (s : DefaultPortManager * W).

Lemma wp_world {A} (f : W → A * W) (Q : A → DefaultPortManager * W → Prop) s :
  (∀ a w, Q a (s.1, w)) → wp (world f) Q s.
Proof.
  intros HQ. destruct s as [pm w]. unfold wp, world. destruct (f w) as [a w'] eqn:E.
  exists a, (pm, w'). split; [done|]. apply HQ.
Qed.

Lemma wp_update f (Q : unit → DefaultPortManager * W → Prop) s :
  Q tt (f s.1, s.2) → wp (update f) Q s.
Proof. intros HQ. destruct s as [pm w]. unfold update. by apply wp_modify. Qed.

(** The port drawn on an attempt, in the fixed service range. *)
Lemma drawn_port pm k :
  pm_inv pm → let range := (maxPort pm -u16 minPort pm) +u16 1 in
  range = 12768%Z ∧
  (minPort pm <= minPort pm +u16 wrap_u16 (k mod range) <= maxPort pm)%Z.
Proof.
  intros Hi. destruct (pm_bounds pm Hi) as [-> ->]. cbv zeta. split; [done|].
  change ((32767 -u16 20000) +u16 1) with 12768%Z.
  pose proof (Z.mod_pos_bound k 12768 ltac:(lia)).
  rewrite (wrap_u16_small (k mod 12768)), wrap_u16_small by (unfold in_u16; lia). lia.
Qed.

Lemma wp_allocate_loop n ctx name (Q : Z * option GoErr → DefaultPortManager * W → Prop) s :
  pm_inv s.1 → instanceToPorts s.1 !! name = None →
  (∀ r pm' w, allocated s.1 name r pm' → pm_inv pm' → Q r (pm', w)) →
  wp (allocate_loop n ctx name) Q s.
Proof.
  revert s. induction n as [|n IH]; intros [pm w] Hi Hn HQ; simpl in Hi, Hn.
  { apply wp_ret, HQ; [by constructor|done]. }
  cbn [allocate_loop]. apply wp_bind, wp_world. intros [e|] w1.
  { apply wp_ret, HQ; [by constructor|done]. }
  apply wp_bind, wp_gets. cbn [fst]. destruct (drawn_port pm 0 Hi) as [E _]. rewrite E.
  apply wp_bind. unfold wp at 1, world, rand_IntN. destruct (randw w1) as [k w2].
  exists (k mod 12768)%Z, (pm, w2). split; [done|].
  destruct (drawn_port pm k Hi) as [_ Hr]. rewrite E in Hr.
  set (port := minPort pm +u16 wrap_u16 (k mod 12768)) in *.
  destruct (default false (allocatedPorts pm !! port)) eqn:Ea; [by apply IH|].
  apply wp_bind, wp_world. intros [e|] w3; [by apply IH|].
  apply wp_bind, wp_world. intros _ w4. apply wp_bind, wp_update, wp_ret. cbn [fst snd].
  apply (pm_free pm port Hi) in Ea. apply HQ; [by apply allocated_now|by apply pm_inv_store].
Qed.

Lemma wp_AllocatePort ctx name (Q : Z * option GoErr → DefaultPortManager * W → Prop) s :
  pm_inv s.1 → (∀ r pm' w, allocated s.1 name r pm' → pm_inv pm' → Q r (pm', w)) →
  wp (AllocatePort ctx name) Q s.
Proof.
  intros Hi HQ. unfold AllocatePort. apply wp_bind, wp_gets.
  destruct (instanceToPorts s.1 !! name) as [p|] eqn:E.
  - apply wp_ret. destruct s. apply HQ; [by apply allocated_before|done].
  - by apply wp_allocate_loop.
Qed.

Lemma wp_ReleasePort name (Q : option GoErr → DefaultPortManager * W → Prop) s :
  match instanceToPorts s.1 !! name with
  | Some p => Q None (unstore name p s.1, s.2)
  | None => ∀ e, Q (Some e) s
  end → wp (ReleasePort name) Q s.
Proof.
  intros HQ. unfold ReleasePort. apply wp_bind, wp_gets. destruct (_ !! name) as [p|].
  - by apply wp_bind, wp_update, wp_ret.
  - apply wp_ret, HQ.
Qed.

Lemma wp_ReservePort ctx name port (Q : option GoErr → DefaultPortManager * W → Prop) s :
  pm_inv s.1 → (∀ r pm' w, reserved s.1 name port r pm' → pm_inv pm' → Q r (pm', w)) →
  wp (ReservePort ctx name port) Q s.
Proof.
  intros Hi HQ. destruct s as [pm w]. cbn [fst] in *. unfold ReservePort. apply wp_bind, wp_gets. cbn [fst].
  assert (Hno : ∀ e w', instanceToPorts pm !! name ≠ Some port → Q (Some e) (pm, w')).
  { intros e w' ?. apply HQ; [by constructor|done]. }
  destruct (_ || _) eqn:Er.
  { apply wp_ret, Hno. intros Hr%(pm_range pm Hi). apply orb_true_iff in Er as [?%Z.ltb_lt|?%Z.ltb_lt]; lia. }
  apply orb_false_iff in Er as [?%Z.ltb_ge ?%Z.ltb_ge].
  destruct (portToInstances pm !! port) as [other|] eqn:Ep.
  { apply (pm_bij pm Hi) in Ep as Ep'. case_bool_decide as Ho.
    - apply wp_ret, Hno. intros Hp%(pm_bij pm Hi). congruence.
    - subst other. apply wp_ret, HQ; [by constructor|done]. }
  destruct (instanceToPorts pm !! name) as [q|] eqn:En.
  { destruct (Z.eqb_spec q port) as [->|]; apply wp_ret; [|apply Hno; congruence].
    apply (pm_bij pm Hi) in En. congruence. }
  apply wp_bind, wp_world. intros [e|] w1; [by apply wp_ret, Hno|].
  apply wp_bind, wp_world. intros [e|] w2; [by apply wp_ret, Hno|].
  apply wp_bind, wp_update, wp_ret. cbn [fst]. apply HQ; [by constructor|by apply pm_inv_store].
Qed.

Lemma wp_pm_run (ops : list PMOp) s : pm_inv s.1 → wp (pm_run ops) (λ _ s', pm_inv s'.1) s.
Proof.
  revert s. induction ops as [|op ops IH]; intros s Hi; [by apply wp_ret|]. cbn [pm_run].
  apply wp_bind. apply (wp_mono _ (λ _ s', pm_inv s'.1)); [|intros _ s' Hi'; by apply IH].
  destruct op; simpl; apply wp_bind.
  - apply wp_AllocatePort; [done|]. intros. by apply wp_ret.
  - apply wp_ReleasePort. destruct (_ !! name) as [p|] eqn:E; [apply wp_ret|intros; by apply wp_ret].
    by apply pm_inv_unstore.
  - apply wp_ReservePort; [done|]. intros. by apply wp_ret.
Qed.

(** ** Properties *)

(** C9: ports are never shared.  However the calls of concurrent users interleave,
    every call returns, and at every moment each instance with a port is the one
    the reverse map names, no two instances have the same port, and every port
    lies in the service range. *)
Theorem no_port_is_shared (ops : list PMOp) w :
  wp (pm_run ops) (λ _ s', ∀ n1 n2 p1 p2,
      GetPort n1 s'.1 = (p1, true) → GetPort n2 s'.1 = (p2, true) →
      (p1 = p2 → n1 = n2) ∧ portToInstances s'.1 !! p1 = Some n1 ∧ (20000 <= p1 <= 32767)%Z)
     (newDefaultPortManager, w).
Proof.
  eapply wp_mono; [apply wp_pm_run, pm_inv_new|]. intros [] s' Hi n1 n2 p1 p2.
  unfold GetPort. destruct (_ !! n1) as [q1|] eqn:E1; [|done]. destruct (_ !! n2) as [q2|] eqn:E2; [|done].
  intros [= ->] [= ->]. pose proof (pm_range _ Hi _ _ E1) as Hr. destruct (pm_bounds _ Hi) as [M1 M2].
  rewrite M1, M2 in Hr. apply (pm_bij _ Hi) in E1, E2. split; [|done]. congruence.
Qed.

(** Releasing a port undoes its allocation: if an instance without a port is
    given one, then the release succeeds and leaves the manager exactly as it
    was before; and as long as it is not released, asking again returns the
    same port. *)
Theorem release_undoes_allocation ctx ctx' name s :
  pm_inv s.1 → instanceToPorts s.1 !! name = None →
  wp (r ← AllocatePort ctx name; r' ← AllocatePort ctx' name; e ← ReleasePort name; mret (r, r', e))
     (λ '(r, r', e) s', r.2 = None → r' = r ∧ e = None ∧ s'.1 = s.1) s.
Proof.
  intros Hi Hn. apply wp_bind, wp_AllocatePort; [done|]. intros r pm w Ha Hi'.
  apply wp_bind, wp_AllocatePort; [done|]. intros r' pm' w' Ha' _. cbn [fst] in *.
  apply wp_bind, wp_ReleasePort. cbn [fst snd].
  destruct Ha as [p Hp|p _ Hp Hr|e _]; [congruence| |].
  - assert (Hs : instanceToPorts (store name p s.1) !! name = Some p) by (simpl; by rewrite lookup_insert_eq).
    destruct Ha' as [q Hq|q Hq|e Hq]; [|congruence..]. rewrite Hs in *. simplify_eq.
    apply wp_ret. intros _. split; [done|]. split; [done|]. simpl.
    assert (Hfree : allocatedPorts s.1 !! q = None).
    { apply eq_None_not_Some. intros [b Hb]. apply (pm_allocated _ Hi) in Hb as [_ Hb].
      rewrite Hp in Hb. by destruct Hb. }
    destruct s as [[m1 m2 m3 lo hi] w0]. unfold unstore, store. simpl in *.
    by rewrite !delete_insert_id.
  - destruct (instanceToPorts pm' !! name); [|intros]; by apply wp_ret.
Qed.

(** After [PreReconcile] succeeds, every instance it was given has a port; and
    whether or not it succeeds, no instance loses the port it had. *)
Theorem preReconcile_complete ctx names s :
  pm_inv s.1 →
  wp (PreReconcile ctx names)
     (λ e s', pm_inv s'.1 ∧ (e = None → ∀ n, n ∈ names → is_Some (instanceToPorts s'.1 !! n)) ∧
        ∀ n p, instanceToPorts s.1 !! n = Some p → instanceToPorts s'.1 !! n = Some p) s.
Proof.
  intros Hi. unfold PreReconcile. apply wp_bind.
  assert (Hloop : ∀ l errs s0, pm_inv s0.1 →
    wp (preReconcile_loop ctx l errs)
       (λ errs' s', pm_inv s'.1 ∧ (errs' = [] → errs = [] ∧ ∀ n, n ∈ l → is_Some (instanceToPorts s'.1 !! n)) ∧
          ∀ n p, instanceToPorts s0.1 !! n = Some p → instanceToPorts s'.1 !! n = Some p) s0).
  { induction l as [|n l IH]; intros errs s0 Hi0.
    { apply wp_ret. split_and!; try done. intros ->. split; [done|]. by intros n ?%not_elem_of_nil. }
    cbn [preReconcile_loop]. apply wp_bind, wp_gets. destruct (_ !! n) as [p|] eqn:E.
    - eapply wp_mono; [by apply IH|]. intros errs' s' (Hi' & He & Hk). split_and!; [done| |done].
      intros Hnil. destruct (He Hnil) as [-> Hall]. split; [done|].
      intros m [->|Hm]%elem_of_cons; [|by apply Hall]. apply Hk in E. by rewrite E.
    - apply wp_bind, wp_AllocatePort; [done|]. intros r pm w Ha Hi1.
      destruct Ha as [p Hp|p _ Hp Hr|e _]; [congruence| |].
      + eapply wp_mono; [by apply IH|]. cbn [fst]. intros errs' s' (Hi' & He & Hk). split_and!; [done| |].
        * intros Hnil. destruct (He Hnil) as [-> Hall]. split; [done|].
          intros m [->|Hm]%elem_of_cons; [|by apply Hall]. rewrite (Hk n p); [done|].
          simpl. by rewrite lookup_insert_eq.
        * intros m q Hm. apply Hk. simpl. rewrite lookup_insert_ne; [done|]. intros ->. congruence.
      + eapply wp_mono; [by apply IH|]. cbn [fst]. intros errs' s' (Hi' & He & Hk). split_and!; [done| |done].
        intros Hnil. destruct (He Hnil) as [Happ _]. by destruct errs. }
  eapply wp_mono; [by apply Hloop|]. intros errs s' (Hi' & He & Hk).
  destruct errs; apply wp_ret; split_and!; try done. intros _. by apply He.
Qed.

(** A reservation succeeds exactly when the instance holds the requested port
    afterwards; a refused one changes nothing; and a port outside the range, a
    port of another instance, or a second port for the same instance is always
    refused. *)
Theorem reserve_contract ctx name port s :
  pm_inv s.1 →
  wp (ReservePort ctx name port)
     (λ e s', (e = None ↔ GetPort name s'.1 = (port, true)) ∧ (e ≠ None → s'.1 = s.1) ∧
        (((port < minPort s.1)%Z ∨ (maxPort s.1 < port)%Z) ∨
         (∃ other, other ≠ name ∧ GetPort other s.1 = (port, true)) ∨
         (∃ p, p ≠ port ∧ GetPort name s.1 = (p, true)) → e ≠ None)) s.
Proof.
  intros Hi. apply wp_ReservePort; [done|]. intros r pm' w Hr Hi'. cbn [fst].
  assert (HG : ∀ n p pm, GetPort n pm = (p, true) ↔ instanceToPorts pm !! n = Some p).
  { intros n p pm. unfold GetPort. destruct (_ !! n); split; congruence. }
  setoid_rewrite HG. destruct Hr as [Hp|Hn Hp Hrange|e Hp].
  - split_and!; [done|done|]. pose proof (pm_range _ Hi _ _ Hp). apply (pm_bij _ Hi) in Hp as Hb.
    intros [?|[(o & ? & Ho%(pm_bij _ Hi))|(q & ? & ?)]]; [lia|congruence..].
  - simpl. rewrite lookup_insert_eq. split_and!; [done|done|].
    intros [?|[(o & ? & Ho%(pm_bij _ Hi))|(q & ? & ?)]]; [lia|congruence..].
  - split_and!; [|done|done]. by split.
Qed.
End methods.

(** ** Concrete runs *)

(** A machine whose odd ports are in use by other programs. *)
#[export] Instance even_net : Net Z := {
  Listen _ port w := (if Z.even port then None else Some (ENew "address already in use"), (w + 1)%Z);
  CloseListener _ w := (None, w);
}.

Lemma release_undoes_allocation_witness :
  wp (r ← AllocatePort Background "plc-1"; r' ← AllocatePort Background "plc-1";
      e ← ReleasePort "plc-1"; mret (r, r', e))
     (λ '(r, r', e) s', r.2 = None → r' = r ∧ e = None ∧ s'.1 = newDefaultPortManager)
     (newDefaultPortManager, 0%Z).
Proof.
  apply (release_undoes_allocation Background Background "plc-1" (newDefaultPortManager, 0%Z)).
  - apply pm_inv_new.
  - done.
Defined.

(** In that run a port in use is passed over before one is found. *)
Example allocation_succeeds :
  (λ r, r.1) <$> AllocatePort Background "plc-1" (newDefaultPortManager, 0%Z) = Some (20004%Z, None).
Proof. by vm_compute. Qed.

Lemma preReconcile_complete_witness :
  wp (PreReconcile Background ["plc-1"; "plc-2"])
     (λ e s', pm_inv s'.1 ∧ (e = None → ∀ n, n ∈ ["plc-1"; "plc-2"] → is_Some (instanceToPorts s'.1 !! n)) ∧
        ∀ n p, instanceToPorts newDefaultPortManager !! n = Some p → instanceToPorts s'.1 !! n = Some p)
     (newDefaultPortManager, 0%Z).
Proof.
  apply (preReconcile_complete Background ["plc-1"; "plc-2"] (newDefaultPortManager, 0%Z)), pm_inv_new.
Defined.

Lemma reserve_contract_witness :
  let s := (newDefaultPortManager, 0%Z) in
  wp (ReservePort Background "plc-1" 20004)
     (λ e s', (e = None ↔ GetPort "plc-1" s'.1 = (20004%Z, true)) ∧ (e ≠ None → s'.1 = s.1) ∧
        (((20004 < minPort s.1)%Z ∨ (maxPort s.1 < 20004)%Z) ∨
         (∃ other, other ≠ "plc-1" ∧ GetPort other s.1 = (20004%Z, true)) ∨
         (∃ p, p ≠ 20004%Z ∧ GetPort "plc-1" s.1 = (p, true)) → e ≠ None)) s.
Proof. intros s. apply (reserve_contract Background "plc-1" 20004 s), pm_inv_new. Defined.
