(* ===== verification/Instance.v ===== *)
(** * Instance: the frame the concrete FSMv1 instances share

    The [Reconcile] methods under [pkg/fsm/*/reconcile.go] repeat one frame:
    check the context, honour the back-off (or resolve a permanent failure),
    refresh the observed state, take one step of the state machine, reconcile
    the manager of the underlying service, and record or clear the error.  The
    frame is written once here, over the parts in which the instances differ;
    each instance's own file supplies them.  The invariant [inst_inv] and the
    lemmas about it are what makes the instances' proofs short. *)

From S2P Require Import Prelude Float64 GoRuntime Backoff BaseFSM FSMManager.

Section frame.
Context {X W : Type} `{World W}.
Local Abbreviation M' := (M (St X W)).

(** What an instance supplies. *)
Record Handlers := mkHandlers {
  onPermanentError : Ctx → option GoErr → M' (option GoErr * bool);
  externalChanges : Ctx → Snapshot → M' (option GoErr);
  stateTransition : Ctx → Snapshot → M' (option GoErr * bool);
  reconcileManager : Ctx → Snapshot → M' (option GoErr * bool);
}.

(** Almost every instance resolves a permanent failure with [HandlePermanentError]. *)
Definition permanent_with (isInShutdownState : M' bool) (forceRemove : option GoErr → Ctx → M' (option GoErr))
    (ctx : Ctx) (backErr : option GoErr) : M' (option GoErr * bool) :=
  HandlePermanentError ctx backErr isInShutdownState Remove (forceRemove backErr).

(** A failed step: the error of a removed instance is dropped, an expired
    deadline and everything else go to the back-off. *)
Definition step_failed_with (err : GoErr) (tick : Z) : M' (option GoErr * bool) :=
  handled ← IsDeadlineExceededAndHandle err tick;
  if handled : bool then mret (None, false)
  else _ ← base_SetError err tick; mret (None, false).

Definition instance_Reconcile (h : Handlers) (ctx : Ctx) (snapshot : Snapshot) : M' (option GoErr * bool) :=
  e ← liftE (ctx_Err ctx);
  match e with
  | Some err =>
      handled ← IsDeadlineExceededAndHandle err (Tick snapshot);
      if handled : bool then mret (None, false) else mret (Some err, false)
  | None =>
      b ← gets base;
      if ShouldSkipReconcileBecauseOfError (Tick snapshot) b then
        let backErr := base_GetBackoffError (Tick snapshot) b in
        if IsPermanentFailureError backErr
        then onPermanentError h ctx backErr
        else mret (None, false)
      else
        e ← externalChanges h ctx snapshot;
        handled ← match e with
                  | Some err => IsDeadlineExceededAndHandle err (Tick snapshot)
                  | None => mret false
                  end;
        if handled : bool then mret (None, false)
        else
          '(e, reconciled) ← stateTransition h ctx snapshot;
          match e with
          | Some err =>
              if IsErr err ErrInstanceRemoved then mret (None, false)
              else step_failed_with err (Tick snapshot)
          | None =>
              '(e, managerReconciled) ← reconcileManager h ctx snapshot;
              match e with
              | Some err => step_failed_with err (Tick snapshot)
              | None => _ ← on_base ResetState; mret (None, reconciled || managerReconciled)
              end
          end
  end.

(** [reconcileStateTransition]: lifecycle states take precedence over the
    operational ones; an error drops the flag. *)
Definition lifecycle_or_operational (isOperational : string → bool)
    (create remove : Ctx → M' (option GoErr)) (check : Ctx → M' bool)
    (operational : string → string → M' (option GoErr * bool)) (ctx : Ctx) : M' (option GoErr * bool) :=
  b ← gets base;
  let currentState := base_GetCurrentFSMState b in
  let desiredState := base_GetDesiredFSMState b in
  if IsLifecycleState currentState then
    '(err, reconciled) ← ReconcileLifecycleStates ctx currentState create remove check;
    match err with Some e => mret (Some e, false) | None => mret (None, reconciled) end
  else if isOperational currentState then
    '(err, reconciled) ← operational currentState desiredState;
    match err with Some e => mret (Some e, false) | None => mret (None, reconciled) end
  else mret (Some (ENew ("invalid state: " +:+ currentState)), false).

(** [reconcileExternalChanges]: refresh the observed state within a timeout. *)
Definition external_changes (timeout : Z) (update : Ctx → Snapshot → M' (option GoErr)) (ctx : Ctx) (snapshot : Snapshot)
    : M' (option GoErr) :=
  updateCtx ← liftE (CreateUpdateObservedStateContextWithMinimum ctx timeout);
  err ← update updateCtx snapshot;
  match err with
  | Some e => mret (Some (EWrap "failed to update observed state: " e))
  | None => mret None
  end.
(** The three shapes of an action on the underlying service: any error is
    wrapped; a creation is idempotent; so is a removal, which also passes a
    pending removal on. *)
Definition service_action (prefix : string) (f : W → option GoErr * W) : M' (option GoErr) :=
  err ← liftE f;
  match err with Some e => mret (Some (EWrap prefix e)) | None => mret None end.
Definition service_create (alreadyExists : GoErr) (prefix : string) (f : W → option GoErr * W) : M' (option GoErr) :=
  err ← liftE f;
  match err with
  | Some e => if IsErr e alreadyExists then mret None else mret (Some (EWrap prefix e))
  | None => mret None
  end.
Definition service_remove (notExist : GoErr) (prefix : string) (f : W → option GoErr * W) : M' (option GoErr) :=
  err ← liftE f;
  match err with
  | None => mret None
  | Some e =>
      if IsErr e notExist then mret None
      else if IsErr e ErrRemovalPending then mret (Some e)
      else mret (Some (EWrap prefix e))
  end.

(** Send an event and report whether the tick is used up. *)
Definition send (ctx : Ctx) (event : string) (reconciled : bool) : M' (option GoErr * bool) :=
  err ← SendEvent ctx event; mret (err, reconciled).
End frame.
Arguments Handlers X W : clear implicits.

(** ** The invariant of an instance *)

(** The states and transitions of one kind of instance. *)
Record Table := mkTable {
  tbl : gmap (string * string) string;
  pre : string;
  known : list string;
}.

(** [ev] leads from [c] to another state. *)
Definition allowed (T : Table) (ev c : string) : bool :=
  match tbl T !! (ev, c) with Some d => bool_decide (d ≠ c) | None => false end.

Definition table_ok (T : Table) : Prop :=
  Forall (λ kv, kv.2 ∈ known T) (map_to_list (tbl T)) ∧
  tbl T !! (LifecycleEventRemove, pre T) = Some LifecycleStateRemoving ∧
  pre T ≠ LifecycleStateRemoving ∧ LifecycleStateRemoved ∈ known T ∧
  allowed T LifecycleEventCreate LifecycleStateToBeCreated = true ∧
  allowed T LifecycleEventCreateDone LifecycleStateCreating = true ∧
  allowed T LifecycleEventRemoveDone LifecycleStateRemoving = true.

#[export] Instance table_ok_dec T : Decision (table_ok T).
Proof. unfold table_ok. apply _. Defined.

Definition not_refused : option GoErr → Prop := on_error (λ e, event_refused e = false).

Lemma not_refused_wrap p e : not_refused (Some e) → not_refused (Some (EWrap p e)).
Proof. intros He ? [= <-]. simpl. by apply He. Qed.
Lemma not_refused_new p : not_refused (Some (ENew p)).
Proof. by intros ? [= <-]. Qed.
Lemma not_refused_none : not_refused None.
Proof. done. Qed.
#[export] Hint Resolve not_refused_wrap not_refused_new not_refused_none : umh.

(** The base instance is well formed, its table is [T], it is in one of the known
    states, and its back-off has recorded no event the table refused. *)
Record inst_inv (T : Table) (b : BaseFSMInstance) : Prop := {
  inv_wf : base_wf b;
  inv_table : transitions (fsm b) = tbl T;
  inv_pre : preRemove b = pre T;
  inv_known : current (fsm b) ∈ known T;
  inv_recorded : not_refused (lastError (backoffManager b));
}.

Section table.
Context (T : Table) (HT : table_ok T).
Implicit Types (b : BaseFSMInstance).

Lemma table_known ev c d : tbl T !! (ev, c) = Some d → d ∈ known T.
Proof.
  intros E. destruct HT as [Hk _]. rewrite Forall_forall in Hk.
  by apply (Hk ((ev, c), d)), elem_of_map_to_list.
Qed.

Lemma allowed_spec ev c : allowed T ev c = true → ∃ d, tbl T !! (ev, c) = Some d ∧ d ≠ c.
Proof. unfold allowed. destruct (_ !! _) as [d|]; [|done]. intros ?%bool_decide_eq_true. eauto. Qed.

Lemma inst_inv_set_backoff b m :
  inst_inv T b → not_refused (lastError m) → inst_inv T (set_backoff m b).
Proof. intros [] ?. split; try done. by apply set_backoff_wf. Qed.

Lemma inst_inv_reset b : inst_inv T b → inst_inv T (ResetState b).
Proof. intros. by apply inst_inv_set_backoff. Qed.

Lemma inst_inv_error b err tick r p m :
  inst_inv T b → event_refused err = false →
  SetError (Some err) tick r (backoffManager b) = (p, m) → inst_inv T (set_backoff m b).
Proof.
  intros Hi He Hm. apply inst_inv_set_backoff; [done|].
  pose proof (SetError_lastError (Some err) tick r (backoffManager b)) as Hl. rewrite Hm in Hl.
  simpl in Hl. rewrite Hl. by intros e [= <-].
Qed.

Lemma inst_inv_at b st : inst_inv T b → st ∈ known T → inst_inv T (at_state st b).
Proof. intros [] ?. split; try done. by apply at_state_wf. Qed.

Lemma inst_inv_streak b st n : inst_inv T b → inst_inv T (set_streak st n b).
Proof. intros []. split; try done. by apply set_streak_wf. Qed.

Lemma inst_inv_observe b st : inst_inv T b → inst_inv T (observe st b).
Proof. unfold observe. case_bool_decide; apply inst_inv_streak. Qed.

Lemma inst_inv_desired b st : inst_inv T b → inst_inv T (base_SetDesiredFSMState st b).
Proof. intros []. split; try done. by apply set_desired_wf. Qed.

Lemma inst_inv_arm b :
  inst_inv T b → inst_inv T (AddCallback ("enter_" +:+ preRemove b) CbAutoRemove b).
Proof. intros []. split; try done. by apply add_auto_remove_wf. Qed.

(** Sending an event the table allows keeps the invariant and is not refused. *)
Lemma sent_inv b ev r b' :
  inst_inv T b → allowed T ev (current (fsm b)) = true → sent b ev r b' → inst_inv T b' ∧ not_refused r.
Proof.
  intros Hi (d & Hd & Hne)%allowed_spec Hs. pose proof HT as (_ & Hrm & Hpre & _).
  destruct Hs as [e He|d' Hd' Hne' Ha|d' d'' Hd' Hne' Ha Hr Hne''|d' e k Hd' Hne' Ha He Hk].
  - split; [done|]. intros ? [= <-]. destruct He as [[He|He]|He]; [| |by apply ctx_failure_not_refused].
    + rewrite (inv_table T b Hi) in He. congruence.
    + rewrite (inv_table T b Hi) in He. congruence.
  - rewrite (inv_table T b Hi) in *. split; [|done]. eapply inst_inv_at, table_known; eauto.
  - rewrite (inv_table T b Hi) in *. split; [|done]. eapply inst_inv_at, table_known; eauto.
  - rewrite (inv_table T b Hi) in *. split; [|done].
    assert (Hi' : inst_inv T (at_state d' b)) by (eapply inst_inv_at, table_known; eauto).
    assert (Ed : d' = pre T).
    { rewrite <- (inv_pre T b Hi). apply (wf_armed b); [apply Hi|done]. }
    assert (Hnr : event_refused e = false).
    { destruct He as [[He|He]|He]; [| |by apply ctx_failure_not_refused];
        simpl in He; rewrite (inv_table T b Hi), Ed, Hrm in He; simplify_eq; congruence. }
    apply inst_inv_set_backoff; [done|].
    rewrite SetError_lastError. by intros ? [= <-].
Qed.

Lemma removal_inv b r b' : inst_inv T b → removal b r b' → inst_inv T b' ∧ not_refused r.
Proof.
  intros Hi Hr. destruct Hr as [?|r b' _ Hc Hs|_]; [done| |].
  - pose proof HT as (_ & Hrm & Hpre & _).
    eapply sent_inv in Hs; [exact Hs|by apply inst_inv_desired|].
    simpl. unfold allowed. rewrite Hc, (inv_pre T b Hi), Hrm. by apply bool_decide_eq_true.
  - split; [by apply (inst_inv_arm (base_SetDesiredFSMState (preRemove b) b)), inst_inv_desired|done].
Qed.
End table.
#[export] Hint Resolve inst_inv_reset inst_inv_observe inst_inv_desired inst_inv_at : umh.

(** ** Handlers that keep the invariant *)

Section keeps.
Context {X W : Type} `{World W}.
Local Abbreviation M' := (M (St X W)).
Context (T : Table) (HT : table_ok T) (OI : X → Prop).
Implicit Types (s : St X W).

(** The invariant of the whole instance; [OI] is that of its own fields. *)
Definition sinv s : Prop := inst_inv T (base s) ∧ OI (own s).

(** [m] returns, keeps the invariant, and its result satisfies [E]. *)
Definition keeps {A} (E : A → Prop) (m : M' A) : Prop := ∀ s, sinv s → wp m (λ a s', sinv s' ∧ E a) s.

Lemma keeps_weaken {A} (E E' : A → Prop) m : (∀ a, E a → E' a) → keeps E m → keeps E' m.
Proof. intros HE Hm s Hs. eapply wp_mono; [by apply Hm|]. intros a s' []. auto. Qed.

Lemma keeps_ret {A} (E : A → Prop) a : E a → keeps E (mret a).
Proof. intros HE s Hs. by apply wp_ret. Qed.

Lemma keeps_bind {A B} (E : A → Prop) (E' : B → Prop) (m : M' A) (f : A → M' B) :
  keeps E m → (∀ a, E a → keeps E' (f a)) → keeps E' (m ≫= f).
Proof.
  intros Hm Hf s Hs. apply wp_bind. eapply wp_mono; [by apply Hm|]. intros a s' [Hs' HE]. by apply Hf.
Qed.

Lemma keeps_gets_base {B} (E' : B → Prop) (f : BaseFSMInstance → M' B) :
  (∀ b, inst_inv T b → keeps E' (f b)) → keeps E' (gets base ≫= f).
Proof. intros Hf s Hs. apply wp_bind, wp_gets. apply Hf; [apply Hs|done]. Qed.

Lemma keeps_gets_own {B} (E' : B → Prop) (f : X → M' B) :
  (∀ x, OI x → keeps E' (f x)) → keeps E' (gets own ≫= f).
Proof. intros Hf s Hs. apply wp_bind, wp_gets. apply Hf; [apply Hs|done]. Qed.

Lemma keeps_liftE {A} (E : A → Prop) (f : W → A * W) : (∀ w, E (f w).1) → keeps E (liftE f).
Proof. intros Hf s Hs. apply wp_liftE. intros a w Hw. split; [done|]. pose proof (Hf (env s)). by rewrite Hw in *. Qed.

Lemma keeps_on_base f : (∀ b, inst_inv T b → inst_inv T (f b)) → keeps (λ _, True) (on_base f).
Proof. intros Hf s [Hb Ho]. apply wp_on_base. split; [split; simpl; auto|done]. Qed.

Lemma keeps_on_own f : (∀ x, OI x → OI (f x)) → keeps (λ _, True) (on_own f).
Proof. intros Hf s [Hb Ho]. apply wp_modify. split; [split; simpl; auto|done]. Qed.

Lemma keeps_SetError err tick : event_refused err = false → keeps (λ _, True) (base_SetError err tick).
Proof.
  intros He s [Hb Ho]. apply wp_base_SetError. intros k w r m _ Hm. split; [split; [|done]|done].
  simpl. by eapply inst_inv_error.
Qed.

Lemma keeps_deadline err tick : event_refused err = false → keeps (λ _, True) (IsDeadlineExceededAndHandle err tick).
Proof.
  intros He. unfold IsDeadlineExceededAndHandle. destruct (IsErr err DeadlineExceeded); [|by apply keeps_ret].
  eapply keeps_bind; [by apply keeps_SetError|]. intros _ _. by apply keeps_ret.
Qed.

Lemma keeps_ctx_Err ctx : keeps (on_error ctx_failure) (liftE (ctx_Err ctx)).
Proof.
  apply keeps_liftE. intros w e. unfold ctx_Err. destruct (clock w). simpl. apply ctx_Err_failure.
Qed.

Lemma external_changes_ok timeout update ctx snap :
  (∀ c snap, keeps not_refused (update c snap)) →
  keeps not_refused (external_changes timeout update ctx snap).
Proof.
  intros Hu. eapply (keeps_bind (λ _, True)); [by apply keeps_liftE|]. intros c' _.
  eapply keeps_bind; [apply Hu|]. intros [e|] He; apply keeps_ret; auto with umh.
Qed.

(** The first check of every [UpdateObservedStateOfInstance]. *)
Lemma keeps_context_check ctx (snap : Snapshot) (k : M (St X W) (option GoErr)) :
  keeps not_refused k →
  keeps not_refused
    (e ← liftE (ctx_Err ctx);
     match e with
     | Some err =>
         handled ← IsDeadlineExceededAndHandle err (Tick snap);
         if handled : bool then mret None else mret (Some err)
     | None => k
     end).
Proof.
  intros Hk. eapply keeps_bind; [apply keeps_ctx_Err|]. intros [err|] He; [|done].
  specialize (He err eq_refl). apply ctx_failure_not_refused in He.
  eapply keeps_bind; [by apply keeps_deadline|]. intros [] _; apply keeps_ret; [done|]. by intros ? [= <-].
Qed.
Lemma keeps_action {A} (E : A → Prop) m : action_ok E m → keeps E m.
Proof.
  intros Hm s [Hb Ho]. eapply wp_mono; [apply Hm|]. intros a s' (E1 & E2 & HE).
  split; [|done]. split; [by rewrite E1|by rewrite E2].
Qed.

Lemma action_inv {A} (E : A → Prop) m s :
  action_ok E m → sinv s → wp m (λ a s', sinv s' ∧ base s' = base s ∧ E a) s.
Proof.
  intros Hm [Hb Ho]. eapply wp_mono; [apply Hm|]. intros a s' (E1 & E2 & HE).
  split; [|done]. split; [by rewrite E1|by rewrite E2].
Qed.

Lemma action_liftE (f : W → option GoErr * W) (k : option GoErr → M (St X W) (option GoErr)) :
  (∀ w, not_refused (f w).1) → (∀ e, not_refused e → action_ok not_refused (k e)) →
  action_ok not_refused (liftE f ≫= k).
Proof.
  intros Hf Hk s. apply wp_bind, wp_liftE. intros a w E. pose proof (Hf (env s)) as Ha. rewrite E in Ha.
  eapply wp_mono; [by apply Hk|]. simpl. intros r s' (E1 & E2 & Hr). done.
Qed.

Lemma action_ret {A} (E : A → Prop) a : E a → action_ok E (mret a : M (St X W) A).
Proof. intros Ha s. by apply wp_ret. Qed.

Lemma service_action_ok prefix f : (∀ w, not_refused (f w).1) → action_ok not_refused (service_action prefix f : M' (option GoErr)).
Proof. intros Hf. apply action_liftE; [done|]. intros [e|] He; apply action_ret; auto with umh. Qed.
Lemma service_create_ok ex prefix f : (∀ w, not_refused (f w).1) → action_ok not_refused (service_create ex prefix f : M' (option GoErr)).
Proof.
  intros Hf. apply action_liftE; [done|]. intros [e|] He; [destruct (IsErr _ _)|]; apply action_ret; auto with umh.
Qed.
Lemma service_remove_ok ne prefix f : (∀ w, not_refused (f w).1) → action_ok not_refused (service_remove ne prefix f : M' (option GoErr)).
Proof.
  intros Hf. apply action_liftE; [done|].
  intros [e|] He; [destruct (IsErr e ne), (IsErr e ErrRemovalPending)|]; apply action_ret; auto with umh.
Qed.

Lemma action_gets_base {A} (E : A → Prop) (f : BaseFSMInstance → M' A) :
  (∀ b, action_ok E (f b)) → action_ok E (gets base ≫= f).
Proof. intros Hf s. apply wp_bind, wp_gets. apply Hf. Qed.
Lemma action_gets_own {A} (E : A → Prop) (f : X → M' A) :
  (∀ x, action_ok E (f x)) → action_ok E (gets own ≫= f).
Proof. intros Hf s. apply wp_bind, wp_gets. apply Hf. Qed.

(** An event the table allows in the current state. *)
Lemma keeps_SendEvent_at ctx ev s :
  sinv s → allowed T ev (current (fsm (base s))) = true →
  wp (SendEvent ctx ev) (λ r s', sinv s' ∧ not_refused r) s.
Proof.
  intros [Hb Ho] Ha. apply wp_SendEvent; [apply Hb|]. intros r b' w Hs _.
  destruct (sent_inv T HT _ _ _ _ Hb Ha Hs) as [Hb' Hr]. by split.
Qed.

Lemma wp_send ctx ev r s (Q : option GoErr * bool → St X W → Prop) :
  sinv s → allowed T ev (current (fsm (base s))) = true →
  (∀ e s', sinv s' → not_refused e → Q (e, r) s') → wp (send ctx ev r) Q s.
Proof.
  intros Hs Ha HQ. apply wp_bind. eapply wp_mono; [by apply keeps_SendEvent_at|].
  intros e s' []. apply wp_ret. auto.
Qed.

Lemma keeps_Remove ctx s : sinv s → wp (Remove ctx) (λ r s', sinv s' ∧ own s' = own s ∧ not_refused r) s.
Proof.
  intros [Hb Ho]. apply wp_Remove; [apply Hb|]. intros r b' w Hr _.
  destruct (removal_inv T HT _ _ _ Hb Hr). by split_and!.
Qed.

(** The errors an instance returns to its manager. *)
Definition returned_ok (r : option GoErr * bool) : Prop :=
  ∀ e, r.1 = Some e → ctx_failure e ∨ IsPermanentFailureError (Some e) = true.

(** [m] resolves the permanent failure of the back-off. *)
Definition resolves (m : Ctx → option GoErr → M' (option GoErr * bool)) : Prop :=
  ∀ ctx tick s, sinv s → IsPermanentFailureError (base_GetBackoffError tick (base s)) = true →
    wp (m ctx (base_GetBackoffError tick (base s))) (λ r s', sinv s' ∧ returned_ok r) s.

Record handlers_ok (h : Handlers X W) : Prop := {
  ok_permanent : resolves (onPermanentError h);
  ok_external c snap : keeps not_refused (externalChanges h c snap);
  ok_transition c snap : keeps (λ r, not_refused r.1) (stateTransition h c snap);
  ok_manager c snap : keeps (λ r, not_refused r.1) (reconcileManager h c snap);
}.

Lemma permanent_with_ok shutdown force :
  action_ok (λ _, True) shutdown → (∀ e c, action_ok (λ _, True) (force e c)) →
  resolves (permanent_with shutdown force).
Proof.
  intros Hsd Hf ctx tick s [Hb Ho] Hp. set (err := base_GetBackoffError tick (base s)) in *.
  destruct (wp_HandlePermanentError_keeps ctx err shutdown Remove (force err)
    (inst_inv T) s) as (r & s' & E & Hb' & Ho').
  - apply Hsd. - intros c. apply Hf. - intros. by apply inst_inv_reset.
  - intros b Hi. apply inst_inv_at; [done|]. apply HT.
  - intros s1 H1. apply wp_Remove; [apply H1|]. intros r b' w Hr _. split; [|done]. by eapply removal_inv.
  - done.
  - exists r, s'. split; [done|]. split; [split; [done|by rewrite Ho']|].
    eapply (wp_elim _ (λ r _, returned_ok r)); [|exact E].
    apply (wp_HandlePermanentError _ _ _ _ _ (λ _, True)); [apply Hb|apply Hsd|intros c; apply Hf| |].
    + intros s1 E1 O1. apply wp_Remove; [rewrite E1; apply reset_wf, Hb|]. intros r1 b1 w1 _ Hw.
      split; [done|]. split; [exact O1|done].
    + intros e b s2 Hr _ _ e' He'. simpl in He'. right. destruct Hr; congruence.
Qed.

Lemma keeps_step_failed err tick :
  event_refused err = false → keeps returned_ok (step_failed_with err tick).
Proof.
  intros He. eapply keeps_bind; [by apply keeps_deadline|]. intros [] _; [by apply keeps_ret|].
  eapply keeps_bind; [by apply keeps_SetError|]. intros _ _. by apply keeps_ret.
Qed.

(** The frame keeps the invariant, and what reaches the manager is a cancelled
    context or a permanent failure. *)
Lemma keeps_Reconcile h ctx snap : handlers_ok h → keeps returned_ok (instance_Reconcile h ctx snap).
Proof.
  intros Hh. eapply keeps_bind; [apply keeps_ctx_Err|]. intros [err|] He.
  { specialize (He err eq_refl). eapply keeps_bind; [by apply keeps_deadline, ctx_failure_not_refused|].
    intros [] _; apply keeps_ret; [done|]. intros e [= <-]. by left. }
  intros s Hs. apply wp_bind, wp_gets.
  destruct (ShouldSkipReconcileBecauseOfError _ _).
  { cbv zeta. destruct (IsPermanentFailureError _) eqn:Ep; [by apply (ok_permanent h Hh)|by apply keeps_ret]. }
  revert s Hs. eapply keeps_bind; [apply (ok_external h Hh)|]. intros e He'.
  eapply (keeps_bind (λ _, True)).
  { destruct e as [e|]; [|by apply keeps_ret]. by apply keeps_deadline, He'. }
  intros [] _; [by apply keeps_ret|].
  eapply keeps_bind; [apply (ok_transition h Hh)|]. intros [[e1|] r] He1.
  { destruct (IsErr e1 ErrInstanceRemoved); [by apply keeps_ret|]. by apply keeps_step_failed, He1. }
  eapply keeps_bind; [apply (ok_manager h Hh)|]. intros [[e2|] r'] He2.
  { by apply keeps_step_failed, He2. }
  eapply keeps_bind; [apply keeps_on_base; intros; by apply inst_inv_reset|].
  intros _ _. by apply keeps_ret.
Qed.

(** Lifecycle states first, then the operational ones. *)
Lemma keeps_lifecycle_or_operational isOp create remove check operational ctx :
  (∀ c, action_ok not_refused (create c)) → (∀ c, action_ok not_refused (remove c)) →
  (∀ c, action_ok (λ _, True) (check c)) →
  (∀ s, sinv s → isOp (current (fsm (base s))) = true →
     wp (operational (current (fsm (base s))) (base_GetDesiredFSMState (base s)))
        (λ r s', sinv s' ∧ not_refused r.1) s) →
  keeps (λ r, not_refused r.1) (lifecycle_or_operational isOp create remove check operational ctx).
Proof.
  intros Hc Hr Hk Hop s Hs. apply wp_bind, wp_gets. cbv zeta.
  change (base_GetCurrentFSMState (base s)) with (current (fsm (base s))).
  destruct (IsLifecycleState _).
  - apply wp_bind, (wp_ReconcileLifecycleStates (λ e, event_refused e = false)); [done..|apply Hs|].
    intros e r s' Hl _ Ho.
    destruct Hs as [Hb HO]. assert (Hb' := inst_inv_observe T _ (current (fsm (base s))) Hb).
    assert (HG : inst_inv T (base s') ∧ not_refused e).
    { destruct Hl as [e He|ev e b' Hin Hsent|Hg].
      - by split.
      - assert (Ha : allowed T ev (current (fsm (base s))) = true).
        { pose proof HT as (_ & _ & _ & _ & A1 & A2 & A3).
          rewrite !elem_of_cons, elem_of_nil in Hin.
          destruct Hin as [Hin|[Hin|[Hin|[]]]]; injection Hin as E ->; by rewrite E. }
        rewrite <- (observe_fsm (current (fsm (base s)))) in Ha.
        by apply (sent_inv T HT _ _ _ _ Hb' Ha Hsent).
      - split; [done|]. by intros ? [= <-]. }
    assert (HO' : OI (own s')) by by rewrite Ho.
    destruct HG as [HG1 HG2]. destruct e as [e|]; by apply wp_ret.
  - destruct (isOp _) eqn:E; [|by apply wp_ret; split; [|intros ? [= <-]]].
    apply wp_bind. eapply wp_mono; [by apply Hop|]. intros [e r] s' [Hs' He].
    destruct e as [e|]; by apply wp_ret.
Qed.
End keeps.

(** ** Undisturbed ticks *)

Section calm.
Context {X W : Type} `{World W} `{!PromptClock W}.
Implicit Types (s : St X W).

(** No error is recorded. *)
Definition clean (b : BaseFSMInstance) : Prop :=
  permanentFailure (backoffManager b) = false ∧ lastError (backoffManager b) = None.

Lemma clean_no_skip b tick : clean b → ShouldSkipReconcileBecauseOfError tick b = false.
Proof.
  intros [E1 E2]. unfold ShouldSkipReconcileBecauseOfError, ShouldSkipOperation. by rewrite E1, E2.
Qed.

Lemma clean_reset b : clean (ResetState b).
Proof. done. Qed.

(** A tick without a deadline whose parts all succeed. *)
Lemma wp_Reconcile_calm h snap (Q : option GoErr * bool → St X W → Prop) s :
  clean (base s) →
  (∀ w, wp (externalChanges h Background snap) (λ e s1, e = None ∧
     wp (stateTransition h Background snap) (λ r s2, r.1 = None ∧
       wp (reconcileManager h Background snap) (λ r' s3, r'.1 = None ∧
         Q (None, r.2 || r'.2) (mkSt (ResetState (base s3)) (own s3) (env s3))) s2) s1) (mkSt (base s) (own s) w)) →
  wp (instance_Reconcile h Background snap) Q s.
Proof.
  intros Hc HQ. unfold instance_Reconcile. apply wp_bind, wp_liftE. intros e w He.
  pose proof (ctx_Err_Background (env s)) as H1. rewrite He in H1. simpl in H1. subst e.
  apply wp_bind, wp_gets. cbn [base]. rewrite (clean_no_skip _ (Tick snap) Hc).
  apply wp_bind. eapply wp_mono; [apply HQ|]. intros e s1 [-> H1].
  apply wp_bind, wp_ret, wp_bind. eapply wp_mono; [exact H1|]. intros [e r] s2 [E2 H2]. simpl in E2. subst e.
  apply wp_bind. eapply wp_mono; [exact H2|]. intros [e r'] s3 [E3 H3]. simpl in E3. subst e.
  by apply wp_bind, wp_on_base, wp_ret.
Qed.

(** The context for the observed state outlives the readings that check it. *)
Lemma update_context_calm m w : (Millisecond <= m)%Z →
  (ctx_Err (CreateUpdateObservedStateContextWithMinimum Background m w).1
     (CreateUpdateObservedStateContextWithMinimum Background m w).2).1 = None.
Proof.
  intros Hm. unfold CreateUpdateObservedStateContextWithMinimum, WithTimeout, Background. cbn [ctx_Deadline].
  pose proof (prompt w) as Hp. destruct (clock w) as [t w'] eqn:Ec. simpl in *.
  unfold ctx_Err. destruct (clock w') as [t' w'']. simpl in *. unfold ctx_Err_at, passed. simpl.
  destruct (Z.leb_spec (t + m) t'); [lia|done].
Qed.

(** The lifecycle steps of an instance whose creation succeeds at once. *)
Lemma wp_send_calm ev dst r (Q : option GoErr * bool → St X W → Prop) s :
  base_wf (base s) → transitions (fsm (base s)) !! (ev, current (fsm (base s))) = Some dst →
  dst ≠ current (fsm (base s)) → ¬ armed (base s) dst →
  (∀ w, Q (None, r) (mkSt (at_state dst (base s)) (own s) w)) →
  wp (send Background ev r) Q s.
Proof.
  intros Hwf Ht Hne Ha HQ. apply wp_bind, (wp_SendEvent_calm ev dst); [done..|]. intros w. by apply wp_ret.
Qed.

(** On an instance whose own fields are [x], [m] succeeds and changes neither
    these nor the base instance. *)
Definition idle_on {A} (x : X) (E : A → Prop) (m : M (St X W) A) : Prop :=
  ∀ s, own s = x → wp m (λ a s', E a ∧ base s' = base s ∧ own s' = own s) s.

Lemma wp_lifecycle_calm isOp create remove check op (Q : option GoErr * bool → St X W → Prop) s ev dst :
  base_wf (base s) →
  (current (fsm (base s)), ev) ∈ [(LifecycleStateToBeCreated, LifecycleEventCreate);
                                  (LifecycleStateCreating, LifecycleEventCreateDone)] →
  idle_on (own s) (λ e, e = None) (create Background) → idle_on (own s) (λ c, c = true) (check Background) →
  transitions (fsm (base s)) !! (ev, current (fsm (base s))) = Some dst →
  dst ≠ current (fsm (base s)) → ¬ armed (base s) dst →
  (∀ w, Q (None, true) (mkSt (at_state dst (observe (current (fsm (base s))) (base s))) (own s) w)) →
  wp (lifecycle_or_operational isOp create remove check op Background) Q s.
Proof.
  intros Hwf Hin Hc Hk Ht Hne Ha HQ. apply wp_bind, wp_gets. cbv zeta.
  change (base_GetCurrentFSMState (base s)) with (current (fsm (base s))).
  set (cur := current (fsm (base s))) in *.
  assert (Hb : base_wf (observe cur (base s))) by by apply observe_wf.
  assert (Hf : fsm (observe cur (base s)) = fsm (base s)) by apply observe_fsm.
  assert (Ha' : ¬ armed (observe cur (base s)) dst).
  { unfold armed, observe in *. by case_bool_decide. }
  assert (Hsend : ∀ s', base s' = observe cur (base s) → own s' = own s →
    wp (SendEvent Background ev ≫= λ e, mret (e, true))
       (λ r s'', wp (let '(err, reconciled) := r in
          match err with Some e => mret (Some e, false) | None => mret (None, reconciled) end) Q s'') s').
  { intros s' Eb Eo. apply wp_bind, (wp_SendEvent_calm ev dst); rewrite Eb, ?Hf; [done..|].
    intros w. by apply wp_ret, wp_ret; rewrite Eo. }
  rewrite !elem_of_cons, elem_of_nil in Hin.
  assert (IsLifecycleState cur = true) as ->.
  { apply bool_decide_eq_true. rewrite !elem_of_cons. destruct Hin as [Hin|[Hin|[]]]; injection Hin as E _; tauto. }
  apply wp_bind. unfold ReconcileLifecycleStates. apply wp_bind, wp_gets, wp_observe.
  destruct Hin as [Hin|[Hin|[]]]; injection Hin as E Eev.
  - rewrite bool_decide_true by done. apply wp_bind. eapply wp_mono; [by apply Hc|].
    intros e s' (-> & Eb & Eo). rewrite <- Eev. by apply Hsend.
  - rewrite bool_decide_false by (rewrite E; done). rewrite bool_decide_true by done.
    apply wp_bind. eapply wp_mono; [by apply Hk|].
    intros e s' (-> & Eb & Eo). rewrite <- Eev. by apply Hsend.
Qed.

(** In an operational state, what counts is the operational step. *)
Lemma wp_operational_calm isOp create remove check op (Q : option GoErr * bool → St X W → Prop) s :
  IsLifecycleState (current (fsm (base s))) = false → isOp (current (fsm (base s))) = true →
  wp (op (current (fsm (base s))) (base_GetDesiredFSMState (base s)))
     (λ r s', r.1 = None ∧ Q (None, r.2) s') s →
  wp (lifecycle_or_operational isOp create remove check op Background) Q s.
Proof.
  intros El Eo Hop. apply wp_bind, wp_gets. cbv zeta.
  change (base_GetCurrentFSMState (base s)) with (current (fsm (base s))). rewrite El, Eo.
  apply wp_bind. eapply wp_mono; [exact Hop|]. intros [e r] s' [E HQ]. simpl in E. subst e. by apply wp_ret.
Qed.

Fixpoint ticks_of (m : Snapshot → M (St X W) (option GoErr * bool)) (snaps : list Snapshot) : M (St X W) unit :=
  match snaps with [] => mret tt | snap :: snaps' => _ ← m snap; ticks_of m snaps' end.
End calm.

(** ** An undisturbed instance *)

Section rest.
Context {X W : Type} `{World W} `{!PromptClock W}.
Local Abbreviation M' := (M (St X W)).
Context (T : Table) (HT : table_ok T) (OI : X → Prop).
Implicit Types (s : St X W).

(** An undisturbed instance in state [st] that wants [desired]. *)
Record resting (desired st : string) s : Prop := {
  rest_inv : inst_inv T (base s);
  rest_own : OI (own s);
  rest_state : current (fsm (base s)) = st;
  rest_desired : base_GetDesiredFSMState (base s) = desired;
  rest_clean : clean (base s);
  rest_unarmed : ∀ st', ¬ armed (base s) st';
}.

(** [m] succeeds and changes neither the base instance nor the instance's own fields. *)
Definition idle_ok {A} (E : A → Prop) (m : M' A) : Prop :=
  ∀ s, wp m (λ a s', E a ∧ base s' = base s ∧ own s' = own s) s.

(** A step of the state machine that leads from [st] to [st'] (or stays). *)
Definition steps_to (st st' : string) (b : BaseFSMInstance) (m : M' (option GoErr * bool)) s : Prop :=
  wp m (λ r s2, r.1 = None ∧ own s2 = own s ∧
     (base s2 = at_state st' b ∨ base s2 = at_state st' (observe st b))) s.

(** From a step of the state machine to a whole tick; [P] is what the refreshed
    observed state shows. *)
Lemma tick_calm (P : X → Prop) h desired st st' snap s :
  resting desired st s → st' ∈ known T →
  (∀ w, wp (externalChanges h Background snap)
     (λ e s1, e = None ∧ base s1 = base s ∧ OI (own s1) ∧ P (own s1)) (mkSt (base s) (own s) w)) →
  (∀ s1, base s1 = base s → OI (own s1) → P (own s1) →
     steps_to st st' (base s) (stateTransition h Background snap) s1) →
  idle_ok (λ r, r.1 = None) (reconcileManager h Background snap) →
  wp (instance_Reconcile h Background snap) (λ _ s', resting desired st' s' ∧ P (own s')) s.
Proof.
  intros [Hb Ho Hst Hd Hc Ha] Hk Hext Hstep Hman. apply wp_Reconcile_calm; [done|]. intros w.
  eapply wp_mono; [apply Hext|]. intros e s1 (-> & Eb & Ho1 & HP).
  split; [done|]. eapply wp_mono; [by apply Hstep|].
  intros r s2 (Er & Eo & E2). split; [done|]. eapply wp_mono; [apply Hman|].
  intros r' s3 (Er' & Eb3 & Eo3). split; [done|]. rewrite Eb3, Eo3, Eo. split; [|done].
  assert (Hinv : inst_inv T (base s2) ∧ cfg (base s2) = cfg (base s) ∧ callbacks (base s2) = callbacks (base s)
            ∧ current (fsm (base s2)) = st').
  { destruct E2 as [-> | ->].
    - split_and!; [by apply inst_inv_at|done..].
    - split_and!; [by apply inst_inv_at; [apply inst_inv_observe|]|..]; unfold observe; by case_bool_decide. }
  destruct Hinv as (Hi2 & Ecfg & Ecb & Ecur). split; cbn [base own].
  - by apply inst_inv_reset.
  - done.
  - done.
  - unfold base_GetDesiredFSMState in *. simpl. by rewrite Ecfg.
  - apply clean_reset.
  - intros st''. unfold armed. simpl. rewrite Ecb. apply Ha.
Qed.

Lemma wp_liftE_ok {A} (f : W → A * W) (P : A → Prop) (Q : A → St X W → Prop) s :
  (∀ w, P (f w).1) → (∀ a w, P a → Q a (mkSt (base s) (own s) w)) → wp (liftE f) Q s.
Proof.
  intros Hf HQ. apply wp_liftE. intros a w E. apply HQ. pose proof (Hf (env s)) as Ha. by rewrite E in Ha.
Qed.

Lemma idle_liftE {A} (E : A → Prop) (f : W → A * W) : (∀ w, E (f w).1) → idle_ok E (liftE f).
Proof. intros Hf s. by apply (wp_liftE_ok _ E). Qed.

Lemma idle_ok_on {A} x (E : A → Prop) (m : M' A) : idle_ok E m → idle_on x E m.
Proof. intros Hm s _. apply Hm. Qed.

Lemma idle_ret {A} (E : A → Prop) a : E a → idle_ok E (mret a).
Proof. intros Ha s. by apply wp_ret. Qed.

Lemma idle_bind {A B} (E : A → Prop) (E' : B → Prop) (m : M' A) (f : A → M' B) :
  idle_ok E m → (∀ a, E a → idle_ok E' (f a)) → idle_ok E' (m ≫= f).
Proof.
  intros Hm Hf s. apply wp_bind. eapply wp_mono; [apply Hm|]. intros a s1 (HE & Eb & Eo).
  eapply wp_mono; [by apply Hf|]. intros b s2 (HE' & -> & ->). auto.
Qed.

Lemma idle_gets_base {A} (E : A → Prop) (f : BaseFSMInstance → M' A) :
  (∀ b, idle_ok E (f b)) → idle_ok E (gets base ≫= f).
Proof. intros Hf s. apply wp_bind, wp_gets. apply Hf. Qed.

Lemma idle_gets_own {A} (E : A → Prop) (f : X → M' A) :
  (∀ x, idle_ok E (f x)) → idle_ok E (gets own ≫= f).
Proof. intros Hf s. apply wp_bind, wp_gets. apply Hf. Qed.

(** An action of the service that succeeds. *)
Lemma idle_action (f : W → option GoErr * W) (k : GoErr → M' (option GoErr)) :
  (∀ w, (f w).1 = None) →
  idle_ok (λ e, e = None) (err ← liftE f; match err with Some e => k e | None => mret None end).
Proof.
  intros Hf s. apply wp_bind, (wp_liftE_ok _ (λ e, e = None)); [done|]. intros e w ->. by apply wp_ret.
Qed.

(** One step taken in an operational state. *)
Lemma operational_step isOp create remove check op desired st st' s0 s1 :
  resting desired st s0 → base s1 = base s0 → IsLifecycleState st = false → isOp st = true →
  wp (op st desired) (λ p s2, p.1 = None ∧ own s2 = own s1 ∧ base s2 = at_state st' (base s0)) s1 →
  steps_to st st' (base s0) (lifecycle_or_operational isOp create remove check op Background) s1.
Proof.
  intros [Hb Ho Hst Hd Hc Ha] Eb El Eo Hop. apply wp_operational_calm; rewrite Eb, Hst; [done..|].
  rewrite Hd. eapply wp_mono; [exact Hop|]. intros p s2 (E1 & E2 & E3). simpl. auto.
Qed.

Lemma stay_resting desired st r s0 s1 :
  resting desired st s0 → base s1 = base s0 →
  wp (mret (None, r) : M' (option GoErr * bool)) (λ p s2, p.1 = None ∧ own s2 = own s1 ∧ base s2 = at_state st (base s0)) s1.
Proof.
  intros Hr Eb. apply wp_ret. do 2 (split; [done|]). rewrite Eb. symmetry. apply at_state_id, Hr.
Qed.

Lemma send_resting desired st st' ev r s0 s1 :
  resting desired st s0 → base s1 = base s0 → tbl T !! (ev, st) = Some st' → st' ≠ st →
  wp (send Background ev r) (λ p s2, p.1 = None ∧ own s2 = own s1 ∧ base s2 = at_state st' (base s0)) s1.
Proof.
  intros [Hb Ho Hst Hd Hc Ha] Eb Ht Hne. apply (wp_send_calm ev st'); rewrite Eb, ?Hst; [apply Hb| |done|apply Ha|].
  - by rewrite (inv_table _ _ Hb).
  - intros w. done.
Qed.

(** An action that succeeds, then its event. *)
Lemma act_send_resting (act : M' (option GoErr)) desired st st' ev r r' s0 s1 :
  resting desired st s0 → base s1 = base s0 → idle_ok (λ e, e = None) act →
  tbl T !! (ev, st) = Some st' → st' ≠ st →
  wp (err ← act; match err with Some e => mret (Some e, r') | None => send Background ev r end)
     (λ p s2, p.1 = None ∧ own s2 = own s1 ∧ base s2 = at_state st' (base s0)) s1.
Proof.
  intros Hr Eb Ha Ht Hne. apply wp_bind. eapply wp_mono; [apply Ha|]. intros e s2 (-> & E2 & E3).
  rewrite <- E3. eapply send_resting; [done|congruence|done|done].
Qed.

Lemma create_resting isOp create remove check op desired st st' ev s0 s1 :
  resting desired st s0 → base s1 = base s0 →
  (st, ev) ∈ [(LifecycleStateToBeCreated, LifecycleEventCreate);
              (LifecycleStateCreating, LifecycleEventCreateDone)] →
  idle_on (own s1) (λ e, e = None) (create Background) → idle_on (own s1) (λ c, c = true) (check Background) →
  tbl T !! (ev, st) = Some st' → st' ≠ st →
  steps_to st st' (base s0) (lifecycle_or_operational isOp create remove check op Background) s1.
Proof.
  intros [Hb Ho Hst Hd Hc Ha] Eb Hin Hcr Hck Ht Hne.
  apply (wp_lifecycle_calm _ _ _ _ _ _ _ ev st'); rewrite ?Eb, ?Hst; [apply Hb|done..| |done|apply Ha|].
  - by rewrite (inv_table _ _ Hb).
  - intros w. simpl. auto.
Qed.

(** Ticks that each take the instance from [st] to [f st]. *)
Lemma ticks_resting (f : string → string) (ok : string → Prop) (good : Snapshot → Prop) desired step snaps st s :
  (∀ snap st s, good snap → ok st → resting desired st s →
     wp (step snap) (λ _ s', resting desired (f st) s') s) →
  (∀ st, ok st → ok (f st)) → Forall good snaps → ok st → resting desired st s →
  wp (ticks_of step snaps) (λ _ s', resting desired (Nat.iter (length snaps) f st) s') s.
Proof.
  intros Hstep Hok Hg. revert st s. induction Hg as [|snap snaps Hsnap _ IH]; intros st s Hst Hr; [by apply wp_ret|].
  apply wp_bind. eapply wp_mono; [by apply Hstep|]. intros r s1 Hs1.
  cbn [length]. rewrite Nat.iter_succ_r. by apply IH; [apply Hok|].
Qed.

Lemma resting_state desired st s : resting desired st s → base_GetCurrentFSMState (base s) = st.
Proof. apply rest_state. Qed.

(** From the [k]-th tick on, the state is a fixed point. *)
Lemma iter_settles (f : string → string) k l st st' :
  k ≤ l → Nat.iter k f st = st' → f st' = st' → Nat.iter l f st = st'.
Proof.
  intros Hl Hk Hf. replace l with (l - k + k) by lia. rewrite Nat.iter_add, Hk.
  generalize (l - k). intros d. induction d as [|d IH]; [done|]. by rewrite Nat.iter_succ, IH.
Qed.

(** The context of [reconcileExternalChanges] is alive when it is checked. *)
Lemma wp_external_context m (f : Ctx → M' (option GoErr)) (Q : option GoErr → St X W → Prop) s :
  (Millisecond <= m)%Z →
  (∀ c w, (ctx_Err c w).1 = None → wp (f c) Q (mkSt (base s) (own s) w)) →
  wp (updateCtx ← liftE (CreateUpdateObservedStateContextWithMinimum Background m); f updateCtx) Q s.
Proof.
  intros Hm Hf. apply wp_bind, wp_liftE. intros c w Ec.
  pose proof (update_context_calm m (env s) Hm) as Hu. rewrite Ec in Hu. by apply Hf.
Qed.

(** *** An undisturbed removal *)

(** An instance in state [st] whose removal is armed. *)
Record leaving (st : string) s : Prop := {
  leave_inv : inst_inv T (base s);
  leave_own : OI (own s);
  leave_state : current (fsm (base s)) = st;
  leave_desired : base_GetDesiredFSMState (base s) = pre T;
  leave_clean : clean (base s);
  leave_armed : armed (base s) (pre T);
}.

Lemma leaving_at st st' s w :
  st' ∈ known T → leaving st s → leaving st' (mkSt (at_state st' (base s)) (own s) w).
Proof. intros Hk [Hb Ho Hst Hd Hc Ha]. split; try done. by apply inst_inv_at. Qed.

Lemma leaving_same st s s' : leaving st s → base s' = base s → own s' = own s → leaving st s'.
Proof. intros [Hb Ho Hst Hd Hc Ha] E1 E2. split; rewrite ?E1, ?E2; done. Qed.

Lemma leaving_reset st s : leaving st s → leaving st (mkSt (ResetState (base s)) (own s) (env s)).
Proof. intros [Hb Ho Hst Hd Hc Ha]. split; try done. by apply inst_inv_reset. Qed.

(** Asking for the removal of an instance that cannot be removed at once arms it. *)
Lemma wp_Remove_armed ctx st s (Q : option GoErr → St X W → Prop) :
  inst_inv T (base s) → OI (own s) → clean (base s) → current (fsm (base s)) = st →
  st ≠ LifecycleStateRemoved → st ≠ LifecycleStateRemoving → st ≠ pre T →
  (∀ s', leaving st s' → own s' = own s → Q None s') →
  wp (Remove ctx) Q s.
Proof.
  intros Hb Ho Hc Hst H1 H2 H3 HQ. apply wp_Remove; [apply Hb|]. intros r b' w Hr _.
  assert (Hpre : preRemove (base s) = pre T) by apply (inv_pre _ _ Hb).
  destruct (removal_inv T HT _ _ _ Hb Hr) as [Hb' _].
  inversion Hr as [Hx|r0 b0 _ Hcur _|Hx]; subst.
  - exfalso. apply orb_true_iff in Hx as [Hx%bool_decide_eq_true|Hx%bool_decide_eq_true]; congruence.
  - exfalso. congruence.
  - apply HQ; [|done]. split; simpl; [exact Hb'|done|done| |done|].
    + rewrite Hpre. done.
    + unfold armed. simpl. by rewrite Hpre, lookup_insert_eq.
Qed.

(** The event that takes a leaving instance to the state in which it is removed. *)
Lemma wp_send_leaving ev st r s (Q : option GoErr * bool → St X W → Prop) :
  leaving st s → tbl T !! (ev, st) = Some (pre T) → pre T ≠ st →
  (∀ s', leaving LifecycleStateRemoving s' → own s' = own s → Q (None, r) s') →
  wp (send Background ev r) Q s.
Proof.
  intros Hl Ht Hne HQ. pose proof HT as (Hk & Hrm & Hpre & Hrd & _). apply wp_bind.
  apply (wp_SendEvent_armed ev (pre T) LifecycleStateRemoving).
  - apply Hl.
  - by rewrite (inv_table _ _ (leave_inv _ _ Hl)), (leave_state _ _ Hl).
  - by rewrite (leave_state _ _ Hl).
  - apply Hl.
  - by rewrite (inv_table _ _ (leave_inv _ _ Hl)).
  - done.
  - intros w. apply wp_ret, HQ; [|done]. eapply leaving_at; [|done]. by eapply table_known.
Qed.

(** A removal that succeeds leads from [removing] to [removed]. *)
Lemma wp_lifecycle_removing isOp create remove check op s (Q : option GoErr * bool → St X W → Prop) :
  tbl T !! (LifecycleEventRemoveDone, LifecycleStateRemoving) = Some LifecycleStateRemoved →
  leaving LifecycleStateRemoving s → pre T ≠ LifecycleStateRemoved →
  idle_on (own s) (λ e, e = None) (remove Background) →
  (∀ s', leaving LifecycleStateRemoved s' → own s' = own s → Q (None, true) s') →
  wp (lifecycle_or_operational isOp create remove check op Background) Q s.
Proof.
  intros Hdst Hl Hpre Hr HQ.
  apply wp_bind, wp_gets. cbv zeta. unfold base_GetCurrentFSMState. rewrite (leave_state _ _ Hl).
  change (IsLifecycleState LifecycleStateRemoving) with true.
  apply wp_bind. unfold ReconcileLifecycleStates. apply wp_bind, wp_gets, wp_observe.
  do 2 rewrite bool_decide_false by done. rewrite bool_decide_true by done.
  apply wp_bind. eapply wp_mono; [by apply Hr|]. intros e s1 (-> & Eb & Eo). cbn [base own] in Eb, Eo.
  assert (Hl1 : leaving LifecycleStateRemoving s1).
  { destruct Hl as [Hb Ho Hst Hd Hc Ha]. split; rewrite ?Eb, ?Eo; [by apply inst_inv_observe|done|by rewrite observe_fsm|..];
      unfold clean, armed, observe, base_GetDesiredFSMState in *; by case_bool_decide. }
  apply wp_bind, (wp_SendEvent_calm _ LifecycleStateRemoved).
  - apply Hl1.
  - by rewrite (inv_table _ _ (leave_inv _ _ Hl1)), (leave_state _ _ Hl1).
  - by rewrite (leave_state _ _ Hl1).
  - intros Ha. apply Hpre. rewrite <- (inv_pre _ _ (leave_inv _ _ Hl1)). symmetry.
    by apply (wf_armed (base s1) (inv_wf _ _ (leave_inv _ _ Hl1))).
  - intros w. apply wp_ret, wp_ret, HQ; [|done]. eapply leaving_at; [apply HT|done].
Qed.
End rest.

(** ** An instance as the manager sees it *)

Section as_instance.
Context {X W : Type} `{World W}.

(** The manager keeps the instance and the world apart. *)
Definition as_pair {A} (m : M (St X W) A) : M ((BaseFSMInstance * X) * W) A :=
  λ '((b, x), w), match m (mkSt b x w) with
                  | Some (a, s) => Some (a, ((base s, own s), env s))
                  | None => None
                  end.

Lemma wp_as_pair {A} (m : M (St X W) A) (Q : A → (BaseFSMInstance * X) * W → Prop) b x w :
  wp m (λ a s, Q a ((base s, own s), env s)) (mkSt b x w) → wp (as_pair m) Q ((b, x), w).
Proof. intros (a & s & E & HQ). exists a, ((base s, own s), env s). simpl. by rewrite E. Qed.

Definition pair_inv (T : Table) (OI : X → Prop) (i : BaseFSMInstance * X) : Prop :=
  inst_inv T i.1 ∧ OI i.2.

Lemma pair_Reconcile T OI h ctx snap b x w :
  handlers_ok T OI h → pair_inv T OI (b, x) →
  wp (as_pair (instance_Reconcile h ctx snap)) (λ r p, pair_inv T OI p.1 ∧ returned_ok r) ((b, x), w).
Proof.
  intros Hh Hi. apply wp_as_pair.
  eapply wp_mono; [by apply (keeps_Reconcile T OI h ctx snap Hh)|]. intros r s [Hs Hr]. by split.
Qed.

Lemma pair_Remove T OI ctx b x w :
  table_ok T → pair_inv T OI (b, x) →
  wp (as_pair (Remove ctx)) (λ _ p, pair_inv T OI p.1) ((b, x), w).
Proof.
  intros HT Hi. apply wp_as_pair.
  eapply wp_mono; [exact (keeps_Remove T HT OI ctx (mkSt b x w) Hi)|]. intros r s [Hs Hr]. exact Hs.
Qed.

(** The interface the generic manager uses, from an instance's [SetDesiredFSMState]
    and its [Reconcile]; no instance has a [ForceRemove] method. *)
Definition pair_FSMInstance (setDesired : string → BaseFSMInstance → option GoErr * BaseFSMInstance)
    (reconcile : Ctx → Snapshot → M (St X W) (option GoErr * bool)) : FSMInstance (BaseFSMInstance * X) W := {|
  inst_GetCurrentFSMState i := base_GetCurrentFSMState i.1;
  inst_GetDesiredFSMState i := base_GetDesiredFSMState i.1;
  inst_SetDesiredFSMState d i := let (e, b) := setDesired d i.1 in (e, (b, i.2));
  inst_IsTransientStreakCounterMaxed i := IsTransientStreakCounterMaxed i.1;
  inst_Reconcile ctx snap := as_pair (reconcile ctx snap);
  inst_Remove ctx := as_pair (Remove ctx);
  inst_ForceRemove := None;
|}.

Lemma pair_FSMInstanceLaws T OI h setDesired :
  table_ok T → handlers_ok T OI h →
  (∀ d b, inst_inv T b → inst_inv T (setDesired d b).2) →
  (∀ d b, current (fsm (setDesired d b).2) = current (fsm b)) →
  @FSMInstanceLaws (BaseFSMInstance * X) W (pair_FSMInstance setDesired (instance_Reconcile h)) (pair_inv T OI).
Proof.
  intros HT Hh Hd Hs. split.
  - intros ctx snap [b x] w Hi. eapply wp_mono; [by apply pair_Reconcile|]. by intros r p [].
  - intros ctx [b x] w Hi. by apply pair_Remove.
  - done.
  - intros d [b x] [Hb Hx]. simpl. pose proof (Hd d b Hb). by destruct (setDesired d b).
  - intros d [b x]. simpl. pose proof (Hs d b). by destruct (setDesired d b).
Qed.
End as_instance.

(** A new instance: its table is that of its configuration, it is idle in
    [to_be_created] and has recorded no error. *)
Lemma NewBase_inv T c bc cbs :
  tbl T = transitions (fsm (NewBaseFSMInstance c bc)) → pre T = cfg_OperationalStateBeforeRemove c →
  LifecycleStateToBeCreated ∈ known T →
  inst_inv T (fold_left (λ b st, AddCallback ("enter_" +:+ st) CbLog b) cbs (NewBaseFSMInstance c bc)).
Proof.
  intros Ht Hp Hk. assert (Hnew : inst_inv T (NewBaseFSMInstance c bc)).
  { split; [apply NewBase_wf|congruence|rewrite NewBase_preRemove; congruence| |by intros e].
    destruct c as [? ? ? ? ? n]. unfold NewBaseFSMInstance. simpl. by destruct (n =? 0)%Z. }
  revert Hnew. generalize (NewBaseFSMInstance c bc). induction cbs as [|st cbs IH]; intros b Hb; [done|].
  simpl. apply IH. destruct Hb as [Hwf ? ? ? ?]. split; try done. destruct Hwf as [? Ha ?].
  split; [done| |].
  - intros st' Ha'. rewrite armed_AddCallback in Ha'. case_decide; [done|]. by apply Ha.
  - simpl. by rewrite lookup_insert_ne.
Qed.

Lemma NewBase_unarmed c bc cbs st :
  ¬ armed (fold_left (λ b st, AddCallback ("enter_" +:+ st) CbLog b) cbs (NewBaseFSMInstance c bc)) st.
Proof.
  assert (Hnew : ¬ armed (NewBaseFSMInstance c bc) st) by apply NewBase_callbacks.
  revert Hnew. generalize (NewBaseFSMInstance c bc). induction cbs as [|st' cbs IH]; intros b Hb; [done|].
  simpl. apply IH. rewrite armed_AddCallback. by case_decide.
Qed.
