(* ===== verification/ConfigNames.v ===== *)
(** * ConfigNames: component names (pkg/config/validation.go)

    [ValidateComponentName] with its specification: which names a component of
    the configuration may carry. *)

From S2P Require Import Prelude GoRuntime.

Definition dash : Ascii.ascii := Ascii.ascii_of_nat 45.
Definition underscore : Ascii.ascii := Ascii.ascii_of_nat 95.

Definition is_letter_or_number (c : Ascii.ascii) : bool :=
  let n := Ascii.nat_of_ascii c in
  ((97 <=? n) && (n <=? 122) || (65 <=? n) && (n <=? 90) || (48 <=? n) && (n <=? 57))%nat.

Definition is_dash_or_underscore (c : Ascii.ascii) : bool :=
  bool_decide (c = dash) || bool_decide (c = underscore).

(** The loop over the characters.  It ranges over runes in Go; a rune outside
    ASCII is above 'z', and so is each of its bytes. *)
Fixpoint valid_characters (name : string) : bool :=
  match name with
  | EmptyString => true
  | String c name' =>
      if negb (is_letter_or_number c) && negb (is_dash_or_underscore c) then false
      else valid_characters name'
  end.

Fixpoint last_char (c : Ascii.ascii) (name : string) : Ascii.ascii :=
  match name with EmptyString => c | String c' name' => last_char c' name' end.

Definition ValidateComponentName (name : string) : option GoErr :=
  match name with
  | EmptyString => Some (ENew "name cannot be empty")
  | String c name' =>
      if is_dash_or_underscore c || is_dash_or_underscore (last_char c name')
      then Some (ENew "name has to start and end with a letter or number")
      else if valid_characters name then None
      else Some (ENew "only letters, numbers, dashes and underscores are allowed")
  end.

(** ** Specification *)

Definition letter_or_number (c : Ascii.ascii) : Prop := is_letter_or_number c = true.
Definition name_character (c : Ascii.ascii) : Prop := letter_or_number c ∨ is_dash_or_underscore c = true.

(** A name is a letter or number, optionally followed by name characters that
    end in a letter or number: [[A-Za-z0-9]([A-Za-z0-9_-]*[A-Za-z0-9])?]. *)
Inductive component_name : list Ascii.ascii → Prop :=
  | name_single c : letter_or_number c → component_name [c]
  | name_long c l d : letter_or_number c → Forall name_character l → letter_or_number d →
      component_name (c :: l ++ [d]).

Lemma valid_characters_spec name : valid_characters name = true ↔ Forall name_character (String.list_ascii_of_string name).
Proof.
  induction name as [|c name IH]; simpl; [by split|]. rewrite Forall_cons, <- IH. unfold name_character, letter_or_number.
  destruct (is_letter_or_number c), (is_dash_or_underscore c); simpl; naive_solver.
Qed.

Lemma letter_no_dash c : letter_or_number c → is_dash_or_underscore c = false.
Proof. intros H. apply orb_false_iff. split; apply bool_decide_eq_false; by intros ->. Qed.

Lemma last_char_spec c name : ∃ l, c :: String.list_ascii_of_string name = l ++ [last_char c name].
Proof.
  revert c. induction name as [|d name IH]; intros c; simpl; [by exists []|].
  destruct (IH d) as [l E]. exists (c :: l). by rewrite E.
Qed.

(** Between the two ends, any name characters. *)
Lemma component_name_ends l d :
  component_name (l ++ [d]) ↔ Forall name_character (l ++ [d]) ∧ letter_or_number d ∧ ∀ c l', l = c :: l' → letter_or_number c.
Proof.
  split.
  - inversion 1 as [c Hc E|c l0 d' Hc Hl Hd E].
    + destruct l as [|? [|]]; simplify_eq/=. split_and!; [|done|done]. constructor; [by left|constructor].
    + destruct l as [|c' l']; [by destruct l0|]. injection E as -> E. apply app_inj_tail in E as [<- ->].
      split_and!; [|done|by intros ?? [= <- _]]. simpl. constructor; [by left|].
      apply Forall_app. split; [done|]. constructor; [by left|constructor].
  - intros (Hl & Hd & Hc). destruct l as [|c l]; [by constructor|].
    apply Forall_app in Hl as [Hl _]. apply Forall_cons in Hl as [_ Hl]. simpl. constructor; [by eapply Hc|done|done].
Qed.

(** [ValidateComponentName] accepts exactly the names that start and end with
    a letter or number and contain nothing but letters, numbers, dashes and
    underscores. *)
Theorem valid_component_name name :
  ValidateComponentName name = None ↔ component_name (String.list_ascii_of_string name).
Proof.
  destruct name as [|c name]; [split; [done|inversion 1]|].
  change (String.list_ascii_of_string (String c name)) with (c :: String.list_ascii_of_string name).
  pose proof (valid_characters_spec (String c name)) as Hv. unfold ValidateComponentName.
  change (String.list_ascii_of_string (String c name)) with (c :: String.list_ascii_of_string name) in Hv.
  destruct (last_char_spec c name) as [l E]. rewrite E in *. rewrite component_name_ends, <- Hv.
  assert (Hd : valid_characters (String c name) = true →
    is_dash_or_underscore (last_char c name) = false → letter_or_number (last_char c name)).
  { intros Hf%Hv Hn. apply Forall_app in Hf as [_ Hf]. apply Forall_cons in Hf as [[?|?] _]; congruence. }
  assert (Hc : valid_characters (String c name) = true → is_dash_or_underscore c = false → letter_or_number c).
  { intros Hf%Hv Hn. rewrite <- E in Hf. apply Forall_cons in Hf as [[?|?] _]; congruence. }
  destruct (is_dash_or_underscore c) eqn:E1; [|destruct (is_dash_or_underscore (last_char c name)) eqn:E2]; simpl orb.
  - split; [done|]. intros (_ & H2 & H3). destruct l as [|c' l'].
    + injection E as E' _. apply letter_no_dash in H2. congruence.
    + injection E as <- _. specialize (H3 c l' eq_refl). apply letter_no_dash in H3. congruence.
  - split; [done|]. intros (_ & H2%letter_no_dash & _). congruence.
  - cbn match. destruct (valid_characters _); [|naive_solver]. split; [|done]. intros _. split_and!; [done|auto|].
    intros c' l' ->. injection E as <- _. auto.
Qed.

Example name_ok : ValidateComponentName "my-bridge_1" = None.
Proof. reflexivity. Qed.
Example name_dash : ValidateComponentName "bridge-" = Some (ENew "name has to start and end with a letter or number").
Proof. reflexivity. Qed.
