(* ===== verification/Nmap.v ===== *)
(** * Nmap: the port-scan instance (pkg/fsm/nmap)

    Models [machine.go], [models.go], [reconcile.go], [actions.go] and the
    functions [manager.go] injects into the generic manager.  The service under
    the instance ([pkg/service/nmap], interface [INmapService]) is a type class;
    [NmapServiceLaws] is what the instance relies on. *)

From S2P Require Import Prelude Float64 GoRuntime Backoff BaseFSM FSMManager Instance.

(** ** models.go *)

Definition OperationalStateStopped : string := "stopped".
Definition OperationalStateStarting : string := "starting".
Definition OperationalStateDegraded : string := "degraded".
Definition OperationalStateFiltered : string := "filtered".
Definition OperationalStateClosed : string := "closed".
Definition OperationalStateOpen : string := "open".
Definition OperationalStateUnfiltered : string := "unfiltered".
Definition OperationalStateOpenFiltered : string := "open_filtered".
Definition OperationalStateClosedFiltered : string := "closed_filtered".
Definition OperationalStateStopping : string := "stopping".

(** The states in which the port's state is known. *)
Definition PortStates : list string :=
  [OperationalStateOpen; OperationalStateFiltered; OperationalStateClosed;
   OperationalStateUnfiltered; OperationalStateOpenFiltered; OperationalStateClosedFiltered].

Definition IsOperationalState (state : string) : bool :=
  bool_decide (state ∈ [OperationalStateStopped; OperationalStateStopping; OperationalStateStarting;
    OperationalStateDegraded; OperationalStateClosed; OperationalStateFiltered; OperationalStateUnfiltered;
    OperationalStateOpenFiltered; OperationalStateClosedFiltered; OperationalStateOpen]).
Definition IsStartingState (state : string) : bool := bool_decide (state = OperationalStateStarting).
Definition IsRunningState (state : string) : bool :=
  bool_decide (state ∈ [OperationalStateOpen; OperationalStateFiltered; OperationalStateClosed;
    OperationalStateUnfiltered; OperationalStateClosedFiltered; OperationalStateOpenFiltered;
    OperationalStateDegraded]).

Definition EventStart : string := "start_monitoring".
Definition EventStartDone : string := "start_monitoring_done".
Definition EventStop : string := "stop_monitoring".
Definition EventStopDone : string := "stop_monitoring_done".
Definition EventNmapExecutionFailed : string := "nmap_not_ok".
Definition EventPortOpen : string := "port_open".
Definition EventPortClosed : string := "port_closed".
Definition EventPortFiltered : string := "port_filtered".
Definition EventPortUnfiltered : string := "port_unfiltered".
Definition EventPortClosedFiltered : string := "port_closed_filtered".
Definition EventPortOpenFiltered : string := "port_open_filtered".

(** *** pkg/service/nmap/types.go, pkg/config *)

Definition PortStateOpen : string := "open".
Definition PortStateFiltered : string := "filtered".
Definition PortStateClosed : string := "closed".
Definition PortStateUnfiltered : string := "unfiltered".
Definition PortStateOpenFiltered : string := "open|filtered".
Definition PortStateClosedFiltered : string := "closed|filtered".

Record NmapServiceConfig := mkNmapServiceConfig { Target : string; Port : Z }.
Record NmapConfig := mkNmapConfig { Name : string; DesiredFSMState : string; ServiceConfig : NmapServiceConfig }.

#[export] Instance NmapServiceConfig_eq_dec : EqDecision NmapServiceConfig.
Proof. solve_decision. Defined.

Definition ConfigsEqual (desired observed : NmapServiceConfig) : bool :=
  bool_decide (Target desired = Target observed) && bool_decide (Port desired = Port observed).

(** The fields of a scan the instance reads; [Scan_State] is [PortResult.State]. *)
Record NmapScanResult := mkScan { Timestamp : Z; Scan_Error : string; Scan_State : string }.
Record NmapServiceInfo := mkNmapStatus { LastScan : option NmapScanResult; Logs : list string; IsRunning : bool }.
Record ServiceInfo := mkServiceInfo { S6FSMState : string; NmapStatus : NmapServiceInfo }.

Record NmapObservedState := mkObserved {
  ObservedNmapServiceConfig : NmapServiceConfig;
  ObservedServiceInfo : ServiceInfo;
  LastStateChange : Z;
}.

(** The fields of [NmapInstance] besides the base instance and the service. *)
Record NmapInstance := mkNmap { config : NmapConfig; ObservedState : NmapObservedState }.

Definition zero_observed : NmapObservedState :=
  mkObserved (mkNmapServiceConfig "" 0) (mkServiceInfo "" (mkNmapStatus None [] false)) 0.

Definition set_info (i : ServiceInfo) (n : NmapInstance) : NmapInstance :=
  mkNmap (config n) (mkObserved (ObservedNmapServiceConfig (ObservedState n)) i (LastStateChange (ObservedState n))).
Definition set_lastChange (t : Z) (n : NmapInstance) : NmapInstance :=
  mkNmap (config n) (mkObserved (ObservedNmapServiceConfig (ObservedState n)) (ObservedServiceInfo (ObservedState n)) t).
Definition set_observedConfig (c : NmapServiceConfig) (n : NmapInstance) : NmapInstance :=
  mkNmap (config n) (mkObserved c (ObservedServiceInfo (ObservedState n)) (LastStateChange (ObservedState n))).

(** ** The service interface *)

Class INmapService (W : Type) := {
  Status : Ctx → string → Z → W → (ServiceInfo * option GoErr) * W;
  GetConfig : Ctx → string → W → (NmapServiceConfig * option GoErr) * W;
  AddNmapToS6Manager : Ctx → NmapServiceConfig → string → W → option GoErr * W;
  UpdateNmapInS6Manager : Ctx → NmapServiceConfig → string → W → option GoErr * W;
  RemoveNmapFromS6Manager : Ctx → string → W → option GoErr * W;
  ForceRemoveNmap : Ctx → string → W → option GoErr * W;
  StartNmap : Ctx → string → W → option GoErr * W;
  StopNmap : Ctx → string → W → option GoErr * W;
  ServiceExists : Ctx → string → W → bool * W;
  ReconcileManager : Ctx → Snapshot → W → (option GoErr * bool) * W;
}.

Definition ErrServiceNotExist : GoErr := ESentinel "nmap" "service does not exist".
Definition ErrServiceAlreadyExists : GoErr := ESentinel "nmap" "service already exists".

(** A status that carries logs carries a scan result. *)
Definition status_ok (i : ServiceInfo) : Prop := LastScan (NmapStatus i) = None → Logs (NmapStatus i) = [].

(** What the instance relies on: a status with logs has a scan, and no error is
    the refusal of one of the instance's own events. *)
Class NmapServiceLaws (W : Type) `{INmapService W} := {
  Status_ok c n t w : (Status c n t w).1.2 = None → status_ok (Status c n t w).1.1;
  Status_err c n t w : not_refused (Status c n t w).1.2;
  GetConfig_err c n w : not_refused (GetConfig c n w).1.2;
  Add_err c cfg n w : not_refused (AddNmapToS6Manager c cfg n w).1;
  Update_err c cfg n w : not_refused (UpdateNmapInS6Manager c cfg n w).1;
  Remove_err c n w : not_refused (RemoveNmapFromS6Manager c n w).1;
  Start_err c n w : not_refused (StartNmap c n w).1;
  Stop_err c n w : not_refused (StopNmap c n w).1;
  ReconcileManager_err c s w : not_refused (ReconcileManager c s w).1.1;
}.

(** ** machine.go *)

Definition NmapUpdateObservedStateTimeout : Z := 10 * Millisecond.
Definition NmapScanTimeout : Z := 10 * Second.

Definition OperationalTransitions : list EventDesc := [
  mkEvent EventStart [OperationalStateStopped] OperationalStateStarting;
  mkEvent EventStartDone [OperationalStateStarting] OperationalStateDegraded;
  mkEvent EventNmapExecutionFailed
    [OperationalStateOpen; OperationalStateFiltered; OperationalStateClosed; OperationalStateUnfiltered;
     OperationalStateOpenFiltered; OperationalStateClosedFiltered] OperationalStateDegraded;
  mkEvent EventPortOpen
    [OperationalStateFiltered; OperationalStateClosed; OperationalStateDegraded; OperationalStateUnfiltered;
     OperationalStateOpenFiltered; OperationalStateClosedFiltered] OperationalStateOpen;
  mkEvent EventPortFiltered
    [OperationalStateOpen; OperationalStateClosed; OperationalStateDegraded; OperationalStateUnfiltered;
     OperationalStateOpenFiltered; OperationalStateClosedFiltered] OperationalStateFiltered;
  mkEvent EventPortClosed
    [OperationalStateOpen; OperationalStateFiltered; OperationalStateDegraded; OperationalStateUnfiltered;
     OperationalStateOpenFiltered; OperationalStateClosedFiltered] OperationalStateClosed;
  mkEvent EventPortUnfiltered
    [OperationalStateOpen; OperationalStateClosed; OperationalStateDegraded; OperationalStateFiltered;
     OperationalStateOpenFiltered; OperationalStateClosedFiltered] OperationalStateUnfiltered;
  mkEvent EventPortOpenFiltered
    [OperationalStateOpen; OperationalStateClosed; OperationalStateDegraded; OperationalStateFiltered;
     OperationalStateUnfiltered; OperationalStateClosedFiltered] OperationalStateOpenFiltered;
  mkEvent EventPortClosedFiltered
    [OperationalStateOpen; OperationalStateClosed; OperationalStateDegraded; OperationalStateFiltered;
     OperationalStateUnfiltered; OperationalStateOpenFiltered] OperationalStateClosedFiltered;
  mkEvent EventStop
    [OperationalStateOpen; OperationalStateFiltered; OperationalStateClosed; OperationalStateDegraded;
     OperationalStateStarting; OperationalStateUnfiltered; OperationalStateOpenFiltered;
     OperationalStateClosedFiltered] OperationalStateStopping;
  mkEvent EventStopDone [OperationalStateStopping] OperationalStateStopped ].

Definition baseConfig (c : NmapConfig) : BaseFSMInstanceConfig :=
  mkBaseCfg (Name c) (DesiredFSMState c) OperationalStateStopped OperationalStateStopped OperationalTransitions 0.

(** The callbacks registered by [registerCallbacks] ([fsm_callbacks.go]) only log. *)
Definition registerCallbacks (b : BaseFSMInstance) : BaseFSMInstance :=
  fold_left (λ b st, AddCallback ("enter_" +:+ st) CbLog b)
    [OperationalStateStopped; OperationalStateDegraded; OperationalStateClosed; OperationalStateFiltered;
     OperationalStateOpen; OperationalStateUnfiltered; OperationalStateOpenFiltered;
     OperationalStateClosedFiltered; LifecycleStateToBeCreated; LifecycleStateCreating;
     LifecycleStateRemoving; LifecycleStateRemoved] b.

Definition NewNmapInstanceWithService (c : NmapConfig) : BaseFSMInstance * NmapInstance :=
  (registerCallbacks (NewBaseFSMInstance (baseConfig c) (NewBackoffConfig 10 20 2)),
   mkNmap c zero_observed).

Definition SetDesiredFSMState (state : string) (b : BaseFSMInstance) : option GoErr * BaseFSMInstance :=
  if bool_decide (state ≠ OperationalStateOpen) && bool_decide (state ≠ OperationalStateStopped)
  then (Some (ENew ("invalid desired state: " +:+ state +:+ " (only '" +:+ OperationalStateOpen +:+ "' or '"
                    +:+ OperationalStateStopped +:+ "' allowed)")), b)
  else (None, base_SetDesiredFSMState state b).

Definition IsStopped (b : BaseFSMInstance) : bool := bool_decide (base_GetCurrentFSMState b = OperationalStateStopped).
Definition IsStopping (b : BaseFSMInstance) : bool := bool_decide (base_GetCurrentFSMState b = OperationalStateStopping).
Definition WantsToBeStopped (b : BaseFSMInstance) : bool :=
  bool_decide (base_GetDesiredFSMState b = OperationalStateStopped).

Section nmap.
Context {W : Type} `{World W} `{INmapService W}.
Local Abbreviation M' := (M (St NmapInstance W)).

(** ** actions.go *)

Definition CreateInstance (ctx : Ctx) : M' (option GoErr) :=
  b ← gets base;
  n ← gets own;
  service_create ErrServiceAlreadyExists ("failed to create service with config for " +:+ GetID b +:+ ": ")
    (AddNmapToS6Manager ctx (ServiceConfig (config n)) (GetID b)).

Definition RemoveInstance (ctx : Ctx) : M' (option GoErr) :=
  b ← gets base;
  service_remove ErrServiceNotExist ("failed to remove service " +:+ GetID b +:+ ": ")
    (RemoveNmapFromS6Manager ctx (GetID b)).

Definition StartInstance (ctx : Ctx) : M' (option GoErr) :=
  b ← gets base;
  service_action ("failed to start Nmap service " +:+ GetID b +:+ ": ") (StartNmap ctx (GetID b)).

Definition StopInstance (ctx : Ctx) : M' (option GoErr) :=
  b ← gets base;
  service_action ("failed to stop Nmap service " +:+ GetID b +:+ ": ") (StopNmap ctx (GetID b)).

Definition CheckForCreation (ctx : Ctx) : M' bool := mret true.

(** [strings.Contains(err.Error(), ErrServiceNotExist.Error())]. *)
Definition mentions_not_exist (e : GoErr) : bool := contains (Error e) (Error ErrServiceNotExist).

Definition Unix (t : Z) : Z := (t / Second)%Z.

(** The comparison of the configurations and the update of the service. *)
Definition updateConfig (ctx : Ctx) : M' (option GoErr) :=
  b ← gets base;
  n ← gets own;
  if negb (ConfigsEqual (ServiceConfig (config n)) (ObservedNmapServiceConfig (ObservedState n))) then
    ex ← liftE (ServiceExists ctx (GetID b));
    if ex : bool then
      err ← liftE (UpdateNmapInS6Manager ctx (ServiceConfig (config n)) (GetID b));
      match err with
      | Some e => mret (Some (EWrap "failed to update Nmap service configuration: " e))
      | None => mret None
      end
    else mret None
  else mret None.

Definition UpdateObservedStateOfInstance (ctx : Ctx) (snapshot : Snapshot) : M' (option GoErr) :=
  e ← liftE (ctx_Err ctx);
  match e with
  | Some err =>
      handled ← IsDeadlineExceededAndHandle err (Tick snapshot);
      if handled : bool then mret None else mret (Some err)
  | None =>
      b ← gets base;
      if bool_decide (base_GetDesiredFSMState b = OperationalStateStopped)
         && bool_decide (base_GetCurrentFSMState b = OperationalStateStopped)
      then mret None
      else
        n ← gets own;
        '(svcInfo, err) ← liftE (Status ctx (Name (config n)) (Tick snapshot));
        match err with
        | Some e =>
            if mentions_not_exist e then mret None
            else mret (Some (EWrap "failed to get nmap metrics: " e))
        | None =>
            _ ← on_own (set_info svcInfo);
            n ← gets own;
            _ ← (if (LastStateChange (ObservedState n) =? 0)%Z
                 then t ← liftE clock; on_own (set_lastChange (Unix t))
                 else mret tt);
            '(observedConfig, err) ← liftE (GetConfig ctx (GetID b));
            match err with
            | Some e =>
                if mentions_not_exist e then mret None
                else mret (Some (EWrap "failed to get observed Nmap config: " e))
            | None =>
                _ ← on_own (set_observedConfig observedConfig);
                updateConfig ctx
            end
        end
  end.

Definition IsNmapRunning (n : NmapInstance) : bool := IsRunning (NmapStatus (ObservedServiceInfo (ObservedState n))).

(** ** reconcile.go *)

(** [isNmapHealthy]; with logs but no scan it dereferences a nil pointer. *)
Definition isNmapHealthy (currentTime : Z) : M' bool :=
  n ← gets own;
  let status := NmapStatus (ObservedServiceInfo (ObservedState n)) in
  if bool_decide (LastScan status = None) && (length (Logs status) =? 0)%nat then mret false
  else
    match LastScan status with
    | None => panic
    | Some scan =>
        if bool_decide (Scan_Error scan ≠ "") then mret false
        else if (NmapScanTimeout <? currentTime - Timestamp scan)%Z then mret false
        else mret (IsNmapRunning n)
    end.

Definition checkPortState (n : NmapInstance) (currentState : string) : bool * string :=
  match LastScan (NmapStatus (ObservedServiceInfo (ObservedState n))) with
  | None => (false, "")
  | Some scan =>
      let portState := to_lower (Scan_State scan) in
      let case (state event : string) :=
        if bool_decide (currentState = state) then (false, "") else (true, event) in
      if bool_decide (portState = PortStateOpen) then case OperationalStateOpen EventPortOpen
      else if bool_decide (portState = PortStateFiltered) then case OperationalStateFiltered EventPortFiltered
      else if bool_decide (portState = PortStateClosed) then case OperationalStateClosed EventPortClosed
      else if bool_decide (portState = PortStateUnfiltered) then case OperationalStateUnfiltered EventPortUnfiltered
      else if bool_decide (portState = PortStateOpenFiltered)
      then case OperationalStateOpenFiltered EventPortOpenFiltered
      else if bool_decide (portState = PortStateClosedFiltered)
      then case OperationalStateClosedFiltered EventPortClosedFiltered
      else (false, "")
  end.

(** The cases of the six port states are the same. *)
Definition reconcileRunningStates (ctx : Ctx) (currentState : string) (currentTime : Z) : M' (option GoErr * bool) :=
  if bool_decide (currentState ∈ PortStates) then
    healthy ← isNmapHealthy currentTime;
    if negb healthy then send ctx EventNmapExecutionFailed true
    else
      n ← gets own;
      let (changedPortState, event) := checkPortState n currentState in
      if changedPortState then send ctx event false else mret (None, false)
  else if bool_decide (currentState = OperationalStateDegraded) then
    n ← gets own;
    let (changedPortState, event) := checkPortState n currentState in
    if changedPortState then send ctx event true else mret (None, false)
  else mret (Some (ENew ("invalid running state: " +:+ currentState)), false).

Definition reconcileStartingStates (ctx : Ctx) (currentState : string) : M' (option GoErr * bool) :=
  if bool_decide (currentState = OperationalStateStarting) then send ctx EventStartDone true
  else mret (Some (ENew ("invalid starting state: " +:+ currentState)), false).

Definition reconcileTransitionToStopped (ctx : Ctx) (currentState : string) : M' (option GoErr * bool) :=
  if bool_decide (currentState ≠ OperationalStateStopped) && bool_decide (currentState ≠ OperationalStateStopping) then
    err ← StopInstance ctx;
    match err with
    | Some e => mret (Some e, true)
    | None => send ctx EventStop true
    end
  else if bool_decide (currentState = OperationalStateStopping) then
    b ← gets base;
    if negb (IsStopped b) then send ctx EventStopDone true else mret (None, false)
  else mret (None, false).

Definition reconcileTransitionToActive (ctx : Ctx) (currentState : string) (currentTime : Z) : M' (option GoErr * bool) :=
  if bool_decide (currentState = OperationalStateStopped) then
    err ← StartInstance ctx;
    match err with
    | Some e => mret (Some e, false)
    | None => send ctx EventStart true
    end
  else if IsStartingState currentState then reconcileStartingStates ctx currentState
  else if IsRunningState currentState then reconcileRunningStates ctx currentState currentTime
  else if bool_decide (currentState = OperationalStateStopping) then reconcileTransitionToStopped ctx currentState
  else mret (Some (ENew ("invalid current state: " +:+ currentState)), false).

Definition reconcileOperationalStates (ctx : Ctx) (currentTime : Z) (currentState desiredState : string)
    : M' (option GoErr * bool) :=
  if bool_decide (desiredState = OperationalStateOpen) then reconcileTransitionToActive ctx currentState currentTime
  else if bool_decide (desiredState = OperationalStateStopped) then reconcileTransitionToStopped ctx currentState
  else mret (Some (ENew ("invalid desired state: " +:+ desiredState)), false).

Definition reconcileStateTransition (ctx : Ctx) (currentTime : Z) : M' (option GoErr * bool) :=
  lifecycle_or_operational IsOperationalState CreateInstance RemoveInstance CheckForCreation
    (reconcileOperationalStates ctx currentTime) ctx.

Definition reconcileExternalChanges (ctx : Ctx) (snapshot : Snapshot) : M' (option GoErr) :=
  updateCtx ← liftE (CreateUpdateObservedStateContextWithMinimum ctx NmapUpdateObservedStateTimeout);
  err ← UpdateObservedStateOfInstance updateCtx snapshot;
  match err with
  | Some e => mret (Some (EWrap "failed to update observed state: " e))
  | None => mret None
  end.

Definition inShutdown : M' bool :=
  b ← gets base;
  mret (IsRemoved b || IsRemoving b || IsStopped b || IsStopping b || WantsToBeStopped b).

Definition handlers : Handlers NmapInstance W := {|
  onPermanentError := permanent_with inShutdown (λ _ ctx, b ← gets base; liftE (ForceRemoveNmap ctx (GetID b)));
  externalChanges := reconcileExternalChanges;
  stateTransition ctx snapshot := reconcileStateTransition ctx (SnapshotTime snapshot);
  reconcileManager ctx snapshot := liftE (ReconcileManager ctx snapshot);
|}.

Definition Reconcile : Ctx → Snapshot → M' (option GoErr * bool) := instance_Reconcile handlers.
End nmap.

(** ** The instance as the manager sees it *)

Definition Table : Instance.Table :=
  mkTable (transitions (fsm (NewNmapInstanceWithService (mkNmapConfig "" "" (mkNmapServiceConfig "" 0))).1))
    OperationalStateStopped
    [LifecycleStateToBeCreated; LifecycleStateCreating; LifecycleStateRemoving; LifecycleStateRemoved;
     OperationalStateStopped; OperationalStateStarting; OperationalStateDegraded; OperationalStateFiltered;
     OperationalStateClosed; OperationalStateOpen; OperationalStateUnfiltered; OperationalStateOpenFiltered;
     OperationalStateClosedFiltered; OperationalStateStopping].

Lemma Table_ok : table_ok Table.
Proof. apply (bool_decide_unpack _). by vm_compute. Qed.

(** In every state, the events [reconcileOperationalStates] may choose are allowed. *)
Lemma events_allowed :
  allowed Table EventStart OperationalStateStopped = true ∧
  allowed Table EventStartDone OperationalStateStarting = true ∧
  allowed Table EventStopDone OperationalStateStopping = true ∧
  Forall (λ st, allowed Table EventNmapExecutionFailed st = true) PortStates ∧
  Forall (λ st, allowed Table EventStop st = true)
    (OperationalStateStarting :: OperationalStateDegraded :: PortStates).
Proof. split_and!; [by vm_compute..| |]; repeat constructor. Qed.

Section invariant.
Context {W : Type} `{World W} `{INmapService W} `{!NmapServiceLaws W}.
Implicit Types (s : St NmapInstance W).

(** The instance's own part of the invariant rules out the nil dereference. *)
Definition own_ok (n : NmapInstance) : Prop := status_ok (ObservedServiceInfo (ObservedState n)).

Local Abbreviation inv := (sinv (W := W) Table own_ok).
Local Abbreviation keeps' := (keeps (W := W) Table own_ok).

Lemma CreateInstance_ok ctx : action_ok not_refused (CreateInstance (W := W) ctx).
Proof. apply action_gets_base; intros b. apply action_gets_own; intros n. apply service_create_ok. intros; apply Add_err. Qed.
Lemma RemoveInstance_ok ctx : action_ok not_refused (RemoveInstance (W := W) ctx).
Proof. apply action_gets_base; intros b. apply service_remove_ok. intros; apply Remove_err. Qed.
Lemma StartInstance_ok ctx : action_ok not_refused (StartInstance (W := W) ctx).
Proof. apply action_gets_base; intros b. apply service_action_ok. intros; apply Start_err. Qed.
Lemma StopInstance_ok ctx : action_ok not_refused (StopInstance (W := W) ctx).
Proof. apply action_gets_base; intros b. apply service_action_ok. intros; apply Stop_err. Qed.

(** With the invariant, the health check returns. *)
Lemma wp_isNmapHealthy t s : inv s → wp (isNmapHealthy t) (λ _ s', s' = s) s.
Proof.
  intros [_ Ho]. apply wp_bind, wp_gets. cbv zeta. unfold own_ok, status_ok in Ho.
  destruct (LastScan _) as [scan|].
  - simpl. repeat case_match; by apply wp_ret.
  - rewrite Ho by done. by apply wp_ret.
Qed.

Lemma port_case T st st' ev ev' :
  bool_decide (st = st') || allowed T ev' st →
  (if bool_decide (st = st') then (false, "") else (true, ev')) = (true, ev) → allowed T ev st = true.
Proof.
  destruct (bool_decide (st = st')); simpl; [discriminate|]. intros Ha E. injection E as <-.
  by apply Is_true_true.
Qed.

(** The event chosen by the port state is allowed where it is sent. *)
Lemma checkPortState_allowed n st ev :
  st ∈ OperationalStateDegraded :: PortStates → checkPortState n st = (true, ev) → allowed Table ev st = true.
Proof.
  intros Hst. unfold checkPortState. destruct (LastScan _) as [scan|]; [|done].
  generalize (to_lower (Scan_State scan)). intros p Hc.
  assert (Hall : Forall (λ st, Forall (λ '(st', ev), bool_decide (st = st') || allowed Table ev st)
    [(OperationalStateOpen, EventPortOpen); (OperationalStateFiltered, EventPortFiltered);
     (OperationalStateClosed, EventPortClosed); (OperationalStateUnfiltered, EventPortUnfiltered);
     (OperationalStateOpenFiltered, EventPortOpenFiltered);
     (OperationalStateClosedFiltered, EventPortClosedFiltered)]) (OperationalStateDegraded :: PortStates)).
  { apply (bool_decide_unpack _). by vm_compute. }
  rewrite Forall_forall in Hall. specialize (Hall st Hst). rewrite !Forall_cons in Hall.
  destruct Hall as (A1 & A2 & A3 & A4 & A5 & A6 & _).
  cbv beta zeta in Hc.
  repeat match type of Hc with
         | (if bool_decide (p = _) then _ else _) = _ => destruct (bool_decide (p = _)); [refine (port_case _ _ _ _ _ _ Hc); assumption|]
         end.
  discriminate Hc.
Qed.

Local Ltac ret := apply wp_ret; split; [done|simpl; solve [auto with umh]].

Lemma send_ok ctx ev r s :
  inv s → allowed Table ev (current (fsm (base s))) = true →
  wp (send ctx ev r) (λ r s', inv s' ∧ not_refused r.1) s.
Proof. intros Hs Ha. by apply (wp_send Table Table_ok own_ok). Qed.

Lemma reconcileRunningStates_ok ctx t s :
  inv s → IsRunningState (current (fsm (base s))) = true →
  wp (reconcileRunningStates ctx (current (fsm (base s))) t) (λ r s', inv s' ∧ not_refused r.1) s.
Proof.
  intros Hs Hr. destruct events_allowed as (_ & _ & _ & Hfail & _). rewrite Forall_forall in Hfail.
  unfold reconcileRunningStates. case_bool_decide as Hp; [|case_bool_decide as Hd].
  - apply wp_bind. eapply wp_mono; [by apply wp_isNmapHealthy|]. intros healthy s' ->.
    destruct healthy; simpl; [|apply send_ok; auto].
    apply wp_bind, wp_gets. destruct (checkPortState _ _) as [[] ev] eqn:E; [|ret].
    apply send_ok; [done|]. eapply checkPortState_allowed; [by right|done].
  - apply wp_bind, wp_gets. destruct (checkPortState _ _) as [[] ev] eqn:E; [|ret].
    apply send_ok; [done|]. eapply checkPortState_allowed; [|done]. rewrite Hd. by left.
  - ret.
Qed.

Lemma reconcileTransitionToStopped_ok ctx s :
  inv s → IsOperationalState (current (fsm (base s))) = true →
  wp (reconcileTransitionToStopped ctx (current (fsm (base s)))) (λ r s', inv s' ∧ not_refused r.1) s.
Proof.
  intros Hs Ho. destruct events_allowed as (_ & _ & Hdone & _ & Hstop). rewrite Forall_forall in Hstop.
  unfold reconcileTransitionToStopped.
  destruct (bool_decide _ && bool_decide _) eqn:E.
  - apply andb_true_iff in E as [E1%bool_decide_eq_true E2%bool_decide_eq_true].
    apply wp_bind. eapply wp_mono; [apply (action_inv Table own_ok _ _ _ (StopInstance_ok ctx)), Hs|].
    intros [e|] s' (Hs' & Eb & He); [ret|]. apply send_ok; [done|]. rewrite Eb. apply Hstop.
    apply bool_decide_eq_true in Ho. revert Ho E1 E2. clear.
    unfold PortStates. rewrite !elem_of_cons. tauto.
  - clear E. case_bool_decide as E1; [|ret].
    apply wp_bind, wp_gets. unfold IsStopped, base_GetCurrentFSMState. rewrite E1. simpl.
    apply send_ok; [done|by rewrite E1].
Qed.

Lemma reconcileTransitionToActive_ok ctx t s :
  inv s → IsOperationalState (current (fsm (base s))) = true →
  wp (reconcileTransitionToActive ctx (current (fsm (base s))) t) (λ r s', inv s' ∧ not_refused r.1) s.
Proof.
  intros Hs Ho. destruct events_allowed as (Hstart & Hsd & _ & _ & _). unfold reconcileTransitionToActive.
  case_bool_decide as E1.
  { apply wp_bind. eapply wp_mono; [apply (action_inv Table own_ok _ _ _ (StartInstance_ok ctx)), Hs|].
    intros [e|] s' (Hs' & Eb & He); [ret|]. apply send_ok; [done|]. by rewrite Eb, E1. }
  unfold IsStartingState. case_bool_decide as E2.
  { unfold reconcileStartingStates. rewrite bool_decide_true by done. apply send_ok; [done|by rewrite E2]. }
  destruct (IsRunningState _) eqn:Er; [by apply reconcileRunningStates_ok|].
  case_bool_decide; [by apply reconcileTransitionToStopped_ok|ret].
Qed.

Lemma reconcileStateTransition_ok ctx t : keeps' (λ r, not_refused r.1) (reconcileStateTransition ctx t).
Proof.
  apply keeps_lifecycle_or_operational; [apply Table_ok|apply CreateInstance_ok|apply RemoveInstance_ok
    |intros c; by apply action_ret|].
  intros s Hs Ho. unfold reconcileOperationalStates. repeat case_bool_decide.
  - by apply reconcileTransitionToActive_ok.
  - by apply reconcileTransitionToStopped_ok.
  - ret.
Qed.

Lemma updateConfig_ok ctx : keeps' not_refused (updateConfig ctx).
Proof.
  apply keeps_gets_base; intros b _. apply keeps_gets_own; intros n _.
  destruct (negb _); [|by apply keeps_ret].
  eapply (keeps_bind _ _ (λ _, True)); [by apply keeps_liftE|]. intros [] _; [|by apply keeps_ret].
  eapply keeps_bind; [apply keeps_liftE; intros; apply Update_err|]. intros [e|] He; apply keeps_ret; auto with umh.
Qed.

Lemma nmap_update_ok ctx snap : keeps' not_refused (UpdateObservedStateOfInstance ctx snap).
Proof.
  eapply keeps_bind; [apply keeps_ctx_Err|]. intros [err|] He.
  { specialize (He err eq_refl). apply ctx_failure_not_refused in He.
    eapply keeps_bind; [by apply keeps_deadline|]. intros [] _; apply keeps_ret; [done|]. by intros ? [= <-]. }
  apply keeps_gets_base; intros b _. destruct (_ && _); [by apply keeps_ret|].
  apply keeps_gets_own; intros n _.
  eapply (keeps_bind _ _ (λ r, (r.2 = None → status_ok r.1) ∧ not_refused r.2)).
  { apply keeps_liftE. intros w. split; [apply Status_ok|apply Status_err]. }
  intros [info [e|]] [Hi Hr]; [destruct (mentions_not_exist e); apply keeps_ret; auto with umh|].
  eapply keeps_bind; [apply keeps_on_own; intros; by apply Hi|]. intros _ _.
  apply keeps_gets_own; intros n' _. eapply (keeps_bind _ _ (λ _, True)).
  { destruct (_ =? 0)%Z; [|by apply keeps_ret].
    eapply (keeps_bind _ _ (λ _, True)); [by apply keeps_liftE|]. intros t _. by apply keeps_on_own. }
  intros _ _. eapply (keeps_bind _ _ (λ r, not_refused r.2)); [apply keeps_liftE; intros; apply GetConfig_err|].
  intros [c [e|]] Hc; [destruct (mentions_not_exist e); apply keeps_ret; auto with umh|].
  eapply keeps_bind; [by apply keeps_on_own|]. intros _ _. apply updateConfig_ok.
Qed.

Lemma nmap_handlers_ok : Instance.handlers_ok Table own_ok (handlers (W := W)).
Proof.
  split.
  - apply permanent_with_ok; [apply Table_ok|..].
    + intros s. apply wp_bind, wp_gets. by apply wp_ret.
    + intros e c s. apply wp_bind, wp_gets, wp_liftE. done.
  - intros c snap. eapply (keeps_bind _ _ (λ _, True)); [by apply keeps_liftE|]. intros c' _.
    eapply keeps_bind; [apply nmap_update_ok|]. intros [e|] He; apply keeps_ret; auto with umh.
  - intros c snap. apply reconcileStateTransition_ok.
  - intros c snap. apply keeps_liftE. intros w. apply ReconcileManager_err.
Qed.
End invariant.

(** ** manager.go: what is injected into the generic manager *)

Definition Nmap : Type := BaseFSMInstance * NmapInstance.

Section manager.
Context {W : Type} `{World W} `{MapOrder W} `{INmapService W}.

#[export] Instance Nmap_FSMInstance : FSMInstance Nmap W := pair_FSMInstance SetDesiredFSMState Reconcile.

(** [NewNmapManager]: the configurations are [fc.Internal.Nmap]. *)
Definition NmapManagerOps : ManagerOps (list NmapConfig) NmapConfig Nmap := {|
  extractConfigs fc := (fc, None);
  getName c := (Name c, None);
  getDesiredState c := (DesiredFSMState c, None);
  createInstance c := (Some (NewNmapInstanceWithService c), None);
  compareConfig i c :=
    (bool_decide (Name (config i.2) = Name c) && bool_decide (DesiredFSMState (config i.2) = DesiredFSMState c)
     && ConfigsEqual (ServiceConfig (config i.2)) (ServiceConfig c), None);
  setConfig i c := (None, (i.1, mkNmap c (ObservedState i.2)));
  getMinimumRequiredTime i := (NmapUpdateObservedStateTimeout, None);
|}.

#[export] Instance Nmap_inv : InstanceInv Nmap := pair_inv Table own_ok.

Lemma NewNmapInstance_inv c : inst_ok (NewNmapInstanceWithService c).
Proof. split; [apply NewBase_inv; [done|done|by left]|done]. Qed.

Lemma nmap_SetDesired_inv d b : inst_inv Table b → inst_inv Table (SetDesiredFSMState d b).2.
Proof. intros Hb. unfold SetDesiredFSMState. destruct (_ && _); [done|by apply inst_inv_desired]. Qed.

#[export] Instance NmapManagerOps_laws : ManagerOpsLaws NmapManagerOps.
Proof.
  split.
  - intros c i [= <-]. apply NewNmapInstance_inv.
  - by intros [b n] c [Hb Hn].
Qed.

Context `{!NmapServiceLaws W}.

#[export] Instance Nmap_laws : FSMInstanceLaws Nmap W.
Proof.
  apply (pair_FSMInstanceLaws Table own_ok); [apply Table_ok|apply nmap_handlers_ok|apply nmap_SetDesired_inv|].
  intros d b. unfold SetDesiredFSMState. by destruct (_ && _).
Qed.
End manager.

(** ** Progress with a cooperative service *)

(** A scan that shows the port open, without error and recent enough. *)
Definition shows_open (currentTime : Z) (i : ServiceInfo) : Prop :=
  ∃ scan, LastScan (NmapStatus i) = Some scan ∧ Scan_Error scan = "" ∧
    (currentTime - Timestamp scan <= NmapScanTimeout)%Z ∧ to_lower (Scan_State scan) = PortStateOpen ∧
    IsRunning (NmapStatus i) = true.

(** The service under the instance does what it is asked to, and scans an open port. *)
Class Cooperative (W : Type) `{INmapService W} := {
  coop_Add c cfg n w : (AddNmapToS6Manager c cfg n w).1 = None;
  coop_Start c n w : (StartNmap c n w).1 = None;
  coop_Stop c n w : (StopNmap c n w).1 = None;
  coop_Update c cfg n w : (UpdateNmapInS6Manager c cfg n w).1 = None;
  coop_Status c n t w : (Status c n t w).1.2 = None;
  coop_GetConfig c n w : (GetConfig c n w).1.2 = None;
  coop_Reconcile c s w : (ReconcileManager c s w).1.1 = None;
}.

Definition scans_open `{INmapService W} (snap : Snapshot) : Prop :=
  ∀ c n w, shows_open (SnapshotTime snap) (Status c n (Tick snap) w).1.1.

(** A scan that shows the port open but fails the health check: it reports an
    error, is too old, or belongs to a service that is not running. *)
Definition shows_unhealthy (currentTime : Z) (i : ServiceInfo) : Prop :=
  ∃ scan, LastScan (NmapStatus i) = Some scan ∧ to_lower (Scan_State scan) = PortStateOpen ∧
    (Scan_Error scan ≠ "" ∨ (NmapScanTimeout < currentTime - Timestamp scan)%Z ∨
     IsRunning (NmapStatus i) = false).
Definition scans_unhealthy `{INmapService W} (snap : Snapshot) : Prop :=
  ∀ c n w, shows_unhealthy (SnapshotTime snap) (Status c n (Tick snap) w).1.1.
Definition alternate (st : string) : string :=
  if bool_decide (st = OperationalStateDegraded) then OperationalStateOpen else OperationalStateDegraded.

Local Abbreviation resting := (resting Table own_ok).

Section progress.
Context {W : Type} `{World W} `{!PromptClock W} `{INmapService W} `{!NmapServiceLaws W} `{!Cooperative W}.
Implicit Types (s : St NmapInstance W).

(** What the last status shows, unless the instance rests in [stopped]. *)
Definition shows (P : ServiceInfo → Prop) (desired st : string) (n : NmapInstance) : Prop :=
  P (ObservedServiceInfo (ObservedState n)) ∨ desired = OperationalStateStopped ∧ st = OperationalStateStopped.

Lemma updateConfig_idle ctx : idle_ok (λ e, e = None) (updateConfig (W := W) ctx).
Proof.
  apply idle_gets_base; intros b. apply idle_gets_own; intros n. destruct (negb _); [|by apply idle_ret].
  eapply (idle_bind (λ _, True)); [by apply idle_liftE|]. intros [] _; [|by apply idle_ret].
  apply idle_action. intros w. apply coop_Update.
Qed.

(** Refreshing the observed state succeeds and shows what the service reports. *)
Lemma nmap_external_calm (P : ServiceInfo → Prop) desired st snap s w :
  resting desired st s → (∀ c n w, P (Status c n (Tick snap) w).1.1) →
  wp (reconcileExternalChanges Background snap)
     (λ e s', e = None ∧ base s' = base s ∧ own_ok (own s') ∧ shows P desired st (own s')) (mkSt (base s) (own s) w).
Proof.
  intros [Hb Ho <- <- _ _] Hopen.
  apply wp_external_context; [unfold NmapUpdateObservedStateTimeout, Millisecond; lia|]. intros c w1 Hu.
  apply wp_bind, wp_bind, wp_liftE. cbn [env base own]. intros e w2 He. rewrite He in Hu. simpl in Hu. subst e.
  apply wp_bind, wp_gets. cbn [base].
  destruct (_ && _) eqn:Ed.
  { apply andb_true_iff in Ed as [E1%bool_decide_eq_true E2%bool_decide_eq_true].
    apply wp_ret, wp_ret. split_and!; try done. by right. }
  apply wp_bind, wp_gets. cbn [own].
  apply wp_bind, (wp_liftE_ok _ (λ r, r.2 = None ∧ P r.1 ∧ status_ok r.1)).
  { intros w'. split_and!; [apply coop_Status|apply Hopen|apply Status_ok, coop_Status]. }
  intros [info e'] w3 (E & Hi & Hok). simpl in E. subst e'. cbn [base own env].
  apply wp_bind, wp_modify. cbn [base own env]. apply wp_bind, wp_gets. cbn [own]. apply wp_bind.
  eapply (wp_mono _ (λ _ s', base s' = base s ∧ ObservedServiceInfo (ObservedState (own s')) = info)).
  { destruct (_ =? 0)%Z; [|by apply wp_ret]. apply wp_bind, wp_liftE. intros t w4 _. by apply wp_modify. }
  intros _ s1 (Eb & Ei). apply wp_bind, (wp_liftE_ok _ (λ r, r.2 = None)); [intros; apply coop_GetConfig|].
  intros [oc e'] w4 E. simpl in E. subst e'. apply wp_bind, wp_modify. cbn [base own env].
  eapply wp_mono; [apply updateConfig_idle|].
  intros e s2 (-> & E1 & E2). apply wp_ret. rewrite E1, E2, Eb. unfold own_ok, shows. simpl. rewrite Ei. auto.
Qed.

(** From a step of the state machine to a whole tick. *)
Lemma nmap_tick (P : ServiceInfo → Prop) desired st st' snap s :
  resting desired st s → st' ∈ known Table → (∀ c n w, P (Status c n (Tick snap) w).1.1) →
  (∀ s1, base s1 = base s → own_ok (own s1) → shows P desired st (own s1) →
     steps_to st st' (base s) (reconcileStateTransition Background (SnapshotTime snap)) s1) →
  wp (Reconcile Background snap) (λ _ s', resting desired st' s') s.
Proof.
  intros Hr Hk HP Hstep. eapply wp_mono; [apply (tick_calm Table own_ok (shows P desired st) _ desired st st'); [done..| |done|]|].
  - intros w. by apply nmap_external_calm.
  - apply idle_liftE. intros w. apply coop_Reconcile.
  - by intros r s' [].
Qed.

(** The path to [open], and the path to [stopped]. *)
Definition next_up (st : string) : string :=
  if bool_decide (st = LifecycleStateToBeCreated) then LifecycleStateCreating
  else if bool_decide (st = LifecycleStateCreating) then OperationalStateStopped
  else if bool_decide (st = OperationalStateStopped) then OperationalStateStarting
  else if bool_decide (st = OperationalStateStarting) then OperationalStateDegraded
  else OperationalStateOpen.
Definition path_up : list string :=
  [LifecycleStateToBeCreated; LifecycleStateCreating; OperationalStateStopped; OperationalStateStarting;
   OperationalStateDegraded; OperationalStateOpen].
Definition next_down (st : string) : string :=
  if bool_decide (st ∈ OperationalStateStarting :: OperationalStateDegraded :: PortStates)
  then OperationalStateStopping else OperationalStateStopped.

Lemma StartInstance_idle : idle_ok (λ e, e = None) (StartInstance (W := W) Background).
Proof. apply idle_gets_base; intros b. apply idle_action. intros w. apply coop_Start. Qed.
Lemma StopInstance_idle : idle_ok (λ e, e = None) (StopInstance (W := W) Background).
Proof. apply idle_gets_base; intros b. apply idle_action. intros w. apply coop_Stop. Qed.
Lemma CreateInstance_idle : idle_ok (λ e, e = None) (CreateInstance (W := W) Background).
Proof. apply idle_gets_base; intros b. apply idle_gets_own; intros n. apply idle_action. intros w. apply coop_Add. Qed.

(** With a healthy scan the check succeeds, with an unhealthy one it fails. *)
Lemma isNmapHealthy_open t s :
  shows_open t (ObservedServiceInfo (ObservedState (own s))) →
  wp (isNmapHealthy t) (λ h s', h = true ∧ s' = s) s.
Proof.
  intros (scan & E1 & E2 & E3 & E4 & E5). apply wp_bind, wp_gets. cbv zeta. rewrite E1. simpl. rewrite E2. simpl.
  destruct (Z.ltb_spec NmapScanTimeout (t - Timestamp scan)); [lia|]. apply wp_ret. by unfold IsNmapRunning.
Qed.

Lemma isNmapHealthy_unhealthy t s :
  shows_unhealthy t (ObservedServiceInfo (ObservedState (own s))) →
  wp (isNmapHealthy t) (λ h s', h = false ∧ s' = s) s.
Proof.
  intros (scan & E1 & E2 & E3). apply wp_bind, wp_gets. cbv zeta. rewrite E1. simpl.
  case_bool_decide as Ee; [by apply wp_ret|].
  destruct (Z.ltb_spec NmapScanTimeout (t - Timestamp scan)); [by apply wp_ret|].
  apply wp_ret. split; [|done]. unfold IsNmapRunning. destruct E3 as [?|[?|?]]; [done|lia|done].
Qed.

Lemma step_up snap st s :
  scans_open (W := W) snap → st ∈ path_up → resting OperationalStateOpen st s →
  wp (Reconcile Background snap) (λ _ s', resting OperationalStateOpen (next_up st) s') s.
Proof.
  intros Hopen Hst Hrest.
  eapply (nmap_tick (shows_open (SnapshotTime snap))); [exact Hrest| |exact Hopen|].
  { revert Hst. unfold path_up. rewrite !elem_of_cons, elem_of_nil.
    intros [->|[->|[->|[->|[->|[->|[]]]]]]]; apply (bool_decide_unpack _); by vm_compute. }
  intros s1 Eb Ho1 [Hshow|[? _]]; [|done].
  unfold path_up in Hst. rewrite !elem_of_cons, elem_of_nil in Hst.
  destruct Hst as [->|[->|[->|[->|[->|[->|[]]]]]]].
  - eapply (create_resting Table own_ok) with (ev := LifecycleEventCreate);
      [done|done|by left|apply idle_ok_on, CreateInstance_idle|by apply idle_ok_on, idle_ret|by vm_compute|done].
  - eapply (create_resting Table own_ok) with (ev := LifecycleEventCreateDone);
      [done|done|by right; left|apply idle_ok_on, CreateInstance_idle|by apply idle_ok_on, idle_ret|by vm_compute|done].
  - eapply operational_step; [done..|]. by eapply act_send_resting; [done|done|apply StartInstance_idle|..].
  - eapply operational_step; [done..|]. by eapply send_resting.
  - eapply operational_step; [done..|].
    apply wp_bind, wp_gets. destruct Hshow as (scan & E1 & E2 & E3 & E4 & E5).
    unfold checkPortState. rewrite E1, E4. cbv zeta. rewrite bool_decide_true by done.
    rewrite bool_decide_false by done. by eapply send_resting.
  - eapply operational_step; [done..|].
    apply wp_bind. eapply wp_mono; [by apply isNmapHealthy_open|]. intros h s2 [-> ->]. simpl.
    destruct Hshow as (scan & E1 & E2 & E3 & E4 & E5).
    apply wp_bind, wp_gets. unfold checkPortState. rewrite E1, E4. cbv zeta.
    rewrite !bool_decide_true by done. by eapply stay_resting.
Qed.

Lemma step_down snap st s :
  st ∈ OperationalStateStopping :: OperationalStateStopped :: OperationalStateStarting ::
       OperationalStateDegraded :: PortStates →
  resting OperationalStateStopped st s →
  wp (Reconcile Background snap) (λ _ s', resting OperationalStateStopped (next_down st) s') s.
Proof.
  intros Hst Hrest. eapply (nmap_tick (λ _, True)); [exact Hrest| |done|].
  { unfold next_down. case_bool_decide; apply (bool_decide_unpack _); by vm_compute. }
  intros s1 Eb Ho1 _.
  destruct (decide (st = OperationalStateStopped)) as [->|Hstopped];
    [|destruct (decide (st = OperationalStateStopping)) as [->|Hstopping]].
  - eapply operational_step; [done..|]. by eapply stay_resting.
  - eapply operational_step; [done..|]. apply wp_bind, wp_gets.
    unfold IsStopped, base_GetCurrentFSMState. rewrite Eb, (rest_state _ _ _ _ _ Hrest). by eapply send_resting.
  - assert (Hin : st ∈ OperationalStateStarting :: OperationalStateDegraded :: PortStates).
    { rewrite !elem_of_cons in Hst. rewrite !elem_of_cons. tauto. }
    assert (Htab : Forall (λ st, tbl Table !! (EventStop, st) = Some OperationalStateStopping ∧
              IsLifecycleState st = false ∧ IsOperationalState st = true)
              (OperationalStateStarting :: OperationalStateDegraded :: PortStates)).
    { apply (bool_decide_unpack _). by vm_compute. }
    rewrite Forall_forall in Htab. destruct (Htab st Hin) as (Ht & El & Eo).
    unfold next_down. rewrite bool_decide_true by done.
    eapply operational_step; [done..|]. unfold reconcileOperationalStates.
    rewrite bool_decide_false, bool_decide_true by done. unfold reconcileTransitionToStopped.
    rewrite !bool_decide_true by done.
    eapply act_send_resting; [exact Hrest|exact Eb|apply StopInstance_idle|exact Ht|].
    intros E. apply Hstopping. symmetry. exact E.
Qed.

Lemma step_alternate snap st s :
  scans_unhealthy (W := W) snap → st ∈ [OperationalStateDegraded; OperationalStateOpen] →
  resting OperationalStateOpen st s →
  wp (Reconcile Background snap) (λ _ s', resting OperationalStateOpen (alternate st) s') s.
Proof.
  intros Hscan Hst Hrest. eapply (nmap_tick (shows_unhealthy (SnapshotTime snap))); [exact Hrest| |exact Hscan|].
  { unfold alternate. case_bool_decide; apply (bool_decide_unpack _); by vm_compute. }
  intros s1 Eb Ho1 [Hshow|[? _]]; [|done].
  rewrite !elem_of_cons, elem_of_nil in Hst. destruct Hst as [->|[->|[]]].
  - eapply operational_step; [done..|]. destruct Hshow as (scan & E1 & E2 & E3).
    apply wp_bind, wp_gets. unfold checkPortState. rewrite E1, E2. cbv zeta.
    rewrite bool_decide_true, bool_decide_false by done. by eapply send_resting.
  - eapply operational_step; [done..|]. apply wp_bind.
    eapply wp_mono; [by apply isNmapHealthy_unhealthy|]. intros h s2 [-> ->]. by eapply send_resting.
Qed.
End progress.

(** ** Properties *)

Section properties.
Context {W : Type} `{World W} `{INmapService W} `{!NmapServiceLaws W}.
Implicit Types (s : St NmapInstance W).

(** C2: one tick of a port-scan instance is safe in every state it can be in: it
    returns (the health check never dereferences a missing scan), it leaves the
    instance in one of its known states with its table intact, it never records
    the state machine's refusal of an event (every event it sends is allowed
    where it is sent), and the only errors it returns are a cancelled context
    and a permanent failure. *)
Theorem nmap_reconcile_safe ctx snap s :
  inst_inv Table (base s) → own_ok (own s) →
  wp (Reconcile ctx snap)
     (λ r s', inst_inv Table (base s') ∧ own_ok (own s') ∧
        ∀ e, r.1 = Some e → ctx_failure e ∨ IsPermanentFailureError (Some e) = true) s.
Proof.
  intros Hb Ho. eapply wp_mono; [by apply (keeps_Reconcile Table own_ok _ ctx snap nmap_handlers_ok)|].
  intros r s' [[Hb' Ho'] Hr]. done.
Qed.

(** C6: the generic manager running port-scan instances from a new manager on never
    panics, whatever configurations, contexts and clock readings it is given:
    every tick returns, possibly with an error, and every instance it holds
    afterwards is in a known state and has not recorded a refusal of an event
    by its state machine. *)
Theorem nmap_manager_safe `{MapOrder W} (l : list Input) w :
  wp (ticks NmapManagerOps l)
     (λ r (s' : MSt Nmap W), length r = length l ∧ ∀ name i, instances (mgr s') !! name = Some i →
        inst_GetCurrentFSMState i ∈ known Table ∧ not_refused (lastError (backoffManager i.1)))
     (mkMSt NewBaseFSMManager w).
Proof.
  eapply wp_mono; [by apply (wp_ticks_ok NmapManagerOps l)|]. intros r s' [Hl Hm]. split; [done|].
  intros name i Hi. apply Hm in Hi as [Hb _]. split; apply Hb.
Qed.

(** C5: progress: with a service that does what it is asked to and scans an open
    port, and without a deadline, an instance that is to be created and is
    wanted open reaches [open] within five ticks, and stays there. *)
Theorem nmap_reaches_open `{!PromptClock W} `{!Cooperative W} snaps s :
  resting OperationalStateOpen LifecycleStateToBeCreated s → Forall (scans_open (W := W)) snaps →
  wp (ticks_of (Reconcile Background) snaps)
     (λ _ s', 5 ≤ length snaps → base_GetCurrentFSMState (base s') = OperationalStateOpen) s.
Proof.
  intros Hrest Hsnaps.
  assert (Hgo : ∀ l k s, Forall (scans_open (W := W)) l →
    (∃ st, path_up !! k = Some st ∧ resting OperationalStateOpen st s) →
    wp (ticks_of (Reconcile Background) l)
       (λ _ s', ∃ st, path_up !! Nat.min 5 (k + length l) = Some st ∧ resting OperationalStateOpen st s') s).
  { induction l as [|snap l IH]; intros k s0 Hl (st & Hk & Hs0).
    - apply wp_ret. exists st. apply lookup_lt_Some in Hk as Hlt. assert (Hlt6 : k < 6) by exact Hlt.
      replace (Nat.min 5 (k + length (@nil Snapshot))) with k by (clear -Hlt6; cbn [length]; lia). by split.
    - apply Forall_cons in Hl as [Hsnap Hl]. apply wp_bind.
      eapply wp_mono; [apply step_up; [exact Hsnap|by eapply list_elem_of_lookup_2|exact Hs0]|].
      intros r1 s1 Hs1. cbn beta in Hs1. eapply wp_mono; [apply (IH (Nat.min 5 (S k))); [done|]|].
      + exists (next_up st). split; [|done]. do 6 (destruct k as [|k]; [cbv in Hk; injection Hk as <-; reflexivity|]). discriminate Hk.
      + intros _ s2 (st2 & Hst2 & Hs2). exists st2. split; [|done]. rewrite <- Hst2. f_equal. cbn [length]. lia. }
  eapply wp_mono; [apply (Hgo snaps 0); [done|by eexists]|]. intros _ s' (st & Hst & Hs') Hlen.
  rewrite Nat.min_l in Hst by lia. injection Hst as <-. apply Hs'.
Qed.

(** Stopping takes two ticks: an instance that is starting or running and is
    wanted stopped is in [stopping] after one undisturbed tick and in [stopped]
    from the second on. *)
Theorem nmap_stops `{!PromptClock W} `{!Cooperative W} snap snaps st s :
  st ∈ OperationalStateStarting :: OperationalStateDegraded :: PortStates →
  resting OperationalStateStopped st s →
  wp (ticks_of (Reconcile Background) (snap :: snaps))
     (λ _ s', base_GetCurrentFSMState (base s') =
        match snaps with [] => OperationalStateStopping | _ => OperationalStateStopped end) s.
Proof.
  intros Hst Hrest. apply wp_bind. eapply wp_mono; [apply (step_down snap st); [|exact Hrest]|].
  { rewrite !elem_of_cons in Hst. rewrite !elem_of_cons. tauto. }
  unfold next_down at 1. rewrite bool_decide_true by done. intros _ s1 Hs1.
  destruct snaps as [|snap2 snaps]; [apply wp_ret, Hs1|]. apply wp_bind.
  eapply wp_mono; [apply (step_down snap2 OperationalStateStopping); [by left|exact Hs1]|]. intros r2 s2 Hs2.
  change (next_down OperationalStateStopping) with OperationalStateStopped in Hs2.
  revert s2 Hs2. induction snaps as [|snap3 snaps IH]; intros s2 Hs2; [apply wp_ret, Hs2|].
  apply wp_bind. eapply wp_mono; [apply (step_down snap3 OperationalStateStopped); [by right; left|exact Hs2]|].
  intros r3 s3 Hs3. by apply IH.
Qed.

(** The degraded state does not hold an unhealthy instance: with a scan that
    shows the port open but fails the health check, the instance alternates
    between [degraded] and [open] on every tick, because [degraded] goes back to
    the scanned port's state without the check that led to it. *)
Theorem nmap_unhealthy_alternates `{!PromptClock W} `{!Cooperative W} snaps s :
  resting OperationalStateOpen OperationalStateDegraded s → Forall (scans_unhealthy (W := W)) snaps →
  wp (ticks_of (Reconcile Background) snaps)
     (λ _ s', base_GetCurrentFSMState (base s') =
        if Nat.even (length snaps) then OperationalStateDegraded else OperationalStateOpen) s.
Proof.
  intros Hrest Hs.
  assert (Hgo : ∀ l st s, st ∈ [OperationalStateDegraded; OperationalStateOpen] → Forall (scans_unhealthy (W := W)) l →
    resting OperationalStateOpen st s →
    wp (ticks_of (Reconcile Background) l)
       (λ _ s', base_GetCurrentFSMState (base s') = if Nat.even (length l) then st else alternate st) s).
  { induction l as [|snap l IH]; intros st s0 Hst Hl Hs0; [apply wp_ret, Hs0|].
    apply Forall_cons in Hl as [Hsnap Hl]. apply wp_bind.
    eapply wp_mono; [by apply step_alternate|]. intros r1 s1 Hs1.
    eapply wp_mono; [apply (IH (alternate st)); [|done|exact Hs1]|].
    { rewrite !elem_of_cons, elem_of_nil in Hst. destruct Hst as [->|[->|[]]]; [by right; left|by left]. }
    intros r2 s2 ->. cbn [length]. rewrite Nat.even_succ, <- Nat.negb_even.
    destruct (Nat.even (length l)); [done|].
    rewrite !elem_of_cons, elem_of_nil in Hst. by destruct Hst as [->|[->|[]]]. }
  eapply wp_mono; [apply (Hgo snaps OperationalStateDegraded); [by left|done|done]|]. done.
Qed.
End properties.

(** ** Concrete runs *)

Definition demo_status : ServiceInfo :=
  mkServiceInfo "running" (mkNmapStatus (Some (mkScan 0 "" "open")) ["NMAP_SCAN_END"] true).

(** A service that does what it is asked to and has scanned an open port at time 0. *)
#[export] Instance demo_service : INmapService Z := {
  Status _ _ _ w := ((demo_status, None), w);
  GetConfig _ _ w := ((mkNmapServiceConfig "localhost" 80, None), w);
  AddNmapToS6Manager _ _ _ w := (None, w);
  UpdateNmapInS6Manager _ _ _ w := (None, w);
  RemoveNmapFromS6Manager _ _ w := (None, w);
  ForceRemoveNmap _ _ w := (None, w);
  StartNmap _ _ w := (None, w);
  StopNmap _ _ w := (None, w);
  ServiceExists _ _ w := (true, w);
  ReconcileManager _ _ w := ((None, false), w);
}.

#[export] Instance demo_service_laws : NmapServiceLaws Z.
Proof. by split. Defined.

#[export] Instance demo_cooperative : Cooperative Z.
Proof. by split. Defined.

Definition demo_nmap (desired : string) : NmapConfig := mkNmapConfig "n" desired (mkNmapServiceConfig "localhost" 80).
Definition nmap_at (desired st : string) : St NmapInstance Z :=
  let i := NewNmapInstanceWithService (demo_nmap desired) in mkSt (at_state st i.1) i.2 0%Z.

Lemma nmap_at_inv desired st : st ∈ known Table → inst_inv Table (base (nmap_at desired st)).
Proof. intros. apply inst_inv_at; [|done]. apply NewNmapInstance_inv. Qed.

Lemma nmap_at_unarmed desired st st' : ¬ armed (base (nmap_at desired st)) st'.
Proof.
  unfold nmap_at. cbn [base]. rewrite armed_at_state.
  unfold NewNmapInstanceWithService. cbn [fst]. unfold registerCallbacks. apply NewBase_unarmed.
Qed.

Lemma nmap_at_resting desired st : st ∈ known Table → resting desired st (nmap_at desired st).
Proof. intros Hst. split; try done; [by apply nmap_at_inv|apply nmap_at_unarmed]. Qed.

Lemma nmap_reconcile_safe_witness :
  wp (Reconcile Background (mkSnapshot 1 0))
     (λ r s', inst_inv Table (base s') ∧ own_ok (own s') ∧
        ∀ e, r.1 = Some e → ctx_failure e ∨ IsPermanentFailureError (Some e) = true)
     (nmap_at "open" "degraded").
Proof.
  apply (nmap_reconcile_safe Background (mkSnapshot 1 0) (nmap_at "open" "degraded")).
  - apply nmap_at_inv, (bool_decide_unpack _). by vm_compute.
  - done.
Defined.

Lemma nmap_manager_safe_witness :
  wp (ticks NmapManagerOps [mkInput (λ _ : Z, None) (mkCtx (Some 10000000%Z) None) [demo_nmap "open"] (mkSnapshot 1 0)])
     (λ r (s' : MSt Nmap Z), length r = 1 ∧ ∀ name i, instances (mgr s') !! name = Some i →
        inst_GetCurrentFSMState i ∈ known Table ∧ not_refused (lastError (backoffManager i.1)))
     (mkMSt NewBaseFSMManager 0%Z).
Proof.
  apply (nmap_manager_safe [mkInput (λ _ : Z, None) (mkCtx (Some 10000000%Z) None) [demo_nmap "open"]
                              (mkSnapshot 1 0)] 0%Z).
Defined.

Lemma nmap_reaches_open_witness :
  wp (ticks_of (Reconcile Background) (repeat (mkSnapshot 1 0) 6))
     (λ _ s', 5 ≤ 6 → base_GetCurrentFSMState (base s') = OperationalStateOpen)
     (nmap_at OperationalStateOpen LifecycleStateToBeCreated).
Proof.
  apply (nmap_reaches_open (repeat (mkSnapshot 1 0) 6)).
  - apply nmap_at_resting. by left.
  - assert (H : scans_open (W := Z) (mkSnapshot 1 0)) by (intros c n w; by exists (mkScan 0 "" "open")).
    by repeat constructor.
Defined.

Lemma nmap_stops_witness :
  wp (ticks_of (Reconcile Background) [mkSnapshot 1 0; mkSnapshot 2 0])
     (λ _ s', base_GetCurrentFSMState (base s') = OperationalStateStopped)
     (nmap_at OperationalStateStopped OperationalStateOpen).
Proof.
  apply (nmap_stops (mkSnapshot 1 0) [mkSnapshot 2 0] OperationalStateOpen).
  - by right; right; left.
  - apply nmap_at_resting, (bool_decide_unpack _). by vm_compute.
Defined.

Lemma nmap_unhealthy_alternates_witness :
  wp (ticks_of (Reconcile Background) (repeat (mkSnapshot 1 (20 * Second)) 3))
     (λ _ s', base_GetCurrentFSMState (base s') = OperationalStateOpen)
     (nmap_at OperationalStateOpen OperationalStateDegraded).
Proof.
  apply (nmap_unhealthy_alternates (repeat (mkSnapshot 1 (20 * Second)) 3)).
  - apply nmap_at_resting, (bool_decide_unpack _). by vm_compute.
  - assert (H : scans_unhealthy (W := Z) (mkSnapshot 1 (20 * Second))).
    { intros c n w. exists (mkScan 0 "" "open"). split_and!; [done|done|]. right. left. by vm_compute. }
    by repeat constructor.
Defined.
