(* ===== verification/Monitor.v ===== *)
(** * Monitor: what the four monitor instances share

    [pkg/fsm/container], [agent_monitor], [redpanda_monitor] and
    [benthos_monitor] have the same states (under different names), the same
    events and the same [reconcileOperationalStates]; they differ in how the
    observed state is refreshed, in what counts as healthy and in their actions.
    The shared part is written once here over a record of the differences, with
    the lemmas that make each instance's theorems short. *)

From S2P Require Import Prelude Float64 GoRuntime Backoff BaseFSM FSMManager Instance.

(** ** models.go *)

(** The operational states whose names differ. *)
Record MonitorStates := mkStates {
  OperationalStateStopped : string;
  OperationalStateStopping : string;
  OperationalStateStarting : string;
}.
Definition OperationalStateDegraded : string := "degraded".
Definition OperationalStateActive : string := "active".

Definition EventStart : string := "start_monitoring".
Definition EventStartDone : string := "start_monitoring_done".
Definition EventStop : string := "stop_monitoring".
Definition EventStopDone : string := "stop_monitoring_done".
Definition EventMetricsAllOK : string := "metrics_all_ok".
Definition EventMetricsNotOK : string := "metrics_not_ok".

Definition IsOperationalState (n : MonitorStates) (state : string) : bool :=
  bool_decide (state ∈ [OperationalStateStopped n; OperationalStateStopping n; OperationalStateStarting n;
                        OperationalStateDegraded; OperationalStateActive]).
Definition IsStartingState (n : MonitorStates) (state : string) : bool :=
  bool_decide (state = OperationalStateStarting n).
Definition IsRunningState (state : string) : bool :=
  bool_decide (state ∈ [OperationalStateActive; OperationalStateDegraded]).

(** [models.HealthCategory] is an int. *)
Definition Neutral : Z := 0.
Definition Active : Z := 1.
Definition Degraded : Z := 2.

(** ** machine.go *)

Definition OperationalTransitions (n : MonitorStates) : list EventDesc := [
  mkEvent EventStart [OperationalStateStopped n] (OperationalStateStarting n);
  mkEvent EventStartDone [OperationalStateStarting n] OperationalStateDegraded;
  mkEvent EventMetricsNotOK [OperationalStateActive] OperationalStateDegraded;
  mkEvent EventMetricsAllOK [OperationalStateDegraded] OperationalStateActive;
  mkEvent EventStop [OperationalStateActive; OperationalStateDegraded; OperationalStateStarting n]
    (OperationalStateStopping n);
  mkEvent EventStopDone [OperationalStateStopping n] (OperationalStateStopped n) ].

Definition baseConfig (n : MonitorStates) (name desired : string) : BaseFSMInstanceConfig :=
  mkBaseCfg name desired (OperationalStateStopped n) (OperationalStateStopped n) (OperationalTransitions n) 0.

(** The callbacks registered by [registerCallbacks] only log. *)
Definition registerCallbacks (n : MonitorStates) (b : BaseFSMInstance) : BaseFSMInstance :=
  fold_left (λ b st, AddCallback ("enter_" +:+ st) CbLog b)
    [OperationalStateStopped n; OperationalStateDegraded; OperationalStateActive;
     LifecycleStateToBeCreated; LifecycleStateCreating; LifecycleStateRemoving; LifecycleStateRemoved] b.

Definition NewMonitorBase (n : MonitorStates) (name desired : string) : BaseFSMInstance :=
  registerCallbacks n (NewBaseFSMInstance (baseConfig n name desired) DefaultConfig).

Definition SetDesiredFSMState (n : MonitorStates) (state : string) (b : BaseFSMInstance) : option GoErr * BaseFSMInstance :=
  if bool_decide (state ≠ OperationalStateActive) && bool_decide (state ≠ OperationalStateStopped n)
  then (Some (ENew ("invalid desired state: " +:+ state +:+ " (only '" +:+ OperationalStateActive +:+ "' or '"
                    +:+ OperationalStateStopped n +:+ "' allowed)")), b)
  else (None, base_SetDesiredFSMState state b).

Definition IsStopped (n : MonitorStates) (b : BaseFSMInstance) : bool :=
  bool_decide (base_GetCurrentFSMState b = OperationalStateStopped n).
Definition IsStopping (n : MonitorStates) (b : BaseFSMInstance) : bool :=
  bool_decide (base_GetCurrentFSMState b = OperationalStateStopping n).
Definition WantsToBeStopped (n : MonitorStates) (b : BaseFSMInstance) : bool :=
  bool_decide (base_GetDesiredFSMState b = OperationalStateStopped n).

(** ** reconcile.go *)

Section monitor.
Context {X W : Type} `{World W}.
Local Abbreviation M' := (M (St X W)).

(** What a monitor supplies: its states, its actions and its health check. *)
Record Monitor := mkMonitor {
  states : MonitorStates;
  CreateInstance : Ctx → M' (option GoErr);
  RemoveInstance : Ctx → M' (option GoErr);
  StartInstance : Ctx → M' (option GoErr);
  StopInstance : Ctx → M' (option GoErr);
  healthy : Z → X → bool;
}.
Implicit Types (m : Monitor).

Definition CheckForCreation (ctx : Ctx) : M' bool := mret true.

Definition reconcileTransitionToStopped m (ctx : Ctx) (currentState : string) : M' (option GoErr * bool) :=
  if bool_decide (currentState = OperationalStateStopped (states m)) then mret (None, false)
  else if bool_decide (currentState = OperationalStateStopping (states m)) then send ctx EventStopDone true
  else
    err ← StopInstance m ctx;
    match err with
    | Some e => mret (Some e, false)
    | None => send ctx EventStop true
    end.

Definition reconcileRunningStates m (ctx : Ctx) (currentState : string) (currentTime : Z) : M' (option GoErr * bool) :=
  x ← gets own;
  if bool_decide (currentState = OperationalStateActive) then
    if negb (healthy m currentTime x) then send ctx EventMetricsNotOK true else mret (None, false)
  else if bool_decide (currentState = OperationalStateDegraded) then
    if healthy m currentTime x then send ctx EventMetricsAllOK true else mret (None, false)
  else mret (Some (ENew ("invalid running state: " +:+ currentState)), false).

Definition reconcileStartingStates m (ctx : Ctx) (currentState : string) : M' (option GoErr * bool) :=
  if bool_decide (currentState = OperationalStateStarting (states m)) then send ctx EventStartDone true
  else mret (Some (ENew ("invalid starting state: " +:+ currentState)), false).

Definition reconcileTransitionToActive m (ctx : Ctx) (currentState : string) (currentTime : Z) : M' (option GoErr * bool) :=
  if bool_decide (currentState = OperationalStateStopped (states m)) then
    err ← StartInstance m ctx;
    match err with
    | Some e => mret (Some e, false)
    | None => send ctx EventStart true
    end
  else if IsStartingState (states m) currentState then reconcileStartingStates m ctx currentState
  else if IsRunningState currentState then reconcileRunningStates m ctx currentState currentTime
  else if bool_decide (currentState = OperationalStateStopping (states m))
  then reconcileTransitionToStopped m ctx currentState
  else mret (Some (ENew ("invalid current state: " +:+ currentState)), false).

Definition reconcileOperationalStates m (ctx : Ctx) (currentTime : Z) (currentState desiredState : string)
    : M' (option GoErr * bool) :=
  if bool_decide (desiredState = OperationalStateActive) then reconcileTransitionToActive m ctx currentState currentTime
  else if bool_decide (desiredState = OperationalStateStopped (states m))
  then reconcileTransitionToStopped m ctx currentState
  else mret (Some (ENew ("invalid desired state: " +:+ desiredState)), false).

(** [reconcileStateTransition] at a time given by the tick's snapshot. *)
Definition transition_at m (ctx : Ctx) (currentTime : Z) : M' (option GoErr * bool) :=
  lifecycle_or_operational (IsOperationalState (states m)) (CreateInstance m) (RemoveInstance m) CheckForCreation
    (reconcileOperationalStates m ctx currentTime) ctx.

(** [reconcileStateTransition] of the monitors that do nothing in the desired
    state, and otherwise read the clock themselves. *)
Definition transition_unless_reached m (ctx : Ctx) : M' (option GoErr * bool) :=
  b ← gets base;
  if bool_decide (base_GetCurrentFSMState b = base_GetDesiredFSMState b) then mret (None, false)
  else
    lifecycle_or_operational (IsOperationalState (states m)) (CreateInstance m) (RemoveInstance m) CheckForCreation
      (λ currentState desiredState, currentTime ← liftE clock;
         reconcileOperationalStates m ctx currentTime currentState desiredState) ctx.

End monitor.
Arguments Monitor X W : clear implicits.

(** ** The table *)

Definition Table (n : MonitorStates) : Instance.Table :=
  mkTable (transitions (fsm (NewMonitorBase n "" ""))) (OperationalStateStopped n)
    [LifecycleStateToBeCreated; LifecycleStateCreating; LifecycleStateRemoving; LifecycleStateRemoved;
     OperationalStateStopped n; OperationalStateStopping n; OperationalStateStarting n;
     OperationalStateDegraded; OperationalStateActive].

(** The transitions the monitors rely on. *)
Definition monitor_moves (n : MonitorStates) : list (string * string * string) :=
  [(EventStart, OperationalStateStopped n, OperationalStateStarting n);
   (EventStartDone, OperationalStateStarting n, OperationalStateDegraded);
   (EventMetricsNotOK, OperationalStateActive, OperationalStateDegraded);
   (EventMetricsAllOK, OperationalStateDegraded, OperationalStateActive);
   (EventStop, OperationalStateActive, OperationalStateStopping n);
   (EventStop, OperationalStateDegraded, OperationalStateStopping n);
   (EventStop, OperationalStateStarting n, OperationalStateStopping n);
   (EventStopDone, OperationalStateStopping n, OperationalStateStopped n);
   (LifecycleEventCreate, LifecycleStateToBeCreated, LifecycleStateCreating);
   (LifecycleEventCreateDone, LifecycleStateCreating, OperationalStateStopped n)].

(** The names are distinct and the table has the moves. *)
Definition states_ok (n : MonitorStates) : Prop :=
  table_ok (Table n) ∧ NoDup (known (Table n)) ∧
  Forall (λ kv, tbl (Table n) !! kv.1 = Some kv.2 ∧ kv.2 ≠ kv.1.2) (monitor_moves n).

#[export] Instance states_ok_dec n : Decision (states_ok n).
Proof. unfold states_ok. apply _. Defined.

(** Every action returns, leaves the instance alone and gives no refusal. *)
Record monitor_ok {X W} (m : Monitor X W) : Prop := {
  mo_states : states_ok (states m);
  mo_Create c : action_ok not_refused (CreateInstance m c);
  mo_Remove c : action_ok not_refused (RemoveInstance m c);
  mo_Start c : action_ok not_refused (StartInstance m c);
  mo_Stop c : action_ok not_refused (StopInstance m c);
}.

Section invariant.
Context {X W : Type} `{World W}.
Context (m : Monitor X W) (Hm : monitor_ok m) (OI : X → Prop).
Implicit Types (s : St X W).
Local Abbreviation T := (Table (states m)).
Local Abbreviation inv := (sinv T OI).

Lemma move ev st st' :
  (ev, st, st') ∈ monitor_moves (states m) → tbl T !! (ev, st) = Some st' ∧ st' ≠ st.
Proof.
  intros Hin. destruct (mo_states m Hm) as (_ & _ & Hmv). rewrite Forall_forall in Hmv. by apply (Hmv _ Hin).
Qed.

Local Lemma move_allowed ev st st' : (ev, st, st') ∈ monitor_moves (states m) → allowed T ev st = true.
Proof. intros [E Hne]%move. unfold allowed. rewrite E. by apply bool_decide_eq_true. Qed.

Lemma send_move ctx ev st' r s :
  inv s → (ev, current (fsm (base s)), st') ∈ monitor_moves (states m) →
  wp (send ctx ev r) (λ r s', inv s' ∧ not_refused r.1) s.
Proof.
  intros Hs Hin. apply (wp_send T (proj1 (mo_states m Hm)) OI); [done|by eapply move_allowed|done].
Qed.

Lemma act_send_move ctx act ev st' r s :
  action_ok not_refused act → inv s → (ev, current (fsm (base s)), st') ∈ monitor_moves (states m) →
  wp (err ← act; match err with Some e => mret (Some e, false) | None => send ctx ev r end)
     (λ r s', inv s' ∧ not_refused r.1) s.
Proof.
  intros Ha Hs Hin. apply wp_bind. eapply wp_mono; [by apply (action_inv T OI _ _ _ Ha)|].
  intros [e|] s' (Hs' & Eb & He); [by apply wp_ret|]. eapply send_move; [done|]. by rewrite Eb.
Qed.

Local Ltac ret := apply wp_ret; split; [done|simpl; solve [auto with umh]].
Local Ltac in_moves := rewrite ?elem_of_cons; tauto.

Lemma stopped_ok ctx s :
  inv s → IsOperationalState (states m) (current (fsm (base s))) = true →
  wp (reconcileTransitionToStopped m ctx (current (fsm (base s)))) (λ r s', inv s' ∧ not_refused r.1) s.
Proof.
  intros Hs Ho. apply bool_decide_eq_true in Ho. rewrite !elem_of_cons, elem_of_nil in Ho.
  unfold reconcileTransitionToStopped. case_bool_decide as E1; [ret|]. case_bool_decide as E2.
  - eapply send_move; [done|]. rewrite E2. unfold monitor_moves. in_moves.
  - eapply act_send_move; [apply mo_Stop, Hm|done|]. unfold monitor_moves.
    destruct Ho as [E|[E|[E|[E|[E|[]]]]]]; [done|done|rewrite E; in_moves..].
Qed.

Lemma running_ok ctx t s :
  inv s → IsRunningState (current (fsm (base s))) = true →
  wp (reconcileRunningStates m ctx (current (fsm (base s))) t) (λ r s', inv s' ∧ not_refused r.1) s.
Proof.
  intros Hs _. apply wp_bind, wp_gets. case_bool_decide as E1; [|case_bool_decide as E2; [|ret]].
  - destruct (negb _); [|ret]. eapply send_move; [done|]. rewrite E1. unfold monitor_moves. in_moves.
  - destruct (healthy _ _ _); [|ret]. eapply send_move; [done|]. rewrite E2. unfold monitor_moves. in_moves.
Qed.

Lemma active_ok ctx t s :
  inv s → IsOperationalState (states m) (current (fsm (base s))) = true →
  wp (reconcileTransitionToActive m ctx (current (fsm (base s))) t) (λ r s', inv s' ∧ not_refused r.1) s.
Proof.
  intros Hs Ho. unfold reconcileTransitionToActive, IsStartingState. case_bool_decide as E1.
  { eapply act_send_move; [apply mo_Start, Hm|done|]. rewrite E1. unfold monitor_moves. in_moves. }
  case_bool_decide as E2.
  { unfold reconcileStartingStates. rewrite bool_decide_true by done. eapply send_move; [done|].
    rewrite E2. unfold monitor_moves. in_moves. }
  destruct (IsRunningState _) eqn:Er; [by apply running_ok|].
  case_bool_decide; [by apply stopped_ok|ret].
Qed.

Lemma operational_ok ctx t s :
  inv s → IsOperationalState (states m) (current (fsm (base s))) = true →
  wp (reconcileOperationalStates m ctx t (current (fsm (base s))) (base_GetDesiredFSMState (base s)))
     (λ r s', inv s' ∧ not_refused r.1) s.
Proof.
  intros Hs Ho. unfold reconcileOperationalStates. repeat case_bool_decide.
  - by apply active_ok.
  - by apply stopped_ok.
  - ret.
Qed.

(** Both forms of [reconcileStateTransition] keep the invariant. *)
Lemma transition_at_ok ctx t : keeps T OI (λ r, not_refused r.1) (transition_at m ctx t).
Proof.
  apply keeps_lifecycle_or_operational; [apply (mo_states m Hm)|apply mo_Create, Hm|apply mo_Remove, Hm|..].
  - intros c s. by apply wp_ret.
  - intros s Hs Ho. by apply operational_ok.
Qed.

Lemma transition_unless_reached_ok ctx : keeps T OI (λ r, not_refused r.1) (transition_unless_reached m ctx).
Proof.
  apply keeps_gets_base; intros b _. destruct (bool_decide _); [by apply keeps_ret|].
  apply keeps_lifecycle_or_operational; [apply (mo_states m Hm)|apply mo_Create, Hm|apply mo_Remove, Hm|..].
  - intros c s. by apply wp_ret.
  - intros s [Hb Ho] Hop. apply wp_bind, wp_liftE. intros t w _.
    apply (operational_ok ctx t (mkSt (base s) (own s) w)); [done|done].
Qed.

End invariant.

(** ** Undisturbed ticks *)

(** One tick towards [active], with the health the tick sees. *)
Definition next_active (n : MonitorStates) (hlt : bool) (st : string) : string :=
  if bool_decide (st = LifecycleStateToBeCreated) then LifecycleStateCreating
  else if bool_decide (st = LifecycleStateCreating) then OperationalStateStopped n
  else if bool_decide (st = OperationalStateStopped n) then OperationalStateStarting n
  else if bool_decide (st = OperationalStateStarting n) then OperationalStateDegraded
  else if bool_decide (st = OperationalStateStopping n) then OperationalStateStopped n
  else if hlt then OperationalStateActive else OperationalStateDegraded.
(** The same for the monitors that do nothing in the desired state. *)
Definition next_active_unless_reached (n : MonitorStates) (hlt : bool) (st : string) : string :=
  if bool_decide (st = OperationalStateActive) then OperationalStateActive else next_active n hlt st.

(** The states from which a tick leads towards [active]. *)
Definition path_states (n : MonitorStates) : list string :=
  [LifecycleStateToBeCreated; LifecycleStateCreating; OperationalStateStopped n; OperationalStateStarting n;
   OperationalStateStopping n; OperationalStateDegraded; OperationalStateActive].

(** Creation, start and stop succeed. *)
Record cooperates {X W} (m : Monitor X W) : Prop := {
  co_Create : idle_ok (λ e, e = None) (CreateInstance m Background);
  co_Start : idle_ok (λ e, e = None) (StartInstance m Background);
  co_Stop : idle_ok (λ e, e = None) (StopInstance m Background);
}.

Section calm.
Context {X W : Type} `{World W} `{!PromptClock W}.
Context (m : Monitor X W) (Hm : monitor_ok m) (Hc : cooperates m) (OI : X → Prop).
Implicit Types (s : St X W).
Local Abbreviation n := (states m).
Local Abbreviation T := (Table (states m)).

Lemma names_distinct : NoDup (known T).
Proof. apply (mo_states m Hm). Qed.

Local Ltac distinct :=
  let H := fresh in pose proof names_distinct as H;
  cbn [known Table] in H; rewrite !NoDup_cons, !not_elem_of_cons in H; destruct_and! H.
Local Ltac names :=
  repeat first [rewrite bool_decide_true by done | rewrite bool_decide_false by congruence].

(** Where the next state lies. *)
Lemma next_active_path hlt st : next_active n hlt st ∈ path_states n.
Proof.
  unfold next_active, path_states. rewrite !elem_of_cons. repeat case_bool_decide; try tauto.
  destruct hlt; tauto.
Qed.

Lemma next_unless_path hlt st : next_active_unless_reached n hlt st ∈ path_states n.
Proof.
  unfold next_active_unless_reached. case_bool_decide; [|apply next_active_path].
  unfold path_states. rewrite !elem_of_cons. tauto.
Qed.

Lemma path_known st : st ∈ path_states n → st ∈ known T.
Proof. unfold path_states. simpl. rewrite !elem_of_cons, elem_of_nil. tauto. Qed.

(** An operational step towards [active]. *)
Lemma operational_active t hlt st s0 s1 :
  resting T OI OperationalStateActive st s0 → base s1 = base s0 → healthy m t (own s1) = hlt →
  IsOperationalState n st = true →
  wp (reconcileOperationalStates m Background t st OperationalStateActive)
     (λ p s2, p.1 = None ∧ own s2 = own s1 ∧ base s2 = at_state (next_active n hlt st) (base s0)) s1.
Proof.
  intros Hr Eb Eh Hst. apply bool_decide_eq_true in Hst. rewrite !elem_of_cons, elem_of_nil in Hst.
  unfold reconcileOperationalStates. rewrite bool_decide_true by done. distinct.
  assert (Hsend : ∀ ev st', (ev, st, st') ∈ monitor_moves n → next_active n hlt st = st' →
    wp (send Background ev true)
     (λ p s2, p.1 = None ∧ own s2 = own s1 ∧ base s2 = at_state (next_active n hlt st) (base s0)) s1).
  { intros ev st' [Ht Hne]%(move m Hm) ->. by eapply send_resting. }
  assert (Hstay : next_active n hlt st = st → wp (mret (None, false) : M (St X W) (option GoErr * bool))
     (λ p s2, p.1 = None ∧ own s2 = own s1 ∧ base s2 = at_state (next_active n hlt st) (base s0)) s1).
  { intros ->. by eapply stay_resting. }
  assert (Hmem : ∀ k mv, monitor_moves n !! k = Some mv → mv ∈ monitor_moves n).
  { intros k mv. apply list_elem_of_lookup_2. }
  destruct Hst as [->|[->|[->|[->|[->|[]]]]]]; unfold reconcileTransitionToActive, IsStartingState, IsRunningState.
  - names. edestruct (move m Hm) as [Ht Hne]; [by apply (Hmem 0)|].
    unfold next_active. names. eapply act_send_resting; [done|done|apply Hc|done|done].
  - names. unfold IsRunningState. rewrite bool_decide_false by (rewrite !elem_of_cons, elem_of_nil; intuition congruence).
    names. unfold reconcileTransitionToStopped. names.
    eapply Hsend; [by apply (Hmem 7)|]. unfold next_active. by names.
  - names. unfold reconcileStartingStates. names. eapply Hsend; [by apply (Hmem 1)|]. unfold next_active. by names.
  - names. rewrite (bool_decide_true (_ ∈ _)) by (right; left).
    apply wp_bind, wp_gets. names. rewrite Eh.
    destruct hlt; [eapply Hsend; [by apply (Hmem 3)|]|apply Hstay]; unfold next_active; by names.
  - names. rewrite (bool_decide_true (_ ∈ _)) by left.
    apply wp_bind, wp_gets. names. rewrite Eh.
    destruct hlt; simpl; [apply Hstay|eapply Hsend; [by apply (Hmem 2)|]]; unfold next_active; by names.
Qed.

Lemma operational_not_lifecycle st : IsOperationalState n st = true → IsLifecycleState st = false.
Proof.
  intros Hst%bool_decide_eq_true. apply bool_decide_eq_false. rewrite !elem_of_cons, elem_of_nil in *. distinct.
  intros [E|[E|[E|[E|[]]]]]; subst st; intuition congruence.
Qed.

(** A step of the state machine, whatever its operational part, as long as that
    part takes the instance to [next]. *)
Lemma steps_via op desired next st s0 s1 :
  resting T OI desired st s0 → base s1 = base s0 → st ∈ path_states n →
  (st = LifecycleStateToBeCreated → next = LifecycleStateCreating) →
  (st = LifecycleStateCreating → next = OperationalStateStopped n) →
  (IsOperationalState n st = true →
   wp (op st desired) (λ p s2, p.1 = None ∧ own s2 = own s1 ∧ base s2 = at_state next (base s0)) s1) →
  steps_to st next (base s0)
    (lifecycle_or_operational (IsOperationalState n) (CreateInstance m) (RemoveInstance m) CheckForCreation op Background) s1.
Proof.
  intros Hr Eb Hst H1 H2 Hop. destruct (mo_states m Hm) as (HT & _ & _).
  assert (Hcr : ∀ ev st', (st, ev) ∈ [(LifecycleStateToBeCreated, LifecycleEventCreate);
      (LifecycleStateCreating, LifecycleEventCreateDone)] → (ev, st, st') ∈ monitor_moves n → next = st' →
    steps_to st next (base s0)
      (lifecycle_or_operational (IsOperationalState n) (CreateInstance m) (RemoveInstance m) CheckForCreation op Background) s1).
  { intros ev st' Hin [Ht Hne]%(move m Hm) ->. eapply (create_resting T OI); [done|done|exact Hin|apply idle_ok_on, Hc|by apply idle_ok_on, idle_ret|done|done]. }
  unfold path_states in Hst. rewrite !elem_of_cons, elem_of_nil in Hst.
  assert (Hother : IsOperationalState n st = true → steps_to st next (base s0)
      (lifecycle_or_operational (IsOperationalState n) (CreateInstance m) (RemoveInstance m) CheckForCreation op Background) s1).
  { intros Ho. eapply (operational_step T OI); [done|done|by apply operational_not_lifecycle|done|by apply Hop]. }
  destruct Hst as [->|[->|[->|[->|[->|[->|[->|[]]]]]]]].
  - apply (Hcr LifecycleEventCreate LifecycleStateCreating); [by left|unfold monitor_moves; rewrite !elem_of_cons; tauto|by apply H1].
  - apply (Hcr LifecycleEventCreateDone (OperationalStateStopped n));
      [by right; left|unfold monitor_moves; rewrite !elem_of_cons; tauto|by apply H2].
  - apply Hother, bool_decide_eq_true. rewrite !elem_of_cons. tauto.
  - apply Hother, bool_decide_eq_true. rewrite !elem_of_cons. tauto.
  - apply Hother, bool_decide_eq_true. rewrite !elem_of_cons. tauto.
  - apply Hother, bool_decide_eq_true. rewrite !elem_of_cons. tauto.
  - apply Hother, bool_decide_eq_true. rewrite !elem_of_cons. tauto.
Qed.

Lemma steps_active_at t hlt st s0 s1 :
  resting T OI OperationalStateActive st s0 → base s1 = base s0 → healthy m t (own s1) = hlt → st ∈ path_states n →
  steps_to st (next_active n hlt st) (base s0) (transition_at m Background t) s1.
Proof.
  intros Hr Eb Eh Hst. apply (steps_via _ OperationalStateActive); [done..|by intros ->|by intros ->|].
  intros Ho. by apply operational_active.
Qed.

Lemma steps_active_unless_reached hlt st s0 s1 :
  resting T OI OperationalStateActive st s0 → base s1 = base s0 → (∀ t, healthy m t (own s1) = hlt) →
  st ∈ path_states n →
  steps_to st (next_active_unless_reached n hlt st) (base s0) (transition_unless_reached m Background) s1.
Proof.
  intros Hr Eb Eh Hst. apply wp_bind, wp_gets. unfold next_active_unless_reached, base_GetCurrentFSMState.
  rewrite Eb, (rest_state _ _ _ _ _ Hr), (rest_desired _ _ _ _ _ Hr). case_bool_decide as E.
  { apply wp_ret. do 2 (split; [done|]). left. rewrite Eb. symmetry. apply at_state_id. by rewrite (rest_state _ _ _ _ _ Hr), E. }
  apply (steps_via _ OperationalStateActive); [done..|by intros ->|by intros ->|].
  intros Ho. apply wp_bind, wp_liftE. intros t w _. apply (operational_active t hlt st s0 (mkSt (base s1) (own s1) w)); [done..|apply Eh|done].
Qed.

(** *** Whole ticks *)

Context (h : Handlers X W) (Hman : ∀ snap, idle_ok (λ r, r.1 = None) (reconcileManager h Background snap)).

(** Refreshing the observed state succeeds and shows [P]. *)
Definition refreshes (P : X → Prop) (snap : Snapshot) : Prop :=
  ∀ st s w, resting T OI OperationalStateActive st s →
    wp (externalChanges h Background snap)
       (λ e s1, e = None ∧ base s1 = base s ∧ OI (own s1) ∧ P (own s1)) (mkSt (base s) (own s) w).

(** A tick whose health counts at the snapshot's time. *)
Lemma tick_at hlt st snap s :
  stateTransition h Background snap = transition_at m Background (SnapshotTime snap) →
  refreshes (λ x, healthy m (SnapshotTime snap) x = hlt) snap → st ∈ path_states n →
  resting T OI OperationalStateActive st s →
  wp (instance_Reconcile h Background snap) (λ _ s', resting T OI OperationalStateActive (next_active n hlt st) s') s.
Proof.
  intros Htr Hrf Hst Hr.
  eapply wp_mono; [eapply (tick_calm T OI (λ x, healthy m (SnapshotTime snap) x = hlt) h OperationalStateActive st (next_active n hlt st));
    [exact Hr|apply path_known, next_active_path|intros w; by apply (Hrf st)| |apply Hman]|by intros r s' []].
  intros s1 Eb _ Hh. rewrite Htr. by apply steps_active_at.
Qed.

(** Ticks of a monitor that does nothing in the desired state: it becomes active
    when it is healthy, and stays active even when it is not. *)
Lemma ticks_unless_reached snaps st s :
  (∀ c snap, stateTransition h c snap = transition_unless_reached m c) →
  Forall (refreshes (λ x, ∀ t, healthy m t x = true)) snaps → st ∈ path_states n →
  resting T OI OperationalStateActive st s →
  wp (ticks_of (instance_Reconcile h Background) snaps)
     (λ _ s', resting T OI OperationalStateActive
        (Nat.iter (length snaps) (next_active_unless_reached n true) st) s') s.
Proof.
  intros Htr Hg Hst Hr. eapply (ticks_resting T OI _ (λ st, st ∈ path_states n)); [|..|exact Hg|done|exact Hr].
  - clear dependent s st. intros snap st s Hrf Hst Hr.
    eapply wp_mono; [eapply (tick_calm T OI (λ x, ∀ t, healthy m t x = true) h OperationalStateActive st
      (next_active_unless_reached n true st));
      [exact Hr|apply path_known, next_unless_path|intros w; by apply (Hrf st)| |apply Hman]|by intros r s' []].
    intros s1 Eb _ Hh. rewrite Htr. by apply steps_active_unless_reached.
  - intros st' _. apply next_unless_path.
Qed.

Lemma ticks_stay_active snaps s :
  (∀ c snap, stateTransition h c snap = transition_unless_reached m c) → Forall (refreshes (λ _, True)) snaps →
  resting T OI OperationalStateActive OperationalStateActive s →
  wp (ticks_of (instance_Reconcile h Background) snaps)
     (λ _ s', resting T OI OperationalStateActive OperationalStateActive s') s.
Proof.
  intros Htr Hg Hr. eapply wp_mono; [eapply (ticks_resting T OI id (λ st, st = OperationalStateActive));
    [|done|exact Hg|done|exact Hr]|].
  - clear dependent s. intros snap st s Hrf -> Hr.
    eapply wp_mono; [eapply (tick_calm T OI (λ _, True) h OperationalStateActive _ OperationalStateActive);
      [exact Hr|apply path_known|intros w; by apply (Hrf OperationalStateActive)| |apply Hman]|by intros r s' []].
    + unfold path_states. rewrite !elem_of_cons. tauto.
    + intros s1 Eb _ _. rewrite Htr. apply wp_bind, wp_gets. unfold base_GetCurrentFSMState.
      rewrite Eb, (rest_state _ _ _ _ _ Hr), (rest_desired _ _ _ _ _ Hr), bool_decide_true by done.
      apply wp_ret. do 2 (split; [done|]). left. rewrite Eb. symmetry. apply at_state_id, Hr.
  - intros r s' Hs'. assert (E : Nat.iter (length snaps) id OperationalStateActive = OperationalStateActive)
      by (by apply (iter_settles _ 0); [lia|..]). by rewrite E in Hs'.
Qed.

(** Five ticks lead from creation to [active]. *)
Lemma five_ticks k : 5 ≤ k →
  Nat.iter k (next_active_unless_reached n true) LifecycleStateToBeCreated = OperationalStateActive.
Proof.
  intros Hk. apply (iter_settles _ 5); [done| |done]. distinct. set (f := next_active_unless_reached n true).
  assert (f LifecycleStateToBeCreated = LifecycleStateCreating ∧ f LifecycleStateCreating = OperationalStateStopped n ∧
    f (OperationalStateStopped n) = OperationalStateStarting n ∧
    f (OperationalStateStarting n) = OperationalStateDegraded ∧
    f OperationalStateDegraded = OperationalStateActive) as (E1 & E2 & E3 & E4 & E5).
  { unfold f, next_active_unless_reached, next_active. split_and!; by names. }
  cbn [Nat.iter nat_rect]. by rewrite E1, E2, E3, E4, E5.
Qed.
End calm.

(** ** The manager's view *)

(** A new monitor satisfies the invariant. *)
Lemma NewMonitorBase_inv n name desired : inst_inv (Table n) (NewMonitorBase n name desired).
Proof. apply NewBase_inv; [done|done|by left]. Qed.

Lemma SetDesired_inv n d b : inst_inv (Table n) b → inst_inv (Table n) (SetDesiredFSMState n d b).2.
Proof. intros Hb. unfold SetDesiredFSMState. destruct (_ && _); [done|by apply inst_inv_desired]. Qed.

Lemma SetDesired_state n d b : current (fsm (SetDesiredFSMState n d b).2) = current (fsm b).
Proof. unfold SetDesiredFSMState. by destruct (_ && _). Qed.

(** A new monitor placed in a state rests there. *)
Definition monitor_at {X} (n : MonitorStates) (desired st : string) (x : X) : St X Z :=
  mkSt (at_state st (NewMonitorBase n "m" desired)) x 0%Z.

Lemma monitor_at_resting {X} n desired st (x : X) (OI : X → Prop) :
  st ∈ known (Table n) → OI x → resting (Table n) OI desired st (monitor_at n desired st x).
Proof.
  intros Hst Hx. split; try done.
  - apply inst_inv_at; [apply NewMonitorBase_inv|done].
  - intros st'. unfold monitor_at. cbn [base]. rewrite armed_at_state. apply NewBase_unarmed.
Qed.
