(* ===== verification/Container.v ===== *)
(** * Container: the container monitor (pkg/fsm/container)

    Models [models.go], [machine.go], [actions.go], [reconcile.go] and the
    functions [manager.go] injects into the generic manager, over the shared
    monitor of [Monitor.v].  The service ([pkg/service/container_monitor],
    interface [Service]) is a type class. *)

From S2P Require Import Prelude Float64 GoRuntime Backoff BaseFSM FSMManager Instance Monitor.

(** ** models.go, pkg/config, pkg/models *)

Definition states : MonitorStates := mkStates "monitoring_stopped" "monitoring_stopping" "monitoring_starting".
Definition OperationalStateStopped : string := Monitor.OperationalStateStopped states.
Definition IsOperationalState : string → bool := Monitor.IsOperationalState states.
Definition IsStartingState : string → bool := Monitor.IsStartingState states.
Definition IsRunningState : string → bool := Monitor.IsRunningState.

Record ContainerConfig := mkContainerConfig { Name : string; DesiredFSMState : string }.

(** The field of [container_monitor.ServiceInfo] the instance reads (the others
    are only printed). *)
Record ServiceInfo := mkServiceInfo { OverallHealth : Z }.

(** The fields of [ContainerInstance] besides the base instance and the service;
    [ObservedServiceInfo] is [ObservedState.ServiceInfo], a pointer. *)
Record ContainerInstance := mkContainer { config : ContainerConfig; ObservedServiceInfo : option ServiceInfo }.

Definition set_info (i : option ServiceInfo) (c : ContainerInstance) : ContainerInstance := mkContainer (config c) i.

(** [container_monitor.Service]; a nil status may come without an error. *)
Class ContainerService (W : Type) := { GetStatus : Ctx → W → (option ServiceInfo * option GoErr) * W }.

(** What the instance relies on: no error is the refusal of one of its own events. *)
Class ContainerServiceLaws (W : Type) `{ContainerService W} := {
  GetStatus_err c w : not_refused (GetStatus c w).1.2;
}.

(** ** machine.go *)

Definition ContainerUpdateObservedStateTimeout : Z := 10 * Millisecond.

Definition NewContainerInstanceWithService (c : ContainerConfig) : BaseFSMInstance * ContainerInstance :=
  (NewMonitorBase states (Name c) (DesiredFSMState c), mkContainer c None).

Definition SetDesiredFSMState : string → BaseFSMInstance → option GoErr * BaseFSMInstance :=
  Monitor.SetDesiredFSMState states.
Definition IsStopped : BaseFSMInstance → bool := Monitor.IsStopped states.
Definition IsStopping : BaseFSMInstance → bool := Monitor.IsStopping states.
Definition WantsToBeStopped : BaseFSMInstance → bool := Monitor.WantsToBeStopped states.

Definition registerCallbacks : BaseFSMInstance → BaseFSMInstance := Monitor.registerCallbacks states.

(** ** actions.go *)

Section container.
Context {W : Type} `{World W} `{ContainerService W}.
Local Abbreviation M' := (M (St ContainerInstance W)).

(** The four actions only log. *)
Definition CreateInstance (ctx : Ctx) : M' (option GoErr) := mret None.
Definition RemoveInstance (ctx : Ctx) : M' (option GoErr) := mret None.
Definition StartInstance (ctx : Ctx) : M' (option GoErr) := mret None.
Definition StopInstance (ctx : Ctx) : M' (option GoErr) := mret None.

Definition UpdateObservedStateOfInstance (ctx : Ctx) (snapshot : Snapshot) : M' (option GoErr) :=
  e ← liftE (ctx_Err ctx);
  match e with
  | Some err =>
      handled ← IsDeadlineExceededAndHandle err (Tick snapshot);
      if handled : bool then mret None else mret (Some err)
  | None =>
      b ← gets base;
      if bool_decide (base_GetDesiredFSMState b = OperationalStateStopped)
         && bool_decide (base_GetCurrentFSMState b = OperationalStateStopped)
      then mret None
      else
        '(status, err) ← liftE (GetStatus ctx);
        match err with
        | Some e => mret (Some (EWrap "failed to get container metrics: " e))
        | None => _ ← on_own (set_info status); mret None
        end
  end.

Definition areAllMetricsHealthy (c : ContainerInstance) : bool :=
  match ObservedServiceInfo c with
  | None => false
  | Some status => bool_decide (OverallHealth status = Active)
  end.

(** ** reconcile.go *)

Definition monitor : Monitor ContainerInstance W :=
  mkMonitor states CreateInstance RemoveInstance StartInstance StopInstance (λ _, areAllMetricsHealthy).

Definition reconcileTransitionToStopped : Ctx → string → M' (option GoErr * bool) :=
  Monitor.reconcileTransitionToStopped monitor.
Definition reconcileStartingStates : Ctx → string → M' (option GoErr * bool) :=
  Monitor.reconcileStartingStates monitor.
Definition reconcileRunningStates : Ctx → string → Z → M' (option GoErr * bool) :=
  Monitor.reconcileRunningStates monitor.
Definition reconcileTransitionToActive : Ctx → string → Z → M' (option GoErr * bool) :=
  Monitor.reconcileTransitionToActive monitor.
Definition reconcileOperationalStates : Ctx → Z → string → string → M' (option GoErr * bool) :=
  Monitor.reconcileOperationalStates monitor.
Definition reconcileStateTransition : Ctx → M' (option GoErr * bool) := transition_unless_reached monitor.

Definition reconcileExternalChanges : Ctx → Snapshot → M' (option GoErr) :=
  external_changes ContainerUpdateObservedStateTimeout UpdateObservedStateOfInstance.

Definition inShutdown : M' bool :=
  b ← gets base;
  mret (IsRemoved b || IsRemoving b || IsStopping b || IsStopped b || WantsToBeStopped b).

(** There is nothing to remove by force: the permanent failure is passed on
    ([fmt.Errorf] with a nil [%w] operand still makes an error). *)
Definition forceRemove (backErr : option GoErr) (ctx : Ctx) : M' (option GoErr) :=
  mret (Some match backErr with
             | Some e => EWrap (PermanentFailureError +:+ " : ") e
             | None => ENew (PermanentFailureError +:+ " : %!w(<nil>)")
             end).

Definition handlers : Handlers ContainerInstance W := {|
  onPermanentError := permanent_with inShutdown forceRemove;
  externalChanges := reconcileExternalChanges;
  stateTransition ctx _ := reconcileStateTransition ctx;
  reconcileManager _ _ := mret (None, false);
|}.

Definition Reconcile : Ctx → Snapshot → M' (option GoErr * bool) := instance_Reconcile handlers.
End container.

(** ** manager.go: what is injected into the generic manager *)

Definition Container : Type := BaseFSMInstance * ContainerInstance.

Definition DefaultInstanceName : string := "Core".

(** [NewContainerManager] ignores the configuration it is given. *)
Definition ContainerManagerOps {FullConfig : Type} : ManagerOps FullConfig ContainerConfig Container := {|
  extractConfigs _ := ([mkContainerConfig DefaultInstanceName OperationalStateActive], None);
  getName c := (Name c, None);
  getDesiredState c := (DesiredFSMState c, None);
  createInstance c := (Some (NewContainerInstanceWithService c), None);
  compareConfig i c := (bool_decide (DesiredFSMState (config i.2) = DesiredFSMState c), None);
  setConfig i c := (None, (i.1, mkContainer c (ObservedServiceInfo i.2)));
  getMinimumRequiredTime i := (ContainerUpdateObservedStateTimeout, None);
|}.

Local Abbreviation Table := (Monitor.Table states).
Definition own_ok (c : ContainerInstance) : Prop := True.

Lemma container_states_ok : states_ok states.
Proof. apply (bool_decide_unpack _). by vm_compute. Qed.

Section invariant.
Context {W : Type} `{World W} `{ContainerService W} `{!ContainerServiceLaws W}.

Lemma container_monitor_ok : Monitor.monitor_ok (monitor (W := W)).
Proof. split; [apply container_states_ok|..]; intros c s; by apply wp_ret. Qed.

Lemma container_update_ok ctx snap :
  keeps Table own_ok not_refused (UpdateObservedStateOfInstance (W := W) ctx snap).
Proof.
  apply keeps_context_check, keeps_gets_base. intros b _. destruct (_ && _); [by apply keeps_ret|].
  eapply (keeps_bind _ _ (λ r, not_refused r.2)); [apply keeps_liftE; intros; apply GetStatus_err|].
  intros [status [e|]] He; [apply keeps_ret; auto with umh|].
  eapply keeps_bind; [by apply keeps_on_own|]. intros _ _. by apply keeps_ret.
Qed.

Lemma container_handlers_ok : Instance.handlers_ok Table own_ok (handlers (W := W)).
Proof.
  split.
  - apply permanent_with_ok; [apply container_states_ok|..].
    + intros s. apply wp_bind, wp_gets. by apply wp_ret.
    + intros e c s. by apply wp_ret.
  - intros c snap. apply external_changes_ok. intros. apply container_update_ok.
  - intros c snap. apply (transition_unless_reached_ok _ container_monitor_ok).
  - intros c snap. by apply keeps_ret.
Qed.

#[export] Instance Container_FSMInstance : FSMInstance Container W := pair_FSMInstance SetDesiredFSMState Reconcile.
#[export] Instance Container_inv : InstanceInv Container := pair_inv Table own_ok.

#[export] Instance ContainerManagerOps_laws {FullConfig} : ManagerOpsLaws (@ContainerManagerOps FullConfig).
Proof.
  split.
  - intros c i [= <-]. split; [apply NewMonitorBase_inv|done].
  - by intros [b n] c [Hb Hn].
Qed.

#[export] Instance Container_laws : FSMInstanceLaws Container W.
Proof.
  apply (pair_FSMInstanceLaws Table own_ok); [apply container_states_ok|apply container_handlers_ok|apply SetDesired_inv|apply SetDesired_state].
Qed.
End invariant.

(** ** Undisturbed ticks *)

(** The service answers. *)
Class Answers (W : Type) `{ContainerService W} := { answers c w : (GetStatus c w).1.2 = None }.

(** The service reports health. *)
Definition reports_health `{ContainerService W} : Prop :=
  ∀ c w cfg, areAllMetricsHealthy (mkContainer cfg (GetStatus (W := W) c w).1.1) = true.

Local Abbreviation resting := (resting Table own_ok).

Section progress.
Context {W : Type} `{World W} `{!PromptClock W} `{ContainerService W} `{!ContainerServiceLaws W} `{!Answers W}.
Implicit Types (s : St ContainerInstance W).

Lemma container_cooperates : cooperates (monitor (W := W)).
Proof. split; by apply idle_ret. Qed.

(** Refreshing the observed state of an instance wanted active shows what the
    service reports. *)
Lemma container_external_calm (P : ContainerInstance → Prop) snap :
  (∀ c w cfg, P (mkContainer cfg (GetStatus (W := W) c w).1.1)) →
  refreshes (monitor (W := W)) own_ok handlers P snap.
Proof.
  intros HP st s w Hr. apply wp_external_context; [unfold ContainerUpdateObservedStateTimeout, Millisecond; lia|].
  intros c w1 Hu. apply wp_bind, wp_bind, wp_liftE. cbn [env base own]. intros e w2 He.
  rewrite He in Hu. simpl in Hu. subst e. apply wp_bind, wp_gets. cbn [base].
  rewrite (rest_desired _ _ _ _ _ Hr), bool_decide_false by done. simpl.
  apply wp_bind, (wp_liftE_ok _ (λ r, r.2 = None ∧ ∀ cfg, P (mkContainer cfg r.1)));
    [intros; split; [apply answers|apply HP]|].
  intros [status e] w3 [E Hs]. simpl in E, Hs. subst e.
  apply wp_bind, wp_modify, wp_ret, wp_ret. split_and!; [done..|apply Hs].
Qed.
End progress.

(** ** Properties *)

Section properties.
Context {W : Type} `{World W} `{ContainerService W} `{!ContainerServiceLaws W}.

(** The generic manager of the container monitor never panics, whatever it is
    given: every tick returns, and its instance is in one of the monitor's
    states and has recorded no refused event. *)
Theorem container_manager_safe `{MapOrder W} {FullConfig} (l : list (Input (W := W) (FullConfig := FullConfig))) w :
  wp (ticks ContainerManagerOps l)
     (λ r (s' : MSt Container W), length r = length l ∧ ∀ name i, instances (mgr s') !! name = Some i →
        base_GetCurrentFSMState i.1 ∈ known (Monitor.Table states) ∧ not_refused (lastError (backoffManager i.1)))
     (mkMSt NewBaseFSMManager w).
Proof.
  eapply wp_mono; [by apply (wp_ticks_ok ContainerManagerOps l)|]. intros r s' [Hl Hm]. split; [done|].
  intros name i Hi. apply Hm in Hi as [Hb _]. split; apply Hb.
Qed.

(** Progress: a container monitor that is to be created and wanted active is
    [active] after five undisturbed ticks of a service that reports health. *)
Theorem container_reaches_active `{!PromptClock W} `{!Answers W} snaps (s : St ContainerInstance W) :
  reports_health (W := W) → 5 ≤ length snaps →
  resting OperationalStateActive LifecycleStateToBeCreated s →
  wp (ticks_of (Reconcile Background) snaps)
     (λ _ s', base_GetCurrentFSMState (base s') = OperationalStateActive) s.
Proof.
  intros Hrep Hlen Hr.
  eapply wp_mono; [eapply (ticks_unless_reached monitor container_monitor_ok container_cooperates own_ok handlers);
    [by intros snap; apply idle_ret|done| |by left|exact Hr]|].
  - apply Forall_true. intros snap. apply container_external_calm. intros c w cfg t. apply Hrep.
  - intros r s' Hs'. rewrite (resting_state _ _ _ _ _ Hs'). by apply (five_ticks monitor container_monitor_ok).
Qed.

(** An active container monitor never degrades: in [active], wanted active, no
    undisturbed tick leaves that state, whatever health the service reports,
    because [reconcileStateTransition] returns before it looks at the metrics. *)
Theorem container_never_degrades `{!PromptClock W} `{!Answers W} snaps (s : St ContainerInstance W) :
  resting OperationalStateActive OperationalStateActive s →
  wp (ticks_of (Reconcile Background) snaps)
     (λ _ s', base_GetCurrentFSMState (base s') = OperationalStateActive) s.
Proof.
  intros Hr.
  eapply wp_mono; [eapply (ticks_stay_active monitor own_ok handlers);
    [by intros snap; apply idle_ret|done| |exact Hr]|].
  - apply Forall_true. intros snap. by apply container_external_calm.
  - intros r s' Hs'. exact (resting_state _ _ _ _ _ Hs').
Qed.
End properties.

(** ** Concrete runs *)

(** A service that always reports the same health. *)
Definition constant_service (h : Z) : ContainerService Z :=
  {| GetStatus _ w := ((Some (mkServiceInfo h), None), w) |}.
#[export] Instance constant_laws h : @ContainerServiceLaws Z (constant_service h).
Proof. by split. Defined.
#[export] Instance constant_answers h : @Answers Z (constant_service h).
Proof. by split. Defined.

Definition demo_config : ContainerConfig := mkContainerConfig DefaultInstanceName OperationalStateActive.
Definition container_at (st : string) : St ContainerInstance Z :=
  monitor_at states OperationalStateActive st (mkContainer demo_config None).

Lemma container_reaches_active_witness :
  wp (ticks_of (@Reconcile Z _ (constant_service Active) Background) (repeat (mkSnapshot 1 0) 6))
     (λ _ s', base_GetCurrentFSMState (base s') = OperationalStateActive) (container_at LifecycleStateToBeCreated).
Proof.
  apply (@container_reaches_active Z _ (constant_service Active) _ _ (repeat (mkSnapshot 1 0) 6)
    (container_at LifecycleStateToBeCreated)).
  - by intros c w cfg.
  - simpl. lia.
  - apply monitor_at_resting; [by left|done].
Defined.

(** Even a service that always reports [Degraded] leaves it active. *)
Lemma container_never_degrades_witness :
  wp (ticks_of (@Reconcile Z _ (constant_service Degraded) Background) (repeat (mkSnapshot 1 0) 6))
     (λ _ s', base_GetCurrentFSMState (base s') = OperationalStateActive) (container_at OperationalStateActive).
Proof.
  apply (@container_never_degrades Z _ (constant_service Degraded) _ _ (repeat (mkSnapshot 1 0) 6)
    (container_at OperationalStateActive)).
  apply monitor_at_resting; [apply (bool_decide_unpack _); by vm_compute|done].
Defined.

Lemma container_manager_safe_witness :
  wp (ticks (I := Container) (H1 := @Container_FSMInstance Z _ (constant_service Degraded)) ContainerManagerOps
        [mkInput (λ _ : Z, None) (mkCtx (Some 10000000%Z) None) tt (mkSnapshot 1 0)])
     (λ r (s' : MSt Container Z), length r = 1 ∧ ∀ name i, instances (mgr s') !! name = Some i →
        base_GetCurrentFSMState i.1 ∈ known (Monitor.Table states) ∧ not_refused (lastError (backoffManager i.1)))
     (mkMSt NewBaseFSMManager 0%Z).
Proof.
  apply (@container_manager_safe Z _ (constant_service Degraded) _ _ unit
    [mkInput (λ _ : Z, None) (mkCtx (Some 10000000%Z) None) tt (mkSnapshot 1 0)] 0%Z).
Defined.
