(* ===== verification/AgentMonitor.v ===== *)
(** * AgentMonitor: the agent monitor (pkg/fsm/agent_monitor)

    Models [models.go], [machine.go], [actions.go], [reconcile.go] and the
    functions [manager.go] injects into the generic manager, over the shared
    monitor of [Monitor.v].  Unlike the other instances it does not resolve a
    permanent failure with [HandlePermanentError].  The service
    ([pkg/service/agent_monitor], interface [IAgentMonitorService]) is a type class. *)

From S2P Require Import Prelude Float64 GoRuntime Backoff BaseFSM FSMManager Instance Monitor.

(** ** models.go, pkg/config, pkg/models *)

Definition states : MonitorStates := mkStates "agent_monitoring_stopped" "agent_monitoring_stopping"
  "agent_monitoring_starting".
Definition OperationalStateStopped : string := Monitor.OperationalStateStopped states.
Definition IsOperationalState : string → bool := Monitor.IsOperationalState states.
Definition IsStartingState : string → bool := Monitor.IsStartingState states.
Definition IsRunningState : string → bool := Monitor.IsRunningState.

Record AgentMonitorConfig := mkAgentConfig { Name : string; DesiredFSMState : string }.

(** The field of [agent_monitor.ServiceInfo] the instance reads (the others
    are only printed). *)
Record ServiceInfo := mkServiceInfo { OverallHealth : Z }.

(** The fields of [AgentInstance] besides the base instance and the service;
    [ObservedServiceInfo] is [ObservedState.ServiceInfo], a pointer. *)
Record AgentInstance := mkAgent { config : AgentMonitorConfig; ObservedServiceInfo : option ServiceInfo }.

Definition set_info (i : option ServiceInfo) (c : AgentInstance) : AgentInstance := mkAgent (config c) i.

(** [agent_monitor.IAgentMonitorService]; a nil status may come without an error. *)
Class IAgentMonitorService (W : Type) := { Status : Ctx → Snapshot → W → (option ServiceInfo * option GoErr) * W }.

(** What the instance relies on: no error is the refusal of one of its own events. *)
Class AgentServiceLaws (W : Type) `{IAgentMonitorService W} := {
  Status_err c s w : not_refused (Status c s w).1.2;
}.

(** ** machine.go *)

Definition AgentMonitorUpdateObservedStateTimeout : Z := 30 * Millisecond.

Definition NewAgentInstanceWithService (c : AgentMonitorConfig) : BaseFSMInstance * AgentInstance :=
  (NewMonitorBase states (Name c) (DesiredFSMState c), mkAgent c None).

Definition SetDesiredFSMState : string → BaseFSMInstance → option GoErr * BaseFSMInstance :=
  Monitor.SetDesiredFSMState states.
Definition IsStopped : BaseFSMInstance → bool := Monitor.IsStopped states.
Definition IsStopping : BaseFSMInstance → bool := Monitor.IsStopping states.

Definition registerCallbacks : BaseFSMInstance → BaseFSMInstance := Monitor.registerCallbacks states.

(** ** actions.go *)

Section agent.
Context {W : Type} `{World W} `{IAgentMonitorService W}.
Local Abbreviation M' := (M (St AgentInstance W)).

(** The four actions only log. *)
Definition CreateInstance (ctx : Ctx) : M' (option GoErr) := mret None.
Definition RemoveInstance (ctx : Ctx) : M' (option GoErr) := mret None.
Definition StartInstance (ctx : Ctx) : M' (option GoErr) := mret None.
Definition StopInstance (ctx : Ctx) : M' (option GoErr) := mret None.

Definition UpdateObservedStateOfInstance (ctx : Ctx) (snapshot : Snapshot) : M' (option GoErr) :=
  e ← liftE (ctx_Err ctx);
  match e with
  | Some err =>
      handled ← IsDeadlineExceededAndHandle err (Tick snapshot);
      if handled : bool then mret None else mret (Some err)
  | None =>
      '(status, err) ← liftE (Status ctx snapshot);
      match err with
      | Some e => mret (Some (EWrap "failed to get agent metrics: " e))
      | None => _ ← on_own (set_info status); mret None
      end
  end.

Definition areAllMetricsHealthy (c : AgentInstance) : bool :=
  match ObservedServiceInfo c with
  | None => false
  | Some status => bool_decide (OverallHealth status = Active)
  end.

(** ** reconcile.go *)

Definition monitor : Monitor AgentInstance W :=
  mkMonitor states CreateInstance RemoveInstance StartInstance StopInstance (λ _, areAllMetricsHealthy).

Definition reconcileTransitionToStopped : Ctx → string → M' (option GoErr * bool) :=
  Monitor.reconcileTransitionToStopped monitor.
Definition reconcileStartingStates : Ctx → string → M' (option GoErr * bool) :=
  Monitor.reconcileStartingStates monitor.
Definition reconcileRunningStates : Ctx → string → Z → M' (option GoErr * bool) :=
  Monitor.reconcileRunningStates monitor.
Definition reconcileTransitionToActive : Ctx → string → Z → M' (option GoErr * bool) :=
  Monitor.reconcileTransitionToActive monitor.
Definition reconcileOperationalStates : Ctx → Z → string → string → M' (option GoErr * bool) :=
  Monitor.reconcileOperationalStates monitor.
Definition reconcileStateTransition : Ctx → M' (option GoErr * bool) := transition_unless_reached monitor.

Definition reconcileExternalChanges : Ctx → Snapshot → M' (option GoErr) :=
  external_changes AgentMonitorUpdateObservedStateTimeout UpdateObservedStateOfInstance.

(** A permanent failure: in a shutdown state it is returned, elsewhere the
    back-off is cleared and the removal requested, its outcome ignored. *)
Definition onPermanent (ctx : Ctx) (backErr : option GoErr) : M' (option GoErr * bool) :=
  b ← gets base;
  if IsRemoved b || IsRemoving b || IsStopping b || IsStopped b then mret (backErr, false)
  else
    _ ← on_base ResetState;
    _ ← Remove ctx;
    mret (None, false).

Definition handlers : Handlers AgentInstance W := {|
  onPermanentError := onPermanent;
  externalChanges := reconcileExternalChanges;
  stateTransition ctx _ := reconcileStateTransition ctx;
  reconcileManager _ _ := mret (None, false);
|}.

Definition Reconcile : Ctx → Snapshot → M' (option GoErr * bool) := instance_Reconcile handlers.
End agent.

(** ** manager.go: what is injected into the generic manager *)

Definition Agent : Type := BaseFSMInstance * AgentInstance.

Definition DefaultInstanceName : string := "Core".
Definition AgentInstanceComponentName : string := "agent".

(** [NewAgentManager] ignores the configuration it is given. *)
Definition AgentManagerOps {FullConfig : Type} : ManagerOps FullConfig AgentMonitorConfig Agent := {|
  extractConfigs _ := ([mkAgentConfig DefaultInstanceName OperationalStateActive], None);
  getName c := (AgentInstanceComponentName, None);
  getDesiredState c := (DesiredFSMState c, None);
  createInstance c := (Some (NewAgentInstanceWithService c), None);
  compareConfig i c := (bool_decide (DesiredFSMState (config i.2) = DesiredFSMState c), None);
  setConfig i c := (None, (i.1, mkAgent c (ObservedServiceInfo i.2)));
  getMinimumRequiredTime i := (AgentMonitorUpdateObservedStateTimeout, None);
|}.

Local Abbreviation Table := (Monitor.Table states).
Definition own_ok (c : AgentInstance) : Prop := True.

Lemma agent_states_ok : states_ok states.
Proof. apply (bool_decide_unpack _). by vm_compute. Qed.

Section invariant.
Context {W : Type} `{World W} `{IAgentMonitorService W} `{!AgentServiceLaws W}.

Lemma agent_monitor_ok : Monitor.monitor_ok (monitor (W := W)).
Proof. split; [apply agent_states_ok|..]; intros c s; by apply wp_ret. Qed.

Lemma agent_update_ok ctx snap :
  keeps Table own_ok not_refused (UpdateObservedStateOfInstance (W := W) ctx snap).
Proof.
  apply keeps_context_check. eapply (keeps_bind _ _ (λ r, not_refused r.2)); [apply keeps_liftE; intros; apply Status_err|].
  intros [status [e|]] He; [apply keeps_ret; auto with umh|].
  eapply keeps_bind; [by apply keeps_on_own|]. intros _ _. by apply keeps_ret.
Qed.

Lemma agent_handlers_ok : Instance.handlers_ok Table own_ok (handlers (W := W)).
Proof.
  split.
  - intros c tick s Hs Hp. apply wp_bind, wp_gets. destruct (_ || _ || _ || _).
    { apply wp_ret. split; [done|]. intros e E. right. simpl in E. by rewrite <- E. }
    revert s Hs Hp. intros s [Hb Ho] _. apply wp_bind, wp_on_base, wp_bind.
    eapply wp_mono; [apply (keeps_Remove Table (proj1 agent_states_ok) own_ok); split; [by apply inst_inv_reset|done]|].
    intros r s' [Hs' _]. by apply wp_ret.
  - intros c snap. apply external_changes_ok. intros. apply agent_update_ok.
  - intros c snap. apply (transition_unless_reached_ok _ agent_monitor_ok).
  - intros c snap. by apply keeps_ret.
Qed.

#[export] Instance Agent_FSMInstance : FSMInstance Agent W := pair_FSMInstance SetDesiredFSMState Reconcile.
#[export] Instance Agent_inv : InstanceInv Agent := pair_inv Table own_ok.

#[export] Instance AgentManagerOps_laws {FullConfig} : ManagerOpsLaws (@AgentManagerOps FullConfig).
Proof.
  split.
  - intros c i [= <-]. split; [apply NewMonitorBase_inv|done].
  - by intros [b n] c [Hb Hn].
Qed.

#[export] Instance Agent_laws : FSMInstanceLaws Agent W.
Proof.
  apply (pair_FSMInstanceLaws Table own_ok); [apply agent_states_ok|apply agent_handlers_ok|apply SetDesired_inv|apply SetDesired_state].
Qed.
End invariant.

(** ** Undisturbed ticks *)

(** The service answers. *)
Class Answers (W : Type) `{IAgentMonitorService W} := { answers c s w : (Status c s w).1.2 = None }.

(** The service reports health. *)
Definition reports_health `{IAgentMonitorService W} : Prop :=
  ∀ c snap w cfg, areAllMetricsHealthy (mkAgent cfg (Status (W := W) c snap w).1.1) = true.

Local Abbreviation resting := (resting Table own_ok).

Section progress.
Context {W : Type} `{World W} `{!PromptClock W} `{IAgentMonitorService W} `{!AgentServiceLaws W} `{!Answers W}.
Implicit Types (s : St AgentInstance W).

Lemma agent_cooperates : cooperates (monitor (W := W)).
Proof. split; by apply idle_ret. Qed.

(** Refreshing the observed state of an instance wanted active shows what the
    service reports. *)
Lemma agent_external_calm (P : AgentInstance → Prop) snap :
  (∀ c w cfg, P (mkAgent cfg (Status (W := W) c snap w).1.1)) →
  refreshes (monitor (W := W)) own_ok handlers P snap.
Proof.
  intros HP st s w Hr. apply wp_external_context; [unfold AgentMonitorUpdateObservedStateTimeout, Millisecond; lia|].
  intros c w1 Hu. apply wp_bind, wp_bind, wp_liftE. cbn [env base own]. intros e w2 He.
  rewrite He in Hu. simpl in Hu. subst e.
  apply wp_bind, (wp_liftE_ok _ (λ r, r.2 = None ∧ ∀ cfg, P (mkAgent cfg r.1)));
    [intros; split; [apply answers|apply HP]|].
  intros [status e] w3 [E Hs]. simpl in E, Hs. subst e.
  apply wp_bind, wp_modify, wp_ret, wp_ret. split_and!; [done..|apply Hs].
Qed.
End progress.

(** ** Properties *)

Section properties.
Context {W : Type} `{World W} `{IAgentMonitorService W} `{!AgentServiceLaws W}.

(** The generic manager of the agent monitor never panics, whatever it is
    given: every tick returns, and its instance is in one of the monitor's
    states and has recorded no refused event. *)
Theorem agent_manager_safe `{MapOrder W} {FullConfig} (l : list (Input (W := W) (FullConfig := FullConfig))) w :
  wp (ticks AgentManagerOps l)
     (λ r (s' : MSt Agent W), length r = length l ∧ ∀ name i, instances (mgr s') !! name = Some i →
        base_GetCurrentFSMState i.1 ∈ known (Monitor.Table states) ∧ not_refused (lastError (backoffManager i.1)))
     (mkMSt NewBaseFSMManager w).
Proof.
  eapply wp_mono; [by apply (wp_ticks_ok AgentManagerOps l)|]. intros r s' [Hl Hm]. split; [done|].
  intros name i Hi. apply Hm in Hi as [Hb _]. split; apply Hb.
Qed.

(** A permanent failure of the agent monitor is resolved without force: in a
    shutdown state it is returned unchanged, and the manager deletes the
    instance for it; in every other state the back-off is cleared, the desired
    state becomes [stopped] and the removal is armed for the moment the instance
    gets there. *)
Theorem agent_permanent_failure ctx err (s : St AgentInstance W) :
  inst_inv (Monitor.Table states) (base s) → IsPermanentFailureError err = true →
  wp (onPermanent ctx err)
     (λ r s', own s' = own s ∧
        if bool_decide (current (fsm (base s)) ∈ [LifecycleStateRemoved; LifecycleStateRemoving;
              Monitor.OperationalStateStopping states; OperationalStateStopped])
        then r = (err, false) ∧ base s' = base s
        else r = (None, false) ∧ current (fsm (base s')) = current (fsm (base s)) ∧ clean (base s') ∧
          base_GetDesiredFSMState (base s') = OperationalStateStopped ∧ armed (base s') OperationalStateStopped) s.
Proof.
  intros Hb Herr. apply wp_bind, wp_gets.
  replace (IsRemoved (base s) || IsRemoving (base s) || IsStopping (base s) || IsStopped (base s))
    with (bool_decide (current (fsm (base s)) ∈ [LifecycleStateRemoved; LifecycleStateRemoving;
              Monitor.OperationalStateStopping states; OperationalStateStopped])).
  2:{ apply Bool.eq_iff_eq_true. unfold IsRemoved, IsRemoving, IsStopping, Monitor.IsStopping, IsStopped, Monitor.IsStopped.
      rewrite !orb_true_iff, !bool_decide_eq_true, !elem_of_cons, elem_of_nil. unfold OperationalStateStopped. tauto. }
  case_bool_decide as Hc; [by apply wp_ret|]. rewrite !elem_of_cons, elem_of_nil in Hc.
  apply wp_bind, wp_on_base, wp_bind, wp_Remove; [apply reset_wf, Hb|]. intros r b' w Hr _. apply wp_ret.
  split; [done|]. split; [done|]. simpl in *.
  assert (Hpre : preRemove (ResetState (base s)) = OperationalStateStopped) by apply (inv_pre _ _ Hb).
  inversion Hr as [Hx|r0 b0 _ Hcur _|Hx]; subst.
  - exfalso. apply orb_true_iff in Hx as [Hx%bool_decide_eq_true|Hx%bool_decide_eq_true]; simpl in Hx; tauto.
  - exfalso. rewrite Hpre in Hcur. simpl in Hcur. tauto.
  - simpl. rewrite Hpre. split_and!; [done..|]. unfold armed. simpl. by rewrite lookup_insert_eq.
Qed.

(** An active agent monitor never degrades: in [active], wanted active, no
    undisturbed tick leaves that state, whatever health the service reports,
    because [reconcileStateTransition] returns before it looks at the metrics. *)
Theorem agent_never_degrades `{!PromptClock W} `{!Answers W} snaps (s : St AgentInstance W) :
  resting OperationalStateActive OperationalStateActive s →
  wp (ticks_of (Reconcile Background) snaps)
     (λ _ s', base_GetCurrentFSMState (base s') = OperationalStateActive) s.
Proof.
  intros Hr.
  eapply wp_mono; [eapply (ticks_stay_active monitor own_ok handlers);
    [by intros snap; apply idle_ret|done| |exact Hr]|].
  - apply Forall_true. intros snap. by apply agent_external_calm.
  - intros r s' Hs'. exact (resting_state _ _ _ _ _ Hs').
Qed.
End properties.

(** ** Concrete runs *)

(** A service that always reports the same health. *)
Definition constant_service (h : Z) : IAgentMonitorService Z :=
  {| Status _ _ w := ((Some (mkServiceInfo h), None), w) |}.
#[export] Instance constant_laws h : @AgentServiceLaws Z (constant_service h).
Proof. by split. Defined.
#[export] Instance constant_answers h : @Answers Z (constant_service h).
Proof. by split. Defined.

Definition demo_config : AgentMonitorConfig := mkAgentConfig DefaultInstanceName OperationalStateActive.
Definition agent_at (st : string) : St AgentInstance Z :=
  monitor_at states OperationalStateActive st (mkAgent demo_config None).

Lemma agent_permanent_failure_witness :
  wp (@onPermanent Z _ Background (Some (ESentinel "backoff" PermanentFailureError)))
     (λ r s', own s' = own (agent_at OperationalStateActive) ∧
        r = (None, false) ∧ current (fsm (base s')) = OperationalStateActive ∧ clean (base s') ∧
          base_GetDesiredFSMState (base s') = OperationalStateStopped ∧ armed (base s') OperationalStateStopped)
     (agent_at OperationalStateActive).
Proof.
  apply (agent_permanent_failure Background (Some (ESentinel "backoff" PermanentFailureError))
    (agent_at OperationalStateActive)).
  - apply inst_inv_at; [apply NewMonitorBase_inv|]. apply (bool_decide_unpack _). by vm_compute.
  - by vm_compute.
Defined.

(** Even a service that always reports [Degraded] leaves it active. *)
Lemma agent_never_degrades_witness :
  wp (ticks_of (@Reconcile Z _ (constant_service Degraded) Background) (repeat (mkSnapshot 1 0) 6))
     (λ _ s', base_GetCurrentFSMState (base s') = OperationalStateActive) (agent_at OperationalStateActive).
Proof.
  apply (@agent_never_degrades Z _ (constant_service Degraded) _ _ (repeat (mkSnapshot 1 0) 6)
    (agent_at OperationalStateActive)).
  apply monitor_at_resting; [apply (bool_decide_unpack _); by vm_compute|done].
Defined.

Lemma agent_manager_safe_witness :
  wp (ticks (I := Agent) (H1 := @Agent_FSMInstance Z _ (constant_service Degraded)) AgentManagerOps
        [mkInput (λ _ : Z, None) (mkCtx (Some 10000000%Z) None) tt (mkSnapshot 1 0)])
     (λ r (s' : MSt Agent Z), length r = 1 ∧ ∀ name i, instances (mgr s') !! name = Some i →
        base_GetCurrentFSMState i.1 ∈ known (Monitor.Table states) ∧ not_refused (lastError (backoffManager i.1)))
     (mkMSt NewBaseFSMManager 0%Z).
Proof.
  apply (@agent_manager_safe Z _ (constant_service Degraded) _ _ unit
    [mkInput (λ _ : Z, None) (mkCtx (Some 10000000%Z) None) tt (mkSnapshot 1 0)] 0%Z).
Defined.
