(* ===== verification/RedpandaMonitor.v ===== *)
(** * RedpandaMonitor: the redpanda monitor (pkg/fsm/redpanda_monitor)

    Models [models.go], [machine.go], [actions.go], [reconcile.go] and the
    functions [manager.go] injects into the generic manager, over the shared
    monitor of [Monitor.v].  The service ([pkg/service/redpanda_monitor],
    interface [IRedpandaMonitorService]) is a type class. *)

From S2P Require Import Prelude Float64 GoRuntime Backoff BaseFSM FSMManager Instance Monitor.

(** ** models.go, pkg/config *)

Definition states : MonitorStates :=
  mkStates "redpanda_monitoring_stopped" "redpanda_monitoring_stopping" "redpanda_monitoring_starting".
Definition OperationalStateStopped : string := Monitor.OperationalStateStopped states.
Definition IsOperationalState : string → bool := Monitor.IsOperationalState states.
Definition IsStartingState : string → bool := Monitor.IsStartingState states.
Definition IsRunningState : string → bool := Monitor.IsRunningState.

Record RedpandaMonitorConfig := mkRedpandaMonitorConfig { Name : string; DesiredFSMState : string }.

(** A scan; of the metrics only their presence is read. *)
Record RedpandaMetricsScan := mkScan { LastUpdatedAt : Z; hasMetrics : bool }.
(** [LastScan] is [RedpandaStatus.LastScan], a pointer. *)
Record ServiceInfo := mkServiceInfo { S6FSMState : string; LastScan : option RedpandaMetricsScan }.

(** The fields of [RedpandaMonitorInstance] besides the base instance and the
    service; [ObservedServiceInfo] is [ObservedState.ServiceInfo], a pointer. *)
Record RedpandaMonitorInstance := mkRedpandaMonitor {
  config : RedpandaMonitorConfig;
  ObservedServiceInfo : option ServiceInfo;
}.
Definition set_info (i : ServiceInfo) (c : RedpandaMonitorInstance) : RedpandaMonitorInstance :=
  mkRedpandaMonitor (config c) (Some i).

Class IRedpandaMonitorService (W : Type) := {
  Status : Ctx → Z → W → (ServiceInfo * option GoErr) * W;
  AddRedpandaMonitorToS6Manager : Ctx → W → option GoErr * W;
  RemoveRedpandaMonitorFromS6Manager : Ctx → W → option GoErr * W;
  StartRedpandaMonitor : Ctx → W → option GoErr * W;
  StopRedpandaMonitor : Ctx → W → option GoErr * W;
  ForceRemoveRedpandaMonitor : Ctx → W → option GoErr * W;
  ReconcileManager : Ctx → Snapshot → W → (option GoErr * bool) * W;
}.

Definition ErrServiceNotExist : GoErr := ESentinel "redpanda_monitor" "service does not exist".
Definition ErrServiceAlreadyExists : GoErr := ESentinel "redpanda_monitor" "service already exists".

(** What the instance relies on: no error is the refusal of one of its own events. *)
Class RedpandaMonitorServiceLaws (W : Type) `{IRedpandaMonitorService W} := {
  Status_err c t w : not_refused (Status c t w).1.2;
  Add_err c w : not_refused (AddRedpandaMonitorToS6Manager c w).1;
  Remove_err c w : not_refused (RemoveRedpandaMonitorFromS6Manager c w).1;
  Start_err c w : not_refused (StartRedpandaMonitor c w).1;
  Stop_err c w : not_refused (StopRedpandaMonitor c w).1;
  ReconcileManager_err c s w : not_refused (ReconcileManager c s w).1.1;
}.

(** ** machine.go *)

Definition RedpandaMonitorUpdateObservedStateTimeout : Z := 45 * Millisecond.
Definition RedpandaMaxMetricsAndConfigAge : Z := 10 * Second.

Definition NewRedpandaMonitorInstanceWithService (c : RedpandaMonitorConfig) : BaseFSMInstance * RedpandaMonitorInstance :=
  (NewMonitorBase states (Name c) (DesiredFSMState c), mkRedpandaMonitor c None).

Definition SetDesiredFSMState : string → BaseFSMInstance → option GoErr * BaseFSMInstance :=
  Monitor.SetDesiredFSMState states.
Definition IsStopped : BaseFSMInstance → bool := Monitor.IsStopped states.
Definition IsStopping : BaseFSMInstance → bool := Monitor.IsStopping states.

Definition registerCallbacks : BaseFSMInstance → BaseFSMInstance := Monitor.registerCallbacks states.

(** ** actions.go *)

Section redpanda_monitor.
Context {W : Type} `{World W} `{IRedpandaMonitorService W}.
Local Abbreviation M' := (M (St RedpandaMonitorInstance W)).

Definition CreateInstance (ctx : Ctx) : M' (option GoErr) :=
  b ← gets base;
  service_create ErrServiceAlreadyExists ("failed to add Redpanda Monitor service " +:+ GetID b +:+ " to S6 manager: ")
    (AddRedpandaMonitorToS6Manager ctx).

Definition RemoveInstance (ctx : Ctx) : M' (option GoErr) :=
  b ← gets base;
  service_remove ErrServiceNotExist ("failed to remove Redpanda Monitor service " +:+ GetID b +:+ ": ")
    (RemoveRedpandaMonitorFromS6Manager ctx).

Definition StartInstance (ctx : Ctx) : M' (option GoErr) :=
  b ← gets base;
  service_action ("failed to start Redpanda Monitor service " +:+ GetID b +:+ ": ") (StartRedpandaMonitor ctx).

Definition StopInstance (ctx : Ctx) : M' (option GoErr) :=
  b ← gets base;
  service_action ("failed to stop Redpanda Monitor service " +:+ GetID b +:+ ": ") (StopRedpandaMonitor ctx).

Definition UpdateObservedStateOfInstance (ctx : Ctx) (snapshot : Snapshot) : M' (option GoErr) :=
  e ← liftE (ctx_Err ctx);
  match e with
  | Some err =>
      handled ← IsDeadlineExceededAndHandle err (Tick snapshot);
      if handled : bool then mret None else mret (Some err)
  | None =>
      '(info, err) ← liftE (Status ctx (Tick snapshot));
      match err with
      | Some e => mret (Some e)
      | None => _ ← on_own (set_info info); mret None
      end
  end.

Definition isMonitorHealthy (loopStartTime : Z) (r : RedpandaMonitorInstance) : bool :=
  match ObservedServiceInfo r with
  | None => false
  | Some info =>
      match LastScan info with
      | None => false
      | Some scan =>
          if (RedpandaMaxMetricsAndConfigAge <? loopStartTime - LastUpdatedAt scan)%Z then false
          else hasMetrics scan
      end
  end.

(** ** reconcile.go *)

Definition monitor : Monitor RedpandaMonitorInstance W :=
  mkMonitor states CreateInstance RemoveInstance StartInstance StopInstance isMonitorHealthy.

Definition reconcileTransitionToStopped : Ctx → string → M' (option GoErr * bool) :=
  Monitor.reconcileTransitionToStopped monitor.
Definition reconcileStartingStates : Ctx → string → M' (option GoErr * bool) :=
  Monitor.reconcileStartingStates monitor.
Definition reconcileRunningStates : Ctx → string → Z → M' (option GoErr * bool) :=
  Monitor.reconcileRunningStates monitor.
Definition reconcileTransitionToActive : Ctx → string → Z → M' (option GoErr * bool) :=
  Monitor.reconcileTransitionToActive monitor.
Definition reconcileOperationalStates : Ctx → Z → string → string → M' (option GoErr * bool) :=
  Monitor.reconcileOperationalStates monitor.
Definition reconcileStateTransition (ctx : Ctx) (snapshot : Snapshot) : M' (option GoErr * bool) :=
  transition_at monitor ctx (SnapshotTime snapshot).

Definition reconcileExternalChanges : Ctx → Snapshot → M' (option GoErr) :=
  external_changes RedpandaMonitorUpdateObservedStateTimeout UpdateObservedStateOfInstance.

Definition inShutdown : M' bool :=
  b ← gets base;
  mret (IsRemoved b || IsRemoving b || IsStopping b || IsStopped b).

Definition handlers : Handlers RedpandaMonitorInstance W := {|
  onPermanentError := permanent_with inShutdown (λ _ ctx, liftE (ForceRemoveRedpandaMonitor ctx));
  externalChanges := reconcileExternalChanges;
  stateTransition := reconcileStateTransition;
  reconcileManager ctx snapshot := liftE (ReconcileManager ctx snapshot);
|}.

Definition Reconcile : Ctx → Snapshot → M' (option GoErr * bool) := instance_Reconcile handlers.
End redpanda_monitor.

(** ** manager.go: what is injected into the generic manager *)

Definition RedpandaMonitor : Type := BaseFSMInstance * RedpandaMonitorInstance.

(** [NewRedpandaMonitorManager]: the configurations are [fc.Internal.RedpandaMonitor]. *)
Definition RedpandaMonitorManagerOps : ManagerOps (list RedpandaMonitorConfig) RedpandaMonitorConfig RedpandaMonitor := {|
  extractConfigs fc := (fc, None);
  getName c := (Name c, None);
  getDesiredState c := (DesiredFSMState c, None);
  createInstance c := (Some (NewRedpandaMonitorInstanceWithService c), None);
  compareConfig i c := (bool_decide (DesiredFSMState (config i.2) = DesiredFSMState c), None);
  setConfig i c := (None, (i.1, mkRedpandaMonitor c (ObservedServiceInfo i.2)));
  getMinimumRequiredTime i := (RedpandaMonitorUpdateObservedStateTimeout, None);
|}.

Local Abbreviation Table := (Monitor.Table states).
Definition own_ok (c : RedpandaMonitorInstance) : Prop := True.

Lemma redpanda_monitor_states_ok : states_ok states.
Proof. apply (bool_decide_unpack _). by vm_compute. Qed.

Section invariant.
Context {W : Type} `{World W} `{IRedpandaMonitorService W} `{!RedpandaMonitorServiceLaws W}.

Lemma redpanda_monitor_monitor_ok : Monitor.monitor_ok (monitor (W := W)).
Proof.
  split; [apply redpanda_monitor_states_ok|..]; intros c; apply action_gets_base; intros b.
  - apply service_create_ok. intros; apply Add_err.
  - apply service_remove_ok. intros; apply Remove_err.
  - apply service_action_ok. intros; apply Start_err.
  - apply service_action_ok. intros; apply Stop_err.
Qed.

Lemma redpanda_monitor_update_ok ctx snap :
  keeps Table own_ok not_refused (UpdateObservedStateOfInstance (W := W) ctx snap).
Proof.
  apply keeps_context_check.
  eapply (keeps_bind _ _ (λ r, not_refused r.2)); [apply keeps_liftE; intros; apply Status_err|].
  intros [info [e|]] He; [by apply keeps_ret|].
  eapply keeps_bind; [by apply keeps_on_own|]. intros _ _. by apply keeps_ret.
Qed.

Lemma redpanda_monitor_handlers_ok : Instance.handlers_ok Table own_ok (handlers (W := W)).
Proof.
  split.
  - apply permanent_with_ok; [apply redpanda_monitor_states_ok|..].
    + intros s. apply wp_bind, wp_gets. by apply wp_ret.
    + intros e c s. by apply wp_liftE.
  - intros c snap. apply external_changes_ok. intros. apply redpanda_monitor_update_ok.
  - intros c snap. apply (transition_at_ok _ redpanda_monitor_monitor_ok).
  - intros c snap. apply keeps_liftE. intros w. apply ReconcileManager_err.
Qed.

#[export] Instance RedpandaMonitor_FSMInstance : FSMInstance RedpandaMonitor W :=
  pair_FSMInstance SetDesiredFSMState Reconcile.
#[export] Instance RedpandaMonitor_inv : InstanceInv RedpandaMonitor := pair_inv Table own_ok.

#[export] Instance RedpandaMonitorManagerOps_laws : ManagerOpsLaws RedpandaMonitorManagerOps.
Proof.
  split.
  - intros c i [= <-]. split; [apply NewMonitorBase_inv|done].
  - by intros [b n] c [Hb Hn].
Qed.

#[export] Instance RedpandaMonitor_laws : FSMInstanceLaws RedpandaMonitor W.
Proof.
  apply (pair_FSMInstanceLaws Table own_ok);
    [apply redpanda_monitor_states_ok|apply redpanda_monitor_handlers_ok|apply SetDesired_inv|apply SetDesired_state].
Qed.
End invariant.

(** ** Undisturbed ticks *)

(** The service does what it is asked to and answers. *)
Class Cooperative (W : Type) `{IRedpandaMonitorService W} := {
  coop_Add c w : (AddRedpandaMonitorToS6Manager c w).1 = None;
  coop_Start c w : (StartRedpandaMonitor c w).1 = None;
  coop_Stop c w : (StopRedpandaMonitor c w).1 = None;
  coop_Status c t w : (Status c t w).1.2 = None;
  coop_Reconcile c s w : (ReconcileManager c s w).1.1 = None;
}.

(** In this tick, what the service reports counts as healthy, or as not. *)
Definition reports `{IRedpandaMonitorService W} (snap : Snapshot) (hlt : bool) : Prop :=
  ∀ c w cfg, isMonitorHealthy (SnapshotTime snap) (mkRedpandaMonitor cfg (Some (Status (W := W) c (Tick snap) w).1.1)) = hlt.

Local Abbreviation resting := (resting Table own_ok).

Section progress.
Context {W : Type} `{World W} `{!PromptClock W} `{IRedpandaMonitorService W} `{!RedpandaMonitorServiceLaws W} `{!Cooperative W}.
Implicit Types (s : St RedpandaMonitorInstance W).

Lemma redpanda_monitor_cooperates : cooperates (monitor (W := W)).
Proof.
  split; apply idle_gets_base; intros b; apply idle_action; intros w; [apply coop_Add|apply coop_Start|apply coop_Stop].
Qed.

Lemma redpanda_monitor_external_calm (P : RedpandaMonitorInstance → Prop) snap :
  (∀ c w cfg, P (mkRedpandaMonitor cfg (Some (Status (W := W) c (Tick snap) w).1.1))) →
  refreshes (monitor (W := W)) own_ok handlers P snap.
Proof.
  intros HP st s w Hr. apply wp_external_context; [unfold RedpandaMonitorUpdateObservedStateTimeout, Millisecond; lia|].
  intros c w1 Hu. apply wp_bind, wp_bind, wp_liftE. cbn [env base own]. intros e w2 He.
  rewrite He in Hu. simpl in Hu. subst e.
  apply wp_bind, (wp_liftE_ok _ (λ r, r.2 = None ∧ ∀ cfg, P (mkRedpandaMonitor cfg (Some r.1))));
    [intros; split; [apply coop_Status|apply HP]|].
  intros [info e] w3 [E Hs]. simpl in E, Hs. subst e.
  apply wp_bind, wp_modify, wp_ret, wp_ret. split_and!; [done..|apply Hs].
Qed.

Lemma redpanda_monitor_tick snap hlt st s :
  reports (W := W) snap hlt → st ∈ path_states states → resting OperationalStateActive st s →
  wp (Reconcile Background snap) (λ _ s', resting OperationalStateActive (next_active states hlt st) s') s.
Proof.
  intros Hrep Hst Hr. apply (tick_at monitor redpanda_monitor_monitor_ok redpanda_monitor_cooperates own_ok handlers); [|done| |done|done].
  - intros snap'. apply idle_liftE. intros w. apply coop_Reconcile.
  - by apply redpanda_monitor_external_calm.
Qed.
End progress.

(** ** Properties *)

Section properties.
Context {W : Type} `{World W} `{IRedpandaMonitorService W} `{!RedpandaMonitorServiceLaws W}.

(** The generic manager of the redpanda monitor never panics, whatever it is
    given: every tick returns, and every instance it holds is in one of the
    monitor's states and has recorded no refused event. *)
Theorem redpanda_monitor_manager_safe `{MapOrder W} (l : list Input) w :
  wp (ticks RedpandaMonitorManagerOps l)
     (λ r (s' : MSt RedpandaMonitor W), length r = length l ∧ ∀ name i, instances (mgr s') !! name = Some i →
        base_GetCurrentFSMState i.1 ∈ known (Monitor.Table states) ∧ not_refused (lastError (backoffManager i.1)))
     (mkMSt NewBaseFSMManager w).
Proof.
  eapply wp_mono; [by apply (wp_ticks_ok RedpandaMonitorManagerOps l)|]. intros r s' [Hl Hm]. split; [done|].
  intros name i Hi. apply Hm in Hi as [Hb _]. split; apply Hb.
Qed.

(** A running redpanda monitor that is wanted active tracks the health of the
    scan: after every undisturbed tick it is [active] if the metrics were there
    and at most ten seconds old at the tick's time, and [degraded] if not. *)
Theorem redpanda_monitor_tracks_health `{!PromptClock W} `{!Cooperative W} (l : list (Snapshot * bool)) st
    (s : St RedpandaMonitorInstance W) :
  st ∈ [OperationalStateActive; OperationalStateDegraded] → Forall (λ p, reports (W := W) p.1 p.2) l →
  resting OperationalStateActive st s →
  wp (ticks_of (Reconcile Background) l.*1)
     (λ _ s', base_GetCurrentFSMState (base s') =
        match last l with
        | Some (_, true) => OperationalStateActive
        | Some (_, false) => OperationalStateDegraded
        | None => st
        end) s.
Proof.
  intros Hst Hl. revert st s Hst. induction Hl as [|[snap hlt] l Hrep _ IH]; intros st s Hst Hr.
  { apply wp_ret. exact (resting_state _ _ _ _ _ Hr). }
  apply wp_bind. eapply wp_mono; [apply (redpanda_monitor_tick snap hlt st); [done| |exact Hr]|].
  { revert st Hst Hr. unfold path_states. intros st Hst _. rewrite !elem_of_cons in *. tauto. }
  intros r s1 Hs1.
  assert (E : next_active states hlt st = if hlt then OperationalStateActive else OperationalStateDegraded).
  { rewrite !elem_of_cons, elem_of_nil in Hst. destruct Hst as [->|[->|[]]]; by destruct hlt. }
  cbn beta in Hs1. rewrite E in Hs1. eapply wp_mono; [eapply IH; [|exact Hs1]|].
  { rewrite !elem_of_cons. destruct hlt; tauto. }
  intros r2 s2 ->. rewrite last_cons. destruct (last l) as [[? []]|]; [done..|by destruct hlt].
Qed.
End properties.

(** ** Concrete runs *)

(** A service that does what it is asked to and scanned the metrics at time 0. *)
#[export] Instance demo_service : IRedpandaMonitorService Z := {
  Status _ _ w := ((mkServiceInfo "running" (Some (mkScan 0 true)), None), w);
  AddRedpandaMonitorToS6Manager _ w := (None, w);
  RemoveRedpandaMonitorFromS6Manager _ w := (None, w);
  StartRedpandaMonitor _ w := (None, w);
  StopRedpandaMonitor _ w := (None, w);
  ForceRemoveRedpandaMonitor _ w := (None, w);
  ReconcileManager _ _ w := ((None, false), w);
}.
#[export] Instance demo_laws : RedpandaMonitorServiceLaws Z.
Proof. by split. Defined.
#[export] Instance demo_cooperative : Cooperative Z.
Proof. by split. Defined.

Definition demo_config : RedpandaMonitorConfig := mkRedpandaMonitorConfig "redpanda" OperationalStateActive.

Lemma redpanda_monitor_manager_safe_witness :
  wp (ticks RedpandaMonitorManagerOps
        [mkInput (λ _ : Z, None) (mkCtx (Some 10000000%Z) None) [demo_config] (mkSnapshot 1 0)])
     (λ r (s' : MSt RedpandaMonitor Z), length r = 1 ∧ ∀ name i, instances (mgr s') !! name = Some i →
        base_GetCurrentFSMState i.1 ∈ known (Monitor.Table states) ∧ not_refused (lastError (backoffManager i.1)))
     (mkMSt NewBaseFSMManager 0%Z).
Proof.
  apply (redpanda_monitor_manager_safe
    [mkInput (λ _ : Z, None) (mkCtx (Some 10000000%Z) None) [demo_config] (mkSnapshot 1 0)] 0%Z).
Defined.

(** The scan is fresh at time 1 s and too old at time 11 s. *)
Lemma redpanda_monitor_tracks_health_witness :
  wp (ticks_of (Reconcile Background) [mkSnapshot 1 (1 * Second); mkSnapshot 2 (11 * Second)])
     (λ _ s', base_GetCurrentFSMState (base s') = OperationalStateDegraded)
     (monitor_at states OperationalStateActive OperationalStateDegraded (mkRedpandaMonitor demo_config None)).
Proof.
  apply (redpanda_monitor_tracks_health [(mkSnapshot 1 (1 * Second), true); (mkSnapshot 2 (11 * Second), false)]
    OperationalStateDegraded).
  - by right; left.
  - by repeat constructor.
  - apply monitor_at_resting; [apply (bool_decide_unpack _); by vm_compute|done].
Defined.
