(* ===== verification/BenthosMonitor.v ===== *)
(** * BenthosMonitor: the benthos monitor (pkg/fsm/benthos_monitor)

    Models [models.go], [machine.go], [actions.go], [reconcile.go] and the
    functions [manager.go] injects into the generic manager, over the shared
    monitor of [Monitor.v].  Unlike the other monitors it compares the port it
    observes with the configured one and removes itself when they differ.  The
    service ([pkg/service/benthos_monitor], interface [IBenthosMonitorService])
    is a type class. *)

From S2P Require Import Prelude Float64 GoRuntime Backoff BaseFSM FSMManager Instance Monitor ConfigNames.

(** ** models.go, pkg/config *)

Definition states : MonitorStates :=
  mkStates "benthos_monitoring_stopped" "benthos_monitoring_stopping" "benthos_monitoring_starting".
Definition OperationalStateStopped : string := Monitor.OperationalStateStopped states.
Definition IsOperationalState : string → bool := Monitor.IsOperationalState states.
Definition IsStartingState : string → bool := Monitor.IsStartingState states.
Definition IsRunningState : string → bool := Monitor.IsRunningState.

Record BenthosMonitorConfig := mkBenthosMonitorConfig { Name : string; DesiredFSMState : string; MetricsPort : Z }.

(** A scan; of the metrics only their presence is read. *)
Record BenthosMetricsScan := mkScan { LastUpdatedAt : Z; hasMetrics : bool }.
(** [LastScan] is [BenthosStatus.LastScan], a pointer. *)
Record ServiceInfo := mkServiceInfo { S6FSMState : string; LastScan : option BenthosMetricsScan }.

(** The fields of [BenthosMonitorInstance] besides the base instance and the
    service; [ObservedServiceInfo] is [ObservedState.ServiceInfo], a pointer. *)
Record BenthosMonitorInstance := mkBenthosMonitor {
  config : BenthosMonitorConfig;
  ObservedServiceInfo : option ServiceInfo;
  ObservedMonitorConfig : BenthosMonitorConfig;
}.
Definition zero_config : BenthosMonitorConfig := mkBenthosMonitorConfig "" "" 0.
Definition set_info (i : ServiceInfo) (c : BenthosMonitorInstance) : BenthosMonitorInstance :=
  mkBenthosMonitor (config c) (Some i) (ObservedMonitorConfig c).
Definition set_observedConfig (o : BenthosMonitorConfig) (c : BenthosMonitorInstance) : BenthosMonitorInstance :=
  mkBenthosMonitor (config c) (ObservedServiceInfo c) o.

Class IBenthosMonitorService (W : Type) := {
  GetConfig : Ctx → W → (BenthosMonitorConfig * option GoErr) * W;
  Status : Ctx → Z → W → (ServiceInfo * option GoErr) * W;
  AddBenthosMonitorToS6Manager : Ctx → Z → W → option GoErr * W;
  RemoveBenthosMonitorFromS6Manager : Ctx → W → option GoErr * W;
  StartBenthosMonitor : Ctx → W → option GoErr * W;
  StopBenthosMonitor : Ctx → W → option GoErr * W;
  ForceRemoveBenthosMonitor : Ctx → W → option GoErr * W;
  ReconcileManager : Ctx → Snapshot → W → (option GoErr * bool) * W;
}.

Definition ErrServiceNotExist : GoErr := ESentinel "benthos_monitor" "service does not exist".
Definition ErrServiceAlreadyExists : GoErr := ESentinel "benthos_monitor" "service already exists".

(** What the instance relies on: no error is the refusal of one of its own events. *)
Class BenthosMonitorServiceLaws (W : Type) `{IBenthosMonitorService W} := {
  Status_err c t w : not_refused (Status c t w).1.2;
  Add_err c p w : not_refused (AddBenthosMonitorToS6Manager c p w).1;
  Remove_err c w : not_refused (RemoveBenthosMonitorFromS6Manager c w).1;
  Start_err c w : not_refused (StartBenthosMonitor c w).1;
  Stop_err c w : not_refused (StopBenthosMonitor c w).1;
  ReconcileManager_err c s w : not_refused (ReconcileManager c s w).1.1;
}.

(** ** machine.go *)

Definition BenthosMonitorUpdateObservedStateTimeout : Z := 10 * Millisecond.
Definition BenthosMaxMetricsAndConfigAge : Z := 10 * Second.

Definition NewBenthosMonitorInstanceWithService (c : BenthosMonitorConfig) : BaseFSMInstance * BenthosMonitorInstance :=
  (NewMonitorBase states (Name c) (DesiredFSMState c), mkBenthosMonitor c None zero_config).

(** [NewBenthosMonitorInstance]: the constructor of the service refuses invalid names. *)
Definition NewBenthosMonitorInstance (c : BenthosMonitorConfig) : option (BaseFSMInstance * BenthosMonitorInstance) * option GoErr :=
  match ValidateComponentName (Name c) with
  | Some err =>
      (None, Some (EWrap "failed to create benthos monitor service: " (EWrap "invalid benthos service name: " err)))
  | None => (Some (NewBenthosMonitorInstanceWithService c), None)
  end.

Definition SetDesiredFSMState : string → BaseFSMInstance → option GoErr * BaseFSMInstance :=
  Monitor.SetDesiredFSMState states.
Definition IsStopped : BaseFSMInstance → bool := Monitor.IsStopped states.
Definition IsStopping : BaseFSMInstance → bool := Monitor.IsStopping states.

Definition registerCallbacks : BaseFSMInstance → BaseFSMInstance := Monitor.registerCallbacks states.

(** ** actions.go *)

Section benthos_monitor.
Context {W : Type} `{World W} `{IBenthosMonitorService W}.
Local Abbreviation M' := (M (St BenthosMonitorInstance W)).

Definition CreateInstance (ctx : Ctx) : M' (option GoErr) :=
  b ← gets base;
  c ← gets own;
  service_create ErrServiceAlreadyExists ("failed to add Benthos Monitor service " +:+ GetID b +:+ " to S6 manager: ")
    (AddBenthosMonitorToS6Manager ctx (MetricsPort (config c))).

Definition RemoveInstance (ctx : Ctx) : M' (option GoErr) :=
  b ← gets base;
  service_remove ErrServiceNotExist ("failed to remove Benthos Monitor service " +:+ GetID b +:+ ": ")
    (RemoveBenthosMonitorFromS6Manager ctx).

Definition StartInstance (ctx : Ctx) : M' (option GoErr) :=
  b ← gets base;
  service_action ("failed to start Benthos Monitor service " +:+ GetID b +:+ ": ") (StartBenthosMonitor ctx).

Definition StopInstance (ctx : Ctx) : M' (option GoErr) :=
  b ← gets base;
  service_action ("failed to stop Benthos Monitor service " +:+ GetID b +:+ ": ") (StopBenthosMonitor ctx).

Definition UpdateObservedStateOfInstance (ctx : Ctx) (snapshot : Snapshot) : M' (option GoErr) :=
  e ← liftE (ctx_Err ctx);
  match e with
  | Some err =>
      handled ← IsDeadlineExceededAndHandle err (Tick snapshot);
      if handled : bool then mret None else mret (Some err)
  | None =>
      '(info, err) ← liftE (Status ctx (Tick snapshot));
      match err with
      | Some e => mret (Some e)
      | None =>
          _ ← on_own (set_info info);
          '(observedConfig, err) ← liftE (GetConfig ctx);
          match err with
          | Some _ => mret None
          | None =>
              _ ← on_own (set_observedConfig observedConfig);
              c ← gets own;
              if negb (bool_decide (MetricsPort (ObservedMonitorConfig c) = 0%Z))
                 && negb (bool_decide (MetricsPort (config c) = MetricsPort (ObservedMonitorConfig c)))
              then Remove ctx
              else mret None
          end
      end
  end.

Definition isMonitorHealthy (loopStartTime : Z) (r : BenthosMonitorInstance) : bool :=
  match ObservedServiceInfo r with
  | None => false
  | Some info =>
      match LastScan info with
      | None => false
      | Some scan =>
          if (BenthosMaxMetricsAndConfigAge <? loopStartTime - LastUpdatedAt scan)%Z then false
          else hasMetrics scan
      end
  end.

(** ** reconcile.go *)

Definition monitor : Monitor BenthosMonitorInstance W :=
  mkMonitor states CreateInstance RemoveInstance StartInstance StopInstance isMonitorHealthy.

Definition reconcileTransitionToStopped : Ctx → string → M' (option GoErr * bool) :=
  Monitor.reconcileTransitionToStopped monitor.
Definition reconcileStartingStates : Ctx → string → M' (option GoErr * bool) :=
  Monitor.reconcileStartingStates monitor.
Definition reconcileRunningStates : Ctx → string → Z → M' (option GoErr * bool) :=
  Monitor.reconcileRunningStates monitor.
Definition reconcileTransitionToActive : Ctx → string → Z → M' (option GoErr * bool) :=
  Monitor.reconcileTransitionToActive monitor.
Definition reconcileOperationalStates : Ctx → Z → string → string → M' (option GoErr * bool) :=
  Monitor.reconcileOperationalStates monitor.
Definition reconcileStateTransition (ctx : Ctx) (snapshot : Snapshot) : M' (option GoErr * bool) :=
  transition_at monitor ctx (SnapshotTime snapshot).

Definition reconcileExternalChanges : Ctx → Snapshot → M' (option GoErr) :=
  external_changes BenthosMonitorUpdateObservedStateTimeout UpdateObservedStateOfInstance.

Definition inShutdown : M' bool :=
  b ← gets base;
  mret (IsRemoved b || IsRemoving b || IsStopping b || IsStopped b).

Definition handlers : Handlers BenthosMonitorInstance W := {|
  onPermanentError := permanent_with inShutdown (λ _ ctx, liftE (ForceRemoveBenthosMonitor ctx));
  externalChanges := reconcileExternalChanges;
  stateTransition := reconcileStateTransition;
  reconcileManager ctx snapshot := liftE (ReconcileManager ctx snapshot);
|}.

Definition Reconcile : Ctx → Snapshot → M' (option GoErr * bool) := instance_Reconcile handlers.
End benthos_monitor.

(** ** manager.go: what is injected into the generic manager *)

Definition BenthosMonitor : Type := BaseFSMInstance * BenthosMonitorInstance.

(** [NewBenthosMonitorManager]: the configurations are [fc.Internal.BenthosMonitor]. *)
Definition BenthosMonitorManagerOps : ManagerOps (list BenthosMonitorConfig) BenthosMonitorConfig BenthosMonitor := {|
  extractConfigs fc := (fc, None);
  getName c := (Name c, None);
  getDesiredState c := (DesiredFSMState c, None);
  createInstance := NewBenthosMonitorInstance;
  compareConfig i c :=
    (bool_decide (DesiredFSMState (config i.2) = DesiredFSMState c)
     && bool_decide (MetricsPort (config i.2) = MetricsPort c), None);
  setConfig i c := (None, (i.1, mkBenthosMonitor c (ObservedServiceInfo i.2) (ObservedMonitorConfig i.2)));
  getMinimumRequiredTime i := (BenthosMonitorUpdateObservedStateTimeout, None);
|}.

Local Abbreviation Table := (Monitor.Table states).
Definition own_ok (c : BenthosMonitorInstance) : Prop := True.

Lemma benthos_monitor_states_ok : states_ok states.
Proof. apply (bool_decide_unpack _). by vm_compute. Qed.

Section invariant.
Context {W : Type} `{World W} `{IBenthosMonitorService W} `{!BenthosMonitorServiceLaws W}.

Lemma benthos_monitor_monitor_ok : Monitor.monitor_ok (monitor (W := W)).
Proof.
  split; [apply benthos_monitor_states_ok|..]; intros c; apply action_gets_base; intros b.
  - apply action_gets_own; intros x. apply service_create_ok. intros; apply Add_err.
  - apply service_remove_ok. intros; apply Remove_err.
  - apply service_action_ok. intros; apply Start_err.
  - apply service_action_ok. intros; apply Stop_err.
Qed.

Lemma benthos_monitor_update_ok ctx snap :
  keeps Table own_ok not_refused (UpdateObservedStateOfInstance (W := W) ctx snap).
Proof.
  apply keeps_context_check.
  eapply (keeps_bind _ _ (λ r, not_refused r.2)); [apply keeps_liftE; intros; apply Status_err|].
  intros [info [e|]] He; [by apply keeps_ret|].
  eapply keeps_bind; [by apply keeps_on_own|]. intros _ _.
  eapply (keeps_bind _ _ (λ _, True)); [by apply keeps_liftE|]. intros [o [e|]] _; [by apply keeps_ret|].
  eapply keeps_bind; [by apply keeps_on_own|]. intros _ _. apply keeps_gets_own; intros x _.
  destruct (_ && _); [|by apply keeps_ret]. intros s Hs.
  eapply wp_mono; [by apply (keeps_Remove Table (proj1 benthos_monitor_states_ok) own_ok)|]. by intros r s' (? & _ & ?).
Qed.

Lemma benthos_monitor_handlers_ok : Instance.handlers_ok Table own_ok (handlers (W := W)).
Proof.
  split.
  - apply permanent_with_ok; [apply benthos_monitor_states_ok|..].
    + intros s. apply wp_bind, wp_gets. by apply wp_ret.
    + intros e c s. by apply wp_liftE.
  - intros c snap. apply external_changes_ok. intros. apply benthos_monitor_update_ok.
  - intros c snap. apply (transition_at_ok _ benthos_monitor_monitor_ok).
  - intros c snap. apply keeps_liftE. intros w. apply ReconcileManager_err.
Qed.

#[export] Instance BenthosMonitor_FSMInstance : FSMInstance BenthosMonitor W :=
  pair_FSMInstance SetDesiredFSMState Reconcile.
#[export] Instance BenthosMonitor_inv : InstanceInv BenthosMonitor := pair_inv Table own_ok.

#[export] Instance BenthosMonitorManagerOps_laws : ManagerOpsLaws BenthosMonitorManagerOps.
Proof.
  split.
  - intros c i. simpl. unfold NewBenthosMonitorInstance. destruct (ValidateComponentName _); [done|].
    intros [= <-]. split; [apply NewMonitorBase_inv|done].
  - by intros [b n] c [Hb Hn].
Qed.

#[export] Instance BenthosMonitor_laws : FSMInstanceLaws BenthosMonitor W.
Proof.
  apply (pair_FSMInstanceLaws Table own_ok);
    [apply benthos_monitor_states_ok|apply benthos_monitor_handlers_ok|apply SetDesired_inv|apply SetDesired_state].
Qed.
End invariant.

(** ** Undisturbed ticks *)

(** The service does what it is asked to and answers. *)
Class Cooperative (W : Type) `{IBenthosMonitorService W} := {
  coop_Add c p w : (AddBenthosMonitorToS6Manager c p w).1 = None;
  coop_Remove c w : (RemoveBenthosMonitorFromS6Manager c w).1 = None;
  coop_Start c w : (StartBenthosMonitor c w).1 = None;
  coop_Stop c w : (StopBenthosMonitor c w).1 = None;
  coop_Status c t w : (Status c t w).1.2 = None;
  coop_Reconcile c s w : (ReconcileManager c s w).1.1 = None;
}.

Local Abbreviation resting := (resting Table own_ok).
Local Abbreviation leaving := (leaving Table own_ok).

(** The running service is scraped on another port than the configured one. *)
Definition scrapes_other_port `{IBenthosMonitorService W} (port : Z) : Prop :=
  ∀ c w, (GetConfig (W := W) c w).1.2 = None ∧ MetricsPort (GetConfig c w).1.1 ≠ 0%Z ∧
    MetricsPort (GetConfig c w).1.1 ≠ port.

Section progress.
Context {W : Type} `{World W} `{!PromptClock W} `{IBenthosMonitorService W} `{!BenthosMonitorServiceLaws W} `{!Cooperative W}.
Implicit Types (s : St BenthosMonitorInstance W).

(** Up to the comparison of the ports, refreshing the observed state succeeds. *)
Lemma benthos_monitor_update_prefix snap (Q : option GoErr → St BenthosMonitorInstance W → Prop) s w :
  (∀ s', base s' = base s → ¬ scrapes_other_port (W := W) (MetricsPort (config (own s))) → Q None s') →
  (∀ c s', base s' = base s → wp (Remove c) Q s') →
  (∀ e s', Q e s' → e = None) →
  wp (reconcileExternalChanges Background snap) Q (mkSt (base s) (own s) w).
Proof.
  intros HQ1 HQ2 HQ3. apply wp_external_context; [unfold BenthosMonitorUpdateObservedStateTimeout, Millisecond; lia|].
  intros c w1 Hu. apply wp_bind. eapply (wp_mono _ Q).
  2:{ intros e s' HQ. pose proof (HQ3 _ _ HQ). subst e. by apply wp_ret. }
  apply wp_bind, wp_liftE. cbn [env base own]. intros e w2 He.
  rewrite He in Hu. simpl in Hu. subst e.
  apply wp_bind, (wp_liftE_ok _ (λ r, r.2 = None)); [intros; apply coop_Status|].
  intros [info e] w3 E. simpl in E. subst e. apply wp_bind, wp_modify. cbn [base own env].
  apply wp_bind, wp_liftE. cbn [base own env]. intros [o e] w4 Eo.
  destruct e as [e|].
  { apply wp_ret, HQ1; [done|]. intros Hp. destruct (Hp c w3) as [Hp1 _]. by rewrite Eo in Hp1. }
  apply wp_bind, wp_modify. cbn [base own env]. apply wp_bind, wp_gets. cbn [own].
  destruct (_ && _) eqn:Ec; [by apply HQ2|]. apply wp_ret, HQ1; [done|]. intros Hp.
  destruct (Hp c w3) as (_ & Hp2 & Hp3). rewrite Eo in Hp2, Hp3. simpl in Ec, Hp2, Hp3.
  rewrite !bool_decide_false in Ec by congruence. done.
Qed.

Lemma benthos_monitor_cooperates : cooperates (monitor (W := W)).
Proof.
  split; apply idle_gets_base; intros b; [apply idle_gets_own; intros x| |]; apply idle_action; intros w;
    [apply coop_Add|apply coop_Start|apply coop_Stop].
Qed.

Lemma RemoveInstance_idle : idle_ok (λ e, e = None) (RemoveInstance (W := W) Background).
Proof.
  apply idle_gets_base; intros b. intros s. apply wp_bind, (wp_liftE_ok _ (λ e, e = None)); [intros; apply coop_Remove|].
  intros e w ->. by apply wp_ret.
Qed.

(** Asking again for the removal of a leaving instance changes nothing. *)
Lemma leaving_Remove c st s :
  st ∈ [Monitor.OperationalStateStopping states; LifecycleStateRemoving] → leaving st s →
  wp (Remove c) (λ e s', e = None ∧ leaving st s') s.
Proof.
  intros Hst Hl. rewrite !elem_of_cons, elem_of_nil in Hst. destruct Hst as [->|[->|[]]].
  - destruct Hl as [H1 H2 H3 H4 H5 H6].
    apply (wp_Remove_armed Table (proj1 benthos_monitor_states_ok) own_ok c (Monitor.OperationalStateStopping states)); [done..|].
    by intros s' Hs' _.
  - apply wp_bind, wp_gets. unfold IsRemoving. rewrite (leave_state _ _ _ _ Hl), (bool_decide_true (_ = _)), orb_true_r by done.
    by apply wp_ret.
Qed.

Lemma leaving_external st snap s w :
  st ∈ [Monitor.OperationalStateStopping states; LifecycleStateRemoving] → leaving st s →
  wp (reconcileExternalChanges Background snap) (λ e s', e = None ∧ leaving st s') (mkSt (base s) (own s) w).
Proof.
  intros Hst Hl. apply benthos_monitor_update_prefix; [| |by intros ?? []].
  - intros s' E _. split; [done|]. destruct Hl. by split; rewrite ?E.
  - intros c s' E. apply leaving_Remove; [done|]. destruct Hl. by split; rewrite ?E.
Qed.

(** After a step that succeeded, the service's own manager succeeds too. *)
Lemma finish_tick st snap s :
  leaving st s →
  wp (reconcileManager handlers Background snap) (λ r' s3, r'.1 = None ∧
     leaving st (mkSt (ResetState (base s3)) (own s3) (env s3))) s.
Proof.
  intros Hl. apply wp_liftE. intros r w E. pose proof (coop_Reconcile Background snap (env s)) as Hr. rewrite E in Hr.
  split; [exact Hr|]. apply leaving_reset in Hl. destruct Hl. by split.
Qed.

(** A tick of a leaving instance. *)
Lemma leaving_tick st st' snap s :
  st ∈ [Monitor.OperationalStateStopping states; LifecycleStateRemoving] → leaving st s →
  (∀ s1, leaving st s1 → wp (reconcileStateTransition Background snap) (λ r s2, r.1 = None ∧ leaving st' s2) s1) →
  wp (Reconcile Background snap) (λ _ s', leaving st' s') s.
Proof.
  intros Hst Hl Hstep. apply wp_Reconcile_calm; [apply Hl|]. intros w.
  eapply wp_mono; [by apply leaving_external|]. intros e s1 [-> H1]. split; [done|].
  eapply wp_mono; [by apply Hstep|]. intros r s2 [E H2]. split; [done|]. by apply finish_tick.
Qed.

(** A running instance that is leaving is stopped. *)
Lemma leaving_stop st snap s :
  st ∈ [OperationalStateActive; OperationalStateDegraded] → leaving st s →
  wp (reconcileStateTransition Background snap)
     (λ r s', r.1 = None ∧ leaving (Monitor.OperationalStateStopping states) s') s.
Proof.
  intros Hst Hl.
  assert (Hne : st ≠ OperationalStateStopped ∧ st ≠ Monitor.OperationalStateStopping states ∧
    tbl Table !! (EventStop, st) = Some (Monitor.OperationalStateStopping states) ∧
    IsLifecycleState st = false ∧ IsOperationalState st = true).
  { rewrite !elem_of_cons, elem_of_nil in Hst. destruct Hst as [->|[->|[]]]; apply (bool_decide_unpack _); by vm_compute. }
  destruct Hne as (N1 & N2 & Ht & El & Eo).
  eapply wp_operational_calm; rewrite (leave_state _ _ _ _ Hl); [done..|].
  rewrite (leave_desired _ _ _ _ Hl). unfold Monitor.reconcileOperationalStates.
  rewrite bool_decide_false, bool_decide_true by done. unfold Monitor.reconcileTransitionToStopped.
  rewrite !bool_decide_false by done.
  apply wp_bind. eapply wp_mono; [apply benthos_monitor_cooperates|]. intros e s2 (-> & E2 & E3).
  assert (Hl2 : leaving st s2) by by eapply leaving_same.
  apply (wp_send_calm EventStop (Monitor.OperationalStateStopping states)); [apply Hl2|..].
  - by rewrite (inv_table _ _ (leave_inv _ _ _ _ Hl2)), (leave_state _ _ _ _ Hl2).
  - by rewrite (leave_state _ _ _ _ Hl2).
  - intros Hx. pose proof (wf_armed (base s2) (inv_wf _ _ (leave_inv _ _ _ _ Hl2)) _ Hx) as Hx'.
    change (cfg_OperationalStateBeforeRemove (cfg (base s2))) with (preRemove (base s2)) in Hx'.
    rewrite (inv_pre _ _ (leave_inv _ _ _ _ Hl2)) in Hx'. done.
  - intros w2. split; [done|]. cbn beta. split; [done|].
    eapply leaving_at; [|done]. apply (bool_decide_unpack _). by vm_compute.
Qed.

(** The three ticks of a removal that a changed port triggers. *)
Lemma port_change_first snap st s :
  scrapes_other_port (W := W) (MetricsPort (config (own s))) →
  st ∈ [OperationalStateActive; OperationalStateDegraded] → resting OperationalStateActive st s →
  wp (Reconcile Background snap) (λ _ s', leaving (Monitor.OperationalStateStopping states) s') s.
Proof.
  intros Hport Hst [Hb Ho Hs Hd Hc Ha]. apply wp_Reconcile_calm; [done|]. intros w.
  assert (Hne : st ≠ LifecycleStateRemoved ∧ st ≠ LifecycleStateRemoving ∧ st ≠ OperationalStateStopped).
  { rewrite !elem_of_cons, elem_of_nil in Hst. by destruct Hst as [->|[->|[]]]. }
  destruct Hne as (N1 & N2 & N3).
  eapply wp_mono; [apply (benthos_monitor_update_prefix snap (λ e s', e = None ∧ leaving st s'))|].
  - by intros s' _ [].
  - intros c s' Eb. apply (wp_Remove_armed Table (proj1 benthos_monitor_states_ok) own_ok c st); rewrite ?Eb; try done.
  - by intros ?? [].
  - intros e s1 [-> Hl]. split; [done|]. eapply wp_mono; [by apply (leaving_stop st)|].
    intros r s2 [Er H2]. split; [done|]. by apply finish_tick.
Qed.

Lemma port_change_second snap s :
  leaving (Monitor.OperationalStateStopping states) s →
  wp (Reconcile Background snap) (λ _ s', leaving LifecycleStateRemoving s') s.
Proof.
  intros Hl. eapply leaving_tick; [by left|exact Hl|]. intros s1 H1.
  apply wp_operational_calm; rewrite (leave_state _ _ _ _ H1); [done..|]. rewrite (leave_desired _ _ _ _ H1).
  eapply (wp_send_leaving Table (proj1 benthos_monitor_states_ok) own_ok); [exact H1|done|done|].
  by intros s' Hs' _.
Qed.

Lemma port_change_third snap s :
  leaving LifecycleStateRemoving s → wp (Reconcile Background snap) (λ _ s', leaving LifecycleStateRemoved s') s.
Proof.
  intros Hl. eapply leaving_tick; [by right; left|exact Hl|]. intros s1 H1.
  eapply (wp_lifecycle_removing Table (proj1 benthos_monitor_states_ok) own_ok);
    [done|exact H1|done|apply idle_ok_on, RemoveInstance_idle|]. by intros s' Hs' _.
Qed.
End progress.

(** ** Properties *)

Section properties.
Context {W : Type} `{World W} `{IBenthosMonitorService W} `{!BenthosMonitorServiceLaws W}.

(** The generic manager of the benthos monitor never panics, whatever it is
    given: every tick returns, and every instance it holds is in one of the
    monitor's states and has recorded no refused event. *)
Theorem benthos_monitor_manager_safe `{MapOrder W} (l : list Input) w :
  wp (ticks BenthosMonitorManagerOps l)
     (λ r (s' : MSt BenthosMonitor W), length r = length l ∧ ∀ name i, instances (mgr s') !! name = Some i →
        base_GetCurrentFSMState i.1 ∈ known (Monitor.Table states) ∧ not_refused (lastError (backoffManager i.1)))
     (mkMSt NewBaseFSMManager w).
Proof.
  eapply wp_mono; [by apply (wp_ticks_ok BenthosMonitorManagerOps l)|]. intros r s' [Hl Hm]. split; [done|].
  intros name i Hi. apply Hm in Hi as [Hb _]. split; apply Hb.
Qed.

(** A changed port replaces the benthos monitor: when the running service is
    scraped on another port than the configured one, the next undisturbed tick
    of a running instance requests its removal and stops it, the second removes
    it from its stopped state, and after the third it is [removed], where the
    manager deletes it and creates it anew. *)
Theorem benthos_monitor_port_change `{!PromptClock W} `{!Cooperative W} snap1 snap2 snap3 st
    (s : St BenthosMonitorInstance W) :
  scrapes_other_port (W := W) (MetricsPort (config (own s))) →
  st ∈ [OperationalStateActive; OperationalStateDegraded] → resting OperationalStateActive st s →
  wp (Reconcile Background snap1) (λ _ s1,
    base_GetCurrentFSMState (base s1) = Monitor.OperationalStateStopping states ∧
    base_GetDesiredFSMState (base s1) = OperationalStateStopped ∧
    wp (Reconcile Background snap2) (λ _ s2,
      base_GetCurrentFSMState (base s2) = LifecycleStateRemoving ∧
      wp (Reconcile Background snap3) (λ _ s3,
        base_GetCurrentFSMState (base s3) = LifecycleStateRemoved) s2) s1) s.
Proof.
  intros Hport Hst Hr. eapply wp_mono; [by apply (port_change_first snap1 st)|]. intros r1 s1 H1.
  split; [exact (leave_state _ _ _ _ H1)|]. split; [exact (leave_desired _ _ _ _ H1)|].
  eapply wp_mono; [by apply port_change_second|]. intros r2 s2 H2.
  split; [exact (leave_state _ _ _ _ H2)|].
  eapply wp_mono; [by apply port_change_third|]. intros r3 s3 H3. exact (leave_state _ _ _ _ H3).
Qed.
End properties.

(** ** Concrete runs *)

(** A service that does what it is asked to and scanned the metrics at time 0. *)
#[export] Instance demo_service : IBenthosMonitorService Z := {
  Status _ _ w := ((mkServiceInfo "running" (Some (mkScan 0 true)), None), w);
  GetConfig _ w := ((mkBenthosMonitorConfig "benthos" "running" 4196, None), w);
  AddBenthosMonitorToS6Manager _ _ w := (None, w);
  RemoveBenthosMonitorFromS6Manager _ w := (None, w);
  StartBenthosMonitor _ w := (None, w);
  StopBenthosMonitor _ w := (None, w);
  ForceRemoveBenthosMonitor _ w := (None, w);
  ReconcileManager _ _ w := ((None, false), w);
}.
#[export] Instance demo_laws : BenthosMonitorServiceLaws Z.
Proof. by split. Defined.
#[export] Instance demo_cooperative : Cooperative Z.
Proof. by split. Defined.

Definition demo_config : BenthosMonitorConfig := mkBenthosMonitorConfig "benthos" OperationalStateActive 4195.

Lemma benthos_monitor_manager_safe_witness :
  wp (ticks BenthosMonitorManagerOps
        [mkInput (λ _ : Z, None) (mkCtx (Some 10000000%Z) None) [demo_config] (mkSnapshot 1 0)])
     (λ r (s' : MSt BenthosMonitor Z), length r = 1 ∧ ∀ name i, instances (mgr s') !! name = Some i →
        base_GetCurrentFSMState i.1 ∈ known (Monitor.Table states) ∧ not_refused (lastError (backoffManager i.1)))
     (mkMSt NewBaseFSMManager 0%Z).
Proof.
  apply (benthos_monitor_manager_safe
    [mkInput (λ _ : Z, None) (mkCtx (Some 10000000%Z) None) [demo_config] (mkSnapshot 1 0)] 0%Z).
Defined.

Definition running_monitor : St BenthosMonitorInstance Z :=
  monitor_at states OperationalStateActive OperationalStateDegraded (mkBenthosMonitor demo_config None zero_config).

(** The service is scraped on port 4196, the configuration says 4195. *)
Lemma benthos_monitor_port_change_witness :
  wp (Reconcile Background (mkSnapshot 1 0)) (λ _ s1,
    base_GetCurrentFSMState (base s1) = Monitor.OperationalStateStopping states ∧
    base_GetDesiredFSMState (base s1) = OperationalStateStopped ∧
    wp (Reconcile Background (mkSnapshot 2 0)) (λ _ s2,
      base_GetCurrentFSMState (base s2) = LifecycleStateRemoving ∧
      wp (Reconcile Background (mkSnapshot 3 0)) (λ _ s3,
        base_GetCurrentFSMState (base s3) = LifecycleStateRemoved) s2) s1) running_monitor.
Proof.
  apply (benthos_monitor_port_change (mkSnapshot 1 0) (mkSnapshot 2 0) (mkSnapshot 3 0) OperationalStateDegraded).
  - by intros c w.
  - by right; left.
  - apply monitor_at_resting; [apply (bool_decide_unpack _); by vm_compute|done].
Defined.
