(* ===== verification/GoBytes.v ===== *)
(** * GoBytes: the parts of Go's standard library the byte parsers use

    [bytes], [strings], [strconv], [encoding/hex], [encoding/binary] and
    [time] functions on byte sequences, with the lemmas the parsers share:
    decoding inverts encoding, padded decimal fields read back, calendar dates
    are monotone. *)

From S2P Require Import Prelude.
From Stdlib Require Import Ascii.
Local Open Scope Z_scope.

(** A [string] or a [[]byte]. *)
Abbreviation bytes := (list ascii).

Definition lit (s : string) : bytes := String.list_ascii_of_string s.

(** The value of a byte, and the byte of a value modulo 256. *)
Definition val (a : ascii) : Z := Z.of_N (N_of_ascii a).
Definition chr (z : Z) : ascii := ascii_of_N (Z.to_N (z mod 256)).

Lemma val_range a : 0 <= val a < 256.
Proof. unfold val. pose proof (N_ascii_bounded a). lia. Qed.

Lemma val_chr z : 0 <= z < 256 → val (chr z) = z.
Proof.
  intros H. unfold val, chr. rewrite N_ascii_embedding; rewrite Z.mod_small by lia; lia.
Qed.

Lemma chr_val a : chr (val a) = a.
Proof.
  unfold chr. rewrite Z.mod_small by apply val_range. unfold val. rewrite N2Z.id. apply ascii_N_embedding.
Qed.

(** ** Searching *)

Fixpoint is_prefix (p s : bytes) : bool :=
  match p, s with
  | [], _ => true
  | a :: p, b :: s => bool_decide (a = b) && is_prefix p s
  | _, [] => false
  end.

(** [bytes.Index] and [strings.Index]; [None] is -1. *)
Fixpoint Index (s sub : bytes) : option nat :=
  if is_prefix sub s then Some O
  else match s with [] => None | _ :: s => S <$> Index s sub end.

Definition Contains (s sub : bytes) : bool := match Index s sub with Some _ => true | None => false end.

Fixpoint IndexByte (s : bytes) (c : ascii) : option nat :=
  match s with
  | [] => None
  | a :: s => if decide (a = c) then Some O else S <$> IndexByte s c
  end.

Definition nl : ascii := "010"%char.

Lemma is_prefix_app p s : is_prefix p (p ++ s) = true.
Proof. induction p; simpl; [done|]. by rewrite bool_decide_true. Qed.

Lemma is_prefix_spec p s : is_prefix p s = true ↔ (∃ t, s = p ++ t).
Proof.
  split; [|intros [t ->]; apply is_prefix_app].
  revert s. induction p as [|a p IH]; intros s; [by eexists|]. destruct s as [|b s]; [done|]. simpl.
  intros [Ha%bool_decide_eq_true Hp]%andb_prop. subst. destruct (IH _ Hp) as [t ->]. by exists t.
Qed.

Lemma IndexByte_Some s c i : IndexByte s c = Some i →
  s = take i s ++ c :: drop (S i) s ∧ (c ∉ take i s) ∧ (i < length s)%nat.
Proof.
  revert i. induction s as [|a s IH]; intros i; [done|]. simpl. case_decide as Ha.
  - intros [= <-]. subst. simpl. split; [done|]. split; [set_solver|lia].
  - destruct (IndexByte s c) as [j|]; [|done]. intros [= <-]. destruct (IH j eq_refl) as (H1 & H2 & H3).
    simpl. split; [by f_equal|]. split; [set_solver|lia].
Qed.

Lemma IndexByte_None s c : IndexByte s c = None → c ∉ s.
Proof.
  induction s as [|a s IH]; simpl; [set_solver|]. case_decide; [done|].
  destruct (IndexByte s c); [done|]. set_solver.
Qed.

Lemma IndexByte_app s c t : c ∉ s → IndexByte (s ++ c :: t) c = Some (length s).
Proof.
  induction s as [|a s IH]; intros H; simpl; [by rewrite decide_True|].
  rewrite decide_False by set_solver. rewrite IH by set_solver. done.
Qed.

Lemma Index_lt s sub i : Index s sub = Some i → (i + length sub <= length s)%nat.
Proof.
  revert i. induction s as [|a s IH]; intros i; simpl.
  - destruct sub; [|done]. intros [= <-]. simpl. lia.
  - destruct (is_prefix sub (a :: s)) eqn:E.
    + intros [= <-]. apply is_prefix_spec in E as [t Ht]. apply (f_equal length) in Ht.
      rewrite length_app in Ht. simpl in Ht. lia.
    + destruct (Index s sub) as [j|] eqn:Ej; [|done]. intros [= <-]. specialize (IH j eq_refl). lia.
Qed.

(** ** Cutting *)

Definition TrimSuffix (s suffix : bytes) : bytes :=
  let n := (length s - length suffix)%nat in
  if decide (drop n s = suffix) then take n s else s.

(** [strings.Split] on one byte. *)
Fixpoint split_on (c : ascii) (s : bytes) : list bytes :=
  match s with
  | [] => [[]]
  | a :: s => if decide (a = c) then [] :: split_on c s
              else match split_on c s with
                   | [] => [[a]]
                   | w :: ws => (a :: w) :: ws
                   end
  end.

Lemma split_on_cons c s t : c ∉ s → split_on c (s ++ c :: t) = s :: split_on c t.
Proof.
  induction s as [|a s IH]; intros H; simpl; [by rewrite decide_True|].
  rewrite decide_False by set_solver. by rewrite IH by set_solver.
Qed.

Lemma split_on_single c s : c ∉ s → split_on c s = [s].
Proof.
  induction s as [|a s IH]; intros H; simpl; [done|].
  rewrite decide_False by set_solver. by rewrite IH by set_solver.
Qed.

Lemma split_on_app c s t : split_on c (s ++ c :: t) = split_on c s ++ split_on c t.
Proof.
  induction s as [|a s IH]; simpl; [by rewrite decide_True|]. rewrite IH.
  case_decide; [done|]. by destruct (split_on c s) eqn:E; destruct s; simpl in *; repeat case_match.
Qed.

(** The encodings of the characters [unicode.IsSpace] accepts. *)
Definition spaces : list bytes :=
  ([chr 9] :: [chr 10] :: [chr 11] :: [chr 12] :: [chr 13] :: [chr 32] ::
  map (map chr)
    ([[194; 133]; [194; 160]; [225; 154; 128]] ++
     map (λ k, [226; 128; k]) [128; 129; 130; 131; 132; 133; 134; 135; 136; 137; 138; 168; 169; 175] ++
     [[226; 129; 159]; [227; 128; 128]])).

Fixpoint trim_with (n : nat) (sps : list bytes) (s : bytes) : bytes :=
  match n with
  | O => s
  | S n => match list_find (λ p, is_prefix p s = true) sps with
           | Some (_, p) => trim_with n sps (drop (length p) s)
           | None => s
           end
  end.

Definition TrimLeftSpace (s : bytes) : bytes := trim_with (length s) spaces s.
Definition TrimRightSpace (s : bytes) : bytes :=
  rev (trim_with (length s) (map (@rev ascii) spaces) (rev s)).
Definition TrimSpace (s : bytes) : bytes := TrimRightSpace (TrimLeftSpace s).

(** A byte that starts no space and ends none. *)
Definition solid (a : ascii) : bool :=
  negb (existsb (λ p, match p with b :: _ => bool_decide (a = b) | [] => false end) spaces) &&
  negb (existsb (λ p, match last p with Some b => bool_decide (a = b) | None => false end) spaces).

Lemma trim_with_stop n sps a s :
  (∀ p, p ∈ sps → ∃ b q, p = b :: q ∧ a ≠ b) → trim_with n sps (a :: s) = a :: s.
Proof.
  intros H. destruct n; [done|]. simpl.
  destruct (list_find (λ p, is_prefix p (a :: s) = true) sps) as [[i p]|] eqn:E; [|done].
  apply list_find_Some in E as (Hp & Hpre & _). apply list_elem_of_lookup_2 in Hp.
  destruct (H p Hp) as (b & q & -> & Hne). simpl in Hpre.
  apply andb_prop in Hpre as [Hb%bool_decide_eq_true _]. by subst.
Qed.

(** ** Numbers *)

(** The value of a digit in any base up to 36. *)
Definition digit_val (a : ascii) : option Z :=
  let v := val a in
  if (48 <=? v) && (v <=? 57) then Some (v - 48)
  else if (97 <=? v) && (v <=? 122) then Some (v - 97 + 10)
  else if (65 <=? v) && (v <=? 90) then Some (v - 65 + 10)
  else None.

Fixpoint parse_digits (base : Z) (s : bytes) (acc : Z) : option Z :=
  match s with
  | [] => Some acc
  | a :: s => match digit_val a with
              | Some d => if d <? base then parse_digits base s (acc * base + d) else None
              | None => None
              end
  end.

(** [strconv.ParseInt(s, base, 64)] for an explicit base; [None] is a syntax or range error. *)
Definition ParseInt (s : bytes) (base : Z) : option Z :=
  let '(neg, ds) := match s with
                    | a :: t => if decide (a = "+"%char) then (false, t)
                                else if decide (a = "-"%char) then (true, t) else (false, s)
                    | [] => (false, s)
                    end in
  match ds with
  | [] => None
  | _ => match parse_digits base ds 0 with
         | None => None
         | Some n => let z := if neg : bool then - n else n in
                     if (- 2 ^ 63 <=? z) && (z <? 2 ^ 63) then Some z else None
         end
  end.

Definition digit (d : Z) : ascii := if d <? 10 then chr (48 + d) else chr (97 + (d - 10)).

(** [n] digits of [v], most significant first: what [%0<n>d] and [%0<n>x] print
    when the value fits. *)
Fixpoint pad (base : Z) (n : nat) (v : Z) : bytes :=
  match n with O => [] | S n => pad base n (v / base) ++ [digit (v mod base)] end.

Lemma digit_val_digit d : 0 <= d < 16 → digit_val (digit d) = Some d.
Proof.
  intros H. assert (d ∈ seqZ 0 16) as Hd by (apply elem_of_seqZ; lia).
  clear H; revert d Hd. apply Forall_forall. repeat constructor.
Qed.

Lemma length_pad base n v : length (pad base n v) = n.
Proof. revert v. induction n; intros v; simpl; [done|]. rewrite length_app, IHn. simpl. lia. Qed.

Lemma parse_digits_app base s t acc :
  parse_digits base (s ++ t) acc = parse_digits base s acc ≫= parse_digits base t.
Proof.
  revert acc. induction s as [|a s IH]; intros acc; simpl; [done|].
  destruct (digit_val a); [|done]. by destruct (_ <? _).
Qed.

Lemma parse_digits_pad base n v acc : 0 < base <= 16 → 0 <= v < base ^ Z.of_nat n →
  parse_digits base (pad base n v) acc = Some (acc * base ^ Z.of_nat n + v).
Proof.
  intros Hb. revert v. induction n as [|n IH]; intros v Hv.
  - simpl. f_equal. change (base ^ Z.of_nat 0) with 1 in *. lia.
  - rewrite Nat2Z.inj_succ, Z.pow_succ_r in * by lia. simpl. rewrite parse_digits_app, IH.
    2: { split; [apply Z.div_pos; lia|]. apply Z.div_lt_upper_bound; lia. }
    pose proof (Z.mod_pos_bound v base). simpl. rewrite digit_val_digit by lia.
    rewrite (proj2 (Z.ltb_lt _ _)) by lia. f_equal. pose proof (Z.div_mod v base). lia.
Qed.

Lemma pad_not_sign base n v : 0 < base <= 16 → match pad base n v with
  | a :: _ => a ≠ "+"%char ∧ a ≠ "-"%char | [] => True end.
Proof.
  intros Hb. assert (∀ d, 0 <= d < 16 → digit d ≠ "+"%char ∧ digit d ≠ "-"%char) as Hd.
  { intros d H. assert (d ∈ seqZ 0 16) as Hd by (apply elem_of_seqZ; lia).
    clear H; revert d Hd. apply Forall_forall. repeat constructor; vm_compute; discriminate. }
  revert v. induction n as [|n IH]; intros v; [done|]. simpl. specialize (IH (v / base)).
  destruct (pad base n (v / base)); simpl; [|done]. apply Hd. pose proof (Z.mod_pos_bound v base). lia.
Qed.

Lemma ParseInt_pad base n v : 0 < base <= 16 → (0 < n)%nat → 0 <= v < base ^ Z.of_nat n → v < 2 ^ 63 →
  ParseInt (pad base n v) base = Some v.
Proof.
  intros Hb Hn Hv Hm. unfold ParseInt. pose proof (pad_not_sign base n v Hb) as Hs.
  pose proof (length_pad base n v) as Hl. pose proof (parse_digits_pad base n v 0 Hb Hv) as Hp.
  destruct (pad base n v) as [|a s]; [simpl in Hl; lia|]. destruct Hs.
  rewrite !decide_False by done. rewrite Hp, Z.mul_0_l, Z.add_0_l.
  rewrite (proj2 (Z.leb_le _ _)), (proj2 (Z.ltb_lt _ _)) by lia. done.
Qed.

Lemma ParseInt_pad_range base n v : 0 < base <= 16 → (0 < n)%nat → 0 <= v < base ^ Z.of_nat n → 2 ^ 63 <= v →
  ParseInt (pad base n v) base = None.
Proof.
  intros Hb Hn Hv Hm. unfold ParseInt. pose proof (pad_not_sign base n v Hb) as Hs.
  pose proof (length_pad base n v) as Hl. pose proof (parse_digits_pad base n v 0 Hb Hv) as Hp.
  destruct (pad base n v) as [|a s]; [simpl in Hl; lia|]. destruct Hs.
  rewrite !decide_False by done. rewrite Hp, Z.mul_0_l, Z.add_0_l.
  rewrite (proj2 (Z.ltb_ge v (2 ^ 63))), andb_false_r by lia. done.
Qed.

(** The decimal text of an [int64]: [%d]. *)
Fixpoint decimal_digits (fuel n : nat) (v : Z) : nat :=
  match fuel with
  | O => n
  | S fuel => if v <? 10 ^ Z.of_nat n then n else decimal_digits fuel (S n) v
  end.

Definition itoa (v : Z) : bytes :=
  let u := Z.abs v in
  (if v <? 0 then lit "-" else []) ++ pad 10 (decimal_digits 20 1 u) u.

Lemma decimal_digits_enough fuel n v : (0 < n)%nat → v < 10 ^ Z.of_nat (n + fuel) →
  (0 < decimal_digits fuel n v)%nat ∧ v < 10 ^ Z.of_nat (decimal_digits fuel n v).
Proof.
  revert n. induction fuel as [|fuel IH]; intros n Hn Hv; simpl.
  - by rewrite Nat.add_0_r in Hv.
  - destruct (Z.ltb_spec v (10 ^ Z.of_nat n)); [done|]. apply IH; [lia|].
    by replace (S n + fuel)%nat with (n + S fuel)%nat by lia.
Qed.

Lemma itoa_digits v : 0 <= v < 2 ^ 63 →
  ∃ n, itoa v = pad 10 n v ∧ (0 < n)%nat ∧ v < 10 ^ Z.of_nat n.
Proof.
  intros Hv. unfold itoa. rewrite (proj2 (Z.ltb_ge _ _)), Z.abs_eq by lia.
  destruct (decimal_digits_enough 20 1 v) as [H1 H2]; [lia| |by eexists].
  etrans; [apply Hv|]. by vm_compute.
Qed.

Lemma ParseInt_itoa v : 0 <= v < 2 ^ 63 → ParseInt (itoa v) 10 = Some v.
Proof. intros Hv. destruct (itoa_digits v Hv) as (n & -> & Hn & Hlt). apply ParseInt_pad; lia. Qed.

Lemma pad_decimal n v : Forall (λ a, (48 <=? val a) && (val a <=? 57) = true) (pad 10 n v).
Proof.
  assert (∀ d, 0 <= d < 10 → (48 <=? val (digit d)) && (val (digit d) <=? 57) = true) as Hd.
  { intros d H. assert (d ∈ seqZ 0 10) as Hd by (apply elem_of_seqZ; lia).
    clear H; revert d Hd. apply Forall_forall. repeat constructor. }
  revert v. induction n as [|n IH]; intros v; [constructor|]. simpl. apply Forall_app. split; [done|].
  constructor; [|constructor]. apply Hd. pose proof (Z.mod_pos_bound v 10). lia.
Qed.

(** ** encoding/hex *)

Definition from_hex (a : ascii) : option Z :=
  match digit_val a with Some d => if d <? 16 then Some d else None | None => None end.

Inductive HexError := InvalidByteError (a : ascii) | ErrLength.

(** [hex.Decode]: the bytes written before the first error, and the error. *)
Fixpoint Decode (src : bytes) : bytes * option HexError :=
  match src with
  | [] => ([], None)
  | [p] => ([], Some (match from_hex p with None => InvalidByteError p | Some _ => ErrLength end))
  | p :: q :: src =>
      match from_hex p, from_hex q with
      | None, _ => ([], Some (InvalidByteError p))
      | Some _, None => ([], Some (InvalidByteError q))
      | Some a, Some b => let '(d, e) := Decode src in (chr (a * 16 + b) :: d, e)
      end
  end.

Definition EncodeToString (s : bytes) : bytes :=
  s ≫= λ a, [digit (val a / 16); digit (val a mod 16)].

Lemma from_hex_digit d : 0 <= d < 16 → from_hex (digit d) = Some d.
Proof. intros H. unfold from_hex. rewrite digit_val_digit by done. by rewrite (proj2 (Z.ltb_lt _ _)) by lia. Qed.

Lemma Decode_Encode s : Decode (EncodeToString s) = (s, None).
Proof.
  induction s as [|a s IH]; [done|]. pose proof (val_range a).
  change (EncodeToString (a :: s)) with
    (digit (val a / 16) :: digit (val a mod 16) :: EncodeToString s). cbn [Decode].
  rewrite !from_hex_digit.
  2: { apply Z.mod_pos_bound. lia. }
  2: { split; [apply Z.div_pos; lia|apply Z.div_lt_upper_bound; lia]. }
  rewrite IH. do 2 f_equal. rewrite <- (chr_val a) at 3. f_equal. pose proof (Z.div_mod (val a) 16). lia.
Qed.

Lemma length_Encode s : length (EncodeToString s) = (2 * length s)%nat.
Proof. induction s as [|a s IH]; [done|]. change (S (S (length (EncodeToString s))) = (2 * S (length s))%nat). lia. Qed.

Lemma length_Decode s : (2 * length (Decode s).1 <= length s)%nat.
Proof.
  remember (length s) as n eqn:En. revert s En. induction (lt_wf n) as [n _ IH]. intros s ->.
  destruct s as [|p [|q s]]; simpl; [lia|lia|].
  destruct (from_hex p); [|simpl; lia]. destruct (from_hex q); [|simpl; lia].
  specialize (IH (length s) ltac:(simpl; lia) s eq_refl). destruct (Decode s). simpl in *. lia.
Qed.

Lemma length_Decode_ok s : (Decode s).2 = None → (2 * length (Decode s).1)%nat = length s.
Proof.
  remember (length s) as n eqn:En. revert s En. induction (lt_wf n) as [n _ IH]. intros s ->.
  destruct s as [|p [|q s]]; simpl; [done|by destruct (from_hex p)|].
  destruct (from_hex p); [|done]. destruct (from_hex q); [|done].
  specialize (IH (length s) ltac:(simpl; lia) s eq_refl). destruct (Decode s). simpl in *. intros H. specialize (IH H). lia.
Qed.

(** ** encoding/binary *)

(** [binary.BigEndian.Uint64], [Uint16]: the value of a big-endian byte string. *)
Definition BigEndian (s : bytes) : Z := foldl (λ acc a, acc * 256 + val a) 0 s.

(** The [n] bytes of [v], most significant first. *)
Fixpoint be_bytes (n : nat) (v : Z) : bytes :=
  match n with O => [] | S n => be_bytes n (v / 256) ++ [chr v] end.

Lemma length_be_bytes n v : length (be_bytes n v) = n.
Proof. revert v. induction n; intros v; simpl; [done|]. rewrite length_app, IHn. simpl. lia. Qed.

Lemma BigEndian_be_bytes n v : 0 <= v < 256 ^ Z.of_nat n → BigEndian (be_bytes n v) = v.
Proof.
  revert v. induction n as [|n IH]; intros v Hv.
  - change (256 ^ Z.of_nat 0) with 1 in Hv. unfold BigEndian. simpl. lia.
  - rewrite Nat2Z.inj_succ, Z.pow_succ_r in Hv by lia. unfold BigEndian in *. simpl.
    rewrite foldl_app, IH.
    2: { split; [apply Z.div_pos; lia|apply Z.div_lt_upper_bound; lia]. }
    simpl. assert (chr v = chr (v mod 256)) as -> by (unfold chr; by rewrite Zmod_mod).
    pose proof (Z.mod_pos_bound v 256). rewrite val_chr by lia. pose proof (Z.div_mod v 256). lia.
Qed.

Lemma BigEndian_snoc s a : BigEndian (s ++ [a]) = BigEndian s * 256 + val a.
Proof. unfold BigEndian. by rewrite foldl_app. Qed.

Lemma BigEndian_range s : 0 <= BigEndian s < 256 ^ Z.of_nat (length s).
Proof.
  induction s as [|a s IH] using rev_ind; [done|]. rewrite BigEndian_snoc, length_app. simpl.
  rewrite Nat.add_1_r, Nat2Z.inj_succ, Z.pow_succ_r by lia. pose proof (val_range a). lia.
Qed.

Lemma be_bytes_BigEndian s : be_bytes (length s) (BigEndian s) = s.
Proof.
  induction s as [|a s IH] using rev_ind; [done|]. rewrite BigEndian_snoc, length_app. simpl.
  rewrite Nat.add_1_r. cbn [be_bytes]. pose proof (val_range a).
  rewrite Z.div_add_l, (Z.div_small (val a)), Z.add_0_r by lia. rewrite IH. do 2 f_equal.
  rewrite <- (chr_val a) at 2. unfold chr. do 2 f_equal. rewrite Z.add_comm, Z.mod_add by lia. done.
Qed.

Lemma Encode_be_bytes n v : EncodeToString (be_bytes n v) = pad 16 (2 * n) v.
Proof.
  revert v. induction n as [|n IH]; intros v; [done|]. replace (2 * S n)%nat with (S (S (2 * n))) by lia.
  simpl. unfold EncodeToString in *. rewrite bind_app, IH, <- app_assoc, Zdiv.Zdiv_Zdiv by lia.
  simpl. assert (chr v = chr (v mod 256)) as -> by (unfold chr; by rewrite Zmod_mod).
  pose proof (Z.mod_pos_bound v 256). rewrite val_chr by lia. f_equal.
  assert (v mod 256 / 16 = (v / 16) mod 16) as -> by (Z.div_mod_to_equations; lia).
  assert (v mod 256 mod 16 = v mod 16) as -> by (Z.div_mod_to_equations; lia). done.
Qed.

Lemma Encode_BigEndian s : EncodeToString s = pad 16 (2 * length s) (BigEndian s).
Proof. rewrite <- Encode_be_bytes. by rewrite be_bytes_BigEndian. Qed.

Lemma take_app_exact {A} (l l' : list A) n : length l = n → take n (l ++ l') = l.
Proof. intros <-. by rewrite take_app_length. Qed.

Lemma drop_app_exact {A} (l l' : list A) n : length l = n → drop n (l ++ l') = l'.
Proof. intros <-. by rewrite drop_app_length. Qed.

(** ** time

    A [time.Time] in UTC is the number of nanoseconds since the zero time,
    0001-01-01 00:00:00. *)

Definition Time := Z.

Definition IsZero (t : Time) : bool := t =? 0.
Definition After (t u : Time) : bool := u <? t.

Definition nano : Z := 1000000000.

(** Seconds from the zero time to the Unix epoch. *)
Definition unixToInternal : Z := 62135596800.

Definition Unix (sec nsec : Z) : Time := (sec + unixToInternal) * nano + nsec.
Definition UnixMilli (ms : Z) : Time := unixToInternal * nano + ms * 1000000.

Definition leap (y : Z) : bool := (y mod 4 =? 0) && (negb (y mod 100 =? 0) || (y mod 400 =? 0)).

(** Days from 0001-01-01 to the first of January of year [y]. *)
Definition days_before_year (y : Z) : Z :=
  365 * (y - 1) + (y - 1) / 4 - (y - 1) / 100 + (y - 1) / 400.

(** Days of year [y] before the first of month [m]. *)
Definition days_before_month (lp : bool) (m : Z) : Z :=
  match m with
  | 1 => 0 | 2 => 31 | 3 => 59 | 4 => 90 | 5 => 120 | 6 => 151
  | 7 => 181 | 8 => 212 | 9 => 243 | 10 => 273 | 11 => 304 | _ => 334
  end + (if lp && (2 <? m) then 1 else 0).

Definition days_in_month (lp : bool) (m : Z) : Z :=
  match m with
  | 2 => if lp then 29 else 28
  | 4 | 6 | 9 | 11 => 30
  | _ => 31
  end.

(** [time.Date(..., time.UTC)]: fields outside their ranges carry over. *)
Definition Date (year month day hour min sec nsec : Z) : Time :=
  let y := year + (month - 1) / 12 in
  let m := (month - 1) mod 12 + 1 in
  let days := days_before_year y + days_before_month (leap y) m + (day - 1) in
  (((days * 24 + hour) * 60 + min) * 60 + sec) * nano + nsec.

Lemma days_before_year_succ y : days_before_year (y + 1) = days_before_year y + (if leap y then 366 else 365).
Proof.
  unfold days_before_year, leap. replace (y + 1 - 1) with y by lia.
  assert (y = y - 1 + 1) as E by lia. revert E. generalize (y - 1). intros z ->.
  destruct (Z.eqb_spec ((z + 1) mod 4) 0), (Z.eqb_spec ((z + 1) mod 100) 0), (Z.eqb_spec ((z + 1) mod 400) 0);
    simpl; Z.div_mod_to_equations; lia.
Qed.

Lemma days_before_month_end lp m : 1 <= m < 12 →
  days_before_month lp (m + 1) = days_before_month lp m + days_in_month lp m.
Proof.
  intros H. assert (m ∈ seqZ 1 11) as Hm by (apply elem_of_seqZ; lia). clear H. revert m Hm.
  apply Forall_forall. destruct lp; repeat constructor.
Qed.

Lemma days_before_month_last lp : days_before_month lp 12 + days_in_month lp 12 = if lp then 366 else 365.
Proof. by destruct lp. Qed.

Lemma days_before_month_mono lp m m' : 1 <= m → m < m' → m' <= 12 →
  days_before_month lp m + days_in_month lp m <= days_before_month lp m'.
Proof.
  intros H1 H2 H3. assert (m ∈ seqZ 1 12) as Hm by (apply elem_of_seqZ; lia).
  assert (m' ∈ seqZ 1 12) as Hm' by (apply elem_of_seqZ; lia).
  assert (Forall (λ m, Forall (λ m', m < m' → days_before_month lp m + days_in_month lp m
            <= days_before_month lp m') (seqZ 1 12)) (seqZ 1 12)) as Hall.
  { apply (bool_decide_unpack _). destruct lp; vm_compute; exact I. }
  rewrite Forall_forall in Hall. specialize (Hall m Hm). rewrite Forall_forall in Hall. by apply Hall.
Qed.

Lemma days_before_month_bounds lp m : 1 <= m <= 12 →
  0 <= days_before_month lp m ∧ days_before_month lp m + days_in_month lp m <= if lp then 366 else 365.
Proof.
  intros H. assert (m ∈ seqZ 1 12) as Hm by (apply elem_of_seqZ; lia). clear H. revert m Hm.
  apply Forall_forall, (bool_decide_unpack _). destruct lp; vm_compute; exact I.
Qed.

Lemma days_before_year_mono y y' : y < y' →
  days_before_year y + (if leap y then 366 else 365) <= days_before_year y'.
Proof.
  intros H. rewrite <- days_before_year_succ. unfold days_before_year.
  Z.div_mod_to_equations. lia.
Qed.

(** ** path/filepath on Unix *)

Definition slash : ascii := "/"%char.

(** One component of a path being cleaned; [st] holds the components kept so far, last first. *)
Definition clean_step (rooted : bool) (st : list bytes) (c : bytes) : list bytes :=
  if decide (c = [] ∨ c = lit ".") then st
  else if decide (c = lit "..") then
    match st with
    | x :: st' => if decide (x = lit "..") then c :: st else st'
    | [] => if rooted then [] else [c]
    end
  else c :: st.

Fixpoint join_with (sep : bytes) (l : list bytes) : bytes :=
  match l with [] => [] | [x] => x | x :: l => x ++ sep ++ join_with sep l end.

Definition Clean (p : bytes) : bytes :=
  let rooted := match p with a :: _ => bool_decide (a = slash) | [] => false end in
  let body := join_with [slash] (rev (foldl (clean_step rooted) [] (split_on slash p))) in
  if rooted then slash :: body else match body with [] => lit "." | _ => body end.

Fixpoint Join (elem : list bytes) : bytes :=
  match elem with
  | [] => []
  | [] :: rest => Join rest
  | _ => Clean (join_with [slash] elem)
  end.

Definition Base (p : bytes) : bytes :=
  match p with
  | [] => lit "."
  | _ => match last (filter (λ c : bytes, c ≠ []) (split_on slash p)) with
         | Some c => c
         | None => [slash]
         end
  end.

(** Everything up to the last slash. *)
Definition Dir (p : bytes) : bytes :=
  match IndexByte (rev p) slash with
  | Some i => Clean (take (length p - i) p)
  | None => lit "."
  end.
