(* ===== verification/Ring.v ===== *)
(** * Ring: fixed-size circular arrays

    Three components keep the most recent entries of an unbounded stream in an
    array that is overwritten in place: the topic browser's block buffer, the
    failure-rate tracker and the log cursors of the S6 service.  The relation
    [ring buf pos hist] says what the array [buf] with next write index [pos]
    holds once the stream [hist] has been written to it; the components'
    operations are proved against it. *)

From S2P Require Import Prelude.

(** [l[i]] of a Go slice; [None] is the index-out-of-range panic. *)
Definition index {A} (l : list A) (i : Z) : option A :=
  if (i <? 0)%Z then None else l !! Z.to_nat i.

Lemma index_lookup {A} (l : list A) (i : Z) : (0 <= i)%Z → index l i = l !! Z.to_nat i.
Proof. intros H. unfold index. by destruct (Z.ltb_spec i 0); [lia|]. Qed.

(** The last [n] elements of a list, oldest first. *)
Definition last_n {A} (n : nat) (l : list A) : list A := drop (length l - n) l.

Section last_n.
Context {A : Type}.
Implicit Types l : list A.

Lemma last_n_all n l : length l <= n → last_n n l = l.
Proof. intros H. unfold last_n. by replace (length l - n) with 0 by lia. Qed.

Lemma length_last_n n l : length (last_n n l) = n `min` length l.
Proof. unfold last_n. rewrite length_drop. lia. Qed.

Lemma lookup_last_n n l i : last_n n l !! i = l !! (length l - n + i).
Proof. apply lookup_drop. Qed.

Lemma last_n_app n l l' : n <= length l' → last_n n (l ++ l') = last_n n l'.
Proof.
  intros H. unfold last_n. rewrite length_app, drop_app_ge by lia. f_equal. lia.
Qed.

Lemma last_n_snoc n l x : last_n (S n) (l ++ [x]) = last_n n l ++ [x].
Proof.
  unfold last_n. rewrite length_app. simpl. replace (length l + 1 - S n) with (length l - n) by lia.
  by rewrite drop_app_le by lia.
Qed.

(** Writing to a full window drops its first element. *)
Lemma last_n_push n l x : 0 < n → n <= length l →
  last_n n (l ++ [x]) = tail (last_n n l) ++ [x].
Proof.
  intros H Hn. unfold last_n. rewrite length_app. simpl.
  rewrite drop_app_le by lia. f_equal.
  replace (length l + 1 - n) with (S (length l - n)) by lia.
  rewrite <- Nat.add_1_r, <- drop_drop. by destruct (drop (length l - n) l).
Qed.

Lemma last_n_last_n n l l' : last_n n (last_n n l ++ l') = last_n n (l ++ l').
Proof.
  destruct (decide (length l <= n)) as [Hn|Hn]; [by rewrite (last_n_all n l)|].
  assert (l = take (length l - n) l ++ last_n n l) as Hl by (unfold last_n; by rewrite take_drop).
  rewrite Hl at 2. rewrite <- app_assoc. symmetry. apply last_n_app.
  rewrite length_app, length_last_n. lia.
Qed.
End last_n.

Record ring {A} (buf : list A) (pos : nat) (hist : list A) : Prop := mkRing {
  ring_cap : 0 < length buf;
  ring_pos : pos = length hist mod length buf;
  ring_at : ∀ i x, hist !! i = Some x → length hist <= i + length buf →
            buf !! (i mod length buf) = Some x }.

Lemma mod_shift_ne i j n : i < j → j < i + n → j mod n ≠ i mod n.
Proof.
  intros Hlt Hn Heq. assert (n ≠ 0) as H0 by lia.
  pose proof (Nat.div_mod j n H0) as Hj. pose proof (Nat.div_mod i n H0) as Hi.
  rewrite Heq in Hj. revert Hj Hi. generalize (j / n) (i / n) (i mod n). intros a b r Hj Hi.
  assert (n * b < n * a) as Hab by lia. assert (n * a < n * (b + 1)) as Hba by lia.
  apply Nat.mul_lt_mono_pos_l in Hab; [|lia]. apply Nat.mul_lt_mono_pos_l in Hba; lia.
Qed.

Section ring.
Context {A : Type}.
Implicit Types (buf hist : list A) (pos : nat).

Lemma ring_empty buf : 0 < length buf → ring buf 0 [].
Proof. intros H. split; [done| |done]. simpl. by rewrite Nat.Div0.mod_0_l. Qed.

Lemma ring_pos_lt buf pos hist : ring buf pos hist → pos < length buf.
Proof. intros [H -> _]. apply Nat.mod_upper_bound. lia. Qed.

Lemma ring_is_Some buf pos hist : ring buf pos hist → is_Some (buf !! pos).
Proof. intros H. apply lookup_lt_is_Some_2, (ring_pos_lt _ _ _ H). Qed.

(** A write at the next position is one more element of the stream. *)
Lemma ring_push buf pos hist x : ring buf pos hist →
  ring (<[pos:=x]> buf) ((pos + 1) mod length buf) (hist ++ [x]).
Proof.
  intros Hr. pose proof (ring_pos_lt _ _ _ Hr) as Hlt. destruct Hr as [Hc Hp Ha].
  split; rewrite ?length_insert; [done| |].
  { rewrite Hp, length_app. simpl. by rewrite Nat.Div0.add_mod_idemp_l. }
  intros i y Hi Hw. rewrite length_app in Hw. simpl in Hw.
  destruct (decide (i = length hist)) as [->|Hne].
  { rewrite lookup_app_r, Nat.sub_diag in Hi by lia. injection Hi as <-.
    rewrite <- Hp. by apply list_lookup_insert_eq. }
  pose proof (lookup_lt_Some _ _ _ Hi) as Hb. rewrite length_app in Hb. simpl in Hb.
  rewrite lookup_app_l in Hi by lia.
  rewrite list_lookup_insert_ne; [apply Ha; [done|lia]|].
  rewrite Hp. apply mod_shift_ne; lia.
Qed.

(** Once the array is full the slot about to be overwritten holds the oldest
    element of the window. *)
Lemma ring_oldest buf pos hist : ring buf pos hist → length buf <= length hist →
  buf !! pos = last_n (length buf) hist !! 0.
Proof.
  intros [Hc Hp Ha] Hf. rewrite lookup_last_n, Nat.add_0_r.
  destruct (lookup_lt_is_Some_2 hist (length hist - length buf)) as [x Hx]; [lia|].
  rewrite Hx. rewrite <- (Ha _ x Hx) by lia. f_equal. rewrite Hp.
  rewrite <- (Nat.Div0.mod_add (length hist - length buf) 1 (length buf)). f_equal. lia.
Qed.

(** Before it is full the array starts with the stream itself. *)
Lemma ring_prefix buf pos hist : ring buf pos hist → length hist < length buf →
  pos = length hist ∧ take pos buf = hist.
Proof.
  intros [Hc Hp Ha] Hl. rewrite Nat.mod_small in Hp by done. split; [done|].
  apply list_eq. intros i. destruct (decide (i < pos)).
  - rewrite lookup_take_lt by done. destruct (lookup_lt_is_Some_2 hist i) as [x Hx]; [lia|].
    rewrite Hx. pose proof (Ha _ _ Hx) as H. rewrite Nat.mod_small in H by lia. apply H. lia.
  - rewrite lookup_take_ge by lia. symmetry. apply lookup_ge_None. lia.
Qed.

(** The slots of the window, counted from the oldest one. *)
Lemma ring_slot buf pos hist k : ring buf pos hist → k < length hist `min` length buf →
  buf !! ((length hist - length hist `min` length buf + k) mod length buf)
    = last_n (length buf) hist !! k.
Proof.
  intros [Hc Hp Ha] Hk. rewrite lookup_last_n.
  destruct (lookup_lt_is_Some_2 hist (length hist - length buf + k)) as [x Hx]; [lia|].
  rewrite Hx. rewrite <- (Ha _ x Hx) by lia. do 2 f_equal. lia.
Qed.

(** A full array read from the write position and then from its start. *)
Lemma ring_linear buf pos hist : ring buf pos hist → length buf <= length hist →
  drop pos buf ++ take pos buf = last_n (length buf) hist.
Proof.
  intros Hr Hf. pose proof (ring_pos_lt _ _ _ Hr) as Hlt. apply list_eq. intros k.
  destruct (decide (k < length buf)) as [Hk|Hk].
  - rewrite <- (ring_slot _ _ _ k Hr) by lia. destruct Hr as [Hc Hp Ha].
    replace (length hist - length hist `min` length buf + k) with (length hist - length buf + k) by lia.
    assert ((length hist - length buf + k) mod length buf = (pos + k) mod length buf) as ->.
    { rewrite Hp, Nat.Div0.add_mod_idemp_l.
      rewrite <- (Nat.Div0.mod_add (length hist - length buf + k) 1). f_equal. lia. }
    destruct (decide (pos + k < length buf)).
    + rewrite lookup_app_l by (rewrite length_drop; lia). rewrite lookup_drop.
      by rewrite Nat.mod_small.
    + rewrite lookup_app_r by (rewrite length_drop; lia). rewrite length_drop.
      rewrite lookup_take_lt by lia. f_equal.
      replace (pos + k) with (k - (length buf - pos) + 1 * length buf) by lia.
      rewrite Nat.Div0.mod_add, Nat.mod_small; lia.
  - rewrite !lookup_ge_None_2; [done| |].
    + rewrite length_last_n. lia.
    + rewrite length_app, length_drop, length_take. lia.
Qed.
End ring.
