(* ===== verification/FailureRate.v ===== *)
(** * FailureRate: the rolling failure-rate tracker

    Models [fsmv2/deps/retry/failurerate/failurerate.go]: the circular buffer
    of outcomes, its running failure count and the one-shot escalation, and
    refines them to a window of the last [WindowSize] outcomes.  The mutex
    makes every method one atomic step. *)

From S2P Require Import Prelude Float64 Ring.
Local Open Scope Z_scope.

(** A [float64] the caller supplies may also be an infinity or a NaN. *)
Inductive gofloat : Type :=
  | Fin (f : float64)
  | PosInf
  | NegInf
  | NaN.

(** [x <= f] and [f <= x] on all of [float64]; a comparison with NaN is false. *)
Definition gf_leb (x : gofloat) (f : float64) : bool :=
  match x with Fin g => fleb g f | NegInf => true | PosInf | NaN => false end.
Definition gf_geb (x : gofloat) (f : float64) : bool :=
  match x with Fin g => fleb f g | PosInf => true | NegInf | NaN => false end.
Definition IsNaN (x : gofloat) : bool := match x with NaN => true | _ => false end.

Definition fzero : float64 := F 0 0.
Definition fone : float64 := F 1 0.

(** ** The code *)

Record Config := mkConfig {
  WindowSize : Z;
  Threshold : gofloat;
  MinSamples : Z }.

Record Tracker := mkTracker {
  outcomes : list bool;
  tracker_cfg : Config;
  head : Z;
  count : Z;
  failures : Z;
  escalated : bool }.

(** [New] panics on an invalid configuration ([None]). *)
Definition New (cfg : Config) : option Tracker :=
  if WindowSize cfg <=? 0 then None
  else if IsNaN (Threshold cfg) || gf_leb (Threshold cfg) fzero
          || negb (gf_leb (Threshold cfg) fone) then None
  else if (MinSamples cfg <? 0) || (WindowSize cfg <? MinSamples cfg) then None
  else Some (mkTracker (replicate (Z.to_nat (WindowSize cfg)) false) cfg 0 0 0 false).

(** The eviction at the start of [RecordOutcome]. *)
Definition evict (t : Tracker) : option Tracker :=
  if count t =? WindowSize (tracker_cfg t) then
    evicted ← index (outcomes t) (head t);
    Some (if negb evicted : bool
          then mkTracker (outcomes t) (tracker_cfg t) (head t) (count t) (failures t - 1) (escalated t)
          else t)
  else Some (mkTracker (outcomes t) (tracker_cfg t) (head t) (count t + 1) (failures t) (escalated t)).

(** Writing the new outcome; an index out of range panics. *)
Definition write_outcome (success : bool) (t : Tracker) : option Tracker :=
  _ ← index (outcomes t) (head t);
  Some (mkTracker (<[Z.to_nat (head t):=success]> (outcomes t)) (tracker_cfg t)
          (Z.rem (head t + 1) (WindowSize (tracker_cfg t))) (count t)
          (if negb success then failures t + 1 else failures t) (escalated t)).

Definition set_escalated (b : bool) (t : Tracker) : Tracker :=
  mkTracker (outcomes t) (tracker_cfg t) (head t) (count t) (failures t) b.

Definition tracker_rate (t : Tracker) : float64 := fdiv (of_int (failures t)) (of_int (count t)).

Definition check_escalation (t : Tracker) : bool * Tracker :=
  if count t <? MinSamples (tracker_cfg t) then (false, t)
  else
    let aboveThreshold := gf_leb (Threshold (tracker_cfg t)) (tracker_rate t) in
    if aboveThreshold && negb (escalated t) then (true, set_escalated true t)
    else if negb aboveThreshold && escalated t then (false, set_escalated false t)
    else (false, t).

Definition RecordOutcome (success : bool) (t : Tracker) : option (bool * Tracker) :=
  t ← evict t; t ← write_outcome success t; Some (check_escalation t).

Definition FailureRate (t : Tracker) : float64 :=
  if (count t =? 0) || (count t <? MinSamples (tracker_cfg t)) then fzero else tracker_rate t.

Definition IsEscalated (t : Tracker) : bool := escalated t.

Definition Reset (t : Tracker) : Tracker :=
  mkTracker (outcomes t) (tracker_cfg t) 0 0 0 false.

(** ** The specification: a window of the last outcomes and an alarm *)

Record Window := mkWindow { win : list bool; alarm : bool }.

Definition failed (l : list bool) : Z := Z.of_nat (length (filter (λ b, b = false) l)).

Definition window_rate (l : list bool) : float64 :=
  fdiv (of_int (failed l)) (of_int (Z.of_nat (length l))).

Definition window_record (cfg : Config) (success : bool) (w : Window) : bool * Window :=
  let l := last_n (Z.to_nat (WindowSize cfg)) (win w ++ [success]) in
  if Z.of_nat (length l) <? MinSamples cfg then (false, mkWindow l (alarm w))
  else
    let above := gf_leb (Threshold cfg) (window_rate l) in
    (above && negb (alarm w), mkWindow l above).

Definition window_FailureRate (cfg : Config) (w : Window) : float64 :=
  if (Z.of_nat (length (win w)) =? 0) || (Z.of_nat (length (win w)) <? MinSamples cfg)
  then fzero else window_rate (win w).

(** What a client does with a tracker. *)
Inductive tracker_op := ORecord (success : bool) | OReset.

Definition tracker_step (o : tracker_op) (t : Tracker) : option (bool * Tracker) :=
  match o with ORecord b => RecordOutcome b t | OReset => Some (false, Reset t) end.

Definition window_step (cfg : Config) (o : tracker_op) (w : Window) : bool * Window :=
  match o with ORecord b => window_record cfg b w | OReset => (false, mkWindow [] false) end.

Fixpoint run_tracker (os : list tracker_op) (t : Tracker) : option (list bool * Tracker) :=
  match os with
  | [] => Some ([], t)
  | o :: os => '(b, t) ← tracker_step o t; '(bs, t) ← run_tracker os t; Some (b :: bs, t)
  end.

Fixpoint run_window (cfg : Config) (os : list tracker_op) (w : Window) : list bool * Window :=
  match os with
  | [] => ([], w)
  | o :: os => let '(b, w) := window_step cfg o w in
               let '(bs, w) := run_window cfg os w in (b :: bs, w)
  end.

(** ** The refinement relation *)

Definition valid_config (cfg : Config) : Prop :=
  0 < WindowSize cfg ∧ gf_leb (Threshold cfg) fzero = false ∧
  gf_leb (Threshold cfg) fone = true ∧ 0 <= MinSamples cfg <= WindowSize cfg.

Lemma New_valid cfg t : New cfg = Some t → valid_config cfg.
Proof.
  unfold New, valid_config. repeat case_match; intros [=].
  rewrite !orb_false_iff, negb_false_iff, Z.ltb_ge in *. lia || (repeat split; try lia; tauto).
Qed.

Record tracks (cfg : Config) (t : Tracker) (w : Window) : Prop := mkTracks {
  tracks_cfg : tracker_cfg t = cfg;
  tracks_len : Z.of_nat (length (outcomes t)) = WindowSize cfg;
  tracks_hist : ∃ hist, ring (outcomes t) (Z.to_nat (head t)) hist ∧
                  win w = last_n (length (outcomes t)) hist;
  tracks_head : 0 <= head t;
  tracks_count : count t = Z.of_nat (length (win w));
  tracks_failures : failures t = failed (win w);
  tracks_alarm : escalated t = alarm w }.

Lemma failed_app l l' : failed (l ++ l') = failed l + failed l'.
Proof. unfold failed. rewrite filter_app, length_app. lia. Qed.

Lemma failed_cons b l : failed (b :: l) = (if b then 0 else 1) + failed l.
Proof. unfold failed. rewrite filter_cons. destruct b; simpl; lia. Qed.

Lemma New_tracks cfg t : New cfg = Some t → tracks cfg t (mkWindow [] false).
Proof.
  intros H. pose proof (New_valid _ _ H) as (Hw & _). unfold New in H.
  repeat case_match; try discriminate. injection H as <-.
  split; cbn; rewrite ?length_replicate; try done; try lia.
  exists []. split; [apply ring_empty; rewrite length_replicate; lia|].
  unfold last_n. by rewrite drop_nil.
Qed.

Lemma Reset_tracks cfg t w : tracks cfg t w → tracks cfg (Reset t) (mkWindow [] false).
Proof.
  intros [Hc Hl (h & Hr & _) _ _ _ _]. split; cbn; try done.
  exists []. split; [|unfold last_n; by rewrite drop_nil].
  apply ring_empty, (ring_cap _ _ _ Hr).
Qed.

(** The position arithmetic of the code is the one of [ring]. *)
Lemma next_head (h : Z) (n : nat) : 0 <= h → (0 < n)%nat →
  Z.rem (h + 1) (Z.of_nat n) = Z.of_nat ((Z.to_nat h + 1) mod n).
Proof. intros Hh Hn. rewrite Z.rem_mod_nonneg, Nat2Z.inj_mod by lia. f_equal. lia. Qed.

(** What is left of the window when the slot of the next outcome is free. *)
Definition kept (cfg : Config) (l : list bool) : list bool :=
  if Z.of_nat (length l) =? WindowSize cfg then tail l else l.

Lemma window_push cfg t w b hist : tracks cfg t w → ring (outcomes t) (Z.to_nat (head t)) hist →
  win w = last_n (length (outcomes t)) hist →
  last_n (length (outcomes t)) (win w ++ [b]) = kept cfg (win w) ++ [b] ∧
  last_n (length (outcomes t)) (hist ++ [b]) = kept cfg (win w) ++ [b].
Proof.
  intros Ht Hr Hw. pose proof (ring_cap _ _ _ Hr). pose proof (tracks_len _ _ _ Ht) as Hl.
  rewrite Hw, last_n_last_n. split_and?; unfold kept; rewrite length_last_n.
  all: destruct (Z.eqb_spec (Z.of_nat (length (outcomes t) `min` length hist)) (WindowSize cfg)).
  1,3: apply last_n_push; lia.
  all: rewrite (last_n_all _ hist) by lia; apply last_n_all; rewrite length_app; simpl; lia.
Qed.

Lemma evict_spec cfg t w : tracks cfg t w → ∃ t1, evict t = Some t1 ∧
  outcomes t1 = outcomes t ∧ tracker_cfg t1 = cfg ∧ head t1 = head t ∧ escalated t1 = escalated t ∧
  count t1 = Z.of_nat (length (kept cfg (win w)) + 1) ∧ failures t1 = failed (kept cfg (win w)).
Proof.
  intros [Hc Hl (hist & Hr & Hw) Hh Hn Hf Ha]. pose proof (ring_cap _ _ _ Hr) as Hcap.
  unfold evict, kept. rewrite Hc, Hn. destruct (Z.eqb_spec (Z.of_nat (length (win w))) (WindowSize cfg)) as [E|E].
  - rewrite index_lookup by done. pose proof (f_equal length Hw) as HL. rewrite length_last_n in HL.
    rewrite (ring_oldest _ _ _ Hr) by lia. rewrite <- Hw.
    destruct (win w) as [|x l] eqn:El; [simpl in *; lia|]. simpl.
    rewrite failed_cons in Hf. eexists. split; [done|].
    destruct x; simpl; (repeat split; try done; simpl in *; lia).
  - eexists. split; [done|]. cbn. repeat split; try done; lia.
Qed.

Lemma check_escalation_spec cfg t l al : tracker_cfg t = cfg → count t = Z.of_nat (length l) →
  failures t = failed l → escalated t = al →
  check_escalation t =
    (if Z.of_nat (length l) <? MinSamples cfg then (false, t)
     else (gf_leb (Threshold cfg) (window_rate l) && negb al,
           set_escalated (gf_leb (Threshold cfg) (window_rate l)) t)).
Proof.
  intros <- Hn Hf <-. unfold check_escalation, tracker_rate, window_rate. rewrite Hn, Hf.
  destruct (Z.of_nat (length l) <? MinSamples (tracker_cfg t)); [done|].
  destruct t as [o c h n f e], e; simpl; destruct (gf_leb _ _); done.
Qed.

Lemma write_spec t b : is_Some (outcomes t !! Z.to_nat (head t)) → 0 <= head t →
  write_outcome b t = Some (mkTracker (<[Z.to_nat (head t):=b]> (outcomes t)) (tracker_cfg t)
          (Z.rem (head t + 1) (WindowSize (tracker_cfg t))) (count t)
          (failures t + (if b then 0 else 1)) (escalated t)).
Proof.
  intros [x Hx] Hh. unfold write_outcome. rewrite index_lookup, Hx by done. simpl.
  do 2 f_equal. destruct b; simpl; lia.
Qed.

(** One recorded outcome. *)
Lemma RecordOutcome_tracks cfg t w b : tracks cfg t w →
  ∃ t', RecordOutcome b t = Some (fst (window_record cfg b w), t') ∧
        tracks cfg t' (snd (window_record cfg b w)).
Proof.
  intros Ht. destruct (evict_spec _ _ _ Ht) as (t1 & He & Ho & Hc1 & Hh1 & Ha1 & Hn1 & Hf1).
  pose proof Ht as [Hc Hl (hist & Hr & Hw) Hh Hn Hf Ha].
  destruct (window_push _ _ _ b _ Ht Hr Hw) as [Hp1 Hp2].
  pose proof (ring_cap _ _ _ Hr). pose proof (ring_push _ _ _ b Hr) as Hr'.
  unfold RecordOutcome. rewrite He. simpl.
  rewrite write_spec; [|rewrite Ho, Hh1; apply (ring_is_Some _ _ _ Hr)|lia]. simpl.
  set (l := kept cfg (win w) ++ [b]) in *.
  assert (Z.of_nat (length l) = count t1) as Hll by (unfold l; rewrite length_app, Hn1; simpl; lia).
  rewrite (check_escalation_spec cfg _ l (alarm w)); [|done|by cbn| |by cbn; rewrite Ha1].
  2: { cbn. unfold l. rewrite Hf1, failed_app, failed_cons. destruct b; unfold failed; simpl; lia. }
  unfold window_record. replace (Z.to_nat (WindowSize cfg)) with (length (outcomes t)) by lia.
  rewrite Hp1. fold l.
  assert (∀ e, tracks cfg (mkTracker (<[Z.to_nat (head t1):=b]> (outcomes t1)) (tracker_cfg t1)
     (Z.rem (head t1 + 1) (WindowSize (tracker_cfg t1))) (count t1)
     (failures t1 + (if b then 0 else 1)) e) (mkWindow l e)) as Hend.
  { intros e. rewrite Ho, Hh1, Hc1, <- Hl, next_head by lia.
    split; cbn; rewrite ?length_insert; try done; try lia.
    - exists (hist ++ [b]). by rewrite Nat2Z.id.
    - unfold l. rewrite Hf1, failed_app, failed_cons. destruct b; unfold failed; simpl; lia. }
  destruct (Z.of_nat (length l) <? MinSamples cfg); eexists; (split; [done|]); [|apply Hend].
  cbn. rewrite Ha1, Ha. apply Hend.
Qed.

Lemma step_tracks cfg t w o : tracks cfg t w →
  ∃ t', tracker_step o t = Some (fst (window_step cfg o w), t') ∧
        tracks cfg t' (snd (window_step cfg o w)).
Proof.
  intros Ht. destruct o as [b|]; [by apply RecordOutcome_tracks|].
  eexists. split; [done|]. by eapply Reset_tracks.
Qed.

Lemma run_tracks cfg os : ∀ t w, tracks cfg t w →
  ∃ t', run_tracker os t = Some (fst (run_window cfg os w), t') ∧
        tracks cfg t' (snd (run_window cfg os w)).
Proof.
  induction os as [|o os IH]; intros t w Ht; simpl; [by eexists|].
  destruct (step_tracks _ _ _ o Ht) as (t1 & -> & Ht1).
  destruct (window_step cfg o w) as [b w1]. simpl in *. destruct (IH _ _ Ht1) as (t2 & -> & Ht2).
  destruct (run_window cfg os w1) as [bs w2]. simpl in *. by eexists.
Qed.

Lemma FailureRate_tracks cfg t w : tracks cfg t w → FailureRate t = window_FailureRate cfg w.
Proof.
  intros [Hc _ _ _ Hn Hf _]. unfold FailureRate, window_FailureRate, tracker_rate, window_rate.
  by rewrite Hn, Hf, Hc.
Qed.

(** The alarm of the specification agrees with the rate it reports. *)
Definition alarm_ok (cfg : Config) (w : Window) : Prop :=
  alarm w = gf_leb (Threshold cfg) (window_FailureRate cfg w) ∧
  Z.of_nat (length (win w)) <= WindowSize cfg.

Lemma window_empty_ok cfg : valid_config cfg → alarm_ok cfg (mkWindow [] false).
Proof. intros (? & ? & _). split; simpl; [done|lia]. Qed.

Lemma window_record_ok cfg b w : valid_config cfg → alarm_ok cfg w →
  alarm_ok cfg (snd (window_record cfg b w)) ∧
  fst (window_record cfg b w) = negb (alarm w) && alarm (snd (window_record cfg b w)).
Proof.
  intros (Hw & Hz & Ho & Hm) [Ha Hl]. unfold window_record.
  set (l := last_n _ _).
  assert (Z.of_nat (length l) = Z.min (WindowSize cfg) (Z.of_nat (length (win w)) + 1)) as Hlen.
  { unfold l. rewrite length_last_n, length_app. simpl. lia. }
  unfold alarm_ok, window_FailureRate in *.
  destruct (Z.ltb_spec (Z.of_nat (length l)) (MinSamples cfg)) as [Hlt|Hge]; simpl.
  - rewrite (proj2 (Z.ltb_lt (Z.of_nat (length l)) _) Hlt), orb_true_r.
    rewrite (proj2 (Z.ltb_lt (Z.of_nat (length (win w))) _)), orb_true_r in Ha by lia.
    rewrite Ha, Hz. split; [split; [done|lia]|done].
  - rewrite (proj2 (Z.ltb_ge (Z.of_nat (length l)) _) Hge), orb_false_r.
    rewrite (proj2 (Z.eqb_neq (Z.of_nat (length l)) 0)) by lia.
    split; [split; [done|lia]|apply andb_comm].
Qed.

Lemma window_step_ok cfg o w : valid_config cfg → alarm_ok cfg w → alarm_ok cfg (snd (window_step cfg o w)).
Proof. intros Hv Ha. destruct o; [by apply window_record_ok|by apply window_empty_ok]. Qed.

Lemma run_window_ok cfg os : ∀ w, valid_config cfg → alarm_ok cfg w → alarm_ok cfg (snd (run_window cfg os w)).
Proof.
  induction os as [|o os IH]; intros w Hv Hw; [done|]. simpl.
  pose proof (window_step_ok cfg o w Hv Hw). destruct (window_step cfg o w) as [b w1].
  pose proof (IH w1 Hv H). by destruct (run_window cfg os w1).
Qed.

(** ** Sustained failure and recovery *)

Lemma fdiv_self n : 0 < n < 2 ^ 53 → fdiv (of_int n) (of_int n) = F (2 ^ 52) (-52).
Proof.
  intros H. rewrite of_int_exact by lia. unfold fdiv. cbn [mant expo].
  rewrite (Z.abs_eq n), Z.sgn_pos, (Z.mul_comm n), Z.div_mul, Z.mod_mul by lia. reflexivity.
Qed.

Lemma fdiv_zero n : 0 < n < 2 ^ 53 → fdiv (of_int 0) (of_int n) = F 0 (-121).
Proof.
  intros H. rewrite (of_int_exact n) by lia. unfold fdiv. cbn [mant expo of_int].
  replace (of_int 0) with (F 0 0) by reflexivity. cbn [mant expo]. reflexivity.
Qed.

(** Comparisons do not depend on how a value is represented. *)
Lemma fleb_scale x m e k : 0 <= k → fleb x (F (m * 2 ^ k) (e - k)) = fleb x (F m e).
Proof.
  intros Hk. destruct x as [a xe]. unfold fleb. cbn [mant expo].
  set (i := Z.min xe (e - k)). set (j := Z.min xe e).
  assert (i <= j) as Hij by lia.
  replace (xe - i) with ((xe - j) + (j - i)) by lia.
  rewrite (Z.pow_add_r 2 (xe - j)) by lia.
  replace (m * 2 ^ k * 2 ^ (e - k - i)) with (m * 2 ^ (e - j) * 2 ^ (j - i)).
  2: { rewrite <- !Z.mul_assoc, <- !Z.pow_add_r by lia. do 2 f_equal. lia. }
  rewrite Z.mul_assoc. pose proof (Z.pow_pos_nonneg 2 (j - i)).
  destruct (Z.leb_spec (a * 2 ^ (xe - j)) (m * 2 ^ (e - j))); apply Z.leb_le || apply Z.leb_gt; nia.
Qed.

Lemma run_constant cfg b n : ∀ w, (n ≤ Z.to_nat (WindowSize cfg))%nat →
  ∃ p, win (snd (run_window cfg (replicate n (ORecord b)) w)) = p ++ replicate n b.
Proof.
  induction n as [|n IH] using nat_ind.
  - intros w _. exists (win w). by rewrite app_nil_r.
  - intros w Hn.
    assert (∀ os w, snd (run_window cfg (os ++ [ORecord b]) w) =
             snd (window_record cfg b (snd (run_window cfg os w)))) as Hsnoc.
    { clear. induction os as [|o os IH]; intros w; simpl.
      - by destruct (window_record cfg b w).
      - destruct (window_step cfg o w) as [b0 w0]. specialize (IH w0).
        destruct (run_window cfg (os ++ [ORecord b]) w0), (run_window cfg os w0). done. }
    rewrite replicate_S_end, Hsnoc. destruct (IH w) as [p Hp]; [lia|].
    set (w1 := snd (run_window cfg (replicate n (ORecord b)) w)) in *.
    assert (win (snd (window_record cfg b w1)) = last_n (Z.to_nat (WindowSize cfg)) (win w1 ++ [b])) as ->.
    { unfold window_record. by case_match. }
    rewrite Hp, <- app_assoc, <- replicate_S_end. unfold last_n.
    rewrite length_app, length_replicate, drop_app_le by lia. by eexists.
Qed.

Lemma window_constant cfg b w : valid_config cfg → alarm_ok cfg w → WindowSize cfg < 2 ^ 53 →
  alarm (snd (run_window cfg (replicate (Z.to_nat (WindowSize cfg)) (ORecord b)) w)) = negb b.
Proof.
  intros Hv Hw Hs. pose proof (run_window_ok cfg (replicate (Z.to_nat (WindowSize cfg)) (ORecord b)) w Hv Hw) as [Ha Hl].
  destruct (run_constant cfg b (Z.to_nat (WindowSize cfg)) w) as [p Hp]; [lia|].
  set (w' := snd _) in *. rewrite Hp, length_app, length_replicate in Hl.
  destruct p; [|simpl in Hl; lia]. simpl in Hp. rewrite Ha. unfold window_FailureRate.
  destruct Hv as (Hp0 & Hz & Ho & Hm). rewrite Hp, length_replicate, Z2Nat.id by lia.
  rewrite (proj2 (Z.eqb_neq _ _)), (proj2 (Z.ltb_ge _ _)) by lia. simpl.
  unfold window_rate. rewrite length_replicate, Z2Nat.id by lia.
  assert (failed (replicate (Z.to_nat (WindowSize cfg)) b) = if b then 0 else WindowSize cfg) as ->.
  { transitivity (if b then 0 else Z.of_nat (Z.to_nat (WindowSize cfg))); [|destruct b; lia].
    generalize (Z.to_nat (WindowSize cfg)). intros n. induction n as [|n IH]; [by destruct b|].
    simpl. rewrite failed_cons, IH. destruct b; lia. }
  destruct b.
  - rewrite fdiv_zero by lia. destruct (Threshold cfg) as [x| | |]; try done. simpl in Hz |- *.
    pose proof (fleb_scale x 0 0 121) as E. rewrite Z.mul_0_l in E. rewrite <- Hz. apply E. lia.
  - rewrite fdiv_self by lia. destruct (Threshold cfg) as [x| | |]; try done. simpl in Ho |- *.
    rewrite <- Ho. pose proof (fleb_scale x 1 0 52) as E. rewrite Z.mul_1_l in E. apply E. lia.
Qed.

(** ** Theorems *)

(** C32: the circular buffer refines the rolling window.  From a fresh tracker every
    sequence of recorded outcomes and resets runs without a panic, returns
    exactly the escalation events of the window of the last [WindowSize]
    outcomes, and leaves the same failure rate and the same alarm. *)
Theorem tracker_refines_window (cfg : Config) (t : Tracker) (os : list tracker_op) :
  New cfg = Some t →
  ∃ t', run_tracker os t = Some (fst (run_window cfg os (mkWindow [] false)), t') ∧
    FailureRate t' = window_FailureRate cfg (snd (run_window cfg os (mkWindow [] false))) ∧
    IsEscalated t' = alarm (snd (run_window cfg os (mkWindow [] false))).
Proof.
  intros Hn. destruct (run_tracks cfg os _ _ (New_tracks _ _ Hn)) as (t' & Hr & Ht).
  exists t'. split; [done|]. split; [by apply FailureRate_tracks|apply Ht].
Qed.

(** The tracker reports an escalation exactly while its failure rate meets
    the threshold, [RecordOutcome] fires exactly on the transition, and a
    window of consecutive failures always escalates while a window of
    consecutive successes always re-arms. *)
Theorem tracker_escalation (cfg : Config) (t t1 : Tracker) (os : list tracker_op) (bs : list bool) :
  New cfg = Some t → WindowSize cfg < 2 ^ 53 → run_tracker os t = Some (bs, t1) →
  IsEscalated t1 = gf_leb (Threshold cfg) (FailureRate t1) ∧
  (∀ b, ∃ t2, RecordOutcome b t1 = Some (negb (IsEscalated t1) && IsEscalated t2, t2)) ∧
  (∀ b, ∃ fires t2,
     run_tracker (replicate (Z.to_nat (WindowSize cfg)) (ORecord b)) t1 = Some (fires, t2) ∧
     IsEscalated t2 = negb b).
Proof.
  intros Hn Hs Hr. pose proof (New_valid _ _ Hn) as Hv.
  destruct (run_tracks cfg os _ _ (New_tracks _ _ Hn)) as (t' & Hr' & Ht).
  rewrite Hr' in Hr. injection Hr as _ ->.
  pose proof (run_window_ok cfg os _ Hv (window_empty_ok _ Hv)) as Hok.
  set (w := snd (run_window cfg os _)) in *. pose proof Ht as [_ _ _ _ _ _ Ha]. split_and!.
  - rewrite (FailureRate_tracks _ _ _ Ht). unfold IsEscalated. rewrite Ha. apply Hok.
  - intros b. destruct (RecordOutcome_tracks _ _ _ b Ht) as (t2 & Hb & Ht2). exists t2.
    rewrite Hb, (proj2 (window_record_ok cfg b w Hv Hok)). unfold IsEscalated.
    by rewrite Ha, (tracks_alarm _ _ _ Ht2).
  - intros b. destruct (run_tracks cfg (replicate (Z.to_nat (WindowSize cfg)) (ORecord b)) _ _ Ht)
      as (t2 & Hb & Ht2). eexists _, t2. split; [exact Hb|]. unfold IsEscalated.
    rewrite (tracks_alarm _ _ _ Ht2). by apply window_constant.
Qed.

(** ** Witnesses *)

(** Three outcomes, escalation from a half, two samples at least. *)
Definition tracker_example : Config := mkConfig 3 (Fin (F 1 (-1))) 2.

Lemma tracker_refines_window_witness :
  ∃ t t', New tracker_example = Some t ∧
    run_tracker [ORecord false; ORecord false; ORecord true; ORecord true; ORecord false; OReset] t
      = Some ([false; true; false; false; false; false], t').
Proof.
  destruct (New tracker_example) as [t|] eqn:E; [|vm_compute in E; discriminate].
  exists t. pose proof (tracker_refines_window tracker_example t
    [ORecord false; ORecord false; ORecord true; ORecord true; ORecord false; OReset] E)
    as (t' & H & _).
  exists t'. split; [done|]. rewrite H. vm_compute. reflexivity.
Defined.

Lemma tracker_escalation_witness :
  ∃ t t1 fires t2, New tracker_example = Some t ∧ run_tracker [ORecord true] t = Some ([false], t1) ∧
    run_tracker (replicate 3 (ORecord false)) t1 = Some (fires, t2) ∧ IsEscalated t2 = true.
Proof.
  destruct (New tracker_example) as [t|] eqn:E; [|vm_compute in E; discriminate].
  assert (∃ t1, run_tracker [ORecord true] t = Some ([false], t1)) as [t1 E1].
  { vm_compute in E. injection E as <-. eexists. vm_compute. reflexivity. }
  destruct (tracker_escalation tracker_example t t1 [ORecord true] [false] E) as (_ & _ & H);
    [reflexivity|exact E1|].
  destruct (H false) as (fires & t2 & H1 & H2). exists t, t1, fires, t2. done.
Defined.
