(* ===== verification/S6Logs.v ===== *)
(** * S6Logs: reading the log files s6-log writes

    Models [pkg/service/s6/time.go] and the log half of
    [pkg/service/s6/s6.go]: the time stamp parser, the two log parsers, the
    per-file cursor with its ring buffer, rotation, and [GetLogs].  The
    answers of the file system are arguments of [GetLogs]; the cursors' mutex
    makes one call one atomic step. *)

From S2P Require Import Prelude GoRuntime GoBytes Ring.
From Stdlib Require Import Ascii.
Local Open Scope Z_scope.

(** ** time.go *)

(** [s[i]] after the length check of [ParseNano]. *)
Definition byte_at (s : bytes) (i : nat) : Z := val (nth i s "000"%char).

(** [int(b-'0')]: the subtraction is on bytes. *)
Definition digit_of (b : Z) : Z := (b - 48) mod 256.

Definition toInt (b c : Z) : Z := digit_of b * 10 + digit_of c.

Definition delimiters_ok (s : bytes) : bool :=
  (byte_at s 4 =? 45) && (byte_at s 7 =? 45) && (byte_at s 10 =? 32) &&
  (byte_at s 13 =? 58) && (byte_at s 16 =? 58) && (byte_at s 19 =? 46).

Definition nanos_of (s : bytes) : Z :=
  foldl (λ nano i, nano * 10 + digit_of (byte_at s i)) 0 (seq 20 9).

Definition ParseNano (s : bytes) : Time * option GoErr :=
  if negb (Nat.eqb (length s) 29) then (0, Some (ENew "invalid length"))
  else if negb (delimiters_ok s) then (0, Some (ENew "invalid delimiters"))
  else
    let b := byte_at s in
    let year := digit_of (b 0%nat) * 1000 + digit_of (b 1%nat) * 100
                + digit_of (b 2%nat) * 10 + digit_of (b 3%nat) in
    (Date year (toInt (b 5%nat) (b 6%nat)) (toInt (b 8%nat) (b 9%nat)) (toInt (b 11%nat) (b 12%nat))
       (toInt (b 14%nat) (b 15%nat)) (toInt (b 17%nat) (b 18%nat)) (nanos_of s), None).

(** ** Log entries *)

Record LogEntry := mkLogEntry { Timestamp : Time; Content : bytes }.

#[export] Instance LogEntry_eq_dec : EqDecision LogEntry.
Proof. solve_decision. Defined.

Definition two_spaces : bytes := lit "  ".

(** The body of the loop of [ParseLogsFromBytes], on one non-empty line. *)
Definition parse_line (line : bytes) : LogEntry :=
  match Index line two_spaces with
  | None => mkLogEntry 0 line
  | Some sep =>
      if (sep <? 29)%nat then mkLogEntry 0 line
      else match ParseNano (take sep line) with
           | (ts, None) => mkLogEntry ts (drop (sep + 2) line)
           | (_, Some _) => mkLogEntry 0 line
           end
  end.

(** The loop over the rest of the buffer; every turn consumes a byte, so the
    length of the buffer bounds the turns. *)
Fixpoint parse_from (fuel : nat) (rest : bytes) (entries : list LogEntry) : list LogEntry :=
  match rest, fuel with
  | [], _ | _, O => entries
  | _, S fuel =>
      let '(line, rest') := match IndexByte rest nl with
                            | None => (rest, [])
                            | Some n => (take n rest, drop (n + 1) rest)
                            end in
      match line with
      | [] => parse_from fuel rest' entries
      | _ => parse_from fuel rest' (entries ++ [parse_line line])
      end
  end.

Definition ParseLogsFromBytes (buf : bytes) : list LogEntry :=
  let buf := TrimSuffix buf [nl] in parse_from (length buf) buf [].

Definition parseLogLine (line : bytes) : LogEntry :=
  if (length line <? 28)%nat then mkLogEntry 0 line
  else match Index line two_spaces with
       | None => mkLogEntry 0 line
       | Some sepIdx =>
           if (29 <? sepIdx)%nat then mkLogEntry 0 line
           else
             let content := if (sepIdx + 2 <? length line)%nat then drop (sepIdx + 2) line else [] in
             match ParseNano (take sepIdx line) with
             | (_, Some _) => mkLogEntry 0 line
             | (timestamp, None) => mkLogEntry timestamp content
             end
       end.

Definition keep_stamped (entries : list LogEntry) (line : bytes) : list LogEntry :=
  match line with
  | [] => entries
  | _ => let entry := parseLogLine line in
         if negb (IsZero (Timestamp entry)) then entries ++ [entry] else entries
  end.

Definition ParseLogsFromBytes_Unoptimized (content : bytes) : list LogEntry :=
  foldl keep_stamped [] (split_on nl (TrimSpace content)).

(** ** The cursor of one log file *)

Definition S6MaxLines : Z := 10000.
Definition max_lines : nat := Z.to_nat S6MaxLines.

Record logState := mkLogState {
  logs : list LogEntry;
  inode : Z;
  offset : Z;
  head : Z;
  full : bool }.

Definition new_logState : logState := mkLogState [] 0 0 0 false.

Definition zero_entry : LogEntry := mkLogEntry 0 [].

Definition append_one (st : option logState) (e : LogEntry) : option logState :=
  st ← st; _ ← index (logs st) (head st);
  let h := Z.rem (head st + 1) S6MaxLines in
  Some (mkLogState (<[Z.to_nat (head st):=e]> (logs st)) (inode st) (offset st) h
          (if negb (full st) && (h =? 0) then true else full st)).

(** [None]: an index out of range. *)
Definition appendToRingBuffer (entries : list LogEntry) (st : logState) : option logState :=
  let st := match logs st with
            | [] => mkLogState (replicate max_lines zero_entry) (inode st) (offset st) 0 false
            | _ => st
            end in
  foldl append_one (Some st) entries.

(** [copy(dst, src)]. *)
Definition copy_into {A} (dst src : list A) : list A := take (length dst) src ++ drop (length src) dst.

(** The copy-out of step 5. *)
Definition linearise (st : logState) : list LogEntry :=
  let length_ := if full st then S6MaxLines else head st in
  let out := replicate (Z.to_nat length_) zero_entry in
  let h := Z.to_nat (head st) in
  if full st then
    let n := (length out `min` length (drop h (logs st)))%nat in
    let out := copy_into out (drop h (logs st)) in
    take n out ++ copy_into (drop n out) (take h (logs st))
  else copy_into out (take h (logs st)).

(** Only the entries from the first one after the last deployment on. *)
Fixpoint since_deployment (lastDeployed : Time) (out : list LogEntry) : list LogEntry :=
  match out with
  | [] => []
  | e :: rest => if After (Timestamp e) lastDeployed then out else since_deployment lastDeployed rest
  end.

(** [slices.MaxFunc(entries, cmp.Compare[string])]: the first of the greatest. *)
Fixpoint bytes_ltb (s t : bytes) : bool :=
  match s, t with
  | _, [] => false
  | [], _ :: _ => true
  | a :: s, b :: t => (val a <? val b) || ((val a =? val b) && bytes_ltb s t)
  end.

Definition findLatestRotatedFile (entries : list bytes) : bytes :=
  match entries with
  | [] => []
  | e :: rest => foldl (λ m x, if bytes_ltb m x then x else m) e rest
  end.

(** ** GetLogs *)

(** What the file system answers during one call. *)
Record LogFS := mkLogFS {
  fs_PathExists : bytes → bool * option GoErr;
  fs_Stat : bytes → option (Z * Z) * option GoErr;       (* size, inode *)
  fs_Glob : bytes → list bytes * option GoErr;
  fs_ReadFileRange : bytes → Z → bytes * Z * option GoErr }.

(** The service's cursors and the package's table of deployment times. *)
Record LogService := mkLogService {
  logCursors : gmap bytes logState;
  configChangeTimestamps : gmap bytes Time }.

Definition setLastDeployedTime (servicePath : bytes) (timestamp : Time) (s : LogService) : LogService :=
  mkLogService (logCursors s) (<[servicePath:=timestamp]> (configChangeTimestamps s)).

Definition getLastDeploymentTime (servicePath : bytes) (s : LogService) : Time :=
  default 0 (configChangeTimestamps s !! servicePath).

Definition ErrServiceNotExist : GoErr := ESentinel "s6" "service does not exist".
Definition ErrLogFileNotFound : GoErr := ESentinel "s6" "log file not found".

Definition to_str : bytes → string := String.string_of_list_ascii.

Definition S6LogBaseDir : bytes := lit "/data/logs".

Definition log_file (servicePath : bytes) : bytes :=
  Join [S6LogBaseDir; Base servicePath; lit "current"].

Definition ServiceExists (fs : LogFS) (servicePath : bytes) : bool * option GoErr :=
  match fs_PathExists fs servicePath with
  | (_, Some err) => (false, Some (EWrap "failed to check if S6 service exists: " err))
  | (exists_, None) => (exists_, None)
  end.

Definition set_file (ino off : Z) (st : logState) : logState :=
  mkLogState (logs st) ino off (head st) (full st).

(** The ring is allocated, [head] and [full] are left as they are. *)
Definition ensure_ring (st : logState) : logState :=
  match logs st with
  | [] => mkLogState (replicate max_lines zero_entry) (inode st) (offset st) (head st) (full st)
  | _ => st
  end.

(** Step 2: rotation or truncation.  Returns the bytes read from the rotated
    file; an error of that read is only logged. *)
Definition check_rotation (fs : LogFS) (logFile : bytes) (size ino : Z) (st : logState)
    : bytes * option GoErr * logState :=
  if negb (inode st =? 0) && (negb (inode st =? ino) || (size <? offset st)) then
    let st := ensure_ring st in
    match fs_Glob fs (Join [Dir logFile; lit "@*.s"]) with
    | (_, Some err) => ([], Some err, st)
    | (entries, None) =>
        let rotatedContent := match findLatestRotatedFile entries with
                              | [] => []
                              | rotatedFile => (fs_ReadFileRange fs rotatedFile (offset st)).1.1
                              end in
        (rotatedContent, None, set_file ino 0 st)
    end
  else ([], None, if inode st =? 0 then set_file ino (offset st) st else st).

Definition append_content (content : bytes) (st : logState) : option logState :=
  match content with [] => Some st | _ => appendToRingBuffer (ParseLogsFromBytes content) st end.

(** Steps 2 to 4 on one cursor; [None] is a panic. *)
Definition update_cursor (fs : LogFS) (logFile : bytes) (st : logState) : option (option GoErr * logState) :=
  match fs_Stat fs logFile with
  | (_, Some err) => Some (Some err, st)
  | (None, None) => Some (Some (ENew ("stat returned nil for log file: " +:+ to_str logFile)), st)
  | (Some (size, ino), None) =>
      match check_rotation fs logFile size ino st with
      | (_, Some err, st) => Some (Some err, st)
      | (rotatedContent, None, st) =>
          match fs_ReadFileRange fs logFile (offset st) with
          | (_, _, Some err) => Some (Some err, st)
          | (currentContent, newSize, None) =>
              st ← append_content rotatedContent (set_file (inode st) newSize st);
              st ← append_content currentContent st;
              Some (None, st)
          end
      end
  end.

Definition GetLogs (fs : LogFS) (servicePath : bytes) (s : LogService)
    : option (list LogEntry * option GoErr * LogService) :=
  match ServiceExists fs servicePath with
  | (_, Some err) => Some ([], Some (EWrap "failed to check if service exists: " err), s)
  | (false, None) => Some ([], Some ErrServiceNotExist, s)
  | (true, None) =>
      let logFile := log_file servicePath in
      match fs_PathExists fs logFile with
      | (_, Some err) => Some ([], Some (EWrap "failed to check if log file exists: " err), s)
      | (false, None) =>
          Some ([], Some (EWrap ("path: " +:+ to_str logFile +:+ " err :") ErrLogFileNotFound), s)
      | (true, None) =>
          let st := default new_logState (logCursors s !! logFile) in
          '(err, st) ← update_cursor fs logFile st;
          let s := mkLogService (<[logFile:=st]> (logCursors s)) (configChangeTimestamps s) in
          match err with
          | Some err => Some ([], Some err, s)
          | None =>
              let out := linearise st in
              let lastDeployed := getLastDeploymentTime servicePath s in
              if negb (IsZero lastDeployed) then Some (since_deployment lastDeployed out, None, s)
              else Some (out, None, s)
          end
      end
  end.

(** ** The parsers *)

(** What the loop computes: the non-empty lines, each parsed. *)
Definition entries_of (buf : bytes) : list LogEntry :=
  parse_line <$> filter (λ l : bytes, l ≠ []) (split_on nl buf).

Lemma entries_of_line line rest : nl ∉ line →
  entries_of (line ++ nl :: rest) =
    match line with [] => [] | _ => [parse_line line] end ++ entries_of rest.
Proof.
  intros H. unfold entries_of. rewrite split_on_cons, filter_cons by done.
  by destruct line.
Qed.

Lemma entries_of_last line : nl ∉ line →
  entries_of line = match line with [] => [] | _ => [parse_line line] end.
Proof.
  intros H. unfold entries_of. rewrite split_on_single, filter_cons by done.
  by destruct line.
Qed.

Lemma entries_of_app s t : entries_of (s ++ nl :: t) = entries_of s ++ entries_of t.
Proof. unfold entries_of. by rewrite split_on_app, filter_app, fmap_app. Qed.

(** The loop terminates within its bound and yields exactly these entries. *)
Lemma parse_from_entries fuel : ∀ rest acc, (length rest <= fuel)%nat →
  parse_from fuel rest acc = acc ++ entries_of rest.
Proof.
  induction fuel as [|fuel IH]; intros rest acc Hl.
  { destruct rest; [|simpl in Hl; lia]. simpl. by rewrite app_nil_r. }
  destruct rest as [|a rest']; [simpl; by rewrite app_nil_r|].
  remember (a :: rest') as rest eqn:Er. replace (parse_from (S fuel) rest acc) with
    (let '(line, rest') := match IndexByte rest nl with
                            | None => (rest, [])
                            | Some n => (take n rest, drop (n + 1) rest)
                            end in
      match line with
      | [] => parse_from fuel rest' acc
      | _ => parse_from fuel rest' (acc ++ [parse_line line])
      end) by (subst; reflexivity).
  destruct (IndexByte rest nl) as [n|] eqn:En.
  - apply IndexByte_Some in En as (E & Hn & Hlt). replace (n + 1)%nat with (S n) by lia.
    assert (entries_of rest = match take n rest with [] => [] | _ => [parse_line (take n rest)] end
              ++ entries_of (drop (S n) rest)) as -> by (rewrite E at 1; by apply entries_of_line).
    assert (length (drop (S n) rest) <= fuel)%nat by (rewrite length_drop; lia).
    destruct (take n rest) eqn:Et; rewrite IH by done; [done|]. by rewrite <- app_assoc.
  - apply IndexByte_None in En. rewrite entries_of_last by done. subst rest.
    rewrite IH by (simpl; lia). by rewrite app_nil_r.
Qed.

Lemma TrimSuffix_nl_snoc s : TrimSuffix (s ++ [nl]) [nl] = s.
Proof.
  unfold TrimSuffix. rewrite length_app. simpl. replace (length s + 1 - 1)%nat with (length s) by lia.
  rewrite drop_app_length, decide_True by done. by rewrite take_app_length.
Qed.

(** Every buffer either ends in a newline or is left alone. *)
Lemma TrimSuffix_nl_cases s : (∃ s', s = s' ++ [nl] ∧ TrimSuffix s [nl] = s') ∨ TrimSuffix s [nl] = s.
Proof.
  unfold TrimSuffix. simpl. case_decide as E; [left|by right].
  exists (take (length s - 1) s). split; [|done]. rewrite <- E. by rewrite take_drop.
Qed.

Lemma entries_of_trim s : entries_of (TrimSuffix s [nl]) = entries_of s.
Proof.
  destruct (TrimSuffix_nl_cases s) as [(s' & -> & ->)| ->]; [|done].
  rewrite entries_of_app. by rewrite app_nil_r.
Qed.

Lemma ParseLogsFromBytes_entries buf : ParseLogsFromBytes buf = entries_of buf.
Proof. unfold ParseLogsFromBytes. rewrite parse_from_entries by done. apply entries_of_trim. Qed.

Lemma parseLogLine_parse_line line : parseLogLine line = parse_line line.
Proof.
  unfold parseLogLine, parse_line. destruct (Index line two_spaces) as [sep|] eqn:E; [|by case_match].
  pose proof (Index_lt _ _ _ E) as Hl. change (length two_spaces) with 2%nat in Hl.
  assert (∀ n, (n < length line)%nat → length (take n line) = n) as Ht by (intros; rewrite length_take; lia).
  destruct (Nat.ltb_spec (length line) 28), (Nat.ltb_spec sep 29), (Nat.ltb_spec 29 sep); try done; try lia.
  - unfold ParseNano. rewrite Ht by lia. by rewrite (proj2 (Nat.eqb_neq sep 29)) by lia.
  - unfold ParseNano. rewrite Ht by lia. by rewrite (proj2 (Nat.eqb_neq sep 29)) by lia.
  - destruct (ParseNano (take sep line)) as [ts [err|]]; [done|]. f_equal.
    destruct (Nat.ltb_spec (sep + 2) (length line)); [done|]. by rewrite drop_ge by lia.
Qed.

Lemma foldl_keep_stamped ls : ∀ acc, foldl keep_stamped acc ls =
  acc ++ filter (λ e, IsZero (Timestamp e) = false) (parse_line <$> filter (λ l : bytes, l ≠ []) ls).
Proof.
  induction ls as [|l ls IH]; intros acc; [simpl; by rewrite app_nil_r|].
  simpl. rewrite IH. destruct l as [|a l]; [done|].
  rewrite (filter_cons (λ l : bytes, l ≠ [])), decide_True by done. cbn [fmap list_fmap keep_stamped].
  rewrite filter_cons, parseLogLine_parse_line.
  destruct (IsZero (Timestamp (parse_line (a :: l)))) eqn:Ez; simpl.
  - done.
  - by rewrite <- app_assoc.
Qed.

Lemma Unoptimized_entries content :
  ParseLogsFromBytes_Unoptimized content =
    filter (λ e, IsZero (Timestamp e) = false) (entries_of (TrimSpace content)).
Proof. apply (foldl_keep_stamped _ []). Qed.

(** ** The ring of entries *)

(** An allocated ring to which the entries [hist] have been written. *)
Definition live (st : logState) (hist : list LogEntry) : Prop :=
  length (logs st) = max_lines ∧ 0 <= head st ∧ ring (logs st) (Z.to_nat (head st)) hist ∧
  full st = bool_decide (max_lines <= length hist)%nat.

Definition cursor_ok (st : logState) (hist : list LogEntry) : Prop :=
  (logs st = [] ∧ head st = 0 ∧ full st = false ∧ hist = []) ∨ live st hist.

Lemma max_lines_pos : (0 < max_lines)%nat.
Proof. unfold max_lines, S6MaxLines. lia. Qed.

Lemma max_lines_nat : Z.to_nat S6MaxLines = max_lines.
Proof. done. Qed.

Lemma max_lines_Z : Z.of_nat max_lines = S6MaxLines.
Proof. done. Qed.
#[global] Opaque max_lines.

Definition allocate (st : logState) (h : Z) (f : bool) : logState :=
  mkLogState (replicate max_lines zero_entry) (inode st) (offset st) h f.

Lemma allocate_live st : live (allocate st 0 false) [].
Proof.
  pose proof max_lines_pos. repeat split; simpl; rewrite ?length_replicate; try done; try lia.
Qed.

Lemma append_one_live st hist e : live st hist →
  ∃ st', append_one (Some st) e = Some st' ∧ live st' (hist ++ [e]) ∧
         inode st' = inode st ∧ offset st' = offset st.
Proof.
  intros (Hl & Hh & Hr & Hf). pose proof max_lines_pos as Hm. pose proof max_lines_Z as HZ.
  unfold append_one. simpl. rewrite index_lookup by done.
  destruct (ring_is_Some _ _ _ Hr) as [x Hx]. rewrite Hx. simpl.
  eexists. split; [reflexivity|]. split; [|split; reflexivity].
  assert (Z.rem (head st + 1) S6MaxLines = Z.of_nat ((Z.to_nat (head st) + 1) mod length (logs st))) as ->.
  { rewrite <- HZ, Hl, Z.rem_mod_nonneg, Nat2Z.inj_mod by lia. f_equal. lia. }
  unfold live. cbn [logs head full]. rewrite length_insert, Nat2Z.id.
  split; [exact Hl|]. split; [apply Nat2Z.is_nonneg|]. split; [by apply ring_push|].
  rewrite Hf, length_app. simpl. pose proof (ring_pos _ _ _ Hr) as Hp.
  destruct (decide (max_lines <= length hist)%nat) as [Hge|Hlt].
  - rewrite (bool_decide_eq_true_2 (max_lines <= length hist)%nat), bool_decide_eq_true_2 by lia. done.
  - rewrite (bool_decide_eq_false_2 (max_lines <= length hist)%nat) by lia. simpl.
    rewrite Hp, Hl, (Nat.mod_small (length hist)) by lia.
    destruct (decide (length hist + 1 = max_lines)%nat) as [E|E].
    + rewrite E, Nat.Div0.mod_same, bool_decide_eq_true_2 by lia. done.
    + rewrite Nat.mod_small, bool_decide_eq_false_2 by lia.
      rewrite (proj2 (Z.eqb_neq _ _)) by lia. done.
Qed.

Lemma append_all_live es : ∀ st hist, live st hist →
  ∃ st', foldl append_one (Some st) es = Some st' ∧ live st' (hist ++ es) ∧
         inode st' = inode st ∧ offset st' = offset st.
Proof.
  induction es as [|e es IH]; intros st hist H.
  { exists st. rewrite app_nil_r. done. }
  destruct (append_one_live _ _ e H) as (st1 & H1 & H2 & H3 & H4).
  cbn [foldl]. rewrite H1. destruct (IH _ _ H2) as (st2 & H5 & H6 & H7 & H8).
  exists st2. rewrite <- app_assoc in H6. split_and!; [done|done|congruence|congruence].
Qed.

Lemma appendToRingBuffer_ok es st hist : cursor_ok st hist →
  ∃ st', appendToRingBuffer es st = Some st' ∧ cursor_ok st' (hist ++ es) ∧
         inode st' = inode st ∧ offset st' = offset st.
Proof.
  intros H. unfold appendToRingBuffer.
  assert (∃ st1, match logs st with [] => allocate st 0 false | _ => st end = st1 ∧ live st1 hist ∧
    inode st1 = inode st ∧ offset st1 = offset st) as (st1 & E & Hl & Hi & Ho).
  { destruct H as [(E & _ & _ & ->)|H]; [rewrite E; eexists; split; [done|]; split; [apply allocate_live|done]|].
    destruct (logs st) eqn:El; [|by exists st; split].
    destruct H as (H & _). rewrite El in H. pose proof max_lines_pos. simpl in H. lia. }
  change (mkLogState (replicate max_lines zero_entry) (inode st) (offset st) 0 false) with (allocate st 0 false).
  rewrite E. destruct (append_all_live es _ _ Hl) as (st2 & H1 & H2 & H3 & H4).
  exists st2. split; [done|]. split; [by right|]. split; congruence.
Qed.

Lemma append_content_ok c st hist : cursor_ok st hist →
  ∃ st', append_content c st = Some st' ∧ cursor_ok st' (hist ++ entries_of c) ∧
         inode st' = inode st ∧ offset st' = offset st.
Proof.
  intros H. destruct c as [|a c]; [exists st; rewrite app_nil_r; done|].
  simpl. rewrite ParseLogsFromBytes_entries. by apply appendToRingBuffer_ok.
Qed.

Lemma copy_into_all {A} (dst src : list A) : length dst = length src → copy_into dst src = src.
Proof. intros H. unfold copy_into. rewrite take_ge, drop_ge by lia. apply app_nil_r. Qed.

Lemma copy_into_two {A} (out a b : list A) n :
  length out = (length a + length b)%nat → n = (length out `min` length a)%nat →
  take n (copy_into out a) ++ copy_into (drop n (copy_into out a)) b = a ++ b.
Proof.
  intros H ->. rewrite Nat.min_r by lia.
  assert (copy_into out a = a ++ drop (length a) out) as ->.
  { unfold copy_into. by rewrite (take_ge a) by lia. }
  rewrite take_app_length, drop_app_length. f_equal. apply copy_into_all. rewrite length_drop. lia.
Qed.

Lemma linearise_ok st hist : cursor_ok st hist → linearise st = last_n max_lines hist.
Proof.
  unfold linearise. intros [(Hl & -> & -> & ->)|(Hl & Hh & Hr & ->)].
  { unfold last_n. by rewrite drop_nil. }
  pose proof (ring_pos_lt _ _ _ Hr) as Hp. case_bool_decide as Hf; rewrite ?max_lines_nat.
  - rewrite <- Hl, <- (ring_linear _ _ _ Hr) by lia. apply copy_into_two; [|done].
    rewrite length_replicate, length_drop, length_take, Hl. lia.
  - destruct (ring_prefix _ _ _ Hr) as [E1 E2]; [lia|]. rewrite E2, E1, last_n_all by lia.
    apply copy_into_all. rewrite length_replicate. lia.
Qed.

(** ** Following a log across rotations *)

(** The log directory of one service as s6-log leaves it: the current file and
    the rotated files, oldest first. *)
Record LogDisk := mkLogDisk {
  disk_current : bytes;
  disk_inode : Z;
  disk_rotated : list (bytes * bytes) }.

Definition file_range (content : bytes) (from : Z) : bytes * Z * option GoErr :=
  (drop (Z.to_nat from) content, Z.of_nat (length content), None).

Definition rotated_content (d : LogDisk) (p : bytes) : bytes :=
  match list_find (λ f : bytes * bytes, f.1 = p) (disk_rotated d) with Some (_, f) => f.2 | None => [] end.

Definition disk_fs (path : bytes) (d : LogDisk) : LogFS :=
  mkLogFS (λ _, (true, None))
    (λ _, (Some (Z.of_nat (length (disk_current d)), disk_inode d), None))
    (λ _, ((disk_rotated d).*1, None))
    (λ p from, if decide (p = log_file path) then file_range (disk_current d) from
               else file_range (rotated_content d p) from).

(** The directory, the service, everything written to the log so far, and the
    number of rotations since the log was last read. *)
Record Follow := mkFollow {
  disk : LogDisk;
  svc : LogService;
  written : bytes;
  rotations : nat }.

Definition cursor (path : bytes) (s : LogService) : logState :=
  default new_logState (logCursors s !! log_file path).

Definition nl_ended (b : bytes) : Prop := b = [] ∨ ∃ b', b = b' ++ [nl].

(** A new rotated file sorts after the older ones. *)
Definition fresh_name (path name : bytes) (d : LogDisk) : Prop :=
  name ≠ [] ∧ name ≠ log_file path ∧ ∀ p, p ∈ (disk_rotated d).*1 → bytes_ltb p name = true.

Inductive follow_step (path : bytes) : Follow → Follow → Prop :=
  (** s6-log appends complete lines to the current file *)
  | step_write d s w n chunk : nl_ended chunk →
      follow_step path (mkFollow d s w n)
        (mkFollow (mkLogDisk (disk_current d ++ chunk) (disk_inode d) (disk_rotated d)) s (w ++ chunk) n)
  (** s6-log renames the current file and starts a new one *)
  | step_rotate d s w name ino : inode (cursor path s) ≠ 0 → ino ≠ 0 → ino ≠ disk_inode d →
      fresh_name path name d →
      follow_step path (mkFollow d s w 0)
        (mkFollow (mkLogDisk [] ino (disk_rotated d ++ [(name, disk_current d)])) s w 1)
  (** a call of GetLogs *)
  | step_read d s w n out err s' : GetLogs (disk_fs path d) path s = Some (out, err, s') →
      follow_step path (mkFollow d s w n) (mkFollow d s' w 0)
  (** a redeployment of the service *)
  | step_deploy d s w n t :
      follow_step path (mkFollow d s w n) (mkFollow d (setLastDeployedTime path t s) w n).

Definition follow_start (ino : Z) : Follow :=
  mkFollow (mkLogDisk [] ino []) (mkLogService ∅ ∅) [] 0.

Lemma nl_ended_app s t : nl_ended s → nl_ended t → nl_ended (s ++ t).
Proof.
  intros Hs [->|(t' & ->)]; [by rewrite app_nil_r|]. right. exists (s ++ t'). by rewrite app_assoc.
Qed.

Lemma nl_ended_drop n s : nl_ended s → nl_ended (drop n s).
Proof.
  intros [->|(s' & ->)]; [left; by rewrite drop_nil|].
  destruct (decide (n <= length s')%nat) as [H|H].
  - right. exists (drop n s'). by rewrite drop_app_le.
  - left. apply drop_ge. rewrite length_app. simpl. lia.
Qed.

Lemma entries_of_seq s t : nl_ended s → entries_of (s ++ t) = entries_of s ++ entries_of t.
Proof.
  intros [->|(s' & ->)]; [done|]. rewrite <- app_assoc. simpl. rewrite !entries_of_app.
  by rewrite app_nil_r.
Qed.

Lemma bytes_ltb_asym s t : bytes_ltb s t = true → bytes_ltb t s = false.
Proof.
  revert t. induction s as [|a s IH]; intros [|b t]; try done. simpl.
  intros [H%Z.ltb_lt|[H%Z.eqb_eq Hr]%andb_prop]%orb_prop.
  - rewrite (proj2 (Z.ltb_ge _ _)), (proj2 (Z.eqb_neq _ _)) by lia. done.
  - rewrite H, (proj2 (Z.ltb_ge _ _)), Z.eqb_refl by lia. simpl. by apply IH.
Qed.

(** The rotated file with the greatest name is found wherever it is listed. *)
Lemma findLatestRotatedFile_last l x : (∀ p, p ∈ l → bytes_ltb p x = true) →
  findLatestRotatedFile (l ++ [x]) = x.
Proof.
  intros H. assert (∀ r m, (∀ p, p ∈ r → bytes_ltb p x = true) → bytes_ltb m x = true →
    foldl (λ m x, if bytes_ltb m x then x else m) m (r ++ [x]) = x) as Hg.
  { induction r as [|y r IH]; intros m Hr Hm; simpl; [by rewrite Hm|].
    apply IH; [intros; apply Hr; set_solver|]. case_match; [apply Hr; set_solver|done]. }
  destruct l as [|y l]; [done|]. simpl. apply Hg; [intros; apply H; set_solver|apply H; set_solver].
Qed.

Lemma rotated_content_last d l name c : disk_rotated d = l ++ [(name, c)] → name ∉ l.*1 →
  rotated_content d name = c.
Proof.
  intros E Hn. unfold rotated_content. rewrite E. destruct (list_find _ _) as [[i f]|] eqn:Ef.
  - apply list_find_Some in Ef as (Hl & Hp & _). apply list_elem_of_lookup_2 in Hl.
    apply elem_of_app in Hl as [Hl|Hl%list_elem_of_singleton].
    + destruct Hn. rewrite <- Hp. apply list_elem_of_fmap. by exists f.
    + by subst f.
  - apply list_find_None in Ef. rewrite Forall_app, Forall_singleton in Ef. by destruct Ef.
Qed.

(** What has been read, and where the rest of the log is. *)
Definition unread (path : bytes) (w : Follow) (seen : bytes) : Prop :=
  let st := cursor path (svc w) in
  let d := disk w in
  match rotations w with
  | 0%nat => (inode st = 0 ∨ inode st = disk_inode d) ∧ offset st <= Z.of_nat (length (disk_current d)) ∧
         written w = seen ++ drop (Z.to_nat (offset st)) (disk_current d)
  | 1%nat => inode st ≠ 0 ∧ inode st ≠ disk_inode d ∧ ∃ l name old,
         disk_rotated d = l ++ [(name, old)] ∧ (∀ p, p ∈ l.*1 → bytes_ltb p name = true) ∧
         name ≠ [] ∧ name ≠ log_file path ∧ nl_ended old ∧
         written w = seen ++ drop (Z.to_nat (offset st)) old ++ disk_current d
  | _ => False
  end.

Definition follow_ok (path : bytes) (w : Follow) : Prop :=
  disk_inode (disk w) ≠ 0 ∧ nl_ended (disk_current (disk w)) ∧
  ∃ seen, nl_ended seen ∧ cursor_ok (cursor path (svc w)) (entries_of seen) ∧
          0 <= offset (cursor path (svc w)) ∧ unread path w seen.

Lemma follow_start_ok path ino : ino ≠ 0 → follow_ok path (follow_start ino).
Proof.
  intros H. split; [done|]. split; [by left|]. exists []. split; [by left|].
  unfold unread, cursor. simpl. rewrite lookup_empty. simpl.
  split; [by left|]. split; [lia|]. split; [by left|]. split; [lia|done].
Qed.

Lemma ensure_ring_ok st hist : cursor_ok st hist → cursor_ok (ensure_ring st) hist.
Proof.
  unfold ensure_ring. destruct (logs st) eqn:El; [|done]. intros [(_ & Hh & Hf & ->)|(Hl & _)].
  - right. rewrite Hh, Hf. apply allocate_live.
  - rewrite El in Hl. pose proof max_lines_pos. simpl in Hl. lia.
Qed.

Lemma ensure_ring_offset st : offset (ensure_ring st) = offset st.
Proof. unfold ensure_ring. by destruct (logs st). Qed.

Lemma cursor_ok_file st hist ino off : cursor_ok st hist → cursor_ok (set_file ino off st) hist.
Proof. done. Qed.

(** Step 2 on a directory: the rest of the rotated file, if there is one. *)
Lemma check_rotation_ok path w seen : disk_inode (disk w) ≠ 0 → unread path w seen →
  cursor_ok (cursor path (svc w)) (entries_of seen) →
  ∃ rest st1 from, check_rotation (disk_fs path (disk w)) (log_file path)
      (Z.of_nat (length (disk_current (disk w)))) (disk_inode (disk w)) (cursor path (svc w)) = (rest, None, st1) ∧
    nl_ended rest ∧ cursor_ok st1 (entries_of seen) ∧ inode st1 = disk_inode (disk w) ∧
    offset st1 = from ∧ written w = seen ++ rest ++ drop (Z.to_nat from) (disk_current (disk w)).
Proof.
  intros Hi Hu Hc. unfold unread in Hu. unfold check_rotation.
  set (st := cursor path (svc w)) in *. destruct (rotations w) as [|[|]]; [| |done].
  - destruct Hu as (Hin & Ho & Hw). exists [].
    destruct (Z.eqb_spec (inode st) 0) as [E|E]; cbn [negb andb].
    + eexists _, _. split; [reflexivity|]. split; [by left|]. by split.
    + destruct Hin as [?|E2]; [done|]. rewrite E2, Z.eqb_refl, (proj2 (Z.ltb_ge _ _)) by lia.
      exists st, (offset st). split; [done|]. by split; [left|].
  - destruct Hu as (H0 & Hne & l & name & old & Er & Hlt & Hn1 & Hn2 & Hold & Hw).
    rewrite (proj2 (Z.eqb_neq _ _)), (proj2 (Z.eqb_neq _ _)) by done. simpl.
    rewrite Er, fmap_app. simpl. rewrite findLatestRotatedFile_last by done.
    destruct name as [|a name]; [done|]. rewrite decide_False by done.
    rewrite (rotated_content_last _ _ _ _ Er).
    2: { intros Hin. pose proof (Hlt _ Hin) as H1. by rewrite (bytes_ltb_asym _ _ H1) in H1. }
    unfold file_range. cbn [fst]. rewrite ensure_ring_offset. eexists _, _, 0. split; [reflexivity|].
    split; [by apply nl_ended_drop|]. split; [by apply cursor_ok_file, ensure_ring_ok|done].
Qed.

(** The specification of a read: the last lines of everything written, from
    the first entry after the last deployment on. *)
Definition tail_spec (path : bytes) (w : Follow) : list LogEntry :=
  let out := last_n max_lines (entries_of (written w)) in
  let lastDeployed := getLastDeploymentTime path (svc w) in
  if IsZero lastDeployed then out else since_deployment lastDeployed out.

Lemma update_cursor_ok path w : follow_ok path w →
  ∃ st', update_cursor (disk_fs path (disk w)) (log_file path) (cursor path (svc w)) = Some (None, st') ∧
    cursor_ok st' (entries_of (written w)) ∧ inode st' = disk_inode (disk w) ∧
    offset st' = Z.of_nat (length (disk_current (disk w))) ∧ nl_ended (written w).
Proof.
  intros (Hi & Hcur & seen & Hseen & Hc & _ & Hu). unfold update_cursor. cbn [fs_Stat disk_fs].
  destruct (check_rotation_ok _ _ _ Hi Hu Hc) as (rest & st1 & from & -> & Hr & Hc1 & Hi1 & Ho1 & Hw).
  cbn [fs_ReadFileRange disk_fs]. rewrite decide_True by done. unfold file_range.
  set (st2 := set_file _ _ st1).
  destruct (append_content_ok rest st2 _ (cursor_ok_file _ _ _ _ Hc1)) as (st3 & -> & Hc3 & Hi3 & Ho3). simpl.
  destruct (append_content_ok (drop (Z.to_nat (offset st1)) (disk_current (disk w))) _ _ Hc3)
    as (st4 & -> & Hc4 & Hi4 & Ho4). simpl.
  exists st4. split; [done|]. rewrite Ho1 in Hc4. split_and!.
  - rewrite Hw, !entries_of_seq, app_assoc by done. done.
  - by rewrite Hi4, Hi3, <- Hi1.
  - by rewrite Ho4, Ho3.
  - rewrite Hw. repeat apply nl_ended_app; try done. by apply nl_ended_drop.
Qed.

Lemma GetLogs_timestamps fs path s out err s' : GetLogs fs path s = Some (out, err, s') →
  configChangeTimestamps s' = configChangeTimestamps s.
Proof.
  unfold GetLogs. destruct (ServiceExists fs path) as [[] [|]]; try (intros [= _ _ <-]; reflexivity).
  destruct (fs_PathExists fs (log_file path)) as [[] [|]]; try (intros [= _ _ <-]; reflexivity).
  destruct (update_cursor _ _ _) as [[[|] st]|]; simpl; [|case_match|]; intros [= _ _ <-]; reflexivity.
Qed.

Lemma read_ok path w : follow_ok path w →
  ∃ s', GetLogs (disk_fs path (disk w)) path (svc w) = Some (tail_spec path w, None, s') ∧
        follow_ok path (mkFollow (disk w) s' (written w) 0) ∧ inode (cursor path s') = disk_inode (disk w).
Proof.
  intros Hw. destruct (update_cursor_ok _ _ Hw) as (st' & Hu & Hc & Hi & Ho & Hn).
  unfold GetLogs, ServiceExists. cbn [fs_PathExists disk_fs]. fold (cursor path (svc w)).
  rewrite Hu. cbn [mbind option_bind]. unfold tail_spec.
  rewrite (linearise_ok _ _ Hc). eexists. split.
  { change (getLastDeploymentTime path (mkLogService _ _)) with (getLastDeploymentTime path (svc w)).
    destruct (IsZero (getLastDeploymentTime path (svc w))); reflexivity. }
  destruct Hw as (H0 & Hcur & _). unfold follow_ok, unread, cursor. cbn [svc rotations disk logCursors written].
  rewrite lookup_insert_eq. cbn [default]. unfold id.
  split; [|done]. split; [done|]. split; [done|]. exists (written w).
  rewrite drop_ge, app_nil_r by lia. split_and!; try done; lia.
Qed.

Lemma follow_step_ok path w w' : follow_step path w w' → follow_ok path w → follow_ok path w'.
Proof.
  intros Hs Hw. inversion Hs as [d s b n chunk Hch|d s b name ino H0 Hn0 Hne (Hf1 & Hf2 & Hf3)
    |d s b n out err s' Hg|d s b n t]; subst.
  - destruct Hw as (Hi & Hcur & seen & Hseen & Hc & Ho & Hu). split; [done|].
    split; [by apply nl_ended_app|]. exists seen. split; [done|]. split; [done|]. split; [done|].
    unfold unread in *. cbn [svc disk rotations written disk_current disk_inode disk_rotated] in *.
    destruct n as [|[|]]; [| |done].
    + destruct Hu as (Hin & Hle & ->). split; [done|]. rewrite length_app. split; [lia|].
      rewrite <- app_assoc, drop_app_le by lia. done.
    + destruct Hu as (Hin & Hle & l & name & old & Hr & Hlt & Hn1 & Hn2 & Hold & ->).
      split; [done|]. split; [done|]. exists l, name, old. by rewrite <- !app_assoc.
  - destruct Hw as (Hi & Hcur & seen & Hseen & Hc & Ho & Hu). split; [done|]. split; [by left|].
    exists seen. split; [done|]. split; [done|]. split; [done|].
    unfold unread in *. cbn [svc disk rotations written disk_current disk_inode disk_rotated] in *.
    destruct Hu as ([?|Hin] & Hle & ->); [done|]. split; [done|]. split; [by rewrite Hin|].
    exists (disk_rotated d), name, (disk_current d). by rewrite app_nil_r.
  - destruct (read_ok _ _ Hw) as (s1 & E & H1 & _). cbn [disk svc] in E. rewrite Hg in E. injection E as -> -> ->. done.
  - done.
Qed.

Lemma follow_reach path ino w : ino ≠ 0 → rtc (follow_step path) (follow_start ino) w → follow_ok path w.
Proof.
  intros Hi Hr. pose proof (follow_start_ok path ino Hi) as H0. revert H0.
  induction Hr; [done|]. eauto using follow_step_ok.
Qed.

(** ** Time stamps *)

(** The calendar fields of a time stamp. *)
Record Stamp := mkStamp { sY : Z; sMo : Z; sD : Z; sH : Z; sMi : Z; sS : Z; sN : Z }.

Definition stamp_ok (f : Stamp) : Prop :=
  0 <= sY f <= 9999 ∧ 1 <= sMo f <= 12 ∧ 1 <= sD f <= days_in_month (leap (sY f)) (sMo f) ∧
  0 <= sH f < 24 ∧ 0 <= sMi f < 60 ∧ 0 <= sS f < 60 ∧ 0 <= sN f < nano.

(** "YYYY-MM-DD HH:MM:SS.NNNNNNNNN". *)
Definition stamp_text (f : Stamp) : bytes :=
  pad 10 4 (sY f) ++ lit "-" ++ pad 10 2 (sMo f) ++ lit "-" ++ pad 10 2 (sD f) ++ lit " " ++
  pad 10 2 (sH f) ++ lit ":" ++ pad 10 2 (sMi f) ++ lit ":" ++ pad 10 2 (sS f) ++ lit "." ++ pad 10 9 (sN f).

Definition stamp_time (f : Stamp) : Time := Date (sY f) (sMo f) (sD f) (sH f) (sMi f) (sS f) (sN f).

(** Field by field, the most significant first. *)
Definition stamp_fields (f : Stamp) : list Z := [sY f; sMo f; sD f; sH f; sMi f; sS f; sN f].

Fixpoint lex_ltb (a b : list Z) : bool :=
  match a, b with
  | x :: a, y :: b => (x <? y) || ((x =? y) && lex_ltb a b)
  | _, _ => false
  end.

Lemma digit_of_digit v : 0 <= v < 10 → digit_of (val (digit v)) = v.
Proof.
  intros H. assert (v ∈ seqZ 0 10) as Hd by (apply elem_of_seqZ; lia). clear H. revert v Hd.
  apply Forall_forall. repeat constructor.
Qed.

Lemma digit_of_pad v : digit_of (val (digit (v mod 10))) = v mod 10.
Proof. apply digit_of_digit. apply Z.mod_pos_bound. lia. Qed.

Lemma ParseNano_stamp f : stamp_ok f → ParseNano (stamp_text f) = (stamp_time f, None).
Proof.
  intros (HY & HMo & HD & HH & HMi & HS & HN).
  assert (sD f <= 31) as HD' by (unfold days_in_month in HD; repeat case_match; lia).
  unfold ParseNano. assert (length (stamp_text f) = 29%nat) as ->.
  { unfold stamp_text. rewrite !length_app, !length_pad. reflexivity. }
  cbn [Nat.eqb negb]. assert (delimiters_ok (stamp_text f) = true) as -> by reflexivity.
  cbn [negb]. unfold stamp_time. f_equal. unfold nanos_of, toInt.
  unfold byte_at. cbn [stamp_text pad lit String.list_ascii_of_string app nth foldl seq].
  rewrite !digit_of_pad. f_equal; unfold nano in *; Z.div_mod_to_equations; lia.
Qed.

(** The day of a stamp, and its second. *)
Definition stamp_day (f : Stamp) : Z :=
  days_before_year (sY f) + days_before_month (leap (sY f)) (sMo f) + (sD f - 1).

Lemma stamp_time_day f : stamp_ok f →
  stamp_time f = (((stamp_day f * 24 + sH f) * 60 + sMi f) * 60 + sS f) * nano + sN f.
Proof.
  intros (_ & HMo & _). unfold stamp_time, Date, stamp_day.
  rewrite (Z.div_small (sMo f - 1)), (Z.mod_small (sMo f - 1)) by lia.
  by rewrite Z.add_0_r, Z.sub_add.
Qed.

Lemma stamp_day_lt f g : stamp_ok f → stamp_ok g →
  lex_ltb [sY f; sMo f; sD f] [sY g; sMo g; sD g] = true → stamp_day f < stamp_day g.
Proof.
  intros (HY & HMo & HD & _) (HY' & HMo' & HD' & _) H. unfold stamp_day. simpl in H.
  pose proof (days_before_month_bounds (leap (sY f)) _ HMo) as Hb.
  pose proof (days_before_month_bounds (leap (sY g)) _ HMo') as Hb'.
  destruct (Z.ltb_spec (sY f) (sY g)) as [HL|]; [pose proof (days_before_year_mono _ _ HL); lia|].
  destruct (Z.eqb_spec (sY f) (sY g)) as [E|]; [rewrite E in *; simpl in H|done].
  destruct (Z.ltb_spec (sMo f) (sMo g)) as [HL|].
  { pose proof (days_before_month_mono (leap (sY g)) (sMo f) (sMo g)). lia. }
  destruct (Z.eqb_spec (sMo f) (sMo g)) as [E'|]; [rewrite E' in *; simpl in H|done].
  destruct (Z.ltb_spec (sD f) (sD g)); [lia|]. by rewrite andb_false_r in H.
Qed.

Lemma stamp_time_lt f g : stamp_ok f → stamp_ok g →
  lex_ltb (stamp_fields f) (stamp_fields g) = true → stamp_time f < stamp_time g.
Proof.
  intros Hf Hg H. rewrite !stamp_time_day by done. pose proof (stamp_day_lt f g Hf Hg) as Hd.
  destruct Hf as (_ & _ & _ & Hf), Hg as (_ & _ & _ & Hg). unfold stamp_fields in H. simpl in H, Hd.
  assert (stamp_day f < stamp_day g ∨ (sY f = sY g ∧ sMo f = sMo g ∧ sD f = sD g ∧
     lex_ltb [sH f; sMi f; sS f; sN f] [sH g; sMi g; sS g; sN g] = true)) as [Hlt|(E1 & E2 & E3 & H')].
  { destruct (Z.ltb_spec (sY f) (sY g)); [by left; apply Hd|].
    destruct (Z.eqb_spec (sY f) (sY g)); [simpl in *|done].
    destruct (Z.ltb_spec (sMo f) (sMo g)); [by left; apply Hd|].
    destruct (Z.eqb_spec (sMo f) (sMo g)); [simpl in *|done].
    destruct (Z.ltb_spec (sD f) (sD g)); [by left; apply Hd|].
    destruct (Z.eqb_spec (sD f) (sD g)); [by right|done]. }
  - unfold nano in *. nia.
  - assert (stamp_day f = stamp_day g) as -> by (unfold stamp_day; by rewrite E1, E2, E3).
    simpl in H'. unfold nano in *.
    destruct (Z.ltb_spec (sH f) (sH g)); [lia|]. destruct (Z.eqb_spec (sH f) (sH g)); [simpl in H'|done].
    destruct (Z.ltb_spec (sMi f) (sMi g)); [lia|]. destruct (Z.eqb_spec (sMi f) (sMi g)); [simpl in H'|done].
    destruct (Z.ltb_spec (sS f) (sS g)); [lia|]. destruct (Z.eqb_spec (sS f) (sS g)); [simpl in H'|done].
    destruct (Z.ltb_spec (sN f) (sN g)); [lia|]. by rewrite andb_false_r in H'.
Qed.

Lemma digit_not_space v : digit (v mod 10) ≠ " "%char.
Proof.
  assert (v mod 10 ∈ seqZ 0 10) as Hd.
  { apply elem_of_seqZ. pose proof (Z.mod_pos_bound v 10). lia. }
  revert Hd. generalize (v mod 10). apply Forall_forall. repeat constructor; vm_compute; discriminate.
Qed.

Lemma digit_not_nl v : nl ≠ digit (v mod 10).
Proof.
  assert (v mod 10 ∈ seqZ 0 10) as Hd.
  { apply elem_of_seqZ. pose proof (Z.mod_pos_bound v 10). lia. }
  revert Hd. generalize (v mod 10). apply Forall_forall. repeat constructor; vm_compute; discriminate.
Qed.

Lemma Index_skip a s : a ≠ " "%char → Index (a :: s) two_spaces = S <$> Index s two_spaces.
Proof. intros H. simpl. by rewrite bool_decide_eq_false_2 by congruence. Qed.

Lemma Index_skip_space a s : a ≠ " "%char →
  Index (" "%char :: a :: s) two_spaces = S <$> Index (a :: s) two_spaces.
Proof.
  intros H. assert (is_prefix two_spaces (" "%char :: a :: s) = false) as Hp.
  { simpl. by rewrite (bool_decide_eq_false_2 (" "%char = a)) by congruence. }
  cbn [Index]. by rewrite Hp.
Qed.

Lemma parse_line_stamp f content : stamp_ok f →
  parse_line (stamp_text f ++ two_spaces ++ content) = mkLogEntry (stamp_time f) content.
Proof.
  intros Hf. unfold parse_line.
  assert (length (stamp_text f) = 29%nat) as Hl by (unfold stamp_text; by rewrite !length_app, !length_pad).
  assert (Index (stamp_text f ++ two_spaces ++ content) two_spaces = Some 29%nat) as ->.
  { cbn [stamp_text pad lit String.list_ascii_of_string app two_spaces].
    repeat first [rewrite Index_skip_space by apply digit_not_space
                 |rewrite Index_skip by (first [apply digit_not_space | discriminate])].
    reflexivity. }
  cbn [Nat.ltb Nat.leb]. rewrite (take_app_exact (stamp_text f)) by done. rewrite (ParseNano_stamp f Hf). f_equal.
Qed.

(** ** Theorems *)

(** C30: [GetLogs] refines the tail of the log.  From an empty log directory,
    whatever complete lines s6-log writes, whenever it rotates the file (at
    most once between two reads) and whenever the service is redeployed, a
    call returns exactly the last [S6MaxLines] entries of everything written
    so far, from the first entry after the last deployment on: no line is
    lost, repeated or reordered across rotations. *)
Theorem getlogs_refines_tail (path : bytes) (ino : Z) (w : Follow) :
  ino ≠ 0 → rtc (follow_step path) (follow_start ino) w →
  ∃ s', GetLogs (disk_fs path (disk w)) path (svc w) = Some (tail_spec path w, None, s') ∧
        follow_step path w (mkFollow (disk w) s' (written w) 0).
Proof.
  intros Hi Hr. destruct (read_ok path w (follow_reach _ _ _ Hi Hr)) as (s' & E & _).
  exists s'. split; [done|]. destruct w. by eapply step_read.
Qed.

(** The optimised parser is equivalent to the readable one.  On every
    buffer they parse each line alike; the readable one additionally trims the
    buffer and drops the entries without a time stamp. *)
Theorem log_parsers_agree (content line : bytes) :
  ParseLogsFromBytes_Unoptimized content =
    filter (λ e, IsZero (Timestamp e) = false) (ParseLogsFromBytes (TrimSpace content)) ∧
  (line ≠ [] → nl ∉ line → ParseLogsFromBytes line = [parseLogLine line]).
Proof.
  rewrite !ParseLogsFromBytes_entries, Unoptimized_entries. split; [done|].
  intros Hne Hnl. rewrite entries_of_last, parseLogLine_parse_line by done. by destruct line.
Qed.

(** Time stamps round-trip.  The text of a valid time stamp parses to its
    moment, a log line made of it and any content parses to the entry it was
    made from, and the order of the fields is the order of the moments. *)
Theorem stamp_roundtrip (f g : Stamp) (content : bytes) :
  stamp_ok f → stamp_ok g → nl ∉ content →
  ParseNano (stamp_text f) = (stamp_time f, None) ∧
  ParseLogsFromBytes (stamp_text f ++ two_spaces ++ content ++ [nl]) = [mkLogEntry (stamp_time f) content] ∧
  (lex_ltb (stamp_fields f) (stamp_fields g) = true → stamp_time f < stamp_time g).
Proof.
  intros Hf Hg Hc. split; [by apply ParseNano_stamp|]. split; [|by apply stamp_time_lt].
  rewrite ParseLogsFromBytes_entries, !app_assoc, entries_of_app, <- app_assoc.
  rewrite (entries_of_last []) by apply not_elem_of_nil. rewrite app_nil_r, entries_of_last.
  - rewrite (parse_line_stamp f content Hf). by destruct (stamp_text f) eqn:E.
  - rewrite !not_elem_of_app. split; [|split; [vm_compute; set_solver|done]].
    cbn [stamp_text pad lit String.list_ascii_of_string app].
    repeat (apply not_elem_of_cons; split); [..|apply not_elem_of_nil]; try discriminate.
    all: apply digit_not_nl.
Qed.

(** When the call that notices a rotation fails to read the new file, the
    cursor already points to its start and what was read from the rotated file
    is in no ring: these lines are never returned. *)
Theorem rotation_error_drops (fs : LogFS) (logFile : bytes) (st : logState) (size ino : Z)
    (rotatedFile data : bytes) (off n : Z) (err : GoErr) :
  fs_Stat fs logFile = (Some (size, ino), None) → inode st ≠ 0 → inode st ≠ ino →
  fs_Glob fs (Join [Dir logFile; lit "@*.s"]) = ([rotatedFile], None) → rotatedFile ≠ [] →
  fs_ReadFileRange fs rotatedFile (offset st) = (data, n, None) →
  fs_ReadFileRange fs logFile 0 = ([], off, Some err) →
  update_cursor fs logFile st = Some (Some err, set_file ino 0 (ensure_ring st)).
Proof.
  intros Hs H0 Hi Hg Hr Hd He. unfold update_cursor, check_rotation. rewrite Hs, Hg.
  rewrite (proj2 (Z.eqb_neq _ _)), (proj2 (Z.eqb_neq _ _)) by done. cbn [negb andb orb].
  cbn [offset set_file]. by rewrite He.
Qed.

(** Letters where digits belong are read as if they were digits. *)
Theorem nondigits_accepted :
  ParseNano (lit "202x-01-01 00:00:00.000000000") = (Date 2092 1 1 0 0 0 0, None).
Proof. reflexivity. Qed.

(** ** Witnesses *)

Definition example_path : bytes := lit "/run/service/benthos-1".
Definition example_line (sec : Z) : bytes :=
  stamp_text (mkStamp 2025 4 20 13 1 sec 123456789) ++ two_spaces ++ lit "up" ++ [nl].
Definition example_entry (sec : Z) : LogEntry :=
  mkLogEntry (stamp_time (mkStamp 2025 4 20 13 1 sec 123456789)) (lit "up").

Lemma example_line_ended sec : nl_ended (example_line sec).
Proof.
  right. exists (stamp_text (mkStamp 2025 4 20 13 1 sec 123456789) ++ two_spaces ++ lit "up").
  unfold example_line. by rewrite <- !app_assoc.
Qed.

(** Written, read, written, rotated, written: the next call returns all three lines. *)
Lemma getlogs_refines_tail_witness : ∃ w s',
  rtc (follow_step example_path) (follow_start 7) w ∧
  disk_inode (disk w) = 8 ∧ disk_current (disk w) = example_line 3 ∧
  GetLogs (disk_fs example_path (disk w)) example_path (svc w)
    = Some ([example_entry 1; example_entry 2; example_entry 3], None, s').
Proof.
  set (w1 := mkFollow (mkLogDisk ([] ++ example_line 1) 7 []) (mkLogService ∅ ∅) ([] ++ example_line 1) 0).
  assert (follow_step example_path (follow_start 7) w1) as S1 by apply step_write, example_line_ended.
  assert (rtc (follow_step example_path) (follow_start 7) w1) as R1 by (eapply rtc_l; [exact S1|constructor]).
  destruct (read_ok example_path w1) as (s2 & G2 & _ & I2).
  { apply (follow_reach _ 7); [lia|done]. }
  set (w2 := mkFollow (disk w1) s2 (written w1) 0).
  assert (follow_step example_path w1 w2) as S2 by (eapply step_read, G2).
  set (d3 := mkLogDisk (disk_current (disk w1) ++ example_line 2) 7 []).
  set (w3 := mkFollow d3 s2 (written w1 ++ example_line 2) 0).
  assert (follow_step example_path w2 w3) as S3 by apply (step_write _ (disk w1)), example_line_ended.
  set (name := lit "/data/logs/benthos-1/@4000.s").
  set (d4 := mkLogDisk [] 8 ([] ++ [(name, disk_current d3)])).
  set (w4 := mkFollow d4 s2 (written w3) 1).
  assert (follow_step example_path w3 w4) as S4.
  { apply (step_rotate _ d3); [by rewrite I2|done|done|]. split; [discriminate|]. split; [discriminate|].
    intros p Hp. change (p ∈ @nil bytes) in Hp. inversion Hp. }
  set (w5 := mkFollow (mkLogDisk ([] ++ example_line 3) 8 (disk_rotated d4)) s2 (written w4 ++ example_line 3) 1).
  assert (follow_step example_path w4 w5) as S5 by apply (step_write _ d4), example_line_ended.
  assert (rtc (follow_step example_path) (follow_start 7) w5) as R5.
  { etransitivity; [exact R1|]. eapply rtc_l; [exact S2|]. eapply rtc_l; [exact S3|].
    eapply rtc_l; [exact S4|]. eapply rtc_l; [exact S5|constructor]. }
  destruct (getlogs_refines_tail example_path 7 w5) as (s' & E & _); [lia|done|].
  exists w5, s'. split; [done|]. split; [done|]. split; [done|]. rewrite E. do 3 f_equal.
  unfold tail_spec. assert (getLastDeploymentTime example_path (svc w5) = 0) as ->.
  { cbn [svc w5]. assert (configChangeTimestamps s2 = ∅) as Hc; [|unfold getLastDeploymentTime; by rewrite Hc].
    by rewrite (GetLogs_timestamps _ _ _ _ _ _ G2). }
  cbn [IsZero Z.eqb]. assert (entries_of (written w5) = [example_entry 1; example_entry 2; example_entry 3]) as ->
    by (vm_compute; reflexivity).
  apply last_n_all. pose proof max_lines_Z. unfold S6MaxLines in *. simpl. lia.
Defined.

Lemma log_parsers_agree_witness :
  ParseLogsFromBytes (lit "2025-04-20 13:01:02.123456789  hi") = [parseLogLine (lit "2025-04-20 13:01:02.123456789  hi")].
Proof.
  apply (log_parsers_agree [] (lit "2025-04-20 13:01:02.123456789  hi")); [discriminate|].
  apply (bool_decide_unpack _). vm_compute. exact I.
Defined.

Lemma stamp_roundtrip_witness :
  ParseNano (lit "2025-04-20 13:01:02.123456789") = (stamp_time (mkStamp 2025 4 20 13 1 2 123456789), None) ∧
  stamp_time (mkStamp 2025 4 20 13 1 2 123456789) < stamp_time (mkStamp 2025 4 21 0 0 0 0).
Proof.
  destruct (stamp_roundtrip (mkStamp 2025 4 20 13 1 2 123456789) (mkStamp 2025 4 21 0 0 0 0) (lit "up"))
    as (H1 & _ & H2); [unfold stamp_ok, nano; simpl; lia| unfold stamp_ok, nano; simpl; lia| |].
  { apply (bool_decide_unpack _). vm_compute. exact I. }
  split; [exact H1|]. apply H2. reflexivity.
Defined.
