(* ===== verification/S6Status.v ===== *)
(** * S6Status: the status files s6-supervise writes

    Models [pkg/service/s6/status.go], [Status] of [s6.go] and the vendored
    TAI64N parser [github.com/cactus/tai64]: the 43-byte status file, the
    death tally, the service information derived from them. *)

From S2P Require Import Prelude Float64 GoRuntime GoBytes S6Logs.
From Stdlib Require Import Ascii Sorted.
Local Open Scope Z_scope.

(** ** TAI64N *)

Definition epochTai64 : Z := 2 * 2 ^ 61 + 10.

(** TAI time, TAI-UTC offset and Unix time of the leap seconds. *)
Definition tia64nDifferences : list (Z * Z * Z) :=
  [(0x4000000003c2670a, 10, 63072000); (0x4000000004b2580b, 11, 78796800); (0x4000000005a4ec0c, 12, 94694400);
   (0x4000000007861f8d, 13, 126230400); (0x400000000967530e, 14, 157766400); (0x400000000b48868f, 15, 189302400);
   (0x400000000d2b0b90, 16, 220924800); (0x400000000f0c3f11, 17, 252460800); (0x4000000010ed7292, 18, 283996800);
   (0x4000000012cea613, 19, 315532800); (0x40000000159fca94, 20, 362793600); (0x400000001780fe15, 21, 394329600);
   (0x4000000019623196, 22, 425865600); (0x400000001d25ea17, 23, 489024000); (0x4000000021dae518, 24, 567993600);
   (0x40000000259e9d99, 25, 631152000); (0x40000000277fd11a, 26, 662688000); (0x400000002a50f59b, 27, 709948800);
   (0x400000002c32291c, 28, 741484800); (0x400000002e135c9d, 29, 773020800); (0x4000000030e7241e, 30, 820454400);
   (0x4000000033b8489f, 31, 867715200); (0x40000000368c1020, 32, 915148800); (0x4000000043b71ba1, 33, 1136073600);
   (0x40000000495c07a2, 34, 1230768000); (0x400000004fef9323, 35, 1341100800); (0x4000000055932da4, 36, 1435708800);
   (0x40000000586846a5, 37, 1483228800)].

(** The offset of the last entry whose time is not after the given one; 10 without one. *)
Definition GetOffsetUnix (utime : Z) : Z :=
  foldl (λ off '(_, o, u), if utime <? u then off else o) 10 tia64nDifferences.
Definition getInvOffsetTai64 (ttime : Z) : Z :=
  foldl (λ off '(t, o, _), if ttime <? t then off else o) 10 tia64nDifferences.

(** [tai64.Parse]; [None] is the index panic on the empty string.  The number
    errors of [strconv] keep the text they failed on. *)
Definition tai_Parse (s : bytes) : option (Time * option GoErr) :=
  match s with
  | [] => None
  | a :: t =>
      let s := if decide (a = "@"%char) then t else s in
      Some (
      if (length s <? 16)%nat then (0, Some (ENew "invalid tai64 time string"))
      else
        match ParseInt (take 16 s) 16 with
        | None => (0, Some (ENew ("strconv.ParseInt: parsing " +:+ to_str (take 16 s))))
        | Some tseconds =>
            let s := drop 16 s in
            match (if (Nat.eqb (length s) 8 || Nat.eqb (length s) 16)%bool then ParseInt (take 8 s) 16 else Some 0) with
            | None => (0, Some (ENew ("strconv.ParseInt: parsing " +:+ to_str (take 8 s))))
            | Some nanoseconds =>
                if epochTai64 <=? tseconds
                then (Unix (tseconds - epochTai64 - (getInvOffsetTai64 tseconds - 10)) nanoseconds, None)
                else (Unix (- (epochTai64 - tseconds)) nanoseconds, None)
            end
        end)
  end.

(** ** The status file *)

Record S6StatusData := mkS6StatusData {
  StampTime : Time;
  ReadyTime : Time;
  Pid : Z;
  Pgid : Z;
  Wstat : Z;
  IsPaused : bool;
  IsFinishing : bool;
  IsWantingUp : bool;
  IsReady : bool }.

Definition S6StatusFileSize : nat := 43.
Definition S6StatusChangedOffset : nat := 0.
Definition S6StatusReadyOffset : nat := 12.
Definition S6StatusPidOffset : nat := 24.
Definition S6StatusPgidOffset : nat := 32.
Definition S6StatusWstatOffset : nat := 40.
Definition S6StatusFlagsOffset : nat := 42.
Definition S6FlagPaused : Z := 1.
Definition S6FlagFinishing : Z := 2.
Definition S6FlagWantUp : Z := 4.
Definition S6FlagReady : Z := 8.

(** [data[off:off+n]] after the length check. *)
Definition field (data : bytes) (off n : nat) : bytes := take n (drop off data).

(** The time stamp at an offset: its hex form goes through the parser. *)
Definition stamp_hex (data : bytes) (off : nat) : bytes := "@"%char :: EncodeToString (field data off 12).
Definition parse_stamp (data : bytes) (off : nat) : option (Time * option GoErr) := tai_Parse (stamp_hex data off).

Definition flag_set (flags mask : Z) : bool := negb (Z.land flags mask =? 0).

(** The result is nil exactly when there is an error. *)
Definition parseS6StatusFile (read : bytes * option GoErr) : option (S6StatusData + GoErr) :=
  match read with
  | (_, Some err) => Some (inr (EWrap "failed to read status file: " err))
  | (statusData, None) =>
      if negb (Nat.eqb (length statusData) S6StatusFileSize)
      then Some (inr (ENew ("invalid status file size: got " +:+ pretty (length statusData)
                            +:+ " bytes, expected " +:+ pretty S6StatusFileSize)))
      else
        match parse_stamp statusData S6StatusChangedOffset with
        | None => None
        | Some (_, Some err) => Some (inr (EWrap ("failed to parse stamp (" +:+ to_str (stamp_hex statusData S6StatusChangedOffset) +:+ "): ") err))
        | Some (stampTime, None) =>
            match parse_stamp statusData S6StatusReadyOffset with
            | None => None
            | Some (_, Some err) => Some (inr (EWrap ("failed to parse readystamp (" +:+ to_str (stamp_hex statusData S6StatusReadyOffset) +:+ "): ") err))
            | Some (readyTime, None) =>
                let pid := BigEndian (field statusData S6StatusPidOffset 8) in
                let pgid := BigEndian (field statusData S6StatusPgidOffset 8) in
                let wstat := BigEndian (field statusData S6StatusWstatOffset 2) in
                let flags := BigEndian (field statusData S6StatusFlagsOffset 1) in
                Some (inl (mkS6StatusData stampTime readyTime (wrap_i64 pid) (wrap_i64 pgid) wstat
                  (flag_set flags S6FlagPaused) (flag_set flags S6FlagFinishing)
                  (flag_set flags S6FlagWantUp) (flag_set flags S6FlagReady)))
            end
        end
  end.

(** ** The death tally *)

Record ExitEvent := mkExitEvent { EvTimestamp : Time; EvExitCode : Z; EvSignal : Z }.

Definition S6_DTALLY_PACK : nat := 14.

Definition parse_record (record : bytes) : option (option ExitEvent) :=
  match tai_Parse ("@"%char :: EncodeToString (take 12 record)) with
  | None => None
  | Some (_, Some _) => Some None
  | Some (parsedTime, None) => Some (Some (mkExitEvent parsedTime (byte_at record 12) (byte_at record 13)))
  end.

(** The loop over the records; a record whose time stamp does not parse is skipped. *)
Fixpoint parse_records (n : nat) (data : bytes) (history : list ExitEvent) : option (list ExitEvent) :=
  match n with
  | O => Some history
  | S n =>
      ev ← parse_record (take S6_DTALLY_PACK data);
      parse_records n (drop S6_DTALLY_PACK data)
        (match ev with Some e => history ++ [e] | None => history end)
  end.

(** The file system's answers about the death tally. *)
Definition ExitHistory (exists_ : bool * option GoErr) (read : bytes * option GoErr)
    : option (list ExitEvent * option GoErr) :=
  match exists_ with
  | (_, Some err) => Some ([], Some err)
  | (false, None) => Some ([], None)
  | (true, None) =>
      match read with
      | (_, Some err) => Some ([], Some (EWrap "failed to read dtally file: " err))
      | (data, None) =>
          if negb (Nat.eqb (length data mod S6_DTALLY_PACK) 0)
          then Some ([], Some (ENew ("dtally file size (" +:+ pretty (length data)
                 +:+ " bytes) is not a multiple of record size (" +:+ pretty S6_DTALLY_PACK +:+ ")")))
          else history ← parse_records (length data / S6_DTALLY_PACK) data []; Some (history, None)
      end
  end.

(** ** The service information *)

Definition ServiceStatus : Type := string.
Definition ServiceUnknown : ServiceStatus := "unknown".
Definition ServiceUp : ServiceStatus := "up".
Definition ServiceDown : ServiceStatus := "down".
Definition ServiceRestarting : ServiceStatus := "restarting".

Record ServiceInfo := mkServiceInfo {
  LastChangedAt : Time;
  LastReadyAt : Time;
  LastDeploymentTime : Time;
  Status : ServiceStatus;
  InfoExitHistory : list ExitEvent;
  Uptime : Z;
  DownTime : Z;
  InfoReadyTime : Z;
  InfoPid : Z;
  InfoPgid : Z;
  ExitCode : Z;
  WantUp : bool;
  InfoIsPaused : bool;
  InfoIsFinishing : bool;
  InfoIsWantingUp : bool;
  InfoIsReady : bool;
  IsDownAndReady : bool }.

(** [syscall.WaitStatus] on Linux. *)
Definition Exited (w : Z) : bool := Z.land w 127 =? 0.
Definition Signaled (w : Z) : bool := negb (Z.land w 127 =? 127) && negb (Z.land w 127 =? 0).
Definition ExitStatus (w : Z) : Z := if Exited w then Z.land (Z.shiftr w 8) 255 else -1.
Definition WSignal (w : Z) : Z := if Signaled w then Z.land w 127 else -1.

Definition exit_code (wstat : Z) : Z :=
  if Exited wstat then ExitStatus wstat
  else if Signaled wstat then - WSignal wstat
  else wstat.

(** [now.Sub(t)]: a saturated number of nanoseconds; [Duration.Seconds()] as an int64. *)
Definition time_Sub (now t : Time) : Z := Z.max (- 2 ^ 63) (Z.min (2 ^ 63 - 1) (now - t)).
Definition seconds (d : Z) : Z :=
  ftrunc (fadd (of_int (Z.quot d nano)) (fdiv (of_int (Z.rem d nano)) (of_int nano))).

(** The answers of the file system about one service. *)
Record StatusFS := mkStatusFS {
  st_PathExists : bytes → bool * option GoErr;
  st_FileExists : bytes → bool * option GoErr;
  st_ReadFile : bytes → bytes * option GoErr }.

Definition S6DtallyFileName : bytes := lit "death_tally".
Definition S6SuperviseStatusFile : bytes := lit "status".

Definition buildFullServiceInfo (fs : StatusFS) (servicePath : bytes) (s : LogService) (now : Time)
    (d : S6StatusData) : option (ServiceInfo * option GoErr) :=
  let up := negb (Pid d =? 0) && negb (IsFinishing d) in
  let since := seconds (time_Sub now (StampTime d)) in
  let wantUp := negb (st_FileExists fs (Join [servicePath; lit "down"])).1 in
  let info hist := mkServiceInfo (StampTime d) (ReadyTime d) (getLastDeploymentTime servicePath s)
    (if up then ServiceUp else ServiceDown) hist
    (if up then since else 0) (if up then 0 else since) (seconds (time_Sub now (ReadyTime d)))
    (Pid d) (Pgid d) (if up then 0 else exit_code (Wstat d)) wantUp
    (IsPaused d) (IsFinishing d) (IsWantingUp d) (IsReady d) (IsReady d && (Pid d =? 0)) in
  let dtallyFile := Join [Join [servicePath; lit "supervise"]; S6DtallyFileName] in
  r ← ExitHistory (st_FileExists fs dtallyFile) (st_ReadFile fs dtallyFile);
  match r with
  | (history, None) => Some (info history, None)
  | (_, Some histErr) => Some (info [], Some (EWrap "failed to get exit history: " histErr))
  end.

Definition no_info (status : ServiceStatus) : ServiceInfo :=
  mkServiceInfo 0 0 0 status [] 0 0 0 0 0 0 false false false false false false.

Definition service_Status (fs : StatusFS) (servicePath : bytes) (s : LogService) (now : Time)
    : option (ServiceInfo * option GoErr) :=
  match st_PathExists fs servicePath with
  | (_, Some err) => Some (no_info "", Some (EWrap "failed to check if service exists: "
                             (EWrap "failed to check if S6 service exists: " err)))
  | (false, None) => Some (no_info "", Some ErrServiceNotExist)
  | (true, None) =>
      let info := no_info ServiceUnknown in
      let superviseDir := Join [servicePath; lit "supervise"] in
      match st_FileExists fs superviseDir with
      | (_, Some err) => Some (info, Some (EWrap "failed to check if supervise directory exists: " err))
      | (false, None) => Some (info, Some ErrServiceNotExist)
      | (true, None) =>
          let statusFile := Join [superviseDir; S6SuperviseStatusFile] in
          match st_FileExists fs statusFile with
          | (_, Some err) => Some (info, Some (EWrap "failed to check if status file exists: " err))
          | (false, None) => Some (info, Some ErrServiceNotExist)
          | (true, None) =>
              match parseS6StatusFile (st_ReadFile fs statusFile) with
              | None => None
              | Some (inr err) => Some (info, Some (EWrap "failed to parse status file: " err))
              | Some (inl statusData) => buildFullServiceInfo fs servicePath s now statusData
              end
          end
      end
  end.

(** ** TAI64N labels *)

(** The label of a moment: the Unix second shifted by the leap seconds, and the nanosecond. *)
Definition unix_sec (t : Time) : Z := t / nano - unixToInternal.
Definition tai_label (sec : Z) : Z := if sec <? 0 then epochTai64 + sec else 2 ^ 62 + sec + GetOffsetUnix sec.
Definition tai_bytes (t : Time) : bytes := be_bytes 8 (tai_label (unix_sec t)) ++ be_bytes 4 (t mod nano).

(** The moments a label can express. *)
Definition time_ok (t : Time) : Prop := - 2 ^ 62 <= unix_sec t < 2 ^ 61.

Lemma foldl_pick {A} (f : A → bool) (g : A → Z) (l : list A) acc :
  foldl (λ off x, if f x then off else g x) acc l = acc ∨
  ∃ x, x ∈ l ∧ f x = false ∧ foldl (λ off x, if f x then off else g x) acc l = g x.
Proof.
  revert acc. induction l as [|x l IH]; intros acc; [by left|]. simpl.
  destruct (IH (if f x then acc else g x)) as [->|(y & Hy & Hf & ->)].
  - destruct (f x) eqn:E; [by left|]. right. exists x. set_solver.
  - right. exists y. set_solver.
Qed.

Definition entry_u (x : Z * Z * Z) : Z := x.2.
Definition entry_o (x : Z * Z * Z) : Z := x.1.2.
Definition entry_t (x : Z * Z * Z) : Z := x.1.1.

(** Offsets grow with the times, and the TAI time is the shifted Unix time. *)
Lemma differences_ok : ∀ x y, x ∈ tia64nDifferences → y ∈ tia64nDifferences →
  entry_t x = 2 ^ 62 + entry_u x + entry_o x ∧ 10 <= entry_o x <= 37 ∧
  (entry_u x <= entry_u y → entry_o x <= entry_o y).
Proof.
  assert (Forall (λ x, Forall (λ y, entry_t x = 2 ^ 62 + entry_u x + entry_o x ∧ 10 <= entry_o x <= 37 ∧
    (entry_u x <= entry_u y → entry_o x <= entry_o y)) tia64nDifferences) tia64nDifferences) as H.
  { apply (bool_decide_unpack _). vm_compute. exact I. }
  rewrite Forall_forall in H. intros x y Hx Hy. specialize (H x Hx). rewrite Forall_forall in H. by apply H.
Qed.

Lemma GetOffsetUnix_fold u : GetOffsetUnix u = foldl (λ off x, if u <? entry_u x then off else entry_o x) 10 tia64nDifferences.
Proof. reflexivity. Qed.
Lemma getInvOffset_fold t : getInvOffsetTai64 t = foldl (λ off x, if t <? entry_t x then off else entry_o x) 10 tia64nDifferences.
Proof. reflexivity. Qed.

Lemma GetOffsetUnix_range u : 10 <= GetOffsetUnix u <= 37.
Proof.
  rewrite GetOffsetUnix_fold.
  destruct (foldl_pick (λ x, u <? entry_u x) entry_o tia64nDifferences 10) as [->|(x & Hx & _ & ->)]; [lia|].
  apply (differences_ok x x Hx Hx).
Qed.

(** The offset is at least that of every entry not after the time. *)
Lemma foldl_pick_ge u (l : list (Z * Z * Z)) acc x : x ∈ l → (∀ y z, y ∈ l → z ∈ l → entry_u y <= entry_u z → entry_o y <= entry_o z) →
  entry_u x <= u → StronglySorted (λ y z, entry_u y <= entry_u z) l →
  entry_o x <= foldl (λ off x, if u <? entry_u x then off else entry_o x) acc l.
Proof.
  intros Hx Hm Hu Hs. revert acc. induction l as [|y l IH]; intros acc; [by apply not_elem_of_nil in Hx|].
  apply StronglySorted_inv in Hs as [Hs Hy]. simpl. apply elem_of_cons in Hx as [->|Hx].
  - rewrite (proj2 (Z.ltb_ge _ _)) by done.
    destruct (foldl_pick (λ x, u <? entry_u x) entry_o l (entry_o y)) as [->|(z & Hz & _ & ->)]; [lia|].
    rewrite Forall_forall in Hy. apply Hm; [set_solver|set_solver|by apply Hy].
  - apply IH; [done| |done]. intros; apply Hm; set_solver.
Qed.

Lemma differences_sorted : StronglySorted (λ y z, entry_u y <= entry_u z) tia64nDifferences.
Proof. repeat constructor; vm_compute; discriminate. Qed.

(** The inverse table undoes the offset. *)
Lemma getInv_offset u : getInvOffsetTai64 (2 ^ 62 + u + GetOffsetUnix u) = GetOffsetUnix u.
Proof.
  assert (∀ x, x ∈ tia64nDifferences → (2 ^ 62 + u + GetOffsetUnix u <? entry_t x) = (u <? entry_u x)) as H.
  { intros x Hx. destruct (differences_ok x x Hx Hx) as (Ht & Ho & _). rewrite Ht.
    destruct (Z.ltb_spec u (entry_u x)) as [Hlt|Hge].
    - apply Z.ltb_lt. enough (GetOffsetUnix u <= entry_o x) by lia. rewrite GetOffsetUnix_fold.
      destruct (foldl_pick (λ x, u <? entry_u x) entry_o tia64nDifferences 10) as [->|(y & Hy & Hf & ->)]; [lia|].
      apply Z.ltb_ge in Hf. apply (differences_ok y x Hy Hx). lia.
    - apply Z.ltb_ge. enough (entry_o x <= GetOffsetUnix u) by lia. rewrite GetOffsetUnix_fold.
      apply foldl_pick_ge; [done| |lia|apply differences_sorted].
      intros y z Hy Hz. apply (differences_ok y z Hy Hz). }
  revert H. generalize (2 ^ 62 + u + GetOffsetUnix u). intros t.
  rewrite getInvOffset_fold, GetOffsetUnix_fold. generalize 10. revert t. intros t acc H. revert acc. induction tia64nDifferences as [|x l IH]; intros acc; [done|].
  simpl. rewrite H by set_solver. apply IH. intros; apply H; set_solver.
Qed.

Lemma tai_label_range t : time_ok t → 0 <= tai_label (unix_sec t) < 2 ^ 63.
Proof.
  unfold time_ok, tai_label, epochTai64. intros H. pose proof (GetOffsetUnix_range (unix_sec t)). zcases; lia.
Qed.

Lemma tai_Parse_bytes t : time_ok t → tai_Parse ("@"%char :: EncodeToString (tai_bytes t)) = Some (t, None).
Proof.
  intros Ht. pose proof (tai_label_range t Ht) as HL. unfold tai_Parse. rewrite decide_True by done.
  unfold tai_bytes, EncodeToString. rewrite bind_app. fold (EncodeToString (be_bytes 8 (tai_label (unix_sec t)))).
  fold (EncodeToString (be_bytes 4 (t mod nano))). rewrite !Encode_be_bytes.
  cbn [Nat.mul Nat.add]. set (l := pad 16 16 (tai_label (unix_sec t))). set (n := pad 16 8 (t mod nano)).
  assert (length l = 16%nat) as Hl by apply length_pad. assert (length n = 8%nat) as Hn by apply length_pad.
  rewrite length_app, Hl, Hn. cbn [Nat.add Nat.ltb Nat.leb].
  rewrite (take_app_exact l n 16 Hl), (drop_app_exact l n 16 Hl).
  assert (ParseInt l 16 = Some (tai_label (unix_sec t))) as -> by (apply ParseInt_pad; lia).
  rewrite Hn. cbn [Nat.eqb orb]. rewrite (take_ge n) by lia.
  pose proof (Z.mod_pos_bound t nano ltac:(done)) as Hm. unfold nano in Hm.
  assert (ParseInt n 16 = Some (t mod nano)) as -> by (apply ParseInt_pad; unfold nano; lia).
  pose proof (Z.div_mod t nano ltac:(done)) as Hd. pose proof (GetOffsetUnix_range (unix_sec t)) as Ho.
  assert (Unix (unix_sec t) (t mod nano) = t) as Hu by (unfold Unix, unix_sec; lia).
  unfold tai_label in *. destruct (Z.ltb_spec (unix_sec t) 0).
  - rewrite (proj2 (Z.leb_gt _ _)) by lia. do 2 f_equal. etransitivity; [|exact Hu]. f_equal. lia.
  - rewrite (proj2 (Z.leb_le _ _)) by (unfold epochTai64; lia). rewrite getInv_offset.
    do 2 f_equal. etransitivity; [|exact Hu]. f_equal. unfold epochTai64. lia.
Qed.

(** What a parse can return at all. *)
Lemma tai_Parse_total s : s ≠ [] → is_Some (tai_Parse s).
Proof. destruct s; [done|]. by eexists. Qed.

(** ** The status file as s6-supervise writes it *)

Definition flags_byte (d : S6StatusData) : Z :=
  (if IsPaused d then S6FlagPaused else 0) + (if IsFinishing d then S6FlagFinishing else 0) +
  (if IsWantingUp d then S6FlagWantUp else 0) + (if IsReady d then S6FlagReady else 0).

Definition status_bytes (d : S6StatusData) : bytes :=
  tai_bytes (StampTime d) ++ tai_bytes (ReadyTime d) ++ be_bytes 8 (Pid d) ++ be_bytes 8 (Pgid d) ++
  be_bytes 2 (Wstat d) ++ [chr (flags_byte d)].

Definition status_ok (d : S6StatusData) : Prop :=
  time_ok (StampTime d) ∧ time_ok (ReadyTime d) ∧ 0 <= Pid d < 2 ^ 63 ∧ 0 <= Pgid d < 2 ^ 63 ∧ 0 <= Wstat d < 2 ^ 16.

Lemma length_tai_bytes t : length (tai_bytes t) = 12%nat.
Proof. unfold tai_bytes. by rewrite length_app, !length_be_bytes. Qed.

Lemma field_app (pre mid post : bytes) off n : length pre = off → length mid = n →
  field (pre ++ mid ++ post) off n = mid.
Proof.
  intros <- <-. unfold field. rewrite drop_app_length. by rewrite take_app_length.
Qed.

Lemma parse_status_bytes d : status_ok d → parseS6StatusFile (status_bytes d, None) = Some (inl d).
Proof.
  intros (H1 & H2 & H3 & H4 & H5). unfold parseS6StatusFile.
  assert (length (status_bytes d) = S6StatusFileSize) as ->.
  { unfold status_bytes. rewrite !length_app, !length_tai_bytes, !length_be_bytes. reflexivity. }
  cbn [Nat.eqb negb S6StatusFileSize]. unfold parse_stamp, stamp_hex, S6StatusChangedOffset, S6StatusReadyOffset,
    S6StatusPidOffset, S6StatusPgidOffset, S6StatusWstatOffset, S6StatusFlagsOffset.
  set (a := tai_bytes (StampTime d)). set (b := tai_bytes (ReadyTime d)).
  set (p := be_bytes 8 (Pid d)). set (g := be_bytes 8 (Pgid d)). set (w := be_bytes 2 (Wstat d)).
  assert (length a = 12%nat) as La by apply length_tai_bytes. assert (length b = 12%nat) as Lb by apply length_tai_bytes.
  assert (length p = 8%nat) as Lp by apply length_be_bytes. assert (length g = 8%nat) as Lg by apply length_be_bytes.
  assert (length w = 2%nat) as Lw by apply length_be_bytes.
  assert (field (status_bytes d) 0 12 = a) as -> by (apply (field_app []); done).
  assert (field (status_bytes d) 12 12 = b) as -> by (apply (field_app a); done).
  assert (field (status_bytes d) 24 8 = p) as ->.
  { unfold status_bytes. fold a b p g w. rewrite app_assoc. apply field_app; [rewrite length_app; lia|done]. }
  assert (field (status_bytes d) 32 8 = g) as ->.
  { unfold status_bytes. fold a b p g w. rewrite app_assoc, (app_assoc _ p). apply field_app; [rewrite !length_app; lia|done]. }
  assert (field (status_bytes d) 40 2 = w) as ->.
  { unfold status_bytes. fold a b p g w. rewrite app_assoc, (app_assoc _ p), (app_assoc _ g).
    apply field_app; [rewrite !length_app; lia|done]. }
  assert (field (status_bytes d) 42 1 = [chr (flags_byte d)]) as ->.
  { unfold status_bytes. fold a b p g w. rewrite app_assoc, (app_assoc _ p), (app_assoc _ g), (app_assoc _ w).
    rewrite <- (app_nil_r [chr (flags_byte d)]). apply field_app; [rewrite !length_app; lia|done]. }
  unfold a, b. rewrite !tai_Parse_bytes by done. unfold p, g, w. rewrite !BigEndian_be_bytes by lia.
  rewrite !wrap_i64_small by lia. do 2 f_equal.
  assert (BigEndian [chr (flags_byte d)] = flags_byte d) as ->.
  { unfold BigEndian. cbn [foldl]. rewrite val_chr; [lia|]. unfold flags_byte, S6FlagPaused, S6FlagFinishing, S6FlagWantUp, S6FlagReady.
    repeat case_match; lia. }
  destruct d as [t1 t2 pd pg ws f1 f2 f3 f4]. by destruct f1, f2, f3, f4.
Qed.

(** ** The death tally as s6-supervise writes it *)

Definition event_bytes (e : ExitEvent) : bytes :=
  tai_bytes (EvTimestamp e) ++ [chr (EvExitCode e); chr (EvSignal e)].

Definition event_ok (e : ExitEvent) : Prop :=
  time_ok (EvTimestamp e) ∧ 0 <= EvExitCode e < 256 ∧ 0 <= EvSignal e < 256.

Lemma length_event_bytes e : length (event_bytes e) = S6_DTALLY_PACK.
Proof. unfold event_bytes. by rewrite length_app, length_tai_bytes. Qed.

Lemma parse_record_bytes e : event_ok e → parse_record (event_bytes e) = Some (Some e).
Proof.
  intros (H1 & H2 & H3). unfold parse_record, event_bytes.
  rewrite (take_app_exact (tai_bytes (EvTimestamp e))) by apply length_tai_bytes.
  rewrite tai_Parse_bytes by done. unfold byte_at.
  rewrite !app_nth2, length_tai_bytes by (rewrite length_tai_bytes; lia). cbn [Nat.sub nth].
  rewrite !val_chr by done. by destruct e.
Qed.

Lemma length_events es : length (concat (event_bytes <$> es)) = (length es * S6_DTALLY_PACK)%nat.
Proof.
  induction es as [|e es IH]; [done|]. rewrite fmap_cons. cbn [concat length]. rewrite length_app, IH, length_event_bytes. lia.
Qed.

Lemma parse_records_bytes es : ∀ acc, Forall event_ok es →
  parse_records (length es) (concat (event_bytes <$> es)) acc = Some (acc ++ es).
Proof.
  induction es as [|e es IH]; intros acc H; [simpl; by rewrite app_nil_r|]. apply Forall_cons in H as [He Hes].
  cbn [length parse_records]. rewrite fmap_cons. cbn [concat].
  rewrite (take_app_exact (event_bytes e)), (drop_app_exact (event_bytes e)) by apply length_event_bytes.
  rewrite parse_record_bytes by done. cbn [mbind option_bind]. rewrite IH by done. by rewrite <- app_assoc.
Qed.

(** Parsing never panics on a record of any content. *)
Lemma parse_records_total n : ∀ data acc, is_Some (parse_records n data acc).
Proof.
  induction n as [|n IH]; intros data acc; [by eexists|]. cbn [parse_records]. unfold parse_record.
  destruct (tai_Parse_total ("@"%char :: EncodeToString (take 12 (take S6_DTALLY_PACK data)))) as [[ts [err|]] ->]; [done| |];
    cbn [mbind option_bind]; apply IH.
Qed.

Lemma ExitHistory_total e r : is_Some (ExitHistory e r).
Proof.
  unfold ExitHistory. destruct e as [[] [|]], r as [data [|]]; try by eexists.
  destruct (negb _); [by eexists|].
  destruct (parse_records_total (length data / S6_DTALLY_PACK) data []) as [h ->]. by eexists.
Qed.

(** ** What is accepted *)

Lemma tai_Parse_12 s : length s = 12%nat →
  ∃ t err, tai_Parse ("@"%char :: EncodeToString s) = Some (t, err) ∧
    (err = None ↔ BigEndian (take 8 s) < 2 ^ 63).
Proof.
  intros Hl. unfold tai_Parse. rewrite decide_True by done.
  assert (EncodeToString s = pad 16 16 (BigEndian (take 8 s)) ++ pad 16 8 (BigEndian (drop 8 s))) as ->.
  { rewrite <- (take_drop 8 s) at 1. unfold EncodeToString. rewrite bind_app.
    fold (EncodeToString (take 8 s)) (EncodeToString (drop 8 s)). rewrite !Encode_BigEndian.
    rewrite length_take, length_drop, Hl. done. }
  set (l := pad 16 16 _). set (n := pad 16 8 _).
  assert (length l = 16%nat) as Hll by apply length_pad. assert (length n = 8%nat) as Hn by apply length_pad.
  rewrite length_app, Hll, Hn. cbn [Nat.add Nat.ltb Nat.leb].
  rewrite (take_app_exact l n 16 Hll), (drop_app_exact l n 16 Hll), Hn.
  pose proof (BigEndian_range (take 8 s)) as Hr. rewrite length_take, Hl in Hr.
  pose proof (BigEndian_range (drop 8 s)) as Hr2. rewrite length_drop, Hl in Hr2.
  cbn [Nat.min Nat.sub] in Hr, Hr2. cbn [Nat.eqb orb]. rewrite (take_ge n) by lia.
  assert (ParseInt n 16 = Some (BigEndian (drop 8 s))) as -> by (apply ParseInt_pad; lia).
  destruct (decide (BigEndian (take 8 s) < 2 ^ 63)) as [Hlt|Hge].
  - assert (ParseInt l 16 = Some (BigEndian (take 8 s))) as -> by (apply ParseInt_pad; lia).
    case_match; eexists _, _; (split; [reflexivity|done]).
  - assert (ParseInt l 16 = None) as -> by (apply ParseInt_pad_range; lia).
    eexists _, _. split; [reflexivity|]. split; [done|intros; lia].
Qed.

Lemma field_length data off n : (off + n <= length data)%nat → length (field data off n) = n.
Proof. intros H. unfold field. rewrite length_take, length_drop. lia. Qed.

Lemma wrap_i64_range z : - 2 ^ 63 <= wrap_i64 z < 2 ^ 63.
Proof. unfold wrap_i64. pose proof (Z.mod_pos_bound (z + 2 ^ 63) (2 ^ 64)). lia. Qed.

(** ** Theorems *)

(** C34: the status files round-trip.  What s6-supervise writes for a service
    (time stamps, process numbers, wait status and flags; the death tally with
    its exit events) is read back exactly. *)
Theorem status_file_roundtrip (d : S6StatusData) (es : list ExitEvent) :
  status_ok d → Forall event_ok es →
  parseS6StatusFile (status_bytes d, None) = Some (inl d) ∧
  ExitHistory (true, None) (concat (event_bytes <$> es), None) = Some (es, None).
Proof.
  intros Hd Hes. split; [by apply parse_status_bytes|]. unfold ExitHistory.
  rewrite length_events, Nat.Div0.mod_mul, Nat.div_mul by done. cbn [Nat.eqb negb].
  by rewrite parse_records_bytes.
Qed.

(** C33: parsing a status file is total and its result is well typed.  Any file
    of any content is either refused with an error or gives process numbers
    that are an int, and a wait status that is a uint16; it is accepted exactly
    when it has 43 bytes and both time stamps are below 2^63. *)
Theorem status_parse_well_typed (data : bytes) :
  ∃ r, parseS6StatusFile (data, None) = Some r ∧
    ((∃ d, r = inl d) ↔ length data = S6StatusFileSize ∧
        BigEndian (take 8 data) < 2 ^ 63 ∧ BigEndian (take 8 (drop 12 data)) < 2 ^ 63) ∧
    ∀ d, r = inl d → - 2 ^ 63 <= Pid d < 2 ^ 63 ∧ - 2 ^ 63 <= Pgid d < 2 ^ 63 ∧ 0 <= Wstat d < 2 ^ 16.
Proof.
  unfold parseS6StatusFile. destruct (Nat.eqb_spec (length data) S6StatusFileSize) as [Hl|Hl]; cbn [negb].
  2: { eexists. split; [reflexivity|]. split; [|done]. split; [by intros [? ?]|by intros [? _]]. }
  unfold S6StatusFileSize in Hl. unfold parse_stamp, stamp_hex, S6StatusChangedOffset, S6StatusReadyOffset,
    S6StatusPidOffset, S6StatusPgidOffset, S6StatusWstatOffset, S6StatusFlagsOffset.
  destruct (tai_Parse_12 (field data 0 12)) as (t1 & e1 & -> & H1); [apply field_length; lia|].
  assert (take 8 (field data 0 12) = take 8 data) as E1 by (unfold field; by rewrite take_take).
  rewrite E1 in H1. destruct e1 as [e1|].
  { eexists. split; [reflexivity|]. split; [|done]. split; [by intros [? ?]|].
    intros (_ & H & _). by apply H1 in H. }
  destruct (tai_Parse_12 (field data 12 12)) as (t2 & e2 & -> & H2); [apply field_length; lia|].
  assert (take 8 (field data 12 12) = take 8 (drop 12 data)) as E2 by (unfold field; by rewrite take_take).
  rewrite E2 in H2. destruct e2 as [e2|].
  { eexists. split; [reflexivity|]. split; [|done]. split; [by intros [? ?]|].
    intros (_ & _ & H). by apply H2 in H. }
  eexists. split; [reflexivity|]. split.
  - split; [intros _|by eexists]. split; [done|]. split; [by apply H1|by apply H2].
  - intros d [= <-]. cbn [Pid Pgid Wstat]. split; [apply wrap_i64_range|]. split; [apply wrap_i64_range|].
    pose proof (BigEndian_range (field data 40 2)) as Hr. rewrite field_length in Hr by lia. exact Hr.
Qed.

(** The reported state means what the status file says.  The information
    about a service is always produced; the service is up exactly when it has a
    process that is not being shut down; for a service that is down the exit
    code is the code it exited with, or minus the signal that killed it,
    whether or not it dumped core. *)
Theorem service_info_meaning (fs : StatusFS) (path : bytes) (s : LogService) (now : Time) (d : S6StatusData) :
  ∃ info err, buildFullServiceInfo fs path s now d = Some (info, err) ∧
    (Status info = ServiceUp ↔ Pid d ≠ 0 ∧ IsFinishing d = false) ∧
    (Status info = ServiceUp ∨ Status info = ServiceDown) ∧
    (IsDownAndReady info = true → Status info = ServiceDown) ∧
    (Status info = ServiceDown → ∀ c, 0 <= c < 256 → Wstat d = c * 256 → ExitCode info = c) ∧
    (Status info = ServiceDown → ∀ sig core, 0 < sig < 127 → core = 0 ∨ core = 128 → Wstat d = sig + core →
       ExitCode info = - sig).
Proof.
  unfold buildFullServiceInfo.
  destruct (ExitHistory_total (st_FileExists fs (Join [Join [path; lit "supervise"]; S6DtallyFileName]))
    (st_ReadFile fs (Join [Join [path; lit "supervise"]; S6DtallyFileName]))) as [[hist err] ->].
  cbn [mbind option_bind].
  assert (∀ c, 0 <= c < 256 → exit_code (c * 256) = c) as Hexit.
  { intros c Hc. assert (c ∈ seqZ 0 256) as Hin by (apply elem_of_seqZ; lia). clear Hc. revert c Hin.
    apply Forall_forall, (bool_decide_unpack _). vm_compute. exact I. }
  assert (∀ sig core, 0 < sig < 127 → core = 0 ∨ core = 128 → exit_code (sig + core) = - sig) as Hsig.
  { intros sig core Hs Hc. assert (sig ∈ seqZ 1 126) as Hin by (apply elem_of_seqZ; lia). clear Hs. revert sig Hin.
    apply Forall_forall, (bool_decide_unpack _). destruct Hc as [-> | ->]; vm_compute; exact I. }
  set (up := negb (Pid d =? 0) && negb (IsFinishing d)).
  assert (up = true ↔ Pid d ≠ 0 ∧ IsFinishing d = false) as Hup.
  { unfold up. rewrite andb_true_iff, !negb_true_iff, Z.eqb_neq. done. }
  destruct err as [err|]; eexists _, _; (split; [reflexivity|]).
  all: cbn [Status IsDownAndReady ExitCode]; rewrite <- Hup.
  all: split; [by destruct up|]; split; [destruct up; [by left|by right]|].
  all: split; [intros [_ H0%Z.eqb_eq]%andb_prop; destruct up; [by destruct (proj1 Hup eq_refl)|done]|].
  all: split; intros Hdown; [intros c Hc Hw|intros sig core Hs Hc Hw]; destruct up; try discriminate Hdown.
  all: rewrite Hw; auto.
Qed.

(** ** Witnesses *)

Definition example_status : S6StatusData :=
  mkS6StatusData (Unix 1700000000 500) (Unix 1700000001 7) 4711 4711 256 false true false true.
Definition example_event : ExitEvent := mkExitEvent (Unix 1700000000 9) 1 15.

Lemma status_file_roundtrip_witness :
  parseS6StatusFile (status_bytes example_status, None) = Some (inl example_status) ∧
  ExitHistory (true, None) (concat (event_bytes <$> [example_event; example_event]), None)
    = Some ([example_event; example_event], None).
Proof.
  apply (status_file_roundtrip example_status [example_event; example_event]).
  - unfold status_ok, time_ok. vm_compute. repeat split; discriminate.
  - repeat constructor; unfold time_ok; vm_compute; discriminate.
Defined.

(** A service that was killed: the flags say ready, there is no process. *)
Lemma killed_service_info :
  let fs := mkStatusFS (λ _, (true, None)) (λ _, (false, None)) (λ _, ([], None)) in
  ∃ info, buildFullServiceInfo fs (lit "/run/service/x") (mkLogService ∅ ∅) (Unix 1700000010 500)
      (mkS6StatusData (Unix 1700000000 500) (Unix 1700000000 500) 0 0 (9 + 128) false false true true)
    = Some (info, None) ∧ ExitCode info = -9 ∧ DownTime info = 10 ∧ IsDownAndReady info = true.
Proof. eexists. vm_compute. repeat split. Qed.
