(* ===== verification/TopicBuffer.v ===== *)
(** * TopicBuffer: the topic browser's block parser and ring buffer

    Models [pkg/service/topicbrowser/buffer.go] and [parse.go]: blocks are cut
    out of the S6 log of the benthos pipeline, hex-decoded into pooled items
    and kept in a ring buffer whose snapshots hand out pointers.  Items live
    in a heap, because the pool, the ring and every snapshot share them; which
    pooled item [sync.Pool.Get] returns is an argument. *)

From S2P Require Import Prelude GoRuntime GoBytes Ring S6Logs.
From Stdlib Require Import Ascii.
Local Open Scope Z_scope.

(** ** buffer.go *)

(** A byte slice: its backing array up to the capacity, and its length. *)
Record Slice := mkSlice { arr : bytes; len : nat }.

Definition slice_bytes (s : Slice) : bytes := take (len s) (arr s).

Record BufferItem := mkBufferItem {
  ItemTimestamp : Time;
  Payload : Slice;
  SequenceNum : Z }.

(** A pointer to a BufferItem. *)
Abbreviation ptr := nat.

Record Ringbuffer := mkRingbuffer {
  buf : list (option ptr);
  writePos : Z;
  count : Z;
  sequenceNum : Z }.

Record RingBufferSnapshot := mkSnapshot {
  Items : list (option ptr);
  LastSequenceNum : Z }.

Definition NewestN (s : RingBufferSnapshot) (n : Z) : list (option ptr) :=
  if n <=? 0 then []
  else if Z.of_nat (length (Items s)) <=? n then Items s
  else drop (Z.to_nat (Z.of_nat (length (Items s)) - n)) (Items s).

Definition AppendNewest (item : option ptr) (s : RingBufferSnapshot) : RingBufferSnapshot :=
  mkSnapshot (Items s ++ [item]) (LastSequenceNum s).

Definition RingBufferCapacity : Z := 3.

Definition NewRingbuffer (capacity : Z) : Ringbuffer :=
  let capacity := if (capacity =? 0) || (2 ^ 63 - 1 <? capacity) then RingBufferCapacity else capacity in
  mkRingbuffer (replicate (Z.to_nat capacity) None) 0 0 0.

(** The items and the pool of free ones. *)
Record Heap := mkHeap { cells : gmap ptr BufferItem; next : ptr; bufferItemPool : list ptr }.

Definition set_item (p : ptr) (f : BufferItem → BufferItem) (h : Heap) : option Heap :=
  item ← cells h !! p; Some (mkHeap (<[p := f item]> (cells h)) (next h) (bufferItemPool h)).

Definition with_seq (n : Z) (i : BufferItem) : BufferItem := mkBufferItem (ItemTimestamp i) (Payload i) n.

(** [None]: a nil pointer or an index out of range. *)
Definition Add (p : ptr) (rb : Ringbuffer) (h : Heap) : option (Ringbuffer * Heap) :=
  let seq := wrap_u64 (sequenceNum rb + 1) in
  h ← set_item p (with_seq seq) h;
  _ ← index (buf rb) (writePos rb);
  let n := Z.of_nat (length (buf rb)) in
  Some (mkRingbuffer (<[Z.to_nat (writePos rb) := Some p]> (buf rb))
          (Z.rem (writePos rb + 1) n)
          (if count rb <? n then count rb + 1 else count rb) seq, h).

Definition Len (rb : Ringbuffer) : Z := count rb.
Definition Cap (rb : Ringbuffer) : Z := Z.of_nat (length (buf rb)).

(** The loop of [GetSnapshot]. *)
Fixpoint copy_items (n : nat) (rb : Ringbuffer) (idx : Z) (s : RingBufferSnapshot) : option RingBufferSnapshot :=
  match n with
  | O => Some s
  | S n => p ← index (buf rb) idx;
           let idx := idx + 1 in
           copy_items n rb (if idx =? Z.of_nat (length (buf rb)) then 0 else idx) (AppendNewest p s)
  end.

Definition GetSnapshot (rb : Ringbuffer) : option RingBufferSnapshot :=
  let idx := writePos rb - count rb in
  let idx := if idx <? 0 then idx + Z.of_nat (length (buf rb)) else idx in
  copy_items (Z.to_nat (count rb)) rb idx (mkSnapshot [] (sequenceNum rb)).

(** ** parse.go *)

Definition blockStartMarkerBytes : bytes := lit "STARTSTARTSTART".
Definition dataEndMarkerBytes : bytes := lit "ENDDATAENDDATAENDDATA".
Definition blockEndMarkerBytes : bytes := lit "ENDENDEND".
Definition maxMarkerLineLength : nat := 100.

Definition containsMarker (content marker : bytes) : bool :=
  if (maxMarkerLineLength <? length content)%nat then false else Contains content marker.

(** [for i := i; i < len(entries); i++ { if containsMarker(...) ... break }]. *)
Fixpoint scan (marker : bytes) (rest : list LogEntry) (i : nat) : option nat :=
  match rest with
  | [] => None
  | e :: rest => if containsMarker (Content e) marker then Some i else scan marker rest (S i)
  end.

Definition scan_from (marker : bytes) (entries : list LogEntry) (i : nat) : option nat :=
  scan marker (drop i entries) i.

(** [entries[i:j]]; [None] when the bounds are out of range. *)
Definition sub {A} (l : list A) (i j : nat) : option (list A) :=
  if ((i <=? j) && (j <=? length l))%nat then Some (take (j - i) (drop i l)) else None.

(** The first line that is not blank, trimmed; empty if there is none. *)
Fixpoint first_line (l : list LogEntry) : bytes :=
  match l with
  | [] => []
  | e :: l => match TrimSpace (Content e) with [] => first_line l | s => s end
  end.

(** The payload lines, trimmed and concatenated; the pooled scratch buffer is
    emptied first and copied from at the end. *)
Definition extractBlockData (entries : list LogEntry) (startIndex dataEndIndex blockEndIndex : nat)
    (epochMS : Z) : option (bytes * Z * Z) :=
  ls ← sub entries (startIndex + 1) dataEndIndex;
  Some (foldl (λ buf e, buf ++ TrimSpace (Content e)) [] ls, epochMS, Z.of_nat blockEndIndex).

Definition no_block (entries : list LogEntry) : bytes * Z * Z :=
  ([], 0, Z.of_nat (length entries) - 1).

(** The search loop; every turn moves [searchStart] past the end of a block.
    The error of the Go function is always nil; [None] is a panic. *)
Fixpoint search_blocks (fuel : nat) (entries : list LogEntry) (last : Time) (searchStart : nat)
    : option (bytes * Z * Z) :=
  match fuel with
  | O => None
  | S fuel =>
      if (length entries <=? searchStart)%nat then Some (no_block entries)
      else
        match scan_from blockStartMarkerBytes entries searchStart with
        | None => Some (no_block entries)
        | Some startIndex =>
            match scan_from dataEndMarkerBytes entries (startIndex + 1) with
            | None => Some (no_block entries)
            | Some dataEndIndex =>
                match scan_from blockEndMarkerBytes entries (dataEndIndex + 1) with
                | None => Some (no_block entries)
                | Some blockEndIndex =>
                    ls ← sub entries (dataEndIndex + 1) blockEndIndex;
                    match ParseInt (first_line ls) 10 with
                    | None => search_blocks fuel entries last (blockEndIndex + 1)
                    | Some epochMS =>
                        if IsZero last || After (UnixMilli epochMS) last
                        then extractBlockData entries startIndex dataEndIndex blockEndIndex epochMS
                        else search_blocks fuel entries last (blockEndIndex + 1)
                    end
                end
            end
        end
  end.

Definition extractNextBlock (entries : list LogEntry) (last : Time) : option (bytes * Z * Z) :=
  search_blocks (S (length entries)) entries last 0.

(** The service: ring buffer, items, and the time stamp of the last block. *)
Record Service := mkService {
  ringbuffer : Ringbuffer;
  heap : Heap;
  lastProcessedTimestamp : Time }.

Definition NewService : Service :=
  mkService (NewRingbuffer RingBufferCapacity) (mkHeap ∅ 0 []) 0.

Definition empty_item : BufferItem := mkBufferItem 0 (mkSlice [] 0) 0.

(** [bufferItemPool.Get()]: one of the pooled items, or a new one. *)
Definition pool_Get (pick : option nat) (h : Heap) : ptr * Heap :=
  match pick ≫= (bufferItemPool h !!.) with
  | Some p => (p, mkHeap (cells h) (next h) (filter (λ q, q ≠ p) (bufferItemPool h)))
  | None => (next h, mkHeap (<[next h := empty_item]> (cells h)) (S (next h)) (bufferItemPool h))
  end.

Definition pool_Put (p : ptr) (h : Heap) : Heap := mkHeap (cells h) (next h) (p :: bufferItemPool h).

(** Room for [n] bytes, and the bytes written to its start. *)
Definition resize (n : nat) (s : Slice) : Slice :=
  if (length (arr s) <? n)%nat then mkSlice (replicate n "000"%char) n else mkSlice (arr s) n.
Definition write_slice (d : bytes) (s : Slice) : Slice := mkSlice (d ++ drop (length d) (arr s)) (len s).

Definition with_payload (f : Slice → Slice) (i : BufferItem) : BufferItem :=
  mkBufferItem (ItemTimestamp i) (f (Payload i)) (SequenceNum i).
Definition with_time (t : Time) (i : BufferItem) : BufferItem := mkBufferItem t (Payload i) (SequenceNum i).

(** Its error is always nil; [None] is a panic. *)
Definition parseBlock (pick : option nat) (entries : list LogEntry) (s : Service) : option Service :=
  '(hexBuf, epoch, _) ← extractNextBlock entries (lastProcessedTimestamp s);
  match hexBuf with
  | [] => Some s
  | _ =>
      let '(item, h) := pool_Get pick (heap s) in
      let payloadSize := (length hexBuf / 2)%nat in
      h ← set_item item (with_payload (resize payloadSize)) h;
      let '(d, err) := Decode hexBuf in
      h ← set_item item (with_payload (write_slice d)) h;
      match err with
      | Some _ => Some (mkService (ringbuffer s) (pool_Put item h) (UnixMilli epoch))
      | None =>
          h ← set_item item (with_time (UnixMilli epoch)) h;
          '(rb, h) ← Add item (ringbuffer s) h;
          Some (mkService rb h (UnixMilli epoch))
      end
  end.

(** ** The ring buffer against the stream of added items *)

Record rb_ok (rb : Ringbuffer) (hist : list ptr) : Prop := mkRbOk {
  rb_ring : ring (buf rb) (Z.to_nat (writePos rb)) (Some <$> hist);
  rb_pos : 0 <= writePos rb;
  rb_count : count rb = Z.of_nat (length hist `min` length (buf rb));
  rb_seq : sequenceNum rb = wrap_u64 (Z.of_nat (length hist)) }.

Lemma NewRingbuffer_ok capacity : 0 <= capacity → rb_ok (NewRingbuffer capacity) [].
Proof.
  intros H. unfold NewRingbuffer.
  assert (0 < (if (capacity =? 0) || (2 ^ 63 - 1 <? capacity) then RingBufferCapacity else capacity)) as Hc.
  { unfold RingBufferCapacity. destruct (Z.eqb_spec capacity 0); simpl; [lia|]. case_match; lia. }
  split; cbn [buf writePos count sequenceNum]; [|lia|done|done].
  apply ring_empty. rewrite length_replicate. lia.
Qed.

Lemma wrap_u64_succ n : wrap_u64 (wrap_u64 (Z.of_nat n) + 1) = wrap_u64 (Z.of_nat (n + 1)).
Proof. unfold wrap_u64. rewrite Zplus_mod_idemp_l. f_equal. lia. Qed.

Lemma Add_ok rb hist p h i : rb_ok rb hist → cells h !! p = Some i →
  ∃ rb', Add p rb h = Some (rb',
      mkHeap (<[p := with_seq (wrap_u64 (Z.of_nat (length hist + 1))) i]> (cells h)) (next h) (bufferItemPool h)) ∧
    rb_ok rb' (hist ++ [p]) ∧ length (buf rb') = length (buf rb).
Proof.
  intros [Hr Hp Hc Hs] Hi. unfold Add, set_item. rewrite Hi. cbn [mbind option_bind].
  rewrite index_lookup by done. destruct (ring_is_Some _ _ _ Hr) as [x ->]. cbn [mbind option_bind].
  rewrite Hs, wrap_u64_succ. eexists. split; [done|]. split; [|cbn [buf]; by rewrite length_insert].
  pose proof (ring_cap _ _ _ Hr) as Hcap.
  split; cbn [buf writePos count sequenceNum].
  - rewrite fmap_app. rewrite Z.rem_mod_nonneg by lia.
    replace (Z.to_nat ((writePos rb + 1) `mod` Z.of_nat (length (buf rb))))
      with ((Z.to_nat (writePos rb) + 1) mod length (buf rb))%nat; [by apply ring_push|].
    rewrite Z2Nat.inj_mod, Nat2Z.id by lia. f_equal. lia.
  - rewrite Z.rem_mod_nonneg by lia. apply Z.mod_pos_bound. lia.
  - rewrite length_insert, length_app, Hc. simpl. zcases; lia.
  - by rewrite length_app.
Qed.

(** The slot [k] places after the oldest live item. *)
Lemma copy_items_ok rb hist : rb_ok rb hist → ∀ n k s,
  (k + n = length hist `min` length (buf rb))%nat →
  copy_items n rb
    (Z.of_nat ((length hist - length hist `min` length (buf rb) + k) mod length (buf rb))) s
    = Some (mkSnapshot (Items s ++ drop k (last_n (length (buf rb)) (Some <$> hist))) (LastSequenceNum s)).
Proof.
  intros [Hr Hp Hc Hs]. pose proof (ring_cap _ _ _ Hr) as Hcap. induction n as [|n IH]; intros k s Hk.
  { simpl. rewrite drop_ge; [|rewrite length_last_n, length_fmap; lia]. rewrite app_nil_r. by destruct s. }
  cbn [copy_items]. rewrite index_lookup, Nat2Z.id by lia.
  pose proof (ring_slot _ _ _ k Hr) as Hslot. rewrite length_fmap in Hslot.
  rewrite Hslot by lia.
  destruct (lookup_lt_is_Some_2 (last_n (length (buf rb)) (Some <$> hist)) k) as [x Hx].
  { rewrite length_last_n, length_fmap. lia. }
  rewrite Hx. cbn [mbind option_bind]. rewrite (drop_S _ _ _ Hx).
  set (b := (length hist - length hist `min` length (buf rb))%nat) in *.
  assert ((if Z.of_nat ((b + k) mod length (buf rb)) + 1 =? Z.of_nat (length (buf rb)) then 0
    else Z.of_nat ((b + k) mod length (buf rb)) + 1) = Z.of_nat ((b + S k) mod length (buf rb))) as ->.
  { replace (b + S k)%nat with (b + k + 1)%nat by lia. rewrite <- (Nat.Div0.add_mod_idemp_l (b + k) 1).
    pose proof (Nat.mod_upper_bound (b + k) (length (buf rb))).
    destruct (Z.eqb_spec (Z.of_nat ((b + k) mod length (buf rb)) + 1) (Z.of_nat (length (buf rb)))) as [E|E].
    - replace ((b + k) mod length (buf rb) + 1)%nat with (length (buf rb)) by lia.
      by rewrite Nat.Div0.mod_same.
    - rewrite (Nat.mod_small ((b + k) mod length (buf rb) + 1)); lia. }
  rewrite IH by lia. cbn [AppendNewest Items LastSequenceNum]. by rewrite <- app_assoc.
Qed.

Lemma GetSnapshot_ok rb hist : rb_ok rb hist →
  GetSnapshot rb = Some (mkSnapshot (last_n (length (buf rb)) (Some <$> hist)) (wrap_u64 (Z.of_nat (length hist)))).
Proof.
  intros Hok. pose proof Hok as [Hr Hp Hc Hs]. pose proof (ring_cap _ _ _ Hr) as Hcap.
  pose proof (ring_pos _ _ _ Hr) as Hpos. rewrite length_fmap in Hpos.
  unfold GetSnapshot. rewrite Hc, Nat2Z.id, Hs.
  pose proof (copy_items_ok rb hist Hok (length hist `min` length (buf rb)) 0
    (mkSnapshot [] (wrap_u64 (Z.of_nat (length hist)))) ltac:(lia)) as H. rewrite Nat.add_0_r in H.
  cbn [Items LastSequenceNum] in H. rewrite app_nil_l, drop_0 in H. rewrite <- H. f_equal.
  set (m := (length hist `min` length (buf rb))%nat) in *.
  assert (writePos rb = Z.of_nat (length hist mod length (buf rb))) as Hw by lia. rewrite Hw.
  destruct (decide (length hist <= length (buf rb))%nat) as [Hle|Hgt].
  - replace (length hist - m)%nat with 0%nat by lia. rewrite Nat.Div0.mod_0_l.
    destruct (decide (length hist = length (buf rb))) as [E|E].
    + replace (length hist mod length (buf rb))%nat with 0%nat by (rewrite E; by rewrite Nat.Div0.mod_same).
      zcases; lia.
    + rewrite (Nat.mod_small (length hist)) by lia. zcases; lia.
  - replace m with (length (buf rb)) by lia.
    pose proof (Nat.mod_upper_bound (length hist) (length (buf rb)) ltac:(lia)) as Hb.
    assert ((length hist - length (buf rb)) mod length (buf rb) = length hist mod length (buf rb))%nat as ->.
    { rewrite <- (Nat.Div0.mod_add (length hist - length (buf rb)) 1). f_equal. lia. }
    zcases; lia.
Qed.

(** ** The search always ends *)

Lemma scan_range marker l i j : scan marker l i = Some j → (i <= j < i + length l)%nat.
Proof.
  revert i. induction l as [|e l IH]; intros i; simpl; [done|]. case_match.
  - intros [= <-]. lia.
  - intros H'. apply IH in H'. lia.
Qed.

Lemma scan_from_range marker entries i j : scan_from marker entries i = Some j →
  (i <= j < length entries)%nat.
Proof. intros H%scan_range. rewrite length_drop in H. lia. Qed.

Lemma sub_Some {A} (l : list A) i j : (i <= j <= length l)%nat → sub l i j = Some (take (j - i) (drop i l)).
Proof. intros H. unfold sub. by rewrite (proj2 (Nat.leb_le i j)), (proj2 (Nat.leb_le j _)) by lia. Qed.

Lemma search_blocks_total entries last fuel : ∀ start, (start <= length entries < fuel + start)%nat →
  is_Some (search_blocks fuel entries last start).
Proof.
  induction fuel as [|fuel IH]; intros start Hf; [lia|cbn [search_blocks]].
  destruct (Nat.leb_spec (length entries) start); [by eexists|].
  destruct (scan_from blockStartMarkerBytes entries start) as [i|] eqn:Ei; [|by eexists].
  destruct (scan_from dataEndMarkerBytes entries (i + 1)) as [j|] eqn:Ej; [|by eexists].
  destruct (scan_from blockEndMarkerBytes entries (j + 1)) as [k|] eqn:Ek; [|by eexists].
  apply scan_from_range in Ei, Ej, Ek. rewrite sub_Some by lia. cbn [mbind option_bind].
  destruct (ParseInt _ 10); [|apply IH; lia]. case_match; [|apply IH; lia].
  unfold extractBlockData. rewrite sub_Some by lia. by eexists.
Qed.

Lemma extractNextBlock_total entries last : is_Some (extractNextBlock entries last).
Proof. apply search_blocks_total. lia. Qed.

(** ** The service against the stream of delivered blocks *)

Record svc_ok (s : Service) (hist : list ptr) (delivered : list (Time * bytes)) : Prop := mkSvcOk {
  so_rb : rb_ok (ringbuffer s) hist;
  so_cap : length (buf (ringbuffer s)) = Z.to_nat RingBufferCapacity;
  so_fresh : ∀ p, is_Some (cells (heap s) !! p) → (p < next (heap s))%nat;
  so_nodup : NoDup (hist ++ bufferItemPool (heap s));
  so_live : ∀ p, p ∈ hist ++ bufferItemPool (heap s) → is_Some (cells (heap s) !! p);
  so_len : length hist = length delivered;
  so_items : ∀ i p, hist !! i = Some p → ∃ it, cells (heap s) !! p = Some it ∧
    delivered !! i = Some (ItemTimestamp it, slice_bytes (Payload it)) ∧
    SequenceNum it = wrap_u64 (Z.of_nat (i + 1)) }.

Lemma NewService_ok : svc_ok NewService [] [].
Proof.
  split; simpl; try done.
  - by apply NewRingbuffer_ok.
  - intros p [x Hx]. by rewrite lookup_empty in Hx.
  - constructor.
  - intros p Hp. by apply not_elem_of_nil in Hp.
Qed.

(** What one call delivers: the next block's time stamp and payload. *)
Definition deliver (entries : list LogEntry) (st : list (Time * bytes) * Time) : list (Time * bytes) * Time :=
  let '(d, last) := st in
  match extractNextBlock entries last with
  | Some ([], _, _) | None => (d, last)
  | Some (hex, ms, _) => match Decode hex with
                         | (p, None) => (d ++ [(UnixMilli ms, p)], UnixMilli ms)
                         | (_, Some _) => (d, UnixMilli ms)
                         end
  end.

(** The heap [h'] differs from [h] in the cell [p] only. *)
Definition touches (p : ptr) (h h' : Heap) : Prop :=
  is_Some (cells h' !! p) ∧ (∀ q, q ≠ p → cells h' !! q = cells h !! q) ∧
  next h' = next h ∧ bufferItemPool h' = bufferItemPool h.

Lemma pool_Get_ok pick s hist d p h : svc_ok s hist d → pool_Get pick (heap s) = (p, h) →
  (p ∉ hist) ∧ is_Some (cells h !! p) ∧ (∀ q, q ≠ p → cells h !! q = cells (heap s) !! q) ∧
  NoDup (hist ++ p :: bufferItemPool h) ∧ (∀ q, is_Some (cells h !! q) → (q < next h)%nat) ∧
  (∀ q, q ∈ bufferItemPool h → q ∈ bufferItemPool (heap s)).
Proof.
  intros [Hrb Hcap Hf Hn Hl Hlen Hi]. unfold pool_Get.
  destruct (pick ≫= _) as [q|] eqn:E; intros [= <- <-]; cbn [cells next bufferItemPool].
  - apply bind_Some in E as (k & _ & Hk). apply list_elem_of_lookup_2 in Hk.
    apply NoDup_app in Hn as (Hn1 & Hn2 & Hn3).
    assert (q ∉ hist) as Hq by (intros Hq; by apply (Hn2 q)).
    split; [done|]. split; [apply Hl; set_solver|]. split; [done|]. split; [|split; [done|]].
    + apply NoDup_app. split; [done|]. split.
      * intros x Hx [->|[_ ?]%list_elem_of_filter]%elem_of_cons; [done|by apply (Hn2 x)].
      * apply NoDup_cons. split; [rewrite list_elem_of_filter; by intros [? _]|by apply NoDup_filter].
    + intros x [_ ?]%list_elem_of_filter. done.
  - assert (cells (heap s) !! next (heap s) = None) as Hnone.
    { destruct (cells (heap s) !! next (heap s)) eqn:Ec; [|done]. specialize (Hf _ (mk_is_Some _ _ Ec)). lia. }
    assert (next (heap s) ∉ hist ++ bufferItemPool (heap s)) as Hnot.
    { intros Hin. destruct (Hl _ Hin) as [x Hx]. congruence. }
    split; [set_solver|]. split; [by rewrite lookup_insert_eq|].
    split; [intros q Hq; by rewrite lookup_insert_ne|]. split; [|split; [|done]].
    + rewrite not_elem_of_app in Hnot. apply NoDup_app in Hn as (Hn1 & Hn2 & Hn3).
      apply NoDup_app. split; [done|]. split; [set_solver|]. apply NoDup_cons. by destruct Hnot.
    + intros q Hq. destruct (decide (q = next (heap s))) as [->|Hne]; [lia|].
      rewrite lookup_insert_ne in Hq by done. specialize (Hf _ Hq). lia.
Qed.

Lemma set_item_ok p f h i : cells h !! p = Some i →
  ∃ h', set_item p f h = Some h' ∧ touches p h h' ∧ cells h' !! p = Some (f i).
Proof.
  intros Hi. unfold set_item. rewrite Hi. eexists. split; [done|]. unfold touches. cbn [cells next bufferItemPool].
  rewrite lookup_insert_eq. split_and!; try done. intros q Hq. by rewrite lookup_insert_ne.
Qed.

Lemma touches_trans p h h1 h2 : touches p h h1 → touches p h1 h2 → touches p h h2.
Proof.
  intros (_ & H1 & H2 & H3) (H4 & H5 & H6 & H7). split; [done|]. split; [|split; congruence].
  intros q Hq. rewrite H5, H1 by done. done.
Qed.

(** Writing all of a slice that was cut to size. *)
Lemma write_resize (d : bytes) (n : nat) s : length d = n → slice_bytes (write_slice d (resize n s)) = d.
Proof.
  intros <-. unfold slice_bytes, write_slice, resize.
  destruct (Nat.ltb_spec (length (arr s)) (length d)); simpl; by rewrite take_app_length.
Qed.

(** The items already delivered keep their cells. *)
Definition keeps_items (hist : list ptr) (s s' : Service) : Prop :=
  ∀ q, q ∈ hist → cells (heap s') !! q = cells (heap s) !! q.

(** An item that could not be decoded goes back to the pool. *)
Lemma put_back_ok s hist d p h h' t : svc_ok s hist d → p ∉ hist →
  (∀ q, q ≠ p → cells h !! q = cells (heap s) !! q) → NoDup (hist ++ p :: bufferItemPool h) →
  (∀ q, is_Some (cells h !! q) → (q < next h)%nat) →
  (∀ q, q ∈ bufferItemPool h → q ∈ bufferItemPool (heap s)) → is_Some (cells h !! p) →
  touches p h h' →
  svc_ok (mkService (ringbuffer s) (pool_Put p h') t) hist d ∧
  keeps_items hist s (mkService (ringbuffer s) (pool_Put p h') t).
Proof.
  intros [Hrb Hcap Hf Hn Hl Hlen Hi] Hp Hc Hnd Hfr Hpool Hsome (T1 & T2 & T3 & T4).
  assert (∀ q, q ∈ hist → cells h' !! q = cells (heap s) !! q) as Hk.
  { intros q Hq. assert (q ≠ p) by (intros ->; done). by rewrite T2, Hc. }
  split; [|exact Hk]. split; cbn [ringbuffer heap pool_Put cells next bufferItemPool]; try done.
  - intros q Hq. rewrite T3. destruct (decide (q = p)) as [->|Hne]; [by apply Hfr|].
    rewrite T2 in Hq by done. by apply Hfr.
  - by rewrite T4.
  - intros q Hq. destruct (decide (q = p)) as [->|Hne]; [done|]. rewrite T2, Hc by done.
    apply Hl. rewrite T4 in Hq. apply elem_of_app in Hq as [?|[?|?]%elem_of_cons]; [set_solver|done|].
    apply elem_of_app. right. by apply Hpool.
  - intros i q Hq. destruct (Hi i q Hq) as (it & E & H). exists it. split; [|done].
    rewrite Hk; [done|]. by eapply list_elem_of_lookup_2.
Qed.

(** A decoded item goes to the ring. *)
Lemma add_ok s hist d p h h' it t payload : svc_ok s hist d → p ∉ hist →
  (∀ q, q ≠ p → cells h !! q = cells (heap s) !! q) → NoDup (hist ++ p :: bufferItemPool h) →
  (∀ q, is_Some (cells h !! q) → (q < next h)%nat) →
  (∀ q, q ∈ bufferItemPool h → q ∈ bufferItemPool (heap s)) → is_Some (cells h !! p) →
  touches p h h' → cells h' !! p = Some it → ItemTimestamp it = t → slice_bytes (Payload it) = payload →
  ∃ rb h'', Add p (ringbuffer s) h' = Some (rb, h'') ∧
    svc_ok (mkService rb h'' t) (hist ++ [p]) (d ++ [(t, payload)]) ∧
    keeps_items hist s (mkService rb h'' t).
Proof.
  intros [Hrb Hcap Hf Hn Hl Hlen Hi] Hp Hc Hnd Hfr Hpool Hsome (T1 & T2 & T3 & T4) Hit Ht Hpay.
  destruct (Add_ok _ _ p h' it Hrb Hit) as (rb & HA & Hrb' & Hlb). eexists _, _. split; [exact HA|].
  assert (∀ q x, q ∈ hist → <[p:=x]> (cells h') !! q = cells (heap s) !! q) as Hk.
  { intros q x Hq. assert (q ≠ p) by (intros ->; done). by rewrite lookup_insert_ne, T2, Hc by done. }
  split; [|intros q Hq; by apply Hk].
  assert (∀ q, q ∈ hist ∨ q ∈ bufferItemPool h → is_Some (cells (heap s) !! q)) as Hlive.
  { intros q [?|?]; apply Hl, elem_of_app; [by left|right; by apply Hpool]. }
  split; cbn [ringbuffer heap cells next bufferItemPool]; try done.
  - by rewrite Hlb.
  - intros q Hq. rewrite T3. destruct (decide (q = p)) as [->|Hne]; [by apply Hfr|].
    rewrite lookup_insert_ne, T2 in Hq by done. by apply Hfr.
  - rewrite T4, <- app_assoc. done.
  - intros q Hq. destruct (decide (q = p)) as [->|Hne]; [by rewrite lookup_insert_eq|].
    rewrite lookup_insert_ne, T2, Hc by done. rewrite T4 in Hq. apply Hlive. set_solver.
  - rewrite !length_app. simpl. lia.
  - intros i q Hq. destruct (decide (i < length hist)%nat) as [Hlt|Hge].
    + rewrite lookup_app_l in Hq by done. destruct (Hi i q Hq) as (it' & E & H1 & H2). exists it'.
      rewrite Hk by (by eapply list_elem_of_lookup_2). split; [done|]. split; [|done].
      rewrite lookup_app_l by lia. done.
    + pose proof (lookup_lt_Some _ _ _ Hq) as Hb. rewrite length_app in Hb. simpl in Hb.
      replace i with (length hist) in * by lia. rewrite lookup_app_r, Nat.sub_diag in Hq by lia.
      injection Hq as <-. eexists. split; [by rewrite lookup_insert_eq|]. cbn [ItemTimestamp Payload SequenceNum with_seq].
      split; [|done]. rewrite lookup_app_r, Hlen, Nat.sub_diag by lia. simpl. by rewrite Ht, Hpay.
Qed.

Lemma parseBlock_ok pick entries s hist d : svc_ok s hist d →
  ∃ s' hist', parseBlock pick entries s = Some s' ∧ svc_ok s' (hist ++ hist') (deliver entries (d, lastProcessedTimestamp s)).1 ∧
    lastProcessedTimestamp s' = (deliver entries (d, lastProcessedTimestamp s)).2 ∧ keeps_items hist s s'.
Proof.
  intros Hs. unfold parseBlock, deliver.
  destruct (extractNextBlock_total entries (lastProcessedTimestamp s)) as [[[hex ms] idx] ->].
  cbn [mbind option_bind]. destruct hex as [|a hex]; [exists s, []; by rewrite app_nil_r|].
  destruct (pool_Get pick (heap s)) as [p h] eqn:Hg.
  destruct (pool_Get_ok _ _ _ _ _ _ Hs Hg) as (Hp & Hsome & Hc & Hnd & Hfr & Hpool).
  destruct Hsome as [i0 Hi0]. set (n := (length (a :: hex) / 2)%nat).
  destruct (set_item_ok p (with_payload (resize n)) h i0 Hi0) as (h1 & -> & T1 & E1). cbn [mbind option_bind].
  pose proof (length_Decode_ok (a :: hex)) as HD. destruct (Decode (a :: hex)) as [bs e].
  destruct (set_item_ok p (with_payload (write_slice bs)) h1 _ E1) as (h2 & -> & T2 & E2). cbn [mbind option_bind].
  pose proof (touches_trans _ _ _ _ T1 T2) as T12. destruct e as [e|].
  - destruct (put_back_ok s hist d p h h2 (UnixMilli ms) Hs Hp Hc Hnd Hfr Hpool) as [Hok Hk]; [by eexists|done|].
    eexists _, []. rewrite app_nil_r. done.
  - destruct (set_item_ok p (with_time (UnixMilli ms)) h2 _ E2) as (h3 & -> & T3 & E3). cbn [mbind option_bind].
    pose proof (touches_trans _ _ _ _ T12 T3) as T123.
    destruct (add_ok s hist d p h h3 _ (UnixMilli ms) bs Hs Hp Hc Hnd Hfr Hpool (mk_is_Some _ _ Hi0) T123 E3)
      as (rb & h4 & -> & Hok & Hk); [done| |].
    { cbn [Payload with_time with_payload]. apply write_resize. specialize (HD eq_refl). cbn [fst] in HD.
      unfold n. rewrite <- HD. by rewrite Nat.mul_comm, Nat.div_mul. }
    cbn [mbind option_bind]. eexists _, [p]. done.
Qed.

(** ** Logs made of blocks *)

(** One block as the benthos plugin prints it: lines that belong to no block,
    the hex lines of the payload and the line of the time stamp. *)
Record Block := mkBlock {
  blk_noise : list bytes;
  blk_lines : list bytes;
  blk_payload : bytes;
  blk_ts : bytes;
  blk_ms : Z }.

Definition block_text (b : Block) : list bytes :=
  blk_noise b ++ blockStartMarkerBytes :: blk_lines b ++
  dataEndMarkerBytes :: blk_ts b :: [blockEndMarkerBytes].

Definition free_of (marker : bytes) (ls : list bytes) : Prop :=
  Forall (λ l, containsMarker l marker = false) ls.

Definition block_ok (b : Block) : Prop :=
  free_of blockStartMarkerBytes (blk_noise b) ∧ free_of dataEndMarkerBytes (blk_lines b) ∧
  concat (TrimSpace <$> blk_lines b) = EncodeToString (blk_payload b) ∧
  containsMarker (blk_ts b) blockEndMarkerBytes = false ∧ ParseInt (TrimSpace (blk_ts b)) 10 = Some (blk_ms b).

(** The end of the log: no block, or one still being written. *)
Definition tail_ok (tail : list bytes) : Prop :=
  free_of blockStartMarkerBytes tail ∨
  ∃ noise rest, tail = noise ++ blockStartMarkerBytes :: rest ∧ free_of blockStartMarkerBytes noise ∧
    (free_of dataEndMarkerBytes rest ∨
     ∃ lines rest', rest = lines ++ dataEndMarkerBytes :: rest' ∧ free_of dataEndMarkerBytes lines ∧
       free_of blockEndMarkerBytes rest').

Definition renders (entries : list LogEntry) (bs : list Block) : Prop :=
  ∃ tail, tail_ok tail ∧ Content <$> entries = concat (block_text <$> bs) ++ tail.

(** The first block a service has not processed. *)
Definition newer (last : Time) (b : Block) : bool := IsZero last || After (UnixMilli (blk_ms b)) last.

Fixpoint first_newer (last : Time) (bs : list Block) : option Block :=
  match bs with [] => None | b :: bs => if newer last b then Some b else first_newer last bs end.

Lemma scan_free marker l i : free_of marker (Content <$> l) → scan marker l i = None.
Proof.
  revert i. induction l as [|e l IH]; intros i H; [done|]. apply Forall_cons in H as [He Hl].
  simpl. rewrite He. by apply IH.
Qed.

Lemma scan_app marker ls c entries i : free_of marker ls → containsMarker c marker = true →
  ∀ rest, Content <$> entries = ls ++ c :: rest → scan marker entries i = Some (i + length ls)%nat.
Proof.
  intros Hf Hc rest. revert i entries. induction ls as [|l ls IH]; intros i entries E.
  - destruct entries as [|e entries]; [done|]. injection E as E1 E2. simpl. rewrite E1, Hc. f_equal. lia.
  - apply Forall_cons in Hf as [Hl Hls]. destruct entries as [|e entries]; [done|]. injection E as E1 E2.
    simpl. rewrite E1, Hl, (IH Hls (S i) entries E2). f_equal. lia.
Qed.

(** The contents from an index on. *)
Lemma drop_contents entries (pre ls : list bytes) : Content <$> entries = pre ++ ls →
  Content <$> drop (length pre) entries = ls.
Proof. intros H. rewrite fmap_drop, H. by rewrite drop_app_length. Qed.

Lemma scan_from_app marker entries pre ls c rest : Content <$> entries = pre ++ ls ++ c :: rest →
  free_of marker ls → containsMarker c marker = true →
  scan_from marker entries (length pre) = Some (length pre + length ls)%nat.
Proof. intros E Hf Hc. apply (scan_app marker ls c _ _ Hf Hc rest). by apply drop_contents. Qed.

Lemma scan_from_free marker entries pre ls : Content <$> entries = pre ++ ls → free_of marker ls →
  scan_from marker entries (length pre) = None.
Proof. intros E Hf. apply scan_free. by rewrite (drop_contents _ _ _ E). Qed.

Lemma scan_from_app_at marker entries pre ls c rest i : Content <$> entries = pre ++ ls ++ c :: rest →
  length pre = i → free_of marker ls → containsMarker c marker = true →
  scan_from marker entries i = Some (i + length ls)%nat.
Proof. intros E <-. by apply scan_from_app with (rest := rest). Qed.

(** The slice of a middle part of the contents. *)
Lemma sub_contents entries (pre ls rest : list bytes) i j : Content <$> entries = pre ++ ls ++ rest →
  i = length pre → j = (length pre + length ls)%nat →
  ∃ es, sub entries i j = Some es ∧ Content <$> es = ls.
Proof.
  intros E -> ->. pose proof (f_equal length E) as HL. rewrite length_fmap, !length_app in HL.
  rewrite sub_Some by lia. eexists. split; [done|].
  rewrite fmap_take, fmap_drop, E, drop_app_length. by apply take_app_exact; lia.
Qed.

Lemma first_line_contents es t : Content <$> es = [t] → first_line es = TrimSpace t.
Proof. destruct es as [|e [|]]; intros [=]. subst. simpl. by destruct (TrimSpace (Content e)). Qed.

Lemma foldl_trim es : ∀ acc, foldl (λ b e, b ++ TrimSpace (Content e)) acc es = acc ++ concat (TrimSpace <$> (Content <$> es)).
Proof.
  induction es as [|e es IH]; intros acc; simpl; [by rewrite app_nil_r|]. by rewrite IH, <- app_assoc.
Qed.

(** One turn of the search on a log that goes on with a block. *)
Lemma search_block fuel entries last pre b rest : block_ok b →
  Content <$> entries = pre ++ block_text b ++ rest →
  ∃ idx, search_blocks (S fuel) entries last (length pre) =
    if newer last b then Some (EncodeToString (blk_payload b), blk_ms b, idx)
    else search_blocks fuel entries last (length (pre ++ block_text b)).
Proof.
  intros (Hn & Hl & Hp & Ht & Hms) E. pose proof (f_equal length E) as HL.
  rewrite length_fmap, !length_app in HL. unfold block_text in *.
  set (i := (length pre + length (blk_noise b))%nat).
  set (j := (i + 1 + length (blk_lines b))%nat).
  assert (Content <$> entries = pre ++ blk_noise b ++ blockStartMarkerBytes ::
    (blk_lines b ++ dataEndMarkerBytes :: blk_ts b :: blockEndMarkerBytes :: rest)) as E1
    by (rewrite E; simpl; by rewrite <- !app_assoc; simpl; rewrite <- !app_assoc).
  assert (Content <$> entries = (pre ++ blk_noise b ++ [blockStartMarkerBytes]) ++
    blk_lines b ++ dataEndMarkerBytes :: (blk_ts b :: blockEndMarkerBytes :: rest)) as E2
    by (rewrite E1, <- !app_assoc; done).
  assert (Content <$> entries = (pre ++ blk_noise b ++ blockStartMarkerBytes :: blk_lines b ++ [dataEndMarkerBytes]) ++
    [blk_ts b] ++ blockEndMarkerBytes :: rest) as E3
    by (rewrite E1, <- !app_assoc; simpl; by rewrite <- !app_assoc).
  cbn [search_blocks]. rewrite (proj2 (Nat.leb_gt (length entries) (length pre))).
  2: { rewrite length_app in HL. simpl in HL. lia. }
  rewrite (scan_from_app _ _ _ _ _ _ E1 Hn eq_refl).
  fold i.
  rewrite (scan_from_app_at _ _ _ _ _ _ (i + 1) E2); [|rewrite !length_app; simpl; unfold i; lia|done|done].
  fold j. rewrite (scan_from_app_at _ _ _ _ _ _ (j + 1) E3);
    [|rewrite !length_app; simpl; rewrite length_app; simpl; unfold j, i; lia|by repeat constructor|done].
  destruct (sub_contents entries _ [blk_ts b] _ (j + 1) (j + 1 + length [blk_ts b]) E3) as (es & -> & Ees);
    [rewrite !length_app; simpl; rewrite length_app; simpl; unfold j, i; lia..|].
  cbn [mbind option_bind]. rewrite (first_line_contents _ _ Ees), Hms. unfold newer.
  destruct (IsZero last || After (UnixMilli (blk_ms b)) last).
  - unfold extractBlockData. destruct (sub_contents entries _ (blk_lines b) _ (i + 1) j E2) as (ds & -> & Eds);
      [rewrite !length_app; simpl; unfold j, i; lia..|].
    eexists. cbn [mbind option_bind]. by rewrite foldl_trim, Eds, Hp.
  - exists 0. f_equal. rewrite !length_app. simpl. rewrite length_app. simpl. unfold j, i. lia.
Qed.

Lemma search_tail fuel entries last pre tail : tail_ok tail → Content <$> entries = pre ++ tail →
  search_blocks (S fuel) entries last (length pre) = Some (no_block entries).
Proof.
  intros Ht E. cbn [search_blocks]. destruct (Nat.leb_spec (length entries) (length pre)); [done|].
  destruct Ht as [Hf|(noise & rest & -> & Hn & Hr)]; [by rewrite (scan_from_free _ _ _ _ E Hf)|].
  rewrite (scan_from_app _ _ _ _ _ _ E Hn eq_refl).
  set (i := (length pre + length noise)%nat).
  assert (Content <$> entries = (pre ++ noise ++ [blockStartMarkerBytes]) ++ rest) as E2
    by (rewrite E, <- !app_assoc; done).
  replace (i + 1)%nat with (length (pre ++ noise ++ [blockStartMarkerBytes]))
    by (rewrite !length_app; simpl; unfold i; lia).
  destruct Hr as [Hf|(lines & rest' & -> & Hl & Hf)]; [by rewrite (scan_from_free _ _ _ _ E2 Hf)|].
  rewrite (scan_from_app _ _ _ _ _ _ E2 Hl eq_refl).
  assert (Content <$> entries = ((pre ++ noise ++ [blockStartMarkerBytes]) ++ lines ++ [dataEndMarkerBytes]) ++ rest') as E3
    by (rewrite E2, <- !app_assoc; done).
  replace (length (pre ++ noise ++ [blockStartMarkerBytes]) + length lines + 1)%nat
    with (length ((pre ++ noise ++ [blockStartMarkerBytes]) ++ lines ++ [dataEndMarkerBytes]))
    by (rewrite !length_app; simpl; lia).
  by rewrite (scan_from_free _ _ _ _ E3 Hf).
Qed.

Lemma search_rendered entries last tail bs : tail_ok tail → ∀ fuel pre, Forall block_ok bs →
  (length bs < fuel)%nat → Content <$> entries = pre ++ concat (block_text <$> bs) ++ tail →
  ∃ idx, search_blocks fuel entries last (length pre) =
    match first_newer last bs with
    | Some b => Some (EncodeToString (blk_payload b), blk_ms b, idx)
    | None => Some (no_block entries)
    end.
Proof.
  intros Ht. induction bs as [|b bs IH]; intros fuel pre Hb Hf E.
  - destruct fuel as [|fuel]; [simpl in Hf; lia|]. exists 0. by eapply search_tail.
  - apply Forall_cons in Hb as [Hb Hbs]. destruct fuel as [|fuel]; [simpl in Hf; lia|].
    simpl in E. rewrite <- (app_assoc (block_text b)) in E.
    destruct (search_block fuel entries last pre b _ Hb E) as (idx & ->). simpl.
    destruct (newer last b); [by exists idx|]. apply IH; [done|simpl in Hf; lia|].
    by rewrite E, <- app_assoc.
Qed.

Lemma length_blocks bs : (length bs <= length (concat (block_text <$> bs)))%nat.
Proof.
  induction bs as [|b bs IH]; [done|]. rewrite fmap_cons. cbn [concat]. rewrite length_app.
  assert (0 < length (block_text b))%nat by (unfold block_text; rewrite length_app; simpl; lia).
  simpl. lia.
Qed.

Lemma extract_rendered entries last bs : Forall block_ok bs → renders entries bs →
  ∃ idx, extractNextBlock entries last =
    match first_newer last bs with
    | Some b => Some (EncodeToString (blk_payload b), blk_ms b, idx)
    | None => Some (no_block entries)
    end.
Proof.
  intros Hb (tail & Ht & E). apply (search_rendered entries last tail bs Ht _ []); [done| |done].
  pose proof (f_equal length E) as HL. rewrite length_fmap, length_app in HL. pose proof (length_blocks bs). lia.
Qed.

Definition stamp (b : Block) : Time * bytes := (UnixMilli (blk_ms b), blk_payload b).

Lemma deliver_rendered entries bs d last : Forall block_ok bs → renders entries bs →
  deliver entries (d, last) = match first_newer last bs with
    | Some b => match blk_payload b with [] => (d, last) | _ => (d ++ [stamp b], UnixMilli (blk_ms b)) end
    | None => (d, last)
    end.
Proof.
  intros Hb Hr. unfold deliver. destruct (extract_rendered entries last bs Hb Hr) as (idx & ->).
  destruct (first_newer last bs) as [b|]; [|done]. unfold stamp.
  destruct (blk_payload b) as [|a p] eqn:Ep; [done|].
  destruct (EncodeToString (a :: p)) eqn:Ee; [by pose proof (length_Encode (a :: p)); rewrite Ee in *|].
  by rewrite <- Ee, Decode_Encode.
Qed.

(** ** Calls on a growing log *)

(** The blocks come with strictly increasing time stamps after the epoch, and
    each has a payload. *)
Definition stream_ok (bs : list Block) : Prop :=
  Forall block_ok bs ∧ Forall (λ b, 0 <= blk_ms b ∧ blk_payload b ≠ []) bs ∧
  (∀ i j b c, bs !! i = Some b → bs !! j = Some c → (i < j)%nat → blk_ms b < blk_ms c).

(** The time stamp of the last of the first [m] blocks. *)
Definition last_time (bs : list Block) (m : nat) : Time :=
  match last (take m bs) with Some b => UnixMilli (blk_ms b) | None => 0 end.

Lemma UnixMilli_pos ms : 0 <= ms → IsZero (UnixMilli ms) = false.
Proof. intros H. apply Z.eqb_neq. unfold UnixMilli, unixToInternal, nano. lia. Qed.

Lemma first_newer_skip last b bs : newer last b = false → first_newer last (b :: bs) = first_newer last bs.
Proof. intros H. simpl. by rewrite H. Qed.

Lemma first_newer_app last bs cs : Forall (λ b, newer last b = false) bs → first_newer last (bs ++ cs) = first_newer last cs.
Proof. induction 1 as [|b bs Hb _ IH]; [done|]. simpl. by rewrite Hb. Qed.

Lemma first_newer_stream bs m n : stream_ok bs → (m <= length bs)%nat →
  first_newer (last_time bs m) (take n bs) = if (m <? n)%nat then bs !! m else None.
Proof.
  intros (_ & Hpos & Hinc) Hm. destruct m as [|m].
  - unfold last_time. rewrite take_0. simpl. destruct bs as [|b bs]; [by rewrite take_nil; case_match|].
    by destruct n.
  - destruct (lookup_lt_is_Some_2 bs m) as [b Hb]; [lia|].
    assert (last_time bs (S m) = UnixMilli (blk_ms b)) as ->.
    { unfold last_time. by rewrite (take_S_r _ _ _ Hb), last_snoc. }
    assert (0 <= blk_ms b) as Hb0 by (eapply Forall_lookup_1 in Hpos; [|exact Hb]; tauto).
    assert (∀ i c, bs !! i = Some c → newer (UnixMilli (blk_ms b)) c = bool_decide (m < i)%nat) as Hnew.
    { intros i c Hc. unfold newer. rewrite UnixMilli_pos by done. cbn [orb]. unfold After, UnixMilli.
      destruct (decide (m < i)%nat) as [H|H].
      - rewrite bool_decide_eq_true_2 by done. apply Z.ltb_lt. pose proof (Hinc m i b c Hb Hc H). lia.
      - rewrite bool_decide_eq_false_2 by done. apply Z.ltb_ge.
        destruct (decide (i = m)) as [->|Hne]; [simplify_eq; lia|].
        pose proof (Hinc i m c b Hc Hb ltac:(lia)). lia. }
    assert (∀ k, (k <= S m)%nat → Forall (λ c, newer (UnixMilli (blk_ms b)) c = false) (take k bs)) as Hold.
    { intros k Hk. apply Forall_lookup_2. intros i c Hc. apply lookup_take_Some in Hc as [Hc Hi].
      rewrite (Hnew i c Hc). apply bool_decide_eq_false. lia. }
    destruct (Nat.ltb_spec (S m) n) as [Hlt|Hge].
    + rewrite <- (take_drop (S m) (take n bs)), take_take, Nat.min_l, first_newer_app by (try apply Hold; lia).
      destruct (bs !! S m) as [c|] eqn:Hc.
      * assert (drop (S m) (take n bs) = c :: drop (S (S m)) (take n bs)) as ->.
        { apply drop_S. by rewrite lookup_take_lt by lia. }
        simpl. rewrite (Hnew (S m) c Hc), bool_decide_eq_true_2 by lia. done.
      * rewrite drop_ge; [done|]. rewrite length_take. apply lookup_ge_None in Hc. lia.
    + rewrite <- (app_nil_r (take n bs)), first_newer_app by (apply Hold; lia). done.
Qed.

(** A call: the pool's choice and the log as it is then. *)
Fixpoint run_calls (calls : list (option nat * list LogEntry)) (s : Service) : option Service :=
  match calls with
  | [] => Some s
  | (pick, entries) :: calls => s ← parseBlock pick entries s; run_calls calls s
  end.

(** What a reader finds behind a pointer of a snapshot. *)
Definition view (h : Heap) (p : option ptr) : option (Time * bytes * Z) :=
  p ← p; it ← cells h !! p; Some (ItemTimestamp it, slice_bytes (Payload it), SequenceNum it).

Lemma run_calls_ok calls : ∀ s hist d, svc_ok s hist d →
  ∃ s' hist' d', run_calls calls s = Some s' ∧ svc_ok s' (hist ++ hist') d' ∧ keeps_items hist s s'.
Proof.
  induction calls as [|[pick entries] calls IH]; intros s hist d Hs.
  - exists s, [], d. by rewrite app_nil_r.
  - destruct (parseBlock_ok pick entries s hist d Hs) as (s1 & h1 & E & H1 & _ & K1). simpl. rewrite E. simpl.
    destruct (IH _ _ _ H1) as (s2 & h2 & d2 & E2 & H2 & K2). exists s2, (h1 ++ h2), d2.
    rewrite app_assoc. split; [done|]. split; [done|]. intros q Hq. rewrite K2, K1 by set_solver. done.
Qed.

Lemma snapshot_items s hist d snap : svc_ok s hist d → GetSnapshot (ringbuffer s) = Some snap →
  Items snap = Some <$> last_n (Z.to_nat RingBufferCapacity) hist ∧
  LastSequenceNum snap = wrap_u64 (Z.of_nat (length hist)).
Proof.
  intros Hs. rewrite (GetSnapshot_ok _ _ (so_rb _ _ _ Hs)), (so_cap _ _ _ Hs). intros [= <-].
  split; [|done]. cbn [Items]. unfold last_n. by rewrite length_fmap, fmap_drop.
Qed.

(** What the items of the ring hold, in terms of what was delivered. *)
Definition numbered (d : list (Time * bytes)) : list (option (Time * bytes * Z)) :=
  imap (λ i x, Some (x.1, x.2, wrap_u64 (Z.of_nat (i + 1)))) d.

Lemma view_hist s hist d : svc_ok s hist d → (view (heap s) ∘ Some) <$> hist = numbered d.
Proof.
  intros [_ _ _ _ _ Hlen Hi]. apply list_eq. intros i. unfold numbered.
  rewrite list_lookup_fmap, list_lookup_imap. destruct (hist !! i) as [p|] eqn:Hp; simpl.
  - destruct (Hi i p Hp) as (it & E1 & E2 & E3). rewrite E2. simpl. by rewrite E1, <- E3.
  - apply lookup_ge_None in Hp. by rewrite (lookup_ge_None_2 d) by lia.
Qed.

(** The number of blocks delivered once the log showed [ns] blocks to the calls. *)
Definition progress (ns : list nat) : nat := foldl (λ m n, if (m <? n)%nat then S m else m) 0%nat ns.

Lemma deliver_stream entries bs m n : stream_ok bs → (m <= length bs)%nat → (n <= length bs)%nat →
  renders entries (take n bs) →
  deliver entries (stamp <$> take m bs, last_time bs m) =
    let m' := if (m <? n)%nat then S m else m in (stamp <$> take m' bs, last_time bs m').
Proof.
  intros Hs Hm Hn Hr. pose proof Hs as (Hb & Hpos & _).
  rewrite (deliver_rendered _ (take n bs)) by (try done; by apply Forall_take).
  rewrite first_newer_stream by done. destruct (Nat.ltb_spec m n) as [Hlt|Hge]; [|done].
  destruct (lookup_lt_is_Some_2 bs m) as [b E]; [lia|]. rewrite E.
  assert (blk_payload b ≠ []) as Hne by (eapply Forall_lookup_1 in Hpos; [|exact E]; tauto).
  destruct (blk_payload b) eqn:Ep; [done|]. cbv zeta. rewrite (take_S_r _ _ _ E), fmap_app.
  unfold last_time. by rewrite (take_S_r _ _ _ E), last_snoc.
Qed.

Lemma run_stream bs calls ns : stream_ok bs →
  Forall2 (λ c n, (n <= length bs)%nat ∧ renders c.2 (take n bs)) calls ns →
  ∀ s hist m, (m <= length bs)%nat → svc_ok s hist (stamp <$> take m bs) → lastProcessedTimestamp s = last_time bs m →
  ∃ s' hist', run_calls calls s = Some s' ∧
    svc_ok s' hist' (stamp <$> take (foldl (λ m n, if (m <? n)%nat then S m else m) m ns) bs) ∧
    (foldl (λ m n, if (m <? n)%nat then S m else m) m ns <= length bs)%nat.
Proof.
  intros Hst. induction 1 as [|[pick entries] n calls ns [Hn Hr] _ IH]; intros s hist m Hm Hs Hl.
  - exists s, hist. done.
  - destruct (parseBlock_ok pick entries s hist _ Hs) as (s1 & h1 & E & H1 & Hl1 & _).
    rewrite Hl, (deliver_stream _ bs m n) in H1, Hl1 by done. simpl. rewrite E. simpl.
    eapply IH; [|exact H1|exact Hl1]. destruct (Nat.ltb_spec m n); lia.
Qed.

(** ** Theorems *)

(** C31: the ring buffer refines the stream of added items.  A buffer of any
    requested capacity, after any number of additions of existing items, holds
    the last [Cap] of them: the snapshot lists them oldest first under the
    number of additions, and no operation panics. *)
Theorem ringbuffer_refines_stream (capacity : Z) (ps : list ptr) (h : Heap) :
  0 <= capacity → (∀ p, p ∈ ps → is_Some (cells h !! p)) →
  ∃ rb h', foldl (λ st p, '(rb, h) ← st; Add p rb h) (Some (NewRingbuffer capacity, h)) ps = Some (rb, h') ∧
    Cap rb = Cap (NewRingbuffer capacity) ∧ Len rb = Z.min (Z.of_nat (length ps)) (Cap rb) ∧
    GetSnapshot rb = Some (mkSnapshot (last_n (Z.to_nat (Cap rb)) (Some <$> ps)) (wrap_u64 (Z.of_nat (length ps)))).
Proof.
  intros Hc Hps.
  assert (∀ ps rb h hist, rb_ok rb hist → (∀ p, p ∈ ps → is_Some (cells h !! p)) →
    ∃ rb' h', foldl (λ st p, '(rb, h) ← st; Add p rb h) (Some (rb, h)) ps = Some (rb', h') ∧
      rb_ok rb' (hist ++ ps) ∧ Cap rb' = Cap rb) as Hg.
  { clear. induction ps as [|p ps IH]; intros rb h hist Hok Hps.
    { exists rb, h. by rewrite app_nil_r. }
    destruct (Hps p) as [i Hi]; [set_solver|].
    destruct (Add_ok rb hist p h i Hok Hi) as (rb1 & E & Hok1 & Hl1). cbn [foldl mbind option_bind]. rewrite E.
    edestruct (IH rb1) as (rb2 & h2 & E2 & Hok2 & Hl2); [exact Hok1| |].
    2: { exists rb2, h2. rewrite E2, <- app_assoc in *. split; [done|]. split; [done|].
         rewrite Hl2. unfold Cap. by rewrite Hl1. }
    cbn [cells]. intros q Hq. destruct (decide (q = p)) as [->|Hne]; [by rewrite lookup_insert_eq|].
    rewrite lookup_insert_ne by done. apply Hps. set_solver. }
  destruct (Hg ps (NewRingbuffer capacity) h [] (NewRingbuffer_ok _ Hc) Hps) as (rb & h' & E & Hok & Hl).
  exists rb, h'. split; [done|]. split; [done|]. rewrite (GetSnapshot_ok _ _ Hok). unfold Cap.
  rewrite Nat2Z.id. split; [|done]. unfold Len. rewrite (rb_count _ _ Hok). simpl. lia.
Qed.

(** No block of the stream is lost.  When the benthos plugin prints blocks
    with increasing time stamps and each call of [parseBlock] sees a log that
    ends at any point after a number of complete blocks, every call delivers
    one more block as long as its log holds one, in order, and the snapshot
    shows the last three with their time stamps, payloads and numbers. *)
Theorem blocks_are_delivered (bs : list Block) (calls : list (option nat * list LogEntry)) (ns : list nat) :
  stream_ok bs → Forall2 (λ c n, (n <= length bs)%nat ∧ renders c.2 (take n bs)) calls ns →
  ∃ s snap, run_calls calls NewService = Some s ∧ GetSnapshot (ringbuffer s) = Some snap ∧
    LastSequenceNum snap = wrap_u64 (Z.of_nat (progress ns)) ∧
    view (heap s) <$> Items snap =
      last_n (Z.to_nat RingBufferCapacity) (numbered (stamp <$> take (progress ns) bs)).
Proof.
  intros Hst Hcs. destruct (run_stream bs calls ns Hst Hcs NewService [] 0) as (s & hist & E & Hs & Hle);
    [lia|rewrite take_0; apply NewService_ok|done|].
  pose proof (so_rb _ _ _ Hs) as Hrb. exists s. eexists. split; [done|]. split; [by apply GetSnapshot_ok|].
  destruct (snapshot_items s hist _ _ Hs (GetSnapshot_ok _ _ Hrb)) as [HI HL]. fold (progress ns) in *.
  rewrite HI, HL, (so_len _ _ _ Hs), length_fmap, length_take, Nat.min_l by done. split; [done|].
  rewrite <- (view_hist _ _ _ Hs). unfold last_n. rewrite length_fmap, <- !fmap_drop, <- list_fmap_compose. done.
Qed.

(** What a snapshot shows never changes.  Whatever logs are parsed and
    whichever items the pool hands out, every pointer of a snapshot leads to
    the same time stamp, payload and number after any further calls. *)
Theorem snapshots_are_immutable (before after : list (option nat * list LogEntry)) :
  ∃ s snap s', run_calls before NewService = Some s ∧ GetSnapshot (ringbuffer s) = Some snap ∧
    run_calls after s = Some s' ∧
    ∀ p, p ∈ Items snap → is_Some (view (heap s) p) ∧ view (heap s') p = view (heap s) p.
Proof.
  destruct (run_calls_ok before NewService [] [] NewService_ok) as (s & hist & d & E & Hs & _).
  destruct (run_calls_ok after s _ _ Hs) as (s' & h2 & d2 & E2 & _ & HK).
  pose proof (so_rb _ _ _ Hs) as Hrb. exists s. eexists. exists s'. split; [done|].
  split; [by apply GetSnapshot_ok|]. split; [done|].
  destruct (snapshot_items s _ _ _ Hs (GetSnapshot_ok _ _ Hrb)) as [HI _]. rewrite HI.
  intros p [q [-> Hq]]%list_elem_of_fmap. assert (q ∈ hist) as Hin.
  { unfold last_n in Hq. apply list_elem_of_lookup in Hq as [i Hi]. rewrite lookup_drop in Hi.
    by eapply list_elem_of_lookup_2. }
  unfold view. cbn [mbind option_bind]. rewrite HK by done. split; [|done].
  destruct (so_live _ _ _ Hs q) as [x ->]; [set_solver|]. by eexists.
Qed.

(** A block without a payload stops the stream.  While the first block
    that has not been processed carries no hex data, a call changes nothing,
    so that no later block of that log is ever delivered. *)
Theorem empty_block_stalls (bs : list Block) (b : Block) (entries : list LogEntry) (s : Service)
    (pick : option nat) :
  Forall block_ok bs → renders entries bs → first_newer (lastProcessedTimestamp s) bs = Some b →
  blk_payload b = [] → parseBlock pick entries s = Some s.
Proof.
  intros Hb Hr Hf Hp. unfold parseBlock.
  destruct (extract_rendered entries (lastProcessedTimestamp s) bs Hb Hr) as (idx & ->).
  rewrite Hf, Hp. done.
Qed.

(** Blocks that are not newer than the last processed one are never delivered:
    of two blocks with the same millisecond the second is dropped. *)
Theorem late_blocks_dropped (bs : list Block) (entries : list LogEntry) (s : Service) (pick : option nat) :
  Forall block_ok bs → renders entries bs → lastProcessedTimestamp s ≠ 0 →
  Forall (λ b, UnixMilli (blk_ms b) <= lastProcessedTimestamp s) bs → parseBlock pick entries s = Some s.
Proof.
  intros Hb Hr H0 Hle. unfold parseBlock.
  destruct (extract_rendered entries (lastProcessedTimestamp s) bs Hb Hr) as (idx & ->).
  rewrite <- (app_nil_r bs), first_newer_app; [done|]. eapply Forall_impl; [exact Hle|].
  intros b H. unfold newer, IsZero, After. rewrite (proj2 (Z.eqb_neq _ _)), (proj2 (Z.ltb_ge _ _)) by done. done.
Qed.

(** ** Witnesses *)

Definition example_block (hex payload ts : string) (ms : Z) : Block :=
  mkBlock [lit "starting up"] [lit hex; lit " "] (lit payload) (lit ts) ms.

Definition example_blocks : list Block :=
  [example_block "6869" "hi" "1700000000000" 1700000000000;
   example_block "796f" "yo" "1700000001000" 1700000001000].

Definition example_log (bs : list Block) : list LogEntry :=
  mkLogEntry 0 <$> (concat (block_text <$> bs) ++ [blockStartMarkerBytes; lit "79"]).

Lemma example_log_renders bs : renders (example_log bs) bs.
Proof.
  exists [blockStartMarkerBytes; lit "79"]. split.
  - right. exists [], [lit "79"]. split; [done|]. split; [constructor|]. left. by repeat constructor.
  - unfold example_log. rewrite <- list_fmap_compose. apply list_fmap_id.
Qed.

Lemma example_block_ok : Forall block_ok example_blocks.
Proof.
  repeat constructor; vm_compute; reflexivity.
Qed.

Lemma example_stream_ok : stream_ok example_blocks.
Proof.
  split; [exact example_block_ok|]. split; [repeat constructor; discriminate|].
  intros [|[|i]] [|[|j]] b c; simpl; try done; try lia. intros [= <-] [= <-] _. simpl. lia.
Qed.

Lemma ringbuffer_refines_stream_witness : ∃ rb h',
  foldl (λ st p, '(rb, h) ← st; Add p rb h) (Some (NewRingbuffer 2, mkHeap {[ 7%nat := empty_item ]} 8 [])) [7%nat; 7%nat; 7%nat]
    = Some (rb, h') ∧ GetSnapshot rb = Some (mkSnapshot [Some 7%nat; Some 7%nat] 3).
Proof.
  destruct (ringbuffer_refines_stream 2 [7%nat; 7%nat; 7%nat] (mkHeap {[ 7%nat := empty_item ]} 8 []))
    as (rb & h' & E & HC & _ & HS); [lia| |].
  - intros p Hp. assert (p = 7%nat) as -> by set_solver. by eexists.
  - exists rb, h'. split; [exact E|]. rewrite HS, HC. reflexivity.
Defined.

Lemma blocks_are_delivered_witness : ∃ s snap,
  run_calls [(None, example_log (take 1 example_blocks)); (Some 0%nat, example_log example_blocks)] NewService = Some s ∧
  GetSnapshot (ringbuffer s) = Some snap ∧
  view (heap s) <$> Items snap =
    [Some (UnixMilli 1700000000000, lit "hi", 1); Some (UnixMilli 1700000001000, lit "yo", 2)].
Proof.
  destruct (blocks_are_delivered example_blocks
    [(None, example_log (take 1 example_blocks)); (Some 0%nat, example_log example_blocks)] [1%nat; 2%nat] example_stream_ok)
    as (s & snap & E1 & E2 & _ & E3).
  - repeat constructor; apply example_log_renders.
  - exists s, snap. split; [exact E1|]. split; [exact E2|]. rewrite E3. reflexivity.
Defined.

Lemma empty_block_stalls_witness :
  parseBlock None (example_log [example_block "" "" "1700000000000" 1700000000000; example_block "796f" "yo" "1700000001000" 1700000001000])
    NewService = Some NewService.
Proof.
  eapply (empty_block_stalls [example_block "" "" "1700000000000" 1700000000000; example_block "796f" "yo" "1700000001000" 1700000001000]).
  - repeat constructor; vm_compute; reflexivity.
  - apply example_log_renders.
  - reflexivity.
  - reflexivity.
Defined.
