(* ===== verification/BridgeAdmission.v ===== *)
(** * BridgeAdmission: which bridges may be created

    Models [pkg/bridgeadmission/decide.go] and the part of
    [pkg/service/protocolconverter/protocolconverter.go] that feeds it from a
    system snapshot ([BridgeMustWait], [admissionResources], [countBridges]).
    All bridges of one tick decide on the same snapshot. *)

From S2P Require Import Prelude Float64 BaseFSM.
Local Open Scope Z_scope.

(** ** decide.go *)

Definition BridgesPerCore : float64 := F 5 0.
Definition redpandaReservedCores : float64 := F 1 0.

Definition emergencyHint : string := "In an emergency, you can start bridges anyway with the emergency setting Turn off bridge admission: set agent.enableResourceLimitBlocking: false in the instance's Config File. It takes effect without a restart. While it is false, the instance shows as degraded. Set it back to true once the resource problem is fixed.".

Inductive Health := Unproven | Healthy | Degraded.
#[export] Instance Health_eq_dec : EqDecision Health.
Proof. solve_decision. Defined.

Record Resource := mkResource { ResHealth : Health; ResMessage : string }.

Record Input := mkInput {
  EnableResourceLimitBlocking : bool;
  CPU : Resource;
  Memory : Resource;
  Disk : Resource;
  Created : Z;
  WaitingBefore : Z;
  Cores : float64 }.

Inductive Cause := NoCause | NotProven | CauseCPU | CauseMemory | CauseDisk | BridgeLimit.

Record Decision := mkDecision {
  Admit : bool;
  DecCause : Cause;
  Reason : string;
  MaxBridges : option Z }.

Definition Message (d : Decision) : string := if Admit d then "" else Reason d +:+ ". " +:+ emergencyHint.

Definition refuse (cause : Cause) (reason : string) : Decision := mkDecision false cause reason None.

Record namedResource := mkNamed { res : Resource; res_name : string; res_cause : Cause }.

Definition resourcesInRefusalOrder (i : Input) : list namedResource :=
  [mkNamed (CPU i) "CPU" CauseCPU; mkNamed (Memory i) "Memory" CauseMemory; mkNamed (Disk i) "Disk" CauseDisk].

Definition degradedReason (r : namedResource) : string :=
  if bool_decide (ResMessage (res r) = "") then res_name r +:+ " resources degraded"
  else res_name r +:+ " degraded: " +:+ ResMessage (res r).

Definition unprovenReason (r : namedResource) : string :=
  if bool_decide (ResMessage (res r) = "") then "Resource health not proven yet"
  else "Resource health not proven yet: " +:+ ResMessage (res r).

(** [fmt.Sprintf] with [%.1f]: the exact value rounded to one decimal, ties to even. *)
Definition format_1f (f : float64) : string :=
  let n := if 0 <=? expo f then 10 * mant f * 2 ^ expo f else rne (10 * mant f) (- expo f) in
  (if n <? 0 then "-" else "") +:+ pretty (Z.abs n / 10) +:+ "." +:+ pretty (Z.abs n mod 10).

Definition fmax (a b : float64) : float64 := if fleb a b then b else a.

(** [int(max(in.Cores-redpandaReservedCores, 0) * BridgesPerCore)]. *)
Definition bridge_limit (cores : float64) : Z :=
  ftrunc (fmul (fmax (fsub cores redpandaReservedCores) (F 0 0)) BridgesPerCore).

Definition first_with (h : Health) (rs : list namedResource) : option namedResource :=
  snd <$> list_find (λ r, ResHealth (res r) = h) rs.

Definition Decide (i : Input) : Decision :=
  if negb (EnableResourceLimitBlocking i) then mkDecision true NoCause "" None
  else
    match first_with Degraded (resourcesInRefusalOrder i) with
    | Some r => refuse (res_cause r) (degradedReason r)
    | None =>
        match first_with Unproven (resourcesInRefusalOrder i) with
        | Some r => refuse NotProven (unprovenReason r)
        | None =>
            if fleb (Cores i) (F 0 0)
            then refuse NotProven "Resource health not proven yet: CPU cores not measured yet"
            else
              let maxBridges := bridge_limit (Cores i) in
              if maxBridges <=? Created i + WaitingBefore i
              then mkDecision false BridgeLimit
                     ("Cannot create bridge - limit exceeded (" +:+ pretty maxBridges +:+ " bridges maximum with "
                      +:+ format_1f (Cores i) +:+ " CPU cores, 1 core reserved for Redpanda)") (Some maxBridges)
              else mkDecision true NoCause "" (Some maxBridges)
        end
    end.

(** ** protocolconverter.go *)

Inductive HealthCategory := Neutral | Active | CatDegraded.

(** The CPU record of a reading: the verdict's capacity, the cgroup limit, the host's cores. *)
Record CPUReading := mkCPU {
  cpu_Health : option string;
  CapacityCores : option float64;
  CgroupCores : float64;
  CoreCount : option Z }.

(** [ServiceInfoSnapshot] of the container monitor: categories, and the
    messages of the health records that are there. *)
Record ContainerInfo := mkContainerInfo {
  CPUHealth : HealthCategory;
  MemoryHealth : HealthCategory;
  DiskHealth : HealthCategory;
  info_CPU : option CPUReading;
  info_Memory : option (option string);
  info_Disk : option (option string) }.

(** [LastObservedState] is [None] when it is no container snapshot or nil. *)
Record FSMInstanceSnapshot := mkInstanceSnapshot {
  CurrentState : string;
  LastObservedState : option ContainerInfo }.

Record SystemSnapshot := mkSystemSnapshot {
  Managers : gmap string (gmap string FSMInstanceSnapshot);
  cfg_EnableResourceLimitBlocking : bool;
  cfg_ProtocolConverter : list string }.

Definition ContainerManagerName : string := "ContainerManager_Core".
Definition ProtocolConverterManagerName : string := "ProtocolConverterManagerCore".
Definition CoreInstanceName : string := "Core".
Definition ContainerOperationalStateActive : string := "active".

Record resources := mkResources { r_CPU : Resource; r_Memory : Resource; r_Disk : Resource; r_Cores : float64 }.

Definition unproven (message : string) : Resource := mkResource Unproven message.
Definition allUnproven (message : string) : resources :=
  mkResources (unproven message) (unproven message) (unproven message) (F 0 0).

Definition containerCores (cpu : option CPUReading) : float64 :=
  match cpu with
  | None => F 0 0
  | Some c => match CapacityCores c with
              | Some x => x
              | None => if negb (fleb (CgroupCores c) (F 0 0)) then CgroupCores c
                        else match CoreCount c with Some n => of_int n | None => F 0 0 end
              end
  end.

Definition classify (state : string) (category : HealthCategory) (health : option string) : Resource :=
  match category with
  | CatDegraded => mkResource Degraded (default "" health)
  | Active => if bool_decide (state = ContainerOperationalStateActive) then mkResource Healthy ""
              else unproven ("instance not active yet (state " +:+ state +:+ ")")
  | Neutral => unproven "no health reading yet"
  end.

Definition admissionResources (s : SystemSnapshot) : resources :=
  match Managers s !! ContainerManagerName with
  | None => allUnproven "container monitor not available"
  | Some instances =>
      match instances !! CoreInstanceName with
      | None => allUnproven "container health status unavailable"
      | Some instance =>
          match LastObservedState instance with
          | None => allUnproven "no health reading yet"
          | Some info =>
              mkResources
                (classify (CurrentState instance) (CPUHealth info) (info_CPU info ≫= cpu_Health))
                (classify (CurrentState instance) (MemoryHealth info) (mjoin (info_Memory info)))
                (classify (CurrentState instance) (DiskHealth info) (mjoin (info_Disk info)))
                (containerCores (info_CPU info))
          end
      end
  end.

Definition bridges (s : SystemSnapshot) : gmap string FSMInstanceSnapshot :=
  default ∅ (Managers s !! ProtocolConverterManagerName).

(** The states that do not count as created. *)
Definition not_created (state : string) : bool :=
  bool_decide (state = LifecycleStateToBeCreated) || bool_decide (state = LifecycleStateRemoving)
  || bool_decide (state = LifecycleStateRemoved).

Definition count_created (s : SystemSnapshot) (bridgeName : string) : Z :=
  Z.of_nat (size (filter (λ '(name, i), name ≠ bridgeName ∧ not_created (CurrentState i) = false) (bridges s))).

Definition is_waiting (s : SystemSnapshot) (name : string) : bool :=
  match bridges s !! name with
  | Some i => bool_decide (CurrentState i = LifecycleStateToBeCreated)
  | None => false
  end.

(** The loop over [config.yaml], up to the bridge itself. *)
Fixpoint count_waiting (s : SystemSnapshot) (configured : list string) (bridgeName : string) : Z :=
  match configured with
  | [] => 0
  | name :: rest => if bool_decide (name = bridgeName) then 0
                    else (if is_waiting s name then 1 else 0) + count_waiting s rest bridgeName
  end.

(** Without the manager both counts are 0. *)
Definition countBridges (s : SystemSnapshot) (bridgeName : string) : Z * Z :=
  match Managers s !! ProtocolConverterManagerName with
  | None => (0, 0)
  | Some _ => (count_created s bridgeName, count_waiting s (cfg_ProtocolConverter s) bridgeName)
  end.

Definition admission_input (s : SystemSnapshot) (bridgeName : string) : Input :=
  let r := admissionResources s in
  let '(created, waitingBefore) := countBridges s bridgeName in
  mkInput (cfg_EnableResourceLimitBlocking s) (r_CPU r) (r_Memory r) (r_Disk r) created waitingBefore (r_Cores r).

Definition BridgeMustWait (s : SystemSnapshot) (bridgeName : string) : bool * string :=
  let d := Decide (admission_input s bridgeName) in (negb (Admit d), Message d).

(** ** The limit *)

Lemma fleb_zero m e : fleb (F m e) (F 0 0) = (m <=? 0).
Proof.
  unfold fleb. cbn [mant expo]. rewrite Z.mul_0_l. pose proof (Z.pow_pos_nonneg 2 (e - Z.min e 0) ltac:(lia) ltac:(lia)).
  destruct (Z.leb_spec m 0); apply Z.leb_le || apply Z.leb_gt; nia.
Qed.

(** For a number of cores with few enough digits the limit is exact: five for
    each core but the first, rounded down. *)
Lemma bridge_limit_exact m j : 0 <= j <= 40 → 0 <= m < 2 ^ 48 →
  bridge_limit (F m (- j)) = Z.max 0 (5 * (m - 2 ^ j) / 2 ^ j).
Proof.
  intros Hj Hm. assert (1 <= 2 ^ j <= 2 ^ 40) as Hp.
  { split; [apply (Z.pow_le_mono_r 2 0 j); lia|apply Z.pow_le_mono_r; lia]. }
  unfold bridge_limit, fsub, fadd, fopp, redpandaReservedCores. cbn [mant expo].
  replace (Z.min (- j) 0) with (- j) by lia. replace (- j - - j) with 0 by lia. replace (0 - - j) with j by lia.
  rewrite fround_exact by lia. unfold fmax. replace (m * 2 ^ 0 + Z.opp 1 * 2 ^ j) with (m - 2 ^ j) by lia.
  rewrite fleb_zero. destruct (Z.leb_spec (m - 2 ^ j) 0) as [Hle|Hgt].
  - assert (5 * (m - 2 ^ j) / 2 ^ j <= 0) by (apply Z.div_le_upper_bound; lia).
    rewrite Z.max_l by lia. reflexivity.
  - unfold fmul, BridgesPerCore. cbn [mant expo]. rewrite fround_exact by lia.
    assert (0 <= 5 * (m - 2 ^ j) / 2 ^ j) by (apply Z.div_pos; lia). rewrite Z.max_r by lia.
    unfold ftrunc. cbn [mant expo]. rewrite Z.add_0_r. destruct (Z.leb_spec 0 (- j)) as [Hz|Hz].
    + assert (j = 0) as -> by lia. change (2 ^ 0) with 1. rewrite Z.div_1_r. cbn. lia.
    + rewrite Z.opp_involutive, Z.quot_div_nonneg by lia. f_equal. lia.
Qed.

(** ** Decisions *)

Definition all_healthy (i : Input) : Prop :=
  ResHealth (CPU i) = Healthy ∧ ResHealth (Memory i) = Healthy ∧ ResHealth (Disk i) = Healthy.

Lemma Decide_admits i : Admit (Decide i) = true ↔ EnableResourceLimitBlocking i = false ∨
  (all_healthy i ∧ fleb (Cores i) (F 0 0) = false ∧ Created i + WaitingBefore i < bridge_limit (Cores i)).
Proof.
  unfold Decide, first_with, all_healthy. destruct (EnableResourceLimitBlocking i); [|by split; [left|]].
  destruct i as [e [c cm] [m mm] [d dm] cr wt co]; cbn.
  destruct c, m, d; cbn; try (split; [discriminate|intros [?|((? & ? & ?) & _)]; discriminate]).
  destruct (fleb co (F 0 0)); cbn; [split; [discriminate|intros [?|(_ & ? & _)]; discriminate]|].
  destruct (Z.leb_spec (bridge_limit co) (cr + wt)); cbn.
  - split; [discriminate|]. intros [?|(_ & _ & ?)]; [discriminate|lia].
  - split; [|done]. intros _. right. split; [done|]. split; [done|lia].
Qed.

(** ** All the bridges of one tick *)

Definition created_total (s : SystemSnapshot) : Z :=
  Z.of_nat (size (filter (λ '(_, i), not_created (CurrentState i) = false) (bridges s))).

(** The configured bridges that wait to be created and are let through. *)
Definition admitted (s : SystemSnapshot) : list string :=
  filter (λ b, is_waiting s b = true ∧ (BridgeMustWait s b).1 = false) (cfg_ProtocolConverter s).

Lemma count_waiting_app s pre b post : b ∉ pre →
  count_waiting s (pre ++ b :: post) b = Z.of_nat (length (filter (λ n, is_waiting s n = true) pre)).
Proof.
  induction pre as [|n pre IH]; intros Hb; simpl.
  - by rewrite bool_decide_eq_true_2.
  - rewrite bool_decide_eq_false_2 by set_solver. rewrite IH by set_solver.
    rewrite filter_cons. destruct (is_waiting s n); simpl; lia.
Qed.

Lemma count_created_waiting s b : is_waiting s b = true → count_created s b = created_total s.
Proof.
  intros Hw. unfold count_created, created_total. do 2 f_equal. apply map_filter_ext.
  intros name i Hi. split; [by intros [_ ?]|]. intros Hn. split; [|done]. intros ->.
  unfold is_waiting in Hw. rewrite Hi in Hw. apply bool_decide_eq_true in Hw. rewrite Hw in Hn. discriminate.
Qed.

Lemma waiting_has_manager s b : is_waiting s b = true → is_Some (Managers s !! ProtocolConverterManagerName).
Proof.
  unfold is_waiting, bridges. destruct (Managers s !! ProtocolConverterManagerName); [by eexists|].
  simpl. rewrite lookup_empty. discriminate.
Qed.

(** A filtered list that is not empty ends somewhere. *)
Lemma filter_last {A} (P : A → Prop) `{∀ x, base.Decision (P x)} (l : list A) : filter P l ≠ [] →
  ∃ pre x post, l = pre ++ x :: post ∧ P x ∧ filter P l = filter P pre ++ [x].
Proof.
  induction l as [|y l IH] using rev_ind; [done|]. rewrite filter_app. intros Hne.
  destruct (decide (P y)) as [Hy|Hy].
  - exists l, y, []. split; [done|]. split; [done|]. by rewrite filter_cons_True.
  - rewrite filter_cons_False, filter_nil, app_nil_r in Hne by done. destruct (IH Hne) as (pre & x & post & -> & Hx & E).
    exists pre, x, (post ++ [y]). split; [by rewrite <- app_assoc|]. split; [done|].
    rewrite filter_cons_False, filter_nil, app_nil_r by done. exact E.
Qed.

Lemma filter_length_impl {A} (P Q : A → Prop) `{∀ x, base.Decision (P x), ∀ x, base.Decision (Q x)} (l : list A) :
  (∀ x, P x → Q x) → (length (filter P l) <= length (filter Q l))%nat.
Proof.
  intros HPQ. induction l as [|x l IH]; [done|]. rewrite !filter_cons.
  destruct (decide (P x)), (decide (Q x)); simpl; try lia. exfalso. auto.
Qed.

(** ** Theorems *)

(** The decision is the documented rule.  With admission off every bridge
    is admitted; otherwise a bridge is admitted exactly when CPU, memory and
    disk are healthy, the cores are measured and the bridges created or waiting
    before it leave room under the limit.  A degraded resource is refused
    before anything unproven, in the order CPU, memory, disk; only an admitted
    bridge has no message, and the limit is five bridges for each core but the
    first, rounded down. *)
Theorem bridge_decision (i : Input) :
  (Admit (Decide i) = true ↔ EnableResourceLimitBlocking i = false ∨
    (all_healthy i ∧ fleb (Cores i) (F 0 0) = false ∧ Created i + WaitingBefore i < bridge_limit (Cores i))) ∧
  (EnableResourceLimitBlocking i = true →
    (DecCause (Decide i) = CauseCPU ↔ ResHealth (CPU i) = Degraded) ∧
    (DecCause (Decide i) = CauseMemory ↔ ResHealth (CPU i) ≠ Degraded ∧ ResHealth (Memory i) = Degraded) ∧
    (DecCause (Decide i) = CauseDisk ↔ ResHealth (CPU i) ≠ Degraded ∧ ResHealth (Memory i) ≠ Degraded ∧
       ResHealth (Disk i) = Degraded)) ∧
  (Message (Decide i) = "" ↔ Admit (Decide i) = true) ∧
  (∀ m j, 0 <= j <= 40 → 0 <= m < 2 ^ 48 → Cores i = F m (- j) →
     bridge_limit (Cores i) = Z.max 0 (5 * (m - 2 ^ j) / 2 ^ j)).
Proof.
  split; [apply Decide_admits|]. split; [|split].
  - intros He. unfold Decide, first_with. rewrite He. destruct i as [e [c cm] [m mm] [d dm] cr wt co]; cbn.
    destruct c, m, d; cbn; repeat case_match; cbn; repeat split; intros; try discriminate; naive_solver.
  - unfold Message. destruct (Admit (Decide i)); split; try done.
    destruct (Reason (Decide i)); discriminate.
  - intros m j Hj Hm ->. by apply bridge_limit_exact.
Qed.

(** One tick never creates more bridges than the limit.  Whatever the
    snapshot says, if any of the configured bridges waiting to be created is
    let through, then those already created and all those let through on this
    snapshot together stay within the limit. *)
Theorem bridges_within_limit (s : SystemSnapshot) :
  cfg_EnableResourceLimitBlocking s = true → NoDup (cfg_ProtocolConverter s) → admitted s ≠ [] →
  created_total s + Z.of_nat (length (admitted s)) <= bridge_limit (r_Cores (admissionResources s)).
Proof.
  intros He Hnd Hne. unfold admitted in *.
  destruct (filter_last _ _ Hne) as (pre & b & post & Hc & [Hw Hb] & ->).
  rewrite Hc in Hnd. apply NoDup_app in Hnd as (_ & Hpre & _).
  assert (b ∉ pre) as Hnot by (intros Hin; apply (Hpre b Hin); set_solver).
  destruct (waiting_has_manager s b Hw) as [m Hm].
  unfold BridgeMustWait in Hb. simpl in Hb. apply negb_false_iff in Hb.
  apply Decide_admits in Hb. unfold admission_input, countBridges in Hb. rewrite Hm in Hb. cbn in Hb.
  destruct Hb as [Hb|(_ & _ & Hlt)]; [by rewrite He in Hb|].
  rewrite (count_created_waiting s b Hw), Hc, (count_waiting_app s pre b post Hnot) in Hlt.
  pose proof (filter_length_impl (λ b, is_waiting s b = true ∧ (BridgeMustWait s b).1 = false)
    (λ n, is_waiting s n = true) pre ltac:(by intros ? [? _])).
  rewrite length_app. cbn [length]. lia.
Qed.

(** ** Witnesses *)

(** A core and three quarters, one bridge running, three waiting: two of them fit. *)
Definition example_snapshot : SystemSnapshot :=
  mkSystemSnapshot
    {[ ContainerManagerName := {[ CoreInstanceName := mkInstanceSnapshot "active"
         (Some (mkContainerInfo Active Active Active (Some (mkCPU None None (F 7 (-2)) None)) None None)) ]};
       ProtocolConverterManagerName :=
         {[ "a" := mkInstanceSnapshot "active" None; "b" := mkInstanceSnapshot LifecycleStateToBeCreated None;
            "c" := mkInstanceSnapshot LifecycleStateToBeCreated None;
            "d" := mkInstanceSnapshot LifecycleStateToBeCreated None ]} ]}
    true ["a"; "b"; "c"; "d"].

(** 1.25 cores leave room for one bridge, 1.75 for three. *)
Lemma bridge_limit_examples : bridge_limit (F 5 (-2)) = 1 ∧ bridge_limit (F 7 (-2)) = 3 ∧ format_1f (F 7 (-2)) = "1.8".
Proof. vm_compute. done. Qed.

Lemma bridges_within_limit_witness :
  admitted example_snapshot = ["b"; "c"] ∧
  created_total example_snapshot + 2 <= bridge_limit (r_Cores (admissionResources example_snapshot)).
Proof.
  assert (admitted example_snapshot = ["b"; "c"]) as E by (vm_compute; reflexivity).
  split; [exact E|]. pose proof (bridges_within_limit example_snapshot) as H. rewrite E in H. apply H; [reflexivity| |discriminate].
  apply (bool_decide_unpack _). vm_compute. exact I.
Defined.
