(* ===== verification/GoPaths.v ===== *)
(** * GoPaths: facts about cleaned paths

    The lemmas on [path/filepath.Clean] and [Join] of [GoBytes] that the S6
    service needs: a cleaned absolute path is a list of proper components, and
    joining a path without ["."] ["."] components stays below the directory.
    It models no code of the repository. *)

From S2P Require Import Prelude GoBytes.
From Stdlib Require Import Ascii.

(** A component a cleaned absolute path can have. *)
Definition proper (c : bytes) : Prop := c ≠ [] ∧ c ≠ lit "." ∧ c ≠ lit ".." ∧ slash ∉ c.

(** The path with these components, below the root. *)
Definition rooted (cs : list bytes) : bytes := slash :: join_with [slash] cs.

Lemma split_on_separated sep s c : c ∈ split_on sep s → sep ∉ c.
Proof.
  revert c. induction s as [|a s IH]; intros c; cbn [split_on].
  - intros ->%list_elem_of_singleton. apply not_elem_of_nil.
  - case_decide as Ha.
    + intros [->|Hc]%elem_of_cons; [apply not_elem_of_nil|by apply IH].
    + destruct (split_on sep s) as [|x l].
      * intros ->%list_elem_of_singleton. by intros ->%list_elem_of_singleton.
      * intros [->|Hc]%elem_of_cons; [|apply IH; by right]. intros [->|Hx]%elem_of_cons; [done|]. by apply (IH x); [left|].
Qed.

Lemma split_join cs : cs ≠ [] → Forall (λ c, slash ∉ c) cs → split_on slash (join_with [slash] cs) = cs.
Proof.
  induction cs as [|c cs IH]; [done|]. intros _ [Hc Hcs]%Forall_cons.
  destruct cs as [|c' cs]; [by apply split_on_single|].
  change (join_with [slash] (c :: c' :: cs)) with (c ++ slash :: join_with [slash] (c' :: cs)).
  rewrite split_on_cons by done. by rewrite IH.
Qed.

Lemma join_app cs ds : cs ≠ [] → ds ≠ [] → join_with [slash] (cs ++ ds) = join_with [slash] cs ++ slash :: join_with [slash] ds.
Proof.
  induction cs as [|c cs IH]; [done|]. intros _ Hd. destruct cs as [|c' cs].
  - destruct ds; [done|]. reflexivity.
  - change (join_with [slash] ((c :: c' :: cs) ++ ds)) with (c ++ slash :: join_with [slash] ((c' :: cs) ++ ds)).
    change (join_with [slash] (c :: c' :: cs)) with (c ++ slash :: join_with [slash] (c' :: cs)).
    rewrite IH by done. by rewrite <- app_assoc.
Qed.

(** Cleaning without ["."]["."]: only the empty and the ["."] components go. *)
Definition kept (l : list bytes) : list bytes := filter (λ c : bytes, c ≠ [] ∧ c ≠ lit ".") l.

Lemma clean_no_dotdot r st l : Forall (λ c, c ≠ lit "..") l → foldl (clean_step r) st l = rev (kept l) ++ st.
Proof.
  revert st. induction l as [|c l IH]; intros st; [done|]. intros [Hc Hl]%Forall_cons. cbn [foldl]. rewrite IH by done.
  unfold clean_step, kept. rewrite filter_cons. destruct (decide (c = [] ∨ c = lit ".")) as [Hd|Hd].
  - rewrite decide_False by naive_solver. done.
  - rewrite (decide_False (P := c = lit "..")) by done. rewrite decide_True by naive_solver. cbn [rev]. by rewrite <- app_assoc.
Qed.

Lemma clean_proper st l : Forall proper st → Forall (λ c, slash ∉ c) l → Forall proper (foldl (clean_step true) st l).
Proof.
  revert st. induction l as [|c l IH]; intros st Hst; [done|]. intros [Hc Hl]%Forall_cons. cbn [foldl]. apply IH; [|done].
  unfold clean_step. case_decide as H1; [done|]. case_decide as H2.
  - destruct Hst as [|x st (_ & _ & Hx & _) Hst]; [done|]. by rewrite decide_False.
  - constructor; [|done]. unfold proper. naive_solver.
Qed.

Lemma kept_id l : Forall proper l → kept l = l.
Proof.
  induction 1 as [|c l (Hc & Hd & _) _ IH]; [done|]. unfold kept in *. rewrite filter_cons, decide_True by done. by rewrite IH.
Qed.

Lemma Clean_rooted p : hd_error p = Some slash → ∃ cs, Forall proper cs ∧ Clean p = rooted cs ∧
  cs = rev (foldl (clean_step true) [] (split_on slash p)).
Proof.
  intros Hp. destruct p as [|a p]; [done|]. injection Hp as ->. eexists. split; [|split; [|done]].
  - apply Forall_rev, clean_proper; [done|]. apply Forall_forall. intros c. apply split_on_separated.
  - unfold Clean. by rewrite bool_decide_true.
Qed.

(** Joining components to a cleaned directory. *)
Lemma Clean_below cs path : cs ≠ [] → Forall proper cs → Forall (λ c, c ≠ lit "..") (split_on slash path) →
  Clean (rooted cs ++ slash :: path) = rooted (cs ++ kept (split_on slash path)).
Proof.
  intros Hne Hcs Hp. unfold Clean, rooted. cbn [app]. rewrite bool_decide_true by done. f_equal. f_equal.
  rewrite app_comm_cons, split_on_app. change (slash :: join_with [slash] cs) with ([] ++ slash :: join_with [slash] cs).
  rewrite split_on_cons by apply not_elem_of_nil.
  assert (Forall (λ c, slash ∉ c) cs) as Hs by (eapply Forall_impl; [exact Hcs|]; by intros c (_ & _ & _ & ?)).
  rewrite split_join by done.
  rewrite clean_no_dotdot, app_nil_r, rev_involutive.
  2: { apply Forall_app. split; [|done]. constructor; [done|]. eapply Forall_impl; [exact Hcs|]. by intros c (_ & _ & ? & _). }
  unfold kept at 1. rewrite filter_app, filter_cons, decide_False by naive_solver. f_equal. by apply kept_id.
Qed.

(** The first component is a prefix, the others occur somewhere. *)
Lemma split_on_parts sep s : ∃ w ws, split_on sep s = w :: ws ∧ (∃ b, s = w ++ b) ∧ Forall (λ c, ∃ a b, s = a ++ c ++ b) ws.
Proof.
  induction s as [|x s (w & ws & E & (b & Hb) & Hws)]; cbn [split_on].
  - exists [], []. split_and!; [done|by exists []|done].
  - rewrite E. assert (Forall (λ c, ∃ a b, x :: s = a ++ c ++ b) ws) as Hws'.
    { eapply Forall_impl; [exact Hws|]. intros c (a & b' & ->). by exists (x :: a), b'. }
    case_decide as Ha.
    + exists [], (w :: ws). split; [done|]. split; [by exists (x :: s)|]. constructor; [|done]. exists [x], b. by rewrite Hb.
    + exists (x :: w), ws. split; [done|]. split; [|done]. exists b. by rewrite Hb.
Qed.

Lemma split_on_sub sep s c : c ∈ split_on sep s → ∃ a b, s = a ++ c ++ b.
Proof.
  destruct (split_on_parts sep s) as (w & ws & -> & (b & Hb) & Hws). intros [->|Hc]%elem_of_cons; [by exists [], b|].
  rewrite Forall_forall in Hws. by apply Hws.
Qed.

Lemma Contains_app a sub b : Contains (a ++ sub ++ b) sub = true.
Proof.
  unfold Contains. induction a as [|x a IH].
  - cbn [app]. assert (is_prefix sub (sub ++ b) = true) as Hp by apply is_prefix_app.
    destruct (sub ++ b); cbn [Index]; by rewrite Hp.
  - cbn [app Index]. destruct (is_prefix _ _); [done|]. by destruct (Index _ _).
Qed.

Lemma no_component sep s sub : Contains s sub = false → Forall (λ c, c ≠ sub) (split_on sep s).
Proof.
  intros Hc. apply Forall_forall. intros c Hs ->. destruct (split_on_sub _ _ _ Hs) as (a & b & ->). by rewrite Contains_app in Hc.
Qed.
