(* ===== verification/StateMonad.v ===== *)
(** * StateMonad: computations that pass a state and always return

    The monad of the components whose methods return errors as values and
    never panic (the file system, the S6 lifecycle, the document stores), with
    the rules to reason about every outcome of a computation.  It models no
    code of the repository. *)

From S2P Require Import Prelude.

Definition St (S A : Type) : Type := S → A * S.

#[export] Instance St_ret S : MRet (St S) := λ A a s, (a, s).
#[export] Instance St_bind S : MBind (St S) := λ A B f m s, let (a, s') := m s in f a s'.

(** Every outcome of [m] satisfies [Q]. *)
Definition st_wp {S A} (m : St S A) (Q : A → S → Prop) (s : S) : Prop := Q (m s).1 (m s).2.

Section st_wp.
Context {S : Type}.

Lemma st_wp_bind {A B} (m : St S A) (f : A → St S B) (Q : B → S → Prop) s :
  st_wp m (λ a s', st_wp (f a) Q s') s → st_wp (m ≫= f) Q s.
Proof. unfold st_wp, mbind, St_bind. by destruct (m s). Qed.

Lemma st_wp_ret {A} (a : A) (Q : A → S → Prop) s : Q a s → st_wp (mret a) Q s.
Proof. done. Qed.

Lemma st_wp_mono {A} (m : St S A) (Q Q' : A → S → Prop) s :
  st_wp m Q s → (∀ a s', Q a s' → Q' a s') → st_wp m Q' s.
Proof. unfold st_wp. auto. Qed.

Lemma st_wp_eq {A} (m : St S A) (Q : A → S → Prop) s a s' : m s = (a, s') → st_wp m Q s ↔ Q a s'.
Proof. unfold st_wp. by intros ->. Qed.
End st_wp.
