(* ===== verification/GoRegexp.v ===== *)
(** * GoRegexp: the regular expressions the control plane uses

    Go's [regexp] on bytes, for the constructs that occur: literals, greedy
    [+] of a character class with or without a capture group, alternatives
    and the end of a line.  Matching is leftmost-first with backtracking, by
    continuations; a group that takes no part in a match is empty, as in
    [FindStringSubmatch]. *)

From S2P Require Import Prelude GoBytes.
From Stdlib Require Import Ascii.

(** ** Character classes *)

Definition re_space (a : ascii) : bool :=
  existsb (λ n, bool_decide (a = ascii_of_nat n)) [9; 10; 12; 13; 32].
Definition re_digit (a : ascii) : bool := let n := nat_of_ascii a in (48 <=? n) && (n <=? 57).
Definition re_word (a : ascii) : bool :=
  let n := nat_of_ascii a in
  re_digit a || ((65 <=? n) && (n <=? 90)) || ((97 <=? n) && (n <=? 122)) || (n =? 95).
Definition re_dot (a : ascii) : bool := negb (bool_decide (a = nl)).
Definition re_not_space (a : ascii) : bool := negb (re_space a).

(** ** Expressions *)

Inductive rx :=
  | RLit (b : bytes)
  | RPlus (p : ascii → bool)
  | RCap (p : ascii → bool)          (* ([p]+), captured *)
  | REol                             (* $ in multi-line mode *)
  | RUnset                           (* the group of the other alternative *)
  | RSeq (r1 r2 : rx)
  | RAlt (r1 r2 : rx).

Fixpoint rseq (l : list rx) : rx :=
  match l with [] => RLit [] | [r] => r | r :: l => RSeq r (rseq l) end.

(** Greedy [p+] before the continuation [k], which also gets what was taken. *)
Fixpoint plus {A} (p : ascii → bool) (k : bytes → bytes → option A) (taken s : bytes) : option A :=
  match s with
  | [] => None
  | a :: s => if p a then
                match plus p k (taken ++ [a]) s with
                | Some r => Some r
                | None => k (taken ++ [a]) s
                end
              else None
  end.

Fixpoint rmatch {A} (r : rx) (caps : list bytes) (s : bytes) (k : list bytes → bytes → option A) : option A :=
  match r with
  | RLit b => if is_prefix b s then k caps (drop (length b) s) else None
  | RPlus p => plus p (λ _ s', k caps s') [] s
  | RCap p => plus p (λ t s', k (caps ++ [t]) s') [] s
  | REol => match s with [] => k caps s | a :: _ => if bool_decide (a = nl) then k caps s else None end
  | RUnset => k (caps ++ [[]]) s
  | RSeq r1 r2 => rmatch r1 caps s (λ caps s', rmatch r2 caps s' k)
  | RAlt r1 r2 => match rmatch r1 caps s k with Some x => Some x | None => rmatch r2 caps s k end
  end.

(** The groups of the leftmost match, and what follows it. *)
Fixpoint search (r : rx) (s : bytes) : option (list bytes * bytes) :=
  match rmatch r [] s (λ caps s', Some (caps, s')) with
  | Some x => Some x
  | None => match s with [] => None | _ :: s => search r s end
  end.

Definition FindStringSubmatch (r : rx) (s : bytes) : option (list bytes) := fst <$> search r s.

(** [FindAllStringSubmatch(s, -1)] of an expression that never matches the empty text. *)
Fixpoint find_all (fuel : nat) (r : rx) (s : bytes) : list (list bytes) :=
  match fuel with
  | O => []
  | S fuel => match search r s with
              | Some (caps, s') => caps :: find_all fuel r s'
              | None => []
              end
  end.

Definition FindAllStringSubmatch (r : rx) (s : bytes) : list (list bytes) := find_all (S (length s)) r s.

(** ** Matching a known text *)

(** The run [t] of [p]-characters is taken whole when the rest of the
    expression then matches. *)
Lemma plus_greedy {A} (p : ascii → bool) (k : bytes → bytes → option A) taken t s x :
  t ≠ [] → Forall (λ a, p a = true) t → (∀ a, head s = Some a → p a = false) →
  k (taken ++ t) s = Some x → plus p k taken (t ++ s) = Some x.
Proof.
  revert taken. induction t as [|a t IH]; intros taken Hne Hall Hs Hk; [done|].
  apply Forall_cons in Hall as [Ha Hall]. simpl. rewrite Ha.
  destruct t as [|b t].
  - simpl. rewrite Hk. destruct s as [|c s]; simpl; [done|]. by rewrite (Hs c).
  - rewrite IH; [done|done|done|done|]. by rewrite <- app_assoc.
Qed.

(** The same for a class inside a sequence. *)
Lemma rmatch_lit {A} b caps s (k : list bytes → bytes → option A) : rmatch (RLit b) caps (b ++ s) k = k caps s.
Proof. simpl. rewrite is_prefix_app. by rewrite drop_app_length. Qed.

(** An expression that starts with a literal fails where the literal is not. *)
Lemma search_skip1 r lit a s : is_prefix lit (a :: s) = false →
  search (RSeq (RLit lit) r) (a :: s) = search (RSeq (RLit lit) r) s.
Proof. intros H. cbn [search rmatch]. rewrite H. done. Qed.

Lemma search_here r lit s x : is_prefix lit s = true →
  rmatch r [] (drop (length lit) s) (λ caps s', Some (caps, s')) = Some x →
  search (RSeq (RLit lit) r) s = Some x.
Proof. intros H Hr. destruct s; cbn [search rmatch]; rewrite H; cbn [search rmatch]; by rewrite Hr. Qed.

(** ** Texts made of lines *)

Definition unlines (ls : list bytes) : bytes := concat ((λ l, l ++ [nl]) <$> ls).

Lemma unlines_cons l ls : unlines (l :: ls) = l ++ nl :: unlines ls.
Proof. unfold unlines. simpl. by rewrite <- app_assoc. Qed.

Lemma unlines_app ls ls' : unlines (ls ++ ls') = unlines ls ++ unlines ls'.
Proof. unfold unlines. by rewrite fmap_app, concat_app. Qed.

(** A prefix without line breaks of a text that goes on with one lies before it. *)
Lemma is_prefix_line p l s : nl ∉ p → is_prefix p (l ++ nl :: s) = is_prefix p l.
Proof.
  revert l. induction p as [|a p IH]; intros l Hp; [done|].
  destruct l as [|b l]; simpl.
  - rewrite bool_decide_false; [done|]. set_solver.
  - f_equal. apply IH. set_solver.
Qed.

Lemma Contains_cons a s sub : Contains (a :: s) sub = is_prefix sub (a :: s) || Contains s sub.
Proof. unfold Contains. simpl. destruct (is_prefix sub (a :: s)); [done|]. by destruct (Index s sub). Qed.

(** A search passes over a line that does not spell its first literal. *)
Lemma search_skip_line r lit l s : lit ≠ [] → nl ∉ lit → Contains l lit = false →
  search (RSeq (RLit lit) r) (l ++ nl :: s) = search (RSeq (RLit lit) r) s.
Proof.
  intros Hne Hnl. induction l as [|a l IH]; intros Hc.
  - apply search_skip1. destruct lit as [|b lit]; [done|]. simpl. rewrite bool_decide_false; [done|]. set_solver.
  - rewrite Contains_cons in Hc. apply orb_false_iff in Hc as [Hp Hc]. rewrite <- app_comm_cons, search_skip1; [by apply IH|].
    by rewrite app_comm_cons, is_prefix_line.
Qed.

Lemma search_skip_lines r lit ls s : lit ≠ [] → nl ∉ lit → Forall (λ l, Contains l lit = false) ls →
  search (RSeq (RLit lit) r) (unlines ls ++ s) = search (RSeq (RLit lit) r) s.
Proof.
  intros Hne Hnl. induction 1 as [|l ls Hl Hls IH]; [done|].
  rewrite unlines_cons, <- app_assoc. simpl. by rewrite search_skip_line.
Qed.

Lemma search_none r lit s : lit ≠ [] → Contains s lit = false → search (RSeq (RLit lit) r) s = None.
Proof.
  intros Hne. induction s as [|a s IH]; intros Hc.
  - destruct lit; [done|]. done.
  - rewrite Contains_cons in Hc. apply orb_false_iff in Hc as [Hp Hc]. rewrite search_skip1; [by apply IH|done].
Qed.

Lemma find_all_search fuel r s : (0 < fuel)%nat → find_all fuel r s =
  match search r s with Some (caps, s') => caps :: find_all (fuel - 1) r s' | None => [] end.
Proof. destruct fuel as [|fuel]; [lia|]. simpl. by rewrite Nat.sub_0_r. Qed.
