(* ===== verification/FileSystem.v ===== *)
(** * FileSystem: the file system service and its caches

    Models [pkg/service/filesystem/filesystem.go]: the interface [Service] the
    S6 service works against, and its default implementation with the caches
    of path existence, file contents and directory listings.  The operating
    system is a class of operations.  Each call runs its system call in a
    goroutine and waits for it or for the end of the context; in the second
    case the system call goes on in the background.  One call is one step. *)

From S2P Require Import Prelude StateMonad GoRuntime GoBytes.
From Stdlib Require Import Ascii.
Local Open Scope Z_scope.

(** The text of a path in an error message. *)
Definition str (b : bytes) : string := String.string_of_list_ascii b.

(** ** The interface *)

(** What [os.Stat] and [os.ReadDir] tell about a file. *)
Record FileInfo := mkFileInfo { ModTime : Time; FileSize : Z; InfoIsDir : bool }.
Record DirEntry := mkDirEntry { Name : bytes; IsDir : bool }.

(** [filesystem.Service].  The first argument of [ReadFileRange] bounds the
    number of chunks it reads; [None] means that they were not enough. *)
Class Service (S : Type) := {
  EnsureDirectory : Ctx → bytes → St S (option GoErr);
  ReadFile : Ctx → bytes → St S (bytes * option GoErr);
  ReadFileRange : nat → Ctx → bytes → Z → St S (option (bytes * Z * option GoErr));
  WriteFile : Ctx → bytes → bytes → Z → St S (option GoErr);
  PathExists : Ctx → bytes → St S (bool * option GoErr);
  FileExists : Ctx → bytes → St S (bool * option GoErr);
  Remove : Ctx → bytes → St S (option GoErr);
  RemoveAll : Ctx → bytes → St S (option GoErr);
  Stat : Ctx → bytes → St S (option FileInfo * option GoErr);
  Chmod : Ctx → bytes → Z → St S (option GoErr);
  ReadDir : Ctx → bytes → St S (list DirEntry * option GoErr);
  ExecuteCommand : Ctx → bytes → list bytes → St S (bytes * option GoErr);
  Chown : Ctx → bytes → bytes → bytes → St S (option GoErr);
  Glob : Ctx → bytes → St S (list bytes * option GoErr);
  Rename : Ctx → bytes → bytes → St S (option GoErr);
  Symlink : Ctx → bytes → bytes → St S (option GoErr);
}.

(** ** The operating system *)

(** The system calls and the commands of package [os] and [os/exec].
    [background op w] is the world at the moment a context ended, with [op]
    still under way.  [exit_code] is the exit status an [*exec.ExitError]
    carries. *)
Class OS (W : Type) `{World W} := {
  os_Stat : bytes → St W (FileInfo + GoErr);
  os_ReadFile : bytes → St W (bytes + GoErr);
  os_MkdirAll : bytes → Z → St W (option GoErr);
  os_WriteFile : bytes → bytes → Z → St W (option GoErr);
  os_Remove : bytes → St W (option GoErr);
  os_RemoveAll : bytes → St W (option GoErr);
  os_Chmod : bytes → Z → St W (option GoErr);
  os_ReadDir : bytes → St W (list DirEntry + GoErr);
  os_Rename : bytes → bytes → St W (option GoErr);
  os_Symlink : bytes → bytes → St W (option GoErr);
  os_Glob : bytes → St W (list bytes + GoErr);
  os_Run : bytes → list bytes → St W (option GoErr);
  os_CommandContext : Ctx → bytes → list bytes → St W (bytes * option GoErr);
  Handle : Type;
  os_Open : bytes → St W (Handle + GoErr);
  f_Stat : Handle → St W (FileInfo + GoErr);
  f_Seek : Handle → Z → St W (option GoErr);
  f_ReadFull : Handle → nat → St W (bytes * option GoErr);
  IsNotExist : GoErr → bool;
  exit_code : GoErr → option Z;
  background : (W → W) → W → W;
}.

Definition EOF : GoErr := ESentinel "io" "EOF".
Definition ErrUnexpectedEOF : GoErr := ESentinel "io" "unexpected EOF".

(** ** The caches *)

Record CachedPath := mkCachedPath { path_exists : bool; path_expiry : Time }.
Record CachedFileContent := mkCachedFile {
  content : bytes; modTime : Time; size : Z; lastCheck : Time }.
Record CachedDirEntry := mkCachedDir { entries : list DirEntry; dir_expiry : Time }.

#[export] Instance DirEntry_eq_dec : EqDecision DirEntry.
Proof. solve_decision. Defined.
#[export] Instance CachedFileContent_eq_dec : EqDecision CachedFileContent.
Proof. solve_decision. Defined.

Record DefaultService := mkDefaultService {
  pathCache : gmap bytes CachedPath;
  fileCache : gmap bytes CachedFileContent;
  dirCache : gmap bytes CachedDirEntry }.

Definition NewDefaultService : DefaultService := mkDefaultService ∅ ∅ ∅.

Definition set_pathCache (f : gmap bytes CachedPath → gmap bytes CachedPath) (s : DefaultService) : DefaultService :=
  mkDefaultService (f (pathCache s)) (fileCache s) (dirCache s).
Definition set_fileCache (f : gmap bytes CachedFileContent → gmap bytes CachedFileContent) (s : DefaultService) : DefaultService :=
  mkDefaultService (pathCache s) (f (fileCache s)) (dirCache s).
Definition set_dirCache (f : gmap bytes CachedDirEntry → gmap bytes CachedDirEntry) (s : DefaultService) : DefaultService :=
  mkDefaultService (pathCache s) (fileCache s) (f (dirCache s)).

Definition FilesystemCacheTTL : Z := Second.
Definition FilesystemCacheRecheckInterval : Z := Second.
Definition FilesystemCachePrefixes : list bytes := [lit "/run/service/"; lit "/data/"].

(** [shouldCachePath]. *)
Definition shouldCachePath (path : bytes) : bool :=
  existsb (λ prefix, is_prefix prefix (Clean path)) FilesystemCachePrefixes.

(** [pathWithSlash] of [invalidatePathCache], on a cleaned path. *)
Definition pathWithSlash (path : bytes) : bytes :=
  if bool_decide (last path = Some slash) then path else path ++ [slash].

Definition under (path key : bytes) : bool := is_prefix (pathWithSlash path) key.

Definition drop_under {A} (path : bytes) (m : gmap bytes A) : gmap bytes A :=
  filter (λ kv, under path kv.1 = false) m.

Definition invalidatePathCache (path0 : bytes) (s : DefaultService) : DefaultService :=
  let path := Clean path0 in
  mkDefaultService
    (drop_under path (delete path (pathCache s)))
    (filter (λ kv, kv.1 ≠ path ∧ under path kv.1 = false) (fileCache s))
    (drop_under path (delete (Dir path) (delete path (dirCache s)))).

(** ** The operations *)

Section operations.
Context {W : Type} `{OS W}.

(** The service with the world around it. *)
Definition FsState : Type := DefaultService * W.

Definition onW {A} (m : St W A) : St FsState A := λ s, let (a, w) := m s.2 in (a, (s.1, w)).
Definition on_caches (f : DefaultService → DefaultService) : St FsState unit := λ s, (tt, (f s.1, s.2)).
Definition caches {A} (f : DefaultService → A) : St FsState A := λ s, (f s.1, s).

Definition Now : St FsState Time := onW clock.

(** [checkContext]: the error of a context that is done. *)
Definition checkContext (ctx : Ctx) : St FsState (option GoErr) := onW (ctx_Err ctx).

(** Start [op] in a goroutine and [select] between its result and the end of
    the context; when both are there, the choice is random. *)
Definition await {A} (ctx : Ctx) (op : St W A) : St FsState (A + GoErr) :=
  onW (λ w,
    let (r, w1) := op w in
    let (e, w2) := ctx_Err ctx w1 in
    match e with
    | None => (inl r, w2)
    | Some err =>
        let (k, w3) := randw w2 in
        if Z.even k then (inl r, w3) else (inr err, background (λ w', (op w').2) w)
    end).

(** A call that checks its context first and reports failures of either kind. *)
Definition guarded (ctx : Ctx) (op : St W (option GoErr)) (what : string)
    (after : St FsState unit) (always : bool) : St FsState (option GoErr) :=
  r ← await ctx op;
  match r with
  | inl None => _ ← after; mret None
  | inl (Some err) => _ ← (if always then after else mret tt); mret (Some (EWrap what err))
  | inr err => mret (Some err)
  end.

(** The permissions 0755. *)
Definition mode_755 : Z := 493.

Definition failed_context : GoErr → GoErr := EWrap "failed to check context: ".
Definition nothing : St FsState unit := mret tt.

Definition fs_EnsureDirectory (ctx : Ctx) (path : bytes) : St FsState (option GoErr) :=
  e ← checkContext ctx;
  match e with
  | Some err => mret (Some (failed_context err))
  | None => guarded ctx (os_MkdirAll path mode_755) ("failed to create directory " +:+ str path +:+ ": ") nothing false
  end.

Definition fs_WriteFile (ctx : Ctx) (path data : bytes) (perm : Z) : St FsState (option GoErr) :=
  e ← checkContext ctx;
  match e with
  | Some err => mret (Some (failed_context err))
  | None => guarded ctx (os_WriteFile path data perm) ("failed to write file " +:+ str path +:+ ": ") nothing false
  end.

(** [Remove] hands the error of the system call on unchanged. *)
Definition fs_Remove (ctx : Ctx) (path : bytes) : St FsState (option GoErr) :=
  e ← checkContext ctx;
  match e with
  | Some err => mret (Some err)
  | None =>
      r ← await ctx (os_Remove path);
      match r with
      | inl err => _ ← on_caches (invalidatePathCache path); mret err
      | inr err => mret (Some err)
      end
  end.

Definition fs_RemoveAll (ctx : Ctx) (path : bytes) : St FsState (option GoErr) :=
  e ← checkContext ctx;
  match e with
  | Some err => mret (Some err)
  | None => guarded ctx (os_RemoveAll path) ("failed to remove directory " +:+ str path +:+ ": ")
              (on_caches (invalidatePathCache path)) true
  end.

Definition fs_Chmod (ctx : Ctx) (path : bytes) (mode : Z) : St FsState (option GoErr) :=
  e ← checkContext ctx;
  match e with
  | Some err => mret (Some (failed_context err))
  | None => guarded ctx (os_Chmod path mode) ("failed to change mode of file " +:+ str path +:+ ": ") nothing false
  end.

Definition fs_Chown (ctx : Ctx) (path user group : bytes) : St FsState (option GoErr) :=
  e ← checkContext ctx;
  match e with
  | Some err => mret (Some (failed_context err))
  | None => guarded ctx (os_Run (lit "chown") [user ++ lit ":" ++ group; path])
              ("failed to change owner of file " +:+ str path +:+ " to " +:+ str user +:+ ":" +:+ str group +:+ ": ") nothing false
  end.

Definition fs_Rename (ctx : Ctx) (oldPath newPath : bytes) : St FsState (option GoErr) :=
  e ← checkContext ctx;
  match e with
  | Some err => mret (Some (failed_context err))
  | None => guarded ctx (os_Rename oldPath newPath)
              ("failed to rename file " +:+ str oldPath +:+ " to " +:+ str newPath +:+ ": ")
              (_ ← on_caches (invalidatePathCache oldPath); on_caches (invalidatePathCache newPath)) false
  end.

Definition fs_Symlink (ctx : Ctx) (target linkPath : bytes) : St FsState (option GoErr) :=
  e ← checkContext ctx;
  match e with
  | Some err => mret (Some (failed_context err))
  | None => guarded ctx (os_Symlink target linkPath)
              ("failed to create symlink " +:+ str linkPath +:+ " -> " +:+ str target +:+ ": ")
              (on_caches (invalidatePathCache linkPath)) false
  end.

Definition fs_Stat (ctx : Ctx) (path : bytes) : St FsState (option FileInfo * option GoErr) :=
  e ← checkContext ctx;
  match e with
  | Some err => mret (None, Some (failed_context err))
  | None =>
      r ← await ctx (os_Stat path);
      match r with
      | inl (inl info) => mret (Some info, None)
      | inl (inr err) => mret (None, Some (EWrap "failed to get file info: " err))
      | inr err => mret (None, Some err)
      end
  end.

Definition fs_Glob (ctx : Ctx) (pattern : bytes) : St FsState (list bytes * option GoErr) :=
  e ← checkContext ctx;
  match e with
  | Some err => mret ([], Some (failed_context err))
  | None =>
      r ← await ctx (os_Glob pattern);
      match r with
      | inl (inl matches) => mret (matches, None)
      | inl (inr err) => mret ([], Some (EWrap ("failed to glob pattern " +:+ str pattern +:+ ": ") err))
      | inr err => mret ([], Some err)
      end
  end.

Definition fs_ExecuteCommand (ctx : Ctx) (name : bytes) (args : list bytes) : St FsState (bytes * option GoErr) :=
  e ← checkContext ctx;
  match e with
  | Some err => mret ([], Some (failed_context err))
  | None =>
      r ← onW (os_CommandContext ctx name args);
      match r with
      | (output, None) => mret (output, None)
      | (_, Some err) => mret ([], Some (EWrap ("failed to execute command " +:+ str name +:+ ": ") err))
      end
  end.

(** [os.Stat] follows symbolic links: a link to nothing does not exist. *)
Definition pathExistsUncached (ctx : Ctx) (path : bytes) : St FsState (bool * option GoErr) :=
  r ← await ctx (os_Stat path);
  match r with
  | inl (inl _) => mret (true, None)
  | inl (inr err) =>
      if IsNotExist err then mret (false, None)
      else mret (false, Some (EWrap ("failed to check if path exists (" +:+ str path +:+ "): ") err))
  | inr err => mret (false, Some err)
  end.

Definition fs_PathExists (ctx : Ctx) (path : bytes) : St FsState (bool * option GoErr) :=
  e ← checkContext ctx;
  match e with
  | Some err => mret (false, Some err)
  | None =>
      let cacheKey := Clean path in
      now ← Now;
      cached ← caches (λ c, pathCache c !! cacheKey);
      match (match cached with
             | Some c => if now <? path_expiry c then Some (path_exists c) else None
             | None => None
             end) with
      | Some b => mret (b, None)
      | None =>
          r ← pathExistsUncached ctx path;
          match r with
          | (true, None) =>
              t ← Now;
              _ ← on_caches (set_pathCache <[cacheKey := mkCachedPath true (t + FilesystemCacheTTL)]>);
              mret (true, None)
          | _ => mret r
          end
      end
  end.

Definition fs_FileExists : Ctx → bytes → St FsState (bool * option GoErr) := fs_PathExists.

Definition readDirUncached (ctx : Ctx) (path : bytes) : St FsState (list DirEntry * option GoErr) :=
  r ← await ctx (os_ReadDir path);
  match r with
  | inl (inl es) => mret (es, None)
  | inl (inr err) => mret ([], Some (EWrap ("failed to read directory " +:+ str path +:+ ": ") err))
  | inr err => mret ([], Some err)
  end.

Definition fs_ReadDir (ctx : Ctx) (path : bytes) : St FsState (list DirEntry * option GoErr) :=
  e ← checkContext ctx;
  match e with
  | Some err => mret ([], Some (failed_context err))
  | None =>
      let cacheKey := Clean path in
      now ← Now;
      cached ← caches (λ c, dirCache c !! cacheKey);
      match (match cached with
             | Some c => if now <? dir_expiry c then Some (entries c) else None
             | None => None
             end) with
      | Some es => mret (es, None)
      | None =>
          r ← readDirUncached ctx path;
          match r with
          | (es, None) =>
              t ← Now;
              _ ← on_caches (set_dirCache <[cacheKey := mkCachedDir es (t + FilesystemCacheTTL)]>);
              mret (es, None)
          | (_, Some err) => mret ([], Some err)
          end
      end
  end.

Definition readFileUncached (ctx : Ctx) (path : bytes) : St FsState (bytes * option GoErr) :=
  r ← await ctx (os_ReadFile path);
  match r with
  | inl (inl data) => mret (data, None)
  | inl (inr err) => mret ([], Some err)
  | inr err => mret ([], Some err)
  end.

(** The cached content, when the file still has the recorded time and size. *)
Definition cached_content (cacheKey : bytes) (cached : option CachedFileContent) (stat : FileInfo)
    : St FsState (option bytes) :=
  match cached with
  | None => mret None
  | Some c =>
      if (modTime c =? ModTime stat) && (size c =? FileSize stat) then
        now ← Now;
        if now - lastCheck c <? FilesystemCacheRecheckInterval then mret (Some (content c))
        else
          t ← Now;
          _ ← on_caches (set_fileCache <[cacheKey := mkCachedFile (content c) (modTime c) (size c) t]>);
          mret (Some (content c))
      else mret None
  end.

Definition fs_ReadFile (ctx : Ctx) (path : bytes) : St FsState (bytes * option GoErr) :=
  e ← checkContext ctx;
  match e with
  | Some err => mret ([], Some (failed_context err))
  | None =>
      let cacheKey := Clean path in
      if shouldCachePath cacheKey then
        cached ← caches (λ c, fileCache c !! cacheKey);
        stat ← onW (os_Stat path);
        match stat with
        | inr err =>
            _ ← on_caches (set_fileCache (delete cacheKey));
            mret ([], Some err)
        | inl stat =>
            hit ← cached_content cacheKey cached stat;
            match hit with
            | Some data => mret (data, None)
            | None =>
                r ← readFileUncached ctx path;
                match r with
                | (data, None) =>
                    t ← Now;
                    _ ← on_caches (set_fileCache <[cacheKey := mkCachedFile data (ModTime stat) (FileSize stat) t]>);
                    mret (data, None)
                | (_, Some err) => mret ([], Some err)
                end
            end
        end
      else readFileUncached ctx path
  end.

(** The loop of [ReadFileRange]: whole chunks while enough time is left.
    [fuel] bounds the number of chunks. *)
Fixpoint read_chunks (fuel : nat) (chunk : nat) (f : Handle) (deadline timeBuffer : Z) (buf : bytes)
    : St W (option (bytes + GoErr)) :=
  match fuel with
  | 0%nat => mret None
  | S fuel =>
      t ← clock;
      if deadline - t <? timeBuffer then mret (Some (inl buf))
      else
        r ← f_ReadFull f chunk;
        match r with
        | (data, None) => read_chunks fuel chunk f deadline timeBuffer (buf ++ data)
        | (data, Some err) =>
            if IsErr err EOF || IsErr err ErrUnexpectedEOF then mret (Some (inl (buf ++ data)))
            else mret (Some (inr err))
        end
  end.

Definition S6FileReadChunkSize : nat := Z.to_nat 1048576.

(** What the goroutine of [ReadFileRange] sends: the data and the next offset. *)
Definition read_range (fuel chunk : nat) (ctx : Ctx) (path : bytes) (from : Z)
    : St W (option (bytes * Z * option GoErr)) :=
  f ← os_Open path;
  match f with
  | inr err => mret (Some ([], 0, Some err))
  | inl f =>
      fi ← f_Stat f;
      match fi with
      | inr err => mret (Some ([], 0, Some err))
      | inl fi =>
          if FileSize fi <=? from then mret (Some ([], FileSize fi, None))
          else
            e ← f_Seek f from;
            match e with
            | Some err => mret (Some ([], 0, Some err))
            | None =>
                match ctx_Deadline ctx with
                | None => mret (Some ([], 0, Some (ENew "context deadline not set")))
                | Some deadline =>
                    t ← clock;
                    r ← read_chunks fuel chunk f deadline (Z.quot (deadline - t) 2) [];
                    match r with
                    | None => mret None
                    | Some (inl buf) => mret (Some (buf, from + Z.of_nat (length buf), None))
                    | Some (inr err) => mret (Some ([], 0, Some err))
                    end
                end
            end
      end
  end.

Definition fs_ReadFileRange (fuel : nat) (ctx : Ctx) (path : bytes) (from : Z)
    : St FsState (option (bytes * Z * option GoErr)) :=
  e ← checkContext ctx;
  match e with
  | Some err => mret (Some ([], 0, Some err))
  | None =>
      r ← await ctx (read_range fuel S6FileReadChunkSize ctx path from);
      match r with
      | inl res => mret res
      | inr err => mret (Some ([], 0, Some err))
      end
  end.
End operations.
Arguments FsState W : clear implicits.

#[export] Instance default_filesystem `{OS W} : Service (FsState W) := {
  EnsureDirectory := fs_EnsureDirectory;
  ReadFile := fs_ReadFile;
  ReadFileRange := fs_ReadFileRange;
  WriteFile := fs_WriteFile;
  PathExists := fs_PathExists;
  FileExists := fs_FileExists;
  Remove := fs_Remove;
  RemoveAll := fs_RemoveAll;
  Stat := fs_Stat;
  Chmod := fs_Chmod;
  ReadDir := fs_ReadDir;
  ExecuteCommand := fs_ExecuteCommand;
  Chown := fs_Chown;
  Glob := fs_Glob;
  Rename := fs_Rename;
  Symlink := fs_Symlink;
}.

#[export] Instance fs_world `{World W} : World (FsState W) := {
  clock := onW clock;
  randw := onW randw;
}.

(** ** What the operating system promises *)

(** [stat_at w p] is what [stat p] would say, [content_at w p] the bytes
    behind [p].  [handle w f c i] says that [f] is a file open at position [i]
    whose content so far is [c]; another process may append to it. *)
Class OSLaws (W : Type) `{OS W} := {
  os_now : W → Z;
  stat_at : W → bytes → option FileInfo;
  content_at : W → bytes → option bytes;
  handle : W → Handle → bytes → nat → Prop;

  clock_time w t w' : clock w = (t, w') → os_now w <= t < os_now w';
  randw_time w : os_now w <= os_now (randw w).2;
  clock_stat w p : stat_at (clock w).2 p = stat_at w p;
  randw_stat w p : stat_at (randw w).2 p = stat_at w p;
  clock_content w p : content_at (clock w).2 p = content_at w p;
  randw_content w p : content_at (randw w).2 p = content_at w p;

  Stat_time p w : os_now w <= os_now (os_Stat p w).2;
  Stat_same p q w : stat_at (os_Stat p w).2 q = stat_at w q;
  Stat_content p q w : content_at (os_Stat p w).2 q = content_at w q;
  Stat_info p w fi w' : os_Stat p w = (inl fi, w') → stat_at w p = Some fi;
  Stat_absent p w e w' : os_Stat p w = (inr e, w') → IsNotExist e = true → stat_at w p = None;
  ReadFile_content p w data w' : os_ReadFile p w = (inl data, w') → content_at w p = Some data;
  ReadDir_same p q w : stat_at (os_ReadDir p w).2 q = stat_at w q;

  RemoveAll_gone p w w' : os_RemoveAll p w = (None, w') → stat_at w' p = None;
  RemoveAll_shrinks p q w : stat_at w q = None → stat_at (os_RemoveAll p w).2 q = None;
  WriteFile_there p data perm w w' : os_WriteFile p data perm w = (None, w') → is_Some (stat_at w' p);
  WriteFile_grows p data perm q w : is_Some (stat_at w q) → is_Some (stat_at (os_WriteFile p data perm w).2 q);
  MkdirAll_there p perm w w' : os_MkdirAll p perm w = (None, w') → is_Some (stat_at w' p);
  MkdirAll_grows p perm q w : is_Some (stat_at w q) → is_Some (stat_at (os_MkdirAll p perm w).2 q);
  Symlink_there t l w w' : os_Symlink t l w = (None, w') → is_Some (stat_at w t) → is_Some (stat_at w' l);
  Symlink_grows t l q w : is_Some (stat_at w q) → is_Some (stat_at (os_Symlink t l w).2 q);
  svscanctl_grows ctx args q w : is_Some (stat_at w q) →
    is_Some (stat_at (os_CommandContext ctx (lit "s6-svscanctl") args w).2 q);
  background_shrinks op q w : (stat_at w q = None → stat_at (op w) q = None) →
    stat_at w q = None → stat_at (background op w) q = None;
  background_grows op q w : (is_Some (stat_at w q) → is_Some (stat_at (op w) q)) →
    is_Some (stat_at w q) → is_Some (stat_at (background op w) q);

  Open_handle p w f w' : os_Open p w = (inl f, w') → ∃ c, content_at w p = Some c ∧ handle w' f c 0;
  handle_clock w f c i : handle w f c i → handle (clock w).2 f c i;
  Stat_handle w f c i fi w' : handle w f c i → f_Stat f w = (inl fi, w') →
    ∃ c', c `prefix_of` c' ∧ FileSize fi = Z.of_nat (length c') ∧ handle w' f c' i;
  Seek_handle w f c i off w' : handle w f c i → f_Seek f off w = (None, w') → handle w' f c (Z.to_nat off);
  ReadFull_handle w f c i n data w' : handle w f c i → f_ReadFull f n w = ((data, None), w') →
    ∃ c', c `prefix_of` c' ∧ data = take n (drop i c') ∧ length data = n ∧ handle w' f c' (i + n)%nat;
  ReadFull_end w f c i n data e w' : handle w f c i → f_ReadFull f n w = ((data, Some e), w') →
    IsErr e EOF || IsErr e ErrUnexpectedEOF = true →
    ∃ c', c `prefix_of` c' ∧ data = drop i c';
  Open_time p w : os_now w <= os_now (os_Open p w).2;
  handle_Stat_time f w : os_now w <= os_now (f_Stat f w).2;
  Seek_time f off w : os_now w <= os_now (f_Seek f off w).2;
  ReadFull_time f n w : os_now w <= os_now (f_ReadFull f n w).2;
}.

(** ** What the service promises its clients *)

(** The calls, to speak of any of them. *)
Inductive Call : Type :=
  | CEnsureDirectory (ctx : Ctx) (p : bytes)
  | CReadFile (ctx : Ctx) (p : bytes)
  | CWriteFile (ctx : Ctx) (p data : bytes) (perm : Z)
  | CPathExists (ctx : Ctx) (p : bytes)
  | CFileExists (ctx : Ctx) (p : bytes)
  | CRemove (ctx : Ctx) (p : bytes)
  | CRemoveAll (ctx : Ctx) (p : bytes)
  | CReadDir (ctx : Ctx) (p : bytes)
  | CExecuteCommand (ctx : Ctx) (name : bytes) (args : list bytes)
  | CRename (ctx : Ctx) (p q : bytes)
  | CSymlink (ctx : Ctx) (t l : bytes).

Definition perform {S : Type} `{Service S} (c : Call) (s : S) : S :=
  match c with
  | CEnsureDirectory ctx p => (EnsureDirectory ctx p s).2
  | CReadFile ctx p => (ReadFile ctx p s).2
  | CWriteFile ctx p data perm => (WriteFile ctx p data perm s).2
  | CPathExists ctx p => (PathExists ctx p s).2
  | CFileExists ctx p => (FileExists ctx p s).2
  | CRemove ctx p => (Remove ctx p s).2
  | CRemoveAll ctx p => (RemoveAll ctx p s).2
  | CReadDir ctx p => (ReadDir ctx p s).2
  | CExecuteCommand ctx name args => (ExecuteCommand ctx name args s).2
  | CRename ctx p q => (Rename ctx p q s).2
  | CSymlink ctx t l => (Symlink ctx t l s).2
  end.

(** [present s p]: the path leads to something.  [sane] holds of the states
    the service can be in. *)
Class ServiceLaws (S : Type) `{World S} `{Service S} := {
  present : S → bytes → Prop;
  sane : S → Prop;
  perform_sane c s : sane s → sane (perform c s);
  svc_clock_sane s : sane s → sane (clock s).2;
  svc_clock_same q s : present (clock s).2 q ↔ present s q;
  PathExists_no ctx p s s' : sane s → PathExists ctx p s = ((false, None), s') → ¬ present s' p;
  PathExists_same ctx p q s : present (PathExists ctx p s).2 q ↔ present s q;
  FileExists_no ctx p s s' : sane s → FileExists ctx p s = ((false, None), s') → ¬ present s' p;
  FileExists_same ctx p q s : present (FileExists ctx p s).2 q ↔ present s q;
  ReadDir_adds ctx p q s : present (ReadDir ctx p s).2 q → present s q;
  svc_RemoveAll_gone ctx p s s' : RemoveAll ctx p s = (None, s') → ¬ present s' p;
  svc_RemoveAll_adds ctx p q s : present (RemoveAll ctx p s).2 q → present s q;
  svc_WriteFile_there ctx p data perm s s' : WriteFile ctx p data perm s = (None, s') → present s' p;
  svc_WriteFile_grows ctx p data perm q s : present s q → present (WriteFile ctx p data perm s).2 q;
  EnsureDirectory_there ctx p s s' : EnsureDirectory ctx p s = (None, s') → present s' p;
  EnsureDirectory_grows ctx p q s : present s q → present (EnsureDirectory ctx p s).2 q;
  svc_Symlink_there ctx t l s s' : Symlink ctx t l s = (None, s') → present s t → present s' l;
  svc_Symlink_grows ctx t l q s : present s q → present (Symlink ctx t l s).2 q;
  svc_svscanctl_grows ctx args q s : present s q → present (ExecuteCommand ctx (lit "s6-svscanctl") args s).2 q;
}.

(** ** The default service keeps the promise *)

Section default_laws.
Context {W : Type} `{OSLaws W}.

(** Facts about the world that no reading of the clock changes, and that an
    operation under way preserves if it preserves them when it is done. *)
Definition settled (P : W → Prop) : Prop :=
  (∀ w, P w → P (clock w).2) ∧ (∀ w, P w → P (randw w).2).
Definition stable (P : W → Prop) : Prop :=
  settled P ∧ (∀ op w, (P w → P (op w)) → P w → P (background op w)).

Definition absent_at (q : bytes) (w : W) : Prop := stat_at w q = None.
Definition present_at (q : bytes) (w : W) : Prop := is_Some (stat_at w q).

Lemma stable_absent q : stable (absent_at q).
Proof.
  unfold stable, settled, absent_at. split_and!; intros.
  - by rewrite clock_stat.
  - by rewrite randw_stat.
  - by apply background_shrinks.
Qed.

Lemma stable_present q : stable (present_at q).
Proof.
  unfold stable, settled, present_at. split_and!; intros.
  - by rewrite clock_stat.
  - by rewrite randw_stat.
  - by apply background_grows.
Qed.

(** [m] preserves [P], whatever it returns. *)
Definition keeps {A} (P : W → Prop) (m : St (FsState W) A) : Prop := ∀ s, P s.2 → P (m s).2.2.

Lemma wkeeps_ret {A} P (a : A) : keeps P (mret a).
Proof. by intros s. Qed.

Lemma wkeeps_bind {A B} P (m : St (FsState W) A) (f : A → St (FsState W) B) :
  keeps P m → (∀ a, keeps P (f a)) → keeps P (m ≫= f).
Proof.
  intros Hm Hf s HP. unfold mbind, St_bind. specialize (Hm s HP). destruct (m s). by apply Hf.
Qed.

Lemma keeps_onW {A} (P : W → Prop) (m : St W A) : (∀ w, P w → P (m w).2) → keeps P (onW m).
Proof. intros Hm [c w] HP. unfold onW. simpl in *. specialize (Hm w HP). by destruct (m w). Qed.

Lemma keeps_on_caches P f : keeps P (on_caches f).
Proof. by intros s. Qed.

Lemma keeps_caches {A} P (f : DefaultService → A) : keeps P (caches f).
Proof. by intros s. Qed.

Lemma ctx_Err_keeps (P : W → Prop) ctx w : settled P → P w → P (ctx_Err ctx w).2.
Proof. intros (Hc & _) HP. unfold ctx_Err. specialize (Hc w HP). by destruct (clock w). Qed.

Lemma keeps_Now P : stable P → keeps P Now.
Proof. intros ((Hc & _) & _). by apply keeps_onW. Qed.

Lemma keeps_checkContext P ctx : stable P → keeps P (checkContext ctx).
Proof. intros HP. apply keeps_onW. intros. apply ctx_Err_keeps; [apply HP|done]. Qed.

Lemma keeps_await {A} P ctx (op : St W A) : stable P → (∀ w, P w → P (op w).2) → keeps P (await ctx op).
Proof.
  intros HS Hop. apply keeps_onW. intros w HP.
  pose proof (Hop w HP) as Hw1. destruct (op w) as [r w1] eqn:E.
  pose proof (ctx_Err_keeps P ctx w1 (proj1 HS) Hw1) as Hw2. destruct (ctx_Err ctx w1) as [[err|] w2]; [|done].
  destruct HS as ((_ & Hr) & Hb). cbn [snd] in *. specialize (Hr _ Hw2). destruct (randw w2) as [k w3].
  destruct (Z.even k); [done|]. apply Hb; [|done]. intros _. by rewrite E.
Qed.

Lemma keeps_guarded P ctx op what after always : stable P → (∀ w, P w → P (op w).2) → keeps P after →
  keeps P (guarded ctx op what after always).
Proof.
  intros HS Hop Ha. apply wkeeps_bind; [by apply keeps_await|].
  intros [[err|]|err]; [|by apply wkeeps_bind; intros; auto using wkeeps_ret|apply wkeeps_ret].
  destruct always; apply wkeeps_bind; intros; auto using wkeeps_ret.
Qed.
End default_laws.

(** Work through a service call, leaving what the system calls must preserve. *)
Ltac keeps_tac :=
  repeat first
    [ apply wkeeps_ret | apply keeps_on_caches | apply keeps_caches
    | apply keeps_Now; assumption | apply keeps_checkContext; assumption
    | apply keeps_await; [assumption|] | apply keeps_guarded; [assumption| |]
    | apply wkeeps_bind; [|intro] | assumption
    | match goal with |- keeps _ (match ?x with _ => _ end) => destruct x end ].

(** The path cache only ever holds positive answers. *)
Definition positive (c : DefaultService) : Prop :=
  ∀ key e, pathCache c !! key = Some e → path_exists e = true.

Section default_service_laws.
Context {W : Type} `{OSLaws W}.

Lemma PathExists_keeps P ctx p : stable P → (∀ w, P w → P (os_Stat p w).2) → keeps P (fs_PathExists ctx p).
Proof. intros HS Hop. unfold fs_PathExists, pathExistsUncached. keeps_tac. Qed.

Lemma ReadDir_keeps P ctx p : stable P → (∀ w, P w → P (os_ReadDir p w).2) → keeps P (fs_ReadDir ctx p).
Proof. intros HS Hop. unfold fs_ReadDir, readDirUncached. keeps_tac. Qed.

Lemma RemoveAll_keeps P ctx p : stable P → (∀ w, P w → P (os_RemoveAll p w).2) → keeps P (fs_RemoveAll ctx p).
Proof. intros HS Hop. unfold fs_RemoveAll. keeps_tac. Qed.

Lemma WriteFile_keeps P ctx p d m : stable P → (∀ w, P w → P (os_WriteFile p d m w).2) → keeps P (fs_WriteFile ctx p d m).
Proof. intros HS Hop. unfold fs_WriteFile, nothing. keeps_tac. Qed.

Lemma EnsureDirectory_keeps P ctx p : stable P → (∀ w, P w → P (os_MkdirAll p mode_755 w).2) →
  keeps P (fs_EnsureDirectory ctx p).
Proof. intros HS Hop. unfold fs_EnsureDirectory, nothing. keeps_tac. Qed.

Lemma Symlink_keeps P ctx t l : stable P → (∀ w, P w → P (os_Symlink t l w).2) → keeps P (fs_Symlink ctx t l).
Proof. intros HS Hop. unfold fs_Symlink. keeps_tac. Qed.

Lemma ExecuteCommand_keeps P ctx n args : stable P → (∀ w, P w → P (os_CommandContext ctx n args w).2) →
  keeps P (fs_ExecuteCommand ctx n args).
Proof. intros HS Hop. unfold fs_ExecuteCommand. keeps_tac. by apply keeps_onW. Qed.

(** A system call whose result arrived: its world, as far as [P] can tell. *)
Lemma await_result {A} (P : W → Prop) ctx (op : St W A) s r s' : settled P →
  await ctx op s = (inl r, s') → s'.1 = s.1 ∧ (op s.2).1 = r ∧ (P (op s.2).2 → P s'.2).
Proof.
  intros HS. unfold await, onW. destruct (op s.2) as [r1 w1]. cbn [fst snd].
  pose proof (ctx_Err_keeps P ctx w1 HS) as Hk. destruct (ctx_Err ctx w1) as [[err|] w2].
  - destruct HS as (_ & Hr). specialize (Hr w2). destruct (randw w2) as [k w3]. cbn [snd] in *.
    destruct (Z.even k); [|done]. intros [= <- <-]. cbn. auto.
  - intros [= <- <-]. cbn. auto.
Qed.

Lemma guarded_ok (P : W → Prop) ctx op what after always s s' : settled P → keeps P after →
  guarded ctx op what after always s = (None, s') →
  ∃ w1, op s.2 = (None, w1) ∧ (P w1 → P s'.2).
Proof.
  intros HS Ha. unfold guarded, mbind, St_bind. destruct (await ctx op s) as [r s1] eqn:E.
  destruct r as [[err|]|err]; [by destruct always, (after s1)| |done].
  destruct (await_result P _ _ _ _ _ HS E) as (_ & Hop & Hk). destruct (op s.2) as [r w1]. simpl in *. subst r.
  specialize (Ha s1). destruct (after s1) as [[] s2]. intros [= <-]. exists w1. auto.
Qed.

(** The common entry of the calls: the context is alive, in a world that is as
    good as the one before. *)
Lemma checkContext_then {A} (P : W → Prop) ctx (err : GoErr → A) (m : St (FsState W) A) s a s' : settled P →
  (e ← checkContext ctx; match e with Some e => mret (err e) | None => m end) s = (a, s') →
  (∀ e, err e ≠ a) → ∃ s1, s1.1 = s.1 ∧ (P s.2 → P s1.2) ∧ m s1 = (a, s').
Proof.
  intros HS. unfold mbind, St_bind, checkContext, onW.
  pose proof (ctx_Err_keeps P ctx s.2 HS) as Hk. destruct (ctx_Err ctx s.2) as [[e|] w1].
  - intros [= Ha _] Hne. by destruct (Hne e).
  - intros E _. exists (s.1, w1). auto.
Qed.

Lemma fs_RemoveAll_gone ctx p s s' : fs_RemoveAll ctx p s = (None, s') → stat_at s'.2 p = None.
Proof.
  intros E. apply (checkContext_then (λ _, True)) in E as (s1 & _ & _ & E); [|done|done].
  apply (guarded_ok (absent_at p)) in E as (w1 & Hop & Hk); [|apply stable_absent|apply keeps_on_caches].
  by apply Hk, (RemoveAll_gone _ _ _ Hop).
Qed.

Lemma fs_WriteFile_there ctx p d m s s' : fs_WriteFile ctx p d m s = (None, s') → is_Some (stat_at s'.2 p).
Proof.
  intros E. apply (checkContext_then (λ _, True)) in E as (s1 & _ & _ & E); [|done|done].
  apply (guarded_ok (present_at p)) in E as (w1 & Hop & Hk); [|apply stable_present|apply wkeeps_ret].
  by apply Hk, (WriteFile_there _ _ _ _ _ Hop).
Qed.

Lemma fs_EnsureDirectory_there ctx p s s' : fs_EnsureDirectory ctx p s = (None, s') → is_Some (stat_at s'.2 p).
Proof.
  intros E. apply (checkContext_then (λ _, True)) in E as (s1 & _ & _ & E); [|done|done].
  apply (guarded_ok (present_at p)) in E as (w1 & Hop & Hk); [|apply stable_present|apply wkeeps_ret].
  by apply Hk, (MkdirAll_there _ _ _ _ Hop).
Qed.

Lemma fs_Symlink_there ctx t l s s' : fs_Symlink ctx t l s = (None, s') → is_Some (stat_at s.2 t) →
  is_Some (stat_at s'.2 l).
Proof.
  intros E Ht. apply (checkContext_then (present_at t)) in E as (s1 & _ & Hk1 & E); [|apply stable_present|done].
  apply (guarded_ok (present_at l)) in E as (w1 & Hop & Hk); [|apply stable_present|apply keeps_on_caches].
  by apply Hk, (Symlink_there _ _ _ _ Hop), Hk1.
Qed.

(** A "no" without an error comes from the operating system. *)
Lemma fs_PathExists_no ctx p s s' : fs_PathExists ctx p s = ((false, None), s') →
  positive s.1 → stat_at s'.2 p = None.
Proof.
  intros E Hpos. apply (checkContext_then (λ _, True)) in E as (s1 & Hc & _ & E); [|done|done].
  unfold mbind, St_bind, Now, onW, caches in E. destruct (clock s1.2) as [t w2]. cbn [fst snd] in E.
  destruct (match pathCache s1.1 !! Clean p with Some c => _ | None => None end) as [b|] eqn:Eb.
  { injection E as -> _. destruct (pathCache s1.1 !! Clean p) as [c|] eqn:Ec; [|done].
    rewrite Hc in Ec. apply Hpos in Ec. destruct (t <? path_expiry c); congruence. }
  unfold pathExistsUncached, mbind, St_bind in E.
  destruct (await ctx (os_Stat p) (s1.1, w2)) as [r s3] eqn:Ea.
  destruct r as [[fi|err]|err]; cbn in E.
  - unfold on_caches in E. by destruct (clock s3.2).
  - destruct (IsNotExist err) eqn:Ee; cbn in E; [|done]. injection E as <-.
    apply (await_result (absent_at p)) in Ea as (_ & Hop & Hk); [|apply stable_absent]. cbn [snd] in *.
    apply Hk. unfold absent_at. pose proof (Stat_same p p w2) as Hs.
    destruct (os_Stat p w2) as [r w3] eqn:Es. cbn in Hop, Hs. subst r. cbn [snd].
    rewrite Hs. by apply (Stat_absent _ _ _ _ Es).
  - done.
Qed.
End default_service_laws.

(** ** The caches under any sequence of calls *)

Section default_caches.
Context {W : Type} `{OSLaws W}.

(** [m] preserves [P] of the caches. *)
Definition ckeeps {A} (P : DefaultService → Prop) (m : St (FsState W) A) : Prop := ∀ s, P s.1 → P (m s).2.1.

Lemma ckeeps_ret {A} P (a : A) : ckeeps P (mret a).
Proof. by intros s. Qed.

Lemma ckeeps_bind {A B} P (m : St (FsState W) A) (f : A → St (FsState W) B) :
  ckeeps P m → (∀ a, ckeeps P (f a)) → ckeeps P (m ≫= f).
Proof.
  intros Hm Hf s HP. unfold mbind, St_bind. specialize (Hm s HP). destruct (m s). by apply Hf.
Qed.

Lemma ckeeps_onW {A} P (m : St W A) : ckeeps P (onW m).
Proof. intros [c w] HP. unfold onW. by destruct (m _). Qed.

Lemma ckeeps_on_caches (P : DefaultService → Prop) f : (∀ c, P c → P (f c)) → ckeeps P (on_caches f).
Proof. intros Hf [c w]. apply Hf. Qed.

Lemma ckeeps_caches {A} P (f : DefaultService → A) : ckeeps P (caches f).
Proof. by intros s. Qed.

Lemma positive_insert c key e : positive c → path_exists e = true → positive (set_pathCache <[key := e]> c).
Proof. intros Hc He key' e'. simpl. intros [[_ <-]|[_ ?]]%lookup_insert_Some; [done|by eapply Hc]. Qed.

Lemma positive_invalidate p c : positive c → positive (invalidatePathCache p c).
Proof.
  intros Hc key e. simpl. unfold drop_under. rewrite map_lookup_filter_Some.
  intros [[_ ?]%lookup_delete_Some _]. by eapply Hc.
Qed.
(** The path cache [c] holds nothing that [c0] does not hold. *)
Definition no_new_paths (c0 c : DefaultService) : Prop := pathCache c ⊆ pathCache c0.

Lemma no_new_invalidate c0 p c : no_new_paths c0 c → no_new_paths c0 (invalidatePathCache p c).
Proof.
  unfold no_new_paths. simpl. intros Hc. etrans; [|exact Hc].
  unfold drop_under. etrans; [apply map_filter_subseteq|apply delete_subseteq].
Qed.

End default_caches.

Ltac ckeeps_tac :=
  repeat first
    [ apply ckeeps_ret | apply ckeeps_caches | apply ckeeps_onW
    | apply ckeeps_on_caches; intros ? ?; first [assumption|by apply positive_insert|solve [auto using positive_invalidate, no_new_invalidate]]
    | apply ckeeps_bind; [|intro]
    | match goal with |- ckeeps _ (match ?x with _ => _ end) => destruct x end ].

Section default_filesystem_laws.
Context {W : Type} `{OSLaws W}.

Lemma perform_positive (c : Call) (s : FsState W) : positive s.1 → positive (perform c s).1.
Proof.
  revert s. assert (∀ ctx p, ckeeps positive (fs_PathExists ctx p)) as Hp.
  { intros. unfold fs_PathExists, pathExistsUncached, checkContext, Now, await. ckeeps_tac. }
  destruct c; cbn [perform default_filesystem EnsureDirectory ReadFile WriteFile PathExists FileExists Remove
    RemoveAll ReadDir ExecuteCommand Rename Symlink];
    [unfold fs_EnsureDirectory|unfold fs_ReadFile, readFileUncached, cached_content|unfold fs_WriteFile|by apply Hp|by apply Hp
    |unfold fs_Remove|unfold fs_RemoveAll|unfold fs_ReadDir, readDirUncached|unfold fs_ExecuteCommand
    |unfold fs_Rename|unfold fs_Symlink];
    unfold guarded, checkContext, Now, await, nothing;
    match goal with |- ∀ s, positive s.1 → positive (?m s).2.1 => change (ckeeps positive m) end; ckeeps_tac.
Qed.

Lemma absent_or_present q (w w' : W) :
  (absent_at q w → absent_at q w') → is_Some (stat_at w' q) → is_Some (stat_at w q).
Proof. unfold absent_at. intros Ha Hp. destruct (stat_at w q); [done|]. by rewrite Ha in Hp. Qed.

Lemma fs_PathExists_same ctx p q (s : FsState W) :
  is_Some (stat_at (fs_PathExists ctx p s).2.2 q) ↔ is_Some (stat_at s.2 q).
Proof.
  split.
  - apply absent_or_present, (PathExists_keeps (absent_at q)); [apply stable_absent|].
    intros w Hw. unfold absent_at. by rewrite Stat_same.
  - apply (PathExists_keeps (present_at q)); [apply stable_present|].
    intros w Hw. unfold present_at. by rewrite Stat_same.
Qed.

#[local] Obligation Tactic := idtac.

#[export] Program Instance default_service_laws : ServiceLaws (FsState W) := {|
  present s p := is_Some (stat_at s.2 p);
  sane s := positive s.1;
|}.
Next Obligation. intros c s. apply perform_positive. Qed.
Next Obligation. intros s Hs. cbn [clock fs_world]. unfold onW. by destruct (clock s.2). Qed.
Next Obligation.
  intros q s. cbn [clock fs_world]. unfold onW. pose proof (clock_stat s.2 q) as Hq.
  destruct (clock s.2) as [t w]. cbn in *. by rewrite Hq.
Qed.
Next Obligation. intros ctx p s s' Hs E. cbn beta. rewrite (fs_PathExists_no _ _ _ _ E Hs). by intros []. Qed.
Next Obligation. intros ctx p q s. apply fs_PathExists_same. Qed.
Next Obligation. intros ctx p s s' Hs E. cbn beta. rewrite (fs_PathExists_no _ _ _ _ E Hs). by intros []. Qed.
Next Obligation. intros ctx p q s. apply fs_PathExists_same. Qed.
Next Obligation.
  intros ctx p q s. apply absent_or_present, (ReadDir_keeps (absent_at q)); [apply stable_absent|].
  intros w Hw. unfold absent_at. by rewrite ReadDir_same.
Qed.
Next Obligation. intros ctx p s s' E. cbn beta. rewrite (fs_RemoveAll_gone _ _ _ _ E). by intros []. Qed.
Next Obligation.
  intros ctx p q s. apply absent_or_present, (RemoveAll_keeps (absent_at q)); [apply stable_absent|].
  intros w. apply RemoveAll_shrinks.
Qed.
Next Obligation. intros ctx p d m s s' E. exact (fs_WriteFile_there _ _ _ _ _ _ E). Qed.
Next Obligation.
  intros ctx p d m q s. apply (WriteFile_keeps (present_at q)); [apply stable_present|]. intros w. apply WriteFile_grows.
Qed.
Next Obligation. intros ctx p s s' E. exact (fs_EnsureDirectory_there _ _ _ _ E). Qed.
Next Obligation.
  intros ctx p q s. apply (EnsureDirectory_keeps (present_at q)); [apply stable_present|]. intros w. apply MkdirAll_grows.
Qed.
Next Obligation. intros ctx t l s s' E. exact (fs_Symlink_there _ _ _ _ _ E). Qed.
Next Obligation.
  intros ctx t l q s. apply (Symlink_keeps (present_at q)); [apply stable_present|]. intros w. apply Symlink_grows.
Qed.
Next Obligation.
  intros ctx args q s. apply (ExecuteCommand_keeps (present_at q)); [apply stable_present|]. intros w. apply svscanctl_grows.
Qed.
End default_filesystem_laws.

Lemma PathExists_wrong_no {S : Type} `{ServiceLaws S} ctx p s e s' :
  sane s → present s p → PathExists ctx p s = ((false, e), s') → is_Some e.
Proof.
  intros Hs Hp E. destruct e as [e|]; [done|]. exfalso. apply (PathExists_no _ _ _ _ Hs E).
  pose proof (PathExists_same ctx p p s) as Hi. rewrite E in Hi. by apply Hi.
Qed.
