(* ===== verification/MemOS.v ===== *)
(** * MemOS: an operating system for concrete runs

    A file tree in memory with symbolic links, a clock, open files and a list
    of failures to inject, as an instance of the class [OS] of [FileSystem],
    with the proof that it keeps the promises of [OSLaws].  The witnesses of
    the file system and of the S6 service run on it.  It models no code of the
    repository. *)

From S2P Require Import Prelude StateMonad GoRuntime GoBytes FileSystem.
From Stdlib Require Import Ascii.
Local Open Scope Z_scope.

Inductive Node := File (data : bytes) (mtime : Time) | Directory | Link (target : bytes).

(** A path as the list of its components. *)
Definition comps (p : bytes) : list bytes := filter (λ c : bytes, c ≠ []) (split_on slash p).

Abbreviation Tree := (gmap (list bytes) Node).

Record MemOS := mkMemOS {
  mem_time : Z;
  tree : Tree;
  fds : gmap nat (bytes * nat);
  failures : list (option Z) }.      (* the exit code, or just a failure, of the next calls *)

Definition set_tree (m : Tree) (w : MemOS) : MemOS := mkMemOS (mem_time w) m (fds w) (failures w).
Definition set_fds (f : gmap nat (bytes * nat)) (w : MemOS) : MemOS := mkMemOS (mem_time w) (tree w) f (failures w).
Definition set_failures (l : list (option Z)) (w : MemOS) : MemOS := mkMemOS (mem_time w) (tree w) (fds w) l.

(** Follow [rest] from the directory [cur]; the number left bounds the links followed. *)
Fixpoint walk (fuel : nat) (m : Tree) (cur rest : list bytes) : option (list bytes * nat) :=
  match rest with
  | [] => Some (cur, fuel)
  | c :: rest =>
      match fuel with
      | 0%nat => None
      | S fuel =>
          match m !! (cur ++ [c]) with
          | None => None
          | Some (Link t) => walk fuel m [] (comps t ++ rest)
          | Some _ => walk fuel m (cur ++ [c]) rest
          end
      end
  end.

Definition max_steps : nat := 100.
#[global] Opaque max_steps.

Definition node_at (m : Tree) (q : list bytes) : option Node :=
  match q with [] => Some Directory | _ => m !! q end.

Definition look (m : Tree) (p : bytes) : option Node :=
  match walk max_steps m [] (comps p) with Some (q, _) => node_at m q | None => None end.

Definition info_of (n : Node) : FileInfo :=
  match n with
  | File data t => mkFileInfo t (Z.of_nat (length data)) false
  | _ => mkFileInfo 0 0 true
  end.

Definition mem_stat (w : MemOS) (p : bytes) : option FileInfo := info_of <$> look (tree w) p.
Definition mem_content (w : MemOS) (p : bytes) : option bytes :=
  n ← look (tree w) p; match n with File data _ => Some data | _ => None end.

(** Where the last component of [p] is, its parent followed. *)
Definition place (m : Tree) (p : bytes) : option (list bytes) :=
  match last (comps p), walk max_steps m [] (removelast (comps p)) with
  | Some c, Some (d, _) => Some (d ++ [c])
  | _, _ => None
  end.

Definition ENOENT : GoErr := ESentinel "os" "no such file or directory".
Definition EIO : GoErr := ESentinel "os" "input/output error".

(** The next injected failure, if any. *)
Definition failing {A} (bad : GoErr → A) (op : St MemOS A) : St MemOS A := λ w,
  match failures w with
  | Some _ :: l => (bad EIO, set_failures l w)
  | None :: l => op (set_failures l w)
  | [] => op w
  end.

(** Change the tree to [m], provided that [ok] holds then. *)
Definition commit (ok : MemOS → bool) (m : Tree) : St MemOS (option GoErr) := λ w,
  if ok (set_tree m w) then (None, set_tree m w) else (Some EIO, w).

Definition there (p : bytes) (w : MemOS) : bool := bool_decide (is_Some (mem_stat w p)).

Definition mem_WriteFile (p data : bytes) (w : MemOS) : option GoErr * MemOS :=
  match place (tree w) p with
  | Some q =>
      match tree w !! q with
      | None | Some (File _ _) => commit (there p) (<[q := File data (mem_time w)]> (tree w)) w
      | _ => (Some EIO, w)
      end
  | None => (Some ENOENT, w)
  end.

(** [mkdir] of one more component. *)
Definition mkdir1 (m : option Tree) (q : list bytes) : option Tree :=
  match m with
  | None => None
  | Some m =>
      match walk max_steps m [] q, last q, walk max_steps m [] (removelast q) with
      | Some _, _, _ => Some m
      | None, Some c, Some (d, _) =>
          match m !! (d ++ [c]) with None => Some (<[d ++ [c] := Directory]> m) | Some _ => None end
      | _, _, _ => None
      end
  end.

Definition prefixes (q : list bytes) : list (list bytes) := (λ n, take n q) <$> seq 1 (length q).

Definition mem_MkdirAll (p : bytes) (w : MemOS) : option GoErr * MemOS :=
  match foldl mkdir1 (Some (tree w)) (prefixes (comps p)) with
  | Some m => commit (there p) m w
  | None => (Some EIO, w)
  end.

Definition mem_Symlink (t l : bytes) (w : MemOS) : option GoErr * MemOS :=
  match place (tree w) l with
  | Some q =>
      match tree w !! q with
      | None => commit (λ w', negb (there t w) || there l w') (<[q := Link t]> (tree w)) w
      | Some _ => (Some EIO, w)
      end
  | None => (Some ENOENT, w)
  end.

Definition below (q k : list bytes) : bool := bool_decide (take (length q) k = q).

Definition mem_RemoveAll (p : bytes) (w : MemOS) : option GoErr * MemOS :=
  match place (tree w) p with
  | Some q => commit (λ w', negb (there p w')) (filter (λ kv, below q kv.1 = false) (tree w)) w
  | None => commit (λ w', negb (there p w')) (tree w) w
  end.

Definition mem_Remove (p : bytes) (w : MemOS) : option GoErr * MemOS :=
  match place (tree w) p with
  | Some q => if bool_decide (is_Some (tree w !! q)) then (None, set_tree (delete q (tree w)) w) else (Some ENOENT, w)
  | None => (Some ENOENT, w)
  end.

Definition children (m : Tree) (q : list bytes) : list DirEntry :=
  omap (λ kv : list bytes * Node, match kv with
        | (k, n) => if bool_decide (removelast k = q ∧ k ≠ []) then
            Some (mkDirEntry (default [] (last k)) (match n with Directory => true | _ => false end)) else None
        end) (map_to_list m).

Definition mem_ReadDir (p : bytes) (w : MemOS) : list DirEntry + GoErr :=
  match walk max_steps (tree w) [] (comps p) with
  | Some (q, _) => match node_at (tree w) q with
                   | Some Directory => inl (children (tree w) q)
                   | _ => inr EIO
                   end
  | None => inr ENOENT
  end.

Definition mem_ReadFull (f n : nat) (w : MemOS) : (bytes * option GoErr) * MemOS :=
  match fds w !! f with
  | None => (([], Some EIO), w)
  | Some (c, i) =>
      let data := take n (drop i c) in
      let w' := set_fds (<[f := (c, (i + length data)%nat)]> (fds w)) w in
      if (length data =? n)%nat then ((data, None), w')
      else if (length data =? 0)%nat then ((data, Some EOF), w') else ((data, Some ErrUnexpectedEOF), w')
  end.

#[export] Instance mem_world : World MemOS := {
  clock w := (mem_time w, mkMemOS (mem_time w + 1) (tree w) (fds w) (failures w));
  randw w := (0, w);
}.

#[export] Instance mem_os : OS MemOS := {
  os_Stat p := failing inr (λ w, (match mem_stat w p with Some fi => inl fi | None => inr ENOENT end, w));
  os_ReadFile p := failing inr (λ w, (match mem_content w p with Some d => inl d | None => inr ENOENT end, w));
  os_MkdirAll p _ := failing Some (mem_MkdirAll p);
  os_WriteFile p data _ := failing Some (mem_WriteFile p data);
  os_Remove p := failing Some (mem_Remove p);
  os_RemoveAll p := failing Some (mem_RemoveAll p);
  os_Chmod p _ := failing Some (λ w, (None, w));
  os_ReadDir p := failing inr (λ w, (mem_ReadDir p w, w));
  os_Rename _ _ := λ w, (Some EIO, w);
  os_Symlink t l := failing Some (mem_Symlink t l);
  os_Glob _ := λ w, (inl [], w);
  os_Run _ _ := λ w, (None, w);
  os_CommandContext _ _ _ := λ w,
    match failures w with
    | Some c :: l => (([], Some (EWrap "exit status " (ENew (pretty c)))), set_failures l w)
    | _ :: l => (([], None), set_failures l w)
    | [] => (([], None), w)
    end;
  Handle := nat;
  os_Open p := λ w, match mem_content w p with
    | Some c => let f := fresh (dom (fds w)) in (inl f, set_fds (<[f := (c, 0%nat)]> (fds w)) w)
    | None => (inr ENOENT, w) end;
  f_Stat f := λ w, match fds w !! f with
    | Some (c, _) => (inl (mkFileInfo 0 (Z.of_nat (length c)) false), w) | None => (inr EIO, w) end;
  f_Seek f off := λ w, match fds w !! f with
    | Some (c, _) => (None, set_fds (<[f := (c, Z.to_nat off)]> (fds w)) w) | None => (Some EIO, w) end;
  f_ReadFull f n := mem_ReadFull f n;
  IsNotExist e := IsErr e ENOENT;
  exit_code e := match e with EWrap _ (ENew "111") => Some 111 | EWrap _ (ENew "100") => Some 100 | _ => None end;
  background _ w := w;
}.

(** ** It keeps its promises *)

(** The tree [m'] holds at least the nodes of [m], with their links unchanged. *)
Definition link_of (n : Node) : option bytes := match n with Link t => Some t | _ => None end.

Definition grown (m m' : Tree) : Prop :=
  ∀ q n, m !! q = Some n → ∃ n', m' !! q = Some n' ∧ link_of n' = link_of n.

Lemma grown_subseteq m m' : m ⊆ m' → grown m m'.
Proof. intros Hs q n Hq. exists n. split; [|done]. by eapply lookup_weaken. Qed.

Lemma walk_grown fuel m m' cur rest r : grown m m' → walk fuel m cur rest = Some r → walk fuel m' cur rest = Some r.
Proof.
  intros Hg. revert cur rest. induction fuel as [|fuel IH]; intros cur [|c rest]; try done.
  simpl. destruct (m !! (cur ++ [c])) as [n|] eqn:E; [|done].
  destruct (Hg _ _ E) as (n' & -> & Hl). destruct n, n'; try done; try apply IH.
  injection Hl as ->. apply IH.
Qed.

Lemma look_grown m m' p : grown m m' → is_Some (look m p) → is_Some (look m' p).
Proof.
  unfold look. intros Hg [n Hn]. destruct (walk max_steps m [] (comps p)) as [[q f]|] eqn:E; [|done].
  rewrite (walk_grown _ _ _ _ _ _ Hg E). unfold node_at in *. destruct q; [done|].
  destruct (Hg _ _ Hn) as (n' & -> & _). done.
Qed.

Lemma mem_stat_look w p : is_Some (mem_stat w p) ↔ is_Some (look (tree w) p).
Proof. unfold mem_stat. apply fmap_is_Some. Qed.

Lemma stat_grown w w' p : grown (tree w) (tree w') → is_Some (mem_stat w p) → is_Some (mem_stat w' p).
Proof. rewrite !mem_stat_look. apply look_grown. Qed.

Lemma stat_shrunk w w' p : tree w' ⊆ tree w → mem_stat w p = None → mem_stat w' p = None.
Proof.
  intros Hs Hn. destruct (mem_stat w' p) eqn:E; [|done].
  assert (is_Some (mem_stat w p)) as [? ?]; [|congruence].
  eapply stat_grown; [by apply grown_subseteq|]. by rewrite E.
Qed.

Lemma grown_refl m : grown m m.
Proof. by apply grown_subseteq. Qed.

Lemma grown_trans m1 m2 m3 : grown m1 m2 → grown m2 m3 → grown m1 m3.
Proof.
  intros A B q n Hq. destruct (A _ _ Hq) as (n2 & H2 & L2). destruct (B _ _ H2) as (n3 & H3 & L3).
  exists n3. split; [done|]. congruence.
Qed.

Lemma grown_insert m q n : (∀ n0, m !! q = Some n0 → link_of n = link_of n0) → grown m (<[q := n]> m).
Proof.
  intros Hl q' n' Hq. destruct (decide (q = q')) as [<-|Hne].
  - exists n. rewrite lookup_insert_eq. eauto.
  - exists n'. by rewrite lookup_insert_ne.
Qed.

(** The tree after a call: every outcome of [op] satisfies [P] of it. *)
Lemma failing_tree {A : Type} (P : Tree → Prop) (bad : GoErr → A) (op : St MemOS A) w :
  P (tree w) → (∀ w', tree w' = tree w → P (tree (op w').2)) → P (tree (failing bad op w).2).
Proof. intros Hw Hop. unfold failing. destruct (failures w) as [|[c|] l]; auto. Qed.

Lemma failing_ok {A} (bad : GoErr → A) (op : St MemOS A) w a w' :
  failing bad op w = (a, w') → (∀ e, bad e ≠ a) → ∃ w0, tree w0 = tree w ∧ op w0 = (a, w').
Proof.
  unfold failing. intros E Hb. destruct (failures w) as [|[c|] l]; [by exists w| |by exists (set_failures l w)].
  injection E as E _. by destruct (Hb EIO).
Qed.

Lemma commit_tree (P : Tree → Prop) ok m w : P (tree w) → P m → P (tree (commit ok m w).2).
Proof. unfold commit. by destruct (ok _). Qed.

Lemma commit_ok ok m w w' : commit ok m w = (None, w') → ok w' = true ∧ tree w' = m.
Proof. unfold commit. destruct (ok _) eqn:E; [|done]. intros [= <-]. done. Qed.

Lemma mem_RemoveAll_tree p w : tree (mem_RemoveAll p w).2 ⊆ tree w.
Proof.
  unfold mem_RemoveAll. destruct (place (tree w) p); apply (commit_tree (λ m, m ⊆ tree w)); try done.
  apply map_filter_subseteq.
Qed.

Lemma mem_RemoveAll_gone p w w' : mem_RemoveAll p w = (None, w') → mem_stat w' p = None.
Proof.
  unfold mem_RemoveAll. destruct (place (tree w) p); intros E; apply commit_ok in E as [E _];
    unfold there in E; apply negb_true_iff, bool_decide_eq_false in E; by apply eq_None_not_Some.
Qed.

Lemma mem_WriteFile_tree p d w : grown (tree w) (tree (mem_WriteFile p d w).2).
Proof.
  unfold mem_WriteFile. destruct (place (tree w) p) as [q|]; [|apply grown_refl].
  destruct (tree w !! q) as [[]|] eqn:E; try apply grown_refl; apply (commit_tree (grown (tree w)));
    try apply grown_refl; apply grown_insert; intros n0; rewrite E; by intros [= <-].
Qed.

Lemma mem_WriteFile_there p d w w' : mem_WriteFile p d w = (None, w') → is_Some (mem_stat w' p).
Proof.
  unfold mem_WriteFile. destruct (place (tree w) p) as [q|]; [|done].
  destruct (tree w !! q) as [[]|]; try done; intros E; apply commit_ok in E as [E _]; by apply bool_decide_eq_true in E.
Qed.

Lemma mkdir1_grown m q m' : mkdir1 (Some m) q = Some m' → grown m m'.
Proof.
  unfold mkdir1. destruct (walk _ m [] q); [intros [= <-]; apply grown_refl|].
  destruct (last q) as [c|]; [|done]. destruct (walk _ m [] (removelast q)) as [[d f]|]; [|done].
  destruct (m !! (d ++ [c])) eqn:E; [done|]. intros [= <-]. apply grown_insert. by rewrite E.
Qed.

Lemma mkdirs_grown l m m' : foldl mkdir1 (Some m) l = Some m' → grown m m'.
Proof.
  assert (foldl mkdir1 None l = None) as Hn by (by induction l).
  clear Hn. revert m. induction l as [|q l IH]; intros m E; [injection E as <-; apply grown_refl|].
  cbn [foldl] in E. destruct (mkdir1 (Some m) q) as [m1|] eqn:E1.
  - eapply grown_trans; [by apply (mkdir1_grown _ q)|by apply IH].
  - assert (∀ l, foldl mkdir1 None l = None) as Hn by (by intros l'; induction l'). by rewrite Hn in E.
Qed.

Lemma mem_MkdirAll_tree p w : grown (tree w) (tree (mem_MkdirAll p w).2).
Proof.
  unfold mem_MkdirAll. destruct (foldl mkdir1 _ _) as [m|] eqn:E; [|apply grown_refl].
  apply (commit_tree (grown (tree w))); [apply grown_refl|by eapply mkdirs_grown].
Qed.

Lemma mem_MkdirAll_there p w w' : mem_MkdirAll p w = (None, w') → is_Some (mem_stat w' p).
Proof.
  unfold mem_MkdirAll. destruct (foldl mkdir1 _ _) as [m|]; [|done].
  intros E. apply commit_ok in E as [E _]. by apply bool_decide_eq_true in E.
Qed.

Lemma mem_Symlink_tree t l w : grown (tree w) (tree (mem_Symlink t l w).2).
Proof.
  unfold mem_Symlink. destruct (place (tree w) l) as [q|]; [|apply grown_refl].
  destruct (tree w !! q) eqn:E; [apply grown_refl|]. apply (commit_tree (grown (tree w))); [apply grown_refl|].
  apply grown_insert. by rewrite E.
Qed.

Lemma mem_Symlink_there t l w w' : mem_Symlink t l w = (None, w') → is_Some (mem_stat w t) → is_Some (mem_stat w' l).
Proof.
  intros Hs Ht. assert (is_Some (mem_stat w' t)) as Ht'.
  { eapply stat_grown; [|exact Ht]. replace w' with (mem_Symlink t l w).2 by (by rewrite Hs). apply mem_Symlink_tree. }
  revert Hs. unfold mem_Symlink. destruct (place (tree w) l) as [q|]; [|done]. destruct (tree w !! q); [done|].
  intros E. apply commit_ok in E as [E _]. apply orb_prop in E as [E|E]; [|by apply bool_decide_eq_true in E].
  apply negb_true_iff, bool_decide_eq_false in E. done.
Qed.

Lemma failing_stat {A : Type} (bad : GoErr → A) (f : MemOS → A) (w : MemOS) p :
  mem_stat (failing bad (λ w, (f w, w)) w).2 p = mem_stat w p ∧
  mem_content (failing bad (λ w, (f w, w)) w).2 p = mem_content w p.
Proof. unfold failing. by destruct (failures w) as [|[c|] l]. Qed.

Lemma failing_time {A : Type} (bad : GoErr → A) (op : St MemOS A) w :
  (∀ w, mem_time (op w).2 = mem_time w) → mem_time (failing bad op w).2 = mem_time w.
Proof. intros Hop. unfold failing. destruct (failures w) as [|[c|] l]; rewrite ?Hop; done. Qed.

(** A successful answer of such a call. *)
Lemma failing_answer {A : Type} (f : MemOS → A + GoErr) (w : MemOS) a w' :
  (∀ w' , tree w' = tree w → f w' = f w) → failing inr (λ w, (f w, w)) w = (inl a, w') → f w = inl a.
Proof.
  intros Hf. unfold failing. destruct (failures w) as [|[c|] l]; [by intros [= ->]|done|].
  intros [= <- _]. by rewrite (Hf (set_failures l w)).
Qed.

#[local] Obligation Tactic := idtac.

#[export] Program Instance mem_laws : OSLaws MemOS := {|
  os_now := mem_time;
  stat_at := mem_stat;
  content_at := mem_content;
  handle w f c i := fds w !! f = Some (c, i);
|}.
Next Obligation. intros w t w' [= <- <-]. simpl. lia. Qed.
Next Obligation. intros w. simpl. lia. Qed.
Next Obligation. done. Qed.
Next Obligation. done. Qed.
Next Obligation. done. Qed.
Next Obligation. done. Qed.
Next Obligation. intros p w. cbn. by rewrite failing_time. Qed.
Next Obligation. intros p q w. apply failing_stat. Qed.
Next Obligation. intros p q w. apply failing_stat. Qed.
Next Obligation.
  intros p w fi w' E. apply failing_answer in E.
  - destruct (mem_stat w p); [by injection E as ->|done].
  - intros w1 Ht. unfold mem_stat. by rewrite Ht.
Qed.
Next Obligation.
  intros p w e w' E He. revert E. cbn. unfold failing.
  destruct (failures w) as [|[c|] l]; cbn.
  - destruct (mem_stat w p); [done|]. done.
  - intros [= <- _]. by vm_compute in He.
  - change (mem_stat (set_failures l w) p) with (mem_stat w p). by destruct (mem_stat w p).
Qed.
Next Obligation.
  intros p w d w' E. apply failing_answer in E.
  - destruct (mem_content w p); [by injection E as ->|done].
  - intros w1 Ht. unfold mem_content. by rewrite Ht.
Qed.
Next Obligation. intros p q w. apply failing_stat. Qed.
Next Obligation.
  intros p w w' E. apply failing_ok in E as (w0 & Ht & E); [|done]. by apply mem_RemoveAll_gone in E.
Qed.
Next Obligation.
  intros p q w Hq. cbn. eapply stat_shrunk; [|exact Hq]. apply (failing_tree (λ m, m ⊆ tree w)); [done|].
  intros w' <-. apply mem_RemoveAll_tree.
Qed.
Next Obligation.
  intros p d perm w w' E. apply failing_ok in E as (w0 & Ht & E); [|done]. by apply mem_WriteFile_there in E.
Qed.
Next Obligation.
  intros p d perm q w Hq. cbn. eapply stat_grown; [|exact Hq]. apply (failing_tree (grown (tree w))); [apply grown_refl|].
  intros w' <-. apply mem_WriteFile_tree.
Qed.
Next Obligation.
  intros p perm w w' E. apply failing_ok in E as (w0 & Ht & E); [|done]. by apply mem_MkdirAll_there in E.
Qed.
Next Obligation.
  intros p perm q w Hq. cbn. eapply stat_grown; [|exact Hq]. apply (failing_tree (grown (tree w))); [apply grown_refl|].
  intros w' <-. apply mem_MkdirAll_tree.
Qed.
Next Obligation.
  intros t l w w' E Ht. apply failing_ok in E as (w0 & Hw & E); [|done]. apply mem_Symlink_there in E; [done|].
  unfold mem_stat. by rewrite Hw.
Qed.
Next Obligation.
  intros t l q w Hq. cbn. eapply stat_grown; [|exact Hq]. apply (failing_tree (grown (tree w))); [apply grown_refl|].
  intros w' <-. apply mem_Symlink_tree.
Qed.
Next Obligation. intros ctx args q w Hq. cbn. by destruct (failures w) as [|[c|] l]. Qed.
Next Obligation. done. Qed.
Next Obligation. done. Qed.
Next Obligation.
  intros p w f w'. cbn. destruct (mem_content w p) as [c|]; [|done]. intros [= <- <-]. exists c. split; [done|].
  apply lookup_insert_eq.
Qed.
Next Obligation. done. Qed.
Next Obligation.
  intros w f c i fi w' Hh. cbn [Handle mem_os] in f, Hh. cbn [f_Stat Handle mem_os]. rewrite Hh. intros [= <- <-]. by exists c.
Qed.
Next Obligation.
  intros w f c i off w' Hh. cbn [Handle mem_os] in f, Hh. cbn [f_Seek Handle mem_os]. rewrite Hh. intros [= <-]. apply lookup_insert_eq.
Qed.
Next Obligation.
  intros w f c i n data w' Hh. cbn [Handle mem_os] in f, Hh. cbn [f_ReadFull Handle mem_os]. unfold mem_ReadFull. rewrite Hh.
  destruct (length (take n (drop i c)) =? n)%nat eqn:En.
  - intros [= <- <-]. apply Nat.eqb_eq in En. exists c. split_and!; try done. rewrite En. apply lookup_insert_eq.
  - by destruct (_ =? 0)%nat.
Qed.
Next Obligation.
  intros w f c i n data e w' Hh. cbn [Handle mem_os] in f, Hh. cbn [f_ReadFull Handle mem_os]. unfold mem_ReadFull. rewrite Hh.
  destruct (Nat.eqb_spec (length (take n (drop i c))) n) as [|Hn]; [done|].
  assert (take n (drop i c) = drop i c) as Hd.
  { apply take_ge. rewrite length_take in Hn. lia. }
  rewrite Hd. intros E _. exists c. split; [done|].
  destruct (_ =? 0)%nat; congruence.
Qed.
Next Obligation. intros p w. cbn [os_Open mem_os]. destruct (mem_content w p); simpl; lia. Qed.
Next Obligation.
  intros f w. cbn [f_Stat Handle mem_os] in *. destruct (fds w !! f) as [[]|]; simpl; lia.
Qed.
Next Obligation.
  intros f off w. cbn [f_Seek Handle mem_os] in *. destruct (fds w !! f) as [[]|]; simpl; lia.
Qed.
Next Obligation.
  intros f n w. cbn [f_ReadFull Handle mem_os] in *. unfold mem_ReadFull. destruct (fds w !! f) as [[c i]|]; [|simpl; lia].
  repeat case_match; simpl; lia.
Qed.
