(* ===== verification/FileCaches.v ===== *)
(** * FileCaches: what the caches of the file system service may answer

    The theorems about [FileSystem]: how old an answer about existence can be,
    that cached file contents are current, and that [ReadFileRange] returns
    the bytes of the file and always ends.  The witnesses run on [MemOS]. *)

From S2P Require Import Prelude StateMonad GoRuntime GoBytes FileSystem MemOS.
Local Open Scope Z_scope.

(** ** How old a positive answer can be *)

Section fresh.
Context {W : Type} `{OSLaws W}.

Lemma settled_time t : settled (λ w, t <= os_now w).
Proof.
  split; intros w Hw.
  - destruct (clock w) as [u w'] eqn:E. pose proof (clock_time _ _ _ E). simpl. lia.
  - pose proof (randw_time w). lia.
Qed.

Lemma settled_both P Q : settled P → settled Q → settled (λ w, P w ∧ Q w).
Proof. intros [? ?] [? ?]. split; intros w []; auto. Qed.

(** A call of the service, or anything the rest of the system does between two calls. *)
Inductive fs_step : FsState W → FsState W → Prop :=
  | step_call c s : fs_step s (perform c s)
  | step_world c w w' : os_now w <= os_now w' → fs_step (c, w) (c, w').

(** Every entry of the path cache was justified when it was made. *)
Definition justified (s0 : FsState W) (key : bytes) (e : CachedPath) (s : FsState W) : Prop :=
  ∃ s1 q, rtc fs_step s0 s1 ∧ rtc fs_step s1 s ∧ Clean q = key ∧ is_Some (stat_at s1.2 q) ∧
    path_expiry e <= os_now s1.2 + FilesystemCacheTTL.

Definition paths_justified (s0 s : FsState W) : Prop :=
  ∀ key e, pathCache s.1 !! key = Some e → path_exists e = true ∧ justified s0 key e s.

Lemma justified_step s0 key e s s' : fs_step s s' → justified s0 key e s → justified s0 key e s'.
Proof. intros Hs (s1 & q & ? & ? & ?). exists s1, q. split; [done|]. split; [by eapply rtc_r|done]. Qed.

Lemma await_caches {A} ctx (op : St W A) s : (await ctx op s).2.1 = s.1.
Proof. unfold await, onW. by destruct (match op s.2 with (_, _) => _ end). Qed.

(** What an existence check does to the path cache, and where its "yes" comes from. *)
Lemma PathExists_cases ctx p s r s' : fs_PathExists ctx p s = (r, s') →
  (s'.1 = s.1 ∧ (r = (true, None) →
     ∃ e, pathCache s.1 !! Clean p = Some e ∧ path_exists e = true ∧ os_now s.2 < path_expiry e)) ∨
  (∃ t, r = (true, None) ∧ s'.1 = set_pathCache <[Clean p := mkCachedPath true (t + FilesystemCacheTTL)]> s.1 ∧
        is_Some (stat_at s'.2 p) ∧ t <= os_now s'.2 ∧ os_now s.2 <= os_now s'.2).
Proof.
  unfold fs_PathExists, checkContext. unfold mbind at 1, St_bind at 1, onW at 1, ctx_Err.
  destruct (clock s.2) as [t1 w1] eqn:E1. cbn [fst snd]. pose proof (clock_time _ _ _ E1) as T1.
  destruct (ctx_Err_at ctx t1) as [e|]; [by intros [= <- <-]; left|].
  unfold mbind, St_bind, Now, onW, caches. cbn [fst snd]. destruct (clock w1) as [t2 w2] eqn:E2. cbn [fst snd].
  pose proof (clock_time _ _ _ E2) as T2.
  destruct (match pathCache s.1 !! Clean p with Some c => _ | None => None end) as [b|] eqn:Eb.
  { intros [= <- <-]. left. split; [done|]. intros [= ->]. destruct (pathCache s.1 !! Clean p) as [e|]; [|done].
    exists e. destruct (Z.ltb_spec t2 (path_expiry e)); [|done]. injection Eb as ->. split_and!; [done|done|lia]. }
  unfold pathExistsUncached, mbind, St_bind.
  destruct (await ctx (os_Stat p) (s.1, w2)) as [r1 s3] eqn:Ea.
  assert (s3.1 = s.1) as Hc3.
  { pose proof (await_caches ctx (os_Stat p) (s.1, w2)) as Hk. by rewrite Ea in Hk. }
  destruct r1 as [[fi|err]|err]; cbn.
  - unfold on_caches. destruct (clock s3.2) as [t w4] eqn:E4. cbn. intros [= <- <-]. right.
    pose proof (await_result (λ w, os_now s.2 <= os_now w ∧ is_Some (stat_at w p)) _ _ _ _ _
      (settled_both _ _ (settled_time _) (proj1 (stable_present p))) Ea) as (_ & Hop & Hk). cbn [fst snd] in *.
    pose proof (clock_time _ _ _ E4) as T4. pose proof (clock_stat s3.2 p) as S4. rewrite E4 in S4.
    pose proof (Stat_same p p w2) as Hs. pose proof (Stat_time p w2) as Hst.
    destruct (os_Stat p w2) as [r w3] eqn:Es. cbn in Hop, Hk, Hs, Hst. subst r.
    destruct Hk as [Hk1 Hk2].
    { split; [lia|]. by rewrite Hs, (Stat_info _ _ _ _ Es). }
    exists t. rewrite Hc3. cbn in S4 |- *. rewrite S4. split_and!; [done|done|done|lia|lia].
  - destruct (IsNotExist err); intros [= <- <-]; by left.
  - intros [= <- <-]. by left.
Qed.

(** Nothing but an existence check adds to the path cache. *)
Lemma perform_paths (c : Call) (s : FsState W) :
  pathCache (perform c s).1 ⊆ pathCache s.1 ∨
  ∃ p t, pathCache (perform c s).1 = <[Clean p := mkCachedPath true (t + FilesystemCacheTTL)]> (pathCache s.1) ∧
    is_Some (stat_at (perform c s).2 p) ∧ t <= os_now (perform c s).2.
Proof.
  assert (∀ ctx p, pathCache (fs_PathExists ctx p s).2.1 ⊆ pathCache s.1 ∨
    ∃ q t, pathCache (fs_PathExists ctx p s).2.1 = <[Clean q := mkCachedPath true (t + FilesystemCacheTTL)]> (pathCache s.1) ∧
      is_Some (stat_at (fs_PathExists ctx p s).2.2 q) ∧ t <= os_now (fs_PathExists ctx p s).2.2) as Hp.
  { intros. destruct (fs_PathExists ctx p s) as [r s'] eqn:E. cbn.
    destruct (PathExists_cases _ _ _ _ _ E) as [[-> _]|(t & _ & -> & ? & ? & ?)]; [by left|right; by exists p, t]. }
  destruct c; cbn [perform default_filesystem EnsureDirectory ReadFile WriteFile PathExists FileExists Remove
    RemoveAll ReadDir ExecuteCommand Rename Symlink]; try apply Hp; left;
    [unfold fs_EnsureDirectory|unfold fs_ReadFile, readFileUncached, cached_content|unfold fs_WriteFile
    |unfold fs_Remove|unfold fs_RemoveAll|unfold fs_ReadDir, readDirUncached|unfold fs_ExecuteCommand
    |unfold fs_Rename|unfold fs_Symlink];
    unfold guarded, checkContext, Now, await, nothing;
    match goal with |- pathCache (?m s).2.1 ⊆ _ =>
      cut (ckeeps (no_new_paths s.1) m); [intros Hk; apply (Hk s); unfold no_new_paths; done|] end;
    ckeeps_tac.
Qed.

Lemma paths_justified_step s0 s s' : rtc fs_step s0 s → fs_step s s' →
  paths_justified s0 s → paths_justified s0 s'.
Proof.
  intros Hr Hs Hj. inversion Hs as [c s1|c w w' _]; subst.
  - destruct (perform_paths c s) as [Hsub|(p & t & Heq & Hp & Ht)]; intros key e.
    + intros He. apply (lookup_weaken _ (pathCache s.1)) in He; [|done]. destruct (Hj _ _ He).
      split; [done|]. by eapply justified_step.
    + rewrite Heq. intros [[<- <-]|[_ He]]%lookup_insert_Some.
      * split; [done|]. exists (perform c s), p. split; [by eapply rtc_r|]. split_and!; [done|done|done|]. simpl. lia.
      * destruct (Hj _ _ He). split; [done|]. by eapply justified_step.
  - intros key e He. destruct (Hj key e He). split; [done|]. by eapply justified_step.
Qed.

Lemma paths_justified_run w0 s : rtc fs_step (NewDefaultService, w0) s →
  paths_justified (NewDefaultService, w0) s.
Proof.
  revert s. apply rtc_ind_r; [intros key e; cbn; by rewrite lookup_empty|].
  intros s s' Hr Hs. by apply (paths_justified_step _ s).
Qed.

(** Existence answers are at most a second old.  Whatever calls were made
    and whatever the rest of the system did, when the service says that a path
    exists then it did, under some spelling of the path, at a moment of this
    run less than the cache's lifetime before the call. *)
Theorem existence_is_fresh (w0 : W) (s s' : FsState W) (ctx : Ctx) (p : bytes) :
  rtc fs_step (NewDefaultService, w0) s → PathExists ctx p s = ((true, None), s') →
  ∃ s1 q, rtc fs_step (NewDefaultService, w0) s1 ∧ rtc fs_step s1 s' ∧ Clean q = Clean p ∧
    is_Some (stat_at s1.2 q) ∧ os_now s.2 < os_now s1.2 + FilesystemCacheTTL.
Proof.
  intros Hr E. assert (fs_step s s') as Hs.
  { replace s' with (perform (CPathExists ctx p) s) by (cbn [perform]; by rewrite E). constructor. }
  destruct (PathExists_cases _ _ _ _ _ E) as [[_ Hy]|(t & _ & _ & Hp & Ht & Hn)].
  - destruct (Hy eq_refl) as (e & He & _ & Hlt).
    destruct (paths_justified_run _ _ Hr _ _ He) as [_ (s1 & q & H01 & H1s & Hq & Hp & Hx)].
    exists s1, q. split; [done|]. split; [by eapply rtc_r|]. split_and!; [done|done|lia].
  - exists s', p. split; [by eapply rtc_r|]. split_and!; [done|done|done|]. unfold FilesystemCacheTTL, Second, Millisecond. lia.
Qed.
End fresh.

(** ** The file cache is transparent *)

Section transparent.
Context {W : Type} `{OSLaws W}.

(** The modification time and the size of a file identify its content: no file
    is rewritten in place with another content of the same size within one
    step of the file system's clock. *)
Context (version : bytes → Time → Z → option bytes).

Definition stamped (w : W) : Prop :=
  ∀ p fi, stat_at w p = Some fi → content_at w p = version (Clean p) (ModTime fi) (FileSize fi).

Definition files_ok (c : DefaultService) : Prop :=
  ∀ key e, fileCache c !! key = Some e → version key (modTime e) (size e) = Some (content e).

Definition same_view (w w' : W) : Prop :=
  (∀ p, stat_at w' p = stat_at w p) ∧ (∀ p, content_at w' p = content_at w p).

Lemma same_view_refl w : same_view w w.
Proof. done. Qed.

Lemma settled_same_view w : settled (same_view w).
Proof.
  split; intros w1 [Hs Hc]; split; intros p.
  - by rewrite clock_stat.
  - by rewrite clock_content.
  - by rewrite randw_stat.
  - by rewrite randw_content.
Qed.

Lemma stamped_same_view w w' : same_view w w' → stamped w → stamped w'.
Proof. intros [Hs Hc] Hw p fi. rewrite Hs, Hc. apply Hw. Qed.

Lemma clock_same_view w t w' : clock w = (t, w') → same_view w w'.
Proof. intros E. pose proof (proj1 (settled_same_view w) w (same_view_refl w)) as Hv. by rewrite E in Hv. Qed.

Lemma Stat_same_view p w : same_view w (os_Stat p w).2.
Proof. split; intros q; [apply Stat_same|apply Stat_content]. Qed.

Lemma same_view_trans w1 w2 w3 : same_view w1 w2 → same_view w2 w3 → same_view w1 w3.
Proof. intros [A1 A2] [B1 B2]. split; intros p; [by rewrite B1|by rewrite B2]. Qed.

Lemma files_ok_insert c key data fi t : files_ok c → version key (ModTime fi) (FileSize fi) = Some data →
  files_ok (set_fileCache <[key := mkCachedFile data (ModTime fi) (FileSize fi) t]> c).
Proof.
  intros Hc Hv key' e. simpl. intros [[<- <-]|[_ ?]]%lookup_insert_Some; [done|by apply Hc].
Qed.

Lemma files_ok_delete c key : files_ok c → files_ok (set_fileCache (delete key) c).
Proof. intros Hc key' e. simpl. intros [_ ?]%lookup_delete_Some. by apply Hc. Qed.

Lemma files_ok_invalidate p c : files_ok c → files_ok (invalidatePathCache p c).
Proof. intros Hc key e. simpl. rewrite map_lookup_filter_Some. intros [? _]. by apply Hc. Qed.

(** What a cache hit returns, and what it leaves. *)
Lemma cached_content_ok key cached fi (s : FsState W) r s' : files_ok s.1 →
  cached = fileCache s.1 !! key → cached_content key cached fi s = (r, s') →
  files_ok s'.1 ∧ same_view s.2 s'.2 ∧ ∀ data, r = Some data → version key (ModTime fi) (FileSize fi) = Some data.
Proof.
  intros Hc -> . unfold cached_content. destruct (fileCache s.1 !! key) as [e|] eqn:Ee.
  2: { intros [= <- <-]. split_and!; [done|apply same_view_refl|done]. }
  pose proof (Hc _ _ Ee) as Hv. destruct ((modTime e =? ModTime fi) && (size e =? FileSize fi)) eqn:Ec.
  2: { intros [= <- <-]. split_and!; [done|apply same_view_refl|done]. }
  apply andb_prop in Ec as [<-%Z.eqb_eq <-%Z.eqb_eq].
  unfold mbind, St_bind, Now, onW, on_caches. destruct (clock s.2) as [t1 w1] eqn:E1. apply clock_same_view in E1. cbn [fst snd].
  destruct (t1 - lastCheck e <? FilesystemCacheRecheckInterval).
  { intros [= <- <-]. split_and!; [done|done|]. by intros ? [= <-]. }
  cbn. destruct (clock w1) as [t2 w2] eqn:E2. apply clock_same_view in E2. cbn. intros [= <- <-]. split_and!.
  - intros key' e'. cbn. intros [[<- <-]|[_ ?]]%lookup_insert_Some; [done|by apply Hc].
  - by eapply same_view_trans.
  - by intros ? [= <-].
Qed.

Lemma readFileUncached_ok ctx p (s : FsState W) data e s' : readFileUncached ctx p s = ((data, e), s') →
  s'.1 = s.1 ∧ (e = None → content_at s.2 p = Some data).
Proof.
  unfold readFileUncached, mbind, St_bind.
  pose proof (await_caches ctx (os_ReadFile p) s) as Hc.
  destruct (await ctx (os_ReadFile p) s) as [r s1] eqn:Ea. cbn in Hc.
  destruct r as [[d|err]|err]; cbn; intros [= <- <- <-]; split; try done. intros _.
  apply (await_result (λ _, True)) in Ea as (_ & Hop & _); [|done].
  destruct (os_ReadFile p s.2) as [r w1] eqn:Er. cbn in Hop. subst r. by apply (ReadFile_content _ _ _ _ Er).
Qed.
(** The two ways [ReadFile] goes about it agree. *)
Lemma fs_ReadFile_ok ctx p (s : FsState W) data e s' : stamped s.2 → files_ok s.1 →
  fs_ReadFile ctx p s = ((data, e), s') → files_ok s'.1 ∧ (e = None → content_at s.2 p = Some data).
Proof.
  intros Hst Hf. unfold fs_ReadFile, checkContext. unfold mbind at 1, St_bind at 1, onW at 1, ctx_Err.
  destruct (clock s.2) as [t1 w1] eqn:E1. apply clock_same_view in E1. cbn [fst snd].
  destruct (ctx_Err_at ctx t1); [by intros [= <- <- <-]|].
  destruct (shouldCachePath (Clean p)).
  2: { intros E. apply readFileUncached_ok in E as [-> Hd]. split; [done|]. intros He.
       rewrite <- (proj2 E1). by apply Hd. }
  unfold mbind, St_bind, caches, onW. cbn [fst snd].
  pose proof (Stat_same_view p w1) as V1. destruct (os_Stat p w1) as [[fi|err] w2] eqn:Es; cbn [fst snd] in *.
  2: { cbn. intros [= <- <- <-]. split; [by apply files_ok_delete|done]. }
  assert (content_at s.2 p = version (Clean p) (ModTime fi) (FileSize fi)) as Hv.
  { apply Hst. rewrite <- (proj1 E1). by apply (Stat_info _ _ _ _ Es). }
  destruct (cached_content _ _ fi (s.1, w2)) as [r s3] eqn:Ec.
  apply cached_content_ok in Ec as (Hf3 & V3 & Hhit); [|done|done].
  destruct r as [d|]; [cbn; intros [= <- <- <-]; split; [done|]; intros _; by rewrite Hv, (Hhit d)|].
  destruct (readFileUncached ctx p s3) as [[d e1] s4] eqn:Er.
  apply readFileUncached_ok in Er as [Hc4 Hd]. destruct e1 as [err|].
  - cbn. intros [= <- <- <-]. by rewrite Hc4.
  - specialize (Hd eq_refl). assert (content_at s.2 p = Some d) as Hd'.
    { rewrite <- Hd, (proj2 V3). cbn. rewrite (proj2 V1). by rewrite (proj2 E1). }
    unfold Now, onW, on_caches. destruct (clock s4.2) as [t w5]. cbn. intros [= <- <- <-]. split; [|done].
    rewrite Hc4. apply files_ok_insert; [done|]. by rewrite <- Hv.
Qed.

(** One step of a system in which no file changes behind its time stamp. *)
Inductive stamped_step : FsState W → FsState W → Prop :=
  | stamped_call c s : stamped s.2 → stamped_step s (perform c s)
  | stamped_world c w w' : stamped_step (c, w) (c, w').

Lemma files_ok_step s s' : stamped_step s s' → files_ok s.1 → files_ok s'.1.
Proof.
  intros Hs. inversion Hs as [c s1 Hst|]; subst; [|done]. intros Hf.
  destruct c; cbn [perform default_filesystem EnsureDirectory ReadFile WriteFile PathExists FileExists Remove
    RemoveAll ReadDir ExecuteCommand Rename Symlink];
    [unfold fs_EnsureDirectory
    |destruct (fs_ReadFile ctx p s) as [[d e] s'] eqn:E; by apply fs_ReadFile_ok in E as [? _]
    |unfold fs_WriteFile|unfold fs_PathExists, pathExistsUncached|unfold fs_FileExists, fs_PathExists, pathExistsUncached
    |unfold fs_Remove|unfold fs_RemoveAll|unfold fs_ReadDir, readDirUncached|unfold fs_ExecuteCommand
    |unfold fs_Rename|unfold fs_Symlink];
    unfold guarded, checkContext, Now, await, nothing;
    match goal with |- files_ok (?m s).2.1 => cut (ckeeps files_ok m); [intros Hk; by apply Hk|] end;
    ckeeps_tac; apply ckeeps_on_caches; intros c0 Hc0; first [done|by apply files_ok_invalidate].
Qed.

(** C40: the file cache is transparent.  In a system where the modification
    time and the size of a file identify its content, [ReadFile] returns the
    bytes that are in the file at the call, whatever was cached before and
    whatever happened since, or an error. *)
Theorem cached_reads_are_current (w0 : W) (s s' : FsState W) (ctx : Ctx) (p data : bytes) :
  rtc stamped_step (NewDefaultService, w0) s → stamped s.2 → ReadFile ctx p s = ((data, None), s') →
  content_at s.2 p = Some data.
Proof.
  intros Hr Hst E. assert (files_ok s.1) as Hf.
  { clear E Hst. revert s Hr. apply rtc_ind_r; [intros key e; cbn; by rewrite lookup_empty|].
    intros s1 s2 _ Hs. by apply files_ok_step. }
  apply fs_ReadFile_ok in E as [_ Hd]; [|done|done]. by apply Hd.
Qed.
End transparent.

(** ** Reading a growing file piece by piece *)

Section ranges.
Context {W : Type} `{OSLaws W}.

(** [buf] is the part of [c] from [from] to [i]. *)
Definition read_so_far (c : bytes) (from i : nat) (buf : bytes) : Prop :=
  (i <= length c)%nat ∧ buf = take (i - from) (drop from c) ∧ (from <= i)%nat.

Lemma read_so_far_grow c c' from i buf : c `prefix_of` c' → read_so_far c from i buf → read_so_far c' from i buf.
Proof.
  intros [k ->] (Hi & -> & Hf). split; [rewrite length_app; lia|]. split; [|done].
  rewrite drop_app_le by lia. rewrite take_app_le; [done|]. rewrite length_drop. lia.
Qed.

Lemma read_so_far_more c from i buf n : (i + n <= length c)%nat → read_so_far c from i buf →
  read_so_far c from (i + n) (buf ++ take n (drop i c)).
Proof.
  intros Hn (Hi & -> & Hf). split; [done|]. split; [|lia].
  replace (i + n - from)%nat with ((i - from) + n)%nat by lia.
  rewrite <- take_take_drop, drop_drop. by replace (from + (i - from))%nat with i by lia.
Qed.

Lemma read_chunks_ok fuel chunk f dl tb from buf i c w out w' :
  handle w f c i → read_so_far c from i buf →
  read_chunks fuel chunk f dl tb buf w = (Some (inl out), w') →
  ∃ c' i', c `prefix_of` c' ∧ read_so_far c' from i' out.
Proof.
  revert buf i c w. induction fuel as [|fuel IH]; intros buf i c w Hh Hb; [done|].
  cbn [read_chunks]. unfold mbind, St_bind. pose proof (handle_clock _ _ _ _ Hh) as Hh1.
  destruct (clock w) as [t w1] eqn:E1. cbn [fst snd] in Hh1.
  destruct (dl - t <? tb); [intros [= <- _]; by exists c, i|].
  destruct (f_ReadFull f chunk w1) as [[data [err|]] w2] eqn:E2.
  - destruct (IsErr err EOF || IsErr err ErrUnexpectedEOF) eqn:Ee; [|done]. intros [= <- _].
    destruct (ReadFull_end _ _ _ _ _ _ _ _ Hh1 E2 Ee) as (c' & Hp & ->).
    exists c', (length c'). split; [done|]. apply (read_so_far_grow _ c') in Hb; [|done].
    pose proof (proj1 Hb). replace (length c') with (i + (length c' - i))%nat by lia.
    replace (drop i c') with (take (length c' - i) (drop i c')).
    + apply read_so_far_more; [lia|done].
    + apply take_ge. rewrite length_drop. lia.
  - intros E. destruct (ReadFull_handle _ _ _ _ _ _ _ Hh1 E2) as (c' & Hp & Hd & Hl & Hh2).
    apply (read_so_far_grow _ c') in Hb; [|done].
    assert (i + chunk <= length c')%nat as Hlen.
    { apply (f_equal length) in Hd. rewrite Hl, length_take, length_drop in Hd. pose proof (proj1 Hb). lia. }
    apply (IH _ (i + chunk)%nat c') in E as (c2 & i2 & Hp2 & H2); [|exact Hh2|].
    + exists c2, i2. split; [by etrans|done].
    + rewrite Hd. by apply read_so_far_more.
Qed.

(** Every round reads the clock, so that the loop ends however fast the file grows. *)
Lemma read_chunks_returns fuel chunk f dl tb buf w :
  (Z.to_nat (dl - tb - os_now w + 1) < fuel)%nat → ∃ r w', read_chunks fuel chunk f dl tb buf w = (Some r, w').
Proof.
  revert buf w. induction fuel as [|fuel IH]; intros buf w Hf; [lia|].
  cbn [read_chunks]. unfold mbind, St_bind. destruct (clock w) as [t w1] eqn:E1.
  pose proof (clock_time _ _ _ E1) as T1. destruct (Z.ltb_spec (dl - t) tb); [by eexists _, _|].
  pose proof (ReadFull_time f chunk w1) as T2. destruct (f_ReadFull f chunk w1) as [[data [err|]] w2]; cbn in T2.
  - destruct (_ || _); by eexists _, _.
  - apply IH. lia.
Qed.
(** The part of [ReadFileRange] that runs in the goroutine. *)
Lemma read_range_ok fuel chunk ctx p from w d : ctx_Deadline ctx = Some d → 0 <= from →
  (Z.to_nat (d - os_now w) + 2 <= fuel)%nat →
  ∃ r w', read_range fuel chunk ctx p from w = (Some r, w') ∧ ∀ data next, r = ((data, next), None) →
    ∃ c c', content_at w p = Some c ∧ c `prefix_of` c' ∧ data = take (length data) (drop (Z.to_nat from) c') ∧
      (next = from + Z.of_nat (length data) ∨ data = [] ∧ next = Z.of_nat (length c') ∧ next <= from).
Proof.
  intros Hd H0f Hfuel. unfold read_range. rewrite Hd. unfold mbind, St_bind.
  pose proof (Open_time p w) as T1. destruct (os_Open p w) as [[f|err] w1] eqn:E1; [|by eexists _, _].
  destruct (Open_handle _ _ _ _ E1) as (c & Hc & Hh1). cbn in T1.
  pose proof (handle_Stat_time f w1) as T2. destruct (f_Stat f w1) as [[fi|err] w2] eqn:E2; [|by eexists _, _].
  destruct (Stat_handle _ _ _ _ _ _ Hh1 E2) as (c2 & Hp2 & Hsz & Hh2). cbn in T2.
  destruct (Z.leb_spec (FileSize fi) from) as [Hle|Hlt].
  { eexists _, _. split; [reflexivity|]. intros data next [= <- <-]. exists c, c2. rewrite Hsz in *. split_and!; auto. }
  pose proof (Seek_time f from w2) as T3. destruct (f_Seek f from w2) as [[err|] w3] eqn:E3; [by eexists _, _|].
  pose proof (Seek_handle _ _ _ _ _ _ Hh2 E3) as Hh3. cbn in T3.
  destruct (clock w3) as [t w4] eqn:E4. pose proof (clock_time _ _ _ E4) as T4.
  pose proof (handle_clock _ _ _ _ Hh3) as Hh4. rewrite E4 in Hh4. cbn in Hh4.
  destruct (read_chunks_returns fuel chunk f d (Z.quot (d - t) 2) [] w4) as (r & w5 & Er).
  { assert (Z.min (d - t) 0 <= Z.quot (d - t) 2) by (Z.quot_rem_to_equations; lia). lia. }
  rewrite Er. destruct r as [buf|err]; [|by eexists _, _].
  eexists _, _. split; [reflexivity|]. intros data next [= <- <-].
  apply (read_chunks_ok _ _ _ _ _ (Z.to_nat from) _ (Z.to_nat from) c2) in Er as (c5 & i5 & Hp5 & Hi & Hb & Hf); [|done|].
  - exists c, c5. split_and!; [done|by etrans| |by left].
    rewrite Hb at 1. f_equal. rewrite Hb, length_take, length_drop. lia.
  - split; [lia|]. split; [|lia]. by rewrite Nat.sub_diag.
Qed.

(** Reading a file from an offset is exact and always ends.  With a
    deadline the read returns, however fast the file grows meanwhile.  When it
    succeeds, the data are the bytes of the file from the offset on, possibly
    not yet all of them, and the next offset is the one after them; only for
    an offset beyond the end it is the size of the file. *)
Theorem range_reads_are_exact (fuel : nat) (ctx : Ctx) (p : bytes) (from d : Z) (s : FsState W) :
  ctx_Deadline ctx = Some d → 0 <= from → (Z.to_nat (d - os_now s.2) + 2 <= fuel)%nat →
  ∃ r s', ReadFileRange fuel ctx p from s = (Some r, s') ∧ ∀ data next, r = ((data, next), None) →
    ∃ c c', content_at s.2 p = Some c ∧ c `prefix_of` c' ∧ data = take (length data) (drop (Z.to_nat from) c') ∧
      (next = from + Z.of_nat (length data) ∨ data = [] ∧ next = Z.of_nat (length c') ∧ next <= from).
Proof.
  intros Hd H0f Hfuel. cbn [ReadFileRange default_filesystem].
  unfold fs_ReadFileRange, checkContext. unfold mbind at 1, St_bind at 1, onW at 1, ctx_Err.
  destruct (clock s.2) as [t1 w1] eqn:E1. pose proof (clock_time _ _ _ E1) as T1. cbn [fst snd].
  destruct (ctx_Err_at ctx t1); [by eexists _, _|].
  destruct (read_range_ok fuel S6FileReadChunkSize ctx p from w1 d Hd H0f) as (r & w2 & Er & Hr); [lia|].
  unfold mbind, St_bind, await, onW. cbn [fst snd]. rewrite Er.
  pose proof (clock_content s.2 p) as Hc. rewrite E1 in Hc. cbn in Hc. rewrite Hc in Hr.
  destruct (ctx_Err ctx w2) as [[err|] w3]; [|by eexists r, _].
  destruct (randw w3) as [k w4]. destruct (Z.even k); cbn; [by eexists r, _|by eexists _, _].
Qed.
End ranges.

(** ** The theorems on a concrete system *)

Definition demo_file : bytes := lit "/data/config.yaml".

Definition demo_os : MemOS :=
  mkMemOS 0 (<[[lit "data"] := Directory]> (<[[lit "data"; lit "config.yaml"] := File (lit "abc") 7]> ∅)) ∅ [].

Definition demo_ctx : Ctx := mkCtx (Some 1000) None.

(** After one call about [demo_file]. *)
Definition demo_after (c : Call) : FsState MemOS := perform c (NewDefaultService, demo_os).

Lemma existence_is_fresh_witness :
  let s := demo_after (CPathExists demo_ctx demo_file) in
  let s' := (PathExists demo_ctx demo_file s).2 in
  rtc fs_step (NewDefaultService, demo_os) s ∧ (PathExists demo_ctx demo_file s).1 = (true, None) ∧
  ∃ s1 q, rtc fs_step (NewDefaultService, demo_os) s1 ∧ rtc fs_step s1 s' ∧ Clean q = Clean demo_file ∧
    is_Some (stat_at s1.2 q) ∧ os_now s.2 < os_now s1.2 + FilesystemCacheTTL.
Proof.
  assert (rtc fs_step (NewDefaultService, demo_os) (demo_after (CPathExists demo_ctx demo_file))) as Hr.
  { apply rtc_once. constructor. }
  split; [exact Hr|]. split; [vm_compute; reflexivity|].
  apply (existence_is_fresh demo_os (demo_after (CPathExists demo_ctx demo_file)) _ demo_ctx demo_file Hr).
  vm_compute. reflexivity.
Defined.

(** The one file and its stamp. *)
Definition demo_version (key : bytes) (t : Time) (n : Z) : option bytes :=
  if (t =? 7) && (n =? 3) then Some (lit "abc") else None.

Lemma demo_stamped (w : MemOS) : tree w = tree demo_os → stamped demo_version w.
Proof.
  intros Ht p fi. cbn [stat_at content_at mem_laws]. unfold mem_stat, mem_content, look. rewrite Ht.
  destruct (walk _ _ _ _) as [[q f]|]; [|done]. unfold node_at. destruct q as [|c q]; [by intros [= <-]|].
  destruct (tree demo_os !! (c :: q)) as [n|] eqn:E; [|done].
  assert (n = Directory ∨ n = File (lit "abc") 7) as [-> | ->]; [|by intros [= <-]..].
  revert E. cbn [tree demo_os]. rewrite !lookup_insert_Some, lookup_empty. naive_solver.
Qed.

Lemma cached_reads_are_current_witness :
  let s := demo_after (CReadFile demo_ctx demo_file) in
  fileCache s.1 !! demo_file = Some (mkCachedFile (lit "abc") 7 3 2) ∧
  content_at s.2 demo_file = Some (lit "abc").
Proof.
  split; [vm_compute; reflexivity|].
  apply (cached_reads_are_current demo_version demo_os (demo_after (CReadFile demo_ctx demo_file))
    (ReadFile demo_ctx demo_file (demo_after (CReadFile demo_ctx demo_file))).2 demo_ctx demo_file).
  - apply rtc_once. constructor. by apply demo_stamped.
  - apply demo_stamped. vm_compute. reflexivity.
  - vm_compute. reflexivity.
Defined.

Lemma range_reads_are_exact_witness :
  ∃ r s', ReadFileRange 2000 demo_ctx demo_file 1 (NewDefaultService, demo_os) = (Some r, s') ∧ ∀ data next, r = ((data, next), None) →
    ∃ c c', content_at demo_os demo_file = Some c ∧ c `prefix_of` c' ∧ data = take (length data) (drop 1 c') ∧
      (next = 1 + Z.of_nat (length data) ∨ data = [] ∧ next = Z.of_nat (length c') ∧ next <= 1).
Proof.
  apply (range_reads_are_exact 2000 demo_ctx demo_file 1 1000 (NewDefaultService, demo_os)); [reflexivity|lia|].
  cbn. lia.
Defined.

(** A file rewritten in place with as many bytes within one tick of the file
    system's clock is still answered from the cache. *)
Theorem same_stamp_is_stale :
  let s := demo_after (CReadFile demo_ctx demo_file) in
  let w := set_tree (<[[lit "data"; lit "config.yaml"] := File (lit "xyz") 7]> (tree s.2)) s.2 in
  content_at w demo_file = Some (lit "xyz") ∧
  (ReadFile demo_ctx demo_file (s.1, w)).1 = (lit "abc", None).
Proof. split; vm_compute; reflexivity. Qed.
