(* ===== verification/FileTrace.v ===== *)
(** * FileTrace: a file system service that records its calls

    For any implementation of [Service], the service that does the same and
    keeps a list of the calls with whether they failed.  Theorems about which
    calls a client makes, in which order, and about clients that fail only
    when a call failed, are stated over it.  It models no code of the
    repository. *)

From S2P Require Import Prelude StateMonad GoRuntime GoBytes FileSystem.

Record CallEvent := mkEvent { ev_call : Call; ev_failed : bool }.

Definition failed_one (e : option GoErr) : bool := match e with Some _ => true | None => false end.

Section traced.
Context {S : Type} `{World S} `{Service S}.

Definition TState : Type := S * list CallEvent.

Definition record {A} (c : Call) (m : St S A) (bad : A → bool) : St TState A := λ s,
  let (a, w) := m s.1 in (a, (w, s.2 ++ [mkEvent c (bad a)])).
Definition silently {A} (m : St S A) : St TState A := λ s, let (a, w) := m s.1 in (a, (w, s.2)).

#[export] Instance traced_world : World TState := {
  clock := silently clock;
  randw := silently randw;
}.

#[export] Instance traced : Service TState := {
  EnsureDirectory ctx p := record (CEnsureDirectory ctx p) (EnsureDirectory ctx p) failed_one;
  ReadFile ctx p := record (CReadFile ctx p) (ReadFile ctx p) (λ r, failed_one r.2);
  ReadFileRange n ctx p off := silently (ReadFileRange n ctx p off);
  WriteFile ctx p d m := record (CWriteFile ctx p d m) (WriteFile ctx p d m) failed_one;
  PathExists ctx p := record (CPathExists ctx p) (PathExists ctx p) (λ r, failed_one r.2);
  FileExists ctx p := record (CFileExists ctx p) (FileExists ctx p) (λ r, failed_one r.2);
  Remove ctx p := record (CRemove ctx p) (Remove ctx p) failed_one;
  RemoveAll ctx p := record (CRemoveAll ctx p) (RemoveAll ctx p) failed_one;
  Stat ctx p := silently (Stat ctx p);
  Chmod ctx p m := silently (Chmod ctx p m);
  ReadDir ctx p := record (CReadDir ctx p) (ReadDir ctx p) (λ r, failed_one r.2);
  ExecuteCommand ctx n args := record (CExecuteCommand ctx n args) (ExecuteCommand ctx n args) (λ r, failed_one r.2);
  Chown ctx p u g := silently (Chown ctx p u g);
  Glob ctx p := silently (Glob ctx p);
  Rename ctx p q := record (CRename ctx p q) (Rename ctx p q) failed_one;
  Symlink ctx t l := record (CSymlink ctx t l) (Symlink ctx t l) failed_one;
}.
End traced.

Arguments TState S : clear implicits.

(** A computation that only adds events satisfying [P]. *)
Definition adds {S A} (P : CallEvent → Prop) (m : St (TState S) A) : Prop :=
  ∀ s, ∃ l, (m s).2.2 = s.2 ++ l ∧ Forall P l.

Lemma adds_ret {S A} P (a : A) : adds (S:=S) P (mret a).
Proof. intros s. exists []. by rewrite app_nil_r. Qed.

Lemma adds_bind {S A B} P (m : St (TState S) A) (f : A → St (TState S) B) :
  adds P m → (∀ a, adds P (f a)) → adds P (m ≫= f).
Proof.
  intros Hm Hf s. destruct (Hm s) as (l & Hl & HP). unfold mbind, St_bind.
  destruct (m s) as [a s1]. destruct (Hf a s1) as (l' & Hl' & HP'). cbn in *.
  exists (l ++ l'). rewrite Hl', Hl, app_assoc. split; [done|]. by apply Forall_app.
Qed.

Lemma adds_record {S A} (P : CallEvent → Prop) c (m : St S A) bad : (∀ b, P (mkEvent c b)) → adds P (record c m bad).
Proof. intros HP s. unfold record. destruct (m s.1). eexists. split; [done|]. by constructor. Qed.

Lemma adds_silently {S A} P (m : St S A) : adds P (silently m).
Proof. intros s. unfold silently. destruct (m s.1). exists []. cbn. by rewrite app_nil_r. Qed.

(** Some call failed. *)
Definition some_failed (l : list CallEvent) : Prop := Exists (λ e, ev_failed e = true) l.

Section traced_laws.
Context {S : Type} `{ServiceLaws S}.

#[local] Obligation Tactic := idtac.

#[export] Program Instance traced_laws : ServiceLaws (TState S) := {|
  present s p := present s.1 p;
  sane s := sane s.1;
|}.
Next Obligation.
  intros c s Hs. pose proof (perform_sane c s.1 Hs) as Hp.
  destruct c; cbn [perform EnsureDirectory ReadFile WriteFile PathExists FileExists Remove RemoveAll ReadDir
    ExecuteCommand Rename Symlink traced] in *; unfold record;
    match goal with |- context [let (_, _) := ?x in _] => destruct x end; done.
Qed.
Next Obligation.
  intros s Hs. pose proof (svc_clock_sane s.1 Hs) as Hc. cbn [clock traced_world]. unfold silently. by destruct (clock s.1).
Qed.
Next Obligation.
  intros q s. pose proof (svc_clock_same q s.1) as Hc. cbn [clock traced_world]. unfold silently. by destruct (clock s.1).
Qed.
Next Obligation.
  intros ctx p s s' Hs. cbn [PathExists traced]. unfold record. destruct (PathExists ctx p s.1) eqn:E.
  intros [= -> <-]. by apply (PathExists_no _ _ _ _ Hs E).
Qed.
Next Obligation.
  intros ctx p q s. pose proof (PathExists_same ctx p q s.1) as Hq. cbn [PathExists traced]. unfold record.
  by destruct (PathExists ctx p s.1).
Qed.
Next Obligation.
  intros ctx p s s' Hs. cbn [FileExists traced]. unfold record. destruct (FileExists ctx p s.1) eqn:E.
  intros [= -> <-]. by apply (FileExists_no _ _ _ _ Hs E).
Qed.
Next Obligation.
  intros ctx p q s. pose proof (FileExists_same ctx p q s.1) as Hq. cbn [FileExists traced]. unfold record.
  by destruct (FileExists ctx p s.1).
Qed.
Next Obligation.
  intros ctx p q s. pose proof (ReadDir_adds ctx p q s.1) as Hq. cbn [ReadDir traced]. unfold record.
  by destruct (ReadDir ctx p s.1).
Qed.
Next Obligation.
  intros ctx p s s'. cbn [RemoveAll traced]. unfold record. destruct (RemoveAll ctx p s.1) eqn:E.
  intros [= -> <-]. by apply (svc_RemoveAll_gone _ _ _ _ E).
Qed.
Next Obligation.
  intros ctx p q s. pose proof (svc_RemoveAll_adds ctx p q s.1) as Hq. cbn [RemoveAll traced]. unfold record.
  by destruct (RemoveAll ctx p s.1).
Qed.
Next Obligation.
  intros ctx p d m s s'. cbn [WriteFile traced]. unfold record. destruct (WriteFile ctx p d m s.1) eqn:E.
  intros [= -> <-]. by apply (svc_WriteFile_there _ _ _ _ _ _ E).
Qed.
Next Obligation.
  intros ctx p d m q s. pose proof (svc_WriteFile_grows ctx p d m q s.1) as Hq. cbn [WriteFile traced]. unfold record.
  by destruct (WriteFile ctx p d m s.1).
Qed.
Next Obligation.
  intros ctx p s s'. cbn [EnsureDirectory traced]. unfold record. destruct (EnsureDirectory ctx p s.1) eqn:E.
  intros [= -> <-]. by apply (EnsureDirectory_there _ _ _ _ E).
Qed.
Next Obligation.
  intros ctx p q s. pose proof (EnsureDirectory_grows ctx p q s.1) as Hq. cbn [EnsureDirectory traced]. unfold record.
  by destruct (EnsureDirectory ctx p s.1).
Qed.
Next Obligation.
  intros ctx t l s s'. cbn [Symlink traced]. unfold record. destruct (Symlink ctx t l s.1) eqn:E.
  intros [= -> <-]. by apply (svc_Symlink_there _ _ _ _ _ E).
Qed.
Next Obligation.
  intros ctx t l q s. pose proof (svc_Symlink_grows ctx t l q s.1) as Hq. cbn [Symlink traced]. unfold record.
  by destruct (Symlink ctx t l s.1).
Qed.
Next Obligation.
  intros ctx args q s. pose proof (svc_svscanctl_grows ctx args q s.1) as Hq. cbn [ExecuteCommand traced]. unfold record.
  by destruct (ExecuteCommand ctx _ args s.1).
Qed.
End traced_laws.
