(* ===== verification/S6Config.v ===== *)
(** * S6Config: the files of an S6 service and what is read back from them

    Models [pkg/service/s6/run_script.go], the configuration type of
    [pkg/config/s6serviceconfig], and [GetConfig] with [parseCommandLine] of
    [pkg/service/s6/s6.go]: the run scripts are rendered from a configuration,
    and a configuration is recovered from their text with regular
    expressions. *)

From stdpp Require Import sorting.
From S2P Require Import Prelude StateMonad GoRuntime GoBytes GoRegexp FileSystem S6Logs.
From Stdlib Require Import Ascii.
Local Open Scope Z_scope.

(** ** The configuration *)

(** A nil slice or map is [None]: [reflect.DeepEqual] tells it from an empty one. *)
Record S6ServiceConfig := mkS6Config {
  Env : option (gmap bytes bytes);
  ConfigFiles : option (gmap bytes bytes);
  Command : option (list bytes);
  MemoryLimit : Z;
  LogFilesize : Z }.

#[export] Instance S6ServiceConfig_eq_dec : EqDecision S6ServiceConfig.
Proof. solve_decision. Defined.

Definition Equal (c other : S6ServiceConfig) : bool := bool_decide (c = other).

(** The zero value. *)
Definition emptyConfig : S6ServiceConfig := mkS6Config None None None 0 0.

(** ** run_script.go *)

Definition DefaultLogArchiveCount : Z := 20.

(** A template ranges over a map in the order of its keys. *)
Definition key_le (x y : bytes * bytes) : Prop := bytes_ltb y.1 x.1 = false.
#[export] Instance key_le_dec x y : Decision (key_le x y).
Proof. unfold key_le. apply _. Defined.

Definition sorted_entries (m : option (gmap bytes bytes)) : list (bytes * bytes) :=
  merge_sort key_le (map_to_list (default ∅ m)).

Definition export_line (kv : bytes * bytes) : bytes := lit "export " ++ kv.1 ++ lit " " ++ kv.2.
Definition softlimit_line (n : Z) : bytes := lit "s6-softlimit -m " ++ itoa n.
Definition svwait_line (servicePath : bytes) : bytes :=
  lit "foreground { s6-svwait -u " ++ servicePath ++ lit "/log }".

(** [runScriptTemplate], executed; every line ends in a line break. *)
Definition script_lines (env : option (gmap bytes bytes)) (memoryLimit : Z) (servicePath : bytes) : list bytes :=
  [lit "#!/command/execlineb -P"] ++ (export_line <$> sorted_entries env) ++
  [lit "# Memory limit"; lit "# -m for total memory"] ++
  (if memoryLimit =? 0 then [] else [softlimit_line memoryLimit]) ++
  [[]; lit "# Wait for log service to be up before starting to prevent race condition";
   lit "# Run s6-svwait as root since it needs access to supervise/control pipe";
   svwait_line servicePath; [];
   lit "# No privilege drop needed - service inherits non-root UID from container USER directive"; [];
   lit "# Keep stderr and stdout separate but both visible in logs"].

Definition fdmove : bytes := lit "fdmove -c 2 1".

Definition run_script (command : list bytes) (env : option (gmap bytes bytes)) (memoryLimit : Z)
    (servicePath : bytes) : bytes :=
  unlines (script_lines env memoryLimit servicePath ++ [fdmove ++ lit " "; join_with (lit " ") command]).

Definition getLogRunScript (config : S6ServiceConfig) (logDir : bytes) : bytes :=
  unlines [lit "#!/command/execlineb -P"; fdmove; lit "foreground { mkdir -p " ++ logDir ++ lit " }"; []] ++
  (if 0 <? LogFilesize config
   then lit "s6-log n" ++ itoa DefaultLogArchiveCount ++ lit " s" ++ itoa (LogFilesize config) ++ lit " T " ++ logDir
   else lit "s6-log n" ++ itoa DefaultLogArchiveCount ++ lit " T " ++ logDir).

(** [(?m)fdmove -c 2 1(?:\s+(.+)|$)], [export\s+(\w+)\s+(.+)],
    [s6-log\s+n\d+\s+s(\d+)\s+T\s+\S+] and [s6-softlimit -m\s+(\d+)]. *)
Definition runScriptParser : rx := RSeq (RLit fdmove) (RAlt (RSeq (RPlus re_space) (RCap re_dot)) (RSeq REol RUnset)).
Definition envVarParser : rx :=
  rseq [RLit (lit "export"); RPlus re_space; RCap re_word; RPlus re_space; RCap re_dot].
Definition logFilesizeParser : rx :=
  rseq [RLit (lit "s6-log"); RPlus re_space; RLit (lit "n"); RPlus re_digit; RPlus re_space; RLit (lit "s");
        RCap re_digit; RPlus re_space; RLit (lit "T"); RPlus re_space; RPlus re_not_space].
Definition memoryLimitParser : rx := rseq [RLit (lit "s6-softlimit -m"); RPlus re_space; RCap re_digit].

(** ** parseCommandLine *)

Record CmdState := mkCmd {
  cmdParts : list bytes; currentPart : bytes; inQuote : bool; quoteChar : ascii; escaped : bool }.

Definition backslash : ascii := "\"%char.
Definition dquote : ascii := ascii_of_nat 34.
Definition squote : ascii := "'"%char.
Definition blank : ascii := " "%char.
Definition nul : ascii := "000"%char.

(** One byte of the command line. *)
Definition cmd_step (st : CmdState) (c : ascii) : CmdState :=
  let '(mkCmd parts cur q qc esc) := st in
  if bool_decide (c = backslash) && negb esc then mkCmd parts cur q qc true
  else if (bool_decide (c = dquote) || bool_decide (c = squote)) && negb esc then
    if q && bool_decide (c = qc) then mkCmd parts cur false nul esc
    else if negb q then mkCmd parts cur true c esc
    else mkCmd parts (cur ++ [c]) q qc esc
  else if esc then mkCmd parts (cur ++ [c]) q qc false
  else if bool_decide (c = blank) && negb q then
    match cur with [] => st | _ => mkCmd (parts ++ [cur]) [] q qc esc end
  else mkCmd parts (cur ++ [c]) q qc esc.

(** The parts, or the error of an open quote; no parts are a nil slice. *)
Definition parseCommandLine (cmdLine : bytes) : option (list bytes) * option GoErr :=
  let st := foldl cmd_step (mkCmd [] [] false nul false) cmdLine in
  if inQuote st then (None, Some (ENew "unclosed quote"))
  else
    let parts := match currentPart st with [] => cmdParts st | cur => cmdParts st ++ [cur] end in
    (match parts with [] => None | _ => Some parts end, None).

(** ** GetConfig *)

Definition is_quote (a : ascii) : bool := bool_decide (a = dquote) || bool_decide (a = squote).

Fixpoint drop_while (p : ascii → bool) (s : bytes) : bytes :=
  match s with [] => [] | a :: s' => if p a then drop_while p s' else s end.

(** [strings.Trim] of quotes of either kind. *)
Definition trim_quotes (s : bytes) : bytes := rev (drop_while is_quote (rev (drop_while is_quote s))).

(** The variables, in the order of the script; a later one replaces an earlier one. *)
Definition script_env (script : bytes) : gmap bytes bytes :=
  foldl (λ m g, match g with
                | [key; value] => <[key := trim_quotes (TrimSpace value)]> m
                | _ => m
                end) ∅ (FindAllStringSubmatch envVarParser script).

(** The first line after [i] that is not blank. *)
Definition next_line (lines : list bytes) : bytes :=
  match filter (λ l, l ≠ []) (TrimSpace <$> lines) with l :: _ => l | [] => [] end.

(** The command on or after a line that starts with fdmove. *)
Fixpoint fdmove_command (lines : list bytes) : bytes :=
  match lines with
  | [] => []
  | line0 :: rest =>
      let line := TrimSpace line0 in
      if is_prefix (lit "fdmove") line then
        let same :=
          if Contains line (lit " ") && bool_decide (last line ≠ Some blank) then
            match Index line fdmove with
            | Some i => TrimSpace (drop (i + length fdmove) line)
            | None => []
            end
          else [] in
        match same with
        | _ :: _ => same
        | [] => match next_line rest with [] => fdmove_command rest | cmd => cmd end
        end
      else fdmove_command rest
  end.

Definition pathParser : rx := RSeq (RLit (lit "/")) (RCap re_not_space).

Definition parse_failed (e : GoErr) : GoErr := EWrap "failed to parse command: " e.

(** The last resort: the first thing in the script that looks like a path. *)
Definition path_command (script : bytes) : option (list bytes) * option GoErr :=
  match FindStringSubmatch pathParser script with
  | Some [rest] =>
      let cmd := lit "/" ++ rest in
      match Index script cmd with
      | None => (Some [cmd], None)
      | Some i =>
          match TrimSpace (drop (i + length cmd) script) with
          | [] => (Some [cmd], None)
          | argPart =>
              match parseCommandLine argPart with
              | (args, None) => (Some (cmd :: default [] args), None)
              | (_, Some e) => (None, Some (parse_failed e))
              end
          end
      end
  | _ => (None, Some (ENew "failed to parse run script: no valid command found"))
  end.

Definition parse_command (line : bytes) : option (list bytes) * option GoErr :=
  match parseCommandLine line with
  | (args, None) => (args, None)
  | (_, Some e) => (None, Some (parse_failed e))
  end.

Definition script_command (script : bytes) : option (list bytes) * option GoErr :=
  match FindStringSubmatch runScriptParser script with
  | Some [a :: cmd] => parse_command (TrimSpace (a :: cmd))
  | _ =>
      match fdmove_command (split_on nl script) with
      | [] => path_command script
      | line => parse_command line
      end
  end.

(** The error of [strconv.ParseInt]. *)
Definition int_error (what : string) : GoErr := EWrap what (ENew "strconv.ParseInt: value out of range").

Definition script_memory (script : bytes) : Z * option GoErr :=
  match FindStringSubmatch memoryLimitParser script with
  | Some [a :: ds] => match ParseInt (a :: ds) 10 with
                      | Some n => (n, None)
                      | None => (0, Some (int_error "failed to parse memory limit: "))
                      end
  | _ => (0, None)
  end.

Definition script_logsize (script : bytes) : Z * option GoErr :=
  match FindStringSubmatch logFilesizeParser script with
  | Some [ds] => match ParseInt ds 10 with
                 | Some n => (n, None)
                 | None => (0, Some (int_error "failed to parse log filesize: "))
                 end
  | _ => (0, None)
  end.

Definition ErrServiceNotExist : GoErr := S6Logs.ErrServiceNotExist.

Section get_config.
Context {S : Type} `{Service S}.

Definition ServiceExists (ctx : Ctx) (servicePath : bytes) : St S (bool * option GoErr) :=
  r ← PathExists ctx servicePath;
  match r with
  | (_, Some err) => mret (false, Some (EWrap "failed to check if S6 service exists: " err))
  | (exists_, None) => mret (exists_, None)
  end.

Definition failed {A} (a : A) (what : string) (e : GoErr) : St S (A * option GoErr) := mret (a, Some (EWrap what e)).

(** The files of the config directory, those that are directories left out. *)
Fixpoint read_config_files (ctx : Ctx) (configPath : bytes) (es : list DirEntry) (files : gmap bytes bytes)
    : St S (gmap bytes bytes * option GoErr) :=
  match es with
  | [] => mret (files, None)
  | e :: es =>
      if IsDir e then read_config_files ctx configPath es files
      else
        r ← ReadFile ctx (Join [configPath; Name e]);
        match r with
        | (_, Some err) => failed files ("failed to read config file " +:+ str (Name e) +:+ ": ") err
        | (content, None) => read_config_files ctx configPath es (<[Name e := content]> files)
        end
  end.

(** The part about the log script. *)
Definition read_log_size (ctx : Ctx) (servicePath : bytes) : St S (Z * option GoErr) :=
  let logScript := Join [Join [servicePath; lit "log"]; lit "run"] in
  x ← FileExists ctx logScript;
  match x with
  | (_, Some err) => failed 0 "failed to check if log run§ script exists: " err
  | (false, None) => mret (0, Some (ENew "log run script not found"))
  | (true, None) =>
      r ← ReadFile ctx logScript;
      match r with
      | (_, Some err) => failed 0 "failed to read log run script: " err
      | (content, None) => mret (script_logsize content)
      end
  end.

(** The files besides the run script, for what the run script said. *)
Definition read_the_rest (ctx : Ctx) (servicePath : bytes) (env : gmap bytes bytes) (command : option (list bytes))
    (memory : Z) : St S (S6ServiceConfig * option GoErr) :=
  let configPath := Join [servicePath; lit "config"] in
  x ← FileExists ctx configPath;
  match x with
  | (_, Some err) => failed emptyConfig "failed to check if config directory exists: " err
  | (false, None) => mret (mkS6Config (Some env) (Some ∅) command memory 0, None)
  | (true, None) =>
      d ← ReadDir ctx configPath;
      match d with
      | (_, Some err) => failed emptyConfig "failed to read config directory: " err
      | (es, None) =>
          f ← read_config_files ctx configPath es ∅;
          match f with
          | (_, Some err) => mret (emptyConfig, Some err)
          | (files, None) =>
              l ← read_log_size ctx servicePath;
              match l with
              | (_, Some err) => mret (emptyConfig, Some err)
              | (logsize, None) => mret (mkS6Config (Some env) (Some files) command memory logsize, None)
              end
          end
      end
  end.

Definition GetConfig (ctx : Ctx) (servicePath : bytes) : St S (S6ServiceConfig * option GoErr) :=
  x ← ServiceExists ctx servicePath;
  match x with
  | (_, Some err) => failed emptyConfig "failed to check if service exists: " err
  | (false, None) => mret (emptyConfig, Some ErrServiceNotExist)
  | (true, None) =>
      let runScript := Join [servicePath; lit "run"] in
      x ← FileExists ctx runScript;
      match x with
      | (_, Some err) => failed emptyConfig "failed to check if run script exists: " err
      | (false, None) => mret (emptyConfig, Some (ENew "run script not found"))
      | (true, None) =>
          r ← ReadFile ctx runScript;
          match r with
          | (_, Some err) => failed emptyConfig "failed to read run script: " err
          | (script, None) =>
              match script_command script, script_memory script with
              | (_, Some err), _ => mret (emptyConfig, Some err)
              | (_, None), (_, Some err) => mret (emptyConfig, Some err)
              | (command, None), (memory, None) => read_the_rest ctx servicePath (script_env script) command memory
              end
          end
      end
  end.

(** [GetS6ConfigFile]: one file of the config directory. *)
Definition GetS6ConfigFile (ctx : Ctx) (ctx_err : option GoErr) (servicePath configFileName : bytes)
    : St S (bytes * option GoErr) :=
  match ctx_err with
  | Some err => mret ([], Some err)
  | None =>
      x ← ServiceExists ctx servicePath;
      match x with
      | (_, Some err) => failed [] "failed to check if service exists: " err
      | (false, None) => mret ([], Some ErrServiceNotExist)
      | (true, None) =>
          let configPath := Join [servicePath; lit "config"; configFileName] in
          x ← FileExists ctx configPath;
          match x with
          | (_, Some err) => failed [] "failed to check if config file exists: " err
          | (false, None) =>
              mret ([], Some (ENew ("config file " +:+ str configFileName +:+ " does not exist in service directory " +:+ str servicePath)))
          | (true, None) =>
              r ← ReadFile ctx configPath;
              match r with
              | (_, Some err) => failed [] ("error reading config file " +:+ str configFileName +:+ " in service directory " +:+ str servicePath +:+ ": ") err
              | (content, None) => mret (content, None)
              end
          end
      end
  end.
End get_config.

(** ** The scripts read back *)

Lemma existsb_false {A : Type} (f : A → bool) l x : negb (existsb f l) = true → x ∈ l → f x = false.
Proof.
  intros H. apply negb_true_iff in H. induction l as [|y l IH]; [set_solver|].
  simpl in H. apply orb_false_iff in H as [Hy Hl]. intros [->|Hx]%elem_of_cons; auto.
Qed.

Lemma spaces_nonempty p : p ∈ spaces → p ≠ [].
Proof. revert p. apply Forall_forall. apply (bool_decide_unpack _). vm_compute. exact I. Qed.

Lemma solid_starts_no_space a p : solid a = true → p ∈ spaces → ∃ b q, p = b :: q ∧ a ≠ b.
Proof.
  intros [Ha _]%andb_prop Hp. pose proof (spaces_nonempty _ Hp). pose proof (existsb_false _ _ _ Ha Hp) as Hf.
  destruct p as [|b q]; [done|]. exists b, q. split; [done|]. by apply bool_decide_eq_false in Hf.
Qed.

Lemma solid_ends_no_space a p : solid a = true → p ∈ (@rev ascii) <$> spaces → ∃ b q, p = b :: q ∧ a ≠ b.
Proof.
  intros [_ Ha]%andb_prop (p' & -> & Hp)%list_elem_of_fmap. pose proof (spaces_nonempty _ Hp).
  pose proof (existsb_false _ _ _ Ha Hp) as Hf. destruct p' as [|b q _] using rev_ind; [done|].
  rewrite rev_app_distr. exists b, (rev q). split; [done|]. rewrite last_snoc in Hf. by apply bool_decide_eq_false in Hf.
Qed.

(** Text that starts and ends with solid bytes. *)
Definition trimmed (s : bytes) : Prop :=
  (∃ a s', s = a :: s' ∧ solid a = true) ∧ (∃ s' b, s = s' ++ [b] ∧ solid b = true).

Lemma TrimSpace_trimmed s : trimmed s → TrimSpace s = s.
Proof.
  intros [(a & s1 & E1 & Ha) (s2 & b & E2 & Hb)]. unfold TrimSpace.
  assert (TrimLeftSpace s = s) as ->.
  { unfold TrimLeftSpace. rewrite E1. apply trim_with_stop. intros p. by apply solid_starts_no_space. }
  unfold TrimRightSpace. rewrite E2, rev_app_distr. cbn [rev app].
  rewrite trim_with_stop; [simpl; by rewrite rev_involutive|]. intros p. by apply solid_ends_no_space.
Qed.

Lemma solid_not_re_space a : solid a = true → re_space a = false.
Proof.
  intros Ha. unfold re_space. destruct (existsb _ _) eqn:E; [|done]. apply existsb_exists in E as (n & Hn & En).
  apply bool_decide_eq_true in En. subst a. exfalso. revert n Hn Ha. 
  assert (Forall (λ n, solid (ascii_of_nat n) ≠ true) [9; 10; 12; 13; 32]%nat) as H.
  { apply (bool_decide_unpack _). vm_compute. exact I. }
  intros n Hn%list_elem_of_In. by apply (proj1 (Forall_forall _ _) H).
Qed.

(** ** Words of a command line *)

(** Bytes that [parseCommandLine] keeps as they are. *)
Definition plain (a : ascii) : Prop := a ≠ backslash ∧ a ≠ dquote ∧ a ≠ squote ∧ a ≠ blank ∧ a ≠ nl.

Lemma cmd_plain parts cur a : plain a → cmd_step (mkCmd parts cur false nul false) a = mkCmd parts (cur ++ [a]) false nul false.
Proof. intros (? & ? & ? & ? & ?). unfold cmd_step.
  rewrite (bool_decide_false (a = backslash)), (bool_decide_false (a = dquote)), (bool_decide_false (a = squote)),
    (bool_decide_false (a = blank)) by done. done.
Qed.

Lemma cmd_word parts cur w : Forall plain w →
  foldl cmd_step (mkCmd parts cur false nul false) w = mkCmd parts (cur ++ w) false nul false.
Proof.
  intros Hw. revert cur. induction Hw as [|a w Ha Hw IH]; intros cur; cbn [foldl]; [by rewrite app_nil_r|].
  rewrite cmd_plain by done. rewrite IH, <- app_assoc. done.
Qed.

Definition word (w : bytes) : Prop := w ≠ [] ∧ Forall plain w.

Lemma cmd_words parts ws w : word w → Forall word ws →
  foldl cmd_step (mkCmd parts [] false nul false) (join_with (lit " ") (w :: ws)) =
  mkCmd (parts ++ removelast (w :: ws)) (List.last (w :: ws) []) false nul false.
Proof.
  intros Hw Hws. revert parts w Hw. induction Hws as [|v ws Hv Hws IH]; intros parts w [Hne Hw].
  - simpl. rewrite cmd_word by done. by rewrite app_nil_r.
  - change (join_with (lit " ") (w :: v :: ws)) with (w ++ blank :: join_with (lit " ") (v :: ws)).
    rewrite foldl_app, cmd_word by done. cbn [foldl app].
    assert (cmd_step (mkCmd parts w false nul false) blank = mkCmd (parts ++ [w]) [] false nul false) as ->.
    { destruct w; [done|]. reflexivity. }
    rewrite IH by done. rewrite <- app_assoc. done.
Qed.

Lemma parse_words w ws : word w → Forall word ws →
  parseCommandLine (join_with (lit " ") (w :: ws)) = (Some (w :: ws), None).
Proof.
  intros Hw Hws. unfold parseCommandLine. rewrite cmd_words by done. cbn [inQuote currentPart cmdParts app].
  assert (∃ a l, List.last (w :: ws) [] = a :: l) as (a & l & El).
  { assert (List.last (w :: ws) [] ∈ w :: ws) as Hl.
    { apply list_elem_of_In. destruct (exists_last (l := w :: ws) ltac:(done)) as (l & x & ->).
      rewrite last_last. apply in_or_app. right. by left. }
    assert (Forall word (w :: ws)) as Hall by by constructor.
    destruct (proj1 (Forall_forall _ _) Hall _ Hl) as [Hne _]. destruct (List.last (w :: ws) []); [done|eauto]. }
  pose proof (app_removelast_last (l := w :: ws) [] ltac:(done)) as Happ. rewrite El in Happ |- *.
  rewrite <- Happ. done.
Qed.

(** ** Variables *)

Definition value_ok (v : bytes) : Prop :=
  trimmed v ∧ (nl ∉ v) ∧ (∀ a, hd_error v = Some a → is_quote a = false) ∧ (∀ a, last v = Some a → is_quote a = false).

Definition key_ok (k : bytes) : Prop := k ≠ [] ∧ Forall (λ a, re_word a = true) k.

Lemma drop_while_stop p s : (∀ a, hd_error s = Some a → p a = false) → drop_while p s = s.
Proof. destruct s as [|a s]; [done|]. intros H. simpl. by rewrite H. Qed.

Lemma trim_quotes_ok v : value_ok v → trim_quotes v = v.
Proof.
  intros (_ & _ & Hh & Hl). unfold trim_quotes. rewrite (drop_while_stop _ v Hh).
  rewrite drop_while_stop; [apply rev_involutive|]. intros a Ha. apply Hl.
  destruct v as [|b v _] using rev_ind; [done|]. rewrite last_snoc. by rewrite rev_app_distr in Ha.
Qed.

Lemma word_not_space a : re_word a = true → re_space a = false.
Proof.
  assert (∀ n, (n < 256)%nat → re_word (ascii_of_nat n) = true → re_space (ascii_of_nat n) = false) as H.
  { intros n Hn. assert (n ∈ seq 0 256) as Hs by (apply elem_of_seq; lia). clear Hn. revert n Hs.
    apply (proj1 (Forall_forall (λ n, re_word (ascii_of_nat n) = true → re_space (ascii_of_nat n) = false) _)).
    apply (bool_decide_unpack _). vm_compute. exact I. }
  intros Ha. rewrite <- (ascii_nat_embedding a). apply H; [apply nat_ascii_bounded|by rewrite ascii_nat_embedding].
Qed.

Lemma no_nl_dot v : nl ∉ v → Forall (λ a, re_dot a = true) v.
Proof.
  intros H. apply Forall_forall. intros a Ha. unfold re_dot. rewrite bool_decide_false; [done|]. by intros ->.
Qed.

(** The search finds an export line that the text starts with. *)
Lemma search_export k v s : key_ok k → value_ok v →
  search envVarParser (export_line (k, v) ++ nl :: s) = Some ([k; v], nl :: s).
Proof.
  intros [Hk Hkw] ([(a & v1 & Ev & Ha) Hend] & Hnl & _). apply search_here; [done|].
  change (drop (length (lit "export")) (export_line (k, v) ++ nl :: s)) with ([blank] ++ (k ++ [blank] ++ v) ++ nl :: s).
  rewrite <- !app_assoc. cbn [rseq rmatch]. apply plus_greedy; [done|by constructor| |].
  - destruct k as [|b k]; [done|]. intros c [= <-]. apply Forall_cons in Hkw as [? _]. by apply word_not_space.
  - apply (plus_greedy re_word _ [] k); [done|done|by intros c [= <-]|].
    apply (plus_greedy re_space _ [] [blank]); [done|by constructor| |].
    + rewrite Ev. intros c [= <-]. by apply solid_not_re_space.
    + apply (plus_greedy re_dot _ [] v); [by rewrite Ev|by apply no_nl_dot|by intros c [= <-]|]. done.
Qed.

Lemma find_all_exports fuel l s : (length l < fuel)%nat → (∀ kv, kv ∈ l → key_ok kv.1 ∧ value_ok kv.2) →
  search envVarParser s = None →
  find_all fuel envVarParser (unlines (export_line <$> l) ++ s) = (λ kv, [kv.1; kv.2]) <$> l.
Proof.
  intros Hf Hok Hs. assert (∀ a, search envVarParser (nl :: a) = search envVarParser a) as Hnl by done.
  revert fuel Hf. induction l as [|[k v] l IH]; intros fuel Hf; simpl in Hf.
  - rewrite find_all_search by lia. change (unlines (export_line <$> []) ++ s) with s. by rewrite Hs.
  - rewrite find_all_search by lia. rewrite fmap_cons, unlines_cons, <- app_assoc. cbn [app].
    destruct (Hok (k, v)) as [Hk Hv]; [by left|]. rewrite search_export by done.
    rewrite fmap_cons. f_equal. rewrite find_all_search, Hnl, <- find_all_search by lia. apply IH; [intros kv Hkv; apply Hok; by right|lia].
Qed.

Lemma env_fold (l : list (bytes * bytes)) (m : gmap bytes bytes) : NoDup l.*1 → (∀ kv, kv ∈ l → value_ok kv.2) →
  foldl (λ m g, match g with
                | [key; value] => <[key := trim_quotes (TrimSpace value)]> m
                | _ => m
                end) m ((λ kv, [kv.1; kv.2]) <$> l) = list_to_map l ∪ m.
Proof.
  revert m. induction l as [|[k v] l IH]; intros m Hd Hok; simpl; [by rewrite (left_id_L ∅ (∪))|].
  apply NoDup_cons in Hd as [Hk Hd]. destruct (Hok (k, v)) as (Ht & Hrest); [by left|].
  rewrite (TrimSpace_trimmed v Ht), (trim_quotes_ok v) by done. rewrite IH; [|done|intros kv Hkv; apply Hok; by right].
  rewrite <- insert_union_l, <- insert_union_r; [done|by apply not_elem_of_list_to_map_1].
Qed.

Lemma sorted_entries_perm m : sorted_entries m ≡ₚ map_to_list (default ∅ m).
Proof. apply merge_sort_Permutation. Qed.

Lemma sorted_entries_map m : list_to_map (sorted_entries m) = default ∅ m.
Proof.
  etrans; [|apply list_to_map_to_list]. apply list_to_map_proper; [|apply sorted_entries_perm].
  rewrite sorted_entries_perm. apply NoDup_fst_map_to_list.
Qed.

(** ** Scripts *)

Definition kw_export : bytes := lit "export".
Definition kw_softlimit : bytes := lit "s6-softlimit -m".
Definition keywords : list bytes := [kw_export; fdmove; kw_softlimit].

Definition command_line (command : list bytes) : bytes := join_with (lit " ") command.

(** What a configuration must satisfy to be read back from its run script: the
    variables are words with trimmed one-line values, the command is made of
    plain words, and nothing in them or in the path spells a keyword that the
    regular expressions look for. *)
Record script_ok (env : option (gmap bytes bytes)) (memory : Z) (path : bytes) (command : list bytes) : Prop := {
  so_env k v : default ∅ env !! k = Some v → key_ok k ∧ value_ok v ∧
    Contains (export_line (k, v)) fdmove = false ∧ Contains (export_line (k, v)) kw_softlimit = false;
  so_memory : 0 <= memory < 2 ^ 63;
  so_nonempty : command ≠ [];
  so_words : Forall word command;
  so_trimmed : trimmed (command_line command);
  so_export : Contains (command_line command) kw_export = false;
  so_softlimit : Contains (command_line command) kw_softlimit = false;
  so_path : Forall (λ kw, Contains (svwait_line path) kw = false) keywords;
}.

Lemma decimal_re_digit a : (48 <=? val a) && (val a <=? 57) = true → re_digit a = true.
Proof.
  unfold val, re_digit. unfold nat_of_ascii. intros [H1%Z.leb_le H2%Z.leb_le]%andb_prop.
  apply andb_true_intro. split; apply Nat.leb_le; lia.
Qed.

Lemma itoa_re_digits v : 0 <= v < 2 ^ 63 → itoa v ≠ [] ∧ Forall (λ a, re_digit a = true) (itoa v).
Proof.
  intros Hv. destruct (itoa_digits v Hv) as (n & -> & Hn & _). split.
  - intros E. apply (f_equal length) in E. rewrite length_pad in E. simpl in E. lia.
  - eapply Forall_impl; [apply pad_decimal|]. apply decimal_re_digit.
Qed.

Lemma word_no_nl ws : Forall word ws → nl ∉ command_line ws.
Proof.
  induction 1 as [|w ws [_ Hw] Hws IH]; [set_solver|].
  assert (nl ∉ w) as Hn.
  { intros Hin. by destruct (proj1 (Forall_forall _ _) Hw _ Hin) as (_ & _ & _ & _ & ?). }
  unfold command_line in *. destruct ws as [|v ws]; [done|].
  change (join_with (lit " ") (w :: v :: ws)) with (w ++ blank :: join_with (lit " ") (v :: ws)).
  rewrite elem_of_app, elem_of_cons. intros [?|[?|?]]; done.
Qed.

(** The lines after the export lines. *)
Definition comment_lines : list bytes := [lit "# Memory limit"; lit "# -m for total memory"].
Definition wait_lines (path : bytes) : list bytes :=
  [[]; lit "# Wait for log service to be up before starting to prevent race condition";
   lit "# Run s6-svwait as root since it needs access to supervise/control pipe";
   svwait_line path; [];
   lit "# No privilege drop needed - service inherits non-root UID from container USER directive"; [];
   lit "# Keep stderr and stdout separate but both visible in logs"].
Definition tail_lines (memory : Z) (path : bytes) : list bytes :=
  comment_lines ++ (if memory =? 0 then [] else [softlimit_line memory]) ++ wait_lines path.

Definition end_lines (command : list bytes) : list bytes := [fdmove ++ lit " "; command_line command].

Lemma run_script_parts command env memory path :
  run_script command env memory path =
  unlines [lit "#!/command/execlineb -P"] ++ unlines (export_line <$> sorted_entries env) ++
    unlines (tail_lines memory path ++ end_lines command).
Proof.
  unfold run_script, script_lines. rewrite <- !unlines_app. f_equal.
  unfold tail_lines, comment_lines, wait_lines, end_lines, command_line. by rewrite <- !app_assoc.
Qed.

Lemma Contains_digits kw s : kw ∈ [kw_export; fdmove] → Forall (λ a, re_digit a = true) s → Contains s kw = false.
Proof.
  intros Hkw. assert (∃ b q, kw = b :: q ∧ re_digit b = false) as (b & q & -> & Hb).
  { revert kw Hkw. apply Forall_forall. repeat constructor; by eexists _, _. }
  induction 1 as [|a s Ha Hs IH]; [done|].
  rewrite Contains_cons, IH, orb_false_r. simpl. apply andb_false_iff. left.
  apply bool_decide_eq_false. intros ->. congruence.
Qed.

Lemma softlimit_line_clean n kw : kw ∈ [kw_export; fdmove] → 0 <= n < 2 ^ 63 → Contains (softlimit_line n) kw = false.
Proof.
  intros Hkw Hn. destruct (itoa_re_digits n Hn) as [_ Hd]. unfold softlimit_line.
  assert (Contains (itoa n) kw = false) as Hc by by apply Contains_digits.
  generalize dependent (itoa n). intros s _ Hc. unfold Contains in *. destruct (Index s kw) eqn:E; [done|].
  revert E. revert kw Hkw Hc. refine (proj1 (Forall_forall _ _) _).
  repeat constructor; intros _ E; cbn in E |- *; by rewrite E.
Qed.

(** The lines that do not depend on the configuration. *)
Definition fixed_lines : list bytes :=
  [lit "#!/command/execlineb -P"; lit "# Memory limit"; lit "# -m for total memory"; [];
   lit "# Wait for log service to be up before starting to prevent race condition";
   lit "# Run s6-svwait as root since it needs access to supervise/control pipe";
   lit "# No privilege drop needed - service inherits non-root UID from container USER directive";
   lit "# Keep stderr and stdout separate but both visible in logs"].

Lemma fixed_lines_clean kw : kw ∈ keywords → Forall (λ l, Contains l kw = false) fixed_lines.
Proof.
  revert kw. refine (proj1 (Forall_forall _ _) _). apply (bool_decide_unpack _). vm_compute. exact I.
Qed.

Lemma comment_lines_clean kw : kw ∈ keywords → Forall (λ l, Contains l kw = false) comment_lines.
Proof.
  revert kw. refine (proj1 (Forall_forall _ _) _). apply (bool_decide_unpack _). vm_compute. exact I.
Qed.

(** Every line but the export lines and the last two is free of the keyword. *)
Lemma tail_lines_clean env memory path command kw : script_ok env memory path command → kw ∈ keywords →
  (kw = kw_softlimit → memory = 0) → Forall (λ l, Contains l kw = false) (tail_lines memory path).
Proof.
  intros Hok Hkw Hm. pose proof (fixed_lines_clean kw Hkw) as Hf. rewrite Forall_forall in Hf.
  assert (Contains (svwait_line path) kw = false) as Hp.
  { by apply (proj1 (Forall_forall _ _) (so_path _ _ _ _ Hok)). }
  apply Forall_forall. intros l Hl. unfold tail_lines in Hl. rewrite !elem_of_app in Hl.
  destruct Hl as [Hl|[Hl|Hl]].
  - apply Hf. unfold comment_lines, fixed_lines in *. revert Hl. rewrite !elem_of_cons, elem_of_nil. tauto.
  - destruct (Z.eqb_spec memory 0); [by apply elem_of_nil in Hl|]. apply list_elem_of_singleton in Hl as ->.
    apply softlimit_line_clean; [|apply (so_memory _ _ _ _ Hok)].
    unfold keywords in Hkw. rewrite !elem_of_cons in Hkw |- *. rewrite list_elem_of_singleton in Hkw. tauto.
  - destruct (decide (l = svwait_line path)) as [->|Hne]; [done|]. apply Hf. unfold wait_lines, fixed_lines in *.
    revert Hl. rewrite !elem_of_cons, !elem_of_nil. tauto.
Qed.

Lemma keyword_lit kw : kw ∈ keywords → kw ≠ [] ∧ nl ∉ kw.
Proof. revert kw. refine (proj1 (Forall_forall _ _) _). apply (bool_decide_unpack _). vm_compute. exact I. Qed.

Lemma export_is_keyword : kw_export ∈ keywords.
Proof. by left. Qed.
Lemma fdmove_is_keyword : fdmove ∈ keywords.
Proof. by right; left. Qed.
Lemma softlimit_is_keyword : kw_softlimit ∈ keywords.
Proof. by right; right; left. Qed.

(** The memory limit in a line of its own. *)
Lemma search_softlimit memory rest : 0 <= memory < 2 ^ 63 →
  search memoryLimitParser (softlimit_line memory ++ nl :: rest) = Some ([itoa memory], nl :: rest).
Proof.
  intros Hm. destruct (itoa_re_digits memory Hm) as [Hne Hd]. apply search_here; [done|].
  change (drop (length (lit "s6-softlimit -m")) (softlimit_line memory ++ nl :: rest)) with ([blank] ++ itoa memory ++ nl :: rest).
  cbn [rseq rmatch]. apply plus_greedy; [done|by constructor| |].
  - destruct (itoa memory) as [|a l]; [done|]. apply Forall_cons in Hd as [Ha _]. intros b [= <-].
    apply word_not_space. unfold re_word. by rewrite Ha.
  - apply (plus_greedy re_digit _ [] (itoa memory)); [done|done|by intros b [= <-]|done].
Qed.

Section round_trip.
Context (env : option (gmap bytes bytes)) (memory : Z) (path : bytes) (command : list bytes).
Context (Hok : script_ok env memory path command).
Let script := run_script command env memory path.

Lemma sorted_ok kv : kv ∈ sorted_entries env → default ∅ env !! kv.1 = Some kv.2.
Proof using Type. rewrite sorted_entries_perm. destruct kv. apply elem_of_map_to_list. Qed.

Lemma export_lines_clean kw : kw = fdmove ∨ kw = kw_softlimit →
  Forall (λ l, Contains l kw = false) (export_line <$> sorted_entries env).
Proof using Hok.
  intros Hkw. apply Forall_forall. intros l (kv & -> & Hkv)%list_elem_of_fmap. apply sorted_ok in Hkv.
  destruct kv as [k v]. destruct (so_env _ _ _ _ Hok k v Hkv) as (_ & _ & Hf & Hs). by destruct Hkw as [-> | ->].
Qed.

(** A search for a keyword passes over any lines that do not spell it. *)
Lemma skip kw r ls s : kw ∈ keywords → Forall (λ l, Contains l kw = false) ls →
  search (RSeq (RLit kw) r) (unlines ls ++ s) = search (RSeq (RLit kw) r) s.
Proof using Type. intros Hkw. destruct (keyword_lit kw Hkw). by apply search_skip_lines. Qed.

Lemma skip_all kw r ls : kw ∈ keywords → Forall (λ l, Contains l kw = false) ls →
  search (RSeq (RLit kw) r) (unlines ls) = None.
Proof using Type.
  intros Hkw Hls. rewrite <- (app_nil_r (unlines ls)), skip by done.
  apply search_none; [by apply keyword_lit|]. destruct (keyword_lit kw Hkw). by destruct kw.
Qed.

Lemma header_clean kw : kw ∈ keywords → Forall (λ l, Contains l kw = false) [lit "#!/command/execlineb -P"].
Proof using Type.
  intros Hkw. pose proof (fixed_lines_clean kw Hkw) as Hf. unfold fixed_lines in Hf. inversion Hf. by constructor.
Qed.

Lemma script_env_ok : script_env script = default ∅ env.
Proof using Hok.
  assert (search envVarParser (unlines (tail_lines memory path ++ end_lines command)) = None) as Hnone.
  { apply skip_all; [apply export_is_keyword|]. apply Forall_app. split.
    - apply (tail_lines_clean env _ _ command); [done|apply export_is_keyword|done].
    - constructor; [done|]. constructor; [apply (so_export _ _ _ _ Hok)|constructor]. }
  unfold script_env, FindAllStringSubmatch, script. rewrite run_script_parts.
  assert (∀ s, search envVarParser (unlines [lit "#!/command/execlineb -P"] ++ s) = search envVarParser s) as Hhead.
  { intros s. exact (skip kw_export _ _ s export_is_keyword (header_clean _ export_is_keyword)). }
  rewrite find_all_search, Hhead, <- find_all_search by lia.
  rewrite find_all_exports; [| |intros kv Hkv|done].
  - rewrite env_fold; [by rewrite (right_id_L ∅ (∪)), sorted_entries_map| |intros kv Hkv].
    + rewrite sorted_entries_perm. apply NoDup_fst_map_to_list.
    + apply sorted_ok in Hkv. destruct kv. by apply (so_env _ _ _ _ Hok) in Hkv as (_ & ? & _).
  - rewrite !length_app. assert (∀ ls, length ls <= length (unlines ls))%nat as Hlen.
    { induction ls as [|l ls IH]; [done|]. rewrite unlines_cons, length_app. simpl. lia. }
    specialize (Hlen (export_line <$> sorted_entries env)). rewrite length_fmap in Hlen. lia.
  - apply sorted_ok in Hkv. destruct kv. by apply (so_env _ _ _ _ Hok) in Hkv as (? & ? & _).
Qed.

Lemma script_memory_ok : script_memory script = (memory, None).
Proof using Hok.
  pose proof (so_memory _ _ _ _ Hok) as Hm. unfold script_memory, FindStringSubmatch, script. rewrite run_script_parts.
  assert (search memoryLimitParser (unlines [lit "#!/command/execlineb -P"] ++ unlines (export_line <$> sorted_entries env) ++
    unlines (tail_lines memory path ++ end_lines command)) =
    search memoryLimitParser (unlines (tail_lines memory path ++ end_lines command))) as ->.
  { unfold memoryLimitParser. cbn [rseq].
    rewrite skip; [|apply softlimit_is_keyword|apply header_clean, softlimit_is_keyword].
    rewrite skip; [done|apply softlimit_is_keyword|]. apply export_lines_clean. by right. }
  destruct (decide (memory = 0)) as [H0|H0].
  - assert (search memoryLimitParser (unlines (tail_lines memory path ++ end_lines command)) = None) as ->.
    + apply skip_all; [apply softlimit_is_keyword|]. apply Forall_app. split.
      * by apply (tail_lines_clean env _ _ command); [|apply softlimit_is_keyword|].
      * constructor; [done|]. constructor; [apply (so_softlimit _ _ _ _ Hok)|constructor].
    + by rewrite H0.
  - unfold tail_lines. rewrite (proj2 (Z.eqb_neq _ _)) by done. rewrite <- !app_assoc, unlines_app.
    assert (∀ s, search memoryLimitParser (unlines comment_lines ++ s) = search memoryLimitParser s) as ->.
    { intros s. exact (skip kw_softlimit _ _ s softlimit_is_keyword (comment_lines_clean _ softlimit_is_keyword)). }
    cbn [app]. rewrite unlines_cons, search_softlimit by done. cbn [fmap option_fmap option_map fst].
    destruct (itoa_re_digits memory Hm) as [Hne _].
    destruct (itoa memory) as [|a l] eqn:Ei; [done|]. rewrite <- Ei, ParseInt_itoa by done. done.
Qed.

(** The command is what the expression captures after fdmove. *)
Lemma search_fdmove line s : trimmed line → nl ∉ line →
  search runScriptParser (fdmove ++ [blank; nl] ++ line ++ nl :: s) = Some ([line], nl :: s).
Proof using Type.
  intros [(a & l & El & Ha) _] Hnl. apply search_here; [done|]. rewrite drop_app_length. cbn [rmatch].
  rewrite (plus_greedy re_space _ [] [blank; nl] _ ([line], nl :: s)); [done|done|by repeat constructor| |].
  - rewrite El. intros b [= <-]. by apply solid_not_re_space.
  - apply (plus_greedy re_dot _ [] line); [by rewrite El|by apply no_nl_dot|by intros b [= <-]|done].
Qed.

Lemma script_command_ok : script_command script = (Some command, None).
Proof using Hok.
  pose proof (so_trimmed _ _ _ _ Hok) as Ht. pose proof (so_words _ _ _ _ Hok) as Hw.
  unfold script_command, FindStringSubmatch, script. rewrite run_script_parts.
  assert (search runScriptParser (unlines [lit "#!/command/execlineb -P"] ++ unlines (export_line <$> sorted_entries env) ++
    unlines (tail_lines memory path ++ end_lines command)) = Some ([command_line command], [nl])) as ->.
  { unfold runScriptParser. rewrite skip; [|apply fdmove_is_keyword|apply header_clean, fdmove_is_keyword].
    rewrite skip; [|apply fdmove_is_keyword|apply export_lines_clean; by left].
    rewrite unlines_app, skip; [|apply fdmove_is_keyword|].
    2: { apply (tail_lines_clean env _ _ command); [done|apply fdmove_is_keyword|done]. }
    unfold end_lines. rewrite !unlines_cons, <- app_assoc. cbn [app]. apply (search_fdmove _ []); [done|by apply word_no_nl]. }
  cbn [fmap option_fmap option_map fst]. destruct Ht as [(a & l & El & Ha) Hend]. rewrite El, <- El.
  rewrite TrimSpace_trimmed by (split; [by exists a, l|done]). unfold parse_command, command_line.
  destruct command as [|w ws]; [by destruct (so_nonempty _ _ _ _ Hok)|].
  apply Forall_cons in Hw as [? ?]. by rewrite parse_words.
Qed.
End round_trip.

(** ** The log script *)

Definition kw_log : bytes := lit "s6-log".

Definition mkdir_line (dir : bytes) : bytes := lit "foreground { mkdir -p " ++ dir ++ lit " }".

(** A log directory that the expression takes as one word and that does not spell its keyword. *)
Definition dir_ok (dir : bytes) : Prop :=
  (∃ a d, dir = a :: d ∧ re_space a = false) ∧ Contains dir kw_log = false ∧ Contains (mkdir_line dir) kw_log = false.

Lemma plus_some {A} p (k : bytes → bytes → option A) taken a s :
  p a = true → (∀ t s', is_Some (k t s')) → is_Some (plus p k taken (a :: s)).
Proof.
  intros Ha Hk. simpl. rewrite Ha. destruct (plus p k (taken ++ [a]) s); [done|apply Hk].
Qed.

Lemma search_log_size n dir : 0 <= n < 2 ^ 63 → dir_ok dir →
  FindStringSubmatch logFilesizeParser (lit "s6-log n20 s" ++ itoa n ++ lit " T " ++ dir) = Some [itoa n].
Proof.
  intros Hn ((a & d & -> & Ha) & _). destruct (itoa_re_digits n Hn) as [Hne Hd].
  assert (is_Some (plus re_not_space (λ _ s', Some ([itoa n], s')) [] (a :: d))) as [x Hx].
  { apply plus_some; [|done]. unfold re_not_space. by rewrite Ha. }
  assert (x.1 = [itoa n]) as Hx1.
  { assert (∀ taken s, plus re_not_space (λ _ s', Some ([itoa n], s')) taken s = Some x → x.1 = [itoa n]) as Hp; [|by apply (Hp _ _ Hx)].
    intros taken s. revert taken. induction s as [|b s IH]; intros taken; [done|]. simpl.
    destruct (re_not_space b); [|done]. destruct (plus _ _ _ s) eqn:E; [intros [= ->]; by eapply IH|by intros [= <-]]. }
  unfold FindStringSubmatch.
  assert (search logFilesizeParser (lit "s6-log n20 s" ++ itoa n ++ lit " T " ++ a :: d) = Some x) as ->; [|by rewrite <- Hx1].
  apply search_here; [done|].
  change (drop (length (lit "s6-log")) (lit "s6-log n20 s" ++ itoa n ++ lit " T " ++ a :: d))
    with ([blank] ++ lit "n" ++ lit "20" ++ [blank] ++ lit "s" ++ itoa n ++ [blank] ++ lit "T" ++ [blank] ++ a :: d).
  cbn [rseq rmatch].
  apply plus_greedy; [done|by constructor|by intros b [= <-]|]. rewrite is_prefix_app, drop_app_length.
  apply plus_greedy; [done|by repeat constructor|by intros b [= <-]|].
  apply plus_greedy; [done|by constructor|by intros b [= <-]|]. rewrite is_prefix_app, drop_app_length.
  apply plus_greedy; [done|done|by intros b [= <-]|].
  apply plus_greedy; [done|by constructor|by intros b [= <-]|]. rewrite is_prefix_app, drop_app_length.
  apply plus_greedy; [done|by constructor| |done].
  intros b [= <-]. done.
Qed.

Lemma search_no_log_size dir : dir_ok dir → FindStringSubmatch logFilesizeParser (lit "s6-log n20 T " ++ dir) = None.
Proof.
  intros (_ & Hc & _). unfold FindStringSubmatch.
  assert (search logFilesizeParser (lit "s6-log n20 T " ++ dir) = search logFilesizeParser dir) as -> by reflexivity.
  unfold logFilesizeParser. cbn [rseq]. by rewrite (search_none _ (lit "s6-log")).
Qed.

Lemma script_logsize_ok cfg dir : 0 <= LogFilesize cfg < 2 ^ 63 → dir_ok dir →
  script_logsize (getLogRunScript cfg dir) = (LogFilesize cfg, None).
Proof.
  intros Hn Hdir. unfold script_logsize, getLogRunScript.
  assert (∀ s, FindStringSubmatch logFilesizeParser (unlines [lit "#!/command/execlineb -P"; fdmove; mkdir_line dir; []] ++ s) =
    FindStringSubmatch logFilesizeParser s) as Hskip.
  { intros s. unfold FindStringSubmatch, logFilesizeParser. cbn [rseq].
    rewrite (search_skip_lines _ (lit "s6-log")); [done|done| |].
    - apply (bool_decide_unpack _). vm_compute. exact I.
    - destruct Hdir as (_ & _ & ?). by repeat constructor. }
  fold (mkdir_line dir). rewrite Hskip. change (itoa DefaultLogArchiveCount) with (lit "20").
  destruct (Z.ltb_spec 0 (LogFilesize cfg)).
  - change (lit "s6-log n" ++ lit "20" ++ lit " s" ++ itoa (LogFilesize cfg) ++ lit " T " ++ dir)
      with (lit "s6-log n20 s" ++ itoa (LogFilesize cfg) ++ lit " T " ++ dir).
    rewrite search_log_size by done. by rewrite ParseInt_itoa.
  - change (lit "s6-log n" ++ lit "20" ++ lit " T " ++ dir) with (lit "s6-log n20 T " ++ dir).
    rewrite search_no_log_size by done. f_equal. lia.
Qed.

(** Run scripts round-trip.  What [Create] writes for a configuration,
    [GetConfig] reads back: the variables, the command word by word and the
    memory limit from the run script, the size limit from the log script. *)
Theorem run_scripts_roundtrip (cfg : S6ServiceConfig) (command : list bytes) (path dir : bytes) :
  Command cfg = Some command → script_ok (Env cfg) (MemoryLimit cfg) path command →
  0 <= LogFilesize cfg < 2 ^ 63 → dir_ok dir →
  let script := run_script command (Env cfg) (MemoryLimit cfg) path in
  script_env script = default ∅ (Env cfg) ∧ script_command script = (Command cfg, None) ∧
  script_memory script = (MemoryLimit cfg, None) ∧
  script_logsize (getLogRunScript cfg dir) = (LogFilesize cfg, None).
Proof.
  intros Hc Hok Hn Hdir script. split_and!.
  - by apply (script_env_ok _ _ _ _ Hok).
  - rewrite Hc. by apply (script_command_ok _ _ _ _ Hok).
  - by apply (script_memory_ok _ _ _ _ Hok).
  - by apply script_logsize_ok.
Qed.

Definition demo_config : S6ServiceConfig :=
  mkS6Config (Some {[lit "LOG_LEVEL" := lit "info"; lit "OTEL" := lit "a=b c"]}) (Some {[lit "run.sh" := lit "exit 0"]})
    (Some [lit "/bin/sh"; lit "-c"; lit "/data/x/config/run.sh"]) 1048576 65536.

Lemma run_scripts_roundtrip_witness :
  let path := lit "/tmp/umh-core-services/x" in
  let script := run_script [lit "/bin/sh"; lit "-c"; lit "/data/x/config/run.sh"] (Env demo_config) 1048576 path in
  script_env script = default ∅ (Env demo_config) ∧ script_command script = (Command demo_config, None) ∧
  script_memory script = (1048576, None) ∧
  script_logsize (getLogRunScript demo_config (lit "/data/logs/x")) = (65536, None).
Proof.
  apply (run_scripts_roundtrip demo_config [lit "/bin/sh"; lit "-c"; lit "/data/x/config/run.sh"]); [reflexivity| |vm_compute; split; congruence|].
  - constructor.
    + intros k v. unfold demo_config, Env, default, from_option, id.
      intros [[<- <-]|[_ [<- <-]%lookup_singleton_Some]]%lookup_insert_Some; (split; [|split; [|split; reflexivity]]).
      * split; [discriminate|]. apply (bool_decide_unpack _). vm_compute. exact I.
      * split; [split; [by eexists _, _|by exists (lit "inf"), "o"%char]|].
        split; [apply (bool_decide_unpack _); vm_compute; exact I|]. split; intros a [= <-]; reflexivity.
      * split; [discriminate|]. apply (bool_decide_unpack _). vm_compute. exact I.
      * split; [split; [by eexists _, _|by exists (lit "a=b "), "c"%char]|].
        split; [apply (bool_decide_unpack _); vm_compute; exact I|]. split; intros a [= <-]; reflexivity.
    + vm_compute. split; congruence.
    + discriminate.
    + unfold word, plain. apply (bool_decide_unpack _). vm_compute. exact I.
    + split; [by eexists _, _|]. by exists (lit "/bin/sh -c /data/x/config/run.s"), "h"%char.
    + reflexivity.
    + reflexivity.
    + apply (bool_decide_unpack _). vm_compute. exact I.
  - split; [by eexists _, _|]. split; reflexivity.
Defined.

(** A variable without a value takes the text of the next line for one. *)
Theorem empty_value_reads_on :
  script_env (run_script [lit "/bin/true"] (Some {[lit "A" := []]}) 0 (lit "/x")) = {[lit "A" := lit "# Memory limit"]}.
Proof. vm_compute. reflexivity. Qed.
