(* ===== verification/S6Lifecycle.v ===== *)
(** * S6Lifecycle: creating, removing and supervising an S6 service

    Models [pkg/service/s6/lifecycle.go], [lifecycle_force.go] and the
    lifecycle half of [pkg/service/s6/s6.go] against the interface [Service]
    of [FileSystem]: creation of the service directory, the resumable removal
    with its recorded progress, the forced clean-up, the health check with its
    recovery directive, starting, stopping and the s6 commands.  The mutex of
    the service makes one call one step; the pointer to the tracked artifacts
    is a field of the state, and a removal under way updates what it points
    to. *)

From S2P Require Import Prelude StateMonad Float64 GoRuntime Backoff GoBytes GoRegexp FileSystem S6Logs S6Config.
From Stdlib Require Import Ascii.
Local Open Scope Z_scope.

(** ** Data *)

Record RemovalProgress := mkProgress {
  SymlinkRemoved : bool; ServiceStopped : bool; ServiceUnsupervised : bool; DirectoriesRemoved : bool }.

Record ServiceArtifacts := mkArtifacts {
  Progress : option RemovalProgress;
  ServiceDir : bytes; RepositoryDir : bytes; LogDir : bytes; TempDir : bytes;
  CreatedFiles : list bytes }.

Definition set_progress (p : option RemovalProgress) (a : ServiceArtifacts) : ServiceArtifacts :=
  mkArtifacts p (ServiceDir a) (RepositoryDir a) (LogDir a) (TempDir a) (CreatedFiles a).

Definition InitRemovalProgress (a : ServiceArtifacts) : ServiceArtifacts :=
  match Progress a with
  | None => set_progress (Some (mkProgress false false false false)) a
  | Some _ => a
  end.

Definition IsFullyRemoved (a : ServiceArtifacts) : bool :=
  match Progress a with
  | None => false
  | Some p => SymlinkRemoved p && ServiceStopped p && ServiceUnsupervised p && DirectoriesRemoved p
  end.

Inductive HealthStatus := HealthUnknown | HealthOK | HealthBad.
Inductive RecoveryAction := ActionOK | ActionWait | ActionRecreate.
#[export] Instance HealthStatus_eq_dec : EqDecision HealthStatus.
Proof. solve_decision. Defined.
#[export] Instance RecoveryAction_eq_dec : EqDecision RecoveryAction.
Proof. solve_decision. Defined.

Definition ErrS6TemporaryError : GoErr := ESentinel "s6" "s6 temporary error (exit code 111)".
Definition ErrS6ProgramNotFound : GoErr := ESentinel "s6" "s6 program not found (exit code 127)".
Definition ErrS6ProgramNotExecutable : GoErr := ESentinel "s6" "s6 program not executable (exit code 126)".

Definition S6BaseDir : bytes := lit "/run/service".
(** [GetS6RepositoryBaseDir] under the environment variable [S6_PERSIST_DIRECTORY]. *)
Definition GetS6RepositoryBaseDir (persist : bool) : bytes :=
  if persist then lit "/data/services" else lit "/tmp/umh-core-services".
Definition ForceRemovalTimeout : Z := 5 * Second.
Definition S6_TIMEOUT_PERCENTAGE : float64 := F 1 (-1).
Definition chunkTimeout : Z := 750 * Millisecond.
Definition mode_644 : Z := 420.

(** The service instance: what it tracks, and the deployment times its log
    reader shares with it. *)
Record S6Service := mkS6Service { artifacts : option ServiceArtifacts; log_service : LogService }.

Definition set_artifacts (a : option ServiceArtifacts) (s : S6Service) : S6Service := mkS6Service a (log_service s).
Definition deployed (path : bytes) (t : Time) (s : S6Service) : S6Service :=
  mkS6Service (artifacts s) (setLastDeployedTime path t (log_service s)).

Definition path_of (base : bytes) (servicePath : bytes) : bytes := Join [base; Base servicePath].

Section lifecycle.
Context {S : Type} `{World S} `{Service S}.
(** The exit status an [*exec.ExitError] carries, where the environment keeps
    the repositories, and the order in which a range visits a map. *)
Context (exit_code : GoErr → option Z) (persist : bool) (range : gmap bytes bytes → list (bytes * bytes)).

(** [errors.As(err, &exitErr)]. *)
Fixpoint As_ExitError (e : GoErr) : option Z :=
  match exit_code e with
  | Some c => Some c
  | None =>
      match e with
      | EWrap _ inner => As_ExitError inner
      | EJoin errs => (fix go l := match l with
                       | [] => None
                       | x :: l => match As_ExitError x with Some c => Some c | None => go l end
                       end) errs
      | EConfig _ (Some inner) => As_ExitError inner
      | _ => None
      end
  end.

(** [ctx.Err()]. *)
Definition ctx_err (ctx : Ctx) : St S (option GoErr) := ctx_Err ctx.

(** ** s6 commands *)

Definition ExecuteS6Command (ctx : Ctx) (servicePath name : bytes) (args : list bytes) : St S (bytes * option GoErr) :=
  r ← ExecuteCommand ctx name args;
  match r with
  | (output, None) => mret (output, None)
  | (output, Some err) =>
      match As_ExitError err with
      | Some code =>
          if code =? 111 then mret ([], Some ErrS6TemporaryError)
          else if code =? 100 then mret ([], None)
          else if code =? 127 then mret ([], Some ErrS6ProgramNotFound)
          else if code =? 126 then mret ([], Some ErrS6ProgramNotExecutable)
          else mret ([], Some (EWrap ("unknown S6 error for service " +:+ str servicePath +:+ ": ") err))
      | None => mret ([], Some (EWrap ("failed to execute s6 command (name: " +:+ str name +:+ "): ") err))
      end
  end.

(** Milliseconds for the timeout options; 0 lets s6 use its default. *)
Definition calculateS6Timeout (ctx : Ctx) : St S Z :=
  match ctx_Deadline ctx with
  | None => mret 0
  | Some deadline =>
      t ← clock;
      let remainingTime := deadline - t in
      if remainingTime <=? 0 then mret 0
      else mret (Z.quot (scale_duration remainingTime S6_TIMEOUT_PERCENTAGE) Millisecond)
  end.

(** Stop one of the two services; the error is that of the existence check or of the command. *)
Definition stop_one (ctx : Ctx) (svcPath : bytes) : St S (option GoErr) :=
  x ← PathExists ctx svcPath;
  match x with
  | (_, Some err) => mret (Some err)
  | (false, None) => mret None
  | (true, None) =>
      timeoutMs ← calculateS6Timeout ctx;
      let args := if 0 <? timeoutMs then [lit "-T"; itoa timeoutMs; lit "-wD"; lit "-d"; svcPath]
                  else [lit "-wD"; lit "-d"; svcPath] in
      r ← ExecuteS6Command ctx svcPath (lit "s6-svc") args;
      mret r.2
  end.

(** The last error of the two decides. *)
Definition stopServiceCleanly (ctx : Ctx) (servicePath : bytes) : St S (option GoErr) :=
  e1 ← stop_one ctx servicePath;
  e2 ← stop_one ctx (Join [servicePath; lit "log"]);
  mret (match e2 with Some e => Some e | None => e1 end).

Definition checkSingleSupervisionEnded (ctx : Ctx) (servicePath : bytes) : St S (option GoErr) :=
  let lockFile := Join [servicePath; lit "supervise"; lit "lock"] in
  x ← PathExists ctx lockFile;
  match x with
  | (_, Some err) => mret (Some (EWrap ("failed to check lock file " +:+ str lockFile +:+ ": ") err))
  | (false, None) => mret None
  | (true, None) =>
      r ← ExecuteCommand ctx (lit "flock") [lit "-n"; lockFile; lit "true"];
      match r with
      | (_, Some _) => mret (Some (ENew ("supervisor still running (lock file " +:+ str lockFile +:+ " is locked)")))
      | (_, None) => mret None
      end
  end.

Definition verifySupervisionEnded (ctx : Ctx) (servicePath : bytes) : St S (option GoErr) :=
  e ← checkSingleSupervisionEnded ctx servicePath;
  match e with
  | Some err => mret (Some (EWrap "main service supervision still active: " err))
  | None =>
      e ← checkSingleSupervisionEnded ctx (Join [servicePath; lit "log"]);
      mret (EWrap "log service supervision still active: " <$> e)
  end.

Definition unsuperviseService (ctx : Ctx) (servicePath : bytes) : St S (option GoErr) :=
  let scanDir := Dir servicePath in
  let serviceName := Base servicePath in
  timeoutMs ← calculateS6Timeout ctx;
  let args := if 0 <? timeoutMs then [lit "-t"; itoa timeoutMs; scanDir; serviceName] else [scanDir; serviceName] in
  r ← ExecuteS6Command ctx servicePath (lit "s6-svunlink") args;
  match r with
  | (_, Some err) => mret (Some (EWrap ("s6-svunlink command failed for service " +:+ str servicePath +:+ ": ") err))
  | (_, None) =>
      e ← verifySupervisionEnded ctx servicePath;
      mret (EWrap ("supervision verification failed for service " +:+ str servicePath +:+ ": ") <$> e)
  end.

(** Only the listing is read; what it says goes to the log. *)
Definition logDirectoryContentsIfNotEmpty (ctx : Ctx) (dirPath : bytes) : St S unit :=
  _ ← ReadDir ctx dirPath; mret tt.

(** ** Removal *)

(** [symlinkExists, _ := fsService.PathExists(...)]: the error is dropped. *)
Definition exists_quietly (ctx : Ctx) (path : bytes) : St S bool :=
  x ← PathExists ctx path; mret x.1.

Definition stop_step (ctx : Ctx) (a : ServiceArtifacts) : St S (option GoErr) :=
  symlinkExists ← exists_quietly ctx (ServiceDir a);
  if symlinkExists : bool then
    e ← stopServiceCleanly ctx (ServiceDir a); mret (EWrap "failed to stop service cleanly: " <$> e)
  else mret None.

Definition unsupervise_step (ctx : Ctx) (a : ServiceArtifacts) : St S (option GoErr) :=
  symlinkExists ← exists_quietly ctx (ServiceDir a);
  if symlinkExists : bool then
    e ← unsuperviseService ctx (ServiceDir a); mret (EWrap "failed to unsupervise service: " <$> e)
  else mret None.

(** Remove a directory that exists, after logging its contents if [listed]. *)
Definition remove_if_exists (ctx : Ctx) (path : bytes) (listed : bool) (what : string) : St S (option GoErr) :=
  x ← exists_quietly ctx path;
  if x : bool then
    _ ← (if listed then logDirectoryContentsIfNotEmpty ctx path else mret tt);
    e ← RemoveAll ctx path; mret (EWrap what <$> e)
  else mret None.

Definition directories_step (ctx : Ctx) (a : ServiceArtifacts) : St S (option GoErr) :=
  e ← remove_if_exists ctx (ServiceDir a) false "failed to remove scan directory symlink: ";
  match e with
  | Some err => mret (Some err)
  | None =>
      e ← remove_if_exists ctx (RepositoryDir a) true "failed to remove repository directory: ";
      match e with
      | Some err => mret (Some err)
      | None => remove_if_exists ctx (LogDir a) true "failed to remove log directory: "
      end
  end.

(** Run [act] unless the flag is set; on success go on with [k]. *)
Definition unless_done (finished : bool) (act : St S (option GoErr)) (a : ServiceArtifacts)
    (k : St S (ServiceArtifacts * option GoErr)) : St S (ServiceArtifacts * option GoErr) :=
  if finished then k
  else
    e ← act;
    match e with Some err => mret (a, Some err) | None => k end.

Definition RemoveArtifacts (ctx : Ctx) (a0 : ServiceArtifacts) : St S (ServiceArtifacts * option GoErr) :=
  e ← ctx_err ctx;
  match e with
  | Some err => mret (a0, Some err)
  | None =>
      let a := InitRemovalProgress a0 in
      if IsFullyRemoved a then mret (a, None)
      else
        let p := default (mkProgress false false false false) (Progress a) in
        unless_done (ServiceStopped p) (stop_step ctx a) a (
          let p1 := mkProgress (SymlinkRemoved p) true (ServiceUnsupervised p) (DirectoriesRemoved p) in
          let a1 := set_progress (Some p1) a in
          unless_done (ServiceUnsupervised p) (unsupervise_step ctx a) a1 (
            let p2 := mkProgress (SymlinkRemoved p) true true (DirectoriesRemoved p) in
            let a2 := set_progress (Some p2) a in
            unless_done (DirectoriesRemoved p) (directories_step ctx a) a2 (
              mret (if DirectoriesRemoved p then a2 else set_progress (Some (mkProgress true true true true)) a, None))))
  end.

(** ** Forced clean-up *)

Fixpoint createDownFiles_at (ctx : Ctx) (downFiles : list bytes) : St S (option GoErr) :=
  match downFiles with
  | [] => mret None
  | f :: fs =>
      e ← WriteFile ctx f [] mode_644;
      match e with
      | Some err => mret (Some (EWrap ("failed to create down file " +:+ str f +:+ ": ") err))
      | None => createDownFiles_at ctx fs
      end
  end.

Definition downFiles (servicePath : bytes) : list bytes :=
  [Join [servicePath; lit "down"]; Join [servicePath; lit "log"; lit "down"]].

Definition createDownFiles (ctx : Ctx) (a : ServiceArtifacts) : St S (option GoErr) :=
  createDownFiles_at ctx (downFiles (ServiceDir a)).

Definition removeDirectoryWithTimeout (ctx : Ctx) (path : bytes) : St S (option GoErr) :=
  _ ← logDirectoryContentsIfNotEmpty ctx path;
  chunkCtx ← WithTimeout Background chunkTimeout;
  e ← RemoveAll chunkCtx path;
  match e with
  | None => mret None
  | Some err =>
      c ← ctx_err chunkCtx;
      match c with
      | Some cerr => if IsErr cerr DeadlineExceeded then mret (Some DeadlineExceeded) else mret (Some err)
      | None => mret (Some err)
      end
  end.

(** Step 5 and the verification at the end. *)
Definition verify_cleanup (ctx : Ctx) (a : ServiceArtifacts) : St S (option GoErr) :=
  x ← PathExists ctx (ServiceDir a);
  match x with
  | (_, Some err) => mret (Some (EWrap "failed to verify service cleanup: " err))
  | (serviceExists, None) =>
      y ← PathExists ctx (LogDir a);
      match y with
      | (_, Some err) => mret (Some (EWrap "failed to verify log cleanup: " err))
      | (logExists, None) =>
          z ← (if bool_decide (RepositoryDir a = []) then mret (false, None) else PathExists ctx (RepositoryDir a));
          match z with
          | (_, Some err) => mret (Some (EWrap "failed to verify repository cleanup: " err))
          | (repoExists, None) =>
              if serviceExists || logExists || repoExists then mret (Some (ENew "force cleanup incomplete"))
              else mret None
          end
      end
  end.

Definition ForceCleanup (ctx : Ctx) (a : ServiceArtifacts) : St S (option GoErr) :=
  e ← ctx_err ctx;
  match e with
  | Some err => mret (Some err)
  | None =>
      _ ← createDownFiles ctx a;
      _ ← stopServiceCleanly ctx (ServiceDir a);
      _ ← unsuperviseService ctx (ServiceDir a);
      _ ← removeDirectoryWithTimeout ctx (ServiceDir a);
      _ ← removeDirectoryWithTimeout ctx (LogDir a);
      _ ← (if bool_decide (RepositoryDir a = []) then mret None else removeDirectoryWithTimeout ctx (RepositoryDir a));
      _ ← ExecuteS6Command ctx (ServiceDir a) (lit "s6-svscanctl") [lit "-an"; S6BaseDir];
      verify_cleanup ctx a
  end.

(** ** Health *)

Fixpoint check_files (ctx : Ctx) (files : list bytes) : St S (HealthStatus * option GoErr) :=
  match files with
  | [] => mret (HealthOK, None)
  | f :: fs =>
      x ← FileExists ctx f;
      match x with
      | (_, Some err) => mret (HealthUnknown, Some err)
      | (false, None) => mret (HealthBad, None)
      | (true, None) => check_files ctx fs
      end
  end.

(** The tracked files, then the symlink, then the repository. *)
Definition CheckArtifactsHealth (ctx : Ctx) (a : ServiceArtifacts) : St S (HealthStatus * option GoErr) :=
  e ← ctx_err ctx;
  match e with
  | Some err => mret (HealthUnknown, Some err)
  | None =>
      match CreatedFiles a with
      | [] => mret (HealthBad, None)
      | files =>
          r ← check_files ctx files;
          match r with
          | (HealthOK, None) =>
              x ← PathExists ctx (ServiceDir a);
              match x with
              | (_, Some err) => mret (HealthUnknown, Some err)
              | (false, None) => mret (HealthBad, None)
              | (true, None) =>
                  y ← PathExists ctx (RepositoryDir a);
                  match y with
                  | (_, Some err) => mret (HealthUnknown, Some err)
                  | (false, None) => mret (HealthBad, None)
                  | (true, None) => mret (HealthOK, None)
                  end
              end
          | _ => mret r
          end
      end
  end.

(** ** The service instance *)

Definition LState : Type := S6Service * S.
Definition onS {A} (m : St S A) : St LState A := λ s, let (a, w) := m s.2 in (a, (s.1, w)).
Definition Load : St LState (option ServiceArtifacts) := λ s, (artifacts s.1, s).
Definition Store (a : option ServiceArtifacts) : St LState unit := λ s, (tt, (set_artifacts a s.1, s.2)).
Definition on_service (f : S6Service → S6Service) : St LState unit := λ s, (tt, (f s.1, s.2)).

Definition CheckServiceDirectoryIntegrity (ctx : Ctx) (servicePath : bytes) : St LState HealthStatus :=
  a ← Load;
  match a with
  | None => mret HealthUnknown
  | Some a =>
      r ← onS (CheckArtifactsHealth ctx a);
      match r with
      | (_, Some _) => mret HealthUnknown
      | (health, None) => mret health
      end
  end.

Definition Health (ctx : Ctx) : St LState RecoveryAction :=
  a ← Load;
  match a with
  | None => mret ActionOK
  | Some a =>
      if bool_decide (is_Some (Progress a)) then mret ActionWait
      else
        r ← onS (CheckArtifactsHealth ctx a);
        match r with
        | (_, Some _) => mret ActionWait
        | (HealthOK, None) => mret ActionOK
        | (HealthBad, None) => mret ActionRecreate
        | (HealthUnknown, None) => mret ActionWait
        end
  end.

(** [EnsureSupervision]: both supervise directories are there. *)
Definition notify_scanner (ctx : Ctx) (servicePath : bytes) : St S (bool * option GoErr) :=
  r ← ExecuteS6Command ctx servicePath (lit "s6-svscanctl") [lit "-a"; S6BaseDir];
  match r with
  | (_, Some err) => mret (false, Some (EWrap "failed to notify s6-svscan: " err))
  | (_, None) => mret (false, None)
  end.

Definition EnsureSupervision (ctx : Ctx) (servicePath : bytes) : St S (bool * option GoErr) :=
  x ← ServiceExists ctx servicePath;
  match x with
  | (_, Some err) => mret (false, Some (EWrap "failed to check if service exists: " err))
  | (false, None) => mret (false, Some ErrServiceNotExist)
  | (true, None) =>
      y ← FileExists ctx (Join [servicePath; lit "supervise"]);
      match y with
      | (_, Some err) => mret (false, Some (EWrap "failed to check if supervise directory exists: " err))
      | (false, None) => notify_scanner ctx servicePath
      | (true, None) =>
          z ← FileExists ctx (Join [servicePath; lit "log"; lit "supervise"]);
          match z with
          | (_, Some err) => mret (false, Some (EWrap "failed to check if log/supervise directory exists: " err))
          | (false, None) => notify_scanner ctx servicePath
          | (true, None) => mret (true, None)
          end
      end
  end.

(** ** Creation *)

(** Run [act]; on an error give up with no files, otherwise go on. *)
Definition or_fail (act : St S (option GoErr)) (what : string) (k : St S (list bytes * option GoErr))
    : St S (list bytes * option GoErr) :=
  e ← act;
  match e with Some err => mret ([], Some (EWrap what err)) | None => k end.

Definition reservedNames : list bytes := [lit "."; lit ".."; lit "CON"; lit "PRN"; lit "AUX"; lit "NUL"].

Definition lower (a : ascii) : ascii :=
  let n := nat_of_ascii a in if (65 <=? n)%nat && (n <=? 90)%nat then ascii_of_nat (n + 32) else a.
(** [strings.EqualFold], for a right-hand side in ASCII without k or s. *)
Definition EqualFold (s t : bytes) : bool := bool_decide (lower <$> s = lower <$> t).

Definition IsAbs (p : bytes) : bool := is_prefix (lit "/") p.

(** Where a config file of this name is written, or why it is refused. *)
Definition config_file_path (configPath path : bytes) : bytes + string :=
  if bool_decide (TrimSpace path = []) then inr "config filename cannot be empty"
  else if Contains path (lit "..") then inr "invalid config filename contains path traversal"
  else if negb (IsAbs path) && (is_prefix (lit "../") (Clean path) || bool_decide (Clean path = lit "..")) then
    inr "invalid config filename attempts to escape config directory"
  else if existsb (EqualFold (Base path)) reservedNames then inr "config filename cannot be reserved name"
  else if existsb (λ c, bool_decide (c ∈ Base path)) ["000"%char; "013"%char; nl] then
    inr "config filename contains invalid characters"
  else inl (if IsAbs path then path else Join [configPath; path]).

Fixpoint write_config_files (ctx : Ctx) (configPath : bytes) (files : list (bytes * bytes)) (created : list bytes)
    : St S (list bytes * option GoErr) :=
  match files with
  | [] => mret (created, None)
  | (path, content) :: files =>
      match config_file_path configPath path with
      | inr msg => mret ([], Some (ENew msg))
      | inl full =>
          or_fail (EnsureDirectory ctx (Dir full)) "failed to create directory for config file: " (
          or_fail (WriteFile ctx full content mode_644) ("failed to write to config file " +:+ str full +:+ ": ") (
          write_config_files ctx configPath files (created ++ [full])))
      end
  end.

Definition createS6ConfigFiles (ctx : Ctx) (servicePath : bytes) (configFiles : option (gmap bytes bytes))
    : St S (list bytes * option GoErr) :=
  write_config_files ctx (Join [servicePath; lit "config"]) (range (default ∅ configFiles)) [].

Definition createS6FilesInRepository (ctx : Ctx) (repositoryDir : bytes) (config : S6ServiceConfig)
    : St S (list bytes * option GoErr) :=
  let logDir := Join [S6LogBaseDir; Base repositoryDir] in
  let logServicePath := Join [repositoryDir; lit "log"] in
  let typeFile := Join [repositoryDir; lit "type"] in
  let logTypeFile := Join [logServicePath; lit "type"] in
  let logRunPath := Join [logServicePath; lit "run"] in
  let runScript := Join [repositoryDir; lit "run"] in
  let dependenciesDPath := Join [repositoryDir; lit "dependencies.d"] in
  let baseDepFile := Join [dependenciesDPath; lit "base"] in
  or_fail (EnsureDirectory ctx repositoryDir) "failed to create repository directory: " (
  or_fail (WriteFile ctx (Join [repositoryDir; lit "down"]) [] mode_644) "failed to create down file: " (
  or_fail (WriteFile ctx typeFile (lit "longrun") mode_644) "failed to create type file: " (
  or_fail (EnsureDirectory ctx logServicePath) "failed to create log service directory: " (
  or_fail (WriteFile ctx logTypeFile (lit "longrun") mode_644) "failed to create log service type file: " (
  or_fail (WriteFile ctx (Join [logServicePath; lit "down"]) [] mode_644) "failed to create log service down file: " (
  or_fail (WriteFile ctx logRunPath (getLogRunScript config logDir) mode_755) "failed to write log run script: " (
  match default [] (Command config) with
  | [] => mret ([], Some (ENew "no command specified for service"))
  | command =>
      or_fail (WriteFile ctx runScript (run_script command (Env config) (MemoryLimit config) repositoryDir) mode_755)
        "failed to create S6 run script: failed to write run script: " (
      r ← createS6ConfigFiles ctx repositoryDir (ConfigFiles config);
      match r with
      | (_, Some err) => mret ([], Some (EWrap "failed to create S6 config files: " err))
      | (configFiles, None) =>
          or_fail (EnsureDirectory ctx dependenciesDPath) "failed to create dependencies.d directory: " (
          or_fail (WriteFile ctx baseDepFile [] mode_644) "failed to create base dependency file: " (
          mret ([typeFile; logTypeFile; logRunPath; runScript] ++ configFiles ++ [baseDepFile], None)))
      end)
  end))))))).

(** The artifacts, or the error that ended the creation. *)
Definition CreateArtifacts (ctx : Ctx) (servicePath : bytes) (config : S6ServiceConfig)
    : St LState (option ServiceArtifacts * option GoErr) :=
  e ← onS (ctx_err ctx);
  match e with
  | Some err => mret (None, Some err)
  | None =>
      let repositoryDir := path_of (GetS6RepositoryBaseDir persist) servicePath in
      let logDir := path_of S6LogBaseDir servicePath in
      e ← onS (remove_if_exists ctx servicePath false "failed to remove existing symlink: ");
      match e with
      | Some err => mret (None, Some err)
      | None =>
          e ← onS (remove_if_exists ctx repositoryDir false "failed to remove existing repository: ");
          match e with
          | Some err => mret (None, Some err)
          | None =>
              r ← onS (createS6FilesInRepository ctx repositoryDir config);
              match r with
              | (_, Some err) =>
                  _ ← onS (RemoveAll ctx repositoryDir);
                  mret (None, Some (EWrap "failed to create service files: " err))
              | (createdFiles, None) =>
                  e ← onS (Symlink ctx repositoryDir servicePath);
                  match e with
                  | Some err =>
                      _ ← onS (RemoveAll ctx repositoryDir);
                      mret (None, Some (EWrap "failed to create scan directory symlink: " err))
                  | None =>
                      t ← onS clock;
                      _ ← on_service (deployed servicePath t);
                      _ ← onS (EnsureSupervision ctx servicePath);
                      mret (Some (mkArtifacts None servicePath repositoryDir logDir [] createdFiles), None)
                  end
              end
          end
      end
  end.

(** [CreateArtifacts] and the store of what it returns. *)
Definition create_and_track (ctx : Ctx) (servicePath : bytes) (config : S6ServiceConfig) : St LState (option GoErr) :=
  r ← CreateArtifacts ctx servicePath config;
  match r with
  | (_, Some err) => mret (Some err)
  | (a, None) => _ ← Store a; mret None
  end.

Definition Create (ctx : Ctx) (servicePath : bytes) (config : S6ServiceConfig) : St LState (option GoErr) :=
  x ← onS (PathExists ctx servicePath);
  match x with
  | (_, Some err) => mret (Some (EWrap "failed to check if service path exists: " err))
  | (false, None) => create_and_track ctx servicePath config
  | (true, None) =>
      current ← Load;
      match current with
      | None =>
          e ← onS (RemoveAll ctx servicePath);
          match e with
          | Some err => mret (Some (EWrap "failed to remove orphaned service directory: " err))
          | None => create_and_track ctx servicePath config
          end
      | Some current =>
          h ← onS (CheckArtifactsHealth ctx current);
          if bool_decide (is_Some h.2 ∧ h.1 ≠ HealthUnknown) then
            mret (EWrap "failed to check service health: " <$> h.2)
          else if bool_decide (h.1 = HealthBad) then
            e ← onS (ForceCleanup ctx current);
            match e with
            | Some err => mret (Some (EWrap "failed to remove unhealthy service: " err))
            | None => _ ← Store None; create_and_track ctx servicePath config
            end
          else
            g ← onS (GetConfig ctx servicePath);
            match g with
            | (_, Some err) => mret (Some (EWrap "failed to get current config: " err))
            | (currentConfig, None) =>
                if Equal currentConfig config then mret None
                else
                  r ← onS (RemoveArtifacts ctx current);
                  _ ← Store (Some r.1);
                  match r.2 with
                  | Some err => mret (Some (EWrap "failed to remove service for recreation: " err))
                  | None => _ ← Store None; create_and_track ctx servicePath config
                  end
            end
      end
  end.

(** ** Remove and ForceRemove *)

(** Nothing is tracked: probe the three paths. *)
Definition remove_untracked (ctx : Ctx) (servicePath : bytes) : St S (option GoErr) :=
  let repoPath := path_of (GetS6RepositoryBaseDir persist) servicePath in
  let logPath := path_of S6LogBaseDir servicePath in
  x ← PathExists ctx servicePath;
  match x with
  | (_, Some err) => mret (Some (EWrap "failed to probe service path during no-tracking remove: " err))
  | (serviceExists, None) =>
      y ← PathExists ctx repoPath;
      match y with
      | (_, Some err) => mret (Some (EWrap "failed to probe repository path during no-tracking remove: " err))
      | (repoExists, None) =>
          z ← PathExists ctx logPath;
          match z with
          | (_, Some err) => mret (Some (EWrap "failed to probe log path during no-tracking remove: " err))
          | (logExists, None) =>
              if serviceExists || repoExists || logExists then
                mret (Some (ENew (PermanentFailureError +:+ ": untracked on-disk state for service " +:+ str (Base servicePath))))
              else mret (Some ErrServiceNotExist)
          end
      end
  end.

Definition Remove (ctx : Ctx) (servicePath : bytes) : St LState (option GoErr) :=
  e ← onS (ctx_err ctx);
  match e with
  | Some err => mret (Some err)
  | None =>
      current ← Load;
      match current with
      | Some current =>
          match CreatedFiles current with
          | [] => onS (remove_untracked ctx servicePath)
          | _ =>
              r ← onS (RemoveArtifacts ctx current);
              _ ← Store (Some r.1);
              match r.2 with
              | Some err => mret (Some err)
              | None => _ ← Store None; mret None
              end
          end
      | None => onS (remove_untracked ctx servicePath)
      end
  end.

Definition ForceRemove (ctx0 : Ctx) (servicePath : bytes) : St LState (option GoErr) :=
  _ ← onS (ctx_err ctx0);
  ctx ← onS (WithTimeout Background ForceRemovalTimeout);
  e ← onS (ForceCleanup ctx (mkArtifacts None servicePath (path_of (GetS6RepositoryBaseDir persist) servicePath)
                               (path_of S6LogBaseDir servicePath) [] []));
  match e with
  | Some err => mret (Some err)
  | None => _ ← Store None; mret None
  end.

(** ** Start, Stop, Restart *)

(** The existence check the three share. *)
Definition if_exists (ctx : Ctx) (servicePath : bytes) (k : St S (option GoErr)) : St S (option GoErr) :=
  x ← ServiceExists ctx servicePath;
  match x with
  | (_, Some err) => mret (Some (EWrap "failed to check if service exists: " err))
  | (false, None) => mret (Some ErrServiceNotExist)
  | (true, None) => k
  end.

Definition s6_svc (ctx : Ctx) (servicePath option_ target : bytes) (what : string) (k : St S (option GoErr))
    : St S (option GoErr) :=
  r ← ExecuteS6Command ctx servicePath (lit "s6-svc") [option_; target];
  match r with
  | (_, Some err) => mret (Some (EWrap what err))
  | (_, None) => k
  end.

Fixpoint remove_down_files (ctx : Ctx) (files : list bytes) : St S unit :=
  match files with
  | [] => mret tt
  | f :: fs =>
      x ← FileExists ctx f;
      _ ← (if x.1 : bool then FileSystem.Remove ctx f else mret None);
      remove_down_files ctx fs
  end.

Fixpoint write_down_files (ctx : Ctx) (files : list bytes) : St S unit :=
  match files with
  | [] => mret tt
  | f :: fs => _ ← WriteFile ctx f [] mode_644; write_down_files ctx fs
  end.

Definition Start (ctx : Ctx) (servicePath : bytes) : St S (option GoErr) :=
  if_exists ctx servicePath (
    _ ← remove_down_files ctx (downFiles servicePath);
    s6_svc ctx servicePath (lit "-u") (Join [servicePath; lit "log"]) "failed to start log service: " (
    s6_svc ctx servicePath (lit "-u") servicePath "failed to start service: " (mret None))).

Definition Stop (ctx : Ctx) (servicePath : bytes) : St S (option GoErr) :=
  if_exists ctx servicePath (
    s6_svc ctx servicePath (lit "-d") servicePath "failed to stop service: " (
    s6_svc ctx servicePath (lit "-d") (Join [servicePath; lit "log"]) "failed to stop log service: " (
    _ ← write_down_files ctx (downFiles servicePath); mret None))).

Definition Restart (ctx : Ctx) (servicePath : bytes) : St S (option GoErr) :=
  if_exists ctx servicePath (
    s6_svc ctx servicePath (lit "-r") servicePath "failed to restart service: " (mret None)).
(** ** The start of the agent *)

(** [strings.HasSuffix]. *)
Definition HasSuffix (s suffix : bytes) : bool := bool_decide (drop (length s - length suffix) s = suffix).

Definition knownServices : list bytes :=
  [lit "s6-linux-init-shutdownd"; lit "s6rc-fdholder"; lit "s6rc-oneshot-runner"; lit "umh-core"; lit ".s6-svscan";
   lit "user"; lit "s6-rc"; lit "log-user-service"].

Definition IsKnownService (name : bytes) : bool :=
  bool_decide (name ∈ knownServices) || (HasSuffix name (lit "-log") || HasSuffix name (lit "-prepare") || HasSuffix name (lit "-log-prepare")).

(** The result of each removal goes to the log only. *)
Fixpoint clean_entries (ctx : Ctx) (path : bytes) (es : list DirEntry) : St S unit :=
  match es with
  | [] => mret tt
  | e :: es =>
      if IsDir e && negb (IsKnownService (Name e)) then
        _ ← RemoveAll ctx (Join [path; Name e]); clean_entries ctx path es
      else clean_entries ctx path es
  end.

Definition CleanS6ServiceDirectory (ctx : Ctx) (path : bytes) : St S (option GoErr) :=
  e ← ctx_err ctx;
  match e with
  | Some err => mret (Some (EWrap "context is done: " err))
  | None =>
      r ← ReadDir ctx path;
      match r with
      | (_, Some err) => mret (Some (EWrap "failed to read S6 service directory: " err))
      | (es, None) => _ ← clean_entries ctx path es; mret None
      end
  end.
End lifecycle.
