(* ===== verification/S6LifecycleFacts.v ===== *)
(** * S6LifecycleFacts: what the removal of an S6 service guarantees

    The theorems about the removal half of [S6Lifecycle], against the laws of
    the file system service ([ServiceLaws]): what a forced removal
    that succeeds leaves leads nowhere, the ordinary removal makes recorded
    progress and is resumed where it failed.  The witnesses run the default
    file system service on [MemOS]. *)

From S2P Require Import Prelude StateMonad GoRuntime Backoff GoBytes FileSystem MemOS FileTrace S6Logs S6Config S6Lifecycle.
From Stdlib Require Import Ascii.
Local Open Scope Z_scope.

(** ** What the calls of the file system leave *)

Section laws.
Context {S : Type} `{ServiceLaws S}.
Context (exit_code : GoErr → option Z) (persist : bool) (range : gmap bytes bytes → list (bytes * bytes)).

(** [m] preserves [P] of the file system. *)
Definition holds {A} (P : S → Prop) (m : St S A) : Prop := ∀ s, P s → P (m s).2.

Lemma holds_ret {A} P (a : A) : holds P (mret a).
Proof using Type. by intros s. Qed.

Lemma holds_bind {A B} P (m : St S A) (f : A → St S B) : holds P m → (∀ a, holds P (f a)) → holds P (m ≫= f).
Proof using Type.
  intros Hm Hf s HP. unfold mbind, St_bind. specialize (Hm s HP). destruct (m s). by apply Hf.
Qed.

Definition untouched (q : bytes) (s : S) : Prop := sane s ∧ ¬ present s q.
Definition intact (q : bytes) (s : S) : Prop := sane s ∧ present s q.

Lemma clock_holds P : (P = sane ∨ (∃ q, P = untouched q) ∨ ∃ q, P = intact q) → holds P clock.
Proof using Type*.
  intros [->|[[q ->]|[q ->]]] s.
  - apply svc_clock_sane.
  - intros [Hs Hp]. split; [by apply svc_clock_sane|]. by rewrite svc_clock_same.
  - intros [Hs Hp]. split; [by apply svc_clock_sane|]. by rewrite svc_clock_same.
Qed.

Lemma ctx_err_holds P ctx : holds P clock → holds P (ctx_err ctx).
Proof using Type. intros Hc s HP. unfold ctx_err, ctx_Err. specialize (Hc s HP). by destruct (clock s). Qed.

Lemma PathExists_sane ctx p : holds sane (PathExists ctx p).
Proof using Type*. intros s. apply (perform_sane (CPathExists ctx p)). Qed.
Lemma ReadDir_sane ctx p : holds sane (ReadDir ctx p).
Proof using Type*. intros s. apply (perform_sane (CReadDir ctx p)). Qed.
Lemma RemoveAll_sane ctx p : holds sane (RemoveAll ctx p).
Proof using Type*. intros s. apply (perform_sane (CRemoveAll ctx p)). Qed.
Lemma WriteFile_sane ctx p d m : holds sane (WriteFile ctx p d m).
Proof using Type*. intros s. apply (perform_sane (CWriteFile ctx p d m)). Qed.
Lemma EnsureDirectory_sane ctx p : holds sane (EnsureDirectory ctx p).
Proof using Type*. intros s. apply (perform_sane (CEnsureDirectory ctx p)). Qed.
Lemma ExecuteCommand_sane ctx n args : holds sane (ExecuteCommand ctx n args).
Proof using Type*. intros s. apply (perform_sane (CExecuteCommand ctx n args)). Qed.
Lemma Symlink_sane ctx t l : holds sane (Symlink ctx t l).
Proof using Type*. intros s. apply (perform_sane (CSymlink ctx t l)). Qed.

(** An existence check: the state keeps its paths, and "no" without an error is true. *)
Lemma PathExists_spec ctx p s r s' : sane s → PathExists ctx p s = (r, s') →
  sane s' ∧ (∀ q, present s' q ↔ present s q) ∧ (r = (false, None) → ¬ present s' p) ∧
  (present s p → r.1 = true ∨ is_Some r.2).
Proof using Type*.
  intros Hs E. split; [|split; [|split]].
  - pose proof (PathExists_sane ctx p s Hs) as H3. by rewrite E in H3.
  - intros q. pose proof (PathExists_same ctx p q s) as Hq. by rewrite E in Hq.
  - intros ->. by apply (PathExists_no _ _ _ _ Hs E).
  - intros Hp. destruct r as [[] e]; [by left|]. right. by apply (PathExists_wrong_no _ _ _ _ _ Hs Hp E).
Qed.

(** ** ForceRemove leaves nothing that leads anywhere *)

Lemma verify_cleanup_spec ctx a s s' : sane s → verify_cleanup ctx a s = (None, s') →
  sane s' ∧ ¬ present s' (ServiceDir a) ∧ ¬ present s' (LogDir a) ∧ (RepositoryDir a ≠ [] → ¬ present s' (RepositoryDir a)).
Proof using Type*.
  intros Hs. unfold verify_cleanup, mbind, St_bind.
  destruct (PathExists ctx (ServiceDir a) s) as [[b1 [e1|]] s1] eqn:E1; [done|].
  destruct (PathExists_spec _ _ _ _ _ Hs E1) as (Hs1 & Hq1 & Hn1 & _).
  destruct (PathExists ctx (LogDir a) s1) as [[b2 [e2|]] s2] eqn:E2; [done|].
  destruct (PathExists_spec _ _ _ _ _ Hs1 E2) as (Hs2 & Hq2 & Hn2 & _).
  destruct (bool_decide_reflect (RepositoryDir a = [])) as [Hr|Hr].
  - cbn. destruct b1, b2; try done. intros [= <-]. split_and!; [done|by rewrite Hq2; apply Hn1|by apply Hn2|done].
  - destruct (PathExists ctx (RepositoryDir a) s2) as [[b3 [e3|]] s3] eqn:E3; [done|].
    destruct (PathExists_spec _ _ _ _ _ Hs2 E3) as (Hs3 & Hq3 & Hn3 & _).
    destruct b1, b2, b3; try done. intros [= <-]. split_and!; [done|by rewrite Hq3, Hq2; apply Hn1|by rewrite Hq3; apply Hn2|].
    intros _. by apply Hn3.
Qed.

Ltac holds_tac := repeat first
  [ apply holds_ret | apply holds_bind; [|intro]
  | apply ctx_err_holds | apply clock_holds; by left
  | apply PathExists_sane | apply ReadDir_sane | apply RemoveAll_sane | apply WriteFile_sane
  | apply EnsureDirectory_sane | apply ExecuteCommand_sane | apply Symlink_sane
  | match goal with |- holds _ (match ?x with _ => _ end) => destruct x end ].

Lemma ExecuteS6Command_sane ctx p n args : holds sane (ExecuteS6Command exit_code ctx p n args).
Proof using Type*. unfold ExecuteS6Command. holds_tac. Qed.

Lemma stopServiceCleanly_sane ctx p : holds sane (stopServiceCleanly exit_code ctx p).
Proof using Type*.
  unfold stopServiceCleanly, stop_one, calculateS6Timeout. holds_tac; apply ExecuteS6Command_sane.
Qed.

Lemma unsuperviseService_sane ctx p : holds sane (unsuperviseService exit_code ctx p).
Proof using Type*.
  unfold unsuperviseService, verifySupervisionEnded, checkSingleSupervisionEnded, calculateS6Timeout.
  holds_tac; apply ExecuteS6Command_sane.
Qed.

Lemma removeDirectory_sane ctx p : holds sane (removeDirectoryWithTimeout ctx p).
Proof using Type*.
  unfold removeDirectoryWithTimeout, logDirectoryContentsIfNotEmpty. holds_tac.
Qed.

Lemma createDownFiles_sane ctx a : holds sane (createDownFiles ctx a).
Proof using Type*. unfold createDownFiles. induction (downFiles _) as [|f fs IH]; simpl; holds_tac. done. Qed.

(** Before the verification, whatever happened. *)
Lemma ForceCleanup_gone ctx a s s' : sane s → RepositoryDir a ≠ [] → ForceCleanup exit_code ctx a s = (None, s') →
  sane s' ∧ ¬ present s' (ServiceDir a) ∧ ¬ present s' (LogDir a) ∧ ¬ present s' (RepositoryDir a).
Proof using Type*.
  intros Hs Hr. unfold ForceCleanup. unfold mbind at 1, St_bind at 1.
  pose proof (ctx_err_holds sane ctx (clock_holds sane (or_introl eq_refl)) s Hs) as Hs1.
  destruct (ctx_err ctx s) as [[err|] s1]; [done|]. cbn [snd] in Hs1.
  assert (∀ A (m : St S A) (k : A → St S (option GoErr)) s, sane s → holds sane m →
    (m ≫= k) s = (None, s') → ∃ a s1, sane s1 ∧ k a s1 = (None, s')) as Hstep.
  { intros A m k s2 Hs2 Hm. unfold mbind, St_bind. specialize (Hm s2 Hs2). destruct (m s2). eauto. }
  intros E. do 7 (apply Hstep in E as (? & ? & ? & E); [|assumption|]).
  1: { edestruct verify_cleanup_spec as (? & ? & ? & Hrep); [|exact E|]; [done|]. auto. }
  all: try case_bool_decide; auto using createDownFiles_sane, stopServiceCleanly_sane, unsuperviseService_sane,
    removeDirectory_sane, ExecuteS6Command_sane, holds_ret.
Qed.

Lemma Join_not_nil base x : IsAbs base = true → Join [base; x] ≠ [].
Proof using Type.
  unfold IsAbs. destruct base as [|a base]; [done|]. intros Ha. cbn [Join].
  destruct (join_with [slash] [a :: base; x]) as [|c l] eqn:E; [by destruct x|].
  assert (c = slash) as ->.
  { cbn in Ha. destruct (bool_decide_reflect ("/"%char = a)) as [<-|]; [|done]. cbn in E. by injection E as <- _. }
  unfold Clean. rewrite bool_decide_true by done. done.
Qed.

Lemma repository_not_nil servicePath : path_of (GetS6RepositoryBaseDir persist) servicePath ≠ [].
Proof using Type. apply Join_not_nil. by destruct persist. Qed.

(** The three places a service occupies. *)
Definition places (servicePath : bytes) : list bytes :=
  [servicePath; path_of (GetS6RepositoryBaseDir persist) servicePath; path_of S6LogBaseDir servicePath].

Lemma ForceRemove_gone ctx servicePath (s s' : LState (S:=S)) e :
  sane s.2 → ForceRemove exit_code persist ctx servicePath s = (e, s') →
  match e with
  | None => artifacts s'.1 = None ∧ ∀ p, p ∈ places servicePath → ¬ present s'.2 p
  | Some _ => artifacts s'.1 = artifacts s.1
  end.
Proof using Type*.
  intros Hs. unfold ForceRemove, mbind, St_bind, onS.
  assert (∀ A (m : St S A) w, sane w → holds sane m → sane (m w).2) as Hh by auto.
  pose proof (Hh _ (ctx_err ctx) s.2 Hs (ctx_err_holds sane ctx (clock_holds sane (or_introl eq_refl)))) as Hs1.
  destruct (ctx_err ctx s.2) as [c w1]. cbn [fst snd] in *.
  pose proof (svc_clock_sane w1 Hs1) as Hs2. unfold WithTimeout. destruct (clock w1) as [t w2]. cbn [fst snd] in *.
  destruct (ForceCleanup _ _ _ w2) as [[err|] w3] eqn:E; cbn.
  - by intros [= <- <-].
  - intros [= <- <-]. apply ForceCleanup_gone in E as (_ & H1' & H2' & H3'); [|done|apply repository_not_nil].
    split; [done|]. cbn [ServiceDir LogDir RepositoryDir] in *. unfold places. set_solver.
Qed.

(** C36: what a forced removal that succeeds leaves leads nowhere.  Whatever the
    state of the service, whatever calls failed on the way and however little
    time the caller had left, when [ForceRemove] returns nil neither the scan
    directory entry nor the repository nor the log directory leads to anything,
    nothing is tracked and the health check asks for nothing; when it fails,
    what is tracked is what was tracked.  The check behind it follows links: an
    entry of the scan directory whose own removal failed may stay as a link
    that leads nowhere ([dangling_link_stays]). *)
Theorem force_remove_leads_nowhere (ctx : Ctx) (servicePath : bytes) (s s' : LState (S:=S)) (e : option GoErr) :
  sane s.2 → ForceRemove exit_code persist ctx servicePath s = (e, s') →
  match e with
  | None => artifacts s'.1 = None ∧ (∀ p, p ∈ places servicePath → ¬ present s'.2 p) ∧
            ∀ ctx', Health ctx' s' = (ActionOK, s')
  | Some _ => artifacts s'.1 = artifacts s.1
  end.
Proof using Type*.
  intros Hs E. pose proof (ForceRemove_gone _ _ _ _ _ Hs E) as Hg. destruct e; [done|].
  destruct Hg as [Ha Hp]. split_and!; [done..|]. intros ctx'. unfold Health, mbind, St_bind, Load. by rewrite Ha.
Qed.
End laws.

(** ** The removal and its progress *)

Section removal.
Context {S : Type} `{World S} `{Service S}.
Context (exit_code : GoErr → option Z) (persist : bool).

(** The steps are done in their order, the symlink with the directories, and
    not all of them: artifacts that are fully removed are not tracked. *)
Definition ordered (p : RemovalProgress) : Prop :=
  (ServiceUnsupervised p = true → ServiceStopped p = true) ∧ DirectoriesRemoved p = false ∧ SymlinkRemoved p = false.

Definition tracked_ok (a : ServiceArtifacts) : Prop :=
  CreatedFiles a ≠ [] ∧ ∀ p, Progress a = Some p → ordered p.

(** Progress only grows. *)
Definition progress_le (p q : option RemovalProgress) : Prop :=
  match p, q with
  | None, _ => True
  | Some p, Some q => (ServiceStopped p = true → ServiceStopped q = true) ∧
                      (ServiceUnsupervised p = true → ServiceUnsupervised q = true)
  | Some _, None => False
  end.

Definition same_places (a a' : ServiceArtifacts) : Prop :=
  ServiceDir a' = ServiceDir a ∧ RepositoryDir a' = RepositoryDir a ∧ LogDir a' = LogDir a ∧ CreatedFiles a' = CreatedFiles a.

Lemma unless_done_cases b act a k (s : S) (r : ServiceArtifacts * option GoErr) s' :
  unless_done b act a k s = (r, s') →
  (b = true ∧ k s = (r, s')) ∨
  (b = false ∧ ∃ e s1, act s = (e, s1) ∧ ((e = None ∧ k s1 = (r, s')) ∨ (is_Some e ∧ r = (a, e) ∧ s' = s1))).
Proof.
  unfold unless_done. destruct b; [by left|]. unfold mbind, St_bind. destruct (act s) as [[e|] s1] eqn:E.
  - intros [= <- <-]. right. split; [done|]. exists (Some e), s1. split; [done|]. right. eauto.
  - intros Hk. right. split; [done|]. exists None, s1. split; [done|]. by left.
Qed.

Lemma init_progress a : tracked_ok a → ∃ p, Progress (InitRemovalProgress a) = Some p ∧
  same_places a (InitRemovalProgress a) ∧ ordered p ∧ progress_le (Progress a) (Some p).
Proof.
  intros [_ Hok]. unfold InitRemovalProgress. destruct (Progress a) as [q|] eqn:Eq.
  - exists q. split; [done|]. split; [done|]. split; [by apply Hok|by split].
  - eexists. split; [done|]. split; [done|]. by split.
Qed.

(** Recording more of the stop and unsupervise steps keeps the artifacts in order. *)
Lemma record_step a p st un : tracked_ok a → ordered p → same_places a (InitRemovalProgress a) →
  progress_le (Progress a) (Some p) → (un = true → st = true) →
  (ServiceStopped p = true → st = true) → (ServiceUnsupervised p = true → un = true) →
  let a' := set_progress (Some (mkProgress (SymlinkRemoved p) st un (DirectoriesRemoved p))) (InitRemovalProgress a) in
  same_places a a' ∧ tracked_ok a' ∧ progress_le (Progress a) (Progress a') ∧ Progress a' ≠ None.
Proof.
  intros [Hf Hok] (Ho1 & Ho2 & Ho3) (Hp1 & Hp2 & Hp3 & Hp4) Hle Hun Hs Hu a'.
  split; [done|]. split; [|split; [|done]].
  - split; [cbn; by rewrite Hp4|]. intros q [= <-]. by split.
  - cbn. destruct (Progress a) as [q|]; [|done]. destruct Hle. split; cbn; auto.
Qed.

(** What an interrupted attempt leaves tracked. *)
Definition resumable (a a' : ServiceArtifacts) : Prop :=
  same_places a a' ∧ tracked_ok a' ∧ progress_le (Progress a) (Progress a').

(** One attempt: either it did not start, or it stopped at the first step that
    failed with the steps before it recorded, or all steps are done, the
    directories as the last one. *)
Lemma RemoveArtifacts_cases ctx a (s : S) a' e s' : tracked_ok a → RemoveArtifacts exit_code ctx a s = ((a', e), s') →
  match e with
  | Some err => resumable a a' ∧ (Progress a' = None → a' = a ∧ (ctx_err ctx s).1 = Some err)
  | None => IsFullyRemoved a' = true ∧ ∃ s1, directories_step ctx (InitRemovalProgress a) s1 = (None, s') ∧
      ∀ P, holds P (ctx_err ctx) → holds P (stop_step exit_code ctx (InitRemovalProgress a)) →
        holds P (unsupervise_step exit_code ctx (InitRemovalProgress a)) → P s → P s1
  end.
Proof.
  intros Hok. unfold RemoveArtifacts. unfold mbind at 1, St_bind at 1.
  destruct (ctx_err ctx s) as [[err|] s1] eqn:Ec; cbn beta iota.
  { intros [= <- <- <-]. split; [|done]. split; [done|]. split; [done|]. by destruct (Progress a); simpl. }
  destruct (init_progress a Hok) as (p & Hp & Hsame & Ho & Hle). rewrite Hp. cbn [default].
  pose proof Ho as (Hun & Hd & _).
  assert (IsFullyRemoved (InitRemovalProgress a) = false) as ->.
  { unfold IsFullyRemoved. rewrite Hp, Hd. by rewrite andb_false_r. }
  cbv zeta. unfold id. set (a0 := InitRemovalProgress a) in *.
  assert (∀ st un err, (un = true → st = true) → (ServiceStopped p = true → st = true) → (ServiceUnsupervised p = true → un = true) →
    let a' := set_progress (Some (mkProgress (SymlinkRemoved p) st un (DirectoriesRemoved p))) a0 in
    resumable a a' ∧ (Progress a' = None → a' = a ∧ (ctx_err ctx s).1 = Some err)) as Hstep.
  { intros st un err H1' H2' H3'. destruct (record_step a p st un Hok Ho Hsame Hle H1' H2' H3') as (? & ? & ? & ?). done. }
  assert (a0 = set_progress (Some (mkProgress (SymlinkRemoved p) (ServiceStopped p) (ServiceUnsupervised p) (DirectoriesRemoved p))) a0) as Ha0.
  { destruct a0. cbn in Hp. subst. unfold set_progress. cbn. by destruct p. }
  intros E. apply unless_done_cases in E as [[Hst E]|[Hst (e1 & s2 & E1 & [[-> E]|([err ->] & [= -> ->] & ->)])]];
    [| |rewrite Ec in Hstep; rewrite Ha0; apply Hstep; auto].
  all: apply unless_done_cases in E as [[Hus E]|[Hus (e2 & s3 & E2 & [[-> E]|([err ->] & [= -> ->] & ->)])]];
    [| |rewrite Ec in Hstep; apply Hstep; by auto].
  all: apply unless_done_cases in E as [[? E]|[_ (e3 & s4 & E3 & [[-> E]|([err ->] & [= -> ->] & ->)])]];
    [congruence| |rewrite Ec in Hstep; apply Hstep; by auto].
  all: rewrite Hd in E; injection E as <- <- <-; split; [done|]; eexists; split; [exact E3|];
    intros P Hc Hs1 Hs2 HP; specialize (Hc s HP); rewrite Ec in Hc.
  all: repeat match goal with
    | E1 : ?m ?w = _, Hs : holds ?Q ?m, HP : ?Q (_, ?w).2 |- _ => specialize (Hs w HP); rewrite E1 in Hs
    end; done.
Qed.
(** One of the two looks at the context with which a removal starts found it done. *)
Definition ctx_done (ctx : Ctx) (s : S) (e : option GoErr) : Prop :=
  (ctx_err ctx s).1 = e ∨ (ctx_err ctx (ctx_err ctx s).2).1 = e.

(** The service tracks nothing or artifacts in order. *)
Definition well_tracked (s : S6Service) : Prop := ∀ a, artifacts s = Some a → tracked_ok a.

Lemma well_tracked_some (s : S6Service) a : artifacts s = Some a → tracked_ok a → well_tracked s.
Proof. intros Ha Hok b Hb. by simplify_eq. Qed.

(** [Remove] on tracked artifacts. *)
Lemma Remove_tracked ctx path (s : LState (S:=S)) a : artifacts s.1 = Some a → tracked_ok a →
  Remove exit_code persist ctx path s =
    match (ctx_err ctx s.2).1 with
    | Some err => (Some err, (s.1, (ctx_err ctx s.2).2))
    | None =>
        let r := RemoveArtifacts exit_code ctx a (ctx_err ctx s.2).2 in
        (r.1.2, (set_artifacts (match r.1.2 with Some _ => Some r.1.1 | None => None end) s.1, r.2))
    end.
Proof.
  intros Ha [Hf _]. unfold Remove, onS, Load, Store. unfold mbind at 1, St_bind at 1.
  destruct (ctx_err ctx s.2) as [[err|] w]; [done|]. unfold mbind at 1, St_bind at 1. cbn [fst snd]. rewrite Ha.
  destruct (CreatedFiles a) as [|f fs]; [done|]. unfold mbind, St_bind. cbn [fst snd].
  destruct (RemoveArtifacts exit_code ctx a w) as [[a' [err|]] w']; done.
Qed.

End removal.

(** ** What a removal did, and why it failed *)

(** A computation whose result satisfies [P] when none of its calls failed. *)
Definition succeeded (e : CallEvent) : Prop := ev_failed e = false.
Definition calm {S A} (P : A → Prop) (m : St (TState S) A) : Prop :=
  ∀ s, ∃ l, (m s).2.2 = s.2 ++ l ∧ (Forall succeeded l → P (m s).1).

Section calm.
Context {S : Type}.
Implicit Types m : St (TState S) nat.

Lemma calm_ret {A} (P : A → Prop) a : P a → calm (S:=S) P (mret a).
Proof. intros HP s. exists []. by rewrite app_nil_r. Qed.

Lemma calm_weaken {A} (P Q : A → Prop) (m : St (TState S) A) : calm P m → (∀ a, P a → Q a) → calm Q m.
Proof. intros Hm HPQ s. destruct (Hm s) as (l & Hl & HP). exists l. split; [done|]. intros. by apply HPQ, HP. Qed.

(** After a computation that went well go on; after the others, too, only call. *)
Lemma calm_bind {A B} P (Q : B → Prop) (m : St (TState S) A) (f : A → St (TState S) B) :
  calm P m → (∀ a, P a → calm Q (f a)) → (∀ a, calm (λ _, True) (f a)) → calm Q (m ≫= f).
Proof.
  intros Hm Hf Ht s. destruct (Hm s) as (l & Hl & HP). unfold mbind, St_bind. destruct (m s) as [a s1]. cbn in *.
  destruct (Ht a s1) as (l2 & Hl2 & _). exists (l ++ l2). rewrite Hl2, Hl, app_assoc. split; [done|].
  intros [Hg Hg2]%Forall_app. destruct (Hf a (HP Hg) s1) as (l3 & Hl3 & HQ). apply HQ.
  rewrite Hl2 in Hl3. by apply app_inv_head in Hl3 as <-.
Qed.

Lemma calm_record {A} c (m : St S A) bad : calm (λ a, bad a = false) (record c m bad).
Proof. intros s. unfold record. destruct (m s.1). eexists. split; [done|]. by intros [Hb _]%Forall_cons. Qed.

Lemma calm_silently {A} (m : St S A) : calm (λ _, True) (silently m).
Proof. intros s. unfold silently. destruct (m s.1). exists []. cbn. by rewrite app_nil_r. Qed.

Lemma calm_holds {A} (P : A → Prop) (m : St (TState S) A) l0 : calm P m → holds (λ s, ∃ l, s.2 = l0 ++ l) m.
Proof.
  intros Hm s [l Hl]. destruct (Hm s) as (l' & Hl' & _). exists (l ++ l'). etrans; [exact Hl'|]. by rewrite Hl, app_assoc.
Qed.
End calm.

Section outcome.
Context {S : Type} `{World S} `{Service S}.
Context (exit_code : GoErr → option Z).

Lemma PathExists_calm ctx p : calm (S:=S) (λ r, r.2 = None) (PathExists ctx p).
Proof. eapply calm_weaken; [apply calm_record|]. by intros [b [e|]]. Qed.
Lemma ReadDir_calm ctx p : calm (S:=S) (λ _, True) (ReadDir ctx p).
Proof. by eapply calm_weaken; [apply calm_record|]. Qed.
Lemma RemoveAll_calm ctx p : calm (S:=S) (λ e, e = None) (RemoveAll ctx p).
Proof. eapply calm_weaken; [apply calm_record|]. by intros [e|]. Qed.
Lemma ExecuteCommand_calm ctx n args : calm (S:=S) (λ r, r.2 = None) (ExecuteCommand ctx n args).
Proof. eapply calm_weaken; [apply calm_record|]. by intros [b [e|]]. Qed.
Lemma clock_calm : calm (S:=S) (λ _, True) clock.
Proof. apply calm_silently. Qed.
Lemma ctx_err_calm ctx : calm (S:=S) (λ _, True) (ctx_err ctx).
Proof. intros s. unfold ctx_err, ctx_Err. destruct (clock_calm s) as (l & Hl & _). exists l. by destruct (clock s). Qed.

(** Unfold a computation into its calls, once for the results and once for
    the trace; [known] finds the lemma of a call. *)
Ltac known := first [ apply PathExists_calm | apply ReadDir_calm | apply RemoveAll_calm | apply ExecuteCommand_calm
                    | apply clock_calm | apply ctx_err_calm ].
Ltac calm_with known := repeat first
  [ done
  | apply calm_ret; simplify_eq/=; done
  | eapply calm_weaken; [known ()|by intros]
  | eapply calm_bind; [known ()|intros|intros]
  | match goal with |- calm _ (match ?x with _ => _ end) => destruct x; simplify_eq/= end ].

Lemma ExecuteS6Command_calm ctx p n args : calm (S:=S) (λ r, r.2 = None) (ExecuteS6Command exit_code ctx p n args).
Proof. unfold ExecuteS6Command. calm_with ltac:(fun _ => known). Qed.

Lemma calculateS6Timeout_calm ctx : calm (S:=S) (λ _, True) (calculateS6Timeout ctx).
Proof. unfold calculateS6Timeout. calm_with ltac:(fun _ => known). Qed.

Ltac known1 := first [ known | apply ExecuteS6Command_calm | apply calculateS6Timeout_calm ].

Lemma stop_one_calm ctx p : calm (S:=S) (λ e, e = None) (stop_one exit_code ctx p).
Proof. unfold stop_one. calm_with ltac:(fun _ => known1). Qed.
Lemma check_calm ctx p : calm (S:=S) (λ e, e = None) (checkSingleSupervisionEnded ctx p).
Proof. unfold checkSingleSupervisionEnded. calm_with ltac:(fun _ => known1). Qed.

Ltac known2 := first [ known1 | apply stop_one_calm | apply check_calm ].

Lemma stopServiceCleanly_calm ctx p : calm (S:=S) (λ e, e = None) (stopServiceCleanly exit_code ctx p).
Proof. unfold stopServiceCleanly. calm_with ltac:(fun _ => known2). Qed.
Lemma verifySupervisionEnded_calm ctx p : calm (S:=S) (λ e, e = None) (verifySupervisionEnded ctx p).
Proof. unfold verifySupervisionEnded. calm_with ltac:(fun _ => known2). Qed.

Ltac known3 := first [ known2 | apply stopServiceCleanly_calm | apply verifySupervisionEnded_calm ].

Lemma unsuperviseService_calm ctx p : calm (S:=S) (λ e, e = None) (unsuperviseService exit_code ctx p).
Proof. unfold unsuperviseService. calm_with ltac:(fun _ => known3). Qed.
Lemma exists_quietly_calm ctx p : calm (S:=S) (λ _, True) (exists_quietly ctx p).
Proof. unfold exists_quietly. calm_with ltac:(fun _ => known). Qed.

Ltac known4 := first [ known3 | apply exists_quietly_calm | apply unsuperviseService_calm ].

Lemma stop_step_calm ctx a : calm (S:=S) (λ e, e = None) (stop_step exit_code ctx a).
Proof. unfold stop_step. calm_with ltac:(fun _ => known4). Qed.
Lemma unsupervise_step_calm ctx a : calm (S:=S) (λ e, e = None) (unsupervise_step exit_code ctx a).
Proof. unfold unsupervise_step. calm_with ltac:(fun _ => known4). Qed.
Lemma remove_if_exists_calm ctx p listed what : calm (S:=S) (λ e, e = None) (remove_if_exists ctx p listed what).
Proof.
  unfold remove_if_exists, logDirectoryContentsIfNotEmpty.
  assert (calm (S:=S) (λ _, True) (if listed then _ ← ReadDir ctx p; mret tt else mret tt)) as Hl
    by (destruct listed; calm_with ltac:(fun _ => known4)).
  calm_with ltac:(fun _ => first [apply Hl | known4]).
Qed.
Lemma directories_step_calm ctx a : calm (S:=S) (λ e, e = None) (directories_step ctx a).
Proof. unfold directories_step. calm_with ltac:(fun _ => apply remove_if_exists_calm). Qed.

Lemma unless_done_calm b act a (k : St (TState S) (ServiceArtifacts * option GoErr)) :
  calm (λ e, e = None) act → calm (λ r, r.2 = None) k → calm (λ r, r.2 = None) (unless_done b act a k).
Proof.
  intros Ha Hk. unfold unless_done. destruct b; [done|]. eapply calm_bind; [exact Ha| |].
  - by intros e ->.
  - intros [e|]; [by apply calm_ret|]. by eapply calm_weaken.
Qed.

(** Unless the context is done, an attempt in which no call fails completes. *)
Lemma RemoveArtifacts_calm ctx a (s : TState S) a' e s' : RemoveArtifacts exit_code ctx a s = ((a', e), s') →
  ∃ l, s'.2 = s.2 ++ l ∧ (Forall succeeded l → e = None ∨ (ctx_err ctx s).1 = e).
Proof.
  unfold RemoveArtifacts. unfold mbind at 1, St_bind at 1.
  destruct (ctx_err_calm ctx s) as (l & Hl & _). destruct (ctx_err ctx s) as [[err|] s1]; cbn in Hl |- *.
  { intros [= <- <- <-]. exists l. auto. }
  destruct (IsFullyRemoved _); [intros [= <- <- <-]; exists l; auto|]. intros E.
  match type of E with ?m s1 = _ => assert (calm (λ r, r.2 = None) m) as Hm end.
  { apply unless_done_calm; [apply stop_step_calm|]. apply unless_done_calm; [apply unsupervise_step_calm|].
    apply unless_done_calm; [apply directories_step_calm|]. by apply calm_ret. }
  destruct (Hm s1) as (l2 & Hl2 & H2'). rewrite E in Hl2, H2'. exists (l ++ l2). rewrite app_assoc, <- Hl.
  split; [exact Hl2|]. intros [_ Hs]%Forall_app. left. by apply H2'.
Qed.
End outcome.

(** No existence check failed. *)
Definition answered (e : CallEvent) : Prop := match ev_call e with CPathExists _ _ => ev_failed e = false | _ => True end.

Lemma succeeded_answered l : Forall succeeded l → Forall answered l.
Proof. intros Hl. eapply Forall_impl; [exact Hl|]. intros [c b] Hb. by destruct c. Qed.

Section gone.
Context {S : Type} `{ServiceLaws S}.
Context (exit_code : GoErr → option Z) (persist : bool).

(** What every step of a removal does: it adds no path and its calls to the trace. *)
Definition shrinks_to (s s' : TState S) (l : list CallEvent) : Prop :=
  sane s' ∧ (∀ q, present s' q → present s q) ∧ s'.2 = s.2 ++ l.

Lemma shrinks_trans s1 s2 s3 l l' : shrinks_to s1 s2 l → shrinks_to s2 s3 l' → shrinks_to s1 s3 (l ++ l').
Proof using Type. intros (_ & Hp & Ht) (Hs & Hp' & Ht'). split; [done|]. split; [auto|]. by rewrite Ht', Ht, app_assoc. Qed.

Lemma PathExists_event ctx p (s : TState S) b e s' : sane s → PathExists ctx p s = ((b, e), s') →
  shrinks_to s s' [mkEvent (CPathExists ctx p) (failed_one e)] ∧ ((b, e) = (false, None) → ¬ present s' p).
Proof using Type*.
  intros Hs E. destruct (PathExists_spec _ _ _ _ _ Hs E) as (Hs' & Hq & Hn & _). split; [|done].
  split; [done|]. split; [intros q; apply Hq|]. revert E. cbn [PathExists traced]. unfold record.
  destruct (PathExists ctx p s.1). by intros [= -> <-].
Qed.

Lemma ReadDir_event ctx p (s : TState S) : sane s → ∃ l, shrinks_to s (ReadDir ctx p s).2 l.
Proof using Type*.
  intros Hs. destruct (ReadDir_calm ctx p s) as (l & Hl & _). exists l. split; [by apply ReadDir_sane|].
  split; [intros q; apply ReadDir_adds|done].
Qed.

Lemma RemoveAll_event ctx p (s : TState S) e s' : sane s → RemoveAll ctx p s = (e, s') →
  ∃ l, shrinks_to s s' l ∧ (e = None → ¬ present s' p).
Proof using Type*.
  intros Hs E. destruct (RemoveAll_calm ctx p s) as (l & Hl & _). pose proof (RemoveAll_sane ctx p s Hs) as Hs'.
  pose proof (λ q, svc_RemoveAll_adds ctx p q s) as Hq. rewrite E in Hl, Hs', Hq. exists l. split; [by split|].
  intros ->. by apply (svc_RemoveAll_gone _ _ _ _ E).
Qed.

Lemma exists_quietly_eq ctx p (s : TState S) : exists_quietly ctx p s = ((PathExists ctx p s).1.1, (PathExists ctx p s).2).
Proof using Type. unfold exists_quietly, mbind, St_bind. by destruct (PathExists ctx p s). Qed.

Lemma listing_event ctx p (listed : bool) (s : TState S) : sane s →
  ∃ l s2, (if listed then logDirectoryContentsIfNotEmpty ctx p else mret tt) s = (tt, s2) ∧ shrinks_to s s2 l.
Proof using Type*.
  intros Hs. destruct listed.
  - destruct (ReadDir_event ctx p s Hs) as [l Hl]. exists l, (ReadDir ctx p s).2. split; [|done].
    unfold logDirectoryContentsIfNotEmpty, mbind, St_bind. by destruct (ReadDir ctx p s).
  - exists [], s. split; [done|]. split; [done|]. split; [done|]. by rewrite app_nil_r.
Qed.

Lemma remove_if_exists_gone ctx p listed what (s : TState S) e s' : sane s → remove_if_exists ctx p listed what s = (e, s') →
  ∃ l, shrinks_to s s' l ∧ (e = None → Forall answered l → ¬ present s' p).
Proof using Type*.
  intros Hs. unfold remove_if_exists. unfold mbind at 1, St_bind at 1. rewrite exists_quietly_eq.
  destruct (PathExists ctx p s) as [[b e1] s1] eqn:E1.
  destruct (PathExists_event _ _ _ _ _ _ Hs E1) as [Hp Hno]. cbn [fst snd]. destruct b.
  - destruct (listing_event ctx p listed s1 (proj1 Hp)) as (l2 & s2 & El & Hl). unfold mbind at 1, St_bind at 1. rewrite El.
    unfold mbind, St_bind. destruct (RemoveAll ctx p s2) as [e3 s3] eqn:E3.
    destruct (RemoveAll_event _ _ _ _ _ (proj1 Hl) E3) as (l3 & Hl3 & Hgone).
    intros [= <- <-]. eexists. split; [eapply shrinks_trans; [exact Hp|]; eapply shrinks_trans; [exact Hl|exact Hl3]|].
    intros He _. apply Hgone. by destruct e3.
  - intros [= <- <-]. eexists. split; [exact Hp|]. intros _ [Ha _]%Forall_cons. apply Hno. f_equal. cbn in Ha. by destruct e1.
Qed.

Lemma InitRemovalProgress_places a : ServiceDir (InitRemovalProgress a) = ServiceDir a ∧
  RepositoryDir (InitRemovalProgress a) = RepositoryDir a ∧ LogDir (InitRemovalProgress a) = LogDir a.
Proof using Type. unfold InitRemovalProgress. by destruct (Progress a). Qed.

Lemma directories_step_gone ctx a (s s' : TState S) : sane s → directories_step ctx a s = (None, s') →
  ∃ l, s'.2 = s.2 ++ l ∧ (Forall answered l → ∀ p, p ∈ [ServiceDir a; RepositoryDir a; LogDir a] → ¬ present s' p).
Proof using Type*.
  intros Hs. unfold directories_step, mbind, St_bind.
  destruct (remove_if_exists ctx (ServiceDir a) _ _ s) as [[e1|] s1] eqn:E1; [done|].
  destruct (remove_if_exists_gone _ _ _ _ _ _ _ Hs E1) as (l1 & (Hs1 & _ & Ht1) & G1).
  destruct (remove_if_exists ctx (RepositoryDir a) _ _ s1) as [[e2|] s2] eqn:E2; [done|].
  destruct (remove_if_exists_gone _ _ _ _ _ _ _ Hs1 E2) as (l2 & (Hs2 & Hp2 & Ht2) & G2).
  intros E3. destruct (remove_if_exists_gone _ _ _ _ _ _ _ Hs2 E3) as (l3 & (_ & Hp3 & Ht3) & G3).
  exists (l1 ++ l2 ++ l3). split; [by rewrite Ht3, Ht2, Ht1, <- !app_assoc|].
  intros [A1 [A2 A3]%Forall_app]%Forall_app.
  intros p Hp. repeat (apply elem_of_cons in Hp as [->|Hp]); [| | |by apply not_elem_of_nil in Hp].
  - intros HP. by apply (G1 eq_refl A1), Hp2, Hp3.
  - intros HP. by apply (G2 eq_refl A2), Hp3.
  - by apply G3.
Qed.

Lemma removal_holds_sane ctx a : holds sane (ctx_err ctx (S:=TState S)) ∧ holds sane (stop_step (S:=TState S) exit_code ctx a) ∧
  holds sane (unsupervise_step (S:=TState S) exit_code ctx a).
Proof using Type*.
  split; [apply ctx_err_holds, clock_holds; by left|]. unfold stop_step, unsupervise_step, exists_quietly.
  split; repeat first [ apply stopServiceCleanly_sane | apply unsuperviseService_sane | apply PathExists_sane | apply holds_ret
    | apply holds_bind; [|intro] | match goal with |- holds _ (if ?b then _ else _) => destruct b end].
Qed.

(** Why a removal fails and what one that succeeds leaves.  [l] are the
    calls of the file system made by [Remove] on tracked artifacts.  If none of
    them failed, it returned nil unless the context was done; and if it
    returned nil with every existence check answered, none of the three places
    of the service is there any more. *)
Theorem removal_outcome (ctx : Ctx) (path : bytes) (s s' : LState (S:=TState S)) (e : option GoErr) (a : ServiceArtifacts) :
  artifacts s.1 = Some a → well_tracked s.1 → sane s.2 → Remove exit_code persist ctx path s = (e, s') →
  ∃ l, s'.2.2 = s.2.2 ++ l ∧
    (Forall succeeded l → e = None ∨ ctx_done ctx s.2 e) ∧
    (e = None → Forall answered l → ∀ p, p ∈ [ServiceDir a; RepositoryDir a; LogDir a] → ¬ present s'.2 p).
Proof using Type*.
  intros Ha Hwell Hs. pose proof (Hwell a Ha) as Hok. rewrite (Remove_tracked exit_code persist ctx path s a Ha Hok).
  destruct (removal_holds_sane ctx (InitRemovalProgress a)) as (S1 & S2 & S3).
  destruct (ctx_err_calm ctx s.2) as (l0 & Hl0 & _). pose proof (S1 s.2 Hs) as Hw.
  destruct (ctx_err ctx s.2) as [[err|] w] eqn:Ec; cbn [fst snd] in *.
  - intros [= <- <-]. exists l0. split; [done|]. split; [|done]. right. left. by rewrite Ec.
  - destruct (RemoveArtifacts exit_code ctx a w) as [[a' e'] w'] eqn:E. cbn [fst snd]. intros [= -> <-].
    destruct (RemoveArtifacts_calm _ _ _ _ _ _ _ E) as (l1 & Hl1 & Hcalm).
    exists (l0 ++ l1). split; [cbn; by rewrite Hl1, Hl0, app_assoc|]. split.
    { intros [_ Hg]%Forall_app. destruct (Hcalm Hg) as [->|He]; [by left|]. right. right. by rewrite Ec. }
    intros ->. destruct (RemoveArtifacts_cases _ _ _ _ _ _ _ Hok E) as (_ & s1 & Ed & Hd).
    destruct (directories_step_gone ctx _ s1 w' (Hd sane S1 S2 S3 Hw) Ed) as (l2 & Hl2 & Hgone).
    destruct (Hd (λ s, ∃ l, s.2 = w.2 ++ l)) as [l3 Hl3]; [eapply calm_holds, ctx_err_calm|eapply calm_holds, stop_step_calm|
      eapply calm_holds, unsupervise_step_calm|exists []; by rewrite app_nil_r|].
    intros Hans p Hp. apply Hgone; [|by rewrite <- (proj1 (InitRemovalProgress_places a)), <- (proj1 (proj2 (InitRemovalProgress_places a)))
      , <- (proj2 (proj2 (InitRemovalProgress_places a))) in Hp].
    apply Forall_app in Hans as [_ Hans]. rewrite Hl2, Hl3, <- app_assoc in Hl1. apply app_inv_head in Hl1 as <-.
    by apply Forall_app in Hans as [_ ?].
Qed.
End gone.

(** ** The theorems on a concrete system *)

Definition demo_path : bytes := lit "/run/service/bridge".
Definition demo_repo : bytes := lit "/data/services/bridge".
Definition demo_log : bytes := lit "/data/logs/bridge".

Definition demo_config : S6ServiceConfig :=
  mkS6Config (Some (<[lit "MODE" := lit "fast"]> ∅)) (Some (<[lit "conf.yaml" := lit "a: 1"]> ∅)) (Some [lit "/bin/bridge"; lit "-v"]) 0 0.

Definition demo_dirs : list (list bytes) :=
  [[lit "run"]; [lit "run"; lit "service"]; [lit "data"]; [lit "data"; lit "services"]; [lit "data"; lit "logs"]].

Definition demo_os (failures : list (option Z)) : MemOS :=
  mkMemOS 0 (list_to_map ((λ q, (q, Directory)) <$> demo_dirs)) ∅ failures.

Definition demo_service : S6Service := mkS6Service None (mkLogService ∅ ∅).
Definition demo_ctx : Ctx := mkCtx (Some 1000000) None.
Definition demo_range (m : gmap bytes bytes) : list (bytes * bytes) := map_to_list m.

Abbreviation DemoState := (LState (S:=FsState MemOS)).
Definition demo_start : DemoState := (demo_service, (NewDefaultService, demo_os [])).
Definition demo_created : option GoErr * DemoState :=
  Create (S:=FsState MemOS) exit_code true demo_range demo_ctx demo_path demo_config demo_start.

(** The same service after a restart of its file system caches, with a
    failure of the call number [n] to come. *)
Definition with_failure (n : nat) (s : DemoState) : DemoState :=
  (s.1, (NewDefaultService, set_failures (replicate n None ++ [Some 1]) s.2.2)).


Lemma fst_eq {A B} (r : A * B) (a : A) : r.1 = a → r = (a, r.2).
Proof. intros <-. apply surjective_pairing. Qed.

Lemma new_sane (w : MemOS) : sane (S:=FsState MemOS) (NewDefaultService, w).
Proof. intros k c Hk. exfalso. cbn in Hk. by apply lookup_empty_Some in Hk. Qed.

Lemma with_failure_sane n (s : DemoState) : sane (S:=FsState MemOS) (with_failure n s).2.
Proof. apply new_sane. Qed.

(** A forced removal while every second call fails. *)
Definition demo_forced : option GoErr * DemoState :=
  ForceRemove (S:=FsState MemOS) exit_code true demo_ctx demo_path (with_failure 2 demo_created.2).

Lemma force_remove_leads_nowhere_witness :
  demo_forced.1 = None ∧ artifacts demo_forced.2.1 = None ∧
  ∀ p, p ∈ places true demo_path → ¬ present (S:=FsState MemOS) demo_forced.2.2 p.
Proof.
  assert (demo_forced.1 = None) as E by (vm_compute; reflexivity).
  split; [exact E|]. apply fst_eq in E. unfold demo_forced in E at 1.
  destruct (force_remove_leads_nowhere (S:=FsState MemOS) exit_code true demo_ctx demo_path
    (with_failure 2 demo_created.2) demo_forced.2 None (with_failure_sane _ _) E) as (Ha & Hp & _).
  split; [exact Ha|exact Hp].
Defined.

(** The removal of the scan directory entry fails: [ForceRemove] returns nil, the
    link stays, and the next creation cannot make it. *)
Definition demo_dangling : option GoErr * DemoState :=
  ForceRemove (S:=FsState MemOS) exit_code true demo_ctx demo_path (with_failure 10 demo_created.2).
Definition is_link (n : option Node) : bool := match n with Some (Link _) => true | _ => false end.
Example dangling_link_stays :
  demo_dangling.1 = None ∧
  is_link (tree demo_dangling.2.2.2 !! [lit "run"; lit "service"; lit "bridge"]) = true ∧
  (Create (S:=FsState MemOS) exit_code true demo_range demo_ctx demo_path demo_config (with_failure 100 demo_dangling.2)).1 =
    Some (EWrap "failed to create scan directory symlink: "
           (EWrap "failed to create symlink /run/service/bridge -> /data/services/bridge: " EIO)).
Proof. vm_compute. repeat split; reflexivity. Qed.


Lemma with_failure_service n (s : DemoState) : (with_failure n s).1 = s.1.
Proof. done. Qed.

Lemma demo_tracked n : ∃ a, artifacts (with_failure n demo_created.2).1 = Some a ∧ tracked_ok a ∧
  ServiceDir a = demo_path ∧ RepositoryDir a = demo_repo ∧ LogDir a = demo_log.
Proof. rewrite with_failure_service. eexists. split; [vm_compute; reflexivity|]. split; [by split|]. by split_and!. Qed.


(** The same runs with their calls recorded. *)
Abbreviation DemoTrace := (LState (S:=TState (FsState MemOS))).
Definition recording (s : DemoState) : DemoTrace := (s.1, (s.2, [])).
Definition demo_removed (n : nat) : option GoErr * DemoTrace :=
  S6Lifecycle.Remove (S:=TState (FsState MemOS)) exit_code true demo_ctx demo_path (recording (with_failure n demo_created.2)).

Lemma recording_service s : (recording s).1 = s.1.
Proof. done. Qed.
Lemma recording_sane n s : sane (S:=TState (FsState MemOS)) (recording (with_failure n s)).2.
Proof. exact (with_failure_sane n s). Qed.

#[local] Instance event_failed_dec : ∀ e, Decision (ev_failed e = false).
Proof. intros e. apply _. Defined.
#[local] Instance answered_dec e : Decision (answered e).
Proof. unfold answered. destruct (ev_call e); apply _. Defined.

(** Nothing failed in the run without an injected failure: the service is gone. *)
Lemma removal_outcome_witness :
  (demo_removed 30).1 = None ∧ ∀ p, p ∈ [demo_path; demo_repo; demo_log] → ¬ present (S:=TState (FsState MemOS)) (demo_removed 30).2.2 p.
Proof.
  destruct (demo_tracked 30) as (a & Ha & Hok & Hs & Hr & Hl).
  assert ((demo_removed 30).1 = None) as He by (vm_compute; reflexivity). split; [exact He|].
  apply fst_eq in He. unfold demo_removed at 1 in He.
  rewrite <- recording_service in Ha.
  destruct (removal_outcome (S:=FsState MemOS) exit_code true demo_ctx demo_path (recording (with_failure 30 demo_created.2))
    (demo_removed 30).2 None a Ha (well_tracked_some _ _ Ha Hok) (recording_sane _ _) He) as (l & Hl' & _ & Hg).
  rewrite Hs, Hr, Hl in Hg. intros p Hp. apply (Hg eq_refl); [|exact Hp].
  assert (Forall answered (demo_removed 30).2.2.2) as Hans by (apply (bool_decide_unpack _); vm_compute; exact I).
  rewrite Hl' in Hans. by apply Forall_app in Hans as [_ Hans].
Defined.

(** A failed existence check counts as "not there": the removal in which only
    the check of the repository failed returns nil and tracks nothing any more,
    the repository is left, and the next removal is refused for good. *)
Theorem swallowed_check_leaves_files :
  let r := demo_removed 8 in
  r.1 = None ∧ artifacts r.2.1 = None ∧ present (S:=TState (FsState MemOS)) r.2.2 demo_repo ∧
  (S6Lifecycle.Remove (S:=TState (FsState MemOS)) exit_code true demo_ctx demo_path r.2).1 =
    Some (ENew (PermanentFailureError +:+ ": untracked on-disk state for service bridge")).
Proof.
  cbv zeta. split_and!; [vm_compute; reflexivity|vm_compute; reflexivity| |vm_compute; reflexivity].
  apply (bool_decide_unpack _). vm_compute. exact I.
Qed.

(** The commands of a trace. *)
Definition commands (l : list CallEvent) : list (bytes * list bytes) :=
  omap (λ e, match ev_call e with CExecuteCommand _ name args => Some (name, args) | _ => None end) l.

(** For the same reason a removal can skip the stop command and record it as done. *)
Theorem swallowed_check_skips_stop :
  let r := S6Lifecycle.Remove (S:=TState (FsState MemOS)) exit_code true demo_ctx demo_path (recording (with_failure 0 demo_created.2)) in
  r.1 = None ∧ (commands r.2.2.2).*1 = [lit "s6-svunlink"].
Proof. cbv zeta. split; vm_compute; reflexivity. Qed.
