(* ===== verification/S6Creation.v ===== *)
(** * S6Creation: what creating, starting and stopping an S6 service guarantees

    The theorems about the creation half of [S6Lifecycle]: a service that was
    created is complete, so that the health check does not ask to recreate it;
    the config files it accepts stay below the config directory; starting and
    stopping send their commands in the order the supervision tree needs.  The
    witnesses run on [MemOS]. *)

From S2P Require Import Prelude StateMonad GoRuntime Backoff GoBytes GoPaths FileSystem MemOS FileTrace S6Logs S6Config S6Lifecycle S6LifecycleFacts.
From Stdlib Require Import Ascii.
Local Open Scope Z_scope.

(** ** A created service is complete *)

Section creation.
Context {S : Type} `{ServiceLaws S}.
Context (exit_code : GoErr → option Z) (persist : bool) (range : gmap bytes bytes → list (bytes * bytes)).

(** All these paths are there. *)
Definition all_present (fs : list bytes) (s : S) : Prop := sane s ∧ Forall (present s) fs.

Lemma all_present_step fs (s s' : S) : sane s' → (∀ q, present s q → present s' q) → all_present fs s → all_present fs s'.
Proof using Type. intros Hs Hq [_ Hf]. split; [done|]. eapply Forall_impl; [exact Hf|]. auto. Qed.

Lemma all_present_app fs gs (s : S) : all_present (fs ++ gs) s ↔ all_present fs s ∧ all_present gs s.
Proof using Type. unfold all_present. rewrite Forall_app. naive_solver. Qed.

Lemma WriteFile_all ctx p d m fs (s s' : S) : WriteFile ctx p d m s = (None, s') → all_present fs s → all_present (p :: fs) s'.
Proof using Type*.
  intros E Hf. pose proof (all_present_step fs s s') as Hstep.
  pose proof (WriteFile_sane ctx p d m s (proj1 Hf)) as Hs. rewrite E in Hs.
  destruct Hstep as [_ Hf']; [done| |done|].
  { intros q Hq. pose proof (svc_WriteFile_grows ctx p d m q s Hq) as Hg. by rewrite E in Hg. }
  split; [done|]. constructor; [|done]. by apply (svc_WriteFile_there _ _ _ _ _ _ E).
Qed.

Lemma EnsureDirectory_all ctx p fs (s s' : S) : EnsureDirectory ctx p s = (None, s') → all_present fs s → all_present (p :: fs) s'.
Proof using Type*.
  intros E Hf. pose proof (all_present_step fs s s') as Hstep.
  pose proof (EnsureDirectory_sane ctx p s (proj1 Hf)) as Hs. rewrite E in Hs.
  destruct Hstep as [_ Hf']; [done| |done|].
  { intros q Hq. pose proof (EnsureDirectory_grows ctx p q s Hq) as Hg. by rewrite E in Hg. }
  split; [done|]. constructor; [|done]. by apply (EnsureDirectory_there _ _ _ _ E).
Qed.

(** Every call the creation makes after the symlink, whatever its outcome. *)
Lemma PathExists_all ctx p fs : holds (all_present fs) (PathExists ctx p).
Proof using Type*.
  intros s Hf. eapply all_present_step; [apply PathExists_sane, Hf| |exact Hf]. intros q Hq. by apply PathExists_same.
Qed.
Lemma FileExists_all ctx p fs : holds (all_present fs) (FileExists ctx p).
Proof using Type*.
  intros s Hf. eapply all_present_step; [apply (perform_sane (CFileExists ctx p)), Hf| |exact Hf].
  intros q Hq. by apply FileExists_same.
Qed.
Lemma clock_all fs : holds (all_present fs) clock.
Proof using Type*.
  intros s Hf. eapply all_present_step; [apply svc_clock_sane, Hf| |exact Hf]. intros q Hq. by apply svc_clock_same.
Qed.
Lemma svscanctl_all ctx args fs : holds (all_present fs) (ExecuteCommand ctx (lit "s6-svscanctl") args).
Proof using Type*.
  intros s Hf. eapply all_present_step; [apply ExecuteCommand_sane, Hf| |exact Hf]. intros q. apply svc_svscanctl_grows.
Qed.

Lemma EnsureSupervision_all ctx p fs : holds (all_present fs) (EnsureSupervision exit_code ctx p).
Proof using Type*.
  unfold EnsureSupervision, notify_scanner, ExecuteS6Command, ServiceExists.
  repeat first [ apply PathExists_all | apply FileExists_all | apply svscanctl_all | apply holds_ret | apply holds_bind; [|intro]
               | match goal with |- holds _ (match ?x with _ => _ end) => destruct x end ].
Qed.

Lemma or_fail_ok act what k (s : S) files s' : or_fail act what k s = ((files, None), s') →
  ∃ s1, act s = (None, s1) ∧ k s1 = ((files, None), s').
Proof using Type. unfold or_fail, mbind, St_bind. destruct (act s) as [[e|] s1]; [done|]. eauto. Qed.

Lemma write_config_files_all ctx dir files created fs (s : S) out s' :
  write_config_files ctx dir files created s = ((out, None), s') → all_present (created ++ fs) s → all_present (out ++ fs) s'.
Proof using Type*.
  revert created s. induction files as [|[path content] files IH]; intros created s; cbn [write_config_files].
  { intros [= -> ->]. done. }
  destruct (config_file_path dir path) as [full|]; [|done].
  intros (s1 & E1 & (s2 & E2 & E3)%or_fail_ok)%or_fail_ok Hf.
  apply (IH _ _ E3), (all_present_app (created ++ [full])). apply all_present_app in Hf as [Hc Hf].
  pose proof (EnsureDirectory_all _ _ _ _ _ E1 Hc) as Hc1. pose proof (EnsureDirectory_all _ _ _ _ _ E1 Hf) as Hf1.
  pose proof (WriteFile_all _ _ _ _ _ _ _ E2 Hc1) as [Hs Hc2]. pose proof (WriteFile_all _ _ _ _ _ _ _ E2 Hf1) as [_ Hf2].
  rewrite !Forall_cons in Hc2, Hf2. split; (split; [done|]); [apply Forall_app; split; [apply Hc2|]; constructor; [apply Hc2|constructor]|apply Hf2].
Qed.
(** Peel off the calls that succeeded, each with the paths that are there after it. *)
Ltac peel H := lazymatch type of H with
  | or_fail (EnsureDirectory _ _) _ _ _ = _ =>
      let E := fresh "E" in apply or_fail_ok in H as (? & E & H);
      match goal with Hf : all_present _ _ |- _ => eapply EnsureDirectory_all in Hf; [|exact E]; clear E end; peel H
  | or_fail (WriteFile _ _ _ _) _ _ _ = _ =>
      let E := fresh "E" in apply or_fail_ok in H as (? & E & H);
      match goal with Hf : all_present _ _ |- _ => eapply WriteFile_all in Hf; [|exact E]; clear E end; peel H
  | _ => idtac
  end.

Lemma createS6Files_all ctx repositoryDir config (s : S) files s' : sane s →
  createS6FilesInRepository range ctx repositoryDir config s = ((files, None), s') →
  files ≠ [] ∧ all_present (repositoryDir :: files) s'.
Proof using Type*.
  intros Hs. unfold createS6FilesInRepository. intros E.
  assert (all_present [] s) as Hf by by split. peel E.
  destruct (default [] (Command config)) as [|c command]; [done|]. peel E.
  unfold mbind, St_bind, createS6ConfigFiles in E.
  destruct (write_config_files _ _ _ _ _) as [[configFiles [err|]] s2] eqn:Ec; [done|].
  apply (write_config_files_all _ _ _ _ _ _ _ _ Ec) in Hf. clear Ec. peel E. injection E as <- <-.
  split; [done|]. destruct Hf as [Hs' Hf]. split; [done|].
  apply Forall_forall. intros q Hq. rewrite Forall_forall in Hf. apply Hf.
  rewrite !elem_of_cons, !elem_of_app in *. rewrite !elem_of_cons in *. set_solver.
Qed.

Lemma FileExists_yes ctx p fs (s : S) : all_present fs s → p ∈ fs →
  match FileExists ctx p s with ((false, None), _) => False | (_, s') => all_present fs s' end.
Proof using Type*.
  intros Hf Hp. pose proof (FileExists_all ctx p fs s Hf) as Hf'. destruct (FileExists ctx p s) as [[[] [e|]] s'] eqn:E; try done.
  apply (FileExists_no _ _ _ _ (proj1 Hf) E). destruct Hf' as [_ Hf']. rewrite Forall_forall in Hf'. by apply Hf'.
Qed.

Lemma PathExists_yes ctx p fs (s : S) : all_present fs s → p ∈ fs →
  match PathExists ctx p s with ((false, None), _) => False | (_, s') => all_present fs s' end.
Proof using Type*.
  intros Hf Hp. pose proof (PathExists_all ctx p fs s Hf) as Hf'. destruct (PathExists ctx p s) as [[[] [e|]] s'] eqn:E; try done.
  apply (PathExists_no _ _ _ _ (proj1 Hf) E). destruct Hf' as [_ Hf']. rewrite Forall_forall in Hf'. by apply Hf'.
Qed.

Lemma check_files_not_bad ctx files fs (s : S) : files ⊆ fs → all_present fs s →
  (check_files ctx files s).1.1 ≠ HealthBad ∧ all_present fs (check_files ctx files s).2.
Proof using Type*.
  revert s. induction files as [|f files IH]; intros s Hsub Hf; [done|].
  assert (f ∈ fs) as Hin by (apply Hsub; left). assert (files ⊆ fs) as Hsub' by (intros x Hx; apply Hsub; by right).
  cbn [check_files]. unfold mbind, St_bind. pose proof (FileExists_yes ctx f fs s Hf Hin) as Hy.
  destruct (FileExists ctx f s) as [[[] [e|]] s1]; cbn in *; try (split; [done|]; apply Hy); [by apply IH|done].
Qed.

(** Complete artifacts are never found bad. *)
Definition complete (a : ServiceArtifacts) (s : S) : Prop :=
  CreatedFiles a ≠ [] ∧ all_present (ServiceDir a :: RepositoryDir a :: CreatedFiles a) s.

Lemma complete_not_bad ctx a (s : S) : complete a s → (CheckArtifactsHealth ctx a s).1.1 ≠ HealthBad.
Proof using Type*.
  intros [Hne Hf]. unfold CheckArtifactsHealth. unfold mbind at 1, St_bind at 1.
  assert (all_present (ServiceDir a :: RepositoryDir a :: CreatedFiles a) (ctx_err ctx s).2) as Hf1.
  { apply (ctx_err_holds _ ctx); [apply clock_all|done]. }
  destruct (ctx_err ctx s) as [[e|] s1]; [done|]. cbn [snd] in Hf1.
  destruct (CreatedFiles a) as [|f files] eqn:Ec; [done|]. rewrite <- Ec in *. unfold mbind, St_bind.
  destruct (check_files_not_bad ctx (CreatedFiles a) _ s1 ltac:(intros x Hx; by do 2 right) Hf1) as [Hb Hf2].
  destruct (check_files ctx (CreatedFiles a) s1) as [[[] [e|]] s2]; cbn [fst snd] in *; try done.
  pose proof (PathExists_yes ctx (ServiceDir a) _ s2 Hf2 ltac:(left)) as Hy.
  destruct (PathExists ctx (ServiceDir a) s2) as [[[] [e|]] s3]; try done.
  pose proof (PathExists_yes ctx (RepositoryDir a) _ s3 Hy ltac:(right; left)) as Hy2.
  by destruct (PathExists ctx (RepositoryDir a) s3) as [[[] [e|]] s4].
Qed.

Lemma remove_if_exists_sane ctx p listed what : holds sane (remove_if_exists ctx p listed what).
Proof using Type*.
  unfold remove_if_exists, exists_quietly, logDirectoryContentsIfNotEmpty.
  repeat first [ apply PathExists_sane | apply RemoveAll_sane | apply ReadDir_sane | apply holds_ret | apply holds_bind; [|intro]
    | match goal with |- holds _ (if ?b then _ else _) => destruct b end ].
Qed.

Lemma Symlink_all ctx t l fs (s s' : S) : Symlink ctx t l s = (None, s') → all_present fs s → t ∈ fs → all_present (l :: fs) s'.
Proof using Type*.
  intros E Hf Ht. pose proof (all_present_step fs s s') as Hstep.
  pose proof (Symlink_sane ctx t l s (proj1 Hf)) as Hs. rewrite E in Hs.
  destruct Hstep as [_ Hf']; [done| |done|].
  { intros q Hq. pose proof (svc_Symlink_grows ctx t l q s Hq) as Hg. by rewrite E in Hg. }
  split; [done|]. constructor; [|done]. apply (svc_Symlink_there _ _ _ _ _ E).
  destruct Hf as [_ Hf]. rewrite Forall_forall in Hf. by apply Hf.
Qed.

Lemma onS_bind {A B} (m : St S A) (k : A → St LState B) (s : LState (S:=S)) r :
  (onS m ≫= k) s = r → ∃ a w, m s.2 = (a, w) ∧ k a (s.1, w) = r.
Proof using Type. unfold onS, mbind, St_bind. destruct (m s.2) as [a w]. eauto. Qed.

(** The files, the symlink, and what comes after it. *)
Lemma CreateArtifacts_complete ctx servicePath config (s : LState (S:=S)) a s' : sane s.2 →
  CreateArtifacts exit_code persist range ctx servicePath config s = ((a, None), s') →
  ∃ a', a = Some a' ∧ complete a' s'.2 ∧ Progress a' = None ∧ artifacts s'.1 = artifacts s.1.
Proof using Type*.
  intros Hs. unfold CreateArtifacts. intros E.
  apply onS_bind in E as (e1 & w1 & E1 & E). pose proof (ctx_err_holds sane ctx (clock_holds sane (or_introl eq_refl)) s.2 Hs) as Hs1.
  rewrite E1 in Hs1. destruct e1; [done|].
  apply onS_bind in E as (e2 & w2 & E2 & E). pose proof (remove_if_exists_sane ctx servicePath false
    "failed to remove existing symlink: " w1 Hs1) as Hs2. cbn [snd] in E2. rewrite E2 in Hs2. destruct e2; [done|].
  apply onS_bind in E as (e3 & w3 & E3 & E). cbn [snd] in E3. pose proof (remove_if_exists_sane ctx
    (path_of (GetS6RepositoryBaseDir persist) servicePath) false "failed to remove existing repository: " w2 Hs2) as Hs3.
  rewrite E3 in Hs3. destruct e3; [done|].
  apply onS_bind in E as ([files e4] & w4 & E4 & E). cbn [snd] in E4. destruct e4.
  { by apply onS_bind in E as (? & ? & _ & [=]). }
  destruct (createS6Files_all _ _ _ _ _ _ Hs3 E4) as [Hne Hf].
  apply onS_bind in E as (e5 & w5 & E5 & E). cbn [snd] in E5. destruct e5.
  { by apply onS_bind in E as (? & ? & _ & [=]). }
  apply (Symlink_all _ _ _ _ _ _ E5) in Hf; [|left].
  apply onS_bind in E as (t & w6 & E6 & E). cbn [snd] in E6. apply (clock_all) in Hf. rewrite E6 in Hf.
  unfold mbind at 1, St_bind at 1, on_service in E. cbn [fst snd] in E.
  apply onS_bind in E as (r & w7 & E7 & E). cbn [snd] in E7.
  cbn [snd] in Hf. apply (EnsureSupervision_all ctx servicePath) in Hf. rewrite E7 in Hf. injection E as <- <-.
  eexists. split; [done|]. split; [|done]. by split.
Qed.

(** A service that was created is complete.  When [Create] on a path
    that was free returns nil, the artifacts are tracked, no removal is under
    way, every file it tracks, the scan directory entry and the repository are
    there, so that neither the health check nor the integrity check ever finds
    the new service bad, whatever calls of theirs fail. *)
Theorem created_service_is_complete (ctx : Ctx) (servicePath : bytes) (config : S6ServiceConfig) (s s' : LState (S:=S)) :
  sane s.2 → (PathExists ctx servicePath s.2).1 = (false, None) →
  Create exit_code persist range ctx servicePath config s = (None, s') →
  ∃ a, artifacts s'.1 = Some a ∧ Progress a = None ∧ CreatedFiles a ≠ [] ∧
    (∀ p, p ∈ ServiceDir a :: RepositoryDir a :: CreatedFiles a → present s'.2 p) ∧
    ∀ ctx', (Health ctx' s').1 ≠ ActionRecreate ∧ (CheckServiceDirectoryIntegrity ctx' servicePath s').1 ≠ HealthBad.
Proof using Type*.
  intros Hs Hx. unfold Create, onS, create_and_track, Store. unfold mbind at 1, St_bind at 1.
  pose proof (PathExists_sane ctx servicePath s.2 Hs) as Hs1.
  destruct (PathExists ctx servicePath s.2) as [r w]. cbn [fst] in Hx. subst r. cbn [snd] in Hs1.
  unfold mbind, St_bind.
  destruct (CreateArtifacts _ _ _ _ _ _ _) as [[a [err|]] s1] eqn:Ec; [done|]. intros [= <-].
  apply CreateArtifacts_complete in Ec as (a' & -> & Hc & Hp & _); [|done].
  exists a'. split; [done|]. split; [done|]. pose proof Hc as [Hne [_ Hf]]. split; [done|]. split.
  { intros p Hp'. rewrite Forall_forall in Hf. by apply Hf. }
  intros ctx'. pose proof (complete_not_bad ctx' a' s1.2 Hc) as Hb.
  unfold Health, CheckServiceDirectoryIntegrity, Load, onS, mbind, St_bind. cbn [fst snd artifacts set_artifacts].
  rewrite bool_decide_false by (rewrite Hp; apply is_Some_None).
  cbn [snd]. by destruct (CheckArtifactsHealth ctx' a' s1.2) as [[[] [e|]] s2].
Qed.
End creation.

Lemma created_service_is_complete_witness :
  demo_created.1 = None ∧ ∃ a, artifacts demo_created.2.1 = Some a ∧
    ∀ p, p ∈ ServiceDir a :: RepositoryDir a :: CreatedFiles a → present (S:=FsState MemOS) demo_created.2.2 p.
Proof.
  assert (demo_created.1 = None) as E by (vm_compute; reflexivity). split; [exact E|].
  apply fst_eq in E. unfold demo_created at 1 in E.
  destruct (created_service_is_complete (S:=FsState MemOS) exit_code true demo_range demo_ctx demo_path demo_config demo_start
    demo_created.2 (new_sane (demo_os [])) eq_refl E) as (a & Ha & _ & _ & Hp & _).
  exists a. split; [exact Ha|exact Hp].
Defined.

(** ** Config files stay below the config directory *)

Lemma IsAbs_hd p : IsAbs p = true ↔ hd_error p = Some slash.
Proof.
  unfold IsAbs. destruct p as [|a p]; [done|]. cbn. rewrite andb_true_r, bool_decide_eq_true. unfold slash. naive_solver.
Qed.

(** The config directory of a service. *)
Lemma config_dir_rooted dir : IsAbs dir = true →
  ∃ cs, cs ≠ [] ∧ Forall proper cs ∧ Join [dir; lit "config"] = rooted cs.
Proof.
  intros Ha. apply IsAbs_hd in Ha. destruct dir as [|a dir]; [done|].
  change (Join [a :: dir; lit "config"]) with (Clean ((a :: dir) ++ slash :: lit "config")).
  destruct (Clean_rooted ((a :: dir) ++ slash :: lit "config")) as (cs & Hcs & -> & Hdef); [done|].
  exists cs. split; [|done]. rewrite Hdef, split_on_app, foldl_app.
  change (split_on slash (lit "config")) with [lit "config"]. cbn [foldl].
  generalize (foldl (clean_step true) [] (split_on slash (a :: dir))). intros st.
  change (clean_step true st (lit "config")) with (lit "config" :: st). cbn [rev]. by destruct (rev st).
Qed.

(** A relative name that is accepted has a proper component. *)
Lemma accepted_component path : Base path ≠ lit "." → path ≠ [] → IsAbs path = false → kept (split_on slash path) ≠ [].
Proof.
  intros Hb Hne Ha Hk. apply Hb. unfold Base. destruct path as [|a path]; [done|].
  assert (Forall (λ c, c = [] ∨ c = lit ".") (split_on slash (a :: path))) as Hall.
  { apply Forall_forall. intros c Hc. destruct (decide (c = [] ∨ c = lit ".")) as [|Hn]; [done|].
    exfalso. apply (not_elem_of_nil (A := bytes) c). rewrite <- Hk. apply list_elem_of_filter. split; [naive_solver|done]. }
  destruct (last (filter (λ c : bytes, c ≠ []) (split_on slash (a :: path)))) as [c|] eqn:El.
  - apply last_Some_elem_of, list_elem_of_filter in El as [Hn Hc]. rewrite Forall_forall in Hall. by destruct (Hall c Hc).
  - exfalso. apply last_None in El. cbn [split_on] in El. case_decide as Has.
    + apply not_true_iff_false in Ha. apply Ha, IsAbs_hd. by subst.
    + by destruct (split_on slash path).
Qed.

(** Config files stay in their directory.  A relative file name that is
    accepted is written strictly below the config directory of its service:
    to the directory, a slash, and proper components only, the ones of the
    name. *)
Theorem config_files_stay_inside (dir path full : bytes) :
  IsAbs dir = true → IsAbs path = false → config_file_path (Join [dir; lit "config"]) path = inl full →
  ∃ rest, rest ≠ [] ∧ Forall proper rest ∧ full = Join [dir; lit "config"] ++ slash :: join_with [slash] rest ∧
    rest `sublist_of` split_on slash path.
Proof.
  intros Hd Hp. destruct (config_dir_rooted dir Hd) as (cs & Hne & Hcs & ->).
  unfold config_file_path. destruct (bool_decide_reflect (TrimSpace path = [])) as [|Ht]; [done|].
  destruct (Contains path (lit "..")) eqn:Ec; [done|]. destruct (negb (IsAbs path) && _); [done|].
  destruct (existsb (EqualFold (Base path)) reservedNames) eqn:Er; [done|].
  destruct (existsb (λ c, bool_decide (c ∈ Base path)) _); [done|].
  rewrite Hp. intros E. assert (full = Join [rooted cs; path]) as -> by congruence. clear E.
  assert (path ≠ []) as Hpne by by intros ->.
  assert (Base path ≠ lit ".") as Hb by (intros Hb; by rewrite Hb in Er).
  pose proof (no_component slash path (lit "..") Ec) as Hdd.
  exists (kept (split_on slash path)). split; [by apply accepted_component|].
  assert (Forall proper (kept (split_on slash path))) as Hk.
  { apply Forall_forall. intros c [[Hc1 Hc2] Hc]%list_elem_of_filter. rewrite Forall_forall in Hdd.
    split_and!; [done|done|by apply Hdd|by apply (split_on_separated _ path)]. }
  split; [done|]. split; [|apply sublist_filter].
  destruct path as [|a path]; [done|]. change (Join [rooted cs; a :: path]) with (Clean (rooted cs ++ slash :: a :: path)).
  rewrite Clean_below by done. unfold rooted. rewrite join_app; [done|done|by apply accepted_component].
Qed.

Lemma config_files_stay_inside_witness :
  ∃ rest, rest ≠ [] ∧ Forall proper rest ∧
    lit "/data/services/bridge/config/conf.d/a.yaml" = Join [lit "/data/services/bridge"; lit "config"] ++ slash :: join_with [slash] rest ∧
    rest `sublist_of` split_on slash (lit "conf.d/./a.yaml").
Proof.
  apply (config_files_stay_inside (lit "/data/services/bridge") (lit "conf.d/./a.yaml")); vm_compute; reflexivity.
Defined.

(** An absolute name is taken as it is. *)
Example absolute_config_name : config_file_path (lit "/data/services/bridge/config") (lit "/etc/passwd") = inl (lit "/etc/passwd").
Proof. vm_compute. reflexivity. Qed.
