(* ===== verification/S6DefaultService.v ===== *)
(** * S6DefaultService: reading the status of an s6 service

    [Status] of [pkg/service/s6/s6.go] with [buildFullServiceInfo] and
    [ExitHistory] of [status.go], as the calls they make to the file system
    service one after the other; what the answers amount to is [S6Status]. *)

From S2P Require Import Prelude Float64 GoRuntime GoBytes StateMonad FileSystem S6Logs S6Status S6Config S6Lifecycle.
Local Open Scope Z_scope.

Section status.
Context {F : Type} `{World F} `{Service F}.

#[export] Instance service_world : World (S6Service * F) := {
  clock s := let (t, w) := clock s.2 in (t, (s.1, w));
  randw s := let (k, w) := randw s.2 in (k, (s.1, w));
}.

(** [ExitHistory]: the file is read only when it is there. *)
Definition read_history (ctx : Ctx) (dtallyFile : bytes) : St F ((bool * option GoErr) * (bytes * option GoErr)) :=
  x ← FileExists ctx dtallyFile;
  match x with
  | (true, None) => d ← ReadFile ctx dtallyFile; mret (x, d)
  | _ => mret (x, ([], None))
  end.

Definition read_info (ctx : Ctx) (servicePath : bytes) (s : LogService) (d : S6StatusData)
    : St F (option (ServiceInfo * option GoErr)) :=
  now ← clock;
  downExists ← FileExists ctx (Join [servicePath; lit "down"]);
  h ← read_history ctx (Join [Join [servicePath; lit "supervise"]; S6DtallyFileName]);
  let answers := mkStatusFS (λ _, (true, None))
    (λ p, if bool_decide (p = Join [servicePath; lit "down"]) then downExists else h.1) (λ _, h.2) in
  mret (buildFullServiceInfo answers servicePath s now d).

Definition read_status (ctx : Ctx) (servicePath : bytes) (s : LogService) : St F (option (ServiceInfo * option GoErr)) :=
  x ← ServiceExists ctx servicePath;
  match x with
  | (_, Some err) => mret (Some (no_info "", Some (EWrap "failed to check if service exists: " err)))
  | (false, None) => mret (Some (no_info "", Some ErrServiceNotExist))
  | (true, None) =>
      let info := no_info ServiceUnknown in
      let superviseDir := Join [servicePath; lit "supervise"] in
      x ← FileExists ctx superviseDir;
      match x with
      | (_, Some err) => mret (Some (info, Some (EWrap "failed to check if supervise directory exists: " err)))
      | (false, None) => mret (Some (info, Some ErrServiceNotExist))
      | (true, None) =>
          let statusFile := Join [superviseDir; S6SuperviseStatusFile] in
          x ← FileExists ctx statusFile;
          match x with
          | (_, Some err) => mret (Some (info, Some (EWrap "failed to check if status file exists: " err)))
          | (false, None) => mret (Some (info, Some ErrServiceNotExist))
          | (true, None) =>
              data ← ReadFile ctx statusFile;
              match parseS6StatusFile data with
              | None => mret None
              | Some (inr err) => mret (Some (info, Some (EWrap "failed to parse status file: " err)))
              | Some (inl statusData) => read_info ctx servicePath s statusData
              end
          end
      end
  end.

Definition Status (ctx : Ctx) (servicePath : bytes) : St (LState (S := F)) (option (ServiceInfo * option GoErr)) :=
  λ s, onS (read_status ctx servicePath (log_service s.1)) s.
End status.
