(* ===== verification/S6Instance.v ===== *)
(** * S6Instance: the instance that drives one s6 service (pkg/fsm/s6)

    Models [models.go], [machine.go], [actions.go], [reconcile.go] and the
    functions [manager.go] injects into the generic manager, over the frame of
    [Instance].  The service ([pkg/service/s6], interface [Service]) is a type
    class; [S6Recovery] runs the instance on the service of [S6Lifecycle].
    What the service keeps between calls is part of the world. *)

From S2P Require Import Prelude Float64 GoRuntime Backoff BaseFSM FSMManager Instance GoBytes.
From S2P Require S6Status S6Config S6Lifecycle.

Abbreviation S6ServiceConfig := S6Config.S6ServiceConfig.
Abbreviation emptyConfig := S6Config.emptyConfig.
Abbreviation ServiceInfo := S6Status.ServiceInfo.
Abbreviation ErrServiceNotExist := S6Config.ErrServiceNotExist.
Abbreviation HealthStatus := S6Lifecycle.HealthStatus.
Abbreviation HealthUnknown := S6Lifecycle.HealthUnknown.
Abbreviation HealthOK := S6Lifecycle.HealthOK.
Abbreviation HealthBad := S6Lifecycle.HealthBad.
Abbreviation RecoveryAction := S6Lifecycle.RecoveryAction.
Abbreviation ActionOK := S6Lifecycle.ActionOK.
Abbreviation ActionWait := S6Lifecycle.ActionWait.
Abbreviation ActionRecreate := S6Lifecycle.ActionRecreate.

#[export] Instance HealthStatus_eq_dec : EqDecision HealthStatus.
Proof. solve_decision. Defined.

(** ** models.go, pkg/config, pkg/constants *)

Definition OperationalStateStarting : string := "starting".
Definition OperationalStateRunning : string := "running".
Definition OperationalStateStopping : string := "stopping".
Definition OperationalStateStopped : string := "stopped".
Definition OperationalStateUnknown : string := "unknown".

Definition IsOperationalState (state : string) : bool :=
  bool_decide (state ∈ [OperationalStateStopped; OperationalStateStarting; OperationalStateRunning;
    OperationalStateStopping; OperationalStateUnknown]).

Definition EventStart : string := "start".
Definition EventStartDone : string := "start_done".
Definition EventStop : string := "stop".
Definition EventStopDone : string := "stop_done".

Definition S6UpdateObservedStateTimeout : Z := 20 * Millisecond.
Definition S6DownAndReadyRestartDelay : Z := 3 * Second.

Record S6FSMConfig := mkS6FSMConfig { Name : string; DesiredFSMState : string; config_S6 : S6ServiceConfig }.

(** [LastStateChange] is never written. *)
Record S6ObservedState := mkObserved {
  ObservedS6ServiceConfig : S6ServiceConfig;
  ObsServiceInfo : ServiceInfo;
  DirectoryHealth : HealthStatus;
}.

(** The fields of [S6Instance] besides the base instance and the service. *)
Record S6Instance := mkS6 { servicePath : bytes; config : S6FSMConfig; ObservedState : S6ObservedState }.

Definition set_observed (f : S6ObservedState → S6ObservedState) (s : S6Instance) : S6Instance :=
  mkS6 (servicePath s) (config s) (f (ObservedState s)).
Definition set_directory (h : HealthStatus) : S6Instance → S6Instance :=
  set_observed (λ o, mkObserved (ObservedS6ServiceConfig o) (ObsServiceInfo o) h).
Definition set_info (i : ServiceInfo) : S6Instance → S6Instance :=
  set_observed (λ o, mkObserved (ObservedS6ServiceConfig o) i (DirectoryHealth o)).
Definition set_observedConfig (c : S6ServiceConfig) : S6Instance → S6Instance :=
  set_observed (λ o, mkObserved c (ObsServiceInfo o) (DirectoryHealth o)).

(** ** The service interface *)

(** The methods of [s6service.Service] the instance calls; [Status] may panic
    on a malformed label (see [S6Status.tai_Parse]). *)
Class IS6Service (W : Type) := {
  svc_Create : Ctx → bytes → S6ServiceConfig → W → option GoErr * W;
  svc_Remove : Ctx → bytes → W → option GoErr * W;
  svc_Start : Ctx → bytes → W → option GoErr * W;
  svc_Stop : Ctx → bytes → W → option GoErr * W;
  svc_Restart : Ctx → bytes → W → option GoErr * W;
  svc_Status : Ctx → bytes → W → option (ServiceInfo * option GoErr) * W;
  svc_GetConfig : Ctx → bytes → W → (S6ServiceConfig * option GoErr) * W;
  svc_ForceRemove : Ctx → bytes → W → option GoErr * W;
  svc_EnsureSupervision : Ctx → bytes → W → (bool * option GoErr) * W;
  svc_CheckServiceDirectoryIntegrity : Ctx → bytes → W → HealthStatus * W;
  svc_Health : Ctx → W → RecoveryAction * W;
}.

(** What the instance relies on: [Status] returns, and no error is the refusal
    of one of the instance's own events. *)
Class IS6ServiceLaws (W : Type) `{IS6Service W} := {
  svc_Create_err c p cfg w : not_refused (svc_Create c p cfg w).1;
  svc_Remove_err c p w : not_refused (svc_Remove c p w).1;
  svc_Start_err c p w : not_refused (svc_Start c p w).1;
  svc_Stop_err c p w : not_refused (svc_Stop c p w).1;
  svc_Restart_err c p w : not_refused (svc_Restart c p w).1;
  svc_Status_ok c p w : ∃ r, (svc_Status c p w).1 = Some r ∧ not_refused r.2;
  svc_GetConfig_err c p w : not_refused (svc_GetConfig c p w).1.2;
}.

(** ** machine.go *)

Definition OperationalTransitions : list EventDesc := [
  mkEvent EventStart [OperationalStateStopped] OperationalStateStarting;
  mkEvent EventStartDone [OperationalStateStarting] OperationalStateRunning;
  mkEvent EventStop [OperationalStateRunning; OperationalStateStarting] OperationalStateStopping;
  mkEvent EventStopDone [OperationalStateStopping] OperationalStateStopped ].

Definition baseConfig (c : S6FSMConfig) : BaseFSMInstanceConfig :=
  mkBaseCfg (Name c) OperationalStateStopped OperationalStateStopped OperationalStateStopped OperationalTransitions 20.

(** The callbacks of [fsm_callbacks.go] only log. *)
Definition registerCallbacks (b : BaseFSMInstance) : BaseFSMInstance :=
  fold_left (λ b st, AddCallback ("enter_" +:+ st) CbLog b)
    [OperationalStateStarting; OperationalStateStopping; OperationalStateStopped; OperationalStateRunning;
     OperationalStateUnknown] b.

(** A name that leads out of the base directory is replaced by the directory itself. *)
Definition service_path (s6BaseDir : bytes) (name : string) : bytes :=
  let joined := Join [s6BaseDir; lit name] in
  if is_prefix (Clean s6BaseDir ++ lit "/") joined then joined else s6BaseDir.

Definition zero_observed : S6ObservedState := mkObserved emptyConfig (S6Status.no_info "") HealthUnknown.

Definition NewS6Instance (s6BaseDir : bytes) (c : S6FSMConfig) : BaseFSMInstance * S6Instance :=
  (registerCallbacks (NewBaseFSMInstance (baseConfig c) DefaultConfig),
   mkS6 (service_path s6BaseDir (Name c)) c zero_observed).

Definition SetDesiredFSMState (state : string) (b : BaseFSMInstance) : option GoErr * BaseFSMInstance :=
  if bool_decide (state ≠ OperationalStateRunning) && bool_decide (state ≠ OperationalStateStopped)
  then (Some (ENew ("invalid desired state: " +:+ state +:+ ". valid states are " +:+ OperationalStateRunning
                    +:+ " and " +:+ OperationalStateStopped)), b)
  else (None, base_SetDesiredFSMState state b).

Definition IsStopping (b : BaseFSMInstance) : bool := bool_decide (base_GetCurrentFSMState b = OperationalStateStopping).
Definition IsStopped (b : BaseFSMInstance) : bool := bool_decide (base_GetCurrentFSMState b = OperationalStateStopped).
Definition WantsToBeStopped (b : BaseFSMInstance) : bool :=
  bool_decide (base_GetDesiredFSMState b = OperationalStateStopped).

Section s6.
Context {W : Type} `{World W} `{IS6Service W}.
Local Abbreviation M' := (M (St S6Instance W)).

(** ** actions.go *)

(** The two branches of the code differ in the configuration passed on and in
    the text of the error. *)
Definition CreateInstance (ctx : Ctx) : M' (option GoErr) :=
  b ← gets base;
  s ← gets own;
  let c := config_S6 (config s) in
  let configEmpty := bool_decide (S6Config.Command c = None ∧ S6Config.Env c = None ∧ S6Config.ConfigFiles c = None) in
  err ← liftE (svc_Create ctx (servicePath s) (if configEmpty then emptyConfig else c));
  match err with
  | Some e =>
      mret (Some (EWrap ((if configEmpty then "failed to create service directory for "
                          else "failed to create service with config for ") +:+ GetID b +:+ ": ") e))
  | None =>
      health ← liftE (svc_CheckServiceDirectoryIntegrity ctx (servicePath s));
      match health with
      | S6Lifecycle.HealthBad => mret (Some (ENew ("service directory integrity is bad after creation for " +:+ GetID b)))
      | S6Lifecycle.HealthUnknown =>
          mret (Some (ENew ("service directory integrity unknown after creation for " +:+ GetID b
                            +:+ " (temporary I/O issue, will retry)")))
      | S6Lifecycle.HealthOK => mret None
      end
  end.

Definition IsS6Running (s : S6Instance) : bool :=
  bool_decide (S6Status.Status (ObsServiceInfo (ObservedState s)) = S6Status.ServiceUp).
Definition IsS6Stopped (s : S6Instance) : bool :=
  bool_decide (S6Status.Status (ObsServiceInfo (ObservedState s)) = S6Status.ServiceDown).
Definition IsInDownAndReadyState (s : S6Instance) : bool := S6Status.IsDownAndReady (ObsServiceInfo (ObservedState s)).

Definition RemoveInstance (ctx : Ctx) : M' (option GoErr) :=
  b ← gets base;
  s ← gets own;
  if IsS6Running s then mret (Some (ENew ("service " +:+ GetID b +:+ " cannot be removed while running")))
  else
    err ← liftE (svc_Remove ctx (servicePath s));
    match err with
    | Some e =>
        if IsErr e ErrServiceNotExist then mret None
        else mret (Some (EWrap ("failed to remove service directory for " +:+ GetID b +:+ ": ") e))
    | None => mret None
    end.

(** [StartInstance], [StopInstance] and [RestartInstance]. *)
Definition StartInstance (ctx : Ctx) : M' (option GoErr) :=
  b ← gets base; s ← gets own;
  service_action ("failed to start S6 service " +:+ GetID b +:+ ": ") (svc_Start ctx (servicePath s)).
Definition StopInstance (ctx : Ctx) : M' (option GoErr) :=
  b ← gets base; s ← gets own;
  service_action ("failed to stop S6 service " +:+ GetID b +:+ ": ") (svc_Stop ctx (servicePath s)).
Definition RestartInstance (ctx : Ctx) : M' (option GoErr) :=
  b ← gets base; s ← gets own;
  service_action ("failed to restart S6 service " +:+ GetID b +:+ ": ") (svc_Restart ctx (servicePath s)).

Definition CheckForCreation (ctx : Ctx) : M' bool :=
  s ← gets own;
  '(ready, err) ← liftE (svc_EnsureSupervision ctx (servicePath s));
  match err with Some _ => mret false | None => mret ready end.

(** The comparison at the end of [UpdateObservedStateOfInstance]: a deviating
    configuration asks for the removal of the instance. *)
Definition compare_observed (ctx : Ctx) : M' (option GoErr) :=
  s ← gets own;
  if S6Config.Equal (ObservedS6ServiceConfig (ObservedState s)) (config_S6 (config s)) then mret None
  else Remove ctx.

Definition UpdateObservedStateOfInstance (ctx : Ctx) (snapshot : Snapshot) : M' (option GoErr) :=
  observedStateCtx ← liftE (WithTimeout ctx S6UpdateObservedStateTimeout);
  s ← gets own;
  health ← liftE (svc_CheckServiceDirectoryIntegrity observedStateCtx (servicePath s));
  _ ← on_own (set_directory health);
  if bool_decide (health = HealthBad) then
    _ ← on_own (set_info (S6Status.no_info S6Status.ServiceUnknown));
    _ ← on_own (set_observedConfig emptyConfig);
    mret None
  else
    r ← liftE (svc_Status observedStateCtx (servicePath s));
    match r with
    | None => panic
    | Some (_, Some e) => mret (Some (EWrap "failed to get service status: " e))
    | Some (serviceInfo, None) =>
        _ ← on_own (set_info serviceInfo);
        '(observed, err) ← liftE (svc_GetConfig ctx (servicePath s));
        match err with
        | Some e => mret (Some (EWrap "failed to get service config: " e))
        | None =>
            _ ← on_own (set_observedConfig observed);
            compare_observed ctx
        end
    end.

(** ** reconcile.go *)

Definition reconcileTransitionToRunning (ctx : Ctx) (currentState : string) (currentTime : Time) : M' (option GoErr * bool) :=
  if bool_decide (currentState = OperationalStateStopped) then
    err ← StartInstance ctx;
    match err with
    | Some e => mret (Some e, true)
    | None => send ctx EventStart true
    end
  else
    s ← gets own;
    if IsInDownAndReadyState s then
      let timeSinceLastChange := S6Status.time_Sub currentTime (S6Status.LastChangedAt (ObsServiceInfo (ObservedState s))) in
      if (timeSinceLastChange <? S6DownAndReadyRestartDelay)%Z then mret (None, false)
      else
        err ← RestartInstance ctx;
        match err with
        | Some e => mret (Some e, true)
        | None => mret (None, false)
        end
    else if bool_decide (currentState = OperationalStateStarting) then
      if IsS6Running s then send ctx EventStartDone true else mret (None, false)
    else mret (None, false).

Definition reconcileTransitionToStopped (ctx : Ctx) (currentState : string) : M' (option GoErr * bool) :=
  s ← gets own;
  if bool_decide (currentState = OperationalStateRunning) || bool_decide (currentState = OperationalStateStarting) then
    if bool_decide (DirectoryHealth (ObservedState s) = HealthBad) then send ctx EventStop true
    else
      err ← StopInstance ctx;
      match err with
      | Some e => mret (Some e, true)
      | None => send ctx EventStop true
      end
  else if bool_decide (currentState = OperationalStateStopping) then
    if IsS6Stopped s || bool_decide (DirectoryHealth (ObservedState s) = HealthBad) then send ctx EventStopDone true
    else mret (None, false)
  else mret (None, false).

Definition reconcileOperationalStates (ctx : Ctx) (currentTime : Time) (currentState desiredState : string)
    : M' (option GoErr * bool) :=
  if bool_decide (desiredState = OperationalStateRunning) then reconcileTransitionToRunning ctx currentState currentTime
  else if bool_decide (desiredState = OperationalStateStopped) then reconcileTransitionToStopped ctx currentState
  else mret (Some (ENew ("invalid desired state: " +:+ desiredState)), false).

(** After the recovery directive: the lifecycle and operational dispatch. *)
Definition dispatch (ctx : Ctx) (currentTime : Time) : M' (option GoErr * bool) :=
  lifecycle_or_operational IsOperationalState CreateInstance RemoveInstance CheckForCreation
    (reconcileOperationalStates ctx currentTime) ctx.

Definition corrupted (currentState : string) : GoErr :=
  ENew (PermanentFailureError +:+ ": directory corrupted in state " +:+ currentState).

Definition reconcileStateTransition (ctx : Ctx) (currentTime : Time) : M' (option GoErr * bool) :=
  b ← gets base;
  let currentState := base_GetCurrentFSMState b in
  directive ← liftE (svc_Health ctx);
  match directive with
  | S6Lifecycle.ActionOK => dispatch ctx currentTime
  | S6Lifecycle.ActionRecreate => mret (Some (corrupted currentState), false)
  | S6Lifecycle.ActionWait =>
      if IsOperationalState currentState then mret (None, false) else dispatch ctx currentTime
  end.

Definition reconcileExternalChanges : Ctx → Snapshot → M' (option GoErr) :=
  external_changes S6UpdateObservedStateTimeout UpdateObservedStateOfInstance.

(** A broken directory counts as shut down, so that it is removed by force. *)
Definition inShutdown : M' bool :=
  s ← gets own;
  if bool_decide (DirectoryHealth (ObservedState s) = HealthBad) then mret true
  else
    b ← gets base;
    mret (IsRemoved b || IsRemoving b || IsStopping b || IsStopped b || WantsToBeStopped b).

Definition forceRemove (ctx : Ctx) : M' (option GoErr) :=
  s ← gets own; liftE (svc_ForceRemove ctx (servicePath s)).

Definition handlers : Handlers S6Instance W := {|
  onPermanentError := permanent_with inShutdown (λ _, forceRemove);
  externalChanges := reconcileExternalChanges;
  stateTransition ctx snapshot := reconcileStateTransition ctx (SnapshotTime snapshot);
  reconcileManager _ _ := mret (None, false);
|}.

Definition Reconcile : Ctx → Snapshot → M' (option GoErr * bool) := instance_Reconcile handlers.
End s6.

(** ** manager.go: what is injected into the generic manager *)

Definition S6 : Type := BaseFSMInstance * S6Instance.

(** [NewS6Manager]: the configurations are [fc.Internal.Services]. *)
Definition S6ManagerOps : ManagerOps (list S6FSMConfig) S6FSMConfig S6 := {|
  extractConfigs fc := (fc, None);
  getName c := (Name c, None);
  getDesiredState c := (DesiredFSMState c, None);
  createInstance c := (Some (NewS6Instance S6Lifecycle.S6BaseDir c), None);
  compareConfig i c := (S6Config.Equal (config_S6 (config i.2)) (config_S6 c), None);
  setConfig i c :=
    (None, (i.1, mkS6 (servicePath i.2) (mkS6FSMConfig (Name (config i.2)) (DesiredFSMState (config i.2)) (config_S6 c))
                   (ObservedState i.2)));
  getMinimumRequiredTime i := (S6UpdateObservedStateTimeout, None);
|}.

Definition Table : Instance.Table :=
  mkTable (transitions (fsm (NewS6Instance [] (mkS6FSMConfig "" "" emptyConfig)).1)) OperationalStateStopped
    [LifecycleStateToBeCreated; LifecycleStateCreating; LifecycleStateRemoving; LifecycleStateRemoved;
     OperationalStateStopped; OperationalStateStarting; OperationalStateRunning; OperationalStateStopping].

Lemma s6_Table_ok : table_ok Table.
Proof. apply (bool_decide_unpack _). by vm_compute. Qed.

(** ** The invariant *)

Section invariant.
Context {W : Type} `{World W} `{IS6Service W} `{!IS6ServiceLaws W}.
Implicit Types (s : St S6Instance W).

(** A property of the instance's own fields, kept by every update of the
    observed state. *)
Context (own_ok : S6Instance → Prop).
Context (own_directory : ∀ h x, own_ok x → own_ok (set_directory h x)).
Context (own_config : ∀ c x, own_ok x → own_ok (set_observedConfig c x)).
Context (own_unknown : ∀ x, own_ok x → own_ok (set_info (S6Status.no_info S6Status.ServiceUnknown) x)).
Context (own_info : ∀ c p (w : W) i x, (svc_Status c p w).1 = Some (i, None) → own_ok x → own_ok (set_info i x)).
Local Abbreviation inv := (sinv (W := W) Table own_ok).
Local Abbreviation keeps' := (keeps (W := W) Table own_ok).

Local Ltac acts := apply action_gets_base; intros b; apply action_gets_own; intros x.

Lemma s6_create_ok ctx : action_ok not_refused (CreateInstance (W := W) ctx).
Proof.
  acts. apply action_liftE; [intros; apply svc_Create_err|]. intros [e|] He; [apply action_ret; auto with umh|].
  intros s. apply wp_bind, wp_liftE. intros h w _. destruct h; apply wp_ret; auto with umh.
Qed.
Lemma s6_remove_ok ctx : action_ok not_refused (RemoveInstance (W := W) ctx).
Proof.
  acts. destruct (IsS6Running x); [apply action_ret; auto with umh|].
  apply action_liftE; [intros; apply svc_Remove_err|]. intros [e|] He; [destruct (IsErr _ _)|]; apply action_ret; auto with umh.
Qed.
Lemma s6_start_ok ctx : action_ok not_refused (StartInstance (W := W) ctx).
Proof. acts. apply service_action_ok. intros; apply svc_Start_err. Qed.
Lemma s6_stop_ok ctx : action_ok not_refused (StopInstance (W := W) ctx).
Proof. acts. apply service_action_ok. intros; apply svc_Stop_err. Qed.
Lemma s6_restart_ok ctx : action_ok not_refused (RestartInstance (W := W) ctx).
Proof. acts. apply service_action_ok. intros; apply svc_Restart_err. Qed.
Lemma s6_check_ok ctx : action_ok (λ _, True) (CheckForCreation (W := W) ctx).
Proof.
  apply action_gets_own; intros x s. apply wp_bind, wp_liftE. intros [r [e|]] w _; by apply wp_ret.
Qed.

Local Ltac ret := apply wp_ret; split; [done|simpl; solve [auto with umh]].

Lemma s6_send_ok ctx ev r s :
  inv s → allowed Table ev (current (fsm (base s))) = true →
  wp (send ctx ev r) (λ r s', inv s' ∧ not_refused r.1) s.
Proof. intros Hs Ha. by apply (wp_send Table s6_Table_ok own_ok). Qed.

(** An action, then its event, in a state that allows it. *)
Lemma s6_act_send_ok act ctx ev (r r' : bool) s :
  action_ok not_refused act → inv s → allowed Table ev (current (fsm (base s))) = true →
  wp (err ← act; match err with Some e => mret (Some e, r') | None => send ctx ev r end)
     (λ r s', inv s' ∧ not_refused r.1) s.
Proof.
  intros Ha Hs Hev. apply wp_bind. eapply wp_mono; [by apply (action_inv Table own_ok _ _ _ Ha)|].
  intros [e|] s' (Hs' & Eb & He); [ret|]. apply s6_send_ok; [done|by rewrite Eb].
Qed.

Lemma s6_running_ok ctx t s :
  inv s → wp (reconcileTransitionToRunning ctx (current (fsm (base s))) t) (λ r s', inv s' ∧ not_refused r.1) s.
Proof.
  intros Hs. unfold reconcileTransitionToRunning. case_bool_decide as E1.
  { apply s6_act_send_ok; [apply s6_start_ok|done|by rewrite E1]. }
  apply wp_bind, wp_gets. destruct (IsInDownAndReadyState _).
  - cbv zeta. destruct (_ <? _)%Z; [ret|]. apply wp_bind.
    eapply wp_mono; [apply (action_inv Table own_ok _ _ _ (s6_restart_ok ctx)), Hs|].
    intros [e|] s' (Hs' & Eb & He); ret.
  - case_bool_decide as E2; [|ret]. destruct (IsS6Running _); [|ret]. apply s6_send_ok; [done|by rewrite E2].
Qed.

Lemma s6_stopped_ok ctx s :
  inv s → wp (reconcileTransitionToStopped ctx (current (fsm (base s)))) (λ r s', inv s' ∧ not_refused r.1) s.
Proof.
  intros Hs. apply wp_bind, wp_gets.
  destruct (_ || _) eqn:E.
  - assert (Ha : allowed Table EventStop (current (fsm (base s))) = true).
    { apply orb_true_iff in E as [E1%bool_decide_eq_true | E1%bool_decide_eq_true]; rewrite E1; by vm_compute. }
    clear E. case_bool_decide; [by apply s6_send_ok|]. apply s6_act_send_ok; [apply s6_stop_ok|done..].
  - clear E. case_bool_decide as E1; [|ret]. destruct (_ || _); [|ret]. apply s6_send_ok; [done|by rewrite E1].
Qed.

Lemma s6_dispatch_ok ctx t : keeps' (λ r, not_refused r.1) (dispatch ctx t).
Proof.
  apply keeps_lifecycle_or_operational; [apply s6_Table_ok|apply s6_create_ok|apply s6_remove_ok|apply s6_check_ok|].
  intros s Hs Ho. unfold reconcileOperationalStates. repeat case_bool_decide.
  - by apply s6_running_ok.
  - by apply s6_stopped_ok.
  - ret.
Qed.

Lemma s6_transition_ok ctx t : keeps' (λ r, not_refused r.1) (reconcileStateTransition ctx t).
Proof.
  apply keeps_gets_base; intros b _. cbv zeta.
  eapply (keeps_bind _ _ (λ _, True)); [by apply keeps_liftE|]. intros [] _.
  - apply s6_dispatch_ok.
  - destruct (IsOperationalState _); [by apply keeps_ret|apply s6_dispatch_ok].
  - apply keeps_ret. apply not_refused_new.
Qed.

Lemma s6_compare_ok ctx : keeps' not_refused (compare_observed ctx).
Proof.
  apply keeps_gets_own; intros x _. destruct (S6Config.Equal _ _); [by apply keeps_ret|].
  intros s Hs. eapply wp_mono; [by apply (keeps_Remove Table s6_Table_ok own_ok)|]. intros r s' (Hs' & _ & Hr). by split.
Qed.

Lemma s6_update_ok ctx snap : keeps' not_refused (UpdateObservedStateOfInstance ctx snap).
Proof.
  eapply (keeps_bind _ _ (λ _, True)); [by apply keeps_liftE|]. intros c _. apply keeps_gets_own; intros x _.
  eapply (keeps_bind _ _ (λ _, True)); [by apply keeps_liftE|]. intros h _.
  eapply keeps_bind; [apply keeps_on_own; auto|]. intros _ _. case_bool_decide.
  { do 2 (eapply keeps_bind; [apply keeps_on_own; auto|]; intros _ _). by apply keeps_ret. }
  eapply (keeps_bind _ _ (λ r, ∃ i, r = Some i ∧ not_refused i.2 ∧ ∃ c p w, (svc_Status (W := W) c p w).1 = Some i)).
  { apply keeps_liftE. intros w. destruct (svc_Status_ok c (servicePath x) w) as (i & Hi & He). rewrite Hi. eauto 10. }
  intros r ([i [e|]] & -> & He & c1 & p1 & w1 & Hi); [apply keeps_ret; auto with umh|].
  eapply keeps_bind; [apply keeps_on_own; eauto|]. intros _ _.
  eapply (keeps_bind _ _ (λ r, not_refused r.2)); [apply keeps_liftE; intros; apply svc_GetConfig_err|].
  intros [c' [e|]] Hc; [apply keeps_ret; auto with umh|].
  eapply keeps_bind; [apply keeps_on_own; auto|]. intros _ _. apply s6_compare_ok.
Qed.

Lemma s6_inShutdown_idle : action_ok (λ _, True) (inShutdown (W := W)).
Proof.
  apply action_gets_own; intros x. case_bool_decide; [by apply action_ret|].
  apply action_gets_base; intros b. by apply action_ret.
Qed.
Lemma s6_force_idle ctx : action_ok (λ _, True) (forceRemove (W := W) ctx).
Proof. apply action_gets_own; intros x s. by apply wp_liftE. Qed.

Lemma s6_handlers_ok : Instance.handlers_ok Table own_ok (handlers (W := W)).
Proof.
  split.
  - apply permanent_with_ok; [apply s6_Table_ok|apply s6_inShutdown_idle|intros; apply s6_force_idle].
  - intros c snap. apply external_changes_ok. intros. apply s6_update_ok.
  - intros c snap. apply s6_transition_ok.
  - intros c snap. by apply keeps_ret.
Qed.

End invariant.

(** ** The instance as the manager sees it *)

Section manager.
Context {W : Type} `{World W} `{IS6Service W} `{!IS6ServiceLaws W}.

Definition own_ok (x : S6Instance) : Prop := True.

#[export] Instance S6_FSMInstance : FSMInstance S6 W := pair_FSMInstance SetDesiredFSMState Reconcile.
#[export] Instance S6_inv : InstanceInv S6 := pair_inv Table own_ok.

Lemma NewS6Instance_inv dir c : inst_ok (NewS6Instance dir c).
Proof. split; [apply NewBase_inv; [done|done|by left]|done]. Qed.

#[export] Instance S6ManagerOps_laws : ManagerOpsLaws S6ManagerOps.
Proof.
  split.
  - intros c i [= <-]. apply NewS6Instance_inv.
  - by intros [b n] c [Hb Hn].
Qed.

#[export] Instance S6_laws : FSMInstanceLaws S6 W.
Proof.
  apply (pair_FSMInstanceLaws Table own_ok); [apply s6_Table_ok|by apply s6_handlers_ok| |].
  - intros d b Hb. unfold SetDesiredFSMState. destruct (_ && _); [done|by apply inst_inv_desired].
  - intros d b. unfold SetDesiredFSMState. by destruct (_ && _).
Qed.
End manager.
