(* ===== verification/S6Recovery.v ===== *)
(** * S6Recovery: what the s6 instance does about a broken service

    The theorems about [S6Instance]: it never panics, a corrupted directory is
    removed by force once the back-off has grown beyond one tick, a service is
    restarted only after it was down for a while, a removal under way is
    carried on with.  At the end the instance runs on the service of
    [S6Lifecycle] ([default_service]). *)

From S2P Require Import Prelude Float64 GoRuntime GoBytes Backoff BaseFSM FSMManager Instance S6Instance.
From S2P Require FileSystem MemOS S6Status S6Config S6Lifecycle S6LifecycleFacts S6DefaultService.

(** ** Recovery from a corrupted directory *)

(** The directory stays broken. *)
Class Corrupted (W : Type) `{IS6Service W} := {
  cor_Check c p w : (svc_CheckServiceDirectoryIntegrity c p w).1 = HealthBad;
  cor_Health c w : (svc_Health c w).1 = ActionRecreate;
}.

Section corruption.
Context {W : Type} `{World W} `{IS6Service W} `{!Corrupted W}.
Implicit Types (s : St S6Instance W) (b : BaseFSMInstance).

(** The back-off after [n] failed ticks, the last of them [tick - 1]; the
    interval in milliseconds is that of the exponential policy. *)
Record failed (n interval : Z) (tick : Z) b : Prop := {
  fail_permanent : permanentFailure (backoffManager b) = false;
  fail_inv : bm_inv DefaultConfig (backoffManager b);
  fail_tries : numTries (Backoff.backoff (backoffManager b)) = n;
  fail_interval : currentInterval (delegate (Backoff.backoff (backoffManager b))) = interval;
  fail_suspended : (suspendedUntilTick (backoffManager b) <= tick)%Z;
}.

Lemma not_skipped n i tick b : failed n i tick b → ShouldSkipReconcileBecauseOfError tick b = false.
Proof.
  intros [Hp _ _ _ Hs]. unfold ShouldSkipReconcileBecauseOfError, ShouldSkipOperation. rewrite Hp.
  destruct (_ || _); [done|]. by apply Z.ltb_ge.
Qed.

(** One tick that finds the directory corrupted. *)
Lemma wp_corrupt_tick snap s n i (Q : option GoErr * bool → St S6Instance W → Prop) :
  failed n i (Tick snap) (base s) →
  (∀ k r m s', (0 <= k < 2 ^ 53)%Z →
     SetError (Some (corrupted (current (fsm (base s))))) (Tick snap) (F k (-53)) (backoffManager (base s)) = (r, m) →
     base s' = set_backoff m (base s) → DirectoryHealth (ObservedState (own s')) = HealthBad →
     servicePath (own s') = servicePath (own s) → Q (None, false) s') →
  wp (Reconcile Background snap) Q s.
Proof.
  intros Hf HQ. unfold Reconcile, instance_Reconcile. apply wp_bind, wp_liftE. intros e w He.
  pose proof (ctx_Err_Background (env s)) as H1. rewrite He in H1. simpl in H1. subst e.
  apply wp_bind, wp_gets. cbn [base]. rewrite (not_skipped _ _ _ _ Hf).
  apply wp_bind. unfold handlers, externalChanges, reconcileExternalChanges, external_changes.
  apply wp_bind, wp_liftE. intros c w1 _. apply wp_bind. unfold UpdateObservedStateOfInstance.
  apply wp_bind, wp_liftE. intros c2 w2 _. apply wp_bind, wp_gets. cbn [own].
  apply wp_bind, (wp_liftE_ok _ (λ h, h = HealthBad)); [intros; apply cor_Check|]. intros h w3 ->. cbn [base own].
  apply wp_bind, wp_modify. rewrite bool_decide_true by done. cbn [base own env].
  do 2 apply wp_bind, wp_modify. apply wp_ret, wp_ret. cbn [base own env].
  apply wp_bind, wp_ret, wp_bind. unfold stateTransition, reconcileStateTransition. apply wp_bind, wp_gets. cbv zeta.
  apply wp_bind, (wp_liftE_ok _ (λ d, d = ActionRecreate)); [intros; apply cor_Health|]. intros d w4 ->.
  apply wp_ret. cbn [base own env]. unfold base_GetCurrentFSMState.
  destruct (IsErr _ ErrInstanceRemoved) eqn:E; [done|]. clear E. unfold step_failed_with, IsDeadlineExceededAndHandle.
  destruct (IsErr _ DeadlineExceeded) eqn:E; [done|]. clear E.
  apply wp_bind, wp_ret, wp_bind, wp_base_SetError. intros k w5 r m Hk Hm. apply wp_ret. cbn [base own] in *.
  by eapply HQ; [exact Hk|exact Hm|..].
Qed.

Lemma DefaultConfig_ok : config_ok DefaultConfig.
Proof. unfold config_ok, in_u64. simpl. lia. Qed.

(** The next tick counts as failed too: its suspension is [d] ticks long. *)
Lemma failed_step n i tick e k r m b :
  failed n i tick b → (n < 5)%Z → (0 <= k < 2 ^ 53)%Z → in_u64 (tick + (i + 1) / Millisecond) → (0 <= tick)%Z →
  SetError e tick (F k (-53)) (backoffManager b) = (r, m) →
  lastError m = e ∧ permanentFailure m = false ∧
  (tick + i / Millisecond <= suspendedUntilTick m <= tick + (i + 1) / Millisecond)%Z ∧
  (suspendedUntilTick m <= tick + (i + 1) / Millisecond →
   failed (n + 1) (Z.min (600 * Millisecond) (3 * i / 2)) (tick + (i + 1) / Millisecond) (set_backoff m b))%Z.
Proof.
  intros [Hp Hi Hn Hc Hs] Hlt Hk Hr Ht E.
  pose proof (inv_current _ _ Hi) as Hcur. rewrite Hc in Hcur. cbn [cfg_InitialInterval cfg_MaxInterval DefaultConfig] in Hcur.
  destruct (set_error_temporary DefaultConfig DefaultConfig_ok (backoffManager b) e tick k Hi Hk) as
    (m' & E' & H1 & H2 & H3 & H4 & H5 & H6 & H7).
  { unfold exhausted. rewrite Hp. simpl. intros [|[_ ?]]; [done|]. lia. }
  rewrite E in E'. injection E' as -> ->. rewrite Hc in H3. cbn [cfg_MaxRetries DefaultConfig] in H7.
  assert (0 <= i / Millisecond)%Z by (apply Z.div_pos; unfold Millisecond; lia).
  assert (Hsus : suspendedUntilTick m' = (tick + ticksToWait m')%Z).
  { rewrite H4. apply wrap_u64_small. unfold in_u64 in *. lia. }
  split_and!; [done|done|lia|lia|]. intros Hle. split; cbn [set_backoff backoffManager].
  - done.
  - pose proof (bm_inv_set_error DefaultConfig DefaultConfig_ok (backoffManager b) e tick k Hi Hk) as Hi'. by rewrite E in Hi'.
  - rewrite H7, Hn. done.
  - rewrite H5, (increment_spec DefaultConfig DefaultConfig_ok _ Hi), Hc. done.
  - done.
Qed.

(** The forced removal of the service at [path] was called, last of all; the
    instance is in the removed state if it succeeded, and still in [st] if not. *)
Definition forced_by (path : bytes) (st : string) (s' : St S6Instance W) : Prop :=
  ∃ w answer, svc_ForceRemove Background path w = (answer, env s') ∧
    current (fsm (base s')) = match answer with None => LifecycleStateRemoved | Some _ => st end.

(** A tick that finds the instance suspended by the corruption removes it. *)
Lemma wp_force_tick snap s st :
  lastError (backoffManager (base s)) = Some (corrupted st) → permanentFailure (backoffManager (base s)) = false →
  (Tick snap < suspendedUntilTick (backoffManager (base s)))%Z → (0 <= Tick snap)%Z →
  DirectoryHealth (ObservedState (own s)) = HealthBad →
  wp (Reconcile Background snap) (λ _ s', forced_by (servicePath (own s)) (current (fsm (base s))) s') s.
Proof.
  intros Hl Hp Hlt Ht Hbad. unfold Reconcile, instance_Reconcile. apply wp_bind, wp_liftE. intros e w He.
  pose proof (ctx_Err_Background (env s)) as H1. rewrite He in H1. simpl in H1. subst e.
  apply wp_bind, wp_gets. cbn [base].
  assert (ShouldSkipReconcileBecauseOfError (Tick snap) (base s) = true) as ->.
  { unfold ShouldSkipReconcileBecauseOfError, ShouldSkipOperation. rewrite Hp, Hl. rewrite bool_decide_false by done.
    rewrite (proj2 (Z.eqb_neq _ _)) by lia. by apply Z.ltb_lt. }
  assert (Hperm : IsPermanentFailureError (base_GetBackoffError (Tick snap) (base s)) = true).
  { unfold base_GetBackoffError, GetBackoffError. rewrite Hp, Hl, (proj2 (Z.ltb_lt 0 _)), (proj2 (Z.ltb_lt _ _)) by lia.
    simpl. apply contains_app_r, contains_app_l, contains_refl. }
  cbv zeta. rewrite Hperm. cbn [onPermanentError handlers]. unfold permanent_with, HandlePermanentError.
  apply wp_bind. unfold inShutdown. apply wp_bind, wp_gets. cbn [own]. rewrite bool_decide_true by done.
  apply wp_ret, wp_bind. unfold forceRemove. apply wp_bind, wp_gets. cbn [own].
  apply wp_liftE. intros e w1 Ef. cbn [base own env]. apply wp_bind, wp_gets.
  destruct e as [e|]; [|apply wp_bind, wp_on_base]; apply wp_ret; exists w; by eexists.
Qed.

(** The ticks follow one another, the first of them [t]. *)
Definition consecutive (t : Z) (snaps : list Snapshot) : Prop :=
  ∀ i snap, snaps !! i = Some snap → Tick snap = (t + Z.of_nat i)%Z.

Lemma consecutive_cons t snap snaps :
  consecutive t (snap :: snaps) → Tick snap = t ∧ consecutive (t + 1) snaps.
Proof.
  intros Hc. split; [rewrite (Hc 0 snap eq_refl); lia|]. intros i x Hx. rewrite (Hc (S i) x Hx). lia.
Qed.

(** One failed tick, and what is left of the run. *)
Lemma corrupt_then n i ticks next snap snaps s t (Q : unit → St S6Instance W → Prop) :
  failed n i t (base s) → (n < 5)%Z → (i / Millisecond = ticks)%Z → ((i + 1) / Millisecond = ticks)%Z →
  Z.min (600 * Millisecond) (3 * i / 2) = next →
  Tick snap = t → (0 <= t)%Z → in_u64 (t + ticks) →
  (∀ s', current (fsm (base s')) = current (fsm (base s)) → servicePath (own s') = servicePath (own s) →
     DirectoryHealth (ObservedState (own s')) = HealthBad →
     lastError (backoffManager (base s')) = Some (corrupted (current (fsm (base s)))) →
     permanentFailure (backoffManager (base s')) = false →
     suspendedUntilTick (backoffManager (base s')) = (t + ticks)%Z → failed (n + 1) next (t + ticks) (base s') →
     wp (ticks_of (Reconcile Background) snaps) Q s') →
  wp (ticks_of (Reconcile Background) (snap :: snaps)) Q s.
Proof.
  intros Hf Hn Hlo Hhi <- Ht H0t Hu HQ. apply wp_bind. eapply (wp_corrupt_tick snap s n i); [by rewrite Ht|].
  intros k r m s' Hk Hm Eb Hbad Hpath. rewrite Ht in Hm.
  edestruct (failed_step n i t) as (E1 & E2 & E3 & E4); [exact Hf|exact Hn|exact Hk|rewrite Hhi; exact Hu|exact H0t|exact Hm|].
  rewrite Hlo, Hhi in *. apply HQ; rewrite ?Eb; try done; [simpl; lia|]. apply E4. lia.
Qed.

(** C37: Recovery from a corrupted service directory.  When the directory of a
    service is broken and stays broken, an instance with a fresh back-off
    records a permanent failure on each of its consecutive ticks; because the
    first two of them suspend it for one tick only, it is on the fourth tick
    that the handler of permanent failures runs.  That tick calls the forced
    removal of the service's directory, and moves the instance to [removed] if
    the call succeeds; if it fails, the instance stays where it is.  Until then
    the state machine does not move, and it takes no retry beyond the fourth,
    whatever the random numbers are. *)
Theorem s6_corruption_recovered snaps s t :
  failed 0 Millisecond t (base s) → consecutive t snaps → length snaps ≤ 4 → (0 <= t < 2 ^ 63)%Z →
  wp (ticks_of (Reconcile Background) snaps)
     (λ _ s', if decide (length snaps = 4) then forced_by (servicePath (own s)) (current (fsm (base s))) s'
              else current (fsm (base s')) = current (fsm (base s))) s.
Proof.
  intros Hf Hc Hl Ht. unfold in_u64 in *.
  assert (Hu' : ∀ j x, x = (t + j)%Z → (0 <= j <= 10)%Z → in_u64 x) by (unfold in_u64; lia).
  assert (Hu : in_u64 (t + 1)) by (eapply Hu'; [reflexivity|lia]).
  destruct snaps as [|sn1 snaps]; [by apply wp_ret|]. apply consecutive_cons in Hc as [E1 Hc].
  eapply (corrupt_then 0 _ 1 1500000); [exact Hf|lia|reflexivity..|exact E1|lia|exact Hu|]. intros s1 C1 P1 _ _ _ _ F1.
  destruct snaps as [|sn2 snaps]; [by apply wp_ret|]. apply consecutive_cons in Hc as [E2 Hc].
  eapply (corrupt_then _ _ 1 2250000); [exact F1|lia|reflexivity..|exact E2|lia|apply (Hu' 2%Z); lia|].
  intros s2 C2 P2 _ _ _ _ F2.
  destruct snaps as [|sn3 snaps]; [apply wp_ret; simpl; congruence|]. apply consecutive_cons in Hc as [E3 Hc].
  eapply (corrupt_then _ _ 2 3375000); [exact F2|lia|reflexivity..|exact E3|lia|apply (Hu' 4%Z); lia|].
  intros s3 C3 P3 B3 L3 N3 S3 F3.
  destruct snaps as [|sn4 snaps]; [apply wp_ret; simpl; congruence|]. apply consecutive_cons in Hc as [E4 Hc].
  destruct snaps as [|sn5 snaps]; [|simpl in Hl; lia].
  apply wp_bind. eapply wp_mono; [eapply wp_force_tick; [exact L3|exact N3|rewrite E4, S3; lia|lia|exact B3]|].
  intros r s4 Hr. apply wp_ret. simpl. congruence.
Qed.
End corruption.

(** ** Restarts *)

(** The same service with another way to restart. *)
Definition with_restart {W} (svc : IS6Service W) (f : Ctx → bytes → W → option GoErr * W) : IS6Service W := {|
  svc_Create := svc_Create; svc_Remove := svc_Remove; svc_Start := svc_Start; svc_Stop := svc_Stop;
  svc_Restart := f; svc_Status := svc_Status; svc_GetConfig := svc_GetConfig; svc_ForceRemove := svc_ForceRemove;
  svc_EnsureSupervision := svc_EnsureSupervision;
  svc_CheckServiceDirectoryIntegrity := svc_CheckServiceDirectoryIntegrity; svc_Health := svc_Health |}.

(** Not down and ready, or only for a short while. *)
Definition recent (now : Time) (i : ServiceInfo) : Prop :=
  S6Status.IsDownAndReady i = true → (S6Status.time_Sub now (S6Status.LastChangedAt i) < S6DownAndReadyRestartDelay)%Z.

Section restarts.
Context {W : Type} `{World W} (svc : IS6Service W) `{!IS6ServiceLaws W} (f : Ctx → bytes → W → option GoErr * W).
Implicit Types (s : St S6Instance W).
Local Abbreviation svc' := (with_restart svc f).

Lemma bind_agree {A B} (m : M (St S6Instance W) A) (k k' : A → M (St S6Instance W) B) (Q : A → St S6Instance W → Prop) s :
  wp m Q s → (∀ a s', Q a s' → k a s' = k' a s') → (m ≫= k) s = (m ≫= k') s.
Proof. intros (a & s' & E & HQ) Hk. unfold mbind, M_bind. rewrite E. by apply Hk. Qed.

Lemma operational_agrees ctx now cur desired s :
  recent now (ObsServiceInfo (ObservedState (own s))) →
  @reconcileOperationalStates W _ svc' ctx now cur desired s = @reconcileOperationalStates W _ svc ctx now cur desired s.
Proof.
  intros Hr. unfold reconcileOperationalStates. case_bool_decide; [|done].
  unfold reconcileTransitionToRunning. case_bool_decide; [done|].
  eapply (bind_agree _ _ _ (λ x s', x = own s ∧ s' = s)); [by apply wp_gets|]. intros x s' [-> ->].
  unfold IsInDownAndReadyState. destruct (S6Status.IsDownAndReady _) eqn:E; [|done]. cbv zeta.
  by rewrite (proj2 (Z.ltb_lt _ _) (Hr E)).
Qed.

Lemma transition_agrees ctx now s :
  recent now (ObsServiceInfo (ObservedState (own s))) →
  @reconcileStateTransition W _ svc' ctx now s = @reconcileStateTransition W _ svc ctx now s.
Proof.
  intros Hr. unfold reconcileStateTransition. eapply (bind_agree _ _ _ (λ _ s', own s' = own s)); [by apply wp_gets|].
  intros b s1 E1. cbv zeta. eapply (bind_agree _ _ _ (λ _ s', own s' = own s)); [by apply wp_liftE|].
  intros d s2 E2.
  assert (@dispatch W _ svc' ctx now s2 = @dispatch W _ svc ctx now s2) as Hd.
  { unfold dispatch, lifecycle_or_operational.
    eapply (bind_agree _ _ _ (λ _ s', own s' = own s)); [by apply wp_gets|]. intros b2 s3 E3. cbv zeta.
    destruct (IsLifecycleState _); [done|]. destruct (IsOperationalState _); [|done].
    unfold mbind, M_bind. by rewrite operational_agrees by by rewrite E3. }
  destruct d; [exact Hd|destruct (IsOperationalState _); [done|exact Hd]|done].
Qed.

(** Restarts are spaced.  As long as every status the service reports, and
    the one last observed, shows the service not down and ready, or so for less
    than [S6DownAndReadyRestartDelay], a tick of the instance does not depend on
    how a restart is carried out: it restarts nothing. *)
Theorem s6_restarts_are_spaced ctx snap s :
  (∀ c p w i, (svc_Status c p w).1 = Some (i, None) → recent (SnapshotTime snap) i) →
  inst_inv Table (base s) → recent (SnapshotTime snap) (ObsServiceInfo (ObservedState (own s))) →
  @Reconcile W _ svc' ctx snap s = @Reconcile W _ svc ctx snap s.
Proof.
  intros Hst Hb Ho. pose (OI := λ x, recent (SnapshotTime snap) (ObsServiceInfo (ObservedState x))).
  assert (Hupd : ∀ c sn, keeps Table OI not_refused (@UpdateObservedStateOfInstance W _ svc c sn)).
  { apply s6_update_ok; subst OI; cbn; try done. intros; by eapply Hst. }
  unfold Reconcile, instance_Reconcile.
  eapply (bind_agree _ _ _ (λ _ s', base s' = base s ∧ own s' = own s)); [by apply wp_liftE|]. intros e s1 [Eb1 Eo1].
  destruct e; [done|]. eapply (bind_agree _ _ _ (λ _ s', sinv Table OI s')).
  { apply wp_gets. split; [by rewrite Eb1|]. unfold OI. by rewrite Eo1. }
  intros b s2 Hs2. destruct (ShouldSkipReconcileBecauseOfError _ _); [done|].
  eapply (bind_agree _ _ _ (λ e s', sinv Table OI s' ∧ not_refused e)).
  { apply (external_changes_ok Table OI); [exact Hupd|exact Hs2]. }
  intros e s3 [Hs3 He]. eapply (bind_agree _ _ _ (λ _ s', sinv Table OI s')).
  { destruct e as [e|]; [|by apply wp_ret].
    eapply wp_mono; [apply (keeps_deadline Table OI); [by apply He|exact Hs3]|]. by intros ? ? []. }
  intros [] s4 Hs4; [done|]. unfold mbind, M_bind. cbn [stateTransition handlers].
  rewrite transition_agrees; [done|apply Hs4].
Qed.
End restarts.

(** ** Removal and start *)

(** The service removes its directory when asked to, whatever its health. *)
Class Removable (W : Type) `{IS6Service W} := {
  rm_Health c w : (svc_Health c w).1 ≠ ActionRecreate;
  rm_Remove c p w : (svc_Remove c p w).1 = None;
  rm_Status c p w : ∃ i, (svc_Status c p w).1 = Some (i, None) ∧ S6Status.Status i ≠ S6Status.ServiceUp;
  rm_GetConfig c p w : (svc_GetConfig c p w).1.2 = None;
}.

Local Abbreviation down := (λ x, IsS6Running x = false).

Section removal.
Context {W : Type} `{World W} `{!PromptClock W} `{IS6Service W} `{!Removable W}.
Implicit Types (s : St S6Instance W).

(** Refreshing the observed state of an instance under removal. *)
Lemma removing_external snap s w :
  leaving Table (λ _, True) LifecycleStateRemoving s →
  wp (reconcileExternalChanges Background snap)
     (λ e s', e = None ∧ base s' = base s ∧ IsS6Running (own s') = false) (mkSt (base s) (own s) w).
Proof.
  intros Hl. apply wp_external_context; [unfold S6UpdateObservedStateTimeout, Millisecond; lia|]. intros c w1 _.
  apply wp_bind. eapply (wp_mono _ (λ e s', e = None ∧ base s' = base s ∧ IsS6Running (own s') = false));
    [|intros e s' (-> & ?); by apply wp_ret].
  unfold UpdateObservedStateOfInstance. apply wp_bind, wp_liftE. intros c2 w2 _. apply wp_bind, wp_gets. cbn [own].
  apply wp_bind, wp_liftE. intros h w3 _. apply wp_bind, wp_modify. cbn [base own env]. case_bool_decide.
  { do 2 apply wp_bind, wp_modify. by apply wp_ret. }
  apply wp_bind, (wp_liftE_ok _ (λ r, ∃ i, r = Some (i, None) ∧ S6Status.Status i ≠ S6Status.ServiceUp)); [intros; apply rm_Status|].
  intros r w4 (i & -> & Hi). apply wp_bind, wp_modify. cbn [base own env].
  apply wp_bind, (wp_liftE_ok _ (λ r, r.2 = None)); [intros; apply rm_GetConfig|]. intros [c' e] w5 E. simpl in E. subst e.
  apply wp_bind, wp_modify. cbn [base own env]. apply wp_bind, wp_gets. cbn [own].
  assert (IsS6Running (set_observedConfig c' (set_info i (set_directory h (own s)))) = false) as Hr.
  { by apply bool_decide_eq_false. }
  destruct (S6Config.Equal _ _); [by apply wp_ret|]. apply wp_Remove; [apply Hl|]. cbn [base own].
  intros r b' w6 Hrm _. inversion Hrm; subst; [done|exfalso..].
  all: match goal with H : _ || _ = false |- _ => apply orb_false_iff in H as [_ H]; apply bool_decide_eq_false in H;
         apply H, (leave_state _ _ _ _ Hl) end.
Qed.

(** A removal under way is not held up by the recovery directive.  Whether
    the service asks to wait or reports that all is well, one undisturbed tick
    of an instance in [removing] calls the removal, and when that succeeds the
    instance is [removed]. *)
Theorem s6_removal_continues snap s :
  leaving Table (λ _, True) LifecycleStateRemoving s →
  wp (Reconcile Background snap) (λ r s', r.1 = None ∧ current (fsm (base s')) = LifecycleStateRemoved) s.
Proof.
  intros Hl. apply wp_Reconcile_calm; [apply Hl|]. intros w.
  eapply wp_mono; [by apply removing_external|]. intros e s1 (-> & Eb & Hr). split; [done|].
  cbn [stateTransition handlers]. unfold reconcileStateTransition. apply wp_bind, wp_gets. cbv zeta.
  apply wp_bind, (wp_liftE_ok _ (λ d, d ≠ ActionRecreate)); [intros; apply rm_Health|]. intros d w2 Hd.
  assert (Hd' : wp (dispatch Background (SnapshotTime snap)) (λ r s2, r.1 = None ∧
    wp (reconcileManager handlers Background snap) (λ r' s3, r'.1 = None ∧
      (None : option GoErr, r.2 || r'.2).1 = None ∧
      current (fsm (base (mkSt (ResetState (base s3)) (own s3) (env s3)))) = LifecycleStateRemoved) s2)
    (mkSt (base s1) (own s1) w2)).
  { eapply (wp_lifecycle_removing Table s6_Table_ok (λ x, IsS6Running x = false)); [done| |done| |].
    - destruct Hl as [Hb _ Hst Hde Hc Ha]. split; cbn [base own]; rewrite ?Eb; done.
    - intros s2 Eo. apply wp_bind, wp_gets, wp_bind, wp_gets. rewrite Eo. cbn [own]. rewrite Hr.
      apply wp_bind, (wp_liftE_ok _ (λ e, e = None)); [intros; apply rm_Remove|]. intros e w3 ->. by apply wp_ret.
    - intros s2 Hs2 _. split; [done|]. apply wp_ret. split; [done|]. split; [done|]. apply Hs2. }
  destruct d; [exact Hd'| |done].
  assert (IsOperationalState (base_GetCurrentFSMState (base s1)) = false) as ->; [|exact Hd'].
  unfold base_GetCurrentFSMState. by rewrite Eb, (leave_state _ _ _ _ Hl).
Qed.
End removal.

(** The service does what it is asked to, is healthy, and reports [cfg] and
    that it is up. *)
Class Working (cfg : S6ServiceConfig) (W : Type) `{IS6Service W} := {
  wk_Create c p w : (svc_Create c p cfg w).1 = None;
  wk_Check c p w : (svc_CheckServiceDirectoryIntegrity c p w).1 = HealthOK;
  wk_Health c w : (svc_Health c w).1 = ActionOK;
  wk_Ensure c p w : (svc_EnsureSupervision c p w).1 = (true, None);
  wk_Start c p w : (svc_Start c p w).1 = None;
  wk_Status c p w : ∃ i, (svc_Status c p w).1 = Some (i, None) ∧ S6Status.Status i = S6Status.ServiceUp ∧
    S6Status.IsDownAndReady i = false;
  wk_GetConfig c p w : (svc_GetConfig c p w).1 = (cfg, None);
}.

Section progress.
Context (cfg : S6ServiceConfig) (Hcfg : S6Config.Command cfg ≠ None).
Context {W : Type} `{World W} `{!PromptClock W} `{IS6Service W} `{!Working cfg W}.
Implicit Types (s : St S6Instance W).

Definition wants (x : S6Instance) : Prop := config_S6 (config x) = cfg.
Definition shows_up (x : S6Instance) : Prop := IsS6Running x = true ∧ IsInDownAndReadyState x = false.

Lemma working_external snap s w :
  wants (own s) →
  wp (reconcileExternalChanges Background snap)
     (λ e s', e = None ∧ base s' = base s ∧ wants (own s') ∧ shows_up (own s')) (mkSt (base s) (own s) w).
Proof.
  intros Hw. apply wp_external_context; [unfold S6UpdateObservedStateTimeout, Millisecond; lia|]. intros c w1 _.
  apply wp_bind. eapply (wp_mono _ (λ e s', e = None ∧ base s' = base s ∧ wants (own s') ∧ shows_up (own s')));
    [|intros e s' (-> & ?); by apply wp_ret].
  unfold UpdateObservedStateOfInstance. apply wp_bind, wp_liftE. intros c2 w2 _. apply wp_bind, wp_gets. cbn [own].
  apply wp_bind, (wp_liftE_ok _ (λ h, h = HealthOK)); [intros; apply wk_Check|]. intros h w3 ->.
  apply wp_bind, wp_modify. cbn [base own env]. rewrite bool_decide_false by done.
  apply wp_bind, (wp_liftE_ok _ (λ r, ∃ i, r = Some (i, None) ∧ S6Status.Status i = S6Status.ServiceUp ∧
    S6Status.IsDownAndReady i = false)); [intros; apply wk_Status|].
  intros r w4 (i & -> & Hu & Hd). apply wp_bind, wp_modify. cbn [base own env].
  apply wp_bind, (wp_liftE_ok _ (λ r, r = (cfg, None))); [intros; apply wk_GetConfig|]. intros r w5 ->.
  apply wp_bind, wp_modify. cbn [base own env]. apply wp_bind, wp_gets. cbn [own].
  unfold S6Config.Equal. rewrite bool_decide_true by done. apply wp_ret. cbn [base own].
  split_and!; [done|done|exact Hw|]. split; [by apply bool_decide_eq_true|exact Hd].
Qed.

(** One step of the way up. *)
Definition next_up (st : string) : string :=
  if bool_decide (st = LifecycleStateToBeCreated) then LifecycleStateCreating
  else if bool_decide (st = LifecycleStateCreating) then OperationalStateStopped
  else if bool_decide (st = OperationalStateStopped) then OperationalStateStarting
  else OperationalStateRunning.
Definition on_the_way (st : string) : Prop :=
  st ∈ [LifecycleStateToBeCreated; LifecycleStateCreating; OperationalStateStopped; OperationalStateStarting;
        OperationalStateRunning].

Lemma create_idle x : wants x → idle_on x (λ e, e = None) (CreateInstance Background).
Proof.
  intros Hw s Eo. apply wp_bind, wp_gets, wp_bind, wp_gets. cbv zeta. rewrite Eo, Hw.
  rewrite (bool_decide_false (_ ∧ _)) by (intros [? _]; done).
  apply wp_bind, (wp_liftE_ok _ (λ e, e = None)); [intros; apply wk_Create|]. intros e w ->.
  apply wp_bind, (wp_liftE_ok _ (λ h, h = HealthOK)); [intros; apply wk_Check|]. intros h w' ->. by apply wp_ret.
Qed.

Lemma check_idle x : idle_on x (λ c, c = true) (CheckForCreation Background).
Proof.
  intros s Eo. apply wp_bind, wp_gets.
  apply wp_bind, (wp_liftE_ok _ (λ r, r = (true, None))); [intros; apply wk_Ensure|]. intros r w ->. by apply wp_ret.
Qed.

Lemma start_idle : idle_ok (λ e, e = None) (StartInstance Background).
Proof. apply idle_gets_base; intros b. apply idle_gets_own; intros x. apply idle_action. intros; apply wk_Start. Qed.

Lemma s6_step_up snap st s :
  on_the_way st → resting Table wants OperationalStateRunning st s →
  wp (Reconcile Background snap) (λ _ s', resting Table wants OperationalStateRunning (next_up st) s') s.
Proof.
  intros Hst Hrest. eapply wp_mono; [apply (tick_calm Table wants shows_up _ OperationalStateRunning st (next_up st));
    [exact Hrest| | | |by apply idle_ret]|].
  - unfold next_up. repeat case_bool_decide; apply (bool_decide_unpack _); by vm_compute.
  - intros w. by apply working_external, Hrest.
  - intros s1 Eb Hw [Hup Hready]. cbn [stateTransition handlers]. unfold reconcileStateTransition.
    apply wp_bind, wp_gets. cbv zeta. apply wp_bind, (wp_liftE_ok _ (λ d, d = ActionOK)); [intros; apply wk_Health|].
    intros d w ->. change (steps_to st (next_up st) (base s) (dispatch Background (SnapshotTime snap)) (mkSt (base s1) (own s1) w)).
    set (s2 := mkSt (base s1) (own s1) w). change (base s2 = base s) in Eb. change (wants (own s2)) in Hw.
    change (IsS6Running (own s2) = true) in Hup. change (IsInDownAndReadyState (own s2) = false) in Hready. clearbody s2.
    unfold on_the_way in Hst. rewrite !elem_of_cons, elem_of_nil in Hst. destruct Hst as [->|[->|[->|[->|[->|[]]]]]].
    + eapply (create_resting Table wants) with (ev := LifecycleEventCreate);
        [done|done|by left|by apply create_idle|by apply check_idle|by vm_compute|done].
    + eapply (create_resting Table wants) with (ev := LifecycleEventCreateDone);
        [done|done|by right; left|by apply create_idle|by apply check_idle|by vm_compute|done].
    + eapply operational_step; [done..|]. by eapply act_send_resting; [done|done|apply start_idle|..].
    + eapply operational_step; [done..|]. apply wp_bind, wp_gets. rewrite Hready, Hup. by eapply send_resting.
    + eapply operational_step; [done..|]. apply wp_bind, wp_gets. rewrite Hready. by eapply stay_resting.
  - by intros r s' [].
Qed.

(** Progress.  An s6 instance that is to be created and wanted running is
    [running] after four undisturbed ticks on which the service does what it is
    asked to and reports the configuration it was given, and it stays there. *)
Theorem s6_reaches_running snaps s :
  4 ≤ length snaps → resting Table wants OperationalStateRunning LifecycleStateToBeCreated s →
  wp (ticks_of (Reconcile Background) snaps)
     (λ _ s', base_GetCurrentFSMState (base s') = OperationalStateRunning) s.
Proof.
  intros Hlen Hr. eapply wp_mono; [eapply (ticks_resting Table wants next_up on_the_way (λ _, True));
    [by intros; apply s6_step_up| |by apply Forall_true|by left|exact Hr]|].
  - intros st Hst. unfold on_the_way, next_up in *. repeat case_bool_decide; set_solver.
  - intros r s' Hs'. rewrite (resting_state _ _ _ _ _ Hs'). by apply (iter_settles next_up 4 (length snaps)
      LifecycleStateToBeCreated OperationalStateRunning).
Qed.
End progress.

(** ** On the service of [S6Lifecycle] *)

Section default_service.
Context {F : Type} `{World F} `{FileSystem.Service F}.
Context (exit_code : GoErr → option Z) (persist : bool) (range : gmap bytes bytes → list (bytes * bytes)).
Local Abbreviation LState := (S6Lifecycle.LState (S := F)).
Existing Instance S6DefaultService.service_world.

(** [s6service.NewDefaultService()]. *)
Definition default_service : IS6Service LState := {|
  svc_Create := S6Lifecycle.Create exit_code persist range;
  svc_Remove := S6Lifecycle.Remove exit_code persist;
  svc_Start ctx p := S6Lifecycle.onS (S6Lifecycle.Start exit_code ctx p);
  svc_Stop ctx p := S6Lifecycle.onS (S6Lifecycle.Stop exit_code ctx p);
  svc_Restart ctx p := S6Lifecycle.onS (S6Lifecycle.Restart exit_code ctx p);
  svc_Status := S6DefaultService.Status;
  svc_GetConfig ctx p := S6Lifecycle.onS (S6Config.GetConfig ctx p);
  svc_ForceRemove := S6Lifecycle.ForceRemove exit_code persist;
  svc_EnsureSupervision ctx p := S6Lifecycle.onS (S6Lifecycle.EnsureSupervision exit_code ctx p);
  svc_CheckServiceDirectoryIntegrity := S6Lifecycle.CheckServiceDirectoryIntegrity;
  svc_Health := S6Lifecycle.Health |}.

Context `{!FileSystem.ServiceLaws F}.
Implicit Types (s : St S6Instance LState).

(** The forced removal of a corrupted service is complete.  On the default
    service and any file system that keeps its promises, a tick that finds a
    permanent failure recorded and the directory broken either reports that
    the forced removal failed, which the manager treats as permanent, and
    changes neither the instance nor what is tracked; or it leaves the instance
    [removed], nothing tracked, and neither the scan directory entry nor the
    repository nor the log directory of the service leads to anything. *)
Theorem s6_forced_removal_is_complete snap s :
  ShouldSkipReconcileBecauseOfError (Tick snap) (base s) = true →
  IsPermanentFailureError (base_GetBackoffError (Tick snap) (base s)) = true →
  DirectoryHealth (ObservedState (own s)) = HealthBad → FileSystem.sane (env s).2 →
  wp (@Reconcile _ _ default_service Background snap)
     (λ r s', match r with
              | (e, false) => IsPermanentFailureError e = true ∧ base s' = base s ∧
                              S6Lifecycle.artifacts (env s').1 = S6Lifecycle.artifacts (env s).1
              | (_, true) => current (fsm (base s')) = LifecycleStateRemoved ∧ S6Lifecycle.artifacts (env s').1 = None ∧
                              ∀ p, p ∈ S6LifecycleFacts.places persist (servicePath (own s)) → ¬ FileSystem.present (env s').2 p
              end) s.
Proof using Type*.
  intros Hskip Hperm Hbad Hsane. unfold Reconcile, instance_Reconcile. apply wp_bind, wp_liftE. intros e w He.
  pose proof (ctx_Err_Background (env s)) as H1'. rewrite He in H1'. simpl in H1'. subst e.
  assert (Hw : FileSystem.sane w.2 ∧ w.1 = (env s).1).
  { revert He. unfold ctx_Err, clock, S6DefaultService.service_world. pose proof (FileSystem.svc_clock_sane (env s).2 Hsane) as Hs.
    destruct (clock (env s).2) as [t w0]. intros [= <-]. by split. }
  destruct Hw as [Hw Hw1].
  apply wp_bind, wp_gets. cbn [base]. rewrite Hskip. cbv zeta. rewrite Hperm.
  cbn [onPermanentError handlers]. unfold permanent_with, HandlePermanentError.
  apply wp_bind. unfold inShutdown. apply wp_bind, wp_gets. cbn [own]. rewrite bool_decide_true by done.
  apply wp_ret, wp_bind. unfold forceRemove. apply wp_bind, wp_gets, wp_liftE. cbn [own env base]. intros e w2 Ef.
  pose proof (S6LifecycleFacts.ForceRemove_gone exit_code persist Background (servicePath (own s)) w w2 e Hw Ef) as Hg.
  destruct e as [e|]; apply wp_bind, wp_gets.
  - apply wp_ret. split; [apply force_remove_failed_permanent|]. split; [done|]. cbn [env]. by rewrite Hg, Hw1.
  - apply wp_bind, wp_on_base, wp_ret. destruct Hg as [Hg1 Hg2]. by split.
Qed.
End default_service.

(** ** The manager *)

(** The generic manager running s6 instances from a new manager on never panics:
    every tick returns, and every instance it holds is in a known state and has
    recorded no refused event. *)
Theorem s6_manager_safe {W : Type} `{World W} `{IS6Service W} `{!IS6ServiceLaws W} `{MapOrder W} (l : list Input) w :
  wp (ticks S6ManagerOps l)
     (λ r (s' : MSt S6 W), length r = length l ∧ ∀ name i, instances (mgr s') !! name = Some i →
        inst_GetCurrentFSMState i ∈ known Table ∧ not_refused (lastError (backoffManager i.1)))
     (mkMSt NewBaseFSMManager w).
Proof.
  eapply wp_mono; [by apply (wp_ticks_ok S6ManagerOps l)|]. intros r s' [Hl Hm]. split; [done|].
  intros name i Hi. apply Hm in Hi as [Hb _]. split; apply Hb.
Qed.

(** ** Concrete runs *)

Definition with_status (st : S6Status.ServiceStatus) (ready : bool) : ServiceInfo :=
  (S6Status.mkServiceInfo 0 0 0 st [] 0 0 0 0 0 0 false false false false false ready)%Z.

(** A service that answers the same way every time. *)
Definition constant_service (h : HealthStatus) (a : RecoveryAction) (i : ServiceInfo) (c : S6ServiceConfig) : IS6Service Z := {|
  svc_Create _ _ _ w := (None, w); svc_Remove _ _ w := (None, w); svc_Start _ _ w := (None, w);
  svc_Stop _ _ w := (None, w); svc_Restart _ _ w := (None, (w + 1)%Z); svc_Status _ _ w := (Some (i, None), w);
  svc_GetConfig _ _ w := ((c, None), w); svc_ForceRemove _ _ w := (None, w);
  svc_EnsureSupervision _ _ w := ((true, None), w); svc_CheckServiceDirectoryIntegrity _ _ w := (h, w);
  svc_Health _ w := (a, w) |}.

#[export] Instance constant_laws h a i c : @IS6ServiceLaws Z (constant_service h a i c).
Proof. split; try done. intros. by eexists. Defined.

Definition demo_s6 : S6ServiceConfig := S6Config.mkS6Config (Some ∅) (Some ∅) (Some [lit "/bin/bridge"]) 0%Z 0%Z.
Definition demo_fsm : S6FSMConfig := mkS6FSMConfig "bridge" OperationalStateRunning demo_s6.

(** An instance of the manager's making, wanted [desired], in state [st]. *)
Definition s6_at {W} (desired st : string) (w : W) : St S6Instance W :=
  let i := NewS6Instance S6Lifecycle.S6BaseDir demo_fsm in
  mkSt (at_state st (base_SetDesiredFSMState desired i.1)) i.2 w.

Lemma s6_at_inv {W} desired st (w : W) : st ∈ known Table → inst_inv Table (base (s6_at desired st w)).
Proof. intros. apply inst_inv_at; [|done]. apply inst_inv_desired, NewBase_inv; [done|done|by left]. Qed.

Lemma s6_at_unarmed {W} desired st (w : W) st' : ¬ armed (base (s6_at desired st w)) st'.
Proof. unfold s6_at. cbn [base]. rewrite armed_at_state. apply (NewBase_unarmed _ _ _ st'). Qed.

Lemma s6_at_failed {W} desired st (w : W) t : (0 <= t)%Z → failed 0 Millisecond t (base (s6_at desired st w)).
Proof. intros Ht. split; [done|apply (bm_inv_new DefaultConfig DefaultConfig_ok)|done|done|done]. Qed.

Definition broken : IS6Service Z := constant_service HealthBad ActionRecreate (with_status S6Status.ServiceUp false) demo_s6.
#[export] Instance broken_corrupted : @Corrupted Z broken.
Proof. by split. Defined.

Definition demo_ticks : list Snapshot := [mkSnapshot 7 0; mkSnapshot 8 0; mkSnapshot 9 0; mkSnapshot 10 0].

Lemma s6_corruption_recovered_witness :
  wp (ticks_of (@Reconcile Z _ broken Background) demo_ticks)
     (λ _ s', @forced_by Z broken (servicePath (own (s6_at OperationalStateRunning OperationalStateRunning 0%Z))) OperationalStateRunning s')
     (s6_at OperationalStateRunning OperationalStateRunning 0%Z).
Proof.
  apply (@s6_corruption_recovered Z _ broken _ demo_ticks (s6_at OperationalStateRunning OperationalStateRunning 0%Z) 7).
  - by apply s6_at_failed.
  - intros i snap Hi. do 4 (destruct i as [|i]; [by injection Hi as <-|]). done.
  - simpl. lia.
  - lia.
Defined.

(** The same run, computed: three ticks leave the instance running. *)
Example corrupted_run :
  (λ n, (λ r, current (fsm (base r.2))) <$> ticks_of (@Reconcile Z _ broken Background) (take n demo_ticks)
          (s6_at OperationalStateRunning OperationalStateRunning 0%Z)) <$> [3; 4]
  = [Some OperationalStateRunning; Some LifecycleStateRemoved].
Proof. vm_compute. reflexivity. Qed.

(** The service went down half a second ago. *)
Definition restless : IS6Service Z :=
  constant_service HealthOK ActionOK (with_status S6Status.ServiceDown true) demo_s6.

Lemma s6_restarts_are_spaced_witness :
  @Reconcile Z _ (with_restart restless (λ _ _ w, (None, 1000%Z))) Background (mkSnapshot 7 500000000)
    (s6_at OperationalStateRunning OperationalStateRunning 0%Z) =
  @Reconcile Z _ restless Background (mkSnapshot 7 500000000) (s6_at OperationalStateRunning OperationalStateRunning 0%Z).
Proof.
  apply (@s6_restarts_are_spaced Z _ restless _ (λ _ _ w, (None, 1000%Z)) Background (mkSnapshot 7 500000000)
    (s6_at OperationalStateRunning OperationalStateRunning 0%Z)).
  - intros c p w i [= <-] _. by vm_compute.
  - apply s6_at_inv, (bool_decide_unpack _). by vm_compute.
  - intros H. discriminate H.
Defined.

(** Three seconds later it is restarted: the run does depend on it. *)
Example restarted_after_the_delay :
  (λ r, env r.2) <$> @Reconcile Z _ restless Background (mkSnapshot 7 3000000000) (s6_at OperationalStateRunning OperationalStateRunning 0%Z)
  ≠ (λ r, env r.2) <$> @Reconcile Z _ (with_restart restless (λ _ _ w, (None, 1000%Z))) Background (mkSnapshot 7 3000000000)
        (s6_at OperationalStateRunning OperationalStateRunning 0%Z).
Proof. vm_compute. discriminate. Qed.

(** A service whose removal is under way. *)
Definition leaving_service : IS6Service Z := constant_service HealthUnknown ActionWait (with_status S6Status.ServiceDown false) demo_s6.
#[export] Instance leaving_removable : @Removable Z leaving_service.
Proof. split; try done. intros. by eexists. Defined.

Definition leaving_at (st : string) : St S6Instance Z :=
  let s := s6_at OperationalStateStopped st 0%Z in
  mkSt (AddCallback ("enter_" +:+ OperationalStateStopped) CbAutoRemove (base s)) (own s) (env s).

Lemma s6_removal_continues_witness :
  wp (@Reconcile Z _ leaving_service Background (mkSnapshot 1 0))
     (λ r s', r.1 = None ∧ current (fsm (base s')) = LifecycleStateRemoved) (leaving_at LifecycleStateRemoving).
Proof.
  apply (@s6_removal_continues Z _ _ leaving_service _ (mkSnapshot 1 0) (leaving_at LifecycleStateRemoving)).
  split; try done.
  - apply (inst_inv_arm Table (base (s6_at OperationalStateStopped LifecycleStateRemoving 0%Z))), s6_at_inv.
    by right; right; left.
Defined.

Definition working : IS6Service Z := constant_service HealthOK ActionOK (with_status S6Status.ServiceUp false) demo_s6.
#[export] Instance working_works : @Working demo_s6 Z working.
Proof. split; try done. intros. by eexists. Defined.

Lemma s6_reaches_running_witness :
  wp (ticks_of (@Reconcile Z _ working Background) demo_ticks)
     (λ _ s', base_GetCurrentFSMState (base s') = OperationalStateRunning)
     (s6_at OperationalStateRunning LifecycleStateToBeCreated 0%Z).
Proof.
  apply (@s6_reaches_running demo_s6 ltac:(done) Z _ _ working _ demo_ticks (s6_at OperationalStateRunning LifecycleStateToBeCreated 0%Z)).
  - simpl. lia.
  - split; [by apply s6_at_inv; left|done|done|done|done|]. apply s6_at_unarmed.
Defined.

#[local] Existing Instances MemOS.mem_world MemOS.mem_os MemOS.mem_laws FileSystem.fs_world FileSystem.default_filesystem
  FileSystem.default_service_laws S6DefaultService.service_world.

(** The default service on a concrete system: the service was created, its
    directory is found broken, and the third system call from now on fails. *)
Definition broken_at : St S6Instance (S6Lifecycle.LState (S := FileSystem.FsState MemOS.MemOS)) :=
  let s := s6_at OperationalStateRunning OperationalStateRunning (S6LifecycleFacts.with_failure 2 S6LifecycleFacts.demo_created.2) in
  mkSt (set_backoff (mkBM (Some (corrupted OperationalStateRunning)) (Backoff.backoff (backoffManager (base s))) 0 0 true) (base s))
    (set_directory HealthBad (own s)) (env s).

Lemma s6_forced_removal_is_complete_witness :
  wp (@Reconcile _ _ (default_service FileSystem.exit_code true S6LifecycleFacts.demo_range) Background (mkSnapshot 1 0))
     (λ r s', match r with
              | (e, false) => IsPermanentFailureError e = true ∧ base s' = base broken_at ∧
                              S6Lifecycle.artifacts (env s').1 = S6Lifecycle.artifacts (env broken_at).1
              | (_, true) => current (fsm (base s')) = LifecycleStateRemoved ∧ S6Lifecycle.artifacts (env s').1 = None ∧
                              ∀ p, p ∈ S6LifecycleFacts.places true S6LifecycleFacts.demo_path →
                                ¬ FileSystem.present (S := FileSystem.FsState MemOS.MemOS) (env s').2 p
              end) broken_at.
Proof.
  apply (s6_forced_removal_is_complete FileSystem.exit_code true S6LifecycleFacts.demo_range (mkSnapshot 1 0) broken_at).
  - vm_compute. reflexivity.
  - vm_compute. reflexivity.
  - reflexivity.
  - apply S6LifecycleFacts.with_failure_sane.
Defined.
