(* ===== verification/Documents.v ===== *)
(** * Documents: the documents of the worker stores and their differences

    Models the data of [fsmv2/persistence/store.go] and [fsmv2/cse/storage]
    ([constants.go], [diff.go] and the comparison of [triangular.go]): documents
    as maps from field names to dynamic values, the fields the stores manage
    themselves, the change check of a save and the field-level difference that
    is sent to the clients.  A value that passes through JSON comes back
    changed (integers as floating point numbers, times as texts): [json_value]
    says how. *)

From S2P Require Import Prelude Float64 GoRuntime GoBytes.
From Stdlib Require Import Ascii.
Local Open Scope Z_scope.

(** ** Dynamic values *)

(** What an [interface{}] of a document holds.  [VMap] lists the entries of a
    nested map in the canonical order of [gmap]; [VText] is a string that is
    the JSON text of a value. *)
Inductive Value :=
  | VNil
  | VBool (b : bool)
  | VInt64 (n : Z)
  | VFloat64 (f : float64)
  | VString (s : string)
  | VTime (t : Time)
  | VList (l : list Value)
  | VMap (l : list (string * Value))
  | VText (v : Value).

Section Value_ind.
Context (P : Value → Prop) (Hnil : P VNil) (Hbool : ∀ b, P (VBool b)) (Hint : ∀ n, P (VInt64 n)) (Hfloat : ∀ f, P (VFloat64 f))
  (Hstring : ∀ s, P (VString s)) (Htime : ∀ t, P (VTime t)) (Hlist : ∀ l, Forall P l → P (VList l))
  (Hmap : ∀ l, Forall (λ kv, P kv.2) l → P (VMap l)) (Htext : ∀ v, P v → P (VText v)).

Fixpoint Value_rect' (v : Value) : P v :=
  match v with
  | VNil => Hnil | VBool b => Hbool b | VInt64 n => Hint n | VFloat64 f => Hfloat f
  | VString s => Hstring s | VTime t => Htime t
  | VList l => Hlist l ((fix go l : Forall P l := match l with [] => Forall_nil_2 P | x :: l => Forall_cons_2 P x l (Value_rect' x) (go l) end) l)
  | VMap l => Hmap l ((fix go l : Forall (λ kv, P kv.2) l :=
      match l with [] => Forall_nil_2 _ | x :: l => Forall_cons_2 (λ kv, P kv.2) x l (Value_rect' x.2) (go l) end) l)
  | VText v => Htext v (Value_rect' v)
  end.
End Value_ind.

#[export] Instance float64_eq_dec : EqDecision float64.
Proof. solve_decision. Defined.

Fixpoint Value_eqb (v w : Value) : bool :=
  let fix list_eqb l m := match l, m with
    | [], [] => true | x :: l, y :: m => Value_eqb x y && list_eqb l m | _, _ => false end in
  let fix map_eqb l m := match l, m with
    | [], [] => true | (k, x) :: l, (k', y) :: m => bool_decide (k = k') && Value_eqb x y && map_eqb l m | _, _ => false end in
  match v, w with
  | VNil, VNil => true
  | VBool a, VBool b => bool_decide (a = b)
  | VInt64 a, VInt64 b => bool_decide (a = b)
  | VFloat64 a, VFloat64 b => bool_decide (a = b)
  | VString a, VString b => bool_decide (a = b)
  | VTime a, VTime b => bool_decide (a = b)
  | VList l, VList m => list_eqb l m
  | VMap l, VMap m => map_eqb l m
  | VText a, VText b => Value_eqb a b
  | _, _ => false
  end.

Lemma Value_eqb_spec v w : Value_eqb v w = true ↔ v = w.
Proof.
  revert w. induction v as [|b|n|f|s|t|l IH|l IH|v IH] using Value_rect'; intros [ | | | | | |m|m|w]; try done;
    try (cbn; rewrite bool_decide_eq_true; naive_solver).
  - revert m. induction IH as [|x l Hx _ IHl]; intros [|y m]; try done.
    specialize (IHl m). cbn in IHl |- *. rewrite andb_true_iff, Hx, IHl. naive_solver.
  - revert m. induction IH as [|[k x] l Hx _ IHl]; intros [|[k' y] m]; try done.
    specialize (IHl m). cbn in IHl, Hx |- *. rewrite !andb_true_iff, Hx, IHl, bool_decide_eq_true. naive_solver.
  - cbn. rewrite IH. naive_solver.
Qed.

#[export] Instance Value_eq_dec : EqDecision Value.
Proof.
  intros v w. destruct (Value_eqb v w) eqn:E; [left; by apply Value_eqb_spec|].
  right. intros Hw. apply Value_eqb_spec in Hw. by rewrite Hw in E.
Defined.

(** ** Passing through JSON *)

(** The year, month and day of a number of days since the first of January of year 1. *)
Definition civil (d : Z) : Z * Z * Z :=
  let y0 := 1 + d * 400 / 146097 in
  let y := if d <? days_before_year y0 then y0 - 1 else if days_before_year (y0 + 1) <=? d then y0 + 1 else y0 in
  let r := d - days_before_year y in
  let m := Z.of_nat (length (filter (λ m, days_before_month (leap y) m <= r) (seqZ 1 12))) in
  (y, m, r - days_before_month (leap y) m + 1).

Definition str_of (b : bytes) : string := String.string_of_list_ascii b.

(** The fraction of a second without its trailing zeros. *)
Fixpoint drop_zeros (l : bytes) : bytes :=
  match l with a :: l' => if bool_decide (a = "0"%char) then drop_zeros l' else l | [] => [] end.
Definition fraction (ns : Z) : bytes :=
  match rev (drop_zeros (rev (pad 10 9 ns))) with [] => [] | ds => lit "." ++ ds end.

(** [time.Time.MarshalJSON] in UTC: the layout [RFC3339Nano]. *)
Definition time_text (t : Time) : string :=
  let secs := t / nano in
  let '(y, m, d) := civil (secs / 86400) in
  let s := secs mod 86400 in
  str_of (pad 10 4 y ++ lit "-" ++ pad 10 2 m ++ lit "-" ++ pad 10 2 d ++ lit "T" ++
          pad 10 2 (s / 3600) ++ lit ":" ++ pad 10 2 (s / 60 mod 60) ++ lit ":" ++ pad 10 2 (s mod 60) ++
          fraction (t mod nano) ++ lit "Z").

(** The value that [json.Unmarshal] makes of the JSON text of a value. *)
Fixpoint json_value (v : Value) : Value :=
  match v with
  | VInt64 n => VFloat64 (of_int n)
  | VTime t => VString (time_text t)
  | VList l => VList (json_value <$> l)
  | VMap l => VMap (prod_map id json_value <$> l)
  | _ => v
  end.

(** Whether [json.Marshal] accepts a value: it refuses the times whose year has
    more than four digits, or is negative. *)
Fixpoint json_ok (v : Value) : bool :=
  match v with
  | VTime t => let '(y, _, _) := civil (t / nano / 86400) in (0 <=? y) && (y <=? 9999)
  | VList l => forallb json_ok l
  | VMap l => forallb (λ kv, json_ok kv.2) l
  | _ => true
  end.

(** ** Documents *)

(** [persistence.Document]; a Go variable that may be nil is an [option].  The
    text of a document and of a string is UTF-8, as JSON has it. *)
Abbreviation Document := (gmap string Value).

Definition doc_value (d : Document) : Value := VMap (map_to_list d).
Definition json_doc (d : Document) : Document := json_value <$> d.
Definition doc_ok (d : Document) : bool := json_ok (doc_value d).

Definition FieldSyncID : string := "_sync_id".
Definition FieldVersion : string := "_version".
Definition FieldCreatedAt : string := "_created_at".
Definition FieldUpdatedAt : string := "_updated_at".
Definition FieldDeletedAt : string := "_deleted_at".
Definition FieldDeletedBy : string := "_deleted_by".

Inductive Role := RoleIdentity | RoleDesired | RoleObserved.

Definition role_name (r : Role) : string :=
  match r with RoleIdentity => "identity" | RoleDesired => "desired" | RoleObserved => "observed" end.

Definition IdentityCSEFields : list string :=
  [FieldSyncID; FieldVersion; FieldCreatedAt; FieldDeletedAt; FieldDeletedBy].
Definition DesiredCSEFields : list string :=
  [FieldSyncID; FieldVersion; FieldCreatedAt; FieldUpdatedAt; FieldDeletedAt; FieldDeletedBy].
Definition ObservedCSEFields : list string :=
  [FieldSyncID; FieldVersion; FieldCreatedAt; FieldUpdatedAt; FieldDeletedAt; FieldDeletedBy].

Definition getCSEFields (role : Role) : list string :=
  match role with
  | RoleIdentity => IdentityCSEFields | RoleDesired => DesiredCSEFields | RoleObserved => ObservedCSEFields end.

#[export] Instance Role_eq_dec : EqDecision Role.
Proof. solve_decision. Defined.

(** ** Differences *)

Record ModifiedField := mkModified { Old : Value; New : Value }.

(** [Diff].  The order of the names in [Removed], which Go leaves open (it
    ranges over a map), is the canonical one of [gmap] here. *)
Record Diff := mkDiff { Added : gmap string Value; Modified : gmap string ModifiedField; Removed : list string }.

Definition IsEmpty (d : option Diff) : bool :=
  match d with
  | None => true
  | Some d => bool_decide (Added d = ∅) && bool_decide (size (Modified d) = 0%nat) && bool_decide (Removed d = [])
  end.

Definition modified_field (o n : option Value) : option ModifiedField :=
  match o, n with
  | Some v, Some w => if decide (v = w) then None else Some (mkModified v w)
  | _, _ => None
  end.

Definition computeDiff (oldDoc newDoc : Document) : option Diff :=
  let diff := mkDiff (filter (λ kv, oldDoc !! kv.1 = None) newDoc)
                     (merge modified_field oldDoc newDoc)
                     (map_to_list (filter (λ kv, newDoc !! kv.1 = None) oldDoc)).*1 in
  if IsEmpty (Some diff) then None else Some diff.

Definition diffExcludedFields : list string := ["Dependencies"].

Record FieldChange := mkChange { Field : string; ChangeType : string; OldValue : Value; NewValue : Value }.

Definition changed_field (current : Document) (k : string) (newVal : Value) : option FieldChange :=
  if decide (k ∈ diffExcludedFields) then None
  else match current !! k with
       | None => Some (mkChange k "added" VNil newVal)
       | Some oldVal => if decide (oldVal = newVal) then None else Some (mkChange k "modified" oldVal newVal)
       end.

Definition getChangedFieldsWithValues (current new : Document) : list FieldChange :=
  omap (λ kv, changed_field current kv.1 kv.2) (map_to_list new).

Definition filterCSEFields (doc : Document) (cseFields : list string) : Document :=
  filter (λ kv, kv.1 ∉ cseFields) doc.

(** What a save compares: the fields the store does not manage. *)
Definition business (doc : Document) (role : Role) : Document :=
  delete FieldVersion (delete "id" (filterCSEFields doc (getCSEFields role))).
#[global] Arguments business _ _ : simpl never.

Definition performDeltaCheck (currentDoc : option Document) (newDoc : Document) (role : Role)
  : bool * list FieldChange * option Diff :=
  match currentDoc with
  | None => (true, [], None)
  | Some currentDoc =>
      let currentFiltered := business currentDoc role in
      let newFiltered := business newDoc role in
      let changes := getChangedFieldsWithValues currentFiltered newFiltered in
      match changes with
      | [] => (false, changes, None)
      | _ => (true, changes, computeDiff currentFiltered newFiltered)
      end
  end.

Definition computeCreatedDiff (doc : option Document) (role : Role) : option Diff :=
  match doc with
  | None => None
  | Some doc =>
      let added := filter (λ kv, (kv.1 ∉ getCSEFields role) ∧ kv.1 ≠ "id"%string) doc in
      if decide (added = ∅) then None else Some (mkDiff added ∅ [])
  end.

Definition hasTombstone (doc : Document) : bool :=
  match doc !! FieldDeletedAt with None | Some VNil => false | Some _ => true end.

(** ** What a difference means

    Applying a difference is what a client of the change feed does with it. *)
Definition apply_diff (d : Diff) (doc : Document) : Document :=
  filter (λ kv, kv.1 ∉ Removed d) ((Added d ∪ (New <$> Modified d)) ∪ doc).

Definition apply_changes (d : option Diff) (doc : Document) : Document :=
  match d with None => doc | Some d => apply_diff d doc end.

Lemma lookup_apply_diff d doc k :
  apply_diff d doc !! k = if decide (k ∈ Removed d) then None
    else match Added d !! k with Some v => Some v | None =>
         match Modified d !! k with Some m => Some (New m) | None => doc !! k end end.
Proof.
  unfold apply_diff. destruct (decide (k ∈ Removed d)) as [Hk|Hk].
  - apply map_lookup_filter_None. right. intros v _ Hn. by apply Hn.
  - rewrite map_lookup_filter, !lookup_union, lookup_fmap.
    destruct (Added d !! k), (Modified d !! k), (doc !! k); cbn; try done; by rewrite option_guard_True.
Qed.

Lemma elem_of_missing (m n : Document) k :
  k ∈ (map_to_list (filter (λ kv, n !! kv.1 = None) m)).*1 ↔ is_Some (m !! k) ∧ n !! k = None.
Proof.
  rewrite list_elem_of_fmap. split.
  - intros ([k' v] & -> & Hin). apply elem_of_map_to_list, map_lookup_filter_Some in Hin. naive_solver.
  - intros [[v Hv] Hn]. exists (k, v). split; [done|]. by apply elem_of_map_to_list, map_lookup_filter_Some.
Qed.

Lemma IsEmpty_spec a m r : IsEmpty (Some (mkDiff a m r)) = true → a = ∅ ∧ m = ∅ ∧ r = [].
Proof.
  cbn. intros H. apply andb_true_iff in H as [H Hr]. apply andb_true_iff in H as [Ha Hm].
  apply bool_decide_eq_true in Ha, Hm, Hr. by apply map_size_empty_iff in Hm.
Qed.

(** A document that agrees with the old one on a field agrees with the new one
    on it once the difference is applied. *)
Lemma computeDiff_lookup old new doc k :
  doc !! k = old !! k → apply_changes (computeDiff old new) doc !! k = new !! k.
Proof.
  intros Hk. unfold computeDiff.
  set (a := filter (λ kv, old !! kv.1 = None) new). set (m := merge modified_field old new).
  set (r := (map_to_list (filter (λ kv, new !! kv.1 = None) old)).*1).
  assert (Hval : apply_diff (mkDiff a m r) doc !! k = new !! k).
  { rewrite lookup_apply_diff. cbn.
    destruct (decide (k ∈ r)) as [Hin|Hin]; [by apply elem_of_missing in Hin as [_ ->]|].
    unfold a, m. rewrite map_lookup_filter, lookup_merge.
    destruct (old !! k) as [v|] eqn:Ho, (new !! k) as [w|] eqn:Hn; cbn; rewrite ?Ho.
    - rewrite option_guard_False by done. cbn. destruct (decide (v = w)) as [->|]; [by rewrite Hk|done].
    - exfalso. apply Hin, elem_of_missing. rewrite Ho. split; [by eexists|done].
    - by rewrite option_guard_True.
    - by rewrite Hk. }
  destruct (IsEmpty _) eqn:He; [|done].
  apply IsEmpty_spec in He as (Ha & Hm & Hr). rewrite Ha, Hm, Hr, lookup_apply_diff in Hval. cbn in Hval.
  by rewrite !lookup_empty in Hval.
Qed.

Lemma computeDiff_apply old new : apply_changes (computeDiff old new) old = new.
Proof. apply map_eq. intros k. by apply computeDiff_lookup. Qed.

(** ** The difference on its way through JSON *)

Definition json_diff (d : Diff) : Diff :=
  mkDiff (json_value <$> Added d) ((λ m, mkModified (json_value (Old m)) (json_value (New m))) <$> Modified d) (Removed d).

Lemma json_apply_diff d doc : apply_diff (json_diff d) (json_doc doc) = json_doc (apply_diff d doc).
Proof.
  apply map_eq. intros k. unfold json_doc. rewrite lookup_fmap, !lookup_apply_diff. cbn.
  destruct (decide (k ∈ Removed d)); [done|]. rewrite !lookup_fmap.
  by destruct (Added d !! k), (Modified d !! k).
Qed.

Lemma json_apply_changes d doc :
  apply_changes (json_diff <$> d) (json_doc doc) = json_doc (apply_changes d doc).
Proof. destruct d; [apply json_apply_diff|done]. Qed.

(** [json.Marshal] of a [*Diff]: the exported fields under their names. *)
Definition modified_value (m : ModifiedField) : Value := VMap [("Old", Old m); ("New", New m)].
Definition diff_value (d : Diff) : Value :=
  VMap [("Added", VMap (map_to_list (Added d)));
        ("Modified", VMap (map_to_list (modified_value <$> Modified d)));
        ("Removed", VList (VString <$> Removed d))].

(** [json.Unmarshal] into a [Diff], of the texts that [json.Marshal] makes of one. *)
Definition value_modified (v : Value) : option ModifiedField :=
  match v with VMap [(_, o); (_, n)] => Some (mkModified o n) | _ => None end.
Definition value_name (v : Value) : option string := match v with VString s => Some s | _ => None end.
Definition value_diff (v : Value) : option Diff :=
  match v with
  | VMap [(_, VMap a); (_, VMap m); (_, VList r)] =>
      Some (mkDiff (list_to_map a) (omap value_modified (list_to_map m)) (omap value_name r))
  | _ => None
  end.

Lemma list_to_map_json (m : gmap string Value) :
  list_to_map (prod_map id json_value <$> map_to_list m) = json_value <$> m.
Proof. rewrite <- (list_to_map_to_list m) at 2. by rewrite list_to_map_fmap. Qed.

Lemma value_diff_value d : value_diff (json_value (diff_value d)) = Some (json_diff d).
Proof.
  destruct d as [a m r]. cbn -[list_to_map]. unfold json_diff. cbn. f_equal. f_equal.
  - apply list_to_map_json.
  - rewrite list_to_map_json, <- map_fmap_compose. apply map_eq. intros k. rewrite lookup_omap, !lookup_fmap.
    by destruct (m !! k).
  - induction r as [|x r IH]; [done|]. cbn. by f_equal.
Qed.

(** ** The change check *)

Lemma lookup_business doc role k :
  business doc role !! k = if decide (k ∈ FieldVersion :: "id"%string :: getCSEFields role) then None else doc !! k.
Proof.
  unfold business, filterCSEFields. destruct (decide (k ∈ _)) as [Hk|Hk].
  - apply elem_of_cons in Hk as [->|Hk]; [apply lookup_delete_eq|].
    apply lookup_delete_None. right.
    apply elem_of_cons in Hk as [->|Hk]; [apply lookup_delete_eq|].
    apply lookup_delete_None. right. apply map_lookup_filter_None. right. intros v _ Hn. by apply Hn.
  - apply not_elem_of_cons in Hk as [Hv Hk]. apply not_elem_of_cons in Hk as [Hi Hk].
    rewrite !lookup_delete_ne, map_lookup_filter by done.
    destruct (doc !! k); [cbn; by rewrite option_guard_True|done].
Qed.

Lemma computeCreatedDiff_apply doc role :
  apply_changes (computeCreatedDiff (Some doc) role) ∅ = business doc role.
Proof.
  set (a := filter (λ kv, (kv.1 ∉ getCSEFields role) ∧ kv.1 ≠ "id"%string) doc).
  assert (Ha : a = business doc role).
  { apply map_eq. intros k. rewrite lookup_business. unfold a. rewrite map_lookup_filter.
    assert (Hv : FieldVersion ∈ getCSEFields role) by (destruct role; right; left).
    destruct (decide (k ∈ _)) as [Hk|Hk]; destruct (doc !! k); cbn; try done.
    - rewrite option_guard_False; [done|]. cbn. intros [Hf Hi]. apply elem_of_cons in Hk as [->|Hk]; [done|].
      by apply elem_of_cons in Hk as [->|Hk].
    - rewrite option_guard_True; [done|]. cbn. rewrite !not_elem_of_cons in Hk. tauto. }
  unfold computeCreatedDiff. fold a. destruct (decide (a = ∅)) as [He|He].
  - by rewrite He in Ha.
  - rewrite <- Ha. apply map_eq. intros k. unfold apply_changes. rewrite lookup_apply_diff. cbn.
    destruct (decide (k ∈ [])) as [Hk|_]; [by apply not_elem_of_nil in Hk|].
    rewrite !lookup_empty. by destruct (a !! k).
Qed.

Lemma omap_nil_iff {A B} (f : A → option B) l : omap f l = [] ↔ ∀ x, x ∈ l → f x = None.
Proof.
  induction l as [|x l IH]; cbn; [split; [intros _ y Hy; by apply not_elem_of_nil in Hy|done]|].
  split.
  - destruct (f x) eqn:E; [done|]. intros Hn y [->|Hy]%elem_of_cons; [done|]. by apply IH.
  - intros Hall. rewrite (Hall x) by left. apply IH. intros y Hy. apply Hall. by right.
Qed.

Lemma getChangedFields_nil current new :
  getChangedFieldsWithValues current new = [] ↔
  ∀ k v, new !! k = Some v → k ∉ diffExcludedFields → current !! k = Some v.
Proof.
  unfold getChangedFieldsWithValues. rewrite omap_nil_iff. unfold changed_field. split.
  - intros Hn k v Hv Hk. specialize (Hn (k, v)). cbn in Hn.
    rewrite decide_False in Hn by done. apply elem_of_map_to_list, Hn in Hv.
    destruct (current !! k) as [w|]; [|done]. by destruct (decide (w = v)) as [->|].
  - intros Hall [k v] Hin. apply elem_of_map_to_list in Hin. cbn.
    destruct (decide (k ∈ _)) as [|Hk]; [done|]. rewrite (Hall k v Hin Hk). by rewrite decide_True.
Qed.

(** [new] brings nothing that [current] does not have: each of its business
    fields, but the excluded ones, already has its value. *)
Definition nothing_new (role : Role) (current new : Document) : Prop :=
  ∀ k v, business new role !! k = Some v → k ∉ diffExcludedFields → business current role !! k = Some v.

Lemma performDeltaCheck_spec current new role :
  ∃ changes, performDeltaCheck (Some current) new role =
    (bool_decide (changes ≠ []), changes,
     if decide (changes = []) then None else computeDiff (business current role) (business new role)) ∧
  (changes = [] ↔ nothing_new role current new).
Proof.
  exists (getChangedFieldsWithValues (business current role) (business new role)).
  split; [|apply getChangedFields_nil]. unfold performDeltaCheck.
  by destruct (getChangedFieldsWithValues _ _).
Qed.

(** A difference does not touch a field that neither document has, and what it
    does to a field depends on that field alone. *)
Lemma computeDiff_untouched old new doc k :
  old !! k = None → new !! k = None → apply_changes (computeDiff old new) doc !! k = doc !! k.
Proof.
  intros Ho Hn. unfold computeDiff. destruct (IsEmpty _); [done|]. unfold apply_changes.
  rewrite lookup_apply_diff. cbn. rewrite decide_False.
  - rewrite map_lookup_filter, lookup_merge, Ho, Hn. done.
  - intros Hk. apply elem_of_missing in Hk as [[v Hv] _]. congruence.
Qed.

Lemma apply_changes_local d doc doc' k : doc !! k = doc' !! k → apply_changes d doc !! k = apply_changes d doc' !! k.
Proof. intros Hk. destruct d; [|done]. unfold apply_changes. rewrite !lookup_apply_diff. by rewrite Hk. Qed.

Lemma json_apply_lookup d doc replica k :
  replica !! k = json_value <$> (doc !! k) →
  apply_changes (json_diff <$> d) replica !! k = json_value <$> (apply_changes d doc !! k).
Proof.
  intros Hk. rewrite (apply_changes_local _ _ (json_doc doc)).
  - rewrite json_apply_changes. apply lookup_fmap.
  - rewrite Hk. symmetry. apply lookup_fmap.
Qed.
