(* ===== verification/DocumentStore.v ===== *)
(** * DocumentStore: what a document database promises

    The interfaces [Store] and [Tx] of [fsmv2/persistence/store.go], as far as
    the worker stores call them, and [WithTransaction] of [transaction.go].
    [Store] is the interface as a typeclass over the state of the database and
    the handle of a transaction; [StoreLaws] states the documented behaviour of
    the methods on an abstract content.  [MemoryStore] is an instance of both. *)

From S2P Require Import Prelude Float64 GoRuntime GoBytes StateMonad Documents.
Local Open Scope Z_scope.

Definition ErrNotFound : GoErr := ESentinel "persistence" "document not found".
Definition ErrConflict : GoErr := ESentinel "persistence" "document conflict".

(** A nil context is [None].  A method of a transaction works on the handle and
    on the database. *)
Class Store (S Tx : Type) := {
  Insert : option Ctx → string → Document → St S (GoErr + string);
  Get : option Ctx → string → string → St S (GoErr + Document);
  Update : option Ctx → string → string → Document → St S (option GoErr);
  Delete : option Ctx → string → string → St S (option GoErr);
  Find : option Ctx → string → St S (GoErr + list Document);
  BeginTx : option Ctx → St S (GoErr + Tx);
  tx_Insert : option Ctx → string → Document → St (Tx * S) (GoErr + string);
  tx_Get : option Ctx → string → string → St (Tx * S) (GoErr + Document);
  tx_Update : option Ctx → string → string → Document → St (Tx * S) (option GoErr);
  tx_Delete : option Ctx → string → string → St (Tx * S) (option GoErr);
  Commit : St (Tx * S) (option GoErr);
  Rollback : St (Tx * S) (option GoErr);
}.

(** The documents of a database by collection and identifier. *)
Abbreviation Content := (gmap (string * string) Document).

(** [l] lists each document of the collection once, in some order. *)
Definition listing (m : Content) (c : string) (l : list Document) : Prop :=
  ∃ ids, NoDup ids ∧ Forall2 (λ i d, m !! (c, i) = Some d) ids l ∧ ∀ i d, m !! (c, i) = Some d → i ∈ ids.

(** The writes of a transaction that has not been committed: new documents, and
    [None] for those it deletes. *)
Abbreviation Writes := (gmap (string * string) (option Document)).

Definition landed (w : option (option Document)) (d : option Document) : option Document :=
  match w with Some x => x | None => d end.
Definition overlay (w : Writes) (m : Content) : Content := merge landed w m.

Lemma lookup_overlay w m k : overlay w m !! k = landed (w !! k) (m !! k).
Proof. unfold overlay. rewrite lookup_merge. by destruct (w !! k), (m !! k). Qed.

(** What the methods do to the content; a method that fails changes nothing. *)
Class StoreLaws (S Tx : Type) `{World S} `{!Store S Tx} := {
  docs : S → Content;
  staged : Tx → Writes;
  clock_law s : docs (clock s).2 = docs s;
  Insert_law ctx c d s : st_wp (Insert ctx c d) (λ r s', match r with
    | inl _ => docs s' = docs s
    | inr i => d !! "id"%string = Some (VString i) ∧ i ≠ ""%string ∧ docs s !! (c, i) = None ∧ docs s' = <[(c, i) := d]> (docs s) end) s;
  Get_law ctx c i s : st_wp (Get ctx c i) (λ r s', docs s' = docs s ∧ match r with
    | inl e => IsErr e ErrNotFound = true → docs s !! (c, i) = None
    | inr d => docs s !! (c, i) = Some d end) s;
  Update_law ctx c i d s : st_wp (Update ctx c i d) (λ r s', match r with
    | Some _ => docs s' = docs s
    | None => is_Some (docs s !! (c, i)) ∧ docs s' = <[(c, i) := d]> (docs s) end) s;
  Delete_law ctx c i s : st_wp (Delete ctx c i) (λ r s', match r with
    | Some _ => docs s' = docs s
    | None => is_Some (docs s !! (c, i)) ∧ docs s' = delete (c, i) (docs s) end) s;
  Find_law ctx c s : st_wp (Find ctx c) (λ r s', docs s' = docs s ∧ match r with
    | inl e => IsErr e ErrNotFound = true → listing (docs s) c []
    | inr l => listing (docs s) c l end) s;
  BeginTx_law ctx s : st_wp (BeginTx ctx) (λ r s', docs s' = docs s ∧ match r with
    | inl _ => True | inr tx => staged tx = ∅ end) s;
  tx_Insert_law ctx c d p : st_wp (tx_Insert ctx c d) (λ r p', docs p'.2 = docs p.2 ∧ match r with
    | inl _ => staged p'.1 = staged p.1
    | inr i => d !! "id"%string = Some (VString i) ∧ i ≠ ""%string ∧ staged p'.1 = <[(c, i) := Some d]> (staged p.1) end) p;
  tx_Get_law ctx c i p : st_wp (tx_Get ctx c i) (λ r p', docs p'.2 = docs p.2 ∧ staged p'.1 = staged p.1 ∧ match r with
    | inl e => IsErr e ErrNotFound = true → overlay (staged p.1) (docs p.2) !! (c, i) = None
    | inr d => overlay (staged p.1) (docs p.2) !! (c, i) = Some d end) p;
  tx_Update_law ctx c i d p : st_wp (tx_Update ctx c i d) (λ r p', docs p'.2 = docs p.2 ∧ match r with
    | Some _ => staged p'.1 = staged p.1
    | None => staged p'.1 = <[(c, i) := Some d]> (staged p.1) end) p;
  tx_Delete_law ctx c i p : st_wp (tx_Delete ctx c i) (λ r p', docs p'.2 = docs p.2 ∧ match r with
    | Some _ => staged p'.1 = staged p.1
    | None => staged p'.1 = <[(c, i) := None]> (staged p.1) end) p;
  Commit_law p : st_wp Commit (λ r p', match r with
    | Some _ => docs p'.2 = docs p.2
    | None => docs p'.2 = overlay (staged p.1) (docs p.2) end) p;
  Rollback_law p : st_wp Rollback (λ _ p', docs p'.2 = docs p.2) p;
}.

(** ** persistence/transaction.go

    A panic of [fn] is rolled back and raised again; functions of the model do
    not panic, so that the deferred recovery never runs. *)
Section WithTransaction.
Context {S Tx} `{World S} `{!Store S Tx}.

Definition on_tx {A} (m : St S A) : St (Tx * S) A := λ p, let (a, s') := m p.2 in (a, (p.1, s')).

Definition ctx_err (ctx : Ctx) : St S (option GoErr) := ctx_Err ctx.

Definition in_transaction (ctx : Ctx) (fn : St (Tx * S) (option GoErr)) : St (Tx * S) (option GoErr) :=
  err ← fn;
  match err with
  | Some e => _ ← Rollback; mret (Some e)
  | None =>
      e ← on_tx (ctx_err ctx);
      match e with
      | Some _ => _ ← Rollback; on_tx (ctx_err ctx)
      | None => Commit
      end
  end.

Definition WithTransaction (ctx : Ctx) (fn : St (Tx * S) (option GoErr)) : St S (option GoErr) :=
  e ← ctx_err ctx;
  match e with
  | Some _ => ctx_err ctx
  | None =>
      tx ← BeginTx (Some ctx);
      match tx with
      | inl err => mret (Some err)
      | inr tx => λ s, let (r, p) := in_transaction ctx fn (tx, s) in (r, p.2)
      end
  end.
End WithTransaction.

(** ** Facts about listings *)

Lemma listing_elem m c l d : listing m c l → d ∈ l ↔ ∃ i, m !! (c, i) = Some d.
Proof.
  intros (ids & _ & Hall & Hids). split.
  - intros Hd. apply list_elem_of_lookup in Hd as [n Hn].
    destruct (Forall2_lookup_r _ _ _ _ _ Hall Hn) as (i & _ & Hi). by exists i.
  - intros [i Hi]. destruct (list_elem_of_lookup_1 _ _ (Hids _ _ Hi)) as [n Hn].
    destruct (Forall2_lookup_l _ _ _ _ _ Hall Hn) as (d' & Hd & Hi'). simplify_eq.
    by eapply list_elem_of_lookup_2.
Qed.

Lemma listing_map_to_list m c (coll : gmap string Document) :
  (∀ i, m !! (c, i) = coll !! i) → listing m c (map_to_list coll).*2.
Proof.
  intros Hc. exists (map_to_list coll).*1. split_and!.
  - apply NoDup_fst_map_to_list.
  - apply Forall2_fmap_l, Forall2_fmap_r, Forall_Forall2_diag, Forall_forall. intros [i d] Hin. cbn.
    rewrite Hc. by apply elem_of_map_to_list.
  - intros i d Hd. rewrite Hc in Hd. apply list_elem_of_fmap. exists (i, d). split; [done|].
    by apply elem_of_map_to_list.
Qed.

Lemma listing_perm m c l l' : l ≡ₚ l' → listing m c l → listing m c l'.
Proof.
  intros Hp (ids & Hnd & Hall & Hids). apply Forall2_flip in Hall.
  destruct (Permutation_Forall2 Hp Hall) as (ids' & Hp' & Hall'). apply Forall2_flip in Hall'.
  exists ids'. split_and!; [by rewrite <- Hp'|done|]. intros i d Hd. rewrite <- Hp'. by eapply Hids.
Qed.
