(* ===== verification/MemoryStore.v ===== *)
(** * MemoryStore: the in-memory document store

    Models [fsmv2/persistence/memory/memory.go]: [InMemoryStore] and the
    transactions [inMemoryTx] over it, and proves that they keep the promises
    of [DocumentStore].  The methods copy the top level of a document; values
    of a document are immutable here, so that a nested map or slice the caller
    goes on to change is not represented. *)

From S2P Require Import Prelude Float64 GoRuntime GoBytes StateMonad Documents DocumentStore.
Local Open Scope Z_scope.

(** Maps of maps: an entry, [if m[c] == nil { m[c] = make(...) }], a write and a delete. *)
Abbreviation Nested A := (gmap string (gmap string A)).

Definition pending {A} (m : Nested A) (c id : string) : option A := m !! c ≫= (.!! id).
Definition touch {A} (c : string) (m : Nested A) : Nested A := <[c := default ∅ (m !! c)]> m.
Definition write {A} (c id : string) (a : A) (m : Nested A) : Nested A := <[c := <[id := a]> (default ∅ (m !! c))]> m.
Definition erase {A} (c id : string) (m : Nested A) : Nested A := alter (delete id) c m.

(** [collections] with the clock of the process. *)
Record InMemoryStore := mkMem { collections : gmap string (gmap string Document); mem_now : Z }.

Definition NewInMemoryStore (now : Z) : InMemoryStore := mkMem ∅ now.

#[export] Instance memory_world : World InMemoryStore := {
  clock s := (mem_now s, mkMem (collections s) (mem_now s + 1));
  randw s := (0, s);
}.

Definition validateContext (ctx : option Ctx) : option GoErr :=
  match ctx with None => Some (ENew "context cannot be nil") | Some _ => None end.

Definition set_collections (f : gmap string (gmap string Document) → gmap string (gmap string Document)) (s : InMemoryStore) :=
  mkMem (f (collections s)) (mem_now s).

(** [doc["id"].(string)], when it is a string that is not empty. *)
Definition own_id (doc : Document) : option string :=
  match doc !! "id"%string with
  | Some (VString id) => if decide (id = ""%string) then None else Some id
  | _ => None
  end.

Definition missing_id : GoErr := ENew "document must have non-empty 'id' field".

(** The collection, which the writing methods create when it does not exist. *)
Definition create (c : string) (s : InMemoryStore) : InMemoryStore := set_collections (touch c) s.
Definition present (s : InMemoryStore) (c id : string) : bool :=
  match pending (collections s) c id with Some _ => true | None => false end.

Section InMemoryStore.
Context (range : list Document → list Document).

Definition CreateCollection (ctx : option Ctx) (name : string) : St InMemoryStore (option GoErr) := λ s,
  match validateContext ctx with
  | Some e => (Some e, s)
  | None =>
      match collections s !! name with
      | Some _ => (Some (ENew ("collection " +:+ name +:+ " already exists")), s)
      | None => (None, set_collections (<[name := ∅]>) s)
      end
  end.

Definition DropCollection (ctx : option Ctx) (name : string) : St InMemoryStore (option GoErr) := λ s,
  match validateContext ctx with
  | Some e => (Some e, s)
  | None =>
      match collections s !! name with
      | None => (Some (ENew ("collection " +:+ name +:+ " does not exist")), s)
      | Some _ => (None, set_collections (delete name) s)
      end
  end.

Definition mem_Insert (ctx : option Ctx) (collection : string) (doc : Document) : St InMemoryStore (GoErr + string) := λ s,
  match validateContext ctx with
  | Some e => (inl e, s)
  | None =>
      match own_id doc with
      | None => (inl missing_id, s)
      | Some id =>
          let s := create collection s in
          if present s collection id then (inl ErrConflict, s)
          else (inr id, set_collections (write collection id doc) s)
      end
  end.

Definition mem_Get (ctx : option Ctx) (collection id : string) : St InMemoryStore (GoErr + Document) := λ s,
  match validateContext ctx with
  | Some e => (inl e, s)
  | None =>
      match collections s !! collection with
      | None => (inl ErrNotFound, s)
      | Some coll => match coll !! id with None => (inl ErrNotFound, s) | Some doc => (inr doc, s) end
      end
  end.

Definition mem_Update (ctx : option Ctx) (collection id : string) (doc : Document) : St InMemoryStore (option GoErr) := λ s,
  match validateContext ctx with
  | Some e => (Some e, s)
  | None =>
      let s := create collection s in
      if present s collection id then (None, set_collections (write collection id doc) s)
      else (Some ErrNotFound, s)
  end.

Definition mem_Delete (ctx : option Ctx) (collection id : string) : St InMemoryStore (option GoErr) := λ s,
  match validateContext ctx with
  | Some e => (Some e, s)
  | None =>
      let s := create collection s in
      if present s collection id then (None, set_collections (erase collection id) s)
      else (Some ErrNotFound, s)
  end.

(** The query is ignored; the order of the results is that of a [range] over the map. *)
Definition mem_Find (ctx : option Ctx) (collection : string) : St InMemoryStore (GoErr + list Document) := λ s,
  match validateContext ctx with
  | Some e => (inl e, s)
  | None =>
      match collections s !! collection with
      | None => (inl ErrNotFound, s)
      | Some coll => (inr (range (map_to_list coll).*2), s)
      end
  end.
End InMemoryStore.

Definition mem_Maintenance (ctx : option Ctx) : St InMemoryStore (option GoErr) := mret None.
Definition mem_Close (ctx : option Ctx) : St InMemoryStore (option GoErr) := λ s, (None, set_collections (λ _, ∅) s).

(** ** Transactions *)

(** The maps of a transaction; [deletes] is a [map[string]map[string]bool] that
    only ever holds [true]. *)
Record inMemoryTx := mkTx {
  tx_changes : gmap string (gmap string Document); tx_deletes : gmap string (gmap string ());
  committed : bool; rolledBack : bool }.

Definition mem_BeginTx (ctx : option Ctx) : St InMemoryStore (GoErr + inMemoryTx) := λ s,
  match validateContext ctx with
  | Some e => (inl e, s)
  | None => (inr (mkTx ∅ ∅ false false), s)
  end.

Definition tx_done (tx : inMemoryTx) : bool := committed tx || rolledBack tx.
Definition completed : GoErr := ENew "transaction already completed".

Definition deleted (tx : inMemoryTx) (c id : string) : bool :=
  match pending (tx_deletes tx) c id with Some _ => true | None => false end.
Definition set_changes f (tx : inMemoryTx) := mkTx (f (tx_changes tx)) (tx_deletes tx) (committed tx) (rolledBack tx).
Definition set_deletes f (tx : inMemoryTx) := mkTx (tx_changes tx) (f (tx_deletes tx)) (committed tx) (rolledBack tx).

Abbreviation InTx A := (St (inMemoryTx * InMemoryStore) A).

Definition mem_tx_Insert (ctx : option Ctx) (collection : string) (doc : Document) : InTx (GoErr + string) := λ '(tx, s),
  if tx_done tx then (inl completed, (tx, s))
  else match own_id doc with
  | None => (inl missing_id, (tx, s))
  | Some id =>
      let tx := set_changes (touch collection) tx in
      if deleted tx collection id then (inl (ENew "document was deleted in this transaction"), (tx, s))
      else match pending (tx_changes tx) collection id with
      | Some _ => (inl ErrConflict, (tx, s))
      | None => (inr id, (set_changes (write collection id doc) tx, s))
      end
  end.

Definition mem_tx_Get (ctx : option Ctx) (collection id : string) : InTx (GoErr + Document) := λ '(tx, s),
  if tx_done tx then (inl completed, (tx, s))
  else if deleted tx collection id then (inl ErrNotFound, (tx, s))
  else match pending (tx_changes tx) collection id with
  | Some doc => (inr doc, (tx, s))
  | None => let (r, s') := mem_Get ctx collection id s in (r, (tx, s'))
  end.

Definition mem_tx_Update (ctx : option Ctx) (collection id : string) (doc : Document) : InTx (option GoErr) := λ '(tx, s),
  if tx_done tx then (Some completed, (tx, s))
  else if deleted tx collection id then (Some ErrNotFound, (tx, s))
  else (None, (set_changes (write collection id doc) tx, s)).

Definition mem_tx_Delete (ctx : option Ctx) (collection id : string) : InTx (option GoErr) := λ '(tx, s),
  if tx_done tx then (Some completed, (tx, s))
  else (None, (set_changes (erase collection id) (set_deletes (write collection id ()) tx), s)).

Definition mem_tx_Find (range : list Document → list Document) (ctx : option Ctx) (collection : string) : InTx (GoErr + list Document) :=
  λ '(tx, s), let (r, s') := mem_Find range ctx collection s in (r, (tx, s')).
Definition mem_tx_BeginTx (ctx : option Ctx) : InTx (GoErr + inMemoryTx) := mret (inl (ENew "nested transactions not supported")).
Definition mem_tx_Close (ctx : option Ctx) : InTx (option GoErr) := mret (Some (ENew "cannot close transaction")).

(** The pending writes of each collection, then its pending deletes; a
    collection that the transaction names is created when it does not exist. *)
Definition add_changes (changes current : option (gmap string Document)) : option (gmap string Document) :=
  match changes with Some m => Some (m ∪ default ∅ current) | None => current end.
Definition drop_deletes (deletes : option (gmap string ())) (current : option (gmap string Document)) : option (gmap string Document) :=
  match deletes with Some d => Some (filter (λ kv, d !! kv.1 = None) (default ∅ current)) | None => current end.

Definition mem_Commit : InTx (option GoErr) := λ '(tx, s),
  if committed tx then (None, (tx, s))
  else if rolledBack tx then (Some (ENew "transaction was rolled back"), (tx, s))
  else
    let s := set_collections (merge add_changes (tx_changes tx)) s in
    let s := set_collections (merge drop_deletes (tx_deletes tx)) s in
    (None, (mkTx (tx_changes tx) (tx_deletes tx) true (rolledBack tx), s)).

Definition mem_Rollback : InTx (option GoErr) := λ '(tx, s),
  if rolledBack tx || committed tx then (None, (tx, s))
  else (None, (mkTx ∅ ∅ (committed tx) true, s)).

#[export] Instance memory_store (range : list Document → list Document) : Store InMemoryStore inMemoryTx := {
  Insert := mem_Insert; Get := mem_Get; Update := mem_Update; Delete := mem_Delete; Find := mem_Find range;
  BeginTx := mem_BeginTx; tx_Insert := mem_tx_Insert; tx_Get := mem_tx_Get; tx_Update := mem_tx_Update;
  tx_Delete := mem_tx_Delete; Commit := mem_Commit; Rollback := mem_Rollback;
}.

(** ** The promises of the interface *)

Definition flat {A} (m : Nested A) : gmap (string * string) A :=
  map_uncurry (M1 := gmap string) (M2 := gmap string) (M12 := gmap (string * string)) m.

Lemma lookup_flat {A} (m : Nested A) c i : flat m !! (c, i) = pending m c i.
Proof. apply lookup_map_uncurry. Qed.

Lemma flat_touch {A} c (m : Nested A) : flat (touch c m) = flat m.
Proof.
  apply map_eq. intros [c' i]. rewrite !lookup_flat. unfold pending, touch.
  destruct (decide (c = c')) as [<-|]; simplify_map_eq; [|done].
  by destruct (m !! c).
Qed.

Lemma flat_write {A} c id a (m : Nested A) : flat (write c id a m) = <[(c, id) := a]> (flat m).
Proof.
  apply map_eq. intros [c' i]. rewrite lookup_flat. unfold pending, write.
  destruct (decide (c = c')) as [<-|].
  - rewrite lookup_insert_eq. cbn. destruct (decide (id = i)) as [<-|]; [by rewrite !lookup_insert_eq|].
    rewrite !lookup_insert_ne, lookup_flat by congruence. unfold pending. by destruct (m !! c).
  - rewrite !lookup_insert_ne by congruence. by rewrite lookup_flat.
Qed.

Lemma flat_erase {A} c id (m : Nested A) : flat (erase c id m) = delete (c, id) (flat m).
Proof.
  apply map_eq. intros [c' i]. rewrite lookup_flat. unfold pending, erase.
  destruct (decide (c = c')) as [<-|].
  - rewrite lookup_alter_eq. destruct (decide (id = i)) as [<-|].
    + rewrite lookup_delete_eq. destruct (m !! c); cbn; [apply lookup_delete_eq|done].
    + rewrite lookup_delete_ne, lookup_flat by congruence. unfold pending.
      destruct (m !! c); cbn; [by apply lookup_delete_ne|done].
  - rewrite lookup_alter_ne, lookup_delete_ne, lookup_flat by congruence. done.
Qed.

Lemma flat_empty {A} : flat (∅ : Nested A) = ∅.
Proof. apply map_eq. intros [c i]. by rewrite lookup_flat. Qed.

Definition mem_docs (s : InMemoryStore) : Content := flat (collections s).

Definition mem_staged (tx : inMemoryTx) : Writes :=
  if tx_done tx then ∅ else ((λ _, None) <$> flat (tx_deletes tx)) ∪ (Some <$> flat (tx_changes tx)).

Lemma present_spec s c i : present s c i = true ↔ is_Some (mem_docs s !! (c, i)).
Proof.
  unfold present, mem_docs. rewrite lookup_flat. destruct (pending _ c i); [|split; [done|by intros []]].
  split; [by eexists|done].
Qed.

Lemma own_id_Some d i : own_id d = Some i → d !! "id"%string = Some (VString i) ∧ i ≠ ""%string.
Proof. unfold own_id. intros H. repeat case_match; simplify_eq; auto. Qed.

Lemma mem_staged_lookup tx c i : tx_done tx = false →
  mem_staged tx !! (c, i) = if deleted tx c i then Some None else Some <$> pending (tx_changes tx) c i.
Proof.
  intros E. unfold mem_staged, deleted. rewrite E, lookup_union, !lookup_fmap, !lookup_flat.
  destruct (pending (tx_deletes tx) c i), (pending (tx_changes tx) c i); done.
Qed.

Lemma mem_staged_done tx : tx_done tx = true → mem_staged tx = ∅.
Proof. unfold mem_staged. by intros ->. Qed.

Lemma overlay_empty m : overlay ∅ m = m.
Proof. apply map_eq. intros k. by rewrite lookup_overlay, lookup_empty. Qed.

(** A write of a transaction shows in its staged writes, unless the document is deleted. *)
Lemma mem_staged_write tx c i d : tx_done tx = false → deleted tx c i = false →
  mem_staged (set_changes (write c i d) tx) = <[(c, i) := Some d]> (mem_staged tx).
Proof.
  intros E Hd. unfold mem_staged, tx_done in *. cbn. rewrite E, flat_write, fmap_insert.
  apply map_eq. intros [c' i']. unfold deleted in Hd. rewrite lookup_union, lookup_fmap, lookup_flat.
  destruct (decide ((c, i) = (c', i'))) as [[= <- <-]|Hn].
  - rewrite !lookup_insert_eq. by destruct (pending _ c i).
  - do 2 (rewrite lookup_insert_ne; [|exact Hn]). by rewrite lookup_union, (lookup_fmap _ (flat (tx_deletes tx))), lookup_flat.
Qed.

Lemma mem_staged_delete tx c i : tx_done tx = false →
  mem_staged (set_changes (erase c i) (set_deletes (write c i ()) tx)) = <[(c, i) := None]> (mem_staged tx).
Proof.
  intros E. unfold mem_staged, tx_done in *. cbn. rewrite E, flat_write, flat_erase, fmap_insert, fmap_delete.
  apply map_eq. intros k. rewrite lookup_union.
  destruct (decide ((c, i) = k)) as [<-|Hn].
  - by rewrite !lookup_insert_eq, lookup_delete_eq.
  - do 2 (rewrite lookup_insert_ne; [|exact Hn]). rewrite lookup_delete_ne; [|exact Hn]. by rewrite lookup_union.
Qed.

Lemma flat_commit tx m : tx_done tx = false →
  flat (merge drop_deletes (tx_deletes tx) (merge add_changes (tx_changes tx) m)) = overlay (mem_staged tx) (flat m).
Proof.
  intros E. apply map_eq. intros [c i].
  rewrite lookup_overlay, !lookup_flat, mem_staged_lookup by done. unfold deleted, pending.
  rewrite lookup_merge, lookup_merge.
  set (o := tx_changes tx !! c). set (e := tx_deletes tx !! c). set (n := m !! c).
  assert (Ha : diag_None add_changes o n ≫= (.!! i) = landed (Some <$> (o ≫= (.!! i))) (n ≫= (.!! i))).
  { destruct o as [o|], n as [n|]; cbn; try done; rewrite lookup_union, ?lookup_empty.
    - by destruct (o !! i), (n !! i).
    - by destruct (o !! i). }
  destruct e as [e|]; cbn.
  - rewrite map_lookup_filter. destruct (e !! i) eqn:Ei; cbn.
    + destruct (default ∅ _ !! i); cbn; [by rewrite option_guard_False by congruence|done].
    + rewrite <- Ha. destruct (diag_None add_changes o n) as [x|]; cbn; [|by rewrite lookup_empty].
      destruct (x !! i); cbn; [by rewrite option_guard_True|done].
  - rewrite <- Ha. by destruct (diag_None add_changes o n).
Qed.

Lemma mem_docs_create c s : mem_docs (create c s) = mem_docs s.
Proof. unfold mem_docs, create. apply flat_touch. Qed.

Lemma mem_docs_write c i d s : mem_docs (set_collections (write c i d) (create c s)) = <[(c, i) := d]> (mem_docs s).
Proof. unfold mem_docs. cbn. by rewrite flat_write, flat_touch. Qed.

Lemma mem_docs_erase c i s : mem_docs (set_collections (erase c i) (create c s)) = delete (c, i) (mem_docs s).
Proof. unfold mem_docs. cbn. by rewrite flat_erase, flat_touch. Qed.

Lemma create_present c i s : if present (create c s) c i then is_Some (mem_docs s !! (c, i)) else mem_docs s !! (c, i) = None.
Proof.
  destruct (present _ _ _) eqn:P.
  - apply present_spec in P. by rewrite mem_docs_create in P.
  - rewrite <- (mem_docs_create c). destruct (_ !! _) eqn:E; [|done].
    assert (Hp : present (create c s) c i = true) by (apply present_spec; by eexists). congruence.
Qed.

Lemma mem_Insert_law ctx c d s : st_wp (mem_Insert ctx c d) (λ r s', match r with
  | inl _ => mem_docs s' = mem_docs s
  | inr i => d !! "id"%string = Some (VString i) ∧ i ≠ ""%string ∧ mem_docs s !! (c, i) = None ∧ mem_docs s' = <[(c, i) := d]> (mem_docs s) end) s.
Proof.
  unfold st_wp, mem_Insert. destruct ctx; [|done]. cbn. destruct (own_id d) as [i|] eqn:E; [|done].
  apply own_id_Some in E as [Hi Hne]. pose proof (create_present c i s) as P.
  destruct (present _ c i); cbn; [apply mem_docs_create|]. split_and!; try done. apply mem_docs_write.
Qed.

Lemma mem_Get_law ctx c i s : st_wp (mem_Get ctx c i) (λ r s', s' = s ∧ match r with
  | inl e => IsErr e ErrNotFound = true → mem_docs s !! (c, i) = None
  | inr d => mem_docs s !! (c, i) = Some d end) s.
Proof.
  unfold st_wp, mem_Get, mem_docs. rewrite lookup_flat. unfold pending. destruct ctx; [|done].
  by destruct (collections s !! c) as [m|]; cbn; [destruct (m !! i)|].
Qed.

Lemma mem_Update_law ctx c i d s : st_wp (mem_Update ctx c i d) (λ r s', match r with
  | Some _ => mem_docs s' = mem_docs s
  | None => is_Some (mem_docs s !! (c, i)) ∧ mem_docs s' = <[(c, i) := d]> (mem_docs s) end) s.
Proof.
  unfold st_wp, mem_Update. destruct ctx; [|done]. cbn. pose proof (create_present c i s) as P.
  destruct (present _ c i); cbn; [split; [done|apply mem_docs_write]|apply mem_docs_create].
Qed.

Lemma mem_Delete_law ctx c i s : st_wp (mem_Delete ctx c i) (λ r s', match r with
  | Some _ => mem_docs s' = mem_docs s
  | None => is_Some (mem_docs s !! (c, i)) ∧ mem_docs s' = delete (c, i) (mem_docs s) end) s.
Proof.
  unfold st_wp, mem_Delete. destruct ctx; [|done]. cbn. pose proof (create_present c i s) as P.
  destruct (present _ c i); cbn; [split; [done|apply mem_docs_erase]|apply mem_docs_create].
Qed.

Lemma mem_Find_law range ctx c s : (∀ l, range l ≡ₚ l) → st_wp (mem_Find range ctx c) (λ r s', mem_docs s' = mem_docs s ∧ match r with
  | inl e => IsErr e ErrNotFound = true → listing (mem_docs s) c []
  | inr l => listing (mem_docs s) c l end) s.
Proof.
  intros Hr. unfold st_wp, mem_Find. destruct ctx; [|done]. cbn.
  assert (Hc : ∀ i, mem_docs s !! (c, i) = default ∅ (collections s !! c) !! i).
  { intros i. unfold mem_docs. rewrite lookup_flat. unfold pending. by destruct (_ !! c). }
  apply listing_map_to_list in Hc. destruct (collections s !! c) as [m|]; cbn; split; try done.
  by eapply listing_perm; [symmetry; apply Hr|].
Qed.

Lemma mem_tx_Insert_law ctx c d p : st_wp (mem_tx_Insert ctx c d) (λ r p', mem_docs p'.2 = mem_docs p.2 ∧ match r with
  | inl _ => mem_staged p'.1 = mem_staged p.1
  | inr i => d !! "id"%string = Some (VString i) ∧ i ≠ ""%string ∧ mem_staged p'.1 = <[(c, i) := Some d]> (mem_staged p.1) end) p.
Proof.
  destruct p as [tx s]. unfold st_wp, mem_tx_Insert. cbn. destruct (tx_done tx) eqn:E; [done|].
  destruct (own_id d) as [i|] eqn:Ei; [|done]. apply own_id_Some in Ei as [Hi Hne].
  assert (Ht : mem_staged (set_changes (touch c) tx) = mem_staged tx) by (unfold mem_staged; cbn; by rewrite flat_touch).
  destruct (deleted _ c i) eqn:Hd; [done|]. cbn. destruct (pending _ c i); [done|]. split; [done|].
  cbn. rewrite <- Ht. split_and!; [done..|]. by apply (mem_staged_write (set_changes (touch c) tx)).
Qed.

Lemma mem_tx_Get_law ctx c i p : st_wp (mem_tx_Get ctx c i) (λ r p', mem_docs p'.2 = mem_docs p.2 ∧ mem_staged p'.1 = mem_staged p.1 ∧ match r with
  | inl e => IsErr e ErrNotFound = true → overlay (mem_staged p.1) (mem_docs p.2) !! (c, i) = None
  | inr d => overlay (mem_staged p.1) (mem_docs p.2) !! (c, i) = Some d end) p.
Proof.
  destruct p as [tx s]. unfold st_wp, mem_tx_Get. cbn. rewrite lookup_overlay.
  destruct (tx_done tx) eqn:E; [done|]. rewrite mem_staged_lookup by done.
  destruct (deleted tx c i); [done|]. destruct (pending _ c i); [done|].
  pose proof (mem_Get_law ctx c i s) as Hg. unfold st_wp in Hg. destruct (mem_Get ctx c i s) as [r s'].
  cbn in *. by destruct Hg as [-> Hg].
Qed.

Lemma mem_tx_Update_law ctx c i d p : st_wp (mem_tx_Update ctx c i d) (λ r p', mem_docs p'.2 = mem_docs p.2 ∧ match r with
  | Some _ => mem_staged p'.1 = mem_staged p.1
  | None => mem_staged p'.1 = <[(c, i) := Some d]> (mem_staged p.1) end) p.
Proof.
  destruct p as [tx s]. unfold st_wp, mem_tx_Update. cbn. destruct (tx_done tx) eqn:E; [done|].
  destruct (deleted tx c i) eqn:Hd; [done|]. split; [done|]. by apply mem_staged_write.
Qed.

Lemma mem_tx_Delete_law ctx c i p : st_wp (mem_tx_Delete ctx c i) (λ r p', mem_docs p'.2 = mem_docs p.2 ∧ match r with
  | Some _ => mem_staged p'.1 = mem_staged p.1
  | None => mem_staged p'.1 = <[(c, i) := None]> (mem_staged p.1) end) p.
Proof.
  destruct p as [tx s]. unfold st_wp, mem_tx_Delete. cbn. destruct (tx_done tx) eqn:E; [done|].
  split; [done|]. by apply mem_staged_delete.
Qed.

Lemma mem_Commit_law p : st_wp mem_Commit (λ r p', match r with
  | Some _ => mem_docs p'.2 = mem_docs p.2
  | None => mem_docs p'.2 = overlay (mem_staged p.1) (mem_docs p.2) end) p.
Proof.
  destruct p as [tx s]. unfold st_wp, mem_Commit. cbn. destruct (committed tx) eqn:Ec.
  - cbn. rewrite mem_staged_done by (unfold tx_done; by rewrite Ec). by rewrite overlay_empty.
  - destruct (rolledBack tx) eqn:Er; [done|]. cbn. apply flat_commit. unfold tx_done. by rewrite Ec, Er.
Qed.

Lemma mem_Rollback_law p : st_wp mem_Rollback (λ _ p', mem_docs p'.2 = mem_docs p.2) p.
Proof. destruct p as [tx s]. unfold st_wp, mem_Rollback. by case_match. Qed.

#[export, refine] Instance memory_laws range (range_perm : ∀ l, range l ≡ₚ l)
  : @StoreLaws InMemoryStore inMemoryTx _ (memory_store range) := {
  docs := mem_docs; staged := mem_staged;
  Insert_law := mem_Insert_law; tx_Insert_law := mem_tx_Insert_law; tx_Get_law := mem_tx_Get_law;
  Update_law := mem_Update_law; Delete_law := mem_Delete_law; tx_Update_law := mem_tx_Update_law;
  tx_Delete_law := mem_tx_Delete_law; Commit_law := mem_Commit_law; Rollback_law := mem_Rollback_law }.
Proof.
  - done.
  - intros ctx c i s. eapply st_wp_mono; [apply mem_Get_law|]. cbn. by intros [e|d] s' [-> Hr].
  - intros ctx c s. by apply mem_Find_law.
  - intros [ctx|] s; [|done]. split; [done|]. cbn. unfold mem_staged. cbn. by rewrite !flat_empty, !fmap_empty, map_empty_union.
Defined.
