(* ===== verification/TriangularStore.v ===== *)
(** * TriangularStore: the worker stores and their change feed

    Models [fsmv2/cse/storage]: [save.go], [tombstone.go], [delta_store.go] and
    the loads, snapshots, deltas and compaction of [triangular.go], over any
    document store ([DocumentStore]).  The methods run one at a time; the
    mutexes of the code are not represented.  The only log entry recorded is
    the warning that a delta could not be appended ([warned]); the loads the
    code makes to fill its log entries are kept.  [deltaStore], set by the
    constructor, is never nil. *)

From stdpp Require Import sorting.
From S2P Require Import Prelude Float64 GoRuntime GoBytes StateMonad Documents DocumentStore.
From Stdlib Require Import Ascii.
Local Open Scope Z_scope.

(** ** State *)

(** A document that may be nil is an [option]; the stores hand out documents,
    so that [Observed], an [interface{}], is one too. *)
Record Snapshot := mkSnapshot { Identity : option Document; Desired : option Document; Observed : option Document }.
Record cachedSnapshot := mkCached { snapshot : Snapshot; cached_syncID : Z }.

Record TriangularStore (S : Type) := mkTS {
  store : S;
  syncID : Z;
  snapshotCache : gmap string cachedSnapshot;
  knownWorkerTypes : gset string;
  warned : list GoErr }.
#[global] Arguments mkTS {S} _ _ _ _ _.
#[global] Arguments store {S} _.
#[global] Arguments syncID {S} _.
#[global] Arguments snapshotCache {S} _.
#[global] Arguments knownWorkerTypes {S} _.
#[global] Arguments warned {S} _.

Definition NewTriangularStore {S} (st : S) : TriangularStore S := mkTS st 0 ∅ ∅ [].

Record DeltaEntry := mkEntry {
  Timestamp : Time; Changes : option Diff; WorkerType : string; ID : string; EntryRole : string; SyncID : Z }.

Record SaveOptions := mkOptions {
  opt_Role : Role; IncrementVersion : bool; SkipDeltaCheck : bool; UpdateTimestampOnNoChange : bool }.
Definition IdentitySaveOptions : SaveOptions := mkOptions RoleIdentity false false false.
Definition DesiredSaveOptions : SaveOptions := mkOptions RoleDesired true false false.
Definition ObservedSaveOptions : SaveOptions := mkOptions RoleObserved false false true.

Record saveResult := mkResult { isNew : bool; changed : bool; changes : list FieldChange; result_diff : option Diff }.

Definition collection (workerType : string) (role : Role) : string := workerType +:+ "_" +:+ role_name role.
Definition cache_key (workerType id : string) : string := workerType +:+ "_" +:+ id.

(** ** delta_store.go *)

Definition DeltaCollectionName : string := "_deltas".

(** [t.UnixMilli()] and [time.UnixMilli(ms)]. *)
Definition to_UnixMilli (t : Time) : Z := (t - unixToInternal * nano) / 1000000.

Definition lookup_string (doc : Document) (k : string) : option string :=
  match doc !! k with Some (VString s) => Some s | _ => None end.
Definition lookup_number (doc : Document) (k : string) : option Z :=
  match doc !! k with Some (VInt64 n) => Some n | Some (VFloat64 f) => Some (ftrunc f) | _ => None end.

Definition extractSyncID (doc : Document) : Z := default 0 (lookup_number doc "sync_id").
Definition extractTimestampMs (doc : Document) : option Z := lookup_number doc "timestamp".

(** The time of an entry without a timestamp is the zero time. *)
Definition documentToEntry (doc : Document) : DeltaEntry :=
  mkEntry
    (match lookup_number doc "timestamp" with Some ms => UnixMilli ms | None => 0 end)
    (match doc !! "changes"%string with Some (VText v) => value_diff (json_value v) | _ => None end)
    (default ""%string (lookup_string doc "worker_type"))
    (default ""%string (lookup_string doc "worker_id"))
    (default ""%string (lookup_string doc "role"))
    (extractSyncID doc).

#[export] Instance by_sync_id : RelDecision (λ e f, SyncID e <= SyncID f).
Proof. intros e f. apply Z.le_dec. Defined.
(** [sort.Slice] may order entries with equal ids as it likes; ids are unique. *)
Definition sortEntriesBySyncID (l : list DeltaEntry) : list DeltaEntry := merge_sort (λ e f, SyncID e <= SyncID f) l.

Definition limited (limit : nat) (entries : list DeltaEntry) : list DeltaEntry :=
  if bool_decide ((0 < limit)%nat ∧ (limit < length entries)%nat) then take limit entries else entries.

(** The document of an entry, without and with its changes. *)
Definition entry_document (e : DeltaEntry) : Document :=
  <["id" := VString (str_of (itoa (SyncID e)))]> (<["sync_id" := VInt64 (SyncID e)]> (<["worker_type" := VString (WorkerType e)]>
  (<["worker_id" := VString (ID e)]> (<["role" := VString (EntryRole e)]> (<["timestamp" := VInt64 (to_UnixMilli (Timestamp e))]> ∅))))).

Section delta_store.
Context {S Tx : Type} `{World S} `{!Store S Tx}.

Definition insert_delta (ctx : Ctx) (doc : Document) : St S (option GoErr) :=
  r ← Insert (Some ctx) DeltaCollectionName doc;
  mret (match r with inl err => Some (EWrap "failed to insert delta: " err) | inr _ => None end).

Definition Append (ctx : Ctx) (entry : DeltaEntry) : St S (option GoErr) :=
  let doc := entry_document entry in
  match Changes entry with
  | None => insert_delta ctx doc
  | Some d =>
      if json_ok (diff_value d) then insert_delta ctx (<["changes" := VText (diff_value d)]> doc)
      else mret (Some (EWrap "failed to marshal changes: " (ENew "json: error calling MarshalJSON for type time.Time")))
  end.

(** Negative limits, on which [make] panics, are outside the type. *)
Definition GetSince (ctx : Ctx) (workerType role : string) (sinceSyncID : Z) (limit : nat) : St S (GoErr + list DeltaEntry) :=
  r ← Find (Some ctx) DeltaCollectionName;
  mret (match r with
  | inl err => inl (EWrap "failed to list deltas: " err)
  | inr found => inr (limited limit (sortEntriesBySyncID (omap (λ doc,
      if bool_decide (lookup_string doc "worker_type" = Some workerType ∧ lookup_string doc "role" = Some role)
      then if extractSyncID doc <=? sinceSyncID then None else Some (documentToEntry doc) else None) found)))
  end).

Definition since (sinceSyncID : Z) (doc : Document) : option DeltaEntry :=
  if extractSyncID doc <=? sinceSyncID then None else Some (documentToEntry doc).

Definition GetAllSince (ctx : Ctx) (sinceSyncID : Z) (limit : nat) : St S (GoErr + list DeltaEntry) :=
  r ← Find (Some ctx) DeltaCollectionName;
  mret (match r with
  | inl err => inl (EWrap "failed to query deltas: " err)
  | inr found => inr (limited limit (sortEntriesBySyncID (omap (since sinceSyncID) found)))
  end).

Definition before (workerType role : string) (beforeSyncID : Z) (doc : Document) : bool :=
  (bool_decide (workerType = ""%string) || bool_decide (lookup_string doc "worker_type" = Some workerType)) &&
  (bool_decide (role = ""%string) || bool_decide (lookup_string doc "role" = Some role)) &&
  (extractSyncID doc <? beforeSyncID).

Fixpoint delete_before (ctx : Ctx) (workerType role : string) (beforeSyncID : Z) (found : list Document) : St S (option GoErr) :=
  match found with
  | [] => mret None
  | doc :: rest =>
      match (if before workerType role beforeSyncID doc then lookup_string doc "id" else None) with
      | None => delete_before ctx workerType role beforeSyncID rest
      | Some id =>
          err ← Delete (Some ctx) DeltaCollectionName id;
          match err with
          | Some err => mret (Some (EWrap ("failed to delete delta " +:+ id +:+ ": ") err))
          | None => delete_before ctx workerType role beforeSyncID rest
          end
      end
  end.

Definition DeleteBefore (ctx : Ctx) (workerType role : string) (beforeSyncID : Z) : St S (option GoErr) :=
  r ← Find (Some ctx) DeltaCollectionName;
  match r with
  | inl err => mret (Some (EWrap "failed to list deltas for deletion: " err))
  | inr found => delete_before ctx workerType role beforeSyncID found
  end.
End delta_store.

(** ** save.go, tombstone.go and triangular.go *)

Section triangular.
Context {S Tx : Type} `{World S} `{!Store S Tx}.

Abbreviation T A := (St (TriangularStore S) A).

Definition on_store {A} (m : St S A) : T A := λ t,
  let (a, s') := m (store t) in (a, mkTS s' (syncID t) (snapshotCache t) (knownWorkerTypes t) (warned t)).
Definition Now : T Time := on_store clock.

(** [ts.syncID.Add(1)]. *)
Definition next_sync_id : T Z := λ t,
  let n := wrap_i64 (syncID t + 1) in (n, mkTS (store t) n (snapshotCache t) (knownWorkerTypes t) (warned t)).
Definition set_cache (f : gmap string cachedSnapshot → gmap string cachedSnapshot) : T unit := λ t,
  (tt, mkTS (store t) (syncID t) (f (snapshotCache t)) (knownWorkerTypes t) (warned t)).
Definition warn (err : GoErr) : T unit := λ t,
  (tt, mkTS (store t) (syncID t) (snapshotCache t) (knownWorkerTypes t) (warned t ++ [err])).
Definition read {A} (f : TriangularStore S → A) : T A := λ t, (f t, t).

Definition invalidateSnapshot (workerType id : string) : T unit := set_cache (delete (cache_key workerType id)).

Definition Load (ctx : Ctx) (workerType : string) (role : Role) (id : string) : T (GoErr + Document) :=
  on_store (Get (Some ctx) (collection workerType role) id).
Definition LoadIdentity ctx workerType id := Load ctx workerType RoleIdentity id.
Definition LoadDesired ctx workerType id := Load ctx workerType RoleDesired id.
Definition LoadObserved ctx workerType id := Load ctx workerType RoleObserved id.

Definition hierarchyPath (ctx : Ctx) (workerType id : string) : T string :=
  r ← LoadIdentity ctx workerType id;
  mret (match r with inr identity => default ""%string (lookup_string identity "hierarchy_path") | inl _ => ""%string end).

Definition appendDeltaOrWarn (ctx : Ctx) (entry : DeltaEntry) : T unit :=
  appendErr ← on_store (Append ctx entry);
  match appendErr with
  | None => mret tt
  | Some err => _ ← hierarchyPath ctx (WorkerType entry) (ID entry); warn err
  end.

(** *** save.go *)

Definition next_version (doc : Document) : Z :=
  wrap_i64 ((match doc !! FieldVersion with
             | Some (VInt64 v) => v | Some (VFloat64 f) => ftrunc f | _ => 0 end) + 1).

Definition metadata (doc : Document) (opts : SaveOptions) (isNew : bool) (now : Time) : Document :=
  if isNew then <[FieldVersion := VInt64 1]> (<[FieldCreatedAt := VTime now]> doc)
  else let doc := <[FieldUpdatedAt := VTime now]> doc in
       if IncrementVersion opts then <[FieldVersion := VInt64 (next_version doc)]> doc else doc.

Definition injectMetadataWithOptions (doc : Document) (opts : SaveOptions) (isNew : bool) : T Document :=
  now ← Now; mret (metadata doc opts isNew now).

(** [doc[k] = existing[k]]. *)
Definition copy_field (k : string) (existing doc : Document) : Document := <[k := default VNil (existing !! k)]> doc.

(** The tombstone and the version that a save takes from the stored document. *)
Definition keep_stored (existing : option Document) (opts : SaveOptions) (doc : Document) : Document :=
  let doc := delete FieldDeletedBy (delete FieldDeletedAt doc) in
  match existing with
  | None => doc
  | Some existing =>
      let doc := if hasTombstone existing then copy_field FieldDeletedBy existing (copy_field FieldDeletedAt existing doc) else doc in
      if IncrementVersion opts then doc
      else match existing !! FieldVersion with Some v => <[FieldVersion := v]> doc | None => doc end
  end.

Definition failed_save (opts : SaveOptions) (workerType id : string) (err : GoErr) : GoErr :=
  EWrap ("failed to save " +:+ role_name (opt_Role opts) +:+ " for " +:+ workerType +:+ "/" +:+ id +:+ ": ") err.

Definition insert_or_update (ctx : Ctx) (collectionName id : string) (isNew : bool) (doc : Document) : T (option GoErr) :=
  if isNew then r ← on_store (Insert (Some ctx) collectionName doc); mret (match r with inl e => Some e | inr _ => None end)
  else on_store (Update (Some ctx) collectionName id doc).

Definition append_diff (ctx : Ctx) (workerType id : string) (role : Role) (syncID : Z) (diff : option Diff) : T unit :=
  match diff with
  | None => mret tt
  | Some _ => now ← Now; appendDeltaOrWarn ctx (mkEntry now diff workerType id (role_name role) syncID)
  end.

(** The rest of [writeDocument] when there is something to write.  The document
    is the caller's map, which the function changes and which is returned. *)
Definition store_document (ctx : Ctx) (workerType id : string) (doc : Document) (opts : SaveOptions)
    (existing : option Document) (changes : list FieldChange) (diff : option Diff) : T ((GoErr + saveResult) * Document) :=
  let isNew := bool_decide (existing = None) in
  let doc := keep_stored existing opts doc in
  syncID ← next_sync_id;
  doc ← injectMetadataWithOptions (<[FieldSyncID := VInt64 syncID]> doc) opts isNew;
  err ← insert_or_update ctx (collection workerType (opt_Role opts)) id isNew doc;
  match err with
  | Some err => mret (inl (failed_save opts workerType id err), doc)
  | None =>
      _ ← append_diff ctx workerType id (opt_Role opts) syncID diff;
      _ ← invalidateSnapshot workerType id;
      mret (inr (mkResult isNew true changes diff), doc)
  end.

(** A save without changes. *)
Definition touch_document (ctx : Ctx) (workerType id : string) (opts : SaveOptions) (existing : Document) : T (GoErr + saveResult) :=
  if UpdateTimestampOnNoChange opts then
    now ← Now;
    err ← on_store (Update (Some ctx) (collection workerType (opt_Role opts)) id (<[FieldUpdatedAt := VTime now]> existing));
    match err with
    | Some err => mret (inl (EWrap ("failed to update timestamp for " +:+ workerType +:+ "/" +:+ id +:+ ": ") err))
    | None => _ ← invalidateSnapshot workerType id; mret (inr (mkResult false false [] None))
    end
  else mret (inr (mkResult false false [] None)).

Definition writeDocument (ctx : Ctx) (workerType id : string) (doc : Document) (opts : SaveOptions) : T ((GoErr + saveResult) * Document) :=
  existing ← on_store (Get (Some ctx) (collection workerType (opt_Role opts)) id);
  match existing with
  | inl err =>
      if IsErr err ErrNotFound then
        store_document ctx workerType id doc opts None []
          (if SkipDeltaCheck opts then None else computeCreatedDiff (Some doc) (opt_Role opts))
      else mret (inl (EWrap ("failed to load existing " +:+ role_name (opt_Role opts) +:+ " for " +:+ workerType +:+ "/" +:+ id +:+ ": ") err), doc)
  | inr existing =>
      let '(hasChanges, changes, diff) :=
        if SkipDeltaCheck opts then (true, [], None) else performDeltaCheck (Some existing) doc (opt_Role opts) in
      if hasChanges then store_document ctx workerType id doc opts (Some existing) changes diff
      else r ← touch_document ctx workerType id opts existing; mret (r, doc)
  end.

Definition saveWithDelta (ctx : Ctx) (workerType id : string) (doc : option Document) (opts : SaveOptions)
  : T ((GoErr + (bool * option Diff)) * option Document) :=
  match doc with
  | None => mret (inl (ENew "document cannot be nil"), None)
  | Some doc =>
      match lookup_string doc "id" with
      | None | Some ""%string => mret (inl (ENew "document must have non-empty string 'id' field"), Some doc)
      | Some docID =>
          if bool_decide (docID = id) then
            '(result, doc) ← writeDocument ctx workerType id doc opts;
            match result with
            | inl err => mret (inl err, Some doc)
            | inr result =>
                _ ← (if negb (SkipDeltaCheck opts) && (isNew result || changed result)
                     then _ ← hierarchyPath ctx workerType id; mret tt else mret tt);
                mret (inr (changed result, result_diff result), Some doc)
            end
          else mret (inl (ENew ("document id " +:+ docID +:+ " does not match parameter id " +:+ id)), Some doc)
      end
  end.

Definition registerWorkerType (workerType : string) : T unit := λ t,
  (tt, mkTS (store t) (syncID t) (snapshotCache t) ({[workerType]} ∪ knownWorkerTypes t) (warned t)).

(** Each save returns its results with the caller's document as it leaves it. *)
Definition SaveIdentity (ctx : Ctx) (workerType id : string) (identity : option Document) : T (option GoErr * option Document) :=
  _ ← registerWorkerType workerType;
  '(r, doc) ← saveWithDelta ctx workerType id identity IdentitySaveOptions;
  mret (match r with inl err => Some err | inr _ => None end, doc).

Definition SaveDesired (ctx : Ctx) (workerType id : string) (desired : option Document) : T ((GoErr + bool) * option Document) :=
  '(r, doc) ← saveWithDelta ctx workerType id desired DesiredSaveOptions;
  mret (match r with inl err => inl err | inr (changed, _) => inr changed end, doc).

(** What the caller hands to [SaveObserved]: nothing, a document, or a value
    that goes through JSON. *)
Inductive ObservedState := ONil | ODocument (d : Document) | OStruct (v : Value).

Definition toDocument (v : ObservedState) : GoErr + Document :=
  match v with
  | ONil => inl (ENew "cannot convert nil to document")
  | ODocument d => inr d
  | OStruct v =>
      if json_ok v then
        match json_value v with
        | VMap l => inr (list_to_map l)
        | VNil => inl (ENew "unmarshaled document is nil")
        | _ => inl (EWrap "failed to unmarshal JSON to document: " (ENew "json: cannot unmarshal into Go value of type persistence.Document"))
        end
      else inl (EWrap "failed to marshal to JSON: " (ENew "json: error calling MarshalJSON for type time.Time"))
  end.

Definition SaveObserved (ctx : Ctx) (workerType id : string) (observed : ObservedState) : T ((GoErr + bool) * option Document) :=
  match toDocument observed with
  | inl err => mret (inl (EWrap "failed to convert observed to document: " err), None)
  | inr observedDoc =>
      '(r, doc) ← saveWithDelta ctx workerType id (Some (<["id" := VString id]> observedDoc)) ObservedSaveOptions;
      mret (match r with inl err => inl err | inr (changed, _) => inr changed end, doc)
  end.

(** *** tombstone.go *)

Definition allRoles : list Role := [RoleIdentity; RoleDesired; RoleObserved].

Record roleWrite := mkWrite { write_role : Role; write_syncID : Z; write_diff : Diff }.

(** What an edit does to a document: nothing, or a new document and its delta. *)
Definition Edit := Document → Time → option (Document * Diff).

Definition add_tombstone (deletedBy : string) : Edit := λ doc at_,
  if hasTombstone doc then None
  else Some (<[FieldDeletedBy := VString deletedBy]> (<[FieldDeletedAt := VTime at_]> doc),
             mkDiff (<[FieldDeletedBy := VString deletedBy]> (<[FieldDeletedAt := VTime at_]> ∅)) ∅ []).

Definition remove_tombstone : Edit := λ doc _,
  if hasTombstone doc
  then Some (delete FieldDeletedBy (delete FieldDeletedAt doc), mkDiff ∅ ∅ [FieldDeletedAt; FieldDeletedBy])
  else None.

(** A transaction in progress beside the store. *)
Abbreviation TT A := (St (Tx * TriangularStore S) A).
Definition on_tx {A} (m : St (Tx * S) A) : TT A := λ p,
  let (a, q) := m (p.1, store p.2) in
  (a, (q.1, mkTS q.2 (syncID p.2) (snapshotCache p.2) (knownWorkerTypes p.2) (warned p.2))).
Definition beside_tx {A} (m : T A) : TT A := λ p, let (a, t') := m p.2 in (a, (p.1, t')).
Definition in_tx {A} (tx : Tx) (m : TT A) : T A := λ t, let (a, p) := m (tx, t) in (a, p.2).

Fixpoint edit_roles (ctx : Ctx) (workerType id : string) (edit : Edit) (at_ : Time) (roles : list Role) (written : list roleWrite)
  : TT (GoErr + list roleWrite) :=
  match roles with
  | [] => mret (inr written)
  | role :: rest =>
      doc ← on_tx (tx_Get (Some ctx) (collection workerType role) id);
      match doc with
      | inl err =>
          if IsErr err ErrNotFound then edit_roles ctx workerType id edit at_ rest written
          else mret (inl (EWrap ("failed to load " +:+ role_name role +:+ ": ") err))
      | inr doc =>
          match edit doc at_ with
          | None => edit_roles ctx workerType id edit at_ rest written
          | Some (doc, diff) =>
              syncID ← beside_tx next_sync_id;
              err ← on_tx (tx_Update (Some ctx) (collection workerType role) id (<[FieldSyncID := VInt64 syncID]> doc));
              match err with
              | Some err => mret (inl (EWrap ("failed to update " +:+ role_name role +:+ ": ") err))
              | None => edit_roles ctx workerType id edit at_ rest (written ++ [mkWrite role syncID diff])
              end
          end
      end
  end.

Fixpoint append_written (ctx : Ctx) (workerType id : string) (at_ : Time) (written : list roleWrite) : T unit :=
  match written with
  | [] => mret tt
  | w :: rest =>
      _ ← appendDeltaOrWarn ctx (mkEntry at_ (Some (write_diff w)) workerType id (role_name (write_role w)) (write_syncID w));
      append_written ctx workerType id at_ rest
  end.

(** What happens in the transaction; [tx.Rollback()] is deferred. *)
Definition edit_in_tx (ctx : Ctx) (workerType id : string) (edit : Edit) (at_ : Time) : TT (option GoErr) :=
  written ← edit_roles ctx workerType id edit at_ allRoles [];
  result ← match written with
    | inl err => mret (Some err)
    | inr written =>
        err ← on_tx Commit;
        match err with
        | Some err => mret (Some (EWrap "failed to commit transaction: " err))
        | None =>
            _ ← beside_tx (append_written ctx workerType id at_ written);
            _ ← beside_tx (invalidateSnapshot workerType id);
            mret None
        end
    end;
  _ ← on_tx Rollback;
  mret result.

Definition editRoleDocuments (ctx : Ctx) (workerType id : string) (edit : Edit) : T (option GoErr) :=
  at_ ← Now;
  tx ← on_store (BeginTx (Some ctx));
  match tx with
  | inl err => mret (Some (EWrap "failed to begin transaction: " err))
  | inr tx => in_tx tx (edit_in_tx ctx workerType id edit at_)
  end.

Definition Tombstone (ctx : Ctx) (workerType id deletedBy : string) : T (option GoErr) :=
  err ← editRoleDocuments ctx workerType id (add_tombstone deletedBy);
  mret (EWrap ("failed to tombstone " +:+ workerType +:+ "/" +:+ id +:+ ": ") <$> err).

Definition ClearTombstone (ctx : Ctx) (workerType id : string) : T (option GoErr) :=
  err ← editRoleDocuments ctx workerType id remove_tombstone;
  mret (EWrap ("failed to clear tombstone of " +:+ workerType +:+ "/" +:+ id +:+ ": ") <$> err).

(** *** Snapshots *)

(** [json.Marshal] then [json.Unmarshal], or a shallow copy when that fails. *)
Definition deepCopyDocument (doc : option Document) : option Document :=
  match doc with
  | None => None
  | Some doc => if doc_ok doc then Some (json_doc doc) else Some doc
  end.
Definition cloneSnapshot (s : Snapshot) : Snapshot :=
  mkSnapshot (deepCopyDocument (Identity s)) (deepCopyDocument (Desired s)) (deepCopyDocument (Observed s)).

(** A role that may be absent. *)
Definition optional (what : string) (r : GoErr + Document) : GoErr + option Document :=
  match r with
  | inr doc => inr (Some doc)
  | inl err => if IsErr err ErrNotFound then inr None else inl (EWrap ("failed to load " +:+ what +:+ ": ") err)
  end.

Definition load_in_tx (ctx : Ctx) (workerType id : string) : TT (GoErr + Snapshot) :=
  identity ← on_tx (tx_Get (Some ctx) (collection workerType RoleIdentity) id);
  match identity with
  | inl err => mret (inl (EWrap "failed to load identity: " err))
  | inr identity =>
      desired ← on_tx (tx_Get (Some ctx) (collection workerType RoleDesired) id);
      match optional "desired" desired with
      | inl err => mret (inl err)
      | inr desired =>
          observed ← on_tx (tx_Get (Some ctx) (collection workerType RoleObserved) id);
          match optional "observed" observed with
          | inl err => mret (inl err)
          | inr observed =>
              err ← on_tx Commit;
              match err with
              | Some err => mret (inl (EWrap "failed to commit transaction: " err))
              | None => mret (inr (mkSnapshot (Some identity) desired observed))
              end
          end
      end
  end.

(** The snapshot that is loaded when none is cached; the deferred rollback runs
    when the function returns, after the snapshot is cached. *)
Definition load_and_cache (ctx : Ctx) (workerType id : string) : TT (GoErr + Snapshot) :=
  r ← load_in_tx ctx workerType id;
  result ← match r with
    | inl err => mret (inl err)
    | inr snapshot =>
        syncIDAtCacheTime ← beside_tx (read syncID);
        _ ← beside_tx (set_cache <[cache_key workerType id := mkCached snapshot syncIDAtCacheTime]>);
        mret (inr (cloneSnapshot snapshot))
    end;
  _ ← on_tx Rollback;
  mret result.

Definition LoadSnapshot (ctx : Ctx) (workerType id : string) : T (GoErr + Snapshot) :=
  currentSyncID ← read syncID;
  cache ← read snapshotCache;
  match (match cache !! cache_key workerType id with
         | Some cached => if bool_decide (cached_syncID cached = currentSyncID) then Some cached else None
         | None => None end) with
  | Some cached => mret (inr (cloneSnapshot (snapshot cached)))
  | None =>
      tx ← on_store (BeginTx (Some ctx));
      match tx with
      | inl err => mret (inl (EWrap "failed to begin transaction: " err))
      | inr tx => in_tx tx (load_and_cache ctx workerType id)
      end
  end.

Definition GetLastSyncID : T Z := read syncID.
Definition GetLatestSyncID : T Z := read syncID.
Definition IncrementSyncID : T Z := next_sync_id.
Definition Maintenance : T unit := set_cache (λ _, ∅).

(** *** The change feed *)

Record Delta := mkDelta {
  delta_Changes : option Diff; delta_WorkerType : string; delta_WorkerID : string; delta_Role : string;
  delta_SyncID : Z; delta_TimestampMs : Z }.
Record WorkerSnapshot := mkWorker {
  ws_Identity : option Document; ws_Desired : option Document; ws_Observed : option Document;
  ws_WorkerType : string; ws_WorkerID : string }.
Record BootstrapData := mkBootstrap { Workers : list WorkerSnapshot; AtSyncID : Z; TimestampMs : Z }.
Record DeltasResponse := mkDeltas {
  Bootstrap : option BootstrapData; Deltas : list Delta; LatestSyncID : Z; RequiresBootstrap : bool; HasMore : bool }.

Definition to_delta (e : DeltaEntry) : Delta :=
  mkDelta (Changes e) (WorkerType e) (ID e) (EntryRole e) (SyncID e) (to_UnixMilli (Timestamp e)).

Fixpoint bootstrap_workers (ctx : Ctx) (workerType : string) (identityDocs : list Document) : T (list WorkerSnapshot) :=
  match identityDocs with
  | [] => mret []
  | identityDoc :: rest =>
      found ← match lookup_string identityDoc "id" with
        | None => mret []
        | Some id =>
            snapshot ← LoadSnapshot ctx workerType id;
            mret (match snapshot with
                  | inl _ => []
                  | inr s => [mkWorker (Identity s) (Desired s) (Observed s) workerType id] end)
        end;
      more ← bootstrap_workers ctx workerType rest;
      mret (found ++ more)
  end.

Fixpoint bootstrap_types (ctx : Ctx) (workerTypes : list string) : T (list WorkerSnapshot) :=
  match workerTypes with
  | [] => mret []
  | workerType :: rest =>
      r ← on_store (Find (Some ctx) (collection workerType RoleIdentity));
      found ← match r with inl _ => mret [] | inr identityDocs => bootstrap_workers ctx workerType identityDocs end;
      more ← bootstrap_types ctx rest;
      mret (found ++ more)
  end.

Definition buildBootstrap (ctx : Ctx) (atSyncID : Z) : T BootstrapData :=
  types ← read knownWorkerTypes;
  workers ← bootstrap_types ctx (elements types);
  now ← Now;
  mret (mkBootstrap workers atSyncID (to_UnixMilli now)).

Definition deltaLimit : nat := 100.

Definition bootstrapped (ctx : Ctx) (currentSyncID : Z) : T DeltasResponse :=
  b ← buildBootstrap ctx currentSyncID;
  mret (mkDeltas (Some b) [] currentSyncID true false).

(** The argument is the [LastSyncID] of the subscription.  The error result of
    the Go function, and that of [buildBootstrap], is nil on every path, so that
    the response alone is returned. *)
Definition GetDeltas (ctx : Ctx) (lastSyncID : Z) : T DeltasResponse :=
  currentSyncID ← read syncID;
  if currentSyncID <=? lastSyncID then mret (mkDeltas None [] currentSyncID false false)
  else
    entries ← on_store (GetAllSince ctx lastSyncID deltaLimit);
    match entries with
    | inl err => _ ← warn err; bootstrapped ctx currentSyncID
    | inr [] => bootstrapped ctx currentSyncID
    | inr entries =>
        mret (mkDeltas None (to_delta <$> entries) currentSyncID false (bool_decide (deltaLimit <= length entries)%nat))
    end.

(** *** Compaction *)

Definition ErrMalformedDelta : GoErr := ESentinel "storage" "malformed delta document".

(** The details that follow the text of [ErrMalformedDelta] are left out.  What
    compaction does to a delta: skip it as malformed, keep it, or delete it. *)
Inductive Fate := Malformed | Recent | Expired (id : string).

Definition fate (cutoffMs : Z) (doc : Document) : Fate :=
  match extractTimestampMs doc with
  | None => Malformed
  | Some timestampMs =>
      if timestampMs <? cutoffMs
      then match lookup_string doc "id" with Some id => Expired id | None => Malformed end
      else Recent
  end.

Fixpoint compact (ctx : Ctx) (cutoffMs : Z) (found : list Document) (deleted skipped : nat) : T (nat * option GoErr) :=
  match found with
  | [] => mret (deleted, if decide (skipped = 0%nat) then None else Some (EWrap "" ErrMalformedDelta))
  | doc :: rest =>
      e ← on_store (ctx_Err ctx);
      match e with
      | Some e => mret (deleted, Some e)
      | None =>
          match fate cutoffMs doc with
          | Malformed => compact ctx cutoffMs rest deleted (1 + skipped)
          | Recent => compact ctx cutoffMs rest deleted skipped
          | Expired id =>
              err ← on_store (Delete (Some ctx) DeltaCollectionName id);
              match err with
              | Some err => mret (deleted, Some (EWrap ("failed to delete delta " +:+ id +:+ ": ") err))
              | None => compact ctx cutoffMs rest (1 + deleted) skipped
              end
          end
      end
  end.

Definition CompactDeltas (ctx : Ctx) (retentionWindow : Z) : T (nat * option GoErr) :=
  now ← Now;
  r ← on_store (Find (Some ctx) DeltaCollectionName);
  match r with
  | inl err =>
      mret (0%nat, if IsErr err ErrNotFound then None else Some (EWrap "failed to query deltas for compaction: " err))
  | inr found => compact ctx (to_UnixMilli (now - retentionWindow)) found 0 0
  end.
End triangular.
