(* ===== verification/ChangeFeed.v ===== *)
(** * ChangeFeed: what the deltas of the worker stores mean

    The abstract side of the change feed of [TriangularStore]: the log of the
    deltas in a database, the replica a client builds from it, and the relation
    between the replica and the stored documents.  [synced] allows for changes
    that are stored but not yet logged; a write adds one, an append to the log
    takes one away. *)

From stdpp Require Import sorting.
From S2P Require Import Prelude Float64 GoRuntime GoBytes StateMonad Documents DocumentStore TriangularStore.
From Stdlib Require Import Ascii.
Local Open Scope Z_scope.

(** ** The log *)

(** The document that [Append] stores for an entry, under its sync id. *)
Definition delta_document (e : DeltaEntry) : Document :=
  match Changes e with
  | None => entry_document e
  | Some d => <["changes" := VText (diff_value d)]> (entry_document e)
  end.
Definition delta_key (n : Z) : string := str_of (itoa n).

Definition log_docs (m : Content) : list Document :=
  (map_to_list (filter (λ kv, kv.1.1 = DeltaCollectionName) m)).*2.
Definition delta_log (m : Content) : list DeltaEntry := sortEntriesBySyncID (documentToEntry <$> log_docs m).

(** The entry as it comes back from the store: the values of its changes have
    been through JSON, its time has lost what is below a millisecond. *)
Definition logged (e : DeltaEntry) : DeltaEntry :=
  mkEntry (UnixMilli (to_UnixMilli (Timestamp e))) (json_diff <$> Changes e) (WorkerType e) (ID e) (EntryRole e) (SyncID e).

Lemma documentToEntry_delta e : documentToEntry (delta_document e) = logged e.
Proof.
  unfold documentToEntry, delta_document, logged, lookup_string, lookup_number, extractSyncID.
  destruct e as [t [d|] w i r n]; cbn -[insert lookup value_diff json_value diff_value].
  - rewrite lookup_insert_eq, !lookup_insert_ne, value_diff_value by done.
    unfold entry_document. cbn -[insert lookup]. by simplify_map_eq.
  - unfold entry_document. cbn -[insert lookup]. by simplify_map_eq.
Qed.

Lemma entry_document_id e : entry_document e !! "id"%string = Some (VString (delta_key (SyncID e))).
Proof. unfold entry_document. by rewrite lookup_insert_eq. Qed.

Lemma delta_document_id e : delta_document e !! "id"%string = Some (VString (delta_key (SyncID e))).
Proof. unfold delta_document. destruct (Changes e); [rewrite lookup_insert_ne by done|]; apply entry_document_id. Qed.

(** Every document of the log is stored under its sync id, at most [n]. *)
Definition log_wf (m : Content) (n : Z) : Prop :=
  ∀ i d, m !! (DeltaCollectionName, i) = Some d → i = delta_key (extractSyncID d) ∧ extractSyncID d <= n.

Lemma listing_log m : listing m DeltaCollectionName (log_docs m).
Proof.
  unfold log_docs. set (f := filter _ m). exists ((map_to_list f).*1.*2). split_and!.
  - rewrite <- list_fmap_compose. apply NoDup_fmap_2_strong; [|apply NoDup_map_to_list].
    intros [[c i] d] [[c' i'] d'] H1%elem_of_map_to_list H2%elem_of_map_to_list. cbn. intros ->.
    apply map_lookup_filter_Some in H1 as [H1 E1], H2 as [H2 E2]. cbn in *. subst. by simplify_eq.
  - rewrite <- list_fmap_compose. apply Forall2_fmap_l, Forall2_fmap_r, Forall_Forall2_diag, Forall_forall.
    intros [[c i] d] Hd%elem_of_map_to_list. apply map_lookup_filter_Some in Hd as [Hd E]. cbn in *. by subst.
  - intros i d Hd. rewrite <- list_fmap_compose. apply list_elem_of_fmap. exists (DeltaCollectionName, i, d).
    split; [done|]. apply elem_of_map_to_list, map_lookup_filter_Some. done.
Qed.

Lemma listing_unique m c l l' : listing m c l → listing m c l' → l ≡ₚ l'.
Proof.
  assert (Homap : ∀ ids k, Forall2 (λ i d, m !! (c, i) = Some d) ids k → k = omap (λ i, m !! (c, i)) ids).
  { induction 1 as [|i d ids k Hd _ IH]; [done|]. cbn. rewrite Hd. by f_equal. }
  intros (ids & Hnd & Hall & Hids) (ids' & Hnd' & Hall' & Hids').
  rewrite (Homap _ _ Hall), (Homap _ _ Hall'). apply omap_Permutation, NoDup_Permutation; [done..|].
  intros i. split; intros Hi; apply list_elem_of_lookup in Hi as [n Hn].
  - destruct (Forall2_lookup_l _ _ _ _ _ Hall Hn) as (d & _ & Hd). by eapply Hids'.
  - destruct (Forall2_lookup_l _ _ _ _ _ Hall' Hn) as (d & _ & Hd). by eapply Hids.
Qed.

(** The documents of the log are determined by their sync ids, so that the
    sorted log does not depend on the order in which a store lists them. *)
Lemma sort_unique m n l k : log_wf m n →
  (∀ e, e ∈ l → ∃ i d, m !! (DeltaCollectionName, i) = Some d ∧ e = documentToEntry d) →
  StronglySorted (λ e f, SyncID e <= SyncID f) k → k ≡ₚ l → sortEntriesBySyncID l = k.
Proof.
  intros Hwf Hl Hs Hk.
  assert (Hsort : sortEntriesBySyncID l ≡ₚ l) by apply merge_sort_Permutation.
  apply (StronglySorted_unique_strong (λ e f, SyncID e <= SyncID f)); [| |done|by rewrite Hsort, Hk].
  - intros e f He Hf H1 H2. rewrite Hsort in He. rewrite Hk in Hf.
    destruct (Hl _ He) as (i & d & Hd & ->), (Hl _ Hf) as (i' & d' & Hd' & ->).
    assert (i = i') as <-; [|by simplify_eq].
    rewrite (proj1 (Hwf _ _ Hd)), (proj1 (Hwf _ _ Hd')). cbn in H1, H2. f_equal. lia.
  - apply StronglySorted_merge_sort; [intros e f g; cbn; lia|intros e f; lia].
Qed.

Lemma elem_of_log_entries m e : e ∈ documentToEntry <$> log_docs m ↔ ∃ i d, m !! (DeltaCollectionName, i) = Some d ∧ e = documentToEntry d.
Proof.
  rewrite list_elem_of_fmap. split.
  - intros (d & -> & Hd). apply (listing_elem _ _ _ _ (listing_log m)) in Hd as [i Hi]. eauto.
  - intros (i & d & Hd & ->). exists d. split; [done|]. apply (listing_elem _ _ _ _ (listing_log m)). eauto.
Qed.

(** [n] is above every sync id of the log. *)
Lemma log_bound m n e : log_wf m n → e ∈ delta_log m → SyncID e <= n.
Proof.
  intros Hwf He. unfold delta_log, sortEntriesBySyncID in He. rewrite merge_sort_Permutation in He.
  apply elem_of_log_entries in He as (i & d & Hd & ->). by apply Hwf in Hd as [_ Hd].
Qed.

Lemma delta_log_sorted m : StronglySorted (λ e f, SyncID e <= SyncID f) (delta_log m).
Proof. apply StronglySorted_merge_sort; [intros e f g; cbn; lia|intros e f; lia]. Qed.

Lemma log_docs_insert m i d : m !! (DeltaCollectionName, i) = None →
  log_docs (<[(DeltaCollectionName, i) := d]> m) ≡ₚ d :: log_docs m.
Proof.
  intros Hi. unfold log_docs. rewrite map_filter_insert_True by done.
  rewrite map_to_list_insert; [done|]. apply map_lookup_filter_None. by left.
Qed.

Lemma log_docs_other m c i d : c ≠ DeltaCollectionName → log_docs (<[(c, i) := d]> m) = log_docs m.
Proof.
  intros Hc. unfold log_docs. f_equal. f_equal. by apply map_filter_insert_not.
Qed.

Lemma delta_log_other m c i d : c ≠ DeltaCollectionName → delta_log (<[(c, i) := d]> m) = delta_log m.
Proof. intros Hc. unfold delta_log. by rewrite log_docs_other. Qed.

Definition append_log (e : DeltaEntry) (m : Content) : Content :=
  <[(DeltaCollectionName, delta_key (SyncID e)) := delta_document e]> m.

Lemma append_log_wf m n e : log_wf m n → n < SyncID e → log_wf (append_log e m) (SyncID e).
Proof.
  intros Hwf Hn i d Hd. unfold append_log in Hd.
  destruct (decide (delta_key (SyncID e) = i)) as [<-|Hi].
  - rewrite lookup_insert_eq in Hd. simplify_eq.
    assert (Hs : extractSyncID (delta_document e) = SyncID e) by apply (f_equal SyncID (documentToEntry_delta e)).
    rewrite Hs. split; [done|lia].
  - rewrite lookup_insert_ne in Hd by congruence. apply Hwf in Hd as [? ?]. split; [done|lia].
Qed.

(** An entry with a new sync id goes to the end of the log. *)
Lemma delta_log_append m n e : log_wf m n → n < SyncID e → m !! (DeltaCollectionName, delta_key (SyncID e)) = None →
  delta_log (append_log e m) = delta_log m ++ [logged e].
Proof.
  intros Hwf Hn Hnew. unfold delta_log at 1.
  apply (sort_unique (append_log e m) (SyncID e)); [by eapply append_log_wf|by intros f Hf; apply elem_of_log_entries| |].
  - apply StronglySorted_app_2; [|apply delta_log_sorted|repeat constructor].
    intros f g Hf ->%list_elem_of_singleton. apply (log_bound _ _ _ Hwf) in Hf. cbn. lia.
  - unfold append_log. rewrite log_docs_insert by done. rewrite fmap_cons, documentToEntry_delta.
    unfold delta_log, sortEntriesBySyncID. rewrite merge_sort_Permutation. by rewrite Permutation_app_comm.
Qed.

(** The entries after a sync id, and what [GetAllSince] makes of any listing of the log. *)
Definition log_after (n : Z) (m : Content) : list DeltaEntry := filter (λ e, n < SyncID e) (delta_log m).

Lemma filter_sorted (n : Z) l : StronglySorted (λ e f, SyncID e <= SyncID f) l →
  StronglySorted (λ e f, SyncID e <= SyncID f) (filter (λ e, n < SyncID e) l).
Proof.
  induction 1 as [|e l Hl IH He]; [constructor|]. rewrite filter_cons. destruct (decide _); [|done]. constructor; [done|].
  rewrite Forall_forall in He |- *. intros f Hf. apply list_elem_of_filter in Hf as [_ Hf]. by apply He.
Qed.

Lemma omap_since n (l : list Document) : omap (since n) l = filter (λ e, n < SyncID e) (documentToEntry <$> l).
Proof.
  induction l as [|d l IH]; [done|]. cbn [omap list_omap fmap list_fmap]. unfold since at 1. rewrite filter_cons, <- IH.
  change (SyncID (documentToEntry d)) with (extractSyncID d).
  destruct (extractSyncID d <=? n) eqn:E; [rewrite decide_False by lia|rewrite decide_True by lia]; done.
Qed.

Lemma sorted_since m k n l : log_wf m k → listing m DeltaCollectionName l → sortEntriesBySyncID (omap (since n) l) = log_after n m.
Proof.
  intros Hwf Hl. rewrite omap_since. apply (sort_unique m k); [done|..].
  - intros e [_ He]%list_elem_of_filter. apply list_elem_of_fmap in He as (d & -> & Hd).
    apply (listing_elem _ _ _ _ Hl) in Hd as [i Hi]. eauto.
  - apply filter_sorted, delta_log_sorted.
  - unfold log_after, delta_log, sortEntriesBySyncID. rewrite merge_sort_Permutation.
    by rewrite (listing_unique _ _ _ _ Hl (listing_log m)).
Qed.

Lemma log_after_end m k n : log_wf m k → k <= n → log_after n m = [].
Proof.
  intros Hwf Hk. unfold log_after. destruct (filter _ _) as [|e l] eqn:E; [done|].
  assert (He : e ∈ filter (λ e, n < SyncID e) (delta_log m)) by (rewrite E; left).
  apply list_elem_of_filter in He as [Hn He]. apply (log_bound _ _ _ Hwf) in He. lia.
Qed.

(** No two entries of the log have the same sync id. *)
Lemma log_ids_unique m n : log_wf m n → NoDup (SyncID <$> delta_log m).
Proof.
  intros Hwf. unfold delta_log, sortEntriesBySyncID. rewrite merge_sort_Permutation, <- list_fmap_compose.
  destruct (listing_log m) as (ids & Hnd & Hall & _). apply (NoDup_fmap_1 delta_key). rewrite <- list_fmap_compose.
  replace (_ <$> log_docs m) with ids; [done|]. clear Hnd.
  induction Hall as [|i d ids l Hd _ IH]; [done|]. cbn. f_equal; [by apply Hwf in Hd as [-> _]|done].
Qed.

Lemma strictly_sorted l : StronglySorted (λ e f, SyncID e <= SyncID f) l → NoDup (SyncID <$> l) →
  StronglySorted (λ e f, SyncID e < SyncID f) l.
Proof.
  induction 1 as [|e l Hl IH He]; [constructor|]. rewrite fmap_cons, NoDup_cons. intros [Hne Hnd]. constructor; [by apply IH|].
  rewrite Forall_forall in He |- *. intros f Hf. specialize (He f Hf).
  assert (SyncID e ≠ SyncID f); [|lia]. intros Heq. apply Hne. rewrite Heq. by apply list_elem_of_fmap_2.
Qed.

Lemma filter_none (P : DeltaEntry → Prop) `{!∀ e, Decision (P e)} (l : list DeltaEntry) : (∀ e, e ∈ l → ¬ P e) → filter P l = [].
Proof.
  intros Hl. destruct (filter P l) as [|e l'] eqn:E; [done|].
  assert (He : e ∈ filter P l) by (rewrite E; left). apply list_elem_of_filter in He as [Hp He]. by destruct (Hl e He).
Qed.

Lemma filter_all (P : DeltaEntry → Prop) `{!∀ e, Decision (P e)} (l : list DeltaEntry) : (∀ e, e ∈ l → P e) → filter P l = l.
Proof.
  induction l as [|e l IH]; intros Hl; [done|]. rewrite filter_cons, decide_True by (apply Hl; left).
  f_equal. apply IH. intros f Hf. apply Hl. by right.
Qed.

(** Past an entry of a strictly sorted list comes the rest of the list. *)
Lemma filter_past a e b : StronglySorted (λ e f, SyncID e < SyncID f) (a ++ e :: b) →
  filter (λ f, SyncID e < SyncID f) (a ++ e :: b) = b.
Proof.
  intros Hs. rewrite filter_app, filter_cons, decide_False by lia.
  rewrite filter_none, filter_all; [done| |].
  - intros f Hf. apply StronglySorted_app_1_r in Hs. inversion Hs as [|? ? _ Hall]; subst.
    rewrite Forall_forall in Hall. by apply Hall.
  - intros f Hf. assert (He : e ∈ e :: b) by left.
    pose proof (StronglySorted_app_1_elem_of _ _ _ f e Hs Hf He) as Hlt. cbn in Hlt. lia.
Qed.

Lemma log_after_twice m n k : n <= k → log_after k m = filter (λ e, k < SyncID e) (log_after n m).
Proof.
  intros Hk. unfold log_after. induction (delta_log m) as [|e l IH]; [done|]. rewrite !filter_cons.
  destruct (decide (n < SyncID e)) as [Hn|Hn].
  - rewrite filter_cons, IH. done.
  - rewrite decide_False by lia. exact IH.
Qed.

(** A page of the log and what comes after its last entry. *)
Lemma log_page m k n limit : log_wf m k → (0 < limit)%nat →
  let page := take limit (log_after n m) in
  log_after n m = page ++ log_after (default n (SyncID <$> last page)) m.
Proof.
  intros Hwf Hlim page. destruct (last page) as [e|] eqn:E; cbn.
  - apply last_Some in E as [l E]. assert (Hsplit : log_after n m = l ++ e :: drop limit (log_after n m)).
    { rewrite <- (take_drop limit (log_after n m)) at 1. fold page. by rewrite E, <- app_assoc. }
    assert (He : e ∈ log_after n m) by (rewrite Hsplit; apply elem_of_app; right; left).
    apply list_elem_of_filter in He as [Hn _]. rewrite (log_after_twice m n (SyncID e)) by lia.
    assert (Hs : StronglySorted (λ e f, SyncID e < SyncID f) (log_after n m)).
    { apply strictly_sorted; [apply filter_sorted, delta_log_sorted|].
      eapply sublist_NoDup; [by eapply log_ids_unique|]. apply fmap_sublist, sublist_filter. }
    rewrite Hsplit in Hs |- *. rewrite filter_past by done. by rewrite E, <- app_assoc.
  - apply last_None in E. by rewrite E.
Qed.

(** ** The replica *)

Definition concerns (workerType : string) (role : Role) (id : string) (e : DeltaEntry) : Prop :=
  WorkerType e = workerType ∧ EntryRole e = role_name role ∧ ID e = id.
#[export] Instance concerns_dec workerType role id e : Decision (concerns workerType role id e).
Proof. unfold concerns. solve_decision. Defined.

Definition replay_one (workerType : string) (role : Role) (id : string) (doc : Document) (e : DeltaEntry) : Document :=
  if decide (concerns workerType role id e) then apply_changes (Changes e) doc else doc.
Definition replica (l : list DeltaEntry) (workerType : string) (role : Role) (id : string) : Document :=
  foldl (replay_one workerType role id) ∅ l.

Lemma replica_snoc l e workerType role id :
  replica (l ++ [e]) workerType role id = replay_one workerType role id (replica l workerType role id) e.
Proof. unfold replica. by rewrite foldl_app. Qed.

(** The fields the store writes for itself alone; the tombstone is not among them. *)
Definition hidden : list string := ["id"; FieldSyncID; FieldVersion; FieldCreatedAt; FieldUpdatedAt].

Definition role_document (m : Content) (workerType : string) (role : Role) (id : string) : Document :=
  default ∅ (m !! (collection workerType role, id)).

(** A client that has replayed [l] has every visible field of every role document. *)
Definition agrees (l : list DeltaEntry) (m : Content) : Prop := ∀ workerType role id k, k ∉ hidden →
  replica l workerType role id !! k = json_value <$> (role_document m workerType role id !! k).

(** The log brings a client up to date once the changes of [pending] are in it. *)
Definition synced (pending : list DeltaEntry) (m : Content) : Prop := agrees (delta_log m ++ (logged <$> pending)) m.

(** ** The collections of the roles are apart *)

Lemma list_ascii_app (a b : string) :
  String.list_ascii_of_string (a +:+ b) = String.list_ascii_of_string a ++ String.list_ascii_of_string b.
Proof. induction a as [|x a IH]; [done|]. cbn. by rewrite <- IH. Qed.

Lemma collection_letters workerType role :
  rev (String.list_ascii_of_string (collection workerType role)) =
  rev (lit (role_name role)) ++ "_"%char :: rev (String.list_ascii_of_string workerType).
Proof. unfold collection. rewrite !list_ascii_app, !rev_app_distr. by rewrite <- app_assoc. Qed.

Lemma collection_inj w r w' r' : collection w r = collection w' r' → w = w' ∧ r = r'.
Proof.
  intros Heq. assert (Hl : rev (String.list_ascii_of_string (collection w r)) = rev (String.list_ascii_of_string (collection w' r')))
    by (by rewrite Heq).
  rewrite !collection_letters in Hl.
  destruct r, r'; cbn in Hl; try discriminate; split; try done; simplify_eq;
    apply (f_equal (@rev _)) in Hl; rewrite !rev_involutive in Hl;
    rewrite <- (String.string_of_list_ascii_of_string w), Hl; apply String.string_of_list_ascii_of_string.
Qed.

Lemma collection_not_log w r : collection w r ≠ DeltaCollectionName.
Proof.
  intros Heq. assert (Hl : rev (String.list_ascii_of_string (collection w r)) = rev (lit DeltaCollectionName)) by (by rewrite Heq).
  rewrite collection_letters in Hl. destruct r; discriminate.
Qed.

Lemma role_document_write m w r i d w' r' i' :
  role_document (<[(collection w r, i) := d]> m) w' r' i' =
  if decide (w = w' ∧ r = r' ∧ i = i') then d else role_document m w' r' i'.
Proof.
  unfold role_document. destruct (decide _) as [(<- & <- & <-)|Hn]; [by rewrite lookup_insert_eq|].
  rewrite lookup_insert_ne; [done|]. intros [= Hc Hi]. apply collection_inj in Hc as [-> ->]. tauto.
Qed.

(** ** Writes and appends *)

(** The entry tells what has become of the document, up to the hidden fields. *)
Definition tells (e : DeltaEntry) (old new : Document) : Prop :=
  ∀ k, k ∉ hidden → apply_changes (Changes e) old !! k = new !! k.

(** A client that follows the log without this entry sees no difference either. *)
Definition alike (old new : Document) : Prop := ∀ k, k ∉ hidden → old !! k = new !! k.

Lemma role_name_inj r r' : role_name r = role_name r' → r = r'.
Proof. by destruct r, r'. Qed.

Lemma agrees_write l m e workerType role id d :
  WorkerType e = workerType → EntryRole e = role_name role → ID e = id →
  tells e (role_document m workerType role id) d →
  agrees l m → agrees (l ++ [logged e]) (<[(collection workerType role, id) := d]> m).
Proof.
  intros Hw Hr Hi Ht Ha w' r' i' k Hk. rewrite replica_snoc, role_document_write. unfold replay_one, concerns. cbn.
  destruct (decide (workerType = w' ∧ role = r' ∧ id = i')) as [(<- & <- & <-)|Hn].
  - rewrite decide_True by done. rewrite <- Ht by done. apply json_apply_lookup. by apply Ha.
  - rewrite decide_False; [by apply Ha|]. rewrite Hw, Hr, Hi. intros (? & Hr' & ?).
    apply role_name_inj in Hr'. tauto.
Qed.

Lemma synced_write pending m e workerType role id d :
  WorkerType e = workerType → EntryRole e = role_name role → ID e = id →
  tells e (role_document m workerType role id) d →
  synced pending m → synced (pending ++ [e]) (<[(collection workerType role, id) := d]> m).
Proof.
  intros Hw Hr Hi Ht Hs. unfold synced. rewrite delta_log_other by apply collection_not_log.
  rewrite fmap_app, app_assoc. by eapply agrees_write.
Qed.

Lemma synced_silent m workerType role id d :
  alike (role_document m workerType role id) d → synced [] m → synced [] (<[(collection workerType role, id) := d]> m).
Proof.
  intros Hd Hs. unfold synced in *. rewrite delta_log_other by apply collection_not_log.
  intros w' r' i' k Hk. rewrite role_document_write, (Hs _ _ _ _ Hk).
  destruct (decide _) as [(<- & <- & <-)|]; [|done]. f_equal. by apply Hd.
Qed.

Lemma role_document_append e m w r i : role_document (append_log e m) w r i = role_document m w r i.
Proof.
  unfold role_document, append_log. rewrite lookup_insert_ne; [done|]. intros [= Hc _]. by apply (collection_not_log w r).
Qed.

Lemma synced_append e pending m n : log_wf m n → n < SyncID e →
  m !! (DeltaCollectionName, delta_key (SyncID e)) = None → synced (e :: pending) m → synced pending (append_log e m).
Proof.
  intros Hwf Hn Hnew Hs w r i k Hk. rewrite (delta_log_append _ _ _ Hwf Hn Hnew), <- app_assoc.
  rewrite role_document_append. by apply Hs.
Qed.
