(* ===== verification/TriangularFacts.v ===== *)
(** * TriangularFacts: what the worker stores guarantee

    The effect of each operation of [TriangularStore] on the content of any
    store that keeps the promises of [DocumentStore], as weakest preconditions:
    saves, tombstones and the edits of loaded documents. *)

From stdpp Require Import sorting.
From S2P Require Import Prelude Float64 GoRuntime GoBytes StateMonad Documents DocumentStore TriangularStore ChangeFeed.
Local Open Scope Z_scope.

(** ** What a save writes *)

(** The caller's document, as [writeDocument] leaves it. *)
Definition stamped (existing : option Document) (opts : SaveOptions) (n : Z) (now : Time) (doc : Document) : Document :=
  metadata (<[FieldSyncID := VInt64 n]> (keep_stored existing opts doc)) opts (bool_decide (existing = None)) now.

(** A document carries both fields of a tombstone, or neither. *)
Definition tombstone_wf (d : Document) : Prop :=
  if hasTombstone d then is_Some (d !! FieldDeletedAt) ∧ is_Some (d !! FieldDeletedBy)
  else d !! FieldDeletedAt = None ∧ d !! FieldDeletedBy = None.

Ltac decided := apply (bool_decide_unpack _); vm_compute; exact I.

Definition tombstone_fields : list string := [FieldDeletedAt; FieldDeletedBy].

Lemma lookup_metadata doc opts new now k :
  k ∉ [FieldVersion; FieldCreatedAt; FieldUpdatedAt] → metadata doc opts new now !! k = doc !! k.
Proof.
  rewrite !not_elem_of_cons. intros (Hv & Hc & Hu & _). unfold metadata.
  destruct new, (IncrementVersion opts); by rewrite !lookup_insert_ne by congruence.
Qed.

Lemma lookup_keep_stored existing opts doc k : k ≠ FieldVersion →
  keep_stored existing opts doc !! k =
  if decide (k ∈ tombstone_fields)
  then match existing with
       | Some e => if hasTombstone e then Some (default VNil (e !! k)) else None
       | None => None end
  else doc !! k.
Proof.
  intros Hv. assert (Hver : ∀ (o : option Value) d, match o with Some v => <[FieldVersion := v]> d | None => d end !! k = (d : Document) !! k).
  { intros [v|] d; [by rewrite lookup_insert_ne|done]. }
  unfold keep_stored, copy_field. destruct (decide (k ∈ tombstone_fields)) as [Hk|Hk].
  - destruct existing as [e|]; [destruct (IncrementVersion opts); rewrite ?Hver; destruct (hasTombstone e)|];
      unfold tombstone_fields in Hk; rewrite !elem_of_cons in Hk; destruct Hk as [->|[->|Hk%not_elem_of_nil]]; try done; by simplify_map_eq.
  - unfold tombstone_fields in Hk. rewrite !not_elem_of_cons in Hk. destruct Hk as (Ha & Hb & _).
    destruct existing as [e|]; [destruct (IncrementVersion opts); rewrite ?Hver; destruct (hasTombstone e)|];
      rewrite ?lookup_insert_ne, !lookup_delete_ne by congruence; done.
Qed.

(** A field that a save does not manage is the caller's. *)
Lemma lookup_stamped existing opts n now doc k :
  k ∉ [FieldVersion; FieldCreatedAt; FieldUpdatedAt; FieldSyncID] →
  stamped existing opts n now doc !! k =
  if decide (k ∈ tombstone_fields)
  then match existing with
       | Some e => if hasTombstone e then Some (default VNil (e !! k)) else None
       | None => None end
  else doc !! k.
Proof.
  rewrite !not_elem_of_cons. intros (Hv & Hc & Hu & Hs & _). unfold stamped.
  rewrite lookup_metadata by (rewrite !not_elem_of_cons; auto using not_elem_of_nil). rewrite lookup_insert_ne by congruence.
  by apply lookup_keep_stored.
Qed.

Lemma stamped_id existing opts n now doc : stamped existing opts n now doc !! "id"%string = doc !! "id"%string.
Proof.
  rewrite lookup_stamped by decided. by rewrite decide_False by decided.
Qed.

Lemma hasTombstone_lookup d d' : d !! FieldDeletedAt = d' !! FieldDeletedAt → hasTombstone d = hasTombstone d'.
Proof. unfold hasTombstone. by intros ->. Qed.

(** A save keeps the tombstone of the stored document, and adds none. *)
Lemma stamped_tombstone existing opts n now doc k : k ∈ tombstone_fields →
  (∀ e, existing = Some e → tombstone_wf e) →
  stamped existing opts n now doc !! k = default ∅ existing !! k.
Proof.
  intros Hk Hwf. rewrite lookup_stamped.
  - rewrite decide_True by done. destruct existing as [e|]; cbn; [|by rewrite lookup_empty].
    specialize (Hwf e eq_refl). unfold tombstone_wf in Hwf.
    unfold tombstone_fields in Hk. rewrite !elem_of_cons in Hk.
    destruct (hasTombstone e), Hwf as [Ha Hb], Hk as [->|[->|Hk%not_elem_of_nil]]; try done.
    + by destruct Ha as [v ->].
    + by destruct Hb as [v ->].
  - unfold tombstone_fields in Hk. rewrite !elem_of_cons in Hk.
    destruct Hk as [->|[->|Hk%not_elem_of_nil]]; [decided..|done].
Qed.

Lemma stamped_wf existing opts n now doc :
  (∀ e, existing = Some e → tombstone_wf e) → tombstone_wf (stamped existing opts n now doc).
Proof.
  intros Hwf. assert (Ha : FieldDeletedAt ∈ tombstone_fields) by left.
  assert (Hb : FieldDeletedBy ∈ tombstone_fields) by (right; left). unfold tombstone_wf.
  rewrite (hasTombstone_lookup _ (default ∅ existing)) by by apply stamped_tombstone.
  rewrite !stamped_tombstone by done. destruct existing as [e|]; [by apply Hwf|done].
Qed.

(** The difference a save computes tells what has become of the visible fields. *)
Lemma save_tells existing opts n now doc role :
  (∀ e, existing = Some e → tombstone_wf e) →
  ∀ k, k ∉ hidden →
  apply_changes (match existing with
                 | None => computeCreatedDiff (Some doc) role
                 | Some e => computeDiff (business e role) (business doc role) end) (default ∅ existing) !! k
  = stamped existing opts n now doc !! k.
Proof.
  intros Hwf k Hk. destruct (decide (k ∈ tombstone_fields)) as [Ht|Ht].
  - rewrite stamped_tombstone by done.
    assert (Hb : ∀ d, business d role !! k = None).
    { intros d. rewrite lookup_business, decide_True; [done|]. unfold tombstone_fields in Ht. rewrite !elem_of_cons in Ht |- *.
      destruct Ht as [->|[->|Ht%not_elem_of_nil]]; [..|done]; right; right; destruct role; decided. }
    destruct existing as [e|]; cbn -[apply_changes computeCreatedDiff].
    + by rewrite computeDiff_untouched.
    + rewrite computeCreatedDiff_apply. by rewrite Hb.
  - assert (Hb : ∀ d, business d role !! k = d !! k).
    { intros d. rewrite lookup_business, decide_False; [done|]. unfold hidden, tombstone_fields in *.
      repeat rewrite not_elem_of_cons in Hk; repeat rewrite not_elem_of_cons in Ht.
      destruct role; unfold getCSEFields, IdentityCSEFields, DesiredCSEFields, ObservedCSEFields;
        repeat rewrite not_elem_of_cons; tauto. }
    assert (Hs : stamped existing opts n now doc !! k = doc !! k).
    { rewrite lookup_stamped, decide_False; [done..|]. unfold hidden in Hk.
      repeat rewrite not_elem_of_cons in Hk; repeat rewrite not_elem_of_cons; tauto. }
    rewrite Hs, <- (Hb doc). destruct existing as [e|]; cbn -[apply_changes computeCreatedDiff].
    + apply computeDiff_lookup. by rewrite Hb.
    + by rewrite computeCreatedDiff_apply.
Qed.

(** ** The effect of the operations *)

Section effects.
Context {S Tx : Type} `{StoreLaws S Tx}.

Abbreviation TS := (TriangularStore S).

Definition content (t : TS) : Content := docs (store t).

(** Nothing a client can see has changed. *)
Definition same (t t' : TS) : Prop :=
  content t' = content t ∧ syncID t' = syncID t ∧ snapshotCache t' = snapshotCache t ∧
  knownWorkerTypes t' = knownWorkerTypes t ∧ warned t' = warned t.

Lemma same_refl t : same t t.
Proof. done. Qed.

Lemma same_trans t u v : same t u → same u v → same t v.
Proof. intros (? & ? & ? & ? & ?) (? & ? & ? & ? & ?). repeat split; congruence. Qed.

Lemma on_store_wp {A} (m : St S A) (Q : A → TS → Prop) t :
  st_wp m (λ a s', Q a (mkTS s' (syncID t) (snapshotCache t) (knownWorkerTypes t) (warned t))) (store t) →
  st_wp (on_store m) Q t.
Proof. unfold st_wp, on_store. by destruct (m (store t)). Qed.

Lemma Now_wp t : st_wp Now (λ _ t', same t t') t.
Proof. apply on_store_wp. unfold st_wp. repeat split. apply clock_law. Qed.

Lemma Load_wp ctx c i t : st_wp (on_store (Get (Some ctx) c i)) (λ r t', same t t' ∧ match r with
  | inl e => IsErr e ErrNotFound = true → content t !! (c, i) = None
  | inr d => content t !! (c, i) = Some d end) t.
Proof. apply on_store_wp. eapply st_wp_mono; [apply Get_law|]. cbn. intros r s' [Hs Hr]. split; [by repeat split|done]. Qed.

Lemma hierarchyPath_wp ctx w i t : st_wp (hierarchyPath ctx w i) (λ _ t', same t t') t.
Proof.
  apply st_wp_bind. eapply st_wp_mono; [apply Load_wp|]. cbn. intros r t' [Ht _]. by apply st_wp_ret.
Qed.

(** An append that is not logged as failed has put the entry into the log. *)
Definition appended (e : DeltaEntry) (t t' : TS) : Prop :=
  syncID t' = syncID t ∧ snapshotCache t' = snapshotCache t ∧ knownWorkerTypes t' = knownWorkerTypes t ∧
  ((warned t' = warned t ∧ content t !! (DeltaCollectionName, delta_key (SyncID e)) = None ∧ content t' = append_log e (content t)) ∨
   ((∃ err, warned t' = warned t ++ [err]) ∧ content t' = content t)).

Lemma insert_delta_wp ctx (d : Document) k s : d !! "id"%string = Some (VString k) →
  st_wp (insert_delta ctx d) (λ r s', match r with
    | Some _ => docs s' = docs s
    | None => docs s !! (DeltaCollectionName, k) = None ∧ docs s' = <[(DeltaCollectionName, k) := d]> (docs s) end) s.
Proof.
  intros Hk. apply st_wp_bind. eapply st_wp_mono; [apply Insert_law|]. intros [e|i] s' Hr; apply st_wp_ret; [done|].
  destruct Hr as (Hi & _ & Hn & Hs). by simplify_eq.
Qed.

Lemma Append_wp ctx e s :
  st_wp (Append ctx e) (λ r s', match r with
    | Some _ => docs s' = docs s
    | None => docs s !! (DeltaCollectionName, delta_key (SyncID e)) = None ∧ docs s' = append_log e (docs s) end) s.
Proof.
  unfold Append, append_log, delta_document. destruct (Changes e) as [d|].
  - destruct (json_ok _); [|done]. apply insert_delta_wp. rewrite lookup_insert_ne by done. apply entry_document_id.
  - apply insert_delta_wp, entry_document_id.
Qed.

Lemma appendDeltaOrWarn_wp ctx e t : st_wp (appendDeltaOrWarn ctx e) (λ _ t', appended e t t') t.
Proof.
  apply st_wp_bind, on_store_wp. eapply st_wp_mono; [apply Append_wp|]. cbn. intros [err|] s' Hr.
  - apply st_wp_bind. eapply st_wp_mono; [apply hierarchyPath_wp|]. intros _ u (Hc & Hn & Hk & Hw & Hl).
    unfold st_wp, warn; cbn. repeat split; try done. right. unfold content in *. cbn in *. split; [|congruence].
    exists err. congruence.
  - apply st_wp_ret. repeat split; try done. left. unfold content. by destruct Hr.
Qed.

(** ** The saves *)

(** [t'] is [t] with the content [m] and the warnings [l]. *)
Definition with_content (m : Content) (l : list GoErr) (t t' : TS) : Prop :=
  content t' = m ∧ syncID t' = syncID t ∧ snapshotCache t' = snapshotCache t ∧
  knownWorkerTypes t' = knownWorkerTypes t ∧ warned t' = l.

Lemma insert_or_update_wp ctx c id new doc t : doc !! "id"%string = Some (VString id) →
  st_wp (insert_or_update ctx c id new doc) (λ r t',
    with_content (match r with None => <[(c, id) := doc]> (content t) | Some _ => content t end) (warned t) t t') t.
Proof.
  intros Hid. unfold insert_or_update, with_content. destruct new.
  - apply st_wp_bind, on_store_wp. eapply st_wp_mono; [apply Insert_law|]. intros [e|i] s' Hr; apply st_wp_ret; [done|].
    destruct Hr as (Hi & _ & _ & Hs). by simplify_eq.
  - apply on_store_wp. eapply st_wp_mono; [apply Update_law|]. intros [e|] s' Hr; [done|]. by destruct Hr as [_ Hs].
Qed.

(** The change is logged, or a warning is; without a difference there is nothing to log. *)
Definition feeds (workerType id : string) (role : Role) (n : Z) (diff : option Diff) (t t' : TS) : Prop :=
  match diff with
  | None => with_content (content t) (warned t) t t'
  | Some _ => ∃ now, appended (mkEntry now diff workerType id (role_name role) n) t t'
  end.

Lemma append_diff_wp ctx workerType id role n diff t :
  st_wp (append_diff ctx workerType id role n diff) (λ _ t', feeds workerType id role n diff t t') t.
Proof.
  unfold append_diff, feeds. destruct diff as [d|]; [|by apply st_wp_ret].
  apply st_wp_bind. eapply st_wp_mono; [apply Now_wp|]. intros now u (Hc & Hn & Hs & Hk & Hw).
  eapply st_wp_mono; [apply appendDeltaOrWarn_wp|]. intros _ t' (Hn' & Hs' & Hk' & Hl). exists now.
  unfold appended. rewrite <- Hc, <- Hn, <- Hs, <- Hk, <- Hw. done.
Qed.

(** The outcome of [store_document]: a failure, which may spend a sync id, or
    the document stored and its difference fed to the log. *)
Definition stored (workerType id : string) (doc : Document) (opts : SaveOptions) (existing : option Document)
    (diff : option Diff) (t : TS) (ok : bool) (doc' : Document) (t' : TS) : Prop :=
  let n := wrap_i64 (syncID t + 1) in
  (∃ now, doc' = stamped existing opts n now doc) ∧
  if ok then ∃ u v, content u = <[(collection workerType (opt_Role opts), id) := doc']> (content t) ∧
    syncID u = n ∧ snapshotCache u = snapshotCache t ∧ knownWorkerTypes u = knownWorkerTypes t ∧ warned u = warned t ∧
    feeds workerType id (opt_Role opts) n diff u v ∧
    t' = mkTS (store v) (syncID v) (delete (cache_key workerType id) (snapshotCache v)) (knownWorkerTypes v) (warned v)
  else content t' = content t ∧ syncID t' = n ∧ snapshotCache t' = snapshotCache t ∧
    knownWorkerTypes t' = knownWorkerTypes t ∧ warned t' = warned t.

Lemma store_document_wp ctx workerType id doc opts existing changes diff t :
  doc !! "id"%string = Some (VString id) →
  st_wp (store_document ctx workerType id doc opts existing changes diff) (λ '(r, doc') t',
    match r with
    | inl _ => stored workerType id doc opts existing diff t false doc' t'
    | inr res => res = mkResult (bool_decide (existing = None)) true changes diff ∧
        stored workerType id doc opts existing diff t true doc' t' end) t.
Proof.
  intros Hid. unfold store_document, injectMetadataWithOptions.
  apply st_wp_bind. unfold st_wp at 1, next_sync_id. cbn -[metadata]. set (n := wrap_i64 (syncID t + 1)). set (t1 := mkTS _ n _ _ _).
  apply st_wp_bind, st_wp_bind. eapply st_wp_mono; [apply Now_wp|]. intros now u (Hc & Hn & Hs & Hk & Hw). apply st_wp_ret.
  change (content t1) with (content t) in Hc. cbn in Hn, Hs, Hk, Hw.
  change (metadata _ _ _ _) with (stamped existing opts n now doc).
  apply st_wp_bind. eapply st_wp_mono; [apply insert_or_update_wp; by rewrite stamped_id|].
  intros [e|] v (Hc' & Hn' & Hs' & Hk' & Hw').
  - apply st_wp_ret. cbn in *. split; [by exists now|]. subst n. split_and!; congruence.
  - apply st_wp_bind. eapply st_wp_mono; [apply append_diff_wp|]. intros [] x Hx.
    unfold st_wp. cbn. split; [done|]. split; [by exists now|]. exists v, x. cbn in *.
    rewrite Hc', Hc. subst n. split_and!; [done|congruence..|done|done].
Qed.

(** A save that finds nothing new. *)
Definition touched (workerType id : string) (opts : SaveOptions) (e : Document) (t : TS) (r : GoErr + saveResult) (t' : TS) : Prop :=
  match r with
  | inl _ => same t t'
  | inr res => res = mkResult false false [] None ∧
      if UpdateTimestampOnNoChange opts
      then (∃ now, content t' = <[(collection workerType (opt_Role opts), id) := <[FieldUpdatedAt := VTime now]> e]> (content t)) ∧
        syncID t' = syncID t ∧ snapshotCache t' = delete (cache_key workerType id) (snapshotCache t) ∧
        knownWorkerTypes t' = knownWorkerTypes t ∧ warned t' = warned t
      else same t t'
  end.

Lemma invalidate_wp {A} w i (a : A) (Q : A → TS → Prop) t :
  Q a (mkTS (store t) (syncID t) (delete (cache_key w i) (snapshotCache t)) (knownWorkerTypes t) (warned t)) →
  st_wp (_ ← invalidateSnapshot w i; mret a) Q t.
Proof. done. Qed.

Lemma touch_document_wp ctx workerType id opts e t :
  st_wp (touch_document ctx workerType id opts e) (λ r t', touched workerType id opts e t r t') t.
Proof.
  unfold touch_document, touched. destruct (UpdateTimestampOnNoChange opts); [|by apply st_wp_ret].
  apply st_wp_bind. eapply st_wp_mono; [apply Now_wp|]. intros now u (Hc & Hn & Hs & Hk & Hw).
  apply st_wp_bind, on_store_wp. eapply st_wp_mono; [apply Update_law|]. intros [err|] s' Hr.
  - apply st_wp_ret. cbn. unfold same, content in *. cbn. split_and!; congruence.
  - destruct Hr as [_ Hr]. apply invalidate_wp. split; [done|]. unfold content in *. cbn.
    split_and!; [exists now; by rewrite Hr, Hc|congruence..].
Qed.

(** Whether there is something to write, and the difference that is computed. *)
Definition news (doc : Document) (opts : SaveOptions) (existing : option Document) : Prop :=
  match existing with
  | None => True
  | Some e => SkipDeltaCheck opts = true ∨ ¬ nothing_new (opt_Role opts) e doc
  end.
Definition difference (doc : Document) (opts : SaveOptions) (existing : option Document) : option Diff :=
  if SkipDeltaCheck opts then None
  else match existing with
       | None => computeCreatedDiff (Some doc) (opt_Role opts)
       | Some e => computeDiff (business e (opt_Role opts)) (business doc (opt_Role opts)) end.

Inductive save_outcome (workerType id : string) (doc : Document) (opts : SaveOptions) (t : TS)
  : GoErr + saveResult → Document → TS → Prop :=
  | save_unread err t' : same t t' → save_outcome workerType id doc opts t (inl err) doc t'
  | save_unchanged e r t' :
      content t !! (collection workerType (opt_Role opts), id) = Some e → nothing_new (opt_Role opts) e doc →
      touched workerType id opts e t r t' → save_outcome workerType id doc opts t r doc t'
  | save_failed existing err doc' t' :
      content t !! (collection workerType (opt_Role opts), id) = existing → news doc opts existing →
      stored workerType id doc opts existing (difference doc opts existing) t false doc' t' →
      save_outcome workerType id doc opts t (inl err) doc' t'
  | save_written existing changes doc' t' :
      content t !! (collection workerType (opt_Role opts), id) = existing → news doc opts existing →
      stored workerType id doc opts existing (difference doc opts existing) t true doc' t' →
      save_outcome workerType id doc opts t
        (inr (mkResult (bool_decide (existing = None)) true changes (difference doc opts existing))) doc' t'.

Lemma same_stored workerType id doc opts existing diff t u ok doc' t' :
  same t u → stored workerType id doc opts existing diff u ok doc' t' → stored workerType id doc opts existing diff t ok doc' t'.
Proof.
  unfold stored. intros (-> & -> & -> & -> & ->). done.
Qed.

Lemma same_touched workerType id opts e t u r t' :
  same t u → touched workerType id opts e u r t' → touched workerType id opts e t r t'.
Proof. unfold touched, same. intros (-> & -> & -> & -> & ->). done. Qed.

Lemma writeDocument_wp ctx workerType id doc opts t : doc !! "id"%string = Some (VString id) →
  st_wp (writeDocument ctx workerType id doc opts) (λ '(r, doc') t', save_outcome workerType id doc opts t r doc' t') t.
Proof.
  intros Hid. unfold writeDocument.
  assert (Hstore : ∀ existing changes u, same t u → news doc opts existing →
    content t !! (collection workerType (opt_Role opts), id) = existing →
    st_wp (store_document ctx workerType id doc opts existing changes (difference doc opts existing))
      (λ '(r, doc') t', save_outcome workerType id doc opts t r doc' t') u).
  { intros existing changes u Hu Hnews Hex. eapply st_wp_mono; [by apply store_document_wp|].
    intros [[err|res] doc'] t'; [|intros [-> Hs]]; [intros Hs|]; (eapply same_stored in Hs; [|done]).
    - by eapply save_failed. - by eapply save_written. }
  apply st_wp_bind. eapply st_wp_mono; [apply Load_wp|]. intros [err|e] u [Hu Hr].
  - destruct (IsErr err ErrNotFound) eqn:E; [|by apply save_unread].
    specialize (Hstore None [] u Hu I (Hr eq_refl)). by destruct (SkipDeltaCheck opts) eqn:Es; unfold difference in Hstore; rewrite Es in Hstore.
  - destruct (SkipDeltaCheck opts) eqn:Es.
    { specialize (Hstore (Some e) [] u Hu (or_introl Es) Hr). unfold difference in Hstore. by rewrite Es in Hstore. }
    destruct (performDeltaCheck_spec e doc (opt_Role opts)) as (changes & -> & Hch).
    destruct (decide (changes = [])) as [->|Hne].
    + cbn. apply st_wp_bind. eapply st_wp_mono; [apply touch_document_wp|]. intros r t' Ht. apply st_wp_ret.
      eapply save_unchanged; [done|by apply Hch|by eapply same_touched].
    + rewrite bool_decide_true by done.
      assert (Hnews : news doc opts (Some e)) by (right; by rewrite <- Hch).
      specialize (Hstore (Some e) changes u Hu Hnews Hr). unfold difference in Hstore. by rewrite Es in Hstore.
Qed.

(** The document names itself by the identifier of the save. *)
Definition acceptable (id : string) (doc : option Document) : option Document :=
  match doc with
  | Some d => if bool_decide (lookup_string d "id" = Some id ∧ id ≠ ""%string) then Some d else None
  | None => None
  end.

Lemma acceptable_Some id doc d : acceptable id doc = Some d → doc = Some d ∧ d !! "id"%string = Some (VString id) ∧ id ≠ ""%string.
Proof.
  unfold acceptable, lookup_string. destruct doc as [d'|]; [|done]. case_bool_decide as Hd; [|done].
  intros [= <-]. destruct Hd as [Hd Hne]. repeat case_match; naive_solver.
Qed.

Inductive saved (workerType id : string) (doc : option Document) (opts : SaveOptions) (t : TS)
  : GoErr + (bool * option Diff) → option Document → TS → Prop :=
  | saved_rejected err : acceptable id doc = None → saved workerType id doc opts t (inl err) doc t
  | saved_accepted d r doc' u t' :
      acceptable id doc = Some d → save_outcome workerType id d opts t r doc' u → same u t' →
      saved workerType id doc opts t
        (match r with inl err => inl err | inr res => inr (changed res, result_diff res) end) (Some doc') t'.

Lemma saveWithDelta_wp ctx workerType id doc opts t :
  st_wp (saveWithDelta ctx workerType id doc opts) (λ '(r, doc') t', saved workerType id doc opts t r doc' t') t.
Proof.
  unfold saveWithDelta. destruct doc as [d|]; [|by apply saved_rejected].
  destruct (lookup_string d "id") as [docID|] eqn:Hl; [|apply saved_rejected; cbn; rewrite Hl; by rewrite bool_decide_false by naive_solver].
  destruct (decide (docID = ""%string)) as [->|Hne].
  { apply saved_rejected. cbn. rewrite Hl. rewrite bool_decide_false by naive_solver. done. }
  assert (Hwp : st_wp (if bool_decide (docID = id) then
            '(result, doc) ← writeDocument ctx workerType id d opts;
            match result with
            | inl err => mret (inl err, Some doc)
            | inr result =>
                _ ← (if negb (SkipDeltaCheck opts) && (isNew result || changed result)
                     then _ ← hierarchyPath ctx workerType id; mret tt else mret tt);
                mret (inr (changed result, result_diff result), Some doc)
            end
          else mret (inl (ENew ("document id " +:+ docID +:+ " does not match parameter id " +:+ id)), Some d))
    (λ '(r, doc') t', saved workerType id (Some d) opts t r doc' t') t); [|by destruct docID].
  case_bool_decide as Hid; [|apply saved_rejected; cbn; rewrite Hl; by rewrite bool_decide_false by naive_solver].
  subst docID. assert (Hacc : acceptable id (Some d) = Some d) by (cbn; rewrite Hl; by rewrite bool_decide_true).
  apply st_wp_bind. eapply st_wp_mono; [apply writeDocument_wp; by apply acceptable_Some in Hacc as (_ & ? & _)|].
  intros [[err|res] doc'] u Ho; [exact (saved_accepted _ _ _ _ _ _ _ _ _ _ Hacc Ho (same_refl u))|].
  assert (Hsame : st_wp (if negb (SkipDeltaCheck opts) && (isNew res || changed res)
                     then _ ← hierarchyPath ctx workerType id; mret tt else mret tt) (λ _ t', same u t') u).
  { destruct (_ && _); [|done]. apply st_wp_bind. eapply st_wp_mono; [apply hierarchyPath_wp|]. done. }
  apply st_wp_bind. eapply st_wp_mono; [exact Hsame|]. intros [] t' Ht. exact (saved_accepted _ _ _ _ _ _ _ _ _ _ Hacc Ho Ht).
Qed.

(** ** The edits of all roles *)

Lemma on_tx_wp {A} (m : St (Tx * S) A) (Q : A → Tx * TS → Prop) p :
  st_wp m (λ a q, Q a (q.1, mkTS q.2 (syncID p.2) (snapshotCache p.2) (knownWorkerTypes p.2) (warned p.2))) (p.1, store p.2) →
  st_wp (on_tx m) Q p.
Proof. unfold st_wp, on_tx. by destruct (m _). Qed.

Lemma beside_tx_wp {A} (m : St TS A) (Q : A → Tx * TS → Prop) p :
  st_wp m (λ a t', Q a (p.1, t')) p.2 → st_wp (beside_tx m) Q p.
Proof. unfold st_wp, beside_tx. by destruct (m _). Qed.

Lemma in_tx_wp {A} tx (m : St (Tx * TS) A) (Q : A → TS → Prop) t :
  st_wp m (λ a p, Q a p.2) (tx, t) → st_wp (in_tx tx m) Q t.
Proof. unfold st_wp, in_tx. by destruct (m _). Qed.

(** The documents an edit changes, with their deltas, from the sync id [n] on. *)
Fixpoint edited (m : Content) (edit : Edit) (at_ : Time) (workerType id : string) (roles : list Role) (n : Z)
  : list (Document * roleWrite) :=
  match roles with
  | [] => []
  | role :: rest =>
      match m !! (collection workerType role, id) ≫= (λ d, edit d at_) with
      | None => edited m edit at_ workerType id rest n
      | Some (d, diff) =>
          (<[FieldSyncID := VInt64 (n + 1)]> d, mkWrite role (n + 1) diff) :: edited m edit at_ workerType id rest (n + 1)
      end
  end.

Definition stage (workerType id : string) (w : Writes) (c : Document * roleWrite) : Writes :=
  <[(collection workerType (write_role c.2), id) := Some c.1]> w.

(** The state while the edits are prepared: the content is untouched. *)
Definition preparing (t t' : TS) (n : Z) : Prop :=
  content t' = content t ∧ syncID t' = n ∧ snapshotCache t' = snapshotCache t ∧
  knownWorkerTypes t' = knownWorkerTypes t ∧ warned t' = warned t.

Lemma edited_length m edit at_ w i roles n : (length (edited m edit at_ w i roles n) <= length roles)%nat.
Proof.
  revert n. induction roles as [|role roles IH]; intros n; cbn; [lia|].
  destruct (_ ≫= _) as [[d diff]|]; cbn; [specialize (IH (n + 1)); lia|specialize (IH n); lia].
Qed.

(** What [edit_roles] has prepared, from a state and the writes staged so far. *)
Definition prepared (w i : string) (edit : Edit) (at_ : Time) (roles : list Role) (written : list roleWrite) (st : Writes) (t : TS)
    (r : GoErr + list roleWrite) (p' : Tx * TS) : Prop :=
  ∃ n, preparing t p'.2 n ∧ syncID t <= n <= syncID t + Z.of_nat (length roles) ∧
    match r with
    | inl _ => True
    | inr written' => let l := edited (content t) edit at_ w i roles (syncID t) in
        written' = written ++ l.*2 ∧ staged p'.1 = foldl (stage w i) st l ∧ n = syncID t + Z.of_nat (length l)
    end.

Lemma prepared_skip w i edit at_ role roles written st t r p' :
  content t !! (collection w role, i) ≫= (λ d, edit d at_) = None →
  prepared w i edit at_ roles written st t r p' → prepared w i edit at_ (role :: roles) written st t r p'.
Proof.
  intros Hnone (n & Hp & Hrange & Hr). exists n. cbn [edited]. rewrite Hnone. split_and!; [done|cbn [length]; lia..|done].
Qed.

Lemma prepared_write w i edit at_ role roles written st t u d diff r p' :
  content t !! (collection w role, i) ≫= (λ d, edit d at_) = Some (d, diff) →
  preparing t u (syncID t + 1) →
  prepared w i edit at_ roles (written ++ [mkWrite role (syncID t + 1) diff])
    (<[(collection w role, i) := Some (<[FieldSyncID := VInt64 (syncID t + 1)]> d)]> st) u r p' →
  prepared w i edit at_ (role :: roles) written st t r p'.
Proof.
  intros Hd (Hc & Hn & Hs & Hk & Hw) (n & (Hc' & Hn' & Hs' & Hk' & Hw') & Hrange & Hr). exists n.
  rewrite Hc, Hn in *. cbn [edited]. rewrite Hd. cbn [length fmap list_fmap foldl].
  split_and!; [unfold preparing; split_and!; congruence|lia|lia|].
  destruct r as [|written']; [done|]. destruct Hr as (-> & -> & ->). rewrite <- app_assoc. split_and!; [done|done|lia].
Qed.

Lemma edit_roles_wp ctx w i edit at_ roles written st (p : Tx * TS) :
  NoDup roles → (∀ role, role ∈ roles → st !! (collection w role, i) = None) → staged p.1 = st →
  0 <= syncID p.2 → syncID p.2 + Z.of_nat (length roles) < 2 ^ 63 →
  st_wp (edit_roles ctx w i edit at_ roles written) (prepared w i edit at_ roles written st p.2) p.
Proof.
  revert written st p. induction roles as [|role roles IH]; intros written st [tx t] Hnd Hst Hp Hn Hb; cbn [fst snd] in *.
  { apply st_wp_ret. exists (syncID t). cbn. rewrite app_nil_r. repeat split; (done || lia). }
  apply NoDup_cons in Hnd as [Hrole Hnd]. cbn [length edit_roles] in *.
  apply st_wp_bind, on_tx_wp. eapply st_wp_mono; [apply tx_Get_law|]. cbn [fst snd].
  intros r [tx' s'] (Hdoc & Hstag & Hr). cbn [fst snd] in *.
  rewrite Hp, lookup_overlay, Hst in Hr by left. cbn [landed] in Hr.
  set (u := mkTS s' _ _ _ _). assert (Hu : content u = content t) by exact Hdoc.
  assert (Hskip : content t !! (collection w role, i) ≫= (λ d, edit d at_) = None →
    st_wp (edit_roles ctx w i edit at_ roles written) (prepared w i edit at_ (role :: roles) written st t) (tx', u)).
  { intros Hnone. eapply st_wp_mono; [apply (IH written st (tx', u)); cbn; try done; [|congruence|lia]|].
    - intros role' Hin. apply Hst. by right.
    - intros r' p' Hr'. apply prepared_skip; [done|]. unfold prepared, preparing in *. cbn [fst snd] in *. by rewrite Hu in Hr'. }
  destruct r as [err|d].
  - destruct (IsErr err ErrNotFound) eqn:E; [|apply st_wp_ret; exists (syncID t); cbn; repeat split; (done || lia)].
    apply Hskip. unfold content. by rewrite Hr.
  - destruct (edit d at_) as [[d' diff]|] eqn:Hedit; [|apply Hskip; unfold content; by rewrite Hr].
    apply st_wp_bind, beside_tx_wp. unfold st_wp at 1, next_sync_id. cbn [fst snd]. change (syncID u) with (syncID t).
    rewrite wrap_i64_small by lia. set (v := mkTS _ (syncID t + 1) _ _ _).
    apply st_wp_bind, on_tx_wp. eapply st_wp_mono; [apply tx_Update_law|]. cbn [fst snd].
    intros [err|] [tx'' s''] (Hdoc' & Hstag'); cbn [fst snd] in *.
    + apply st_wp_ret. exists (syncID t + 1). unfold preparing, content in *. cbn in *. split_and!; (congruence || lia || done).
    + set (x := mkTS s'' _ _ _ _). eapply st_wp_mono; [apply (IH (written ++ [mkWrite role (syncID t + 1) diff])
        (<[(collection w role, i) := Some (<[FieldSyncID := VInt64 (syncID t + 1)]> d')]> st) (tx'', x)); cbn; try done; [|by rewrite Hstag', Hstag, Hp|lia|lia]|].
      * intros role' Hin. rewrite lookup_insert_ne; [apply Hst; by right|]. intros [= Hc]. apply collection_inj in Hc as [_ ->]. done.
      * intros r' p' Hr'. eapply (prepared_write _ _ _ _ _ _ _ _ _ x); [unfold content; rewrite Hr; exact Hedit| |exact Hr'].
        unfold preparing, content in *. cbn in *. split_and!; congruence.
Qed.

Definition put (w i : string) (m : Content) (c : Document * roleWrite) : Content :=
  <[(collection w (write_role c.2), i) := c.1]> m.

Lemma overlay_stage w i l st m : overlay (foldl (stage w i) st l) m = foldl (put w i) (overlay st m) l.
Proof.
  revert st. induction l as [|c l IH]; intros st; [done|]. cbn. rewrite IH. f_equal. apply map_eq. intros k.
  unfold put, stage. rewrite lookup_overlay.
  destruct (decide ((collection w (write_role c.2), i) = k)) as [<-|Hk].
  - by rewrite !lookup_insert_eq.
  - rewrite !lookup_insert_ne by exact Hk. by rewrite lookup_overlay.
Qed.

Lemma overlay_nothing m : overlay ∅ m = m.
Proof. apply map_eq. intros k. by rewrite lookup_overlay, lookup_empty. Qed.

Definition role_entry (at_ : Time) (w i : string) (c : roleWrite) : DeltaEntry :=
  mkEntry at_ (Some (write_diff c)) w i (role_name (write_role c)) (write_syncID c).

(** The deltas of the edits go to the log one by one. *)
Fixpoint fed (at_ : Time) (w i : string) (written : list roleWrite) (t t' : TS) : Prop :=
  match written with
  | [] => same t t'
  | c :: rest => ∃ u, appended (role_entry at_ w i c) t u ∧ fed at_ w i rest u t'
  end.

Lemma append_written_wp ctx w i at_ written t :
  st_wp (append_written ctx w i at_ written) (λ _ t', fed at_ w i written t t') t.
Proof.
  revert t. induction written as [|c rest IH]; intros t; [by apply st_wp_ret|]. cbn [append_written fed].
  apply st_wp_bind. eapply st_wp_mono; [apply appendDeltaOrWarn_wp|]. intros [] u Hu.
  eapply st_wp_mono; [apply IH|]. intros [] t' Ht. by exists u.
Qed.

(** An edit of the role documents: a failure before anything is stored, or all
    the edited documents stored at once and their deltas fed to the log. *)
Inductive edit_outcome (w i : string) (edit : Edit) (t : TS) : option GoErr → TS → Prop :=
  | edit_failed err n t' : preparing t t' n → syncID t <= n <= syncID t + 3 → edit_outcome w i edit t (Some err) t'
  | edit_done at_ u v t' :
      let l := edited (content t) edit at_ w i allRoles (syncID t) in
      content u = foldl (put w i) (content t) l → syncID u = syncID t + Z.of_nat (length l) →
      snapshotCache u = snapshotCache t → knownWorkerTypes u = knownWorkerTypes t → warned u = warned t →
      fed at_ w i l.*2 u v →
      same (mkTS (store v) (syncID v) (delete (cache_key w i) (snapshotCache v)) (knownWorkerTypes v) (warned v)) t' →
      edit_outcome w i edit t None t'.

Lemma Rollback_wp (p : Tx * TS) : st_wp (on_tx Rollback) (λ _ p', same p.2 p'.2) p.
Proof. apply on_tx_wp. eapply st_wp_mono; [apply Rollback_law|]. intros r q Hq. by repeat split. Qed.

Lemma edit_in_tx_wp ctx w i edit at_ (p : Tx * TS) :
  staged p.1 = ∅ → 0 <= syncID p.2 → syncID p.2 + 3 < 2 ^ 63 →
  st_wp (edit_in_tx ctx w i edit at_) (λ r p', edit_outcome w i edit p.2 r p'.2) p.
Proof.
  intros Htx Hn Hb. unfold edit_in_tx. apply st_wp_bind.
  eapply st_wp_mono; [apply (edit_roles_wp _ _ _ _ _ _ _ ∅); [decided|intros; apply lookup_empty|done..]|].
  intros r [tx u] (n & (Hc & Hn' & Hs & Hk & Hw) & Hrange & Hr). cbn [fst snd] in *.
  assert (Hend : ∀ (res : option GoErr) (q : Tx * TS), (∀ t', same q.2 t' → edit_outcome w i edit p.2 res t') →
    st_wp (_ ← on_tx Rollback; mret res) (λ a p', edit_outcome w i edit p.2 a p'.2) q).
  { intros res q HQ. apply st_wp_bind. eapply st_wp_mono; [apply Rollback_wp|]. intros [err|] q' Hq'; apply st_wp_ret, HQ, Hq'. }
  apply st_wp_bind. destruct r as [err|written].
  - apply st_wp_ret, Hend. intros t' (? & ? & ? & ? & ?). apply (edit_failed _ _ _ _ _ n); [|cbn in Hrange; lia].
    unfold preparing. cbn [snd] in *. split_and!; congruence.
  - destruct Hr as (Hwr & Hst & Hlen). apply st_wp_bind, on_tx_wp. eapply st_wp_mono; [apply Commit_law|]. cbn [fst snd].
    intros [err|] [tx' s'] Hcommit; cbn [fst snd] in *.
    + apply st_wp_ret, Hend. cbn [snd]. intros t' (Hc' & ? & ? & ? & ?). apply (edit_failed _ _ _ _ _ n); [|cbn in Hrange; lia].
      unfold preparing, content in *. cbn in *. split_and!; congruence.
    + set (l := edited (content p.2) edit at_ w i allRoles (syncID p.2)) in *.
      apply st_wp_bind, beside_tx_wp. eapply st_wp_mono; [apply append_written_wp|]. intros [] v Hv. cbn [fst snd] in *.
      rewrite Hwr in Hv. apply st_wp_bind, beside_tx_wp. unfold st_wp at 1. cbn [fst snd]. apply st_wp_ret, Hend. cbn [snd].
      intros t' Ht'. eapply (edit_done _ _ _ _ at_ (mkTS s' (syncID u) (snapshotCache u) (knownWorkerTypes u) (warned u)) v);
        [|cbn [syncID snapshotCache knownWorkerTypes warned]; fold l; congruence..|exact Hv|exact Ht'].
      unfold content at 1. cbn [store]. fold l. rewrite Hcommit, Hst, overlay_stage, overlay_nothing. f_equal. exact Hc.
Qed.

Lemma same_edit_outcome w i edit t u r t' : same t u → edit_outcome w i edit u r t' → edit_outcome w i edit t r t'.
Proof.
  intros (Hc & Hn & Hs & Hk & Hw) [err n t'' (? & ? & ? & ? & ?) Hr|at_ x v t'' l Hx Hl].
  - apply (edit_failed _ _ _ _ _ n); [unfold preparing; split_and!; congruence|lia].
  - rewrite Hn in *. eapply (edit_done _ _ _ _ at_ x v); subst l; rewrite ?Hc in *; (done || congruence).
Qed.

Lemma editRoleDocuments_wp ctx w i edit t : 0 <= syncID t → syncID t + 3 < 2 ^ 63 →
  st_wp (editRoleDocuments ctx w i edit) (edit_outcome w i edit t) t.
Proof.
  intros Hn Hb. apply st_wp_bind. eapply st_wp_mono; [apply Now_wp|]. intros at_ t0 Ht0.
  apply st_wp_bind, on_store_wp. eapply st_wp_mono; [apply BeginTx_law|]. intros [err|tx] s' [Hs Htx];
    (eassert (Hsame : same t (mkTS s' _ _ _ _)) by (eapply same_trans; [exact Ht0|by repeat split])).
  - apply st_wp_ret. destruct Hsame as (? & ? & ? & ? & ?). apply (edit_failed _ _ _ _ _ (syncID t)); [by repeat split|lia].
  - apply in_tx_wp. eapply st_wp_mono; [apply edit_in_tx_wp; [done|..]; destruct Hsame as (_ & Hsy & _); cbn [snd]; by rewrite Hsy|].
    intros r p' Hr. by eapply same_edit_outcome.
Qed.
End effects.
