(* ===== verification/TriangularFeed.v ===== *)
(** * TriangularFeed: the change feed follows the stored documents

    The invariant of the worker stores and its preservation by every
    operation, and the agreement of the change log with the stored documents. *)

From stdpp Require Import sorting.
From S2P Require Import Prelude Float64 GoRuntime GoBytes StateMonad Documents DocumentStore TriangularStore ChangeFeed TriangularFacts.
Local Open Scope Z_scope.

(** Every document is stored under its own identifier, a role document with a
    whole tombstone or none, and a delta under its sync id, at most [n]. *)
Record sound (m : Content) (n : Z) : Prop := {
  sound_docs : ∀ c i d, m !! (c, i) = Some d → d !! "id"%string = Some (VString i) ∧ (c ≠ DeltaCollectionName → tombstone_wf d);
  sound_log : log_wf m n;
  sound_sync : 0 <= n }.

Lemma sound_mono m n n' : sound m n → n <= n' → sound m n'.
Proof.
  intros [Hd Hl Hs] Hn. split; [done| |lia]. intros i d Hi. apply Hl in Hi as [? ?]. split; [done|lia].
Qed.

Lemma sound_write m n w r i d : sound m n → d !! "id"%string = Some (VString i) → tombstone_wf d →
  sound (<[(collection w r, i) := d]> m) n.
Proof.
  intros [Hd Hl Hs] Hid Ht. split; [| |done].
  - intros c' i' d' Hd'. destruct (decide ((collection w r, i) = (c', i'))) as [[= <- <-]|Hn].
    + rewrite lookup_insert_eq in Hd'. by simplify_eq.
    + rewrite lookup_insert_ne in Hd' by done. by eapply Hd.
  - intros i' d' Hd'. rewrite lookup_insert_ne in Hd' by (intros [= Hc _]; by apply (collection_not_log w r)). by apply Hl.
Qed.

Lemma sound_append m n e : sound m n → n < SyncID e → sound (append_log e m) (SyncID e).
Proof.
  intros [Hd Hl Hs] Hn. split; [|by eapply append_log_wf|lia].
  intros c i d Hi. unfold append_log in Hi. destruct (decide ((DeltaCollectionName, delta_key (SyncID e)) = (c, i))) as [[= <- <-]|Hne].
  - rewrite lookup_insert_eq in Hi. simplify_eq. split; [apply delta_document_id|done].
  - rewrite lookup_insert_ne in Hi by done. by eapply Hd.
Qed.

Lemma sound_role m n w r i d : sound m n → m !! (collection w r, i) = Some d → d !! "id"%string = Some (VString i) ∧ tombstone_wf d.
Proof. intros Hs Hd. destruct (sound_docs _ _ Hs _ _ _ Hd) as [Hi Ht]. split; [done|]. apply Ht, collection_not_log. Qed.

Section feed.
Context {S Tx : Type} `{StoreLaws S Tx}.

Abbreviation TS := (TriangularStore S).

(** A step that spends at most [k] sync ids keeps the invariant, and keeps the
    log in step with the documents unless it warns. *)
Definition advances (k : Z) (t t' : TS) : Prop :=
  sound (content t) (syncID t) → syncID t + k < 2 ^ 63 →
  sound (content t') (syncID t') ∧ syncID t <= syncID t' <= syncID t + k ∧ warned t `prefix_of` warned t' ∧
  (warned t' = warned t → synced [] (content t) → synced [] (content t')).

Lemma advances_same t t' : same t t' → advances 0 t t'.
Proof.
  intros (Hc & Hn & _ & _ & Hw) Hs Hb. rewrite Hc, Hn, Hw. split_and!; [done|lia|lia|done|done].
Qed.

Lemma advances_more k k' t t' : k <= k' → advances k t t' → advances k' t t'.
Proof.
  intros Hk Ha Hs Hb. destruct (Ha Hs) as (? & ? & ? & ?); [lia|]. split_and!; [done|lia|lia|done|done].
Qed.

Lemma advances_trans k k' t u v : advances k t u → advances k' u v → 0 <= k' → advances (k + k') t v.
Proof.
  intros Ha Hb Hk Hs Hn. destruct (Ha Hs) as (Hs1 & Hr1 & Hw1 & Hf1); [lia|].
  destruct (Hb Hs1) as (Hs2 & Hr2 & Hw2 & Hf2); [lia|].
  split_and!; [done|lia|lia|by etrans|]. intros Hw Hsy. rewrite <- Hw in Hw1.
  assert (Heq : warned u = warned v) by (apply (anti_symm prefix); done). apply Hf2; [congruence|]. apply Hf1; [congruence|done].
Qed.

(** An append takes one pending entry into the log. *)
Lemma appended_step e pending n t t' : sound (content t) n → n < SyncID e → appended e t t' →
  sound (content t') (SyncID e) ∧ syncID t' = syncID t ∧ warned t `prefix_of` warned t' ∧
  (warned t' = warned t → synced (e :: pending) (content t) → synced pending (content t')).
Proof.
  intros Hs Hn (Hsy & _ & _ & [(Hw & Hnew & Hc)|((err & Hw) & Hc)]); rewrite Hc, Hw.
  - split_and!; [by eapply sound_append|done|done|]. intros _ Hp. eapply synced_append; [apply Hs|done..].
  - split_and!; [eapply sound_mono; [done|lia]|done|by apply prefix_app_r|].
    intros Hbad. apply (f_equal length) in Hbad. rewrite length_app in Hbad. cbn in Hbad. lia.
Qed.

(** ** Saves *)

Lemma stored_advances w i d opts existing t ok doc' t' :
  SkipDeltaCheck opts = false → d !! "id"%string = Some (VString i) →
  content t !! (collection w (opt_Role opts), i) = existing →
  stored w i d opts existing (difference d opts existing) t ok doc' t' → advances 1 t t'.
Proof.
  intros Hskip Hid Hex [[now ->] Heff] Hs Hb.
  assert (Hwf : ∀ e, existing = Some e → tombstone_wf e).
  { intros e ->. by apply (sound_role _ _ _ _ _ _ Hs Hex). }
  pose proof (sound_sync _ _ Hs) as Hpos. rewrite wrap_i64_small in Heff by lia.
  set (doc' := stamped _ _ _ _ _) in *.
  destruct ok; [|destruct Heff as (-> & -> & _ & _ & ->); split_and!; [eapply sound_mono; [done|lia]|lia|lia|done|done]].
  destruct Heff as (u & v & Hu & Hsu & _ & _ & Hwu & Hf & ->). cbn [syncID warned store]. change (content (mkTS (store v) _ _ _ _)) with (content v).
  assert (Hsnd : sound (content u) (syncID t)).
  { rewrite Hu. apply sound_write; [done| |by apply stamped_wf]. unfold doc'. by rewrite stamped_id. }
  assert (Htell : ∀ k, k ∉ hidden → apply_changes (difference d opts existing) (role_document (content t) w (opt_Role opts) i) !! k = doc' !! k).
  { unfold difference, role_document. rewrite Hskip, Hex. by apply save_tells. }
  destruct (difference d opts existing) as [diff|] eqn:Hdiff; cbn [feeds] in Hf.
  - destruct Hf as [now' Hf]. apply (appended_step _ [] (syncID t)) in Hf as (Hsv & Hsy & Hpre & Hfeed); [|done|cbn; lia].
    cbn [SyncID] in Hsv. rewrite Hsy, Hsu, <- Hwu. split_and!; [done|lia|lia|done|].
    intros Hw Hsync. apply Hfeed; [done|]. rewrite Hu. by apply (synced_write []).
  - destruct Hf as (Hc & Hsy & _ & _ & Hw). rewrite Hc, Hsy, Hsu, Hw, Hwu. split_and!; [eapply sound_mono; [exact Hsnd|lia]|lia|lia|done|].
    intros _ Hsync. rewrite Hu. apply synced_silent; [|done]. exact Htell.
Qed.

Lemma touched_advances w i opts e t r t' : content t !! (collection w (opt_Role opts), i) = Some e →
  touched w i opts e t r t' → advances 0 t t'.
Proof.
  intros He Ht. unfold touched in Ht. destruct r as [err|res]; [by apply advances_same|]. destruct Ht as [_ Ht].
  destruct (UpdateTimestampOnNoChange opts); [|by apply advances_same].
  destruct Ht as ([now Hc] & Hn & _ & _ & Hw). intros Hs Hb. rewrite Hc, Hn, Hw.
  destruct (sound_role _ _ _ _ _ _ Hs He) as [Hid Htm].
  split_and!; [|lia|lia|done|].
  - apply sound_write; [done|by rewrite lookup_insert_ne|]. unfold tombstone_wf in *.
    rewrite (hasTombstone_lookup _ e), !lookup_insert_ne by (done || by rewrite lookup_insert_ne). done.
  - intros _ Hsy. apply synced_silent; [|done]. unfold role_document. rewrite He. cbn.
    intros k Hk. rewrite lookup_insert_ne; [done|]. intros <-. apply Hk. decided.
Qed.

Lemma saved_advances w i doc opts t r doc' t' : SkipDeltaCheck opts = false →
  saved w i doc opts t r doc' t' → advances 1 t t'.
Proof.
  intros Hskip [err Hrej|d r0 d' u v Hacc Hout Hsame]; [eapply advances_more; [|by apply advances_same]; lia|].
  apply acceptable_Some in Hacc as (_ & Hid & _).
  rewrite <- (Z.add_0_r 1). eapply advances_trans; [|by apply advances_same|done].
  destruct Hout as [err u Hu|e r0 u He _ Ht|ex err d' u Hex _ Hst|ex ch d' u Hex _ Hst].
  - eapply advances_more; [|by apply advances_same]. lia.
  - eapply advances_more; [|by eapply touched_advances]. lia.
  - by eapply stored_advances.
  - by eapply stored_advances.
Qed.

(** ** Tombstones *)

(** What an edit must do: keep the document whole, and describe its change. *)
Definition edit_ok (edit : Edit) : Prop := ∀ d at_ d' diff, tombstone_wf d → edit d at_ = Some (d', diff) →
  tombstone_wf d' ∧ d' !! "id"%string = d !! "id"%string ∧ ∀ k, k ∉ hidden → apply_diff diff d !! k = d' !! k.

Lemma add_tombstone_ok by_ : edit_ok (add_tombstone by_).
Proof.
  intros d at_ d' diff Hwf. unfold add_tombstone. destruct (hasTombstone d); [done|]. intros [= <- <-]. split_and!.
  - unfold tombstone_wf, hasTombstone. rewrite lookup_insert_ne, !lookup_insert_eq by done. split; by eexists.
  - by rewrite !lookup_insert_ne.
  - intros k Hk. rewrite lookup_apply_diff. cbn. rewrite decide_False by apply not_elem_of_nil.
    destruct (decide (k = FieldDeletedBy)) as [->|Hb]; [by rewrite !lookup_insert_eq|].
    destruct (decide (k = FieldDeletedAt)) as [->|Ha]; [by rewrite !(lookup_insert_ne _ FieldDeletedBy), !lookup_insert_eq|].
    by rewrite !lookup_insert_ne, !lookup_empty by congruence.
Qed.

Lemma remove_tombstone_ok : edit_ok remove_tombstone.
Proof.
  intros d at_ d' diff Hwf. unfold remove_tombstone. destruct (hasTombstone d); [|done]. intros [= <- <-]. split_and!.
  - unfold tombstone_wf, hasTombstone. by rewrite lookup_delete_ne, !lookup_delete_eq.
  - by rewrite !lookup_delete_ne.
  - intros k Hk. rewrite lookup_apply_diff. cbn. rewrite !lookup_empty.
    destruct (decide (k = FieldDeletedBy)) as [->|Hb]; [by rewrite lookup_delete_eq, decide_True by decided|].
    destruct (decide (k = FieldDeletedAt)) as [->|Ha]; [by rewrite lookup_delete_ne, lookup_delete_eq, decide_True by (done || decided)|].
    rewrite !lookup_delete_ne, decide_False; [done| |congruence..].
    rewrite !not_elem_of_cons. split_and!; auto using not_elem_of_nil.
Qed.

Fixpoint numbered (n : Z) (written : list roleWrite) : Prop :=
  match written with [] => True | c :: rest => write_syncID c = n + 1 ∧ numbered (n + 1) rest end.

Lemma edited_numbered m edit at_ w i roles n : numbered n (edited m edit at_ w i roles n).*2.
Proof.
  revert n. induction roles as [|role roles IH]; intros n; cbn; [done|]. destruct (_ ≫= _) as [[d diff]|]; [by cbn|done].
Qed.

Lemma fed_step at_ w i written pending n t t' : sound (content t) n → numbered n written → fed at_ w i written t t' →
  sound (content t') (n + Z.of_nat (length written)) ∧ syncID t' = syncID t ∧ warned t `prefix_of` warned t' ∧
  (warned t' = warned t → synced ((role_entry at_ w i <$> written) ++ pending) (content t) → synced pending (content t')).
Proof.
  revert n t. induction written as [|c rest IH]; intros n t Hs Hnum Hfed; cbn [fed numbered] in *.
  { destruct Hfed as (-> & -> & _ & _ & ->). cbn. rewrite Z.add_0_r. done. }
  destruct Hnum as [Hc Hnum], Hfed as (u & Hu & Hfed).
  apply (appended_step _ ((role_entry at_ w i <$> rest) ++ pending) n) in Hu as (Hsu & Hn & Hw & Hf); [|done|cbn; lia].
  cbn [role_entry SyncID] in Hsu. rewrite Hc in Hsu. apply (IH _ _ Hsu Hnum) in Hfed as (Hsv & Hn' & Hw' & Hf').
  split_and!; [eapply sound_mono; [done|cbn [length]; lia]|congruence|by etrans|].
  intros Heq Hsync. rewrite <- Heq in Hw. assert (warned u = warned t') by (apply (anti_symm prefix); done).
  apply Hf'; [congruence|]. apply Hf; [congruence|done].
Qed.

(** The edited documents are stored with their deltas pending. *)
Lemma put_edited m m0 edit at_ w i roles n0 n pending : edit_ok edit → NoDup roles →
  (∀ role, role ∈ roles → m !! (collection w role, i) = m0 !! (collection w role, i)) → sound m n →
  let l := edited m0 edit at_ w i roles n0 in
  sound (foldl (put w i) m l) n ∧
  (synced pending m → synced (pending ++ (role_entry at_ w i <$> l.*2)) (foldl (put w i) m l)).
Proof.
  intros Hok. revert m n0 pending. induction roles as [|role roles IH]; intros m n0 pending Hnd Hm Hs; cbn [edited].
  { cbn. by rewrite app_nil_r. }
  apply NoDup_cons in Hnd as [Hrole Hnd]. rewrite <- (Hm role) by left.
  destruct (m !! (collection w role, i) ≫= _) as [[d' diff]|] eqn:E; [|apply IH; [done| |done]; intros; apply Hm; by right].
  apply bind_Some in E as (d & Hd & He). destruct (sound_role _ _ _ _ _ _ Hs Hd) as [Hid Hwf].
  destruct (Hok _ _ _ _ Hwf He) as (Hwf' & Hid' & Htell). cbn [foldl fmap list_fmap].
  set (c := (_, mkWrite _ _ _)). assert (Hput : put w i m c = <[(collection w role, i) := c.1]> m) by done.
  destruct (IH (put w i m c) (n0 + 1) (pending ++ [role_entry at_ w i c.2])) as [Hsnd Hsy]; [done| | |].
  - intros role' Hin. rewrite Hput, lookup_insert_ne; [apply Hm; by right|]. intros [= Hc]. apply collection_inj in Hc as [_ ->]. done.
  - rewrite Hput. apply sound_write; [done|cbn; rewrite lookup_insert_ne by done; congruence|].
    unfold tombstone_wf in *. cbn. rewrite (hasTombstone_lookup _ d'), !lookup_insert_ne by (done || by rewrite lookup_insert_ne). done.
  - split; [done|]. intros Hp. rewrite cons_middle, app_assoc. apply Hsy. rewrite Hput. apply synced_write; try done.
    unfold tells, role_document. rewrite Hd. cbn -[apply_diff]. intros k Hk. rewrite (Htell k Hk), lookup_insert_ne; [done|].
    intros <-. apply Hk. decided.
Qed.

Lemma edit_advances w i edit t r t' : edit_ok edit → edit_outcome w i edit t r t' → advances 3 t t'.
Proof.
  intros Hok [err n t'' (Hc & Hn & _ & _ & Hw) Hr|at_ u v t'' l Hu Hsu _ _ Hwu Hfed Hsame] Hs Hb.
  - rewrite Hc, Hn, Hw. split_and!; [eapply sound_mono; [done|lia]|lia|lia|done|done].
  - assert (Hl3 : (length l <= 3)%nat) by apply edited_length.
    destruct (put_edited (content t) (content t) edit at_ w i allRoles (syncID t) (syncID t) []) as [Hsnd Hsy];
      [done|decided|done|done|]. fold l in Hsnd, Hsy. rewrite <- Hu in Hsnd, Hsy.
    apply (fed_step _ _ _ _ [] (syncID t)) in Hfed as (Hsv & Hn & Hw & Hf); [|done|apply edited_numbered].
    rewrite length_fmap in Hsv. destruct Hsame as (Hc' & Hn' & _ & _ & Hw'). cbn in Hn', Hw'.
    change (content (mkTS _ _ _ _ _)) with (content v) in Hc'. rewrite Hc', Hn', Hw', Hn, Hsu, <- Hwu.
    split_and!; [done|lia|lia|done|]. intros Heq Hsync. apply Hf; [done|]. rewrite app_nil_r. by apply Hsy.
Qed.

(** ** Snapshots *)

(** The documents of a worker as they are stored. *)
Definition live (m : Content) (w i : string) : Snapshot :=
  mkSnapshot (m !! (collection w RoleIdentity, i)) (m !! (collection w RoleDesired, i)) (m !! (collection w RoleObserved, i)).

(** Everything but the cache is as it was. *)
Definition only_cache (f : gmap string cachedSnapshot → gmap string cachedSnapshot) (t t' : TS) : Prop :=
  content t' = content t ∧ syncID t' = syncID t ∧ snapshotCache t' = f (snapshotCache t) ∧
  knownWorkerTypes t' = knownWorkerTypes t ∧ warned t' = warned t.

Inductive snapshot_outcome (w i : string) (t : TS) : GoErr + Snapshot → TS → Prop :=
  | snapshot_failed err t' : same t t' → snapshot_outcome w i t (inl err) t'
  | snapshot_hit c t' : snapshotCache t !! cache_key w i = Some c → cached_syncID c = syncID t → same t t' →
      snapshot_outcome w i t (inr (cloneSnapshot (snapshot c))) t'
  | snapshot_loaded t' : is_Some (Identity (live (content t) w i)) →
      only_cache <[cache_key w i := mkCached (live (content t) w i) (syncID t)]> t t' →
      snapshot_outcome w i t (inr (cloneSnapshot (live (content t) w i))) t'.

Lemma tx_read_wp ctx c i (p : Tx * TS) : staged p.1 = ∅ →
  st_wp (on_tx (tx_Get (Some ctx) c i)) (λ r p', same p.2 p'.2 ∧ staged p'.1 = ∅ ∧ match r with
    | inl e => IsErr e ErrNotFound = true → content p.2 !! (c, i) = None
    | inr d => content p.2 !! (c, i) = Some d end) p.
Proof.
  intros Hp. apply on_tx_wp. eapply st_wp_mono; [apply tx_Get_law|]. cbn. intros r q (Hd & Hs & Hr).
  rewrite Hp, lookup_overlay, lookup_empty in Hr. cbn in Hr. split_and!; [by repeat split|congruence|done].
Qed.

Lemma optional_spec what r o : optional what r = inr o → (match r with
    | inl e => IsErr e ErrNotFound = true ∧ o = None | inr d => o = Some d end).
Proof. unfold optional. intros Ho. repeat case_match; by simplify_eq. Qed.

Lemma load_in_tx_wp ctx w i (p : Tx * TS) : staged p.1 = ∅ →
  st_wp (load_in_tx ctx w i) (λ r p', same p.2 p'.2 ∧ match r with
    | inl _ => True
    | inr s => s = live (content p.2) w i ∧ is_Some (Identity s) end) p.
Proof.
  intros Hp. unfold load_in_tx. apply st_wp_bind. eapply st_wp_mono; [by apply tx_read_wp|].
  intros [err|d1] p1 (H1 & Hp1 & Hd1); [by apply st_wp_ret|].
  apply st_wp_bind. eapply st_wp_mono; [by apply tx_read_wp|]. intros r2 p2 (H2 & Hp2 & Hd2).
  assert (Hs2 : same p.2 p2.2) by by eapply same_trans.
  destruct (optional "desired" r2) as [err|o2] eqn:E2; [by apply st_wp_ret|]. apply optional_spec in E2.
  apply st_wp_bind. eapply st_wp_mono; [by apply tx_read_wp|]. intros r3 p3 (H3 & Hp3 & Hd3).
  assert (Hs3 : same p.2 p3.2) by by eapply same_trans.
  destruct (optional "observed" r3) as [err|o3] eqn:E3; [by apply st_wp_ret|]. apply optional_spec in E3.
  apply st_wp_bind, on_tx_wp. eapply st_wp_mono; [apply Commit_law|]. cbn [fst snd].
  intros rc q Hq. assert (Hsq : same p.2 (mkTS q.2 (syncID p3.2) (snapshotCache p3.2) (knownWorkerTypes p3.2) (warned p3.2))).
  { eapply same_trans; [exact Hs3|]. repeat split. destruct rc; [exact Hq|]. by rewrite Hp3, overlay_nothing in Hq. }
  destruct rc as [err|]; apply st_wp_ret; (split; [exact Hsq|]); [done|].
  destruct H1 as (Hc1 & _), Hs2 as (Hc2 & _). rewrite Hc1 in Hd2. rewrite Hc2 in Hd3. unfold live. rewrite Hd1.
  split; [|by eexists]. f_equal.
  - destruct r2; [destruct E2 as [E2 ->]; by rewrite Hd2|by rewrite E2, Hd2].
  - destruct r3; [destruct E3 as [E3 ->]; by rewrite Hd3|by rewrite E3, Hd3].
Qed.

Lemma load_and_cache_wp ctx w i (p : Tx * TS) : staged p.1 = ∅ →
  st_wp (load_and_cache ctx w i) (λ r p', snapshot_outcome w i p.2 r p'.2) p.
Proof.
  intros Hp. unfold load_and_cache. apply st_wp_bind. eapply st_wp_mono; [by apply load_in_tx_wp|].
  intros [err|s] p1 [H1 Hs]; apply st_wp_bind.
  - apply st_wp_ret, st_wp_bind. eapply st_wp_mono; [apply Rollback_wp|]. intros [e|] q Hq; apply st_wp_ret, snapshot_failed;
      by eapply same_trans.
  - destruct Hs as [-> Hid]. apply st_wp_bind, beside_tx_wp. unfold st_wp at 1. cbn [read fst snd].
    apply st_wp_bind, beside_tx_wp. unfold st_wp at 1. cbn [set_cache fst snd]. apply st_wp_ret, st_wp_bind.
    eapply st_wp_mono; [apply Rollback_wp|]. intros [e|] q (? & ? & ? & ? & ?); apply st_wp_ret, snapshot_loaded; try done;
      destruct H1 as (? & ? & ? & ? & ?); unfold only_cache, content in *; cbn in *; split_and!; congruence.
Qed.

Lemma same_snapshot_outcome w i t u r t' : same t u → snapshot_outcome w i u r t' → snapshot_outcome w i t r t'.
Proof.
  intros Hs Ho. pose proof Hs as (Hc & Hn & Hk & Hkn & Hw). destruct Ho as [err t' Ht|c t' Hcc Hcs Ht|t' Hid (? & ? & ? & ? & ?)].
  - apply snapshot_failed. by eapply same_trans.
  - eapply snapshot_hit; [by rewrite <- Hk|congruence|by eapply same_trans].
  - rewrite Hc, Hn in *. apply snapshot_loaded; [done|]. unfold only_cache. split_and!; congruence.
Qed.

Lemma LoadSnapshot_wp ctx w i t : st_wp (LoadSnapshot ctx w i) (snapshot_outcome w i t) t.
Proof.
  unfold LoadSnapshot. apply st_wp_bind. unfold st_wp at 1. cbn [read fst snd]. apply st_wp_bind. unfold st_wp at 1. cbn [read fst snd].
  assert (Hload : st_wp (tx ← on_store (BeginTx (Some ctx));
      match tx with
      | inl err => mret (inl (EWrap "failed to begin transaction: " err))
      | inr tx => in_tx tx (load_and_cache ctx w i)
      end) (snapshot_outcome w i t) t).
  { apply st_wp_bind, on_store_wp. eapply st_wp_mono; [apply BeginTx_law|]. intros [err|tx] s' [Hs Htx].
    - apply st_wp_ret, snapshot_failed. by repeat split.
    - apply in_tx_wp. eapply st_wp_mono; [by apply load_and_cache_wp|]. intros r p' Hr.
      eapply same_snapshot_outcome; [|exact Hr]. by repeat split. }
  destruct (snapshotCache t !! cache_key w i) as [c|] eqn:Ec; [|exact Hload].
  case_bool_decide as Hn; [|exact Hload]. apply st_wp_ret. by eapply snapshot_hit.
Qed.

Lemma snapshot_same w i t r t' : snapshot_outcome w i t r t' →
  content t' = content t ∧ syncID t' = syncID t ∧ knownWorkerTypes t' = knownWorkerTypes t ∧ warned t' = warned t.
Proof. by intros [err t'' (? & ? & ? & ? & ?)|c t'' _ _ (? & ? & ? & ? & ?)|t'' _ (? & ? & ? & ? & ?)]. Qed.

(** ** Reading the feed *)

(** The steps of a read of the feed: the store is asked, the snapshot of a known
    worker type is loaded, a warning is logged. *)
Inductive read_step (t t' : TS) : Prop :=
  | read_same : same t t' → read_step t t'
  | read_snapshot w i r : w ∈ knownWorkerTypes t → snapshot_outcome w i t r t' → read_step t t'
  | read_warned : content t' = content t → syncID t' = syncID t → snapshotCache t' = snapshotCache t →
      knownWorkerTypes t' = knownWorkerTypes t → warned t `prefix_of` warned t' → read_step t t'.

Definition reads : TS → TS → Prop := rtc read_step.

(** Reads change nothing but the cache and the warnings. *)
Lemma reads_quiet t t' : reads t t' →
  content t' = content t ∧ syncID t' = syncID t ∧ knownWorkerTypes t' = knownWorkerTypes t ∧ warned t `prefix_of` warned t'.
Proof.
  induction 1 as [|t u t' Hstep _ (Hc & Hn & Hk & Hw)]; [done|].
  assert (Hu : content u = content t ∧ syncID u = syncID t ∧ knownWorkerTypes u = knownWorkerTypes t ∧ warned t `prefix_of` warned u).
  { destruct Hstep as [(? & ? & ? & ? & Hw')|w i r _ (? & ? & ? & Hw')%snapshot_same|]; [by rewrite Hw'..|done]. }
  destruct Hu as (? & ? & ? & ?). split_and!; [congruence..|by etrans].
Qed.

Lemma reads_bind {A B} (m : St TS A) (f : A → St TS B) t :
  st_wp m (λ _ t', reads t t') t → (∀ a u, reads t u → st_wp (f a) (λ _ t', reads u t') u) → st_wp (m ≫= f) (λ _ t', reads t t') t.
Proof.
  intros Hm Hf. apply st_wp_bind. eapply st_wp_mono; [exact Hm|]. intros a u Hu.
  eapply st_wp_mono; [by apply Hf|]. intros b t' Ht'. exact (transitivity (R := rtc read_step) Hu Ht').
Qed.

Lemma reads_ret {A} (a : A) t : st_wp (mret a) (λ _ t', reads t t') t.
Proof. apply st_wp_ret, rtc_refl. Qed.

Lemma reads_same {A} (m : St TS A) (Q : A → TS → Prop) t : st_wp m (λ a t', same t t' ∧ Q a t') t → st_wp m (λ _ t', reads t t') t.
Proof. intros Hm. eapply st_wp_mono; [exact Hm|]. intros a t' [Ht _]. by apply rtc_once, read_same. Qed.

Lemma reads_known t u w : reads t u → w ∈ knownWorkerTypes t → w ∈ knownWorkerTypes u.
Proof. intros (_ & _ & -> & _)%reads_quiet. done. Qed.

Lemma bootstrap_workers_reads ctx w l t : w ∈ knownWorkerTypes t → st_wp (bootstrap_workers ctx w l) (λ _ t', reads t t') t.
Proof.
  revert t. induction l as [|d l IH]; intros t Hw; [apply reads_ret|]. cbn [bootstrap_workers]. apply reads_bind.
  - destruct (lookup_string d "id") as [i|]; [|apply reads_ret]. apply reads_bind; [|intros; apply reads_ret].
    eapply st_wp_mono; [apply LoadSnapshot_wp|]. intros r t' Hr. by eapply rtc_once, read_snapshot.
  - intros found u Hu. apply reads_bind; [by apply IH; eapply reads_known|]. intros; apply reads_ret.
Qed.

Lemma Find_wp c t : ∀ ctx, st_wp (on_store (Find (Some ctx) c)) (λ r t', same t t' ∧ match r with
  | inl e => IsErr e ErrNotFound = true → listing (content t) c []
  | inr l => listing (content t) c l end) t.
Proof. intros ctx. apply on_store_wp. eapply st_wp_mono; [apply Find_law|]. intros r s' [Hs Hr]. split; [by repeat split|done]. Qed.

Lemma bootstrap_types_reads ctx types t : (∀ w, w ∈ types → w ∈ knownWorkerTypes t) →
  st_wp (bootstrap_types ctx types) (λ _ t', reads t t') t.
Proof.
  revert t. induction types as [|w types IH]; intros t Hk; [apply reads_ret|]. cbn [bootstrap_types]. apply reads_bind.
  - eapply reads_same, Find_wp.
  - intros r u Hu. apply reads_bind.
    + destruct r; [apply reads_ret|]. apply bootstrap_workers_reads. eapply reads_known; [done|]. apply Hk. by left.
    + intros found v Hv. apply reads_bind; [|intros; apply reads_ret]. apply IH. intros w' Hw'.
      eapply reads_known; [exact Hv|]. eapply reads_known; [exact Hu|]. apply Hk. by right.
Qed.

Lemma buildBootstrap_reads ctx n t : st_wp (buildBootstrap ctx n) (λ _ t', reads t t') t.
Proof.
  unfold buildBootstrap. apply st_wp_bind. unfold st_wp at 1. cbn [read fst snd].
  apply reads_bind; [apply bootstrap_types_reads; intros w; by rewrite elem_of_elements|].
  intros ws u _. apply reads_bind; [|intros; apply reads_ret].
  apply (reads_same _ (λ _ _, True)). eapply st_wp_mono; [apply Now_wp|]. done.
Qed.

(** What a client is told: everything is up to date, the next deltas in order,
    or, when the log has none or cannot be read, the state of all workers. *)
Definition answer (n : Z) (t : TS) (r : DeltasResponse) : Prop :=
  LatestSyncID r = syncID t ∧
  if RequiresBootstrap r then Deltas r = [] ∧ is_Some (Bootstrap r) ∧ HasMore r = false
  else Bootstrap r = None ∧ Deltas r = to_delta <$> take deltaLimit (log_after n (content t)) ∧
       HasMore r = bool_decide (deltaLimit <= length (log_after n (content t)))%nat.

Lemma answer_same n t u r : content u = content t → syncID u = syncID t → answer n u r → answer n t r.
Proof. unfold answer. by intros -> ->. Qed.

Lemma bootstrapped_wp ctx n k (t : TS) : syncID t = k →
  st_wp (bootstrapped ctx k) (λ r t', reads t t' ∧ answer n t r) t.
Proof.
  intros Hk. apply st_wp_bind. eapply st_wp_mono; [apply buildBootstrap_reads|]. intros b t' Ht. apply st_wp_ret.
  split; [done|]. split; [done|]. split_and!; (done || by eexists).
Qed.

Lemma limited_take limit l : (0 < limit)%nat → limited limit l = take limit l.
Proof. intros Hl. unfold limited. case_bool_decide as Hb; [done|]. symmetry. apply take_ge. lia. Qed.

Lemma GetAllSince_wp ctx n (t : TS) : log_wf (content t) (syncID t) →
  st_wp (on_store (GetAllSince ctx n deltaLimit)) (λ r t', same t t' ∧ match r with
    | inl _ => True
    | inr l => l = take deltaLimit (log_after n (content t)) end) t.
Proof.
  intros Hwf. apply on_store_wp. apply st_wp_bind. eapply st_wp_mono; [apply Find_law|].
  intros [err|found] s' [Hs Hr]; apply st_wp_ret; (split; [by repeat split|]); [done|].
  rewrite limited_take by (unfold deltaLimit; lia). by rewrite (sorted_since (content t) (syncID t)).
Qed.

Lemma GetDeltas_wp ctx n (t : TS) : log_wf (content t) (syncID t) →
  st_wp (GetDeltas ctx n) (λ r t', reads t t' ∧ answer n t r) t.
Proof.
  intros Hwf. unfold GetDeltas. apply st_wp_bind. unfold st_wp at 1. cbn [read fst snd].
  destruct (syncID t <=? n) eqn:E.
  { apply st_wp_ret. split; [apply rtc_refl|]. unfold answer. rewrite (log_after_end _ _ _ Hwf) by lia. by split. }
  apply st_wp_bind. eapply st_wp_mono; [by apply GetAllSince_wp|]. intros [err|l] u [Hu Hl].
  - apply st_wp_bind. unfold st_wp at 1. cbn [warn fst snd]. pose proof Hu as (Hc & Hn & _).
    eapply st_wp_mono; [apply (bootstrapped_wp _ n); exact Hn|]. intros r t' [Hr Ha]. split; [|by eapply answer_same; [..|exact Ha]].
    eapply rtc_l; [by apply read_same, Hu|]. eapply rtc_l; [|exact Hr]. apply read_warned; try done. by apply prefix_app_r.
  - assert (Hans : ∀ r t', reads u t' ∧ answer n u r → reads t t' ∧ answer n t r).
    { intros r t' [Hr Ha]. pose proof Hu as (Hc & Hn & _). split; [|by eapply answer_same].
      eapply rtc_l; [by apply read_same, Hu|exact Hr]. }
    destruct l as [|e l]; [eapply st_wp_mono; [apply (bootstrapped_wp _ n); apply Hu|exact Hans]|].
    apply st_wp_ret, Hans. split; [apply rtc_refl|]. destruct Hu as (Hc & Hn & _). unfold answer. cbn -[deltaLimit length take].
    rewrite Hc, <- Hl. split_and!; try done. rewrite Hl, length_take. apply bool_decide_ext. lia.
Qed.
End feed.
