(* ===== verification/TriangularProperties.v ===== *)
(** * TriangularProperties: the contract of the worker stores

    What callers and subscribers of [TriangularStore] rely on, over any store
    that keeps the promises of [DocumentStore]: the change feed tells all,
    saves report changes, tombstones last, snapshots are current, compaction
    removes what has expired.  The witnesses run on [MemoryStore]. *)

From stdpp Require Import sorting.
From S2P Require Import Prelude Float64 GoRuntime GoBytes StateMonad Documents DocumentStore MemoryStore.
From S2P Require Import TriangularStore ChangeFeed TriangularFacts TriangularFeed.
From Stdlib Require Import Ascii.
Local Open Scope Z_scope.

(** ** Runs *)

Inductive Op :=
  | OpSaveIdentity (w i : string) (doc : option Document)
  | OpSaveDesired (w i : string) (doc : option Document)
  | OpSaveObserved (w i : string) (observed : ObservedState)
  | OpTombstone (w i deletedBy : string)
  | OpClearTombstone (w i : string)
  | OpLoadSnapshot (w i : string)
  | OpGetDeltas (lastSyncID : Z)
  | OpIncrementSyncID
  | OpMaintenance.

Section runs.
Context {S Tx : Type} `{World S} `{!Store S Tx}.

Definition discard {A} (m : St (TriangularStore S) A) : St (TriangularStore S) unit := _ ← m; mret tt.

Definition perform (ctx : Ctx) (op : Op) : St (TriangularStore S) unit :=
  match op with
  | OpSaveIdentity w i doc => discard (SaveIdentity ctx w i doc)
  | OpSaveDesired w i doc => discard (SaveDesired ctx w i doc)
  | OpSaveObserved w i o => discard (SaveObserved ctx w i o)
  | OpTombstone w i by_ => discard (Tombstone ctx w i by_)
  | OpClearTombstone w i => discard (ClearTombstone ctx w i)
  | OpLoadSnapshot w i => discard (LoadSnapshot ctx w i)
  | OpGetDeltas n => discard (GetDeltas ctx n)
  | OpIncrementSyncID => discard IncrementSyncID
  | OpMaintenance => Maintenance
  end.

Fixpoint perform_all (ctx : Ctx) (ops : list Op) : St (TriangularStore S) unit :=
  match ops with [] => mret tt | op :: rest => _ ← perform ctx op; perform_all ctx rest end.
End runs.

Section properties.
Context {S Tx : Type} `{StoreLaws S Tx}.

Abbreviation TS := (TriangularStore S).

Lemma discard_wp {A} (m : St TS A) (Q : TS → Prop) t : st_wp m (λ _ t', Q t') t → st_wp (discard m) (λ _ t', Q t') t.
Proof. intros Hm. apply st_wp_bind. eapply st_wp_mono; [exact Hm|]. done. Qed.

(** *** The saves of the three roles *)

Definition registered (w : string) (t : TS) : TS :=
  mkTS (store t) (syncID t) (snapshotCache t) ({[w]} ∪ knownWorkerTypes t) (warned t).

Lemma SaveIdentity_wp ctx w i doc t :
  st_wp (SaveIdentity ctx w i doc) (λ '(err, doc') t', ∃ r, saved w i doc IdentitySaveOptions (registered w t) r doc' t' ∧
    err = match r with inl e => Some e | inr _ => None end) t.
Proof.
  apply st_wp_bind. unfold st_wp at 1. cbn [registerWorkerType fst snd]. apply st_wp_bind.
  eapply st_wp_mono; [apply saveWithDelta_wp|]. intros [r doc'] t' Hr. apply st_wp_ret. by exists r.
Qed.

Lemma SaveDesired_wp ctx w i doc t :
  st_wp (SaveDesired ctx w i doc) (λ '(res, doc') t', ∃ r, saved w i doc DesiredSaveOptions t r doc' t' ∧
    res = match r with inl e => inl e | inr (changed, _) => inr changed end) t.
Proof.
  apply st_wp_bind. eapply st_wp_mono; [apply saveWithDelta_wp|]. intros [r doc'] t' Hr. apply st_wp_ret. by exists r.
Qed.

(** The document [SaveObserved] saves. *)
Definition observed_document (i : string) (o : ObservedState) : GoErr + Document :=
  match toDocument o with inl err => inl err | inr d => inr (<["id" := VString i]> d) end.

Lemma SaveObserved_wp ctx w i o t :
  st_wp (SaveObserved ctx w i o) (λ '(res, doc') t',
    match observed_document i o with
    | inl _ => t' = t ∧ ∃ err, res = inl err
    | inr d => ∃ r, saved w i (Some d) ObservedSaveOptions t r doc' t' ∧
        res = match r with inl e => inl e | inr (changed, _) => inr changed end
    end) t.
Proof.
  unfold SaveObserved, observed_document. destruct (toDocument o) as [err|d]; [apply st_wp_ret; eauto|].
  apply st_wp_bind. eapply st_wp_mono; [apply saveWithDelta_wp|]. intros [r doc'] t' Hr. apply st_wp_ret. by exists r.
Qed.

Lemma Tombstone_wp ctx w i by_ t : 0 <= syncID t → syncID t + 3 < 2 ^ 63 →
  st_wp (Tombstone ctx w i by_) (λ r t', ∃ r0, edit_outcome w i (add_tombstone by_) t r0 t' ∧ (r = None ↔ r0 = None)) t.
Proof.
  intros. apply st_wp_bind. eapply st_wp_mono; [by apply editRoleDocuments_wp|]. intros r t' Hr. apply st_wp_ret.
  exists r. by destruct r.
Qed.

Lemma ClearTombstone_wp ctx w i t : 0 <= syncID t → syncID t + 3 < 2 ^ 63 →
  st_wp (ClearTombstone ctx w i) (λ r t', ∃ r0, edit_outcome w i remove_tombstone t r0 t' ∧ (r = None ↔ r0 = None)) t.
Proof.
  intros. apply st_wp_bind. eapply st_wp_mono; [by apply editRoleDocuments_wp|]. intros r t' Hr. apply st_wp_ret.
  exists r. by destruct r.
Qed.

(** *** What one operation does: a save, an edit, a read, or a step of the sync id *)
Inductive op_effect (t : TS) : Op → TS → Prop :=
  | effect_identity w i doc r doc' t' : saved w i doc IdentitySaveOptions (registered w t) r doc' t' → op_effect t (OpSaveIdentity w i doc) t'
  | effect_desired w i doc r doc' t' : saved w i doc DesiredSaveOptions t r doc' t' → op_effect t (OpSaveDesired w i doc) t'
  | effect_observed w i o d r doc' t' : saved w i (Some d) ObservedSaveOptions t r doc' t' → op_effect t (OpSaveObserved w i o) t'
  | effect_refused w i o : op_effect t (OpSaveObserved w i o) t
  | effect_tombstone w i by_ r t' : edit_outcome w i (add_tombstone by_) t r t' → op_effect t (OpTombstone w i by_) t'
  | effect_clear w i r t' : edit_outcome w i remove_tombstone t r t' → op_effect t (OpClearTombstone w i) t'
  | effect_snapshot w i r t' : snapshot_outcome w i t r t' → op_effect t (OpLoadSnapshot w i) t'
  | effect_deltas n t' : reads t t' → op_effect t (OpGetDeltas n) t'
  | effect_increment t' : content t' = content t → syncID t' = syncID t + 1 → snapshotCache t' = snapshotCache t →
      knownWorkerTypes t' = knownWorkerTypes t → warned t' = warned t → op_effect t OpIncrementSyncID t'
  | effect_maintenance t' : content t' = content t → syncID t' = syncID t → snapshotCache t' = ∅ →
      knownWorkerTypes t' = knownWorkerTypes t → warned t' = warned t → op_effect t OpMaintenance t'.

Lemma perform_wp ctx op t : sound (content t) (syncID t) → syncID t + 3 < 2 ^ 63 →
  st_wp (perform ctx op) (λ _ t', op_effect t op t') t.
Proof.
  intros Hs Hb. pose proof (sound_sync _ _ Hs) as Hn. destruct op as [w i doc|w i doc|w i o|w i by_|w i|w i|n| |]; cbn [perform].
  - apply discard_wp. eapply st_wp_mono; [apply SaveIdentity_wp|]. intros [err doc'] t' (r & Hr & _). by econstructor.
  - apply discard_wp. eapply st_wp_mono; [apply SaveDesired_wp|]. intros [res doc'] t' (r & Hr & _). by econstructor.
  - apply discard_wp. eapply st_wp_mono; [apply SaveObserved_wp|]. intros [res doc'] t'.
    destruct (observed_document i o); [intros [-> _]; constructor|intros (r & Hr & _); by econstructor].
  - apply discard_wp. eapply st_wp_mono; [by apply Tombstone_wp|]. intros r t' (r0 & Hr & _). by econstructor.
  - apply discard_wp. eapply st_wp_mono; [by apply ClearTombstone_wp|]. intros r t' (r0 & Hr & _). by econstructor.
  - apply discard_wp. eapply st_wp_mono; [apply LoadSnapshot_wp|]. intros r t' Hr. by econstructor.
  - apply discard_wp. eapply st_wp_mono; [apply GetDeltas_wp, Hs|]. intros r t' [Hr _]. by econstructor.
  - apply discard_wp. unfold st_wp, IncrementSyncID, next_sync_id. rewrite wrap_i64_small by lia. by constructor.
  - unfold st_wp, Maintenance. by constructor.
Qed.

Lemma op_effect_advances t op t' : op_effect t op t' → advances 3 t t'.
Proof.
  assert (Hregistered : ∀ w k u, advances k (registered w t) u → advances k t u) by done.
  destruct 1 as [w i doc r doc' t' Hr|w i doc r doc' t' Hr|w i o d r doc' t' Hr|w i o|w i by_ r t' Hr|w i r t' Hr|w i r t' Hr|n t' Hr
    |t' Hc Hn _ _ Hw|t' Hc Hn _ _ Hw].
  - apply (saved_advances _ _ _ IdentitySaveOptions) in Hr; [|reflexivity]. apply (Hregistered w). eapply advances_more; [|exact Hr]; lia.
  - eapply saved_advances in Hr; [|reflexivity]. eapply advances_more; [|exact Hr]; lia.
  - eapply saved_advances in Hr; [|reflexivity]. eapply advances_more; [|exact Hr]; lia.
  - eapply advances_more; [|by apply advances_same]; lia.
  - by eapply edit_advances, Hr; apply add_tombstone_ok.
  - by eapply edit_advances, Hr; apply remove_tombstone_ok.
  - apply snapshot_same in Hr as (Hc & Hn & _ & Hw). intros Hs Hb. rewrite Hc, Hn, Hw. split_and!; [done|lia|lia|done|done].
  - apply reads_quiet in Hr as (Hc & Hn & _ & Hw). intros Hs Hb. rewrite Hc, Hn. split_and!; [done|lia|lia|done|done].
  - intros Hs Hb. rewrite Hc, Hn, Hw. split_and!; [eapply sound_mono; [done|lia]|lia|lia|done|done].
  - intros Hs Hb. rewrite Hc, Hn, Hw. split_and!; [done|lia|lia|done|done].
Qed.

(** The stores begin empty. *)
Definition fresh (t : TS) : Prop := content t = ∅ ∧ syncID t = 0 ∧ snapshotCache t = ∅ ∧ warned t = [] ∧ knownWorkerTypes t = ∅.

Lemma fresh_sound t : fresh t → sound (content t) (syncID t).
Proof.
  intros (-> & -> & _). split; [intros c i d Hd; by rewrite lookup_empty in Hd|intros i d Hd; by rewrite lookup_empty in Hd|done].
Qed.

(** Rule induction over a run: what holds at the start and is kept by the effect
    of each operation holds at the end. *)
Lemma run_ind (P : TS → Prop) ctx ops t :
  (∀ op u u', sound (content u) (syncID u) → syncID u + 3 < 2 ^ 63 → op ∈ ops → op_effect u op u' → P u → P u') →
  sound (content t) (syncID t) → syncID t + 3 * Z.of_nat (length ops) < 2 ^ 63 → P t →
  st_wp (perform_all ctx ops) (λ _ t', P t' ∧ sound (content t') (syncID t') ∧ syncID t' < 2 ^ 63 ∧
    advances (3 * Z.of_nat (length ops)) t t') t.
Proof.
  revert t. induction ops as [|op ops IH]; intros t Hstep Hs Hb Hp; cbn [length perform_all] in *.
  { apply st_wp_ret. split_and!; [done|done|lia|]. by apply advances_same. }
  apply st_wp_bind. eapply st_wp_mono; [apply perform_wp; [done|lia]|]. intros [] u Hu.
  pose proof (op_effect_advances _ _ _ Hu) as Ha. destruct (Ha Hs) as (Hsu & Hru & _); [lia|].
  eapply st_wp_mono; [apply IH; [|done|lia|]|].
  - intros op' v v' Hv Hbv Hin. apply Hstep; [done|done|right; done].
  - apply (Hstep op t u Hs); [lia|by left|done|done].
  - intros [] t' (Hp' & Hs' & Hb' & Ha'). split_and!; [done..|]. rewrite Nat2Z.inj_succ.
    replace (3 * Z.succ _) with (3 + 3 * Z.of_nat (length ops)) by lia. by eapply advances_trans; [| |lia].
Qed.

(** C38: Until it is compacted, the change feed tells everything a client may see.
    After any run of saves, tombstones, clearings, snapshot loads, reads of the
    feed, id reservations and maintenance (but no compaction, which drops
    deltas: [compaction_leaves_a_gap]) from empty stores, in which no append to the
    log was reported as failed, a client that replays the stored deltas in
    order has, for every worker and role, exactly the visible fields of the
    stored document (the tombstone included), with the values JSON makes of
    them: nothing is missing, stale or left over, whatever the underlying
    store answers. *)
Theorem feed_follows_the_store ctx ops t :
  fresh t → 3 * Z.of_nat (length ops) < 2 ^ 63 →
  warned (perform_all ctx ops t).2 = [] →
  ∀ w role i k, k ∉ hidden →
    replica (delta_log (content (perform_all ctx ops t).2)) w role i !! k =
    json_value <$> (role_document (content (perform_all ctx ops t).2) w role i !! k).
Proof.
  intros Hf Hb Hw. pose proof (fresh_sound _ Hf) as Hs. destruct Hf as (Hc & Hn & _ & Hw0 & _).
  destruct (run_ind (λ _, True) ctx ops t) as (_ & _ & _ & Ha); [done|done|lia|done|].
  destruct (Ha Hs) as (_ & _ & _ & Hsync); [lia|]. rewrite Hw, Hw0 in Hsync.
  assert (Hempty : synced [] (content t)).
  { intros w role i k Hk. rewrite Hc. unfold role_document. rewrite lookup_empty. cbn. by rewrite !lookup_empty. }
  intros w role i k Hk. specialize (Hsync eq_refl Hempty w role i k Hk). by rewrite app_nil_r in Hsync.
Qed.

(** *** Snapshots are current *)

(** Worker types without an underscore make unambiguous cache keys. *)
Definition simple (w : string) : Prop := "_"%char ∉ String.list_ascii_of_string w.

Lemma split_unique {A} (x : A) l l' r r' : x ∉ l → x ∉ l' → l ++ x :: r = l' ++ x :: r' → l = l' ∧ r = r'.
Proof.
  revert l'. induction l as [|a l IH]; intros [|a' l'] Hl Hl' Heq; simplify_eq/=; try done.
  - by destruct Hl'; left.
  - by destruct Hl; left.
  - destruct (IH l') as [-> ->]; [by intros ?; apply Hl; right|by intros ?; apply Hl'; right|done|done].
Qed.

Lemma list_ascii_inj (a b : string) : String.list_ascii_of_string a = String.list_ascii_of_string b → a = b.
Proof. intros Hl. rewrite <- (String.string_of_list_ascii_of_string a), Hl. apply String.string_of_list_ascii_of_string. Qed.

Lemma cache_key_inj w i w' i' : simple w → simple w' → cache_key w i = cache_key w' i' → w = w' ∧ i = i'.
Proof.
  intros Hw Hw' Heq. apply (f_equal String.list_ascii_of_string) in Heq. unfold cache_key in Heq.
  rewrite !list_ascii_app in Heq. apply split_unique in Heq as [H1%list_ascii_inj H2%list_ascii_inj]; done.
Qed.

(** A cached snapshot is never from the future, and one from the present shows
    the documents as they are. *)
Record coherent (t : TS) : Prop := {
  coherent_known : ∀ w, w ∈ knownWorkerTypes t → simple w;
  coherent_past : ∀ key c, snapshotCache t !! key = Some c → cached_syncID c <= syncID t;
  coherent_present : ∀ w i c, simple w → snapshotCache t !! cache_key w i = Some c → cached_syncID c = syncID t →
    snapshot c = live (content t) w i }.

Lemma coherent_step t t' : coherent t →
  (∀ w, w ∈ knownWorkerTypes t' → simple w) →
  (∀ key c, snapshotCache t' !! key = Some c → snapshotCache t !! key = Some c) → syncID t <= syncID t' →
  (syncID t' = syncID t → ∀ w i, simple w → is_Some (snapshotCache t' !! cache_key w i) → live (content t') w i = live (content t) w i) →
  coherent t'.
Proof.
  intros [Hk Hp Hc] Hk' Hsub Hn Hlive. split; [done| |].
  - intros key c Hkey. apply Hsub, Hp in Hkey. lia.
  - intros w i c Hw Hkey Hsync. pose proof (Hp _ _ (Hsub _ _ Hkey)).
    assert (Heq : syncID t' = syncID t) by lia. rewrite (Hlive Heq) by (done || by eexists).
    apply Hc; [done|by apply Hsub|lia].
Qed.

Lemma coherent_later t t' : coherent t → (∀ w, w ∈ knownWorkerTypes t' → simple w) →
  (∀ key c, snapshotCache t' !! key = Some c → snapshotCache t !! key = Some c) → syncID t < syncID t' → coherent t'.
Proof. intros Hc Hk Hsub Hn. apply (coherent_step t); try done; lia. Qed.

Lemma coherent_still t t' : coherent t → knownWorkerTypes t' = knownWorkerTypes t →
  (∀ key c, snapshotCache t' !! key = Some c → snapshotCache t !! key = Some c) → syncID t <= syncID t' →
  content t' = content t → coherent t'.
Proof.
  intros Hc Hk Hsub Hn Hcont. apply (coherent_step t); try done; [rewrite Hk; apply Hc|]. intros _ w i _ _. by rewrite Hcont.
Qed.

Lemma coherent_same t t' : coherent t → same t t' → coherent t'.
Proof.
  intros Hc (Hcont & Hn & Hcache & Hk & _). apply (coherent_still t); try done; [by rewrite Hcache|lia].
Qed.

Lemma lookup_delete_sub {A} (m : gmap string A) k key c : delete k m !! key = Some c → m !! key = Some c.
Proof. intros Hd. by apply lookup_delete_Some in Hd as [_ Hd]. Qed.

Lemma feeds_rest w i r n diff t t' : feeds w i r n diff t t' →
  syncID t' = syncID t ∧ snapshotCache t' = snapshotCache t ∧ knownWorkerTypes t' = knownWorkerTypes t.
Proof.
  unfold feeds. destruct diff; [intros (now & ? & ? & ? & _)|intros (_ & ? & ? & ? & _)]; done.
Qed.

Lemma live_write m w r i d w' i' : ¬ (w = w' ∧ i = i') → live (<[(collection w r, i) := d]> m) w' i' = live m w' i'.
Proof.
  intros Hne. assert (Hk : ∀ r', (collection w r, i) ≠ (collection w' r', i')).
  { intros r' [= Hc Hi]. apply collection_inj in Hc as [-> _]. tauto. }
  unfold live. by rewrite !lookup_insert_ne by apply Hk.
Qed.

Lemma save_coherent w i d opts t r doc' t' : simple w → - 2 ^ 63 <= syncID t → syncID t + 1 < 2 ^ 63 →
  save_outcome w i d opts t r doc' t' → coherent t → coherent t'.
Proof.
  intros Hw Hlo Hb Hout Hco. destruct Hout as [err u Hu|e r u He _ Ht|ex err d' u Hex _ [_ Hst]|ex ch d' u Hex _ [_ Hst]].
  - by eapply coherent_same.
  - unfold touched in Ht. destruct r as [err|res]; [by eapply coherent_same|]. destruct Ht as [_ Ht].
    destruct (UpdateTimestampOnNoChange opts); [|by eapply coherent_same].
    destruct Ht as ([now Hc] & Hn & Hcache & Hk & _). apply (coherent_step t); [done|rewrite Hk; apply Hco| |lia|].
    + intros key c. rewrite Hcache. apply lookup_delete_sub.
    + intros _ w' i' Hw' [c Hkey]. rewrite Hc. apply live_write. intros [-> ->].
      by rewrite Hcache, lookup_delete_eq in Hkey.
  - destruct Hst as (Hc & Hn & Hcache & Hk & _). rewrite wrap_i64_small in Hn by lia.
    apply (coherent_still t); [done|done|by rewrite Hcache|lia|done].
  - destruct Hst as (x & v & Hc & Hn & Hcache & Hk & _ & Hf & ->). rewrite wrap_i64_small in Hn, Hf by lia.
    apply feeds_rest in Hf as (Hn' & Hcache' & Hk'). apply (coherent_later t); cbn; [done| | |lia].
    + rewrite Hk', Hk. apply Hco.
    + intros key c Hkey. apply lookup_delete_sub in Hkey. congruence.
Qed.

Lemma fed_rest at_ w i written t t' : fed at_ w i written t t' →
  syncID t' = syncID t ∧ snapshotCache t' = snapshotCache t ∧ knownWorkerTypes t' = knownWorkerTypes t ∧
  (written = [] → content t' = content t).
Proof.
  revert t. induction written as [|c rest IH]; intros t; cbn; [by intros (? & ? & ? & ? & _)|].
  intros (u & (Hn & Hc & Hk & _) & (Hn' & Hc' & Hk' & _)%IH). split_and!; congruence.
Qed.

Lemma edit_coherent w i edit t r t' : edit_outcome w i edit t r t' → coherent t → coherent t'.
Proof.
  intros [err n u (Hc & Hn & Hcache & Hk & _) Hr|at_ u v t'' l Hu Hsu Hcu Hku _ Hfed Hsame] Hco.
  - apply (coherent_still t); [done|done|by rewrite Hcache|lia|done].
  - eapply coherent_same; [|exact Hsame]. apply fed_rest in Hfed as (Hn & Hcache & Hk & Hnil).
    assert (Hsub : ∀ key c, delete (cache_key w i) (snapshotCache v) !! key = Some c → snapshotCache t !! key = Some c).
    { intros key c Hkey. apply lookup_delete_sub in Hkey. congruence. }
    destruct l as [|c rest] eqn:El.
    + apply (coherent_still t); cbn; [done|congruence|done|cbn in Hsu; lia|].
      change (content (mkTS _ _ _ _ _)) with (content v). by rewrite (Hnil eq_refl), Hu.
    + apply (coherent_later t); cbn; [done|rewrite Hk, Hku; apply Hco|done|cbn in Hsu; lia].
Qed.

Lemma snapshot_coherent w i t r t' : simple w → snapshot_outcome w i t r t' → coherent t → coherent t'.
Proof.
  intros Hw [err u Hu|c u _ _ Hu|u _ (Hc & Hn & Hcache & Hk & _)] Hco; [by eapply coherent_same..|].
  destruct Hco as [Hk0 Hp Hpres]. split; [by rewrite Hk| |].
  - intros key c. rewrite Hcache, Hn. destruct (decide (cache_key w i = key)) as [<-|Hne].
    + rewrite lookup_insert_eq. intros [= <-]. cbn. lia.
    + rewrite lookup_insert_ne by done. apply Hp.
  - intros w' i' c Hw'. rewrite Hcache, Hn, Hc. destruct (decide (cache_key w i = cache_key w' i')) as [Heq|Hne].
    + rewrite Heq, lookup_insert_eq. intros [= <-]. apply cache_key_inj in Heq as [-> ->]; done.
    + rewrite lookup_insert_ne by done. by apply Hpres.
Qed.

Lemma reads_coherent t t' : reads t t' → coherent t → coherent t'.
Proof.
  induction 1 as [|t u t' Hstep _ IH]; [done|]. intros Hco. apply IH.
  destruct Hstep as [Hu|w i r Hw Hu|Hc Hn Hcache Hk _].
  - by eapply coherent_same.
  - eapply snapshot_coherent; [|done|done]. by apply Hco.
  - apply (coherent_still t); [done|done|by rewrite Hcache|lia|done].
Qed.

Definition op_worker (op : Op) : option string :=
  match op with
  | OpSaveIdentity w _ _ | OpSaveDesired w _ _ | OpSaveObserved w _ _ | OpTombstone w _ _ | OpClearTombstone w _ | OpLoadSnapshot w _ => Some w
  | _ => None
  end.

Lemma saved_coherent w i doc opts t r doc' t' : simple w → 0 <= syncID t → syncID t + 1 < 2 ^ 63 →
  saved w i doc opts t r doc' t' → coherent t → coherent t'.
Proof.
  intros Hw Hn Hb [err _|d r0 d' u v _ Hout Hsame] Hco; [done|]. eapply coherent_same; [|exact Hsame].
  apply (save_coherent w i d opts t r0 d' u); [exact Hw|lia|done|exact Hout|done].
Qed.

Lemma op_coherent op t t' : (∀ w, op_worker op = Some w → simple w) → sound (content t) (syncID t) → syncID t + 3 < 2 ^ 63 →
  op_effect t op t' → coherent t → coherent t'.
Proof.
  intros Hw Hs Hb Heff Hco. pose proof (sound_sync _ _ Hs) as Hn.
  assert (Hsaved : ∀ w i doc opts u r doc' u', simple w → same t u ∨ u = registered w t → saved w i doc opts u r doc' u' → coherent u').
  { intros w i doc opts u r doc' u' Hsw Hu Hsv. assert (syncID u = syncID t) by (destruct Hu as [(_ & ? & _)| ->]; done).
    apply (saved_coherent w i doc opts u r doc' u'); [exact Hsw|lia|lia|exact Hsv|]. destruct Hu as [Hu| ->]; [by eapply coherent_same|].
    destruct Hco as [Hk Hp Hc]. split; [|done..]. cbn. intros w' Hw'%elem_of_union. destruct Hw' as [->%elem_of_singleton|Hw']; auto. }
  destruct Heff as [w i doc r doc' t' Hr|w i doc r doc' t' Hr|w i o d r doc' t' Hr|w i o|w i by_ r t' Hr|w i r t' Hr|w i r t' Hr|n t' Hr
    |t' Hc Hn' Hcache Hk _|t' Hc Hn' Hcache Hk _].
  - eapply (Hsaved w); [by apply Hw|by right|exact Hr].
  - eapply (Hsaved w); [by apply Hw|left; apply same_refl|exact Hr].
  - eapply (Hsaved w); [by apply Hw|left; apply same_refl|exact Hr].
  - done.
  - by eapply edit_coherent.
  - by eapply edit_coherent.
  - eapply snapshot_coherent; [by apply Hw|done|done].
  - by eapply reads_coherent.
  - apply (coherent_still t); [done|done|by rewrite Hcache|lia|done].
  - apply (coherent_still t); [done|done|by rewrite Hcache|lia|done].
Qed.

Lemma fresh_coherent t : fresh t → coherent t.
Proof.
  intros (_ & _ & Hc & _ & Hk). split.
  - intros w Hw. rewrite Hk in Hw. by apply not_elem_of_empty in Hw.
  - intros key c Hkey. by rewrite Hc, lookup_empty in Hkey.
  - intros w i c _ Hkey. by rewrite Hc, lookup_empty in Hkey.
Qed.

(** C39: A snapshot shows the documents as they are stored.  After any run from
    empty stores, with worker types that contain no underscore, a snapshot that
    loads without an error is the JSON copy of the three documents the store
    holds for the worker at that moment, cached or not: no save, tombstone,
    timestamp update or failed write leaves a stale snapshot behind. *)
Theorem snapshots_are_current ctx ops t w i s :
  fresh t → 3 * Z.of_nat (length ops) < 2 ^ 63 →
  (∀ op v, op ∈ ops → op_worker op = Some v → simple v) → simple w →
  (LoadSnapshot ctx w i (perform_all ctx ops t).2).1 = inr s →
  s = cloneSnapshot (live (content (perform_all ctx ops t).2) w i).
Proof.
  intros Hf Hb Hops Hw Hload. pose proof (fresh_sound _ Hf) as Hs. pose proof (fresh_coherent _ Hf) as Hco.
  destruct (run_ind coherent ctx ops t) as (Hco' & Hs' & Hb' & _); [|done|destruct Hf as (_ & -> & _); lia|done|].
  { intros op u u' Hsu Hbu Hin. apply op_coherent; [|done|done]. intros v. by apply Hops. }
  set (t' := (perform_all ctx ops t).2) in *. pose proof (LoadSnapshot_wp ctx w i t') as Ho. unfold st_wp in Ho.
  rewrite Hload in Ho. inversion Ho as [|c u Hkey Hsync _|u _ _]; subst; [|done].
  f_equal. by apply (coherent_present _ Hco').
Qed.

(** *** Saves report what they change *)

Definition managed : list string := [FieldSyncID; FieldVersion; FieldCreatedAt; FieldUpdatedAt; FieldDeletedAt; FieldDeletedBy].

Lemma append_log_role (e : DeltaEntry) (m : Content) w r (i : string) : append_log e m !! (collection w r, i) = m !! (collection w r, i).
Proof. unfold append_log. rewrite lookup_insert_ne; [done|]. intros [= Hc _]. by apply (collection_not_log w r). Qed.

Lemma appended_role e t t' w r i : appended e t t' → content t' !! (collection w r, i) = content t !! (collection w r, i).
Proof. intros (_ & _ & _ & [(_ & _ & ->)|[_ ->]]); [apply append_log_role|done]. Qed.

Lemma feeds_role w i r n diff t t' w' r' i' : feeds w i r n diff t t' →
  content t' !! (collection w' r', i') = content t !! (collection w' r', i').
Proof. unfold feeds. destruct diff; [intros [now Ha]; by eapply appended_role|by intros (-> & _)]. Qed.

(** The role documents after a save: the one that is saved, and the others as they were. *)
Definition wrote (w : string) (r : Role) (i : string) (d : Document) (t t' : TS) : Prop :=
  ∀ w' r' i', content t' !! (collection w' r', i') =
    if decide (w = w' ∧ r = r' ∧ i = i') then Some d else content t !! (collection w' r', i').

Lemma lookup_role_write (m : Content) w r (i : string) (d : Document) w' r' (i' : string) :
  (<[(collection w r, i) := d]> m : Content) !! (collection w' r', i') =
  if decide (w = w' ∧ r = r' ∧ i = i') then Some d else m !! (collection w' r', i').
Proof.
  destruct (decide _) as [(<- & <- & <-)|Hn]; [by rewrite lookup_insert_eq|].
  rewrite lookup_insert_ne; [done|]. intros [= Hc Hi]. apply collection_inj in Hc as [-> ->]. tauto.
Qed.

Lemma stored_wrote w i d opts ex diff t doc' t' : stored w i d opts ex diff t true doc' t' →
  wrote w (opt_Role opts) i doc' t t' ∧ ∃ now, doc' = stamped ex opts (wrap_i64 (syncID t + 1)) now d.
Proof.
  intros [Hnow (u & v & Hc & _ & _ & _ & _ & Hf & ->)]. split; [|done]. intros w' r' i'.
  change (content (mkTS _ _ _ _ _)) with (content v). rewrite (feeds_role _ _ _ _ _ _ _ _ _ _ Hf), Hc. apply lookup_role_write.
Qed.

Lemma metadata_sync d opts new now n : metadata (<[FieldSyncID := n]> d) opts new now !! FieldSyncID = Some n.
Proof. rewrite lookup_metadata by decided. apply lookup_insert_eq. Qed.

(** A save reports exactly what it does.  When it fails nothing is stored;
    when it reports a change the document stored under the id carries every
    business field of the caller's document and no other, and a fresh sync id,
    and there was none before or one of the given fields is new; when it
    reports no change every given field (but the excluded ones) already has its
    value, and nothing is stored, except a new [_updated_at] for observed state. *)
Theorem saves_report_changes ctx w i doc opts t :
  opts ∈ [IdentitySaveOptions; DesiredSaveOptions; ObservedSaveOptions] →
  match (saveWithDelta ctx w i doc opts t).1.1, (saveWithDelta ctx w i doc opts t).2 with
  | inl _, t' => content t' = content t
  | inr (true, _), t' => ∃ d d', doc = Some d ∧ d !! "id"%string = Some (VString i) ∧
      (∀ e, content t !! (collection w (opt_Role opts), i) = Some e → ¬ nothing_new (opt_Role opts) e d) ∧
      wrote w (opt_Role opts) i d' t t' ∧ (∀ k, k ∉ managed → d' !! k = d !! k) ∧
      d' !! FieldSyncID = Some (VInt64 (wrap_i64 (syncID t + 1)))
  | inr (false, _), t' => ∃ d e e', doc = Some d ∧ content t !! (collection w (opt_Role opts), i) = Some e ∧
      nothing_new (opt_Role opts) e d ∧ wrote w (opt_Role opts) i e' t t' ∧
      (∀ k, k ≠ FieldUpdatedAt → e' !! k = e !! k) ∧ (opt_Role opts ≠ RoleObserved → e' = e)
  end.
Proof.
  intros Hopts. pose proof (saveWithDelta_wp ctx w i doc opts t) as Hwp. unfold st_wp in Hwp.
  destruct (saveWithDelta ctx w i doc opts t) as [[r doc'] t']. cbn [fst snd] in *.
  assert (Hskip : SkipDeltaCheck opts = false ∧ (opt_Role opts ≠ RoleObserved → UpdateTimestampOnNoChange opts = false)).
  { repeat (apply elem_of_cons in Hopts as [->|Hopts]; [done|]). by apply not_elem_of_nil in Hopts. }
  destruct Hskip as [Hskip Hupd].
  inversion Hwp as [err|d r0 d' u v Hacc Hout Hsame]; subst; [done|].
  apply acceptable_Some in Hacc as (-> & Hid & _). destruct Hsame as [Hsame _]. unfold wrote. rewrite Hsame.
  destruct Hout as [err u [Hu _]|e r0 u He Hnn Ht|ex err d' u Hex _ [_ (Hu & _)]|ex ch d' u Hex Hnews Hst]; cbn [changed result_diff].
  - done.
  - unfold touched in Ht. destruct r0 as [err|res]; [apply Ht|]. destruct Ht as [-> Ht]. cbn [changed result_diff].
    exists d, e. destruct (UpdateTimestampOnNoChange opts).
    + destruct Ht as ([now ->] & _). exists (<[FieldUpdatedAt := VTime now]> e).
      split; [done|]. split; [done|]. split; [done|]. split; [intros; apply lookup_role_write|split].
      * intros k Hk. by rewrite lookup_insert_ne.
      * intros Hr. by apply Hupd in Hr.
    + destruct Ht as (-> & _). exists e. split_and!; try done. intros w' r' i'. destruct (decide _) as [(<- & <- & <-)|]; done.
  - done.
  - apply stored_wrote in Hst as [Hw [now ->]]. eexists d, _. split; [done|]. split; [done|]. split_and!.
    + intros e He. rewrite He in Hex. subst ex. cbn in Hnews. rewrite Hskip in Hnews. by destruct Hnews.
    + exact Hw.
    + intros k Hk. unfold managed in Hk. rewrite lookup_stamped, decide_False; [done|..]; unfold tombstone_fields;
        repeat rewrite not_elem_of_cons in Hk; repeat rewrite not_elem_of_cons; tauto.
    + apply metadata_sync.
Qed.

(** *** Tombstones *)

(** An edited document, as the edit of all roles leaves it. *)
Definition edits_to (edit : Edit) (d d' : Document) : Prop :=
  ∃ at_ n, match edit d at_ with Some (x, _) => d' = <[FieldSyncID := VInt64 n]> x | None => d' = d end.

Lemma put_edited_lookup m m0 edit at_ w i roles n r : NoDup roles →
  (∀ r', r' ∈ roles → m !! (collection w r', i) = m0 !! (collection w r', i)) →
  let m' := foldl (put w i) m (edited m0 edit at_ w i roles n) in
  (∀ c j, (∀ r', c ≠ collection w r' ∨ j ≠ i) → m' !! (c, j) = m !! (c, j)) ∧
  (r ∉ roles → m' !! (collection w r, i) = m !! (collection w r, i)) ∧
  (r ∈ roles → match m !! (collection w r, i) with
    | Some d => ∃ d', m' !! (collection w r, i) = Some d' ∧ edits_to edit d d'
    | None => m' !! (collection w r, i) = None end).
Proof.
  revert m n. induction roles as [|role roles IH]; intros m n Hnd Hm; cbn [edited].
  { cbn. split_and!; try done. intros Hr. by apply not_elem_of_nil in Hr. }
  apply NoDup_cons in Hnd as [Hrole Hnd]. pose proof (Hm role ltac:(by left)) as Hrm. rewrite <- Hrm.
  destruct (m !! (collection w role, i) ≫= _) as [[d' diff]|] eqn:E.
  - cbn [foldl]. set (c := (_, mkWrite _ _ _)). assert (Hput : put w i m c = <[(collection w role, i) := c.1]> m) by done.
    destruct (IH (put w i m c) (n + 1)) as (Hother & Hout & Hin); [done| |].
    { intros r' Hr'. rewrite Hput, lookup_insert_ne; [apply Hm; by right|]. intros [= Hc]. apply collection_inj in Hc as [_ ->]. done. }
    assert (Hkeep : ∀ r', r' ≠ role → put w i m c !! (collection w r', i) = m !! (collection w r', i)).
    { intros r' Hne. rewrite Hput, lookup_insert_ne; [done|]. intros [= Hc]. apply collection_inj in Hc as [_ ->]. done. }
    split_and!.
    + intros c' j Hc. rewrite (Hother _ _ Hc), Hput, lookup_insert_ne; [done|]. intros [= <- <-]. destruct (Hc role); done.
    + intros Hr. apply not_elem_of_cons in Hr as [Hne Hr]. by rewrite (Hout Hr), Hkeep.
    + intros Hr. destruct (decide (r = role)) as [->|Hne].
      * rewrite (Hout Hrole), Hput, lookup_insert_eq. apply bind_Some in E as (d & Hd & He). rewrite Hd.
        eexists. split; [done|]. exists at_, (n + 1). by rewrite He.
      * apply elem_of_cons in Hr as [->|Hr]; [done|]. specialize (Hin Hr). by rewrite (Hkeep _ Hne) in Hin.
  - destruct (IH m n) as (Hother & Hout & Hin); [done|intros; apply Hm; by right|]. split_and!; [done| |].
    + intros Hr. apply not_elem_of_cons in Hr as [_ Hr]. by apply Hout.
    + intros Hr. destruct (decide (r = role)) as [->|Hne].
      * rewrite (Hout Hrole). destruct (m !! (collection w role, i)) as [d|]; [|done].
        eexists. split; [done|]. exists at_, 0. cbn in E. by rewrite E.
      * apply elem_of_cons in Hr as [->|Hr]; [done|]. by apply Hin.
Qed.

Lemma fed_role at_ w i written t t' w' r' i' : fed at_ w i written t t' →
  content t' !! (collection w' r', i') = content t !! (collection w' r', i').
Proof.
  revert t. induction written as [|c rest IH]; intros t; cbn; [by intros (-> & _)|].
  intros (u & Hu & Hf). rewrite (IH _ Hf). by eapply appended_role.
Qed.

(** The role documents after an edit that has succeeded. *)
Definition edited_all (w i : string) (edit : Edit) (t t' : TS) : Prop :=
  (∀ w' r' i', ¬ (w' = w ∧ i' = i) → content t' !! (collection w' r', i') = content t !! (collection w' r', i')) ∧
  ∀ r, match content t !! (collection w r, i) with
    | Some d => ∃ d', content t' !! (collection w r, i) = Some d' ∧ edits_to edit d d'
    | None => content t' !! (collection w r, i) = None end.

Lemma edit_outcome_roles w i edit t r t' : edit_outcome w i edit t r t' →
  match r with Some _ => content t' = content t | None => edited_all w i edit t t' end.
Proof.
  intros [err n u (Hc & _) _|at_ u v t'' l Hu _ _ _ _ Hfed Hsame]; [done|].
  assert (Hlook : ∀ w' r' i', content t'' !! (collection w' r', i') = content u !! (collection w' r', i')).
  { intros w' r' i'. destruct Hsame as [-> _]. change (content (mkTS _ _ _ _ _)) with (content v). by eapply fed_role. }
  split.
  - intros w' r' i' Hne. rewrite Hlook, Hu. unfold l.
    destruct (put_edited_lookup (content t) (content t) edit at_ w i allRoles (syncID t) RoleIdentity) as (Hother & _); [decided|done|].
    apply Hother. intros r0. destruct (decide (i' = i)) as [->|]; [|by right]. left. intros Hc. apply collection_inj in Hc as [-> _]. tauto.
  - intros role. rewrite Hlook, Hu. unfold l.
    destruct (put_edited_lookup (content t) (content t) edit at_ w i allRoles (syncID t) role) as (_ & _ & Hin); [decided|done|].
    apply Hin. destruct role; decided.
Qed.

(** A tombstone reaches all documents of a worker or none.  When
    [Tombstone] returns an error no document has changed, whichever step of it
    failed; when it succeeds every document the worker has, in each role,
    carries a tombstone and is otherwise as it was (a document that had one is
    not touched at all), and no document of another worker has changed. *)
Theorem Tombstone_is_all_or_nothing ctx w i by_ t : 0 <= syncID t → syncID t + 3 < 2 ^ 63 →
  match Tombstone ctx w i by_ t with
  | (Some _, t') => content t' = content t
  | (None, t') =>
      (∀ r, match content t !! (collection w r, i) with
        | None => content t' !! (collection w r, i) = None
        | Some d => ∃ d', content t' !! (collection w r, i) = Some d' ∧ hasTombstone d' = true ∧
            (hasTombstone d = true → d' = d) ∧
            (hasTombstone d = false → d' !! FieldDeletedBy = Some (VString by_)) ∧
            (∀ k, k ∉ FieldSyncID :: tombstone_fields → d' !! k = d !! k) end) ∧
      (∀ w' r' i', ¬ (w' = w ∧ i' = i) → content t' !! (collection w' r', i') = content t !! (collection w' r', i'))
  end.
Proof.
  intros Hn Hb. pose proof (Tombstone_wp ctx w i by_ t Hn Hb) as Hwp. unfold st_wp in Hwp.
  destruct (Tombstone ctx w i by_ t) as [res t']. destruct Hwp as (r0 & Hout & Hres). cbn [fst snd] in *.
  apply edit_outcome_roles in Hout.
  destruct res as [err|]; (destruct r0 as [err0|]; [try done|try naive_solver]); [naive_solver|].
  destruct Hout as [Hother Hrole]. split; [|done]. intros r. specialize (Hrole r).
  destruct (content t !! (collection w r, i)) as [d|]; [|done]. destruct Hrole as (d' & Hd' & at_ & n & He).
  exists d'. split; [done|]. unfold add_tombstone in He. destruct (hasTombstone d) eqn:Ht; [by subst d'|]. subst d'.
  split; [unfold hasTombstone; by rewrite !lookup_insert_ne, lookup_insert_eq by done|]. split_and!; [done| |].
  - intros _. by rewrite lookup_insert_ne, lookup_insert_eq.
  - intros k Hk. unfold tombstone_fields in Hk. repeat rewrite not_elem_of_cons in Hk. destruct Hk as (? & ? & ? & _).
    by rewrite !lookup_insert_ne by congruence.
Qed.

(** A removed worker stays removed until its tombstone is cleared.  Over any
    run without [Tombstone] and [ClearTombstone] the tombstone fields of every
    document are what they were at the start, whatever the callers put into
    the documents they save, and a document saved for the first time has none. *)
Theorem saves_keep_tombstones ctx ops t :
  sound (content t) (syncID t) → syncID t + 3 * Z.of_nat (length ops) < 2 ^ 63 →
  (∀ op, op ∈ ops → match op with OpTombstone _ _ _ | OpClearTombstone _ _ => False | _ => True end) →
  ∀ w r i k, k ∈ tombstone_fields →
    role_document (content (perform_all ctx ops t).2) w r i !! k = role_document (content t) w r i !! k.
Proof.
  intros Hs Hb Hops.
  destruct (run_ind (λ u, ∀ w r i k, k ∈ tombstone_fields → role_document (content u) w r i !! k = role_document (content t) w r i !! k)
    ctx ops t) as (Hp & _); [|done|done|done|exact Hp].
  intros op u u' Hsu _ Hop Heff Hu w r i k Hk. rewrite <- (Hu w r i k Hk). specialize (Hops op Hop).
  assert (Hsaved : ∀ w0 i0 doc opts v res doc', content v = content u → saved w0 i0 doc opts v res doc' u' →
    role_document (content u') w r i !! k = role_document (content u) w r i !! k).
  { intros w0 i0 doc opts v res doc' Hv [err _|d r0 d' x x' _ Hout [Hx _]]; [by rewrite Hv|]. rewrite Hx, <- Hv. rewrite <- Hv in Hsu.
    destruct Hout as [err y [Hy _]|e r0 y He _ Ht|ex err d0 y _ _ [_ (Hy & _)]|ex ch d0 y Hex _ Hst]; [by rewrite ?Hy| |by rewrite ?Hy|].
    - unfold touched in Ht. destruct r0 as [err|res0]; [by destruct Ht as [-> _]|]. destruct Ht as [_ Ht].
      destruct (UpdateTimestampOnNoChange opts); [|by destruct Ht as [-> _]]. destruct Ht as ([now ->] & _).
      rewrite role_document_write. destruct (decide _) as [(<- & <- & <-)|]; [|done]. unfold role_document. rewrite He. cbn.
      apply lookup_insert_ne. intros <-. assert (FieldUpdatedAt ∉ tombstone_fields) by decided. done.
    - apply stored_wrote in Hst as [Hw [now ->]]. unfold role_document. rewrite Hw.
      destruct (decide _) as [(<- & <- & <-)|]; [|done]. rewrite Hex. cbn. apply stamped_tombstone; [done|].
      intros e ->. by destruct (sound_role _ _ _ _ _ _ Hsu Hex). }
  destruct Heff as [w0 i0 doc res doc' t' Hr|w0 i0 doc res doc' t' Hr|w0 i0 o d res doc' t' Hr|w0 i0 o|w0 i0 by_ res t' Hr|w0 i0 res t' Hr
    |w0 i0 res t' Hr|n t' Hr|t' Hc _ _ _ _|t' Hc _ _ _ _]; try done; try (by rewrite Hc); try (by eapply Hsaved; [|exact Hr]).
  - by apply snapshot_same in Hr as (-> & _).
  - by apply reads_quiet in Hr as (-> & _).
Qed.

(** Clearing a tombstone undoes setting it.  After a [Tombstone] and a
    [ClearTombstone] that both succeed, every document of the worker that had
    no tombstone is back with all its fields, the sync id apart; a document
    that had one has lost it. *)
Theorem clear_undoes_tombstone ctx w i by_ t : sound (content t) (syncID t) → syncID t + 6 < 2 ^ 63 →
  (Tombstone ctx w i by_ t).1 = None → (ClearTombstone ctx w i (Tombstone ctx w i by_ t).2).1 = None →
  ∀ r d, content t !! (collection w r, i) = Some d → ∃ d',
    content (ClearTombstone ctx w i (Tombstone ctx w i by_ t).2).2 !! (collection w r, i) = Some d' ∧
    ∀ k, k ≠ FieldSyncID → d' !! k = if decide (k ∈ tombstone_fields) then None else d !! k.
Proof.
  intros Hs Hb H1 H2 r d Hd. pose proof (sound_sync _ _ Hs) as Hn.
  pose proof (Tombstone_wp ctx w i by_ t Hn ltac:(lia)) as Hw1. unfold st_wp in Hw1. destruct (Tombstone ctx w i by_ t) as [e1 u].
  cbn [fst snd] in *. destruct Hw1 as (r1 & Ho1 & Hr1). apply Hr1 in H1. subst r1.
  destruct (edit_advances _ _ _ _ _ _ (add_tombstone_ok by_) Ho1 Hs ltac:(lia)) as (Hsu & Hru & _).
  pose proof (ClearTombstone_wp ctx w i u ltac:(lia) ltac:(lia)) as Hw2. unfold st_wp in Hw2.
  destruct (ClearTombstone ctx w i u) as [e2 v]. cbn [fst snd] in *. destruct Hw2 as (r2 & Ho2 & Hr2). apply Hr2 in H2. subst r2.
  apply edit_outcome_roles in Ho1 as [_ Ho1], Ho2 as [_ Ho2]. specialize (Ho1 r). rewrite Hd in Ho1.
  destruct Ho1 as (d1 & Hd1 & at1 & n1 & He1). specialize (Ho2 r). rewrite Hd1 in Ho2. destruct Ho2 as (d2 & Hd2 & at2 & n2 & He2).
  exists d2. split; [exact Hd2|]. intros k Hk. unfold add_tombstone in He1. unfold remove_tombstone in He2.
  assert (Ht1 : hasTombstone d1 = true).
  { destruct (hasTombstone d) eqn:Ht; subst d1; [done|]. unfold hasTombstone. by rewrite !lookup_insert_ne, lookup_insert_eq by done. }
  rewrite Ht1 in He2. subst d2. rewrite lookup_insert_ne by congruence. unfold tombstone_fields.
  destruct (decide (k ∈ _)) as [Ht|Ht].
  - rewrite !elem_of_cons in Ht. destruct Ht as [->|[->|Ht%not_elem_of_nil]]; [by rewrite lookup_delete_ne, lookup_delete_eq|by rewrite lookup_delete_eq|done].
  - repeat rewrite not_elem_of_cons in Ht. destruct Ht as (? & ? & _). rewrite !lookup_delete_ne by congruence.
    destruct (hasTombstone d); subst d1; [done|]. by rewrite !lookup_insert_ne by congruence.
Qed.

(** *** Compaction *)

Definition expired (cutoffMs : Z) (d : Document) : Prop := ∃ ms, extractTimestampMs d = Some ms ∧ ms < cutoffMs.
#[export] Instance expired_dec cutoffMs d : Decision (expired cutoffMs d).
Proof.
  unfold expired. destruct (extractTimestampMs d) as [ms|].
  - destruct (decide (ms < cutoffMs)) as [Hlt|Hge]; [left; by exists ms|right]. intros (ms' & [= <-] & ?). lia.
  - right. by intros (ms & ? & _).
Defined.

Definition drop_expired (cutoffMs : Z) (m : Content) (d : Document) : Content :=
  match fate cutoffMs d with Expired id => delete (DeltaCollectionName, id) m | _ => m end.
Definition is_expired (cutoffMs : Z) (d : Document) : bool := match fate cutoffMs d with Expired _ => true | _ => false end.

Lemma compact_wp ctx cutoffMs found n skipped t :
  st_wp (compact ctx cutoffMs found n skipped) (λ '(n', err) t', syncID t' = syncID t ∧
    (err = None → skipped = 0%nat ∧ n' = (n + length (filter (is_expired cutoffMs) found))%nat ∧
      content t' = foldl (drop_expired cutoffMs) (content t) found)) t.
Proof.
  revert n skipped t. induction found as [|d found IH]; intros n skipped t; cbn [compact].
  { apply st_wp_ret. split; [done|]. destruct (decide _) as [->|]; [|done]. intros _. cbn. split_and!; [done|lia|done]. }
  apply st_wp_bind, on_store_wp. unfold ctx_Err. unfold st_wp at 1. pose proof (clock_law (store t)) as Hclock.
  destruct (clock (store t)) as [now s']. cbn [fst snd] in *. destruct (ctx_Err_at ctx now) as [e|]; [by apply st_wp_ret|].
  set (u := mkTS s' _ _ _ _). assert (Hu : content u = content t) by exact Hclock. cbn [foldl]. rewrite filter_cons.
  assert (Hexp : is_expired cutoffMs d = match fate cutoffMs d with Expired _ => true | _ => false end) by done.
  unfold drop_expired at 2. destruct (fate cutoffMs d) as [| |id].
  - eapply st_wp_mono; [apply IH|]. intros [n' err] t' [Hn He]. split; [done|]. intros Hnone. by apply He in Hnone as [H1 _].
  - eapply st_wp_mono; [apply IH|]. intros [n' err] t' [Hn He]. split; [done|]. intros Hnone. rewrite <- Hu.
    rewrite decide_False by (rewrite Hexp; by intros []). by apply He.
  - apply st_wp_bind, on_store_wp. eapply st_wp_mono; [apply Delete_law|]. intros [err|] s'' Hr; [by apply st_wp_ret|].
    destruct Hr as [_ Hr]. eapply st_wp_mono; [apply IH|]. intros [n' err] t' [Hn He]. split; [done|]. intros Hnone.
    apply He in Hnone as (-> & -> & ->). rewrite decide_True by (by rewrite Hexp). cbn [length]. split_and!; [done|lia|].
    f_equal. rewrite <- Hu. exact Hr.
Qed.

(** A delta that [fate] deletes is deleted under its own key, and no other key is touched. *)
Definition goes (cutoffMs : Z) (i : string) (d : Document) : Prop := lookup_string d "id" = Some i ∧ is_expired cutoffMs d.
#[local] Instance goes_dec cutoffMs i d : Decision (goes cutoffMs i d).
Proof. unfold goes. solve_decision. Defined.

Lemma drop_expired_lookup cutoffMs ids found m c i :
  Forall2 (λ j d, lookup_string d "id" = Some j) ids found →
  foldl (drop_expired cutoffMs) m found !! (c, i) =
  if decide (c = DeltaCollectionName ∧ Exists (goes cutoffMs i) found) then None else m !! (c, i).
Proof.
  intros Hall. revert m. induction Hall as [|j d ids found Hj _ IH]; intros m; cbn [foldl].
  { rewrite decide_False; [done|]. intros (_ & Hd). by apply Exists_nil in Hd. }
  rewrite IH. assert (Hdrop : drop_expired cutoffMs m d = if is_expired cutoffMs d then delete (DeltaCollectionName, j) m else m).
  { unfold drop_expired, is_expired, fate. rewrite Hj. destruct (extractTimestampMs d) as [ts|]; [|done]. by destruct (ts <? cutoffMs). }
  destruct (decide (c = _ ∧ Exists _ found)) as [(-> & Hf)|Hno]; [rewrite decide_True; [done|by split; [|right]]|].
  rewrite Hdrop. destruct (decide (c = DeltaCollectionName ∧ goes cutoffMs i d)) as [(-> & Hi & He)|Hn].
  - rewrite decide_True by (split; [done|by left]). assert (j = i) as -> by congruence.
    destruct (is_expired cutoffMs d); [apply lookup_delete_eq|done].
  - rewrite decide_False; [|intros [-> Hf]; apply Exists_cons in Hf as [Hf|Hf]; tauto].
    destruct (is_expired cutoffMs d) eqn:Ee; [|done]. apply lookup_delete_ne. intros [= <- <-]. apply Hn.
    split; [done|]. split; [done|by rewrite Ee].
Qed.

Lemma list_filter_iff' {A} (P Q : A → Prop) `{!∀ x, Decision (P x), !∀ x, Decision (Q x)} (l : list A) :
  (∀ x, x ∈ l → P x ↔ Q x) → filter P l = filter Q l.
Proof.
  induction l as [|x l IH]; intros Hl; [done|]. rewrite !filter_cons, IH by (intros y Hy; apply Hl; by right).
  assert (Hx : P x ↔ Q x) by (apply Hl; left). by rewrite (decide_ext _ _ _ _ Hx).
Qed.

Lemma is_expired_spec cutoffMs d i : lookup_string d "id" = Some i → is_expired cutoffMs d ↔ expired cutoffMs d.
Proof.
  intros Hi. unfold is_expired, expired, fate. rewrite Hi. destruct (extractTimestampMs d) as [ms|].
  - destruct (ms <? cutoffMs) eqn:E; split; try done.
    + intros _. exists ms. split; [done|lia].
    + intros (ms' & [= <-] & ?). lia.
  - split; [done|by intros (ms & ? & _)].
Qed.

(** Compaction deletes the deltas that have expired and nothing else.  When
    it returns no error, a document has gone if and only if it is a delta with
    a timestamp before the cutoff (now minus the retention window); the number
    returned is the number of deltas deleted; and no sync id is spent. *)
Theorem compaction_removes_expired ctx window t n :
  sound (content t) (syncID t) → (CompactDeltas ctx window t).1 = (n, None) →
  let t' := (CompactDeltas ctx window t).2 in
  let cutoffMs := to_UnixMilli ((clock (store t)).1 - window) in
  syncID t' = syncID t ∧
  (∀ c i, content t' !! (c, i) = match content t !! (c, i) with
    | Some d => if decide (c = DeltaCollectionName ∧ expired cutoffMs d) then None else Some d
    | None => None end) ∧
  n = length (filter (expired cutoffMs) (log_docs (content t))).
Proof.
  intros Hs Hres t' cutoffMs.
  assert (Hwp : st_wp (CompactDeltas ctx window) (λ '(n', err) t', err = None → syncID t' = syncID t ∧
    ∃ found, listing (content t) DeltaCollectionName found ∧ n' = length (filter (is_expired cutoffMs) found) ∧
      content t' = foldl (drop_expired cutoffMs) (content t) found) t).
  { unfold CompactDeltas. apply st_wp_bind. unfold st_wp at 1. unfold cutoffMs. unfold Now, on_store.
    pose proof (clock_law (store t)) as Hclock. destruct (clock (store t)) as [now s']. cbn [fst snd] in *.
    set (u := mkTS s' _ _ _ _). assert (Hu : content u = content t) by exact Hclock.
    apply st_wp_bind. eapply st_wp_mono; [apply Find_wp|]. intros [err|found] v [(Hv & Hn & _) Hr]; rewrite Hu in *.
    - apply st_wp_ret. destruct (IsErr err ErrNotFound); [|done]. intros _. split; [done|]. exists []. split_and!; auto.
    - eapply st_wp_mono; [apply compact_wp|]. intros [n' err] t'' [Hn' He] Hnone. split; [by rewrite Hn', Hn|].
      exists found. destruct (He Hnone) as (_ & -> & ->). rewrite Hv. done. }
  unfold st_wp in Hwp. rewrite Hres in Hwp. destruct (Hwp eq_refl) as (Hn & found & Hlist & -> & Hc).
  assert (Hown : ∀ i d, content t !! (DeltaCollectionName, i) = Some d → lookup_string d "id" = Some i).
  { intros i d Hd. destruct (sound_docs _ _ Hs _ _ _ Hd) as [Hi _]. unfold lookup_string. by rewrite Hi. }
  split; [done|]. split.
  2: { rewrite (listing_unique _ _ _ _ Hlist (listing_log (content t))). f_equal. apply list_filter_iff'. intros d Hd.
       apply (listing_elem _ _ _ _ (listing_log _)) in Hd as [i Hd]. by eapply is_expired_spec, Hown. }
  destruct Hlist as (ids & Hnd & Hall & Hids). intros c i. fold t' in Hc. rewrite Hc, (drop_expired_lookup _ ids).
  2: { eapply Forall2_impl; [exact Hall|]. intros j d. apply Hown. }
  destruct (content t !! (c, i)) as [d|] eqn:Hd.
  - assert (Hiff : (c = DeltaCollectionName ∧ expired cutoffMs d) ↔
      (c = DeltaCollectionName ∧ Exists (goes cutoffMs i) found)).
    { split; intros [-> He]; (split; [done|]).
      - eapply is_expired_spec in He; [|by apply Hown]. apply Exists_exists. exists d. split; [|split; [by apply Hown|done]]. apply (listing_elem (content t) DeltaCollectionName); [|eauto]. by exists ids.
      - apply Exists_exists in He as (d' & Hd' & Hi & He). apply (listing_elem (content t) DeltaCollectionName) in Hd' as [j Hj]; [|by exists ids].
        rewrite (Hown _ _ Hj) in Hi. simplify_eq. by eapply is_expired_spec; [apply Hown|]. }
    by rewrite (decide_ext _ _ _ _ Hiff).
  - by destruct (decide _).
Qed.

(** A client that reads the feed page by page misses nothing and reads
    nothing twice.  In every state the stores can be in, an answer without a
    bootstrap holds the next (at most 100) entries of the log after the
    client's position, in order; what the log still has after the last of them
    is exactly what the next request is answered from, and when [HasMore] is
    false nothing is left. *)
Theorem feed_pages_are_seamless ctx n t :
  sound (content t) (syncID t) →
  let r := (GetDeltas ctx n t).1 in
  RequiresBootstrap r = false →
  let last := default n (delta_SyncID <$> last (Deltas r)) in
  to_delta <$> log_after n (content t) = Deltas r ++ (to_delta <$> log_after last (content t)) ∧
  (length (Deltas r) <= 100)%nat ∧ LatestSyncID r = syncID t ∧
  (HasMore r = false → log_after last (content t) = []).
Proof.
  intros Hs r Hreq last. pose proof (GetDeltas_wp ctx n t (sound_log _ _ Hs)) as Hwp. unfold st_wp in Hwp. fold r in Hwp.
  destruct Hwp as (_ & Hlat & Ha). rewrite Hreq in Ha. destruct Ha as (_ & Hd & Hmore).
  set (page := take deltaLimit (log_after n (content t))) in *.
  assert (Hlast : last = default n (SyncID <$> list.last page)).
  { unfold last. rewrite Hd, fmap_last. by destruct (list.last page). }
  pose proof (log_page (content t) (syncID t) n deltaLimit (sound_log _ _ Hs) ltac:(unfold deltaLimit; lia)) as Hpage. cbn zeta in Hpage.
  fold page in Hpage. rewrite <- Hlast in Hpage. split_and!; [|rewrite Hd, length_fmap; unfold page, deltaLimit; rewrite length_take; lia|done|].
  - rewrite Hd, <- fmap_app. by rewrite <- Hpage.
  - rewrite Hmore. intros Hfalse. apply bool_decide_eq_false in Hfalse.
    assert (Hall : page = log_after n (content t)) by (apply take_ge; lia).
    rewrite Hall in Hpage. rewrite <- (app_nil_r (log_after n (content t))) in Hpage at 1. by apply app_inv_head in Hpage.
Qed.
End properties.

(** ** A run on the in-memory store *)
Section demo.

(** The store lists its documents backwards. *)
#[local] Instance demo_memory : Store InMemoryStore inMemoryTx := memory_store reverse.
#[local] Instance demo_laws : StoreLaws InMemoryStore inMemoryTx := memory_laws reverse reverse_Permutation.

Definition demo : TriangularStore InMemoryStore := NewTriangularStore (NewInMemoryStore ((unixToInternal + 1700000000) * nano)).

Definition demo_doc (name : string) (n : Z) : Document :=
  <["id" := VString "w1"]> (<["name" := VString name]> (<["n" := VInt64 n]> ∅)).

Definition demo_saves : list Op :=
  [OpSaveIdentity "relay" "w1" (Some (demo_doc "a" 1)); OpSaveDesired "relay" "w1" (Some (demo_doc "a" 1));
   OpSaveObserved "relay" "w1" (ODocument (demo_doc "x" 2)); OpSaveDesired "relay" "w1" (Some (demo_doc "b" 1));
   OpSaveObserved "relay" "w1" (ODocument (demo_doc "x" 2)); OpGetDeltas 2; OpLoadSnapshot "relay" "w1"].
Definition demo_ops : list Op :=
  demo_saves ++ [OpTombstone "relay" "w1" "supervisor"; OpSaveDesired "relay" "w1" (Some (demo_doc "c" 1)); OpMaintenance; OpIncrementSyncID].

Lemma demo_fresh : fresh demo.
Proof. by vm_compute. Qed.

Definition after (ops : list Op) : TriangularStore InMemoryStore := (perform_all Background ops demo).2.

Lemma after_sound ops : 3 * Z.of_nat (length ops) < 2 ^ 63 → sound (content (after ops)) (syncID (after ops)).
Proof.
  intros Hb. destruct (run_ind (λ _, True) Background ops demo) as (_ & Hs & _); [done| |done|done|exact Hs].
  apply fresh_sound, demo_fresh.
Qed.

Definition found {A} (o : option A) : bool := match o with Some _ => true | None => false end.
Lemma found_Some {A} (o : option A) : found o = true → is_Some o.
Proof. destruct o; [by eexists|done]. Qed.

Lemma feed_follows_the_store_witness :
  fresh demo ∧ warned (after demo_ops) = [] ∧
  replica (delta_log (content (after demo_ops))) "relay" RoleDesired "w1" !! "name"%string =
    json_value <$> (role_document (content (after demo_ops)) "relay" RoleDesired "w1" !! "name"%string) ∧
  role_document (content (after demo_ops)) "relay" RoleDesired "w1" !! "name"%string = Some (VString "c") ∧
  found (replica (delta_log (content (after demo_ops))) "relay" RoleDesired "w1" !! FieldDeletedAt) = true.
Proof.
  split; [exact demo_fresh|]. assert (Hw : warned (after demo_ops) = []) by (vm_compute; reflexivity). split; [exact Hw|].
  assert (Hb : 3 * Z.of_nat (length demo_ops) < 2 ^ 63) by (vm_compute; reflexivity).
  assert (Hk : "name"%string ∉ hidden) by decided. unfold after in Hw.
  pose proof (feed_follows_the_store Background demo_ops demo demo_fresh Hb Hw "relay"%string RoleDesired "w1"%string "name"%string Hk) as Hf.
  split; [unfold after; exact Hf|].
  split; vm_compute; reflexivity.
Defined.

Lemma snapshots_are_current_witness :
  ∃ s, (LoadSnapshot Background "relay" "w1" (after demo_saves)).1 = inr s ∧
    s = cloneSnapshot (live (content (after demo_saves)) "relay" "w1") ∧
    found (snapshotCache (after demo_saves) !! cache_key "relay" "w1") = true.
Proof.
  destruct (LoadSnapshot Background "relay" "w1" (after demo_saves)).1 as [err|s] eqn:E.
  - exfalso. assert (Hok : match (LoadSnapshot Background "relay" "w1" (after demo_saves)).1 with inl _ => false | inr _ => true end = true)
      by (vm_compute; reflexivity). rewrite E in Hok. discriminate Hok.
  - exists s. split; [reflexivity|]. split; [|vm_compute; reflexivity].
    apply (snapshots_are_current Background demo_saves demo "relay" "w1" s demo_fresh); [vm_compute; reflexivity| |decided|exact E].
    intros op v Hop Hv. assert (Hall : Forall (λ op, op_worker op = Some "relay"%string ∨ op_worker op = None) demo_saves) by decided.
    rewrite Forall_forall in Hall. destruct (Hall op Hop) as [Ho|Ho]; [|congruence]. assert (v = "relay"%string) as -> by congruence. decided.
Defined.

Lemma saves_report_changes_witness :
  ∃ d', content (saveWithDelta Background "relay" "w1" (Some (demo_doc "c" 1)) DesiredSaveOptions (after demo_saves)).2
      !! (collection "relay" RoleDesired, "w1"%string) = Some d' ∧ d' !! "name"%string = Some (VString "c").
Proof.
  assert (Hopts : DesiredSaveOptions ∈ [IdentitySaveOptions; DesiredSaveOptions; ObservedSaveOptions]) by (right; left).
  assert (Hok : match (saveWithDelta Background "relay" "w1" (Some (demo_doc "c" 1)) DesiredSaveOptions (after demo_saves)).1.1 with
                | inr (b, _) => b | inl _ => false end = true) by (vm_compute; reflexivity).
  pose proof (saves_report_changes Background "relay" "w1" (Some (demo_doc "c" 1)) DesiredSaveOptions (after demo_saves) Hopts) as Hs.
  destruct (saveWithDelta Background "relay" "w1" (Some (demo_doc "c" 1)) DesiredSaveOptions (after demo_saves)) as [[[err|[[] diff]] doc'] t'];
    cbn [fst snd] in *; [discriminate Hok| |discriminate Hok].
  destruct Hs as (d & d' & Hd & _ & _ & Hw & Hk & _). exists d'. split.
  - rewrite (Hw "relay"%string RoleDesired "w1"%string). by rewrite decide_True.
  - injection Hd as <-. rewrite Hk by decided. vm_compute. reflexivity.
Defined.

Lemma Tombstone_is_all_or_nothing_witness :
  (Tombstone Background "relay" "w1" "supervisor" (after demo_saves)).1 = None ∧
  ∃ d', content (Tombstone Background "relay" "w1" "supervisor" (after demo_saves)).2 !! (collection "relay" RoleObserved, "w1"%string) = Some d' ∧
    hasTombstone d' = true.
Proof.
  assert (H1 : 0 <= syncID (after demo_saves)) by (vm_compute; discriminate).
  assert (H2 : syncID (after demo_saves) + 3 < 2 ^ 63) by (vm_compute; reflexivity).
  assert (Hr : (Tombstone Background "relay" "w1" "supervisor" (after demo_saves)).1 = None) by (vm_compute; reflexivity).
  assert (Hd : found (content (after demo_saves) !! (collection "relay" RoleObserved, "w1"%string)) = true) by (vm_compute; reflexivity).
  split; [exact Hr|]. pose proof (Tombstone_is_all_or_nothing Background "relay" "w1" "supervisor" (after demo_saves) H1 H2) as Ht.
  destruct (Tombstone Background "relay" "w1" "supervisor" (after demo_saves)) as [res t']. cbn [fst snd] in *. rewrite Hr in Ht.
  destruct Ht as [Ht _]. specialize (Ht RoleObserved). apply found_Some in Hd as [d Hd]. rewrite Hd in Ht.
  destruct Ht as (d' & Hd' & Htomb & _). exists d'. exact (conj Hd' Htomb).
Defined.

Lemma saves_keep_tombstones_witness :
  hasTombstone (role_document (content (after demo_ops)) "relay" RoleDesired "w1") = true ∧
  role_document (content (perform_all Background demo_saves (after demo_ops)).2) "relay" RoleDesired "w1" !! FieldDeletedAt =
  role_document (content (after demo_ops)) "relay" RoleDesired "w1" !! FieldDeletedAt.
Proof.
  split; [vm_compute; reflexivity|].
  apply (saves_keep_tombstones Background demo_saves (after demo_ops)); [apply after_sound; vm_compute; reflexivity|vm_compute; reflexivity| |left].
  apply Forall_forall. repeat constructor.
Defined.

Lemma clear_undoes_tombstone_witness :
  ∃ d', content (ClearTombstone Background "relay" "w1" (Tombstone Background "relay" "w1" "supervisor" (after demo_saves)).2).2
    !! (collection "relay" RoleObserved, "w1"%string) = Some d' ∧ d' !! FieldDeletedAt = None.
Proof.
  assert (H2 : syncID (after demo_saves) + 6 < 2 ^ 63) by (vm_compute; reflexivity).
  assert (Hr : (Tombstone Background "relay" "w1" "supervisor" (after demo_saves)).1 = None) by (vm_compute; reflexivity).
  assert (Hc : (ClearTombstone Background "relay" "w1" (Tombstone Background "relay" "w1" "supervisor" (after demo_saves)).2).1 = None) by (vm_compute; reflexivity).
  assert (Hd : found (content (after demo_saves) !! (collection "relay" RoleObserved, "w1"%string)) = true) by (vm_compute; reflexivity).
  assert (Hs : sound (content (after demo_saves)) (syncID (after demo_saves))) by (apply after_sound; vm_compute; reflexivity).
  apply found_Some in Hd as [d Hd].
  destruct (clear_undoes_tombstone Background "relay" "w1" "supervisor" (after demo_saves) Hs H2 Hr Hc RoleObserved d Hd) as (d' & Hd' & Hk).
  exists d'. split; [exact Hd'|]. rewrite Hk by decided. by rewrite decide_True by decided.
Defined.

Lemma compaction_removes_expired_witness :
  (CompactDeltas Background (- Second) (after demo_saves)).1 = (4%nat, None) ∧
  syncID (CompactDeltas Background (- Second) (after demo_saves)).2 = syncID (after demo_saves) ∧
  4%nat = length (filter (expired (to_UnixMilli ((clock (store (after demo_saves))).1 - - Second))) (log_docs (content (after demo_saves)))).
Proof.
  assert (Hr : (CompactDeltas Background (- Second) (after demo_saves)).1 = (4%nat, None)) by (vm_compute; reflexivity).
  assert (Hs : sound (content (after demo_saves)) (syncID (after demo_saves))) by (apply after_sound; vm_compute; reflexivity).
  split; [exact Hr|].
  destruct (compaction_removes_expired Background (- Second) (after demo_saves) 4 Hs Hr) as (H1 & _ & H3). split; [exact H1|exact H3].
Defined.

Lemma feed_pages_are_seamless_witness :
  RequiresBootstrap (GetDeltas Background 2 (after demo_saves)).1 = false ∧
  length (Deltas (GetDeltas Background 2 (after demo_saves)).1) = 2%nat ∧
  (length (Deltas (GetDeltas Background 2 (after demo_saves)).1) <= 100)%nat.
Proof.
  assert (Hr : RequiresBootstrap (GetDeltas Background 2 (after demo_saves)).1 = false) by (vm_compute; reflexivity).
  assert (Hs : sound (content (after demo_saves)) (syncID (after demo_saves))) by (apply after_sound; vm_compute; reflexivity).
  split; [exact Hr|]. split; [vm_compute; reflexivity|].
  destruct (feed_pages_are_seamless Background 2 (after demo_saves) Hs Hr) as (_ & Hlen & _). exact Hlen.
Defined.

(** *** Where the stores do not do what their documentation says *)

(** The version of desired state does not grow: it is counted from the caller's
    document, which has none unless the caller sends back the map of its
    previous save. *)
Lemma desired_version_stays_one e n now d : d !! FieldVersion = None →
  stamped (Some e) DesiredSaveOptions n now d !! FieldVersion = Some (VInt64 1).
Proof.
  intros Hd. unfold stamped, metadata. cbn [IncrementVersion DesiredSaveOptions bool_decide]. rewrite bool_decide_false by done.
  rewrite lookup_insert_eq. unfold next_version. do 2 f_equal.
  assert (Hk : <[FieldUpdatedAt := VTime now]> (<[FieldSyncID := VInt64 n]> (keep_stored (Some e) DesiredSaveOptions d)) !! FieldVersion = None).
  { rewrite !lookup_insert_ne by done. cbn. unfold copy_field. destruct (hasTombstone e); rewrite ?lookup_insert_ne, !lookup_delete_ne by done; exact Hd. }
  by rewrite Hk.
Qed.

(** The creation time does not survive an update: the update replaces the
    document by the caller's. *)
Lemma creation_time_is_lost e opts n now d : stamped (Some e) opts n now d !! FieldCreatedAt = d !! FieldCreatedAt.
Proof.
  unfold stamped, metadata. rewrite bool_decide_false by done.
  assert (Hk : <[FieldUpdatedAt := VTime now]> (<[FieldSyncID := VInt64 n]> (keep_stored (Some e) opts d)) !! FieldCreatedAt = d !! FieldCreatedAt).
  { rewrite !lookup_insert_ne, lookup_keep_stored by done. by rewrite decide_False by decided. }
  destruct (IncrementVersion opts); [by rewrite lookup_insert_ne by done|exact Hk].
Qed.

Definition wait (d : Z) (t : TriangularStore InMemoryStore) : TriangularStore InMemoryStore :=
  mkTS (mkMem (collections (store t)) (mem_now (store t) + d)) (syncID t) (snapshotCache t) (knownWorkerTypes t) (warned t).

Definition hour : Z := 3600 * Second.
Definition compacted : TriangularStore InMemoryStore :=
  (CompactDeltas Background hour (SaveDesired Background "relay" "w1" (Some (demo_doc "c" 1)) (wait (2 * hour) (after demo_saves))).2).2.

(** After a compaction a client that starts from nothing is sent the deltas that
    are left, not a bootstrap: it never learns of the worker's identity. *)
Lemma compaction_leaves_a_gap :
  RequiresBootstrap (GetDeltas Background 0 compacted).1 = false ∧
  length (Deltas (GetDeltas Background 0 compacted).1) = 1%nat ∧
  found (role_document (content compacted) "relay" RoleIdentity "w1" !! "name"%string) = true ∧
  found (replica (delta_log (content compacted)) "relay" RoleIdentity "w1" !! "name"%string) = false.
Proof. vm_compute. repeat split. Qed.

Definition collision : TriangularStore InMemoryStore := after
  [OpSaveIdentity "a_b" "c" (Some (<["id" := VString "c"]> ∅)); OpSaveIdentity "a" "b_c" (Some (<["id" := VString "b_c"]> ∅));
   OpLoadSnapshot "a_b" "c"].

(** Two workers whose types and ids join to the same text share a cache entry:
    the snapshot of one is returned for the other. *)
Lemma cache_keys_collide :
  match (LoadSnapshot Background "a" "b_c" collision).1 with
  | inr s => Identity s ≫= (.!! "id"%string) = Some (VString "c")
  | inl _ => False
  end.
Proof. vm_compute. reflexivity. Qed.
End demo.
