(* ===== verification/PanicMonad.v ===== *)
(** * PanicMonad: computations that may panic and be recovered

    The monad of the supervisors ([fsmv2/supervisor]), which recover from the
    panics of the code they call: a panic ([None]) keeps the state it was
    raised in, and [recover_with] goes on from there.  With it come the rules
    to reason about both ways a computation ends.  It models no code of the
    repository. *)

From S2P Require Import Prelude.

Definition P (S A : Type) : Type := S → option A * S.

#[export] Instance P_ret S : MRet (P S) := λ A a s, (Some a, s).
#[export] Instance P_bind S : MBind (P S) := λ A B f m s,
  let (r, s') := m s in match r with Some a => f a s' | None => (None, s') end.

Definition p_panic {S A} : P S A := λ s, (None, s).
Definition p_gets {S A} (f : S → A) : P S A := λ s, (Some (f s), s).
Definition p_modify {S} (f : S → S) : P S () := λ s, (Some tt, f s).
(** [defer func() { if recover() != nil { ... } }()]. *)
Definition recover_with {S A} (handler : P S A) (m : P S A) : P S A := λ s,
  let (r, s') := m s in match r with Some a => (Some a, s') | None => handler s' end.

(** Do something for every element, in order; a panic ends the loop. *)
Fixpoint p_for {S A} (f : A → P S ()) (l : list A) : P S () :=
  match l with [] => mret tt | x :: l => _ ← f x; p_for f l end.

(** A run that returns ends in [Q], a run that panics ends in [R]. *)
Definition pwp {S A} (m : P S A) (Q : A → S → Prop) (R : S → Prop) (s : S) : Prop :=
  match m s with (Some a, s') => Q a s' | (None, s') => R s' end.

Section pwp.
Context {S : Type}.
Implicit Types (R : S → Prop).

Lemma pwp_bind {A B} (m : P S A) (f : A → P S B) Q R s :
  pwp m (λ a s', pwp (f a) Q R s') R s → pwp (m ≫= f) Q R s.
Proof. unfold pwp, mbind, P_bind. by destruct (m s) as [[]]. Qed.

Lemma pwp_ret {A} (a : A) Q R s : Q a s → pwp (mret a) Q R s.
Proof. done. Qed.
Lemma pwp_panic {A} (Q : A → S → Prop) R s : R s → pwp p_panic Q R s.
Proof. done. Qed.
Lemma pwp_gets {A} (f : S → A) Q R s : Q (f s) s → pwp (p_gets f) Q R s.
Proof. done. Qed.
Lemma pwp_modify (f : S → S) Q R s : Q tt (f s) → pwp (p_modify f) Q R s.
Proof. done. Qed.

Lemma pwp_mono {A} (m : P S A) (Q Q' : A → S → Prop) R R' s :
  pwp m Q R s → (∀ a s', Q a s' → Q' a s') → (∀ s', R s' → R' s') → pwp m Q' R' s.
Proof. unfold pwp. destruct (m s) as [[]]; auto. Qed.

Lemma pwp_and {A} (m : P S A) (Q Q' : A → S → Prop) R R' s :
  pwp m Q R s → pwp m Q' R' s → pwp m (λ a s', Q a s' ∧ Q' a s') (λ s', R s' ∧ R' s') s.
Proof. unfold pwp. destruct (m s) as [[]]; auto. Qed.

(** The two ways a run ends can be treated apart. *)
Lemma pwp_split {A} (m : P S A) Q Q' R s : pwp m Q (λ _, True) s → pwp m Q' R s → pwp m Q R s.
Proof. unfold pwp. by destruct (m s) as [[]]. Qed.

Lemma pwp_recover {A} (h m : P S A) Q R s :
  pwp m Q (λ s', pwp h Q R s') s → pwp (recover_with h m) Q R s.
Proof. unfold pwp, recover_with. by destruct (m s) as [[]]. Qed.

Lemma pwp_elim {A} (m : P S A) Q R s r s' :
  pwp m Q R s → m s = (r, s') → match r with Some a => Q a s' | None => R s' end.
Proof. unfold pwp. intros H E. rewrite E in H. by destruct r. Qed.

Lemma pwp_for {A} (f : A → P S ()) (l : list A) (I : S → Prop) R s :
  (∀ x s, x ∈ l → I s → pwp (f x) (λ _ s', I s') R s) → I s → pwp (p_for f l) (λ _ s', I s') R s.
Proof.
  revert s. induction l as [|x l IH]; intros s Hf Hs; [done|].
  apply pwp_bind. eapply pwp_mono; [apply Hf; [by left|done]| |done].
  intros u s' Hs'. apply IH; [|done]. intros y s'' Hy. apply Hf. by right.
Qed.

(** Two programs that agree step by step agree. *)
Lemma p_bind_agree {A B} (m : P S A) (f g : A → P S B) (Q : A → S → Prop) s :
  pwp m Q (λ _, True) s → (∀ a s', Q a s' → f a s' = g a s') → (m ≫= f) s = (m ≫= g) s.
Proof. unfold pwp, mbind, P_bind. destruct (m s) as [[a|] s']; [|done]. intros HQ H. by apply H. Qed.
End pwp.

(** A property of the state that a computation keeps, panicking or not. *)
Definition p_keeps {S A} (I : S → Prop) (m : P S A) : Prop := ∀ s, I s → pwp m (λ _, I) I s.

Section p_keeps.
Context {S : Type} (I : S → Prop).

Lemma p_keeps_ret {A} (a : A) : p_keeps I (mret a).
Proof. by intros s Hs. Qed.
Lemma p_keeps_panic {A} : p_keeps I (p_panic (A := A)).
Proof. by intros s Hs. Qed.
Lemma p_keeps_gets {A} (f : S → A) : p_keeps I (p_gets f).
Proof. by intros s Hs. Qed.
Lemma p_keeps_modify (f : S → S) : (∀ s, I s → I (f s)) → p_keeps I (p_modify f).
Proof. intros H s Hs. unfold pwp. simpl. auto. Qed.
Lemma p_keeps_bind {A B} (m : P S A) (f : A → P S B) :
  p_keeps I m → (∀ a, p_keeps I (f a)) → p_keeps I (m ≫= f).
Proof. intros Hm Hf s Hs. apply pwp_bind. eapply pwp_mono; [by apply Hm|intros a s'; apply Hf|done]. Qed.
Lemma p_keeps_for {A} (f : A → P S ()) l : (∀ x, p_keeps I (f x)) → p_keeps I (p_for f l).
Proof. intros Hf s Hs. apply pwp_for; [|done]. intros x s' Hx Hs'. by apply Hf. Qed.
Lemma p_keeps_recover {A} (h m : P S A) : p_keeps I h → p_keeps I m → p_keeps I (recover_with h m).
Proof. intros Hh Hm s Hs. apply pwp_recover. eapply pwp_mono; [by apply Hm|done|apply Hh]. Qed.
End p_keeps.

#[export] Hint Resolve p_keeps_ret p_keeps_panic p_keeps_gets : umh.

(** A property that a computation keeps without ever panicking. *)
Definition p_total {S A} (I : S → Prop) (m : P S A) : Prop := ∀ s, I s → pwp m (λ _, I) (λ _, False) s.

Section p_total.
Context {S : Type} (I : S → Prop).

Lemma p_total_ret {A} (a : A) : p_total I (mret a).
Proof. by intros s Hs. Qed.
Lemma p_total_gets {A} (f : S → A) : p_total I (p_gets f).
Proof. by intros s Hs. Qed.
Lemma p_total_bind {A B} (m : P S A) (f : A → P S B) :
  p_total I m → (∀ a, p_total I (f a)) → p_total I (m ≫= f).
Proof. intros Hm Hf s Hs. apply pwp_bind. eapply pwp_mono; [by apply Hm|intros a s'; apply Hf|done]. Qed.
Lemma p_total_for {A} (f : A → P S ()) l : (∀ x, p_total I (f x)) → p_total I (p_for f l).
Proof. intros Hf s Hs. apply pwp_for; [|done]. intros x s' Hx Hs'. by apply Hf. Qed.
End p_total.

(** From states with [I] two programs do the same, end in states with [I], and
    return only values with [Q]. *)
Definition p_agree {S A} (I : S → Prop) (Q : A → Prop) (m m' : P S A) : Prop :=
  ∀ s, I s → m s = m' s ∧ pwp m (λ a s', Q a ∧ I s') I s.

Section p_agree.
Context {S : Type} (I : S → Prop).

Lemma p_agree_bind {A B} (m m' : P S A) (f f' : A → P S B) (Q : A → Prop) (Q' : B → Prop) :
  p_agree I Q m m' → (∀ a, Q a → p_agree I Q' (f a) (f' a)) → p_agree I Q' (m ≫= f) (m' ≫= f').
Proof.
  intros Hm Hf s Hs. destruct (Hm s Hs) as [E Hp]. unfold mbind, P_bind, pwp in *. rewrite <- E.
  destruct (m s) as [[a|] s']; [|done]. destruct Hp as [Ha Hs']. by apply Hf.
Qed.
Lemma p_agree_refl {A} (m : P S A) (Q : A → Prop) : (∀ s, I s → pwp m (λ a s', Q a ∧ I s') I s) → p_agree I Q m m.
Proof. intros H s Hs. split; [done|by apply H]. Qed.
Lemma p_agree_keeps {A} (m : P S A) : p_keeps I m → p_agree I (λ _, True) m m.
Proof. intros H. apply p_agree_refl. intros s Hs. eapply pwp_mono; [by apply H|done|done]. Qed.
Lemma p_agree_ret {A} (a : A) (Q : A → Prop) : Q a → p_agree I Q (mret a) (mret a).
Proof. intros H. by apply p_agree_refl. Qed.
Lemma p_agree_elim {A} (m m' : P S A) (Q : A → Prop) s : p_agree I Q m m' → I s → m s = m' s ∧ I (m s).2.
Proof. intros H Hs. destruct (H s Hs) as [E Hp]. split; [done|]. unfold pwp in Hp. destruct (m s) as [[] ?]; naive_solver. Qed.
Lemma p_agree_panic {A} (Q : A → Prop) : p_agree I Q (p_panic (A := A)) p_panic.
Proof. by apply p_agree_refl. Qed.
Lemma p_agree_weaken {A} (m m' : P S A) (Q Q' : A → Prop) : p_agree I Q m m' → (∀ a, Q a → Q' a) → p_agree I Q' m m'.
Proof. intros H HQ s Hs. destruct (H s Hs) as [E Hp]. split; [done|]. eapply pwp_mono; [exact Hp| |done]. naive_solver. Qed.
End p_agree.
