(* ===== verification/WorkerConfig.v ===== *)
(** * WorkerConfig: what a parent worker and its supervisor say about children

    Models [fsmv2/config]: variables and their merging, user specifications and
    their hash, child specifications with their hash and validation, lifecycle
    phases and the view a parent has of its children.  The text [json.Marshal]
    produces is a parameter; the FNV-1a hash is modelled. *)

From S2P Require Import Prelude GoRuntime GoBytes Documents.
Local Open Scope Z_scope.

(** ** variables.go *)

(** A nil map and an empty one are told apart by nothing the code does with
    them; [Internal] is not serialised. *)
Record VariableBundle := mkVars { User : Document; Global : Document; Internal : Document }.
Definition no_variables : VariableBundle := mkVars ∅ ∅ ∅.

(** Values are cloned deeply, so that no map is shared; they are values here. *)
Definition Merge (parent child : VariableBundle) : VariableBundle :=
  mkVars (User child ∪ User parent) (Global child ∪ Global parent) ∅.
Definition vars_Clone (v : VariableBundle) : VariableBundle := mkVars (User v) (Global v) ∅.

(** The JSON value of the bundle: empty namespaces are omitted. *)
Definition namespace (name : string) (m : Document) : list (string * Value) :=
  if decide (m = ∅) then [] else [(name, doc_value m)].
Definition vars_value (v : VariableBundle) : Value := VMap (namespace "user" (User v) ++ namespace "global" (Global v)).

(** ** dependencies.go *)

(** Dependencies are shared objects (channels, connection pools); a number
    stands for the object. *)
Definition Dependencies : Type := gmap string Z.
Definition MergeDependencies (parent child : Dependencies) : Dependencies := child ∪ parent.

(** ** childspec.go *)

Record UserSpec := mkUserSpec { Config : string; Variables : VariableBundle }.
Definition no_spec : UserSpec := mkUserSpec "" no_variables.
Definition spec_Clone (u : UserSpec) : UserSpec := mkUserSpec (Config u) (vars_Clone (Variables u)).
Definition spec_value (u : UserSpec) : Value := VMap [("variables", vars_value (Variables u)); ("config", VString (Config u))].

Record ChildSpec := mkChildSpec {
  spec_Name : string; spec_WorkerType : string; spec_UserSpec : UserSpec;
  spec_Dependencies : Dependencies; Enabled : bool }.

Definition ChildID (name : string) : string := name +:+ "-001".

(** [config.ConfigError] is an [EConfig]; [errors.As] finds it under wraps. *)
Fixpoint as_config_error (e : GoErr) : bool :=
  match e with
  | EConfig _ _ => true
  | EWrap _ inner => as_config_error inner
  | EJoin errs => existsb as_config_error errs
  | _ => false
  end.

(** ** Hashes *)

Definition fnv_offset : Z := 14695981039346656037.
Definition fnv_prime : Z := 1099511628211.
(** [fnv.New64a]: one byte, then many. *)
Definition fnv_step (h : Z) (b : Ascii.ascii) : Z := wrap_u64 (Z.lxor h (Z.of_nat (Ascii.nat_of_ascii b)) * fnv_prime).
Definition fnv_write (h : Z) (l : bytes) : Z := fold_left fnv_step l h.
(** [fmt.Sprintf] with [%016x]. *)
Definition hex16 (h : Z) : string := str_of (EncodeToString (be_bytes 8 h)).

(** [json.Marshal]. *)
Class JSON := json_Marshal : Value → GoErr + bytes.

Section hashes.
Context `{JSON}.

Definition ComputeUserSpecHash (spec : UserSpec) : string :=
  let h := fnv_write fnv_offset (lit (Config spec)) in
  hex16 (match json_Marshal (vars_value (Variables spec)) with inr varsBytes => fnv_write h varsBytes | inl _ => h end).

Definition zero_byte : bytes := [Ascii.ascii_of_nat 0].
Definition one_byte : bytes := [Ascii.ascii_of_nat 1].

Definition spec_Hash (c : ChildSpec) : GoErr + string :=
  let h := fnv_write fnv_offset (lit (spec_Name c) ++ zero_byte ++ lit (spec_WorkerType c) ++ zero_byte ++
                                 lit (Config (spec_UserSpec c)) ++ zero_byte) in
  match json_Marshal (vars_value (Variables (spec_UserSpec c))) with
  | inl err => inl (EWrap "failed to marshal Variables for hashing: " err)
  | inr varsBytes =>
      inr (hex16 (fnv_write h (varsBytes ++ zero_byte ++ (if Enabled c then one_byte else zero_byte) ++ zero_byte)))
  end.

(** ** childspec_validation.go *)

Definition ValidateChildSpec (registered : list string) (spec : ChildSpec) : option GoErr :=
  if bool_decide (spec_Name spec = "") then Some (ENew "child spec name cannot be empty")
  else if bool_decide (spec_WorkerType spec = "") then Some (ENew "child spec validation failed: worker type cannot be empty")
  else if negb (bool_decide (spec_WorkerType spec ∈ registered)) then Some (ENew "child spec validation failed: unknown worker type")
  else match json_Marshal (spec_value (spec_UserSpec spec)) with
       | inl err => Some (EWrap "child spec validation failed: invalid user spec: " err)
       | inr _ => None
       end.

Fixpoint validate_specs (registered : list string) (names : list string) (specs : list ChildSpec) : option GoErr :=
  match specs with
  | [] => None
  | spec :: specs =>
      match ValidateChildSpec registered spec with
      | Some err => Some err
      | None =>
          if bool_decide (spec_Name spec ∈ names) then Some (ENew "child spec validation failed: duplicate name")
          else validate_specs registered (spec_Name spec :: names) specs
      end
  end.
Definition ValidateChildSpecs (specs : list ChildSpec) (registered : list string) : option GoErr :=
  validate_specs registered [] specs.

(** What a validation without an error guarantees. *)
Record valid_spec (registered : list string) (spec : ChildSpec) : Prop := {
  valid_name : spec_Name spec ≠ "";
  valid_type : spec_WorkerType spec ≠ "" ∧ spec_WorkerType spec ∈ registered;
  valid_json : ∃ b, json_Marshal (spec_value (spec_UserSpec spec)) = inr b;
}.

Lemma ValidateChildSpec_spec registered spec :
  ValidateChildSpec registered spec = None ↔ valid_spec registered spec.
Proof.
  unfold ValidateChildSpec. split.
  - repeat case_bool_decide; simpl; try done. destruct (json_Marshal _) eqn:E; [done|]. split; eauto.
  - intros [Hn [Ht Hr] [b Hb]]. by rewrite !bool_decide_false, bool_decide_true, Hb by done.
Qed.

Lemma validate_specs_spec registered names specs :
  validate_specs registered names specs = None ↔
  Forall (valid_spec registered) specs ∧ NoDup (spec_Name <$> specs) ∧ Forall (λ n, n ∉ names) (spec_Name <$> specs).
Proof.
  revert names. induction specs as [|spec specs IH]; intros names; simpl.
  { split; [by repeat constructor|done]. }
  destruct (ValidateChildSpec registered spec) eqn:E.
  { split; [done|]. intros (Hv & _). apply Forall_cons in Hv as [Hv _]. apply ValidateChildSpec_spec in Hv. congruence. }
  apply ValidateChildSpec_spec in E. case_bool_decide as Hin.
  - split; [done|]. intros (_ & _ & Hn). by apply Forall_cons in Hn as [Hn _].
  - rewrite IH, !Forall_cons, NoDup_cons, !Forall_forall. set_solver.
Qed.

(** A list of child specifications passes exactly when every one of them is
    valid and their names differ. *)
Lemma ValidateChildSpecs_spec specs registered :
  ValidateChildSpecs specs registered = None ↔ Forall (valid_spec registered) specs ∧ NoDup (spec_Name <$> specs).
Proof.
  unfold ValidateChildSpecs. rewrite validate_specs_spec, !Forall_forall. set_solver.
Qed.
End hashes.

Example fnv_empty : hex16 (fnv_write fnv_offset []) = "cbf29ce484222325".
Proof. by vm_compute. Qed.
Example fnv_foobar : hex16 (fnv_write fnv_offset (lit "foobar")) = "85944171f73967e8".
Proof. by vm_compute. Qed.

(** ** state.go *)

Inductive LifecyclePhase :=
  | PhaseUnknown | PhaseStopped | PhaseStarting | PhaseRunningHealthy | PhaseRunningDegraded | PhaseStopping.
#[export] Instance LifecyclePhase_eq_dec : EqDecision LifecyclePhase.
Proof. solve_decision. Defined.

Definition Prefix (p : LifecyclePhase) : string :=
  match p with
  | PhaseStopped => "stopped"
  | PhaseStarting => "trying_to_start_"
  | PhaseRunningHealthy => "running_healthy_"
  | PhaseRunningDegraded => "running_degraded_"
  | PhaseStopping => "trying_to_stop_"
  | PhaseUnknown => "unknown_"
  end.

Definition IsHealthy (p : LifecyclePhase) : bool := bool_decide (p = PhaseRunningHealthy).
Definition IsOperational (p : LifecyclePhase) : bool :=
  bool_decide (p = PhaseRunningHealthy) || bool_decide (p = PhaseRunningDegraded).
Definition IsStopped (p : LifecyclePhase) : bool := bool_decide (p = PhaseStopped).

Definition ParseLifecyclePhase (state : string) : LifecyclePhase :=
  if bool_decide (state = "stopped") then PhaseStopped
  else if has_prefix "trying_to_start_" state then PhaseStarting
  else if has_prefix "running_healthy_" state then PhaseRunningHealthy
  else if has_prefix "running_degraded_" state then PhaseRunningDegraded
  else if has_prefix "trying_to_stop_" state then PhaseStopping
  else PhaseUnknown.

(** [buildObservedStateName] of [supervisor/reconciliation.go]; the name of the
    state is lower-cased. *)
Definition buildObservedStateName (phase : LifecyclePhase) (state : string) : string :=
  if bool_decide (phase = PhaseStopped) then Prefix phase else Prefix phase +:+ to_lower state.

(** The phase is read back from the name, whatever the state is called. *)
Lemma parse_observed_name phase state : ParseLifecyclePhase (buildObservedStateName phase state) = phase.
Proof. by destruct phase. Qed.

(** ** ChildrenView *)

Record ChildInfo := mkChildInfo {
  info_Name : string; info_WorkerType : string; StateName : string; StateReason : string; info_HierarchyPath : string;
  info_IsHealthy : bool; info_IsOperational : bool; info_IsStopped : bool; IsStale : bool; info_IsCircuitOpen : bool }.

Record ChildrenView := mkView {
  Children : list ChildInfo; HealthyCount : Z; UnhealthyCount : Z; AllHealthy : bool; AllOperational : bool; AllStopped : bool }.

Definition view_add (v : ChildrenView) (c : ChildInfo) : ChildrenView :=
  mkView (Children v)
    (if info_IsHealthy c then HealthyCount v + 1 else HealthyCount v)
    (if negb (info_IsHealthy c) && negb (info_IsStopped c) then UnhealthyCount v + 1 else UnhealthyCount v)
    (AllHealthy v && info_IsHealthy c) (AllOperational v && info_IsOperational c) (AllStopped v && info_IsStopped c).
Definition NewChildrenView (children : list ChildInfo) : ChildrenView :=
  fold_left view_add children (mkView children 0 0 true true true).

Lemma view_counts children v :
  HealthyCount (fold_left view_add children v) = HealthyCount v + Z.of_nat (length (filter info_IsHealthy children)) ∧
  UnhealthyCount (fold_left view_add children v) =
    UnhealthyCount v + Z.of_nat (length (filter (λ c, negb (info_IsHealthy c) && negb (info_IsStopped c)) children)) ∧
  AllHealthy (fold_left view_add children v) = AllHealthy v && forallb info_IsHealthy children ∧
  AllStopped (fold_left view_add children v) = AllStopped v && forallb info_IsStopped children.
Proof.
  revert v. induction children as [|c children IH]; intros v.
  { simpl. by rewrite !Z.add_0_r, !andb_true_r. }
  simpl fold_left. destruct (IH (view_add v c)) as (-> & -> & -> & ->).
  unfold view_add. cbn [HealthyCount UnhealthyCount AllHealthy AllStopped]. rewrite !filter_cons. simpl forallb.
  rewrite !andb_assoc.
  destruct (info_IsHealthy c) eqn:Eh, (info_IsStopped c) eqn:Es; simpl; repeat split; try lia.
Qed.

(** The counts of the view are those of the children. *)
Lemma NewChildrenView_spec children :
  let v := NewChildrenView children in
  Children v = children ∧ HealthyCount v = Z.of_nat (length (filter info_IsHealthy children)) ∧
  AllHealthy v = forallb info_IsHealthy children ∧ AllStopped v = forallb info_IsStopped children.
Proof.
  simpl. destruct (view_counts children (mkView children 0 0 true true true)) as (H1 & _ & H2 & H3).
  assert (Hc : ∀ l v, Children (fold_left view_add l v) = Children v).
  { induction l as [|c l IH]; intros v; [done|]. simpl. by rewrite IH. }
  unfold NewChildrenView. rewrite H1, H2, H3, Hc. simpl. repeat split; lia.
Qed.
