(* ===== verification/Supervisor.v ===== *)
(** * Supervisor: the state of a supervisor and the tick of one worker

    Models [fsmv2/supervisor]: the data of [types.go] and [supervisor.go], and
    of [reconciliation.go], [lifecycle.go] and [config_error.go] what concerns
    one worker: the freshness gate, the restart of its collector, the action
    gate, the step of its state machine, the lifecycle flags of its desired
    state and the derivation of that state.  The hierarchy is in
    [SupervisorTree].

    The code of the workers (their states, actions and types), the store, the
    collectors and executors, which run in goroutines of their own, and the
    child supervisors are type classes.  What other goroutines do shows in the
    answers of the world ([W]) and of the store ([D]); in particular another
    goroutine may have called [Shutdown] whenever [started] is read.  Logging,
    metrics and the maps that only suppress repeated log lines are left out. *)

From S2P Require Import Prelude GoRuntime GoBytes StateMonad PanicMonad Documents WorkerConfig.
From S2P Require S6Status TriangularStore DocumentStore FSMManager.
Local Open Scope Z_scope.

(** ** constants.go, document_fields.go *)

Definition DefaultStaleThreshold : Z := 10 * Second.
Definition DefaultCollectorTimeout : Z := 20 * Second.
Definition DefaultMaxRestartAttempts : Z := 3.
Definition DefaultObservationInterval : Z := 1 * Second.
Definition MaxCgroupThrottlePeriod : Z := 200 * Millisecond.
Definition DefaultObservationTimeout : Z := DefaultObservationInterval + MaxCgroupThrottlePeriod + 1 * Second.
Definition DefaultGracefulShutdownTimeout : Z := 5 * Second.
Definition DefaultGracefulRestartTimeout : Z := 30 * Second.
Definition DefaultPanicEscalationWindow : Z := 300 * Second.
Definition DefaultMaxTickPanics : Z := 3.
Definition drainTickInterval : Z := 100 * Millisecond.
Definition tombstoneTimeout : Z := 5 * Second.

Definition FieldID : string := "id".
Definition FieldName : string := "name".
Definition FieldShutdownRequested : string := "ShutdownRequested".
Definition FieldDisabled : string := "Disabled".
Definition FieldParentID : string := "parent_id".

Definition ErrPanicCircuitOpen : GoErr := ESentinel "supervisor" "panic circuit breaker open".
Definition ErrInfraCircuitOpen : GoErr := ESentinel "supervisor" "infrastructure circuit breaker open".
Definition ErrVariablesNotPropagated : GoErr := ESentinel "config" "variables not propagated".

(** ** The code of the workers ([fsmv2/api.go]) *)

Record Identity := mkIdentity { ID : string; Name : string; WorkerType : string; HierarchyPath : string }.

(** The types of a worker and their methods that compute nothing but a result.
    [None] from a setter: the type does not implement it.  The zero time is 0. *)
Class WorkerTypes := {
  Worker : Type;
  State : Type;
  Action : Type;
  Desired : Type;
  Observed : Type;
  State_eq_dec :: EqDecision State;
  GetInitialState : Worker → option State;
  state_String : State → string;
  state_LifecyclePhase : State → LifecyclePhase;
  action_Name : Action → string;
  IsShutdownRequested : Desired → bool;
  IsDisabled : Desired → bool;
  SetShutdownRequested : bool → Desired → option Desired;
  SetDisabled : bool → Desired → option Desired;
  GetChildrenSpecs : Desired → option (list ChildSpec);
  GetTimestamp : Observed → Time;
  SetCollectedAt : Time → Observed → option Observed;
  StartupCount : Observed → option Z;
  SetFrameworkMetrics : Z → Observed → option Observed;
  desired_document : Desired → GoErr + Document;
  observed_document : Observed → GoErr + Document;
}.

Inductive Signal := SignalNone | SignalNeedsRemoval | SignalNeedsRestart | SignalOther (n : Z).

Section api.
Context `{WorkerTypes}.

Record WorkerSnapshot := mkWSnapshot { snap_Identity : Identity; snap_Observed : Observed; snap_Desired : Desired }.

(** A nil [State] is [None]; a nil [Children] says nothing about the children. *)
Record NextResult := mkNext {
  next_State : option State; next_Action : option Action; next_Reason : string;
  next_Children : option (list ChildSpec); next_Signal : Signal }.

(** The methods that run code of the worker, and may panic. *)
Class WorkerCode (W : Type) := {
  Next : State → WorkerSnapshot → P W NextResult;
  DeriveDesiredState : Worker → option UserSpec → P W (GoErr + Desired);
  CollectObservedState : Ctx → Worker → Desired → P W (GoErr + Observed);
  NewWorkerByType : string → Identity → Dependencies → P W (GoErr + Worker);
  ListRegisteredTypes : W → list string * W;
  ListSupervisorTypes : W → list string * W;
}.

(** [storage.TriangularStoreInterface]. *)
Class WorkerStore (D : Type) := {
  LoadSnapshot : Ctx → string → string → St D (GoErr + TriangularStore.Snapshot);
  LoadObservedTyped : Ctx → string → string → St D (GoErr + Observed);
  LoadDesiredTyped : Ctx → string → string → St D (GoErr + Desired);
  SaveIdentity : Ctx → string → string → Document → St D (option GoErr);
  SaveDesired : Ctx → string → string → Document → St D (option GoErr);
  SaveObserved : Ctx → string → string → Document → St D (option GoErr);
  Tombstone : Ctx → string → string → string → St D (option GoErr);
  ClearTombstone : Ctx → string → string → St D (option GoErr);
}.

(** The collector and the action executor of a worker, made together and known
    by a number.  Starting a collector twice panics. *)
Class Runners (W : Type) := {
  NewRunners : Identity → W → Z * W;
  collector_Start : Z → Ctx → P W ();
  collector_Stop : Z → Ctx → W → () * W;
  collector_Restart : Z → P W ();
  collector_TriggerNow : Z → W → () * W;
  collector_IsRunning : Z → W → bool * W;
  CollectFinalObservation : Z → Ctx → P W (option GoErr);
  executor_Start : Z → Ctx → W → () * W;
  executor_Shutdown : Z → W → () * W;
  HasActionInProgress : Z → string → W → bool * W;
  EnqueueAction : Z → string → Action → W → option GoErr * W;
}.

(** Whether another goroutine has called [Shutdown], or closed the channel
    that forces the exit, by now. *)
Class Interference (W : Type) := {
  shutdown_called : W → bool * W;
  force_exit : W → bool * W;
}.
End api.

(** ** types.go, supervisor.go *)

Section data.
Context `{WorkerTypes}.

(** The gate between an action and the next step of the state machine. *)
Record Gate := mkGate { actionPending : bool; lastActionObsTime : Time; gatingBlockedCount : Z }.
Definition open_gate : Gate := mkGate false 0 0.

Record Stats := mkStats {
  stateEnteredAt : Time; stateTransitions : gmap string Z; stateDurations : gmap string Z; totalTransitions : Z }.

(** [runners] stands for the collector and the executor. *)
Record WorkerContext := mkWorkerContext {
  identity : Identity; worker : Worker; runners : Z;
  currentState : option State; currentStateReason : string;
  lastLifecyclePhase : LifecyclePhase; lastObservedStateName : string;
  gate : Gate; stats : Stats; lastRenderedChildren : option (list ChildSpec);
  lastObservationCollectedAt : Time; collectorRestarts : Z; startupCount : Z }.

Record CollectorHealthConfig := mkHealthConfig {
  cfg_ObservationTimeout : Z; cfg_StaleThreshold : Z; cfg_Timeout : Z; cfg_MaxRestartAttempts : Z }.

(** What [NewSupervisor] fixes for the lifetime of a supervisor. *)
Record Settings := mkSettings {
  workerType : string; createdAt : Time;
  observationTimeout : Z; staleThreshold : Z; timeout : Z; maxRestartAttempts : Z;
  gracefulShutdownTimeout : Z }.

Record Spec := mkSpec { userSpec : UserSpec; globalVars : Document; parentID : string; deps : Dependencies }.

(** The maps from names to [true] are sets. *)
Record Registry (C : Type) := mkRegistry {
  workers : gmap string WorkerContext; children : gmap string C; pendingRemoval : gset string;
  pendingRestart : gset string; restartRequestedAt : gmap string Time; pendingReAdds : gmap string Identity }.

Record Caches := mkCaches {
  lastUserSpecHash : string; cachedDesiredState : option Desired; validatedSpecHashes : gmap string string }.

(** [collectorHealth], the circuit breakers and the panic tracker. *)
Record Health := mkHealth {
  restartCount : Z; lastRestart : Time; circuitOpen : bool; panicCircuitOpen : bool; panicTimestamps : list Time }.

Record Running := mkRunning { started : bool; drainTimedOut : bool; sctx : Ctx; tickCount : Z }.

Record Supervisor (C : Type) := mkSupervisor {
  settings : Settings; spec : Spec; registry : Registry C; caches : Caches; health : Health; running : Running }.

(** A supervisor, the world and the store. *)
Record SupState (C W D : Type) := mkState { sup : Supervisor C; env : W; db : D }.
End data.

Arguments mkRegistry {_ C} _ _ _ _ _ _.
Arguments workers {_ C} _. Arguments children {_ C} _. Arguments pendingRemoval {_ C} _.
Arguments pendingRestart {_ C} _. Arguments restartRequestedAt {_ C} _. Arguments pendingReAdds {_ C} _.
Arguments mkSupervisor {_ C} _ _ _ _ _ _.
Arguments settings {_ C} _. Arguments spec {_ C} _. Arguments registry {_ C} _. Arguments caches {_ C} _.
Arguments health {_ C} _. Arguments running {_ C} _.
Arguments mkState {_ C W D} _ _ _. Arguments sup {_ C W D} _. Arguments env {_ C W D} _. Arguments db {_ C W D} _.

(** ** Updates *)

Section updates.
Context `{WorkerTypes} {C : Type}.

Definition set_registry (f : Registry C → Registry C) (s : Supervisor C) : Supervisor C :=
  mkSupervisor (settings s) (spec s) (f (registry s)) (caches s) (health s) (running s).
Definition set_spec (f : Spec → Spec) (s : Supervisor C) : Supervisor C :=
  mkSupervisor (settings s) (f (spec s)) (registry s) (caches s) (health s) (running s).
Definition set_caches (f : Caches → Caches) (s : Supervisor C) : Supervisor C :=
  mkSupervisor (settings s) (spec s) (registry s) (f (caches s)) (health s) (running s).
Definition set_health (f : Health → Health) (s : Supervisor C) : Supervisor C :=
  mkSupervisor (settings s) (spec s) (registry s) (caches s) (f (health s)) (running s).
Definition set_running (f : Running → Running) (s : Supervisor C) : Supervisor C :=
  mkSupervisor (settings s) (spec s) (registry s) (caches s) (health s) (f (running s)).

Definition upd_workers (f : gmap string WorkerContext → gmap string WorkerContext) (r : Registry C) : Registry C :=
  mkRegistry (f (workers r)) (children r) (pendingRemoval r) (pendingRestart r) (restartRequestedAt r) (pendingReAdds r).
Definition upd_children (f : gmap string C → gmap string C) (r : Registry C) : Registry C :=
  mkRegistry (workers r) (f (children r)) (pendingRemoval r) (pendingRestart r) (restartRequestedAt r) (pendingReAdds r).
Definition upd_pendingRemoval (f : gset string → gset string) (r : Registry C) : Registry C :=
  mkRegistry (workers r) (children r) (f (pendingRemoval r)) (pendingRestart r) (restartRequestedAt r) (pendingReAdds r).
(** [pendingRestart] and [restartRequestedAt] are always written together. *)
Definition mark_restart (id : string) (now : Time) (r : Registry C) : Registry C :=
  mkRegistry (workers r) (children r) (pendingRemoval r) ({[id]} ∪ pendingRestart r) (<[id := now]> (restartRequestedAt r))
    (pendingReAdds r).
Definition clear_restart (id : string) (r : Registry C) : Registry C :=
  mkRegistry (workers r) (children r) (pendingRemoval r) (pendingRestart r ∖ {[id]}) (delete id (restartRequestedAt r))
    (pendingReAdds r).
Definition upd_reAdds (f : gmap string Identity → gmap string Identity) (r : Registry C) : Registry C :=
  mkRegistry (workers r) (children r) (pendingRemoval r) (pendingRestart r) (restartRequestedAt r) (f (pendingReAdds r)).

Definition upd_restarts (n : Z) (t : Time) (h : Health) : Health :=
  mkHealth n t (circuitOpen h) (panicCircuitOpen h) (panicTimestamps h).
Definition reset_restarts (h : Health) : Health := upd_restarts 0 (lastRestart h) h.
Definition upd_circuit (b : bool) (h : Health) : Health :=
  mkHealth (restartCount h) (lastRestart h) b (panicCircuitOpen h) (panicTimestamps h).
Definition upd_panicCircuit (b : bool) (h : Health) : Health :=
  mkHealth (restartCount h) (lastRestart h) (circuitOpen h) b (panicTimestamps h).
Definition upd_panics (l : list Time) (h : Health) : Health :=
  mkHealth (restartCount h) (lastRestart h) (circuitOpen h) (panicCircuitOpen h) l.

Definition upd_started (b : bool) (r : Running) : Running := mkRunning b (drainTimedOut r) (sctx r) (tickCount r).
Definition upd_drainTimedOut (r : Running) : Running := mkRunning (started r) true (sctx r) (tickCount r).
Definition upd_ctx (c : Ctx) (r : Running) : Running := mkRunning (started r) (drainTimedOut r) c (tickCount r).
Definition incr_tickCount (r : Running) : Running := mkRunning (started r) (drainTimedOut r) (sctx r) (wrap_u64 (tickCount r + 1)).

(** The fields of a worker. *)
Definition wc_state (st : option State) (w : WorkerContext) : WorkerContext :=
  mkWorkerContext (identity w) (worker w) (runners w) st (currentStateReason w) (lastLifecyclePhase w)
    (lastObservedStateName w) (gate w) (stats w) (lastRenderedChildren w) (lastObservationCollectedAt w)
    (collectorRestarts w) (startupCount w).
Definition wc_reason (r : string) (w : WorkerContext) : WorkerContext :=
  mkWorkerContext (identity w) (worker w) (runners w) (currentState w) r (lastLifecyclePhase w)
    (lastObservedStateName w) (gate w) (stats w) (lastRenderedChildren w) (lastObservationCollectedAt w)
    (collectorRestarts w) (startupCount w).
Definition wc_phase (st : State) (w : WorkerContext) : WorkerContext :=
  mkWorkerContext (identity w) (worker w) (runners w) (currentState w) (currentStateReason w) (state_LifecyclePhase st)
    (buildObservedStateName (state_LifecyclePhase st) (state_String st)) (gate w) (stats w) (lastRenderedChildren w)
    (lastObservationCollectedAt w) (collectorRestarts w) (startupCount w).
Definition wc_gate (f : Gate → Gate) (w : WorkerContext) : WorkerContext :=
  mkWorkerContext (identity w) (worker w) (runners w) (currentState w) (currentStateReason w) (lastLifecyclePhase w)
    (lastObservedStateName w) (f (gate w)) (stats w) (lastRenderedChildren w) (lastObservationCollectedAt w)
    (collectorRestarts w) (startupCount w).
Definition wc_stats (f : Stats → Stats) (w : WorkerContext) : WorkerContext :=
  mkWorkerContext (identity w) (worker w) (runners w) (currentState w) (currentStateReason w) (lastLifecyclePhase w)
    (lastObservedStateName w) (gate w) (f (stats w)) (lastRenderedChildren w) (lastObservationCollectedAt w)
    (collectorRestarts w) (startupCount w).
Definition wc_rendered (l : option (list ChildSpec)) (w : WorkerContext) : WorkerContext :=
  mkWorkerContext (identity w) (worker w) (runners w) (currentState w) (currentStateReason w) (lastLifecyclePhase w)
    (lastObservedStateName w) (gate w) (stats w) l (lastObservationCollectedAt w) (collectorRestarts w) (startupCount w).
Definition wc_collectedAt (t : Time) (w : WorkerContext) : WorkerContext :=
  mkWorkerContext (identity w) (worker w) (runners w) (currentState w) (currentStateReason w) (lastLifecyclePhase w)
    (lastObservedStateName w) (gate w) (stats w) (lastRenderedChildren w) t (collectorRestarts w) (startupCount w).
Definition wc_restarted (w : WorkerContext) : WorkerContext :=
  mkWorkerContext (identity w) (worker w) (runners w) (currentState w) (currentStateReason w) (lastLifecyclePhase w)
    (lastObservedStateName w) (gate w) (stats w) (lastRenderedChildren w) (lastObservationCollectedAt w)
    (collectorRestarts w + 1) (startupCount w).

(** The bookkeeping of a transition into [to_], at [now]. *)
Definition enter_stats (from to_ : string) (now : Time) (x : Stats) : Stats :=
  mkStats now (<[to_ := default 0 (stateTransitions x !! to_) + 1]> (stateTransitions x))
    (if stateEnteredAt x =? 0 then stateDurations x
     else <[from := default 0 (stateDurations x !! from) + S6Status.time_Sub now (stateEnteredAt x)]> (stateDurations x))
    (totalTransitions x + 1).
End updates.

(** ** The monad of the supervisor's methods *)

Section methods.
Context `{WorkerTypes} {C W D : Type} `{World W} `{!WorkerCode W} `{!WorkerStore D} `{!Runners W} `{!Interference W}.
Local Abbreviation SState := (SupState C W D).
Local Abbreviation SM := (P SState).

Definition liftW {A} (f : W → A * W) : SM A := λ s, let (a, w) := f (env s) in (Some a, mkState (sup s) w (db s)).
Definition liftPW {A} (f : P W A) : SM A := λ s, let (r, w) := f (env s) in (r, mkState (sup s) w (db s)).
Definition liftD {A} (f : St D A) : SM A := λ s, let (a, d) := f (db s) in (Some a, mkState (sup s) (env s) d).
Definition on_sup (f : Supervisor C → Supervisor C) : SM () := p_modify (λ s, mkState (f (sup s)) (env s) (db s)).
Definition on_registry (f : Registry C → Registry C) : SM () := on_sup (set_registry f).
Definition on_health (f : Health → Health) : SM () := on_sup (set_health f).
Definition on_worker (id : string) (f : WorkerContext → WorkerContext) : SM () := on_registry (upd_workers (alter f id)).
Definition sup_gets {A} (f : Supervisor C → A) : SM A := p_gets (λ s, f (sup s)).
Definition get_worker (id : string) : SM (option WorkerContext) := sup_gets (λ s, workers (registry s) !! id).
Definition get_settings : SM Settings := sup_gets settings.
Definition get_health : SM Health := sup_gets health.

(** [s.started.Load()]: [Shutdown] clears the flag at its entry. *)
Definition started_Load : SM bool :=
  called ← liftW shutdown_called;
  _ ← on_sup (if called : bool then set_running (upd_started false) else id);
  sup_gets (λ s, started (running s)).

(** [time.Since(t)]. *)
Definition Since (t : Time) : SM Z := now ← liftW clock; mret (S6Status.time_Sub now t).

(** ** The lifecycle flags of the stored desired state

    Every one of these operations holds [lifecycleFlagMu] from its load to its
    save, so that they do not interleave. *)

(** [toDocument]: the errors name what is converted. *)
Definition toDocument (what : string) (r : GoErr + Document) (id : string) : GoErr + Document :=
  match r with
  | inl err => inl (EWrap ("failed to marshal " +:+ what +:+ ": ") err)
  | inr doc => inr (<[FieldID := VString id]> doc)
  end.

Definition storedLifecycleFlags (ctx : Ctx) (workerID : string) : SM (GoErr + bool * bool) :=
  x ← get_settings;
  r ← liftD (LoadDesiredTyped ctx (workerType x) workerID);
  mret match r with
       | inl err => if IsErr err DocumentStore.ErrNotFound then inr (false, false) else inl err
       | inr d => inr (IsShutdownRequested d, IsDisabled d)
       end.

(** Load the desired state, change it, save it: what the three setters share.
    To two of them a worker without a stored state is no error. *)
Definition edit_desired (ctx : Ctx) (workerID : string) (edit : Desired → option Desired)
    (missing_ok : bool) (load_failed unsupported save_failed : string) : SM (option GoErr) :=
  x ← get_settings;
  r ← liftD (LoadDesiredTyped ctx (workerType x) workerID);
  match r with
  | inl err =>
      if missing_ok && IsErr err DocumentStore.ErrNotFound then mret None
      else mret (Some (EWrap load_failed err))
  | inr desired =>
      match edit desired with
      | None => mret (Some (ENew unsupported))
      | Some desired' =>
          match toDocument "desired state" (desired_document desired') workerID with
          | inl err => mret (Some err)
          | inr doc =>
              e ← liftD (SaveDesired ctx (workerType x) workerID doc);
              mret (EWrap save_failed <$> e)
          end
      end
  end.

Definition requestShutdown (ctx : Ctx) (workerID reason : string) : SM (option GoErr) :=
  w ← get_worker workerID;
  match w with
  | None => mret (Some (ENew "worker not found"))
  | Some _ =>
      edit_desired ctx workerID (SetShutdownRequested true) true "failed to load desired state: "
        "desired state type does not implement ShutdownRequestable"
        "failed to save desired state with shutdown request: "
  end.

Definition setDisabled (ctx : Ctx) (workerID : string) (disabled : bool) : SM (option GoErr) :=
  w ← get_worker workerID;
  match w with
  | None => mret (Some (ENew "worker not found"))
  | Some _ =>
      edit_desired ctx workerID (SetDisabled disabled) true "failed to load desired state: "
        "desired state type does not implement Disableable" "failed to save desired state with disabled flag: "
  end.

Definition clearShutdownRequested (ctx : Ctx) (workerID : string) : SM (option GoErr) :=
  edit_desired ctx workerID (SetShutdownRequested false) false "load desired for clear shutdown: "
    "desired state type does not implement ShutdownRequestable" "save desired: ".

(** config_error.go: nothing is written. *)
Definition flags_document (flags : bool * bool) (doc : Document) : Document :=
  let doc := if flags.1 then <[FieldShutdownRequested := VBool true]> doc else doc in
  if flags.2 then <[FieldDisabled := VBool true]> doc else doc.

Definition loadStoredLifecycleFlags (ctx : Ctx) (workerID : string) : SM Document :=
  r ← storedLifecycleFlags ctx workerID;
  mret match r with inl _ => ∅ | inr flags => flags_document flags ∅ end.

(** The merged user specification, stored for observers when it says anything;
    what it becomes by passing through JSON. *)
Definition with_user_spec (u : UserSpec) (doc : Document) : Document :=
  if (bool_decide (Config u ≠ "") || bool_decide (User (Variables u) ≠ ∅)) && json_ok (spec_value u)
  then <["originalUserSpec" := json_value (spec_value u)]> doc else doc.

Definition saveDerivedDesiredState (ctx : Ctx) (desired : Desired) (workerID : string) (u : UserSpec) : SM (GoErr + Document) :=
  match toDocument "derived desired state" (desired_document desired) workerID with
  | inl err => mret (inl err)
  | inr doc =>
      let doc := with_user_spec u doc in
      r ← storedLifecycleFlags ctx workerID;
      match r with
      | inl _ => mret (inr doc)
      | inr flags =>
          let doc := flags_document flags doc in
          x ← get_settings;
          _ ← liftD (SaveDesired ctx (workerType x) workerID doc);
          mret (inr doc)
      end
  end.

(** ** The derivation of the desired state *)

Context `{JSON}.

(** The state to run on, and the config error it is run on in spite of. *)
Definition deriveDesiredStateCached (w : Worker) (u : UserSpec) : SM (GoErr + Desired * option GoErr) :=
  let currentHash := ComputeUserSpecHash u in
  c ← sup_gets caches;
  match cachedDesiredState c with
  | Some cached =>
      if bool_decide (lastUserSpecHash c = currentHash) then mret (inr (cached, None))
      else
        r ← liftPW (DeriveDesiredState w (Some u));
        match r with
        | inl err =>
            if as_config_error err then mret (inr (cached, Some err))
            else mret (inl (EWrap "failed to derive desired state: " err))
        | inr desired =>
            _ ← on_sup (set_caches (λ c, mkCaches currentHash (Some desired) (validatedSpecHashes c)));
            mret (inr (desired, None))
        end
  | None =>
      r ← liftPW (DeriveDesiredState w (Some u));
      match r with
      | inl err => mret (inl (EWrap "failed to derive desired state: " err))
      | inr desired =>
          _ ← on_sup (set_caches (λ c, mkCaches currentHash (Some desired) (validatedSpecHashes c)));
          mret (inr (desired, None))
      end
  end.

(** ** The freshness of the observation ([internal/health/freshness.go]) *)

Definition Check (observedAt : Time) : SM bool := x ← get_settings; age ← Since observedAt; mret (age <? staleThreshold x).
Definition IsTimeout (observedAt : Time) : SM bool := x ← get_settings; age ← Since observedAt; mret (timeout x <=? age).

Definition checkDataFreshness (observedAt : Time) : SM bool :=
  t ← IsTimeout observedAt;
  if t : bool then mret false else Check observedAt.

Definition restart_backoff (n : Z) : Z := (n + 1) * 2 * Second.

Definition restartCollector (workerID : string) : SM (option GoErr) :=
  x ← get_settings;
  h ← get_health;
  if maxRestartAttempts x <=? restartCount h then p_panic
  else
    wait ← (if lastRestart h =? 0 then mret false
            else elapsed ← Since (lastRestart h); mret (elapsed <? restart_backoff (restartCount h)));
    if wait : bool then mret None
    else
      now ← liftW clock;
      _ ← on_health (upd_restarts (restartCount h + 1) now);
      w ← get_worker workerID;
      match w with
      | None => mret (Some (ENew "worker not found"))
      | Some w =>
          _ ← on_worker workerID wc_restarted;
          _ ← liftPW (collector_Restart (runners w));
          mret None
      end.

(** The observation is too old: restart the collector when it is time, and
    give up on it when that did not help. *)
Definition stale_observation (ctx : Ctx) (workerID : string) (observedAt : Time) : SM (option GoErr) :=
  t ← IsTimeout observedAt;
  if t : bool then
    x ← get_settings;
    h ← get_health;
    if maxRestartAttempts x <=? restartCount h then
      _ ← requestShutdown ctx workerID "collector unresponsive";
      mret (Some (ENew "collector unresponsive, shutdown requested"))
    else
      e ← restartCollector workerID;
      mret (EWrap "failed to restart collector: " <$> e)
  else mret None.

(** ** Removal and restart of a worker *)

(** [stopWorker]. *)
Definition stopWorker (ctx : Ctx) (w : WorkerContext) : SM () :=
  _ ← liftW (collector_Stop (runners w) ctx);
  liftW (executor_Shutdown (runners w)).

Definition RemoveWorkerForRestart (ctx : Ctx) (workerID : string) : SM (option GoErr) :=
  w ← get_worker workerID;
  match w with
  | None => mret (Some (ENew "worker not found"))
  | Some w =>
      _ ← on_registry (upd_workers (delete workerID));
      _ ← stopWorker ctx w;
      mret None
  end.

(** [getStartedContext]. *)
Definition getStartedContext : SM (option Ctx) :=
  b ← started_Load;
  if b : bool then r ← sup_gets running; mret (Some (sctx r)) else mret None.

Definition startWorker (ctx : Ctx) (w : WorkerContext) : SM () :=
  _ ← liftPW (collector_Start (runners w) ctx);
  liftW (executor_Start (runners w) ctx).

Definition startWorkerProcesses (workerID : string) : SM () :=
  c ← getStartedContext;
  match c with
  | None => mret tt
  | Some ctx =>
      w ← get_worker workerID;
      match w with None => mret tt | Some w => startWorker ctx w end
  end.

Definition tombstoneWorker (ctx : Ctx) (workerID : string) : SM () :=
  x ← get_settings;
  markCtx ← liftW (WithTimeout Background tombstoneTimeout);
  _ ← liftD (Tombstone markCtx (workerType x) workerID "supervisor");
  mret tt.
End methods.
