(* ===== verification/SupervisorWorker.v ===== *)
(** * SupervisorWorker: the life of a worker under its supervisor

    Models of [fsmv2/supervisor] what happens to one worker: it is added
    ([api.go]), ticked, restarted and removed ([lifecycle.go],
    [reconciliation.go]).  Removing a worker shuts its children down, so that
    the interface of a child supervisor comes here too. *)

From S2P Require Import Prelude GoRuntime GoBytes StateMonad PanicMonad Documents WorkerConfig Supervisor.
From S2P Require S6Status TriangularStore DocumentStore FSMManager.
Local Open Scope Z_scope.

(** What a supervisor passes on to the supervisor of a child. *)
Record Config := mkConfig {
  cfg_WorkerType : string; cfg_GracefulShutdownTimeout : Z; cfg_Dependencies : Dependencies; cfg_UserSpec : UserSpec;
  cfg_CollectorHealth : CollectorHealthConfig }.
Definition default_health : CollectorHealthConfig := mkHealthConfig 0 0 0 0.

(** [SupervisorInterface]: what a supervisor asks of its children, and the
    factory that makes them. *)
Class SupervisorInterface `{WorkerTypes} (C W D : Type) := {
  child_tick : Ctx → P (C * (W * D)) (option GoErr);
  child_Shutdown : P (C * (W * D)) ();
  child_RequestShutdown : Ctx → string → P (C * (W * D)) (option GoErr);
  child_SetDisabled : Ctx → bool → P (C * (W * D)) (option GoErr);
  child_AddWorker : Identity → Worker → P (C * (W * D)) (option GoErr);
  child_StartAsChild : Ctx → P (C * (W * D)) ();
  child_updateUserSpec : UserSpec → C → C;
  child_setParent : string → C → C;
  child_ListWorkers : C → list string;
  child_isCircuitOpen : C → bool;
  child_calculateSubtreeHeight : C → Z;
  NewSupervisorByType : string → Config → P W (GoErr + option C);
}.

Section worker.
Context `{WorkerTypes} {C W D : Type} `{World W} `{!WorkerCode W} `{!WorkerStore D} `{!Runners W} `{!Interference W}.
Context `{JSON} `{!FSMManager.MapOrder W} `{!SupervisorInterface C W D}.
Local Abbreviation SState := (SupState C W D).
Local Abbreviation SM := (P SState).

(** The keys of a map in the order [range] takes them. *)
Definition range_keys (l : list string) : SM (list string) := liftW (FSMManager.map_order l).

(** A method of the child called [name]; what it did to itself stays when it panics. *)
Definition on_child {A} (name : string) (m : P (C * (W * D)) A) : SM A := λ s,
  match children (registry (sup s)) !! name with
  | None => (None, s)
  | Some c =>
      let '(r, (c', (w, d))) := m (c, (env s, db s)) in
      (r, mkState (set_registry (upd_children (insert name c')) (sup s)) w d)
  end.
(** A method of a child that is in no map yet. *)
Definition with_child {A} (c : C) (m : P (C * (W * D)) A) : SM (A * C) := λ s,
  let '(r, (c', (w, d))) := m (c, (env s, db s)) in
  (match r with Some a => Some (a, c') | None => None end, mkState (sup s) w d).

(** ** Adding a worker (api.go) *)

Definition deriveInitialDesired (w : Worker) : SM (GoErr + Desired) :=
  sp ← sup_gets spec;
  let ddsSpec := if bool_decide (WorkerConfig.Config (userSpec sp) ≠ "") then Some (userSpec sp) else None in
  r ← liftPW (DeriveDesiredState w ddsSpec);
  r ← match r with
      | inl err =>
          if bool_decide (is_Some ddsSpec) && IsErr err ErrVariablesNotPropagated then liftPW (DeriveDesiredState w None)
          else mret r
      | inr _ => mret r
      end;
  mret match r with inl err => inl (EWrap "failed to derive initial desired state: " err) | inr d => inr d end.

Definition collectInitialObservation (ctx : Ctx) (w : Worker) (initialDesired : Desired) : SM (GoErr + Observed) :=
  r ← liftPW (CollectObservedState ctx w initialDesired);
  match r with
  | inl err => mret (inl (EWrap "failed to collect initial observed state: " err))
  | inr observed =>
      if GetTimestamp observed =? 0 then
        now ← liftW clock;
        mret (inr (default observed (SetCollectedAt now observed)))
      else mret (inr observed)
  end.

Definition identity_document (i : Identity) : Document :=
  <["id" := VString (ID i)]> (<["name" := VString (Name i)]>
    (<["worker_type" := VString (WorkerType i)]> (<["hierarchy_path" := VString (HierarchyPath i)]> ∅))).

Definition saveIdentity (ctx : Ctx) (i : Identity) : SM (option GoErr) :=
  x ← get_settings;
  e ← liftD (SaveIdentity ctx (workerType x) (ID i) (identity_document i));
  mret (EWrap "failed to save identity: " <$> e).

Definition nextStartupCount (i : Identity) : SM Z :=
  loadCtx ← liftW (WithTimeout Background (2 * Second));
  x ← get_settings;
  r ← liftD (LoadObservedTyped loadCtx (workerType x) (ID i));
  mret match r with
       | inl _ => 1
       | inr o => match StartupCount o with Some n => if 0 <? n then n + 1 else 1 | None => 1 end
       end.

(** The desired state first, so that a failed save stores no startup count; the
    state of a removed worker with this id must not apply to the new one. *)
Definition saveInitialState (ctx : Ctx) (w : Worker) (i : Identity) (observed : Observed) (initialDesired : Desired)
    (startup : Z) : SM (option GoErr) :=
  x ← get_settings;
  match toDocument "desired state" (desired_document initialDesired) (ID i) with
  | inl err => mret (Some err)
  | inr desiredDoc =>
      e ← liftD (SaveDesired ctx (workerType x) (ID i) desiredDoc);
      match e with
      | Some err => mret (Some (EWrap "failed to save initial desired state: " err))
      | None =>
          match toDocument "observed state" (observed_document (default observed (SetFrameworkMetrics startup observed))) (ID i) with
          | inl err => mret (Some err)
          | inr observedDoc =>
              let observedDoc := match GetInitialState w with
                                 | Some st => <["state" := VString (state_String st)]> observedDoc | None => observedDoc end in
              e ← liftD (SaveObserved ctx (workerType x) (ID i) observedDoc);
              match e with
              | Some err => mret (Some (EWrap "failed to save initial observation: " err))
              | None => liftD (ClearTombstone ctx (workerType x) (ID i))
              end
          end
      end
  end.

Definition new_worker_context (w : Worker) (i : Identity) (r : Z) (now : Time) (startup : Z) : WorkerContext :=
  let initialState := GetInitialState w in
  mkWorkerContext i w r initialState "initial"
    (match initialState with Some st => state_LifecyclePhase st | None => PhaseUnknown end) ""
    open_gate (mkStats now ∅ ∅ 0) None 0 0 startup.

Definition newWorkerContext (w : Worker) (i : Identity) (startup : Z) : SM WorkerContext :=
  r ← liftW (NewRunners i);
  now ← liftW clock;
  mret (new_worker_context w i r now startup).

Definition AddWorker (i : Identity) (w : Worker) : SM (option GoErr) :=
  known ← get_worker (ID i);
  match known with
  | Some _ => mret (Some (ENew "worker already exists"))
  | None =>
      ctx ← liftW (WithTimeout Background (5 * Second));
      r ← deriveInitialDesired w;
      match r with
      | inl err => mret (Some err)
      | inr initialDesired =>
          r ← collectInitialObservation ctx w initialDesired;
          match r with
          | inl err => mret (Some err)
          | inr observed =>
              e ← saveIdentity ctx i;
              match e with
              | Some err => mret (Some err)
              | None =>
                  startup ← nextStartupCount i;
                  e ← saveInitialState ctx w i observed initialDesired startup;
                  match e with
                  | Some err => mret (Some err)
                  | None =>
                      wc ← newWorkerContext w i startup;
                      _ ← on_registry (upd_workers (insert (ID i) wc));
                      mret None
                  end
              end
          end
      end
  end.

(** ** Restarting a worker (lifecycle.go) *)

Definition handleWorkerRestart (ctx : Ctx) (workerID : string) : SM (option GoErr) :=
  w ← get_worker workerID;
  match w with
  | None => mret (Some (ENew "worker not found for restart"))
  | Some w =>
      let i := identity w in
      e ← RemoveWorkerForRestart ctx workerID;
      match e with
      | Some err => mret (Some (EWrap "failed to remove worker for restart: " err))
      | None =>
          b ← started_Load;
          if negb b then mret None
          else
            _ ← clearShutdownRequested ctx workerID;
            x ← get_settings;
            sp ← sup_gets spec;
            r ← liftPW (NewWorkerByType (workerType x) i (deps sp));
            match r with
            | inl err => mret (Some (EWrap "failed to create new worker for restart: " err))
            | inr newWorker =>
                e ← AddWorker i newWorker;
                match e with
                | Some err =>
                    _ ← on_registry (upd_reAdds (insert workerID i));
                    if as_config_error err then mret None
                    else mret (Some (EWrap "failed to add new worker for restart: " err))
                | None =>
                    _ ← startWorkerProcesses workerID;
                    _ ← on_health reset_restarts;
                    mret None
                end
            end
      end
  end.

Definition retryPendingReAdds : SM bool :=
  reAdds ← sup_gets (λ s, pendingReAdds (registry s));
  order ← range_keys (map_to_list reAdds).*1;
  match order with
  | [] => mret false
  | workerID :: _ =>
      match reAdds !! workerID with
      | None => mret false
      | Some i =>
          x ← get_settings;
          sp ← sup_gets spec;
          r ← liftPW (NewWorkerByType (workerType x) i (deps sp));
          match r with
          | inl _ => mret false
          | inr newWorker =>
              e ← AddWorker i newWorker;
              match e with
              | Some _ => mret false
              | None =>
                  _ ← on_registry (upd_reAdds (delete workerID));
                  _ ← startWorkerProcesses workerID;
                  mret true
              end
          end
      end
  end.

(** A restart that takes too long is forced: the worker goes back to its
    initial state without having shut down. *)
Definition force_reset (workerID : string) : SM () :=
  requested ← sup_gets (λ s, restartRequestedAt (registry s) !! workerID);
  match requested with
  | None => mret tt
  | Some requestedAt =>
      age ← Since requestedAt;
      if negb (DefaultGracefulRestartTimeout <? age) then mret tt
      else
        w ← get_worker workerID;
        match w with
        | None => on_registry (clear_restart workerID)
        | Some w =>
            _ ← on_worker workerID (wc_state (GetInitialState (worker w)));
            _ ← liftW (collector_TriggerNow (runners w));
            on_registry (clear_restart workerID)
        end
  end.

Definition checkRestartTimeouts : SM () :=
  pending ← sup_gets (λ s, elements (pendingRestart (registry s)));
  order ← range_keys pending;
  p_for force_reset order.

(** ** Signals *)

(** The removal for good: the documents are tombstoned, the children shut
    down, the last observation taken, the worker stopped and forgotten. *)
Definition shutdown_child (name : string) : SM () :=
  _ ← on_child name child_Shutdown;
  on_registry (upd_children (delete name)).

Definition remove_worker (ctx : Ctx) (workerID : string) : SM (option GoErr) :=
  w ← get_worker workerID;
  match w with
  | None => mret (Some (ENew "worker not found in registry"))
  | Some w =>
      cs ← sup_gets (λ s, (map_to_list (children (registry s))).*1);
      _ ← tombstoneWorker ctx workerID;
      order ← range_keys cs;
      _ ← p_for shutdown_child order;
      isRunning ← liftW (collector_IsRunning (runners w));
      _ ← (if isRunning : bool then
             x ← get_settings;
             collectCtx ← liftW (WithTimeout ctx (observationTimeout x));
             _ ← liftPW (CollectFinalObservation (runners w) collectCtx); mret tt
           else mret tt);
      _ ← stopWorker ctx w;
      _ ← on_registry (upd_workers (delete workerID));
      mret None
  end.

Definition processSignal (ctx : Ctx) (workerID : string) (signal : Signal) : SM (option GoErr) :=
  match signal with
  | SignalNone => mret None
  | SignalNeedsRemoval =>
      b ← started_Load;
      pending ← sup_gets (λ s, bool_decide (workerID ∈ pendingRestart (registry s)));
      _ ← (if pending : bool then on_registry (clear_restart workerID) else mret tt);
      if b && pending then handleWorkerRestart ctx workerID else remove_worker ctx workerID
  | SignalNeedsRestart =>
      now ← liftW clock;
      _ ← on_registry (mark_restart workerID now);
      _ ← requestShutdown ctx workerID "restart_requested";
      mret None
  | SignalOther _ => mret (Some (ENew "unknown signal"))
  end.

(** ** The tick of one worker *)

(** [getString]: the document comes as a [persistence.Document], which is not
    the type asserted. *)
Inductive AnyDoc := AnyNil | AnyMap (m : Document) | AnyDocument (d : option Document).
Definition getString (doc : AnyDoc) (key defaultValue : string) : string :=
  match doc with
  | AnyMap m => match m !! key with Some (VString s) => s | _ => defaultValue end
  | _ => defaultValue
  end.

(** Enter a state: statistics, phase and reason change with it. *)
Definition enter_state (from to_ : State) (reason : string) (now : Time) (w : WorkerContext) : WorkerContext :=
  wc_phase to_ (wc_reason reason (wc_state (Some to_)
    (wc_stats (enter_stats (state_String from) (state_String to_) now) w))).

(** The step is over: record the state or its reason, then process the signal. *)
Definition finish_step (ctx : Ctx) (workerID : string) (from to_ : State) (result : NextResult) : SM (option GoErr) :=
  _ ← (if decide (to_ = from) then on_worker workerID (wc_reason (next_Reason result))
       else now ← liftW clock; on_worker workerID (enter_state from to_ (next_Reason result) now));
  e ← processSignal ctx workerID (next_Signal result);
  mret (EWrap "signal processing failed: " <$> e).

(** One step of the state machine. *)
Definition step_worker (ctx : Ctx) (workerID : string) (snapshot : WorkerSnapshot) : SM (option GoErr) :=
  w ← get_worker workerID;
  match w ≫= currentState, w with
  | Some from, Some w =>
      result ← liftPW (Next from snapshot);
      _ ← on_worker workerID (wc_rendered (next_Children result));
      match next_State result with
      | None => p_panic
      | Some to_ =>
          match next_Action result with
          | None => finish_step ctx workerID from to_ result
          | Some action =>
              if negb (bool_decide (to_ = from)) then p_panic
              else
                busy ← liftW (HasActionInProgress (runners w) (action_Name action));
                if busy : bool then mret None
                else
                  e ← liftW (EnqueueAction (runners w) (action_Name action) action);
                  match e with
                  | Some err => mret (Some (EWrap "failed to enqueue action: " err))
                  | None =>
                      _ ← on_worker workerID (wc_gate (λ g, mkGate true (GetTimestamp (snap_Observed snapshot)) (gatingBlockedCount g)));
                      finish_step ctx workerID from to_ result
                  end
          end
      end
  | _, _ => mret None
  end.

(** The gate: after an action, a newer observation must come first. *)
Definition gated_step (ctx : Ctx) (workerID : string) (snapshot : WorkerSnapshot) : SM (option GoErr) :=
  w ← get_worker workerID;
  match w with
  | None => mret None
  | Some w =>
      if actionPending (gate w) && negb (IsShutdownRequested (snap_Desired snapshot)) then
        if lastActionObsTime (gate w) <? GetTimestamp (snap_Observed snapshot) then
          _ ← on_worker workerID (wc_gate (λ _, open_gate));
          step_worker ctx workerID snapshot
        else
          _ ← on_worker workerID (wc_gate (λ g, mkGate (actionPending g) (lastActionObsTime g) (gatingBlockedCount g + 1)));
          mret None
      else step_worker ctx workerID snapshot
  end.

(** What the tick caches of the observation and of the current state. *)
Definition wc_observed (t : Time) (w : WorkerContext) : WorkerContext :=
  match currentState w with Some st => wc_phase st (wc_collectedAt t w) | None => wc_collectedAt t w end.

Definition snapshot_of (workerID : string) (w : WorkerContext) (s : TriangularStore.Snapshot) (o : Observed) (d : Desired) : WorkerSnapshot :=
  mkWSnapshot (mkIdentity workerID (getString (AnyDocument (TriangularStore.Identity s)) FieldName workerID)
                 (WorkerType (identity w)) (HierarchyPath (identity w))) o d.

Definition tickWorker (ctx : Ctx) (workerID : string) : SM (option GoErr) :=
  w ← get_worker workerID;
  match w with
  | None => mret None
  | Some w =>
      x ← get_settings;
      r ← liftD (LoadSnapshot ctx (workerType x) workerID);
      match r with
      | inl err => mret (Some (EWrap "failed to load snapshot: " err))
      | inr stored =>
          if bool_decide (TriangularStore.Observed stored = None) then p_panic
          else
            r ← liftD (LoadObservedTyped ctx (workerType x) workerID);
            match r with
            | inl err => mret (Some (EWrap "failed to load typed observed state: " err))
            | inr observed =>
                r ← liftD (LoadDesiredTyped ctx (workerType x) workerID);
                match r with
                | inl err => mret (Some (EWrap "failed to load typed desired state: " err))
                | inr desired =>
                    let observedAt := GetTimestamp observed in
                    _ ← on_worker workerID (wc_observed observedAt);
                    fresh ← (if IsShutdownRequested desired then mret true else checkDataFreshness observedAt);
                    if negb fresh then stale_observation ctx workerID observedAt
                    else
                      _ ← on_health reset_restarts;
                      gated_step ctx workerID (snapshot_of workerID w stored observed desired)
                end
            end
      end
  end.
End worker.
