(* ===== verification/SupervisorTree.v ===== *)
(** * SupervisorTree: supervisors of supervisors

    Models the rest of [fsmv2/supervisor]: the reconciliation of the children
    and the tick of a supervisor with its circuit breakers
    ([reconciliation.go], [infrastructure_health.go], [panic_recovery.go]), and
    the methods it offers its parent ([lifecycle.go], [api.go]).  A supervisor
    is written against the interface of its children and implements that
    interface itself ([supervisor_interface]), so that a tree is a tower of
    instances.

    [Shutdown] is modelled as the supervisors call it on their children: from
    the goroutine that ticks them, so that nothing else ticks them meanwhile. *)

From S2P Require Import Prelude GoRuntime GoBytes StateMonad PanicMonad Documents WorkerConfig Supervisor SupervisorWorker.
From S2P Require S6Status TriangularStore DocumentStore FSMManager.
Local Open Scope Z_scope.

Section tree.
Context `{WorkerTypes} {C W D : Type} `{World W} `{!WorkerCode W} `{!WorkerStore D} `{!Runners W} `{!Interference W}.
Context `{JSON} `{!FSMManager.MapOrder W} `{!SupervisorInterface C W D}.
Local Abbreviation SState := (SupState C W D).
Local Abbreviation SM := (P SState).

(** ** The reconciliation of the children *)

(** The children inherit the variables of their parent. *)
Definition child_user_spec (sp : Spec) (cs : ChildSpec) : UserSpec :=
  mkUserSpec (WorkerConfig.Config (spec_UserSpec cs)) (Merge (Variables (userSpec sp)) (Variables (spec_UserSpec cs))).

Definition child_config (x : Settings) (sp : Spec) (cs : ChildSpec) : Config :=
  mkConfig (spec_WorkerType cs) (gracefulShutdownTimeout x) (MergeDependencies (deps sp) (spec_Dependencies cs)) no_spec default_health.

(** The path of the first worker that has one. *)
Fixpoint first_path (ws : gmap string WorkerContext) (order : list string) : string :=
  match order with
  | [] => ""
  | id :: order =>
      match ws !! id with
      | Some w => if bool_decide (HierarchyPath (identity w) = "") then first_path ws order else HierarchyPath (identity w)
      | None => first_path ws order
      end
  end.

Definition child_identity (parentPath : string) (cs : ChildSpec) : Identity :=
  let childID := ChildID (spec_Name cs) in
  mkIdentity childID (spec_Name cs) (spec_WorkerType cs)
    (parentPath +:+ "/" +:+ childID +:+ "(" +:+ spec_WorkerType cs +:+ ")").

(** A new child replaces its desired state by an empty one that is not shut
    down, and is started when the parent is. *)
Definition adopt_child (cs : ChildSpec) (i : Identity) (c : C) : SM () :=
  childDesiredCtx ← liftW (WithTimeout Background (5 * Second));
  _ ← liftD (SaveDesired childDesiredCtx (spec_WorkerType cs) (ID i)
               (<[FieldID := VString (ID i)]> {[FieldShutdownRequested := VBool false]}));
  _ ← on_registry (upd_children (insert (spec_Name cs) c));
  ctx ← getStartedContext;
  match ctx with
  | None => mret tt
  | Some childCtx =>
      e ← liftW (ctx_Err childCtx);
      match e with None => on_child (spec_Name cs) (child_StartAsChild childCtx) | Some _ => mret tt end
  end.

Definition create_child (cs : ChildSpec) : SM () :=
  x ← get_settings;
  sp ← sup_gets spec;
  let mergedDeps := MergeDependencies (deps sp) (spec_Dependencies cs) in
  r ← liftPW (NewSupervisorByType (spec_WorkerType cs) (child_config x sp cs));
  match r with
  | inl _ | inr None => mret tt
  | inr (Some c) =>
      let c := child_setParent (workerType x) (child_updateUserSpec (child_user_spec sp cs) c) in
      ws ← sup_gets (λ s, workers (registry s));
      order ← range_keys (map_to_list ws).*1;
      let i := child_identity (first_path ws order) cs in
      r ← liftPW (NewWorkerByType (spec_WorkerType cs) i mergedDeps);
      match r with
      | inl _ => mret tt
      | inr w =>
          '(e, c) ← with_child c (child_AddWorker i w);
          match e with
          | Some _ => mret tt
          | None => adopt_child cs i c
          end
      end
  end.

Definition reconcile_spec (cs : ChildSpec) : SM () :=
  existing ← sup_gets (λ s, children (registry s) !! spec_Name cs);
  match existing with
  | Some _ =>
      sp ← sup_gets spec;
      _ ← on_registry (upd_pendingRemoval (λ p, p ∖ {[spec_Name cs]}));
      on_registry (upd_children (alter (child_updateUserSpec (child_user_spec sp cs)) (spec_Name cs)))
  | None => create_child cs
  end.

(** One misbehaving child does not stop the others. *)
Definition apply_disabled (ctx : Ctx) (cs : ChildSpec) : SM () :=
  recover_with (mret tt)
    (existing ← sup_gets (λ s, children (registry s) !! spec_Name cs);
     match existing with
     | None => mret tt
     | Some _ => _ ← on_child (spec_Name cs) (child_SetDisabled ctx (negb (Enabled cs))); mret tt
     end).
Definition applyDisableMapping (ctx : Ctx) (specs : list ChildSpec) : SM () := p_for (apply_disabled ctx) specs.

(** Phase 1: a child that is no longer wanted is asked, once, to shut down. *)
Definition request_removal (specNames : list string) (name : string) : SM () :=
  pending ← sup_gets (λ s, bool_decide (name ∈ pendingRemoval (registry s)));
  if bool_decide (name ∈ specNames) || pending then mret tt
  else
    _ ← on_registry (upd_pendingRemoval (λ p, {[name]} ∪ p));
    _ ← on_child name (child_RequestShutdown Background "removed_from_specs");
    mret tt.

(** Phase 2: the children without workers are shut down, then forgotten. *)
Fixpoint collect_reaped (cs : gmap string C) (order : list string) : list string :=
  match order with
  | [] => []
  | name :: order =>
      match cs !! name with
      | Some c => if bool_decide (child_ListWorkers c = []) then name :: collect_reaped cs order else collect_reaped cs order
      | None => collect_reaped cs order
      end
  end.
Definition forget_child (name : string) : SM () :=
  on_registry (λ r, upd_pendingRemoval (λ p, p ∖ {[name]}) (upd_children (delete name) r)).

(** A panic of a [Shutdown] here ends the process in Go: the deferred unlock
    meets a mutex that is not locked. *)
Definition reap_children : SM () :=
  pending ← sup_gets (λ s, elements (pendingRemoval (registry s)));
  order ← range_keys pending;
  cs ← sup_gets (λ s, children (registry s));
  _ ← on_registry (upd_pendingRemoval (λ p, p ∩ dom cs));
  let reapList := collect_reaped cs order in
  _ ← p_for (λ name, on_child name child_Shutdown) reapList;
  p_for forget_child reapList.

Definition reconcileChildren (specs : list ChildSpec) : SM () :=
  _ ← p_for reconcile_spec specs;
  _ ← applyDisableMapping Background specs;
  names ← sup_gets (λ s, (map_to_list (children (registry s))).*1);
  order ← range_keys names;
  _ ← p_for (request_removal (spec_Name <$> specs)) order;
  reap_children.

(** ** Circuit breakers (infrastructure_health.go, panic_recovery.go) *)

Fixpoint first_open (cs : gmap string C) (order : list string) : option string :=
  match order with
  | [] => None
  | name :: order =>
      match cs !! name with
      | Some c => if child_isCircuitOpen c then Some name else first_open cs order
      | None => first_open cs order
      end
  end.
Definition CheckChildConsistency : SM (option string) :=
  cs ← sup_gets (λ s, children (registry s));
  order ← range_keys (map_to_list cs).*1;
  mret (first_open cs order).

Definition pruneExpired (now : Time) (l : list Time) : list Time :=
  filter (λ t, now - DefaultPanicEscalationWindow < t) l.
Definition RecordPanic : SM bool :=
  now ← liftW clock;
  h ← get_health;
  let l := pruneExpired now (panicTimestamps h ++ [now]) in
  _ ← on_health (upd_panics l);
  mret (DefaultMaxTickPanics <=? Z.of_nat (length l)).
Definition PanicCount : SM Z :=
  now ← liftW clock;
  h ← get_health;
  let l := pruneExpired now (panicTimestamps h) in
  _ ← on_health (upd_panics l);
  mret (Z.of_nat (length l)).

(** ** The tick *)

(** Only the specifications that changed since they were validated. *)
Definition to_validate (hashes : gmap string string) (cs : ChildSpec) : bool :=
  match spec_Hash cs with
  | inl _ => true
  | inr h => bool_decide (hashes !! spec_Name cs ≠ Some h)
  end.
Definition remember_hash (hashes : gmap string string) (cs : ChildSpec) : gmap string string :=
  match spec_Hash cs with inl _ => hashes | inr h => <[spec_Name cs := h]> hashes end.
Definition forget_hashes (specs : list ChildSpec) (hashes : gmap string string) : gmap string string :=
  filter (λ kv, kv.1 ∈ spec_Name <$> specs) hashes.

Definition validate_children (specs : list ChildSpec) : SM (option GoErr) :=
  if bool_decide (specs = []) then mret None
  else
    c ← sup_gets caches;
    registered ← liftW ListRegisteredTypes;
    let specsToValidate := filter (to_validate (validatedSpecHashes c)) specs in
    match ValidateChildSpecs specsToValidate registered with
    | Some err => mret (Some (EWrap "invalid child specifications: " err))
    | None =>
        _ ← on_sup (set_caches (λ c, mkCaches (lastUserSpecHash c) (cachedDesiredState c)
              (forget_hashes specs (fold_left remember_hash specsToValidate (validatedSpecHashes c)))));
        mret None
    end.

(** The user specification with the variables of this worker. *)
Definition inject_variables (x : Settings) (sp : Spec) (workerID : string) : UserSpec :=
  let u := spec_Clone (userSpec sp) in
  mkUserSpec (WorkerConfig.Config u)
    (mkVars (User (Variables u)) (globalVars sp)
       (<[FieldID := VString workerID]> (<[FieldCreatedAt := VTime (createdAt x)]> {[FieldParentID := VString (parentID sp)]}))).

(** The children the worker wants after its tick. *)
Definition wanted_children (workerID : string) (desired : Desired) : SM (list ChildSpec) :=
  w ← get_worker workerID;
  reAdd ← sup_gets (λ s, pendingReAdds (registry s) !! workerID);
  mret match w with
       | Some w => default (default [] (GetChildrenSpecs desired)) (lastRenderedChildren w)
       | None => match reAdd with Some _ => default [] (GetChildrenSpecs desired) | None => [] end
       end.

Definition tick_child (ctx : Ctx) (name : string) : SM () := _ ← on_child name (child_tick ctx); mret tt.

Definition tick_children (ctx : Ctx) : SM () :=
  cs ← sup_gets (λ s, (map_to_list (children (registry s))).*1);
  order ← range_keys cs;
  p_for (tick_child ctx) order.

(** From the children the worker wants to the end of the tick. *)
Definition tick_hierarchy (ctx : Ctx) (workerID : string) (desired : Desired) (desiredDoc : Document) (configErr : option GoErr)
    : SM (option GoErr) :=
  specs ← wanted_children workerID desired;
  e ← validate_children specs;
  match e with
  | Some err => mret (Some err)
  | None =>
      let specs := if bool_decide (desiredDoc !! FieldShutdownRequested = Some (VBool true)) then [] else specs in
      _ ← reconcileChildren specs;
      _ ← tick_children ctx;
      mret (EWrap "failed to derive desired state: " <$> configErr)
  end.

(** Derive, save and tick the first worker. *)
Definition tick_first (ctx : Ctx) (workerID : string) (w : Worker) : SM (option GoErr) :=
  x ← get_settings;
  sp ← sup_gets spec;
  let u := inject_variables x sp workerID in
  r ← deriveDesiredStateCached w u;
  match r with
  | inl err => mret (Some err)
  | inr (desired, configErr) =>
      r ← match configErr with
          | None => saveDerivedDesiredState ctx desired workerID u
          | Some _ => doc ← loadStoredLifecycleFlags ctx workerID; mret (inr doc)
          end;
      match r with
      | inl err => mret (Some err)
      | inr desiredDoc =>
          e ← tickWorker ctx workerID;
          match e with
          | Some err => mret (Some (EWrap "failed to tick worker: " err))
          | None => tick_hierarchy ctx workerID desired desiredDoc configErr
          end
      end
  end.

Definition tick_workers (ctx : Ctx) : SM (option GoErr) :=
  ws ← sup_gets (λ s, workers (registry s));
  order ← range_keys (map_to_list ws).*1;
  match order with
  | workerID :: _ =>
      match ws !! workerID with
      | Some w => tick_first ctx workerID (worker w)
      | None => mret None
      end
  | [] =>
      b ← started_Load;
      if negb b then mret None
      else _ ← retryPendingReAdds; mret None
  end.

(** The infrastructure gate: whether the tick stops here. *)
Definition infra_gate : SM bool :=
  b ← started_Load;
  if negb b then mret false
  else
    unhealthy ← CheckChildConsistency;
    match unhealthy with
    | Some _ => _ ← on_health (upd_circuit true); mret true
    | None => _ ← on_health (upd_circuit false); mret false
    end.

(** The panic gate: the circuit closes when the window has drained. *)
Definition panic_gate : SM bool :=
  h ← get_health;
  if negb (panicCircuitOpen h) then mret false
  else
    n ← PanicCount;
    if n =? 0 then _ ← on_health (upd_panicCircuit false); mret false
    else mret true.

Definition tick_body (ctx : Ctx) : SM (option GoErr) :=
  suppressed ← panic_gate;
  if suppressed : bool then mret (Some ErrPanicCircuitOpen)
  else
    _ ← on_sup (set_running incr_tickCount);
    _ ← checkRestartTimeouts;
    stopped ← infra_gate;
    if stopped : bool then mret (Some ErrInfraCircuitOpen) else tick_workers ctx.

(** A panic of the tick is counted; the third within the window opens the circuit. *)
Definition recover_tick : SM (option GoErr) :=
  tooMany ← RecordPanic;
  _ ← (if tooMany : bool then _ ← on_health (upd_panicCircuit true); _ ← PanicCount; mret tt else mret tt);
  mret (Some (ENew "tick panic: ")).

Definition tick (ctx : Ctx) : SM (option GoErr) := recover_with recover_tick (tick_body ctx).

(** ** The rest of the interface (lifecycle.go, api.go) *)

Definition for_workers (f : string → SM (option GoErr)) (l : list string) : SM () := p_for (λ id, _ ← f id; mret tt) l.

Definition RequestShutdown (ctx : Ctx) (reason : string) : SM (option GoErr) :=
  ids ← sup_gets (λ s, (map_to_list (workers (registry s))).*1);
  order ← range_keys ids;
  _ ← for_workers (λ id, requestShutdown ctx id reason) order;
  mret None.

(** The first error ends the loop. *)
Fixpoint set_disabled_all (ctx : Ctx) (disabled : bool) (ids : list string) : SM (option GoErr) :=
  match ids with
  | [] => mret None
  | id :: ids =>
      e ← setDisabled ctx id disabled;
      match e with
      | Some err => mret (Some (EWrap ("worker " +:+ id +:+ ": ") err))
      | None => set_disabled_all ctx disabled ids
      end
  end.
Definition SetDisabled (ctx : Ctx) (disabled : bool) : SM (option GoErr) :=
  ids ← sup_gets (λ s, (map_to_list (workers (registry s))).*1);
  order ← range_keys ids;
  set_disabled_all ctx disabled order.

(** [startWorkerRunners] starts what is registered, without telling whether it runs. *)
Definition start_runners (ctx : Ctx) (id : string) : SM () :=
  w ← get_worker id;
  match w with None => mret tt | Some w => startWorker ctx w end.
Definition StartAsChild (ctx : Ctx) : SM () :=
  _ ← on_sup (set_running (λ r, upd_started true (upd_ctx ctx r)));
  ids ← sup_gets (λ s, (map_to_list (workers (registry s))).*1);
  order ← range_keys ids;
  p_for (start_runners ctx) order.

Definition height_of (cs : gmap string C) : Z :=
  foldr (λ kc h, Z.max (1 + child_calculateSubtreeHeight kc.2) h) 1 (map_to_list cs).
Definition calculateSubtreeHeight (s : Supervisor C) : Z := height_of (children (registry s)).

(** The workers are asked to shut down.  Nothing ticks them while the caller
    waits, so that the wait ends with the budget or by force. *)
Definition drain (ids : list string) (drainBudget childDrainElapsed : Z) : SM bool :=
  r ← sup_gets running;
  match ids with
  | [] => if drainBudget <=? childDrainElapsed then _ ← on_sup (set_running upd_drainTimedOut); mret true else mret false
  | _ =>
      order ← range_keys ids;
      _ ← for_workers (λ id, requestShutdown (sctx r) id "supervisor_shutdown") order;
      forced ← liftW force_exit;
      _ ← (if forced : bool then mret tt else on_sup (set_running upd_drainTimedOut));
      mret true
  end.

Definition stop_remaining (id : string) : SM () :=
  w ← get_worker id;
  match w with None => mret tt | Some w => stopWorker Background w end.

Definition Shutdown : SM () :=
  b ← started_Load;
  if negb b then mret tt
  else
    _ ← on_sup (set_running (upd_started false));
    cs ← sup_gets (λ s, (map_to_list (children (registry s))).*1);
    ids ← sup_gets (λ s, (map_to_list (workers (registry s))).*1);
    x ← get_settings;
    height ← sup_gets calculateSubtreeHeight;
    let drainBudget := gracefulShutdownTimeout x * height in
    drainStart ← liftW clock;
    order ← range_keys cs;
    _ ← p_for (λ name, on_child name child_Shutdown) order;
    childDrainElapsed ← Since drainStart;
    warned ← drain ids drainBudget childDrainElapsed;
    now ← liftW clock;
    _ ← on_sup (set_running (λ r, upd_ctx (mkCtx (ctx_Deadline (sctx r)) (Some (default now (ctx_cancelled_at (sctx r))))) r));
    total ← Since drainStart;
    _ ← (if warned || (total <=? drainBudget + drainTickInterval) then mret tt else on_sup (set_running upd_drainTimedOut));
    order ← range_keys ids;
    p_for stop_remaining order.

Definition updateUserSpec (u : UserSpec) : Supervisor C → Supervisor C :=
  set_spec (λ sp, mkSpec u (globalVars sp) (parentID sp) (deps sp)).
Definition setParent (p : string) : Supervisor C → Supervisor C :=
  set_spec (λ sp, mkSpec (userSpec sp) (globalVars sp) p (deps sp)).
Definition SetGlobalVariables (vars : Document) : Supervisor C → Supervisor C :=
  set_spec (λ sp, mkSpec (userSpec sp) vars (parentID sp) (deps sp)).
Definition ListWorkers (s : Supervisor C) : list string := (map_to_list (workers (registry s))).*1.
Definition IsCircuitOpen (s : Supervisor C) : bool := circuitOpen (health s) || panicCircuitOpen (health s).

(** ** NewSupervisor (supervisor.go) *)

(** A zero field of the configuration means its default. *)
Definition or_default (x d : Z) : Z := if x =? 0 then d else x.

Definition new_settings (cfg : Config) (now : Time) : Settings :=
  let h := cfg_CollectorHealth cfg in
  mkSettings (cfg_WorkerType cfg) now (or_default (cfg_ObservationTimeout h) DefaultObservationTimeout)
    (or_default (cfg_StaleThreshold h) DefaultStaleThreshold) (or_default (cfg_Timeout h) DefaultCollectorTimeout)
    (or_default (cfg_MaxRestartAttempts h) DefaultMaxRestartAttempts)
    (or_default (cfg_GracefulShutdownTimeout cfg) DefaultGracefulShutdownTimeout).

(** The orderings [NewSupervisor] panics without. *)
Definition settings_valid (x : Settings) : bool :=
  negb (staleThreshold x <=? 0) && negb (timeout x <=? staleThreshold x) && negb (maxRestartAttempts x <=? 0) &&
  negb (staleThreshold x <=? observationTimeout x) && negb (timeout x <=? staleThreshold x).

Definition new_supervisor (cfg : Config) (now : Time) : Supervisor C :=
  mkSupervisor (new_settings cfg now) (mkSpec (cfg_UserSpec cfg) ∅ "" (cfg_Dependencies cfg))
    (mkRegistry ∅ ∅ ∅ ∅ ∅ ∅) (mkCaches "" None ∅) (mkHealth 0 0 false false []) (mkRunning false false Background 0).

Definition NewSupervisor (cfg : Config) : P W (Supervisor C) := λ w,
  let (now, w) := clock w in
  if settings_valid (new_settings cfg now) then (Some (new_supervisor cfg now), w) else (None, w).
End tree.

(** ** A supervisor as a child *)

Section as_child.
Context `{WorkerTypes} {C W D : Type} `{World W} `{!WorkerCode W} `{!WorkerStore D} `{!Runners W} `{!Interference W}.
Context `{JSON} `{!FSMManager.MapOrder W} `{!SupervisorInterface C W D}.

Definition as_child {A} (m : P (SupState C W D) A) : P (Supervisor C * (W * D)) A := λ '(s, (w, d)),
  let (r, st) := m (mkState s w d) in (r, (sup st, (env st, db st))).

(** [factory.NewSupervisorByType]: every registered factory is [NewSupervisor]. *)
Definition new_by_type (workerType : string) (cfg : Config) : P W (GoErr + option (Supervisor C)) := λ w,
  if bool_decide (workerType = "") then (Some (inl (ENew "worker type cannot be empty")), w)
  else
    let (registered, w) := ListSupervisorTypes w in
    if bool_decide (workerType ∈ registered)
    then let (r, w) := NewSupervisor cfg w in (match r with Some s => Some (inr (Some s)) | None => None end, w)
    else (Some (inl (ENew "no supervisor factory registered for worker type")), w).

#[export] Instance supervisor_interface : SupervisorInterface (Supervisor C) W D := {|
  child_tick ctx := as_child (tick ctx);
  child_Shutdown := as_child Shutdown;
  child_RequestShutdown ctx reason := as_child (RequestShutdown ctx reason);
  child_SetDisabled ctx disabled := as_child (SetDisabled ctx disabled);
  child_AddWorker i w := as_child (AddWorker i w);
  child_StartAsChild ctx := as_child (StartAsChild ctx);
  child_updateUserSpec := updateUserSpec;
  child_setParent := setParent;
  child_ListWorkers := ListWorkers;
  child_isCircuitOpen := IsCircuitOpen;
  child_calculateSubtreeHeight := calculateSubtreeHeight;
  NewSupervisorByType := new_by_type;
|}.
End as_child.

(** A supervisor without children: no child type is registered for it. *)
#[export] Instance no_children `{WorkerTypes} {W D : Type} : SupervisorInterface Empty_set W D := {|
  child_tick _ := λ s, (None, s);
  child_Shutdown := λ s, (None, s);
  child_RequestShutdown _ _ := λ s, (None, s);
  child_SetDisabled _ _ := λ s, (None, s);
  child_AddWorker _ _ := λ s, (None, s);
  child_StartAsChild _ := λ s, (None, s);
  child_updateUserSpec _ c := c;
  child_setParent _ c := c;
  child_ListWorkers (c : Empty_set) := match c with end;
  child_isCircuitOpen (c : Empty_set) := match c with end;
  child_calculateSubtreeHeight (c : Empty_set) := match c with end;
  NewSupervisorByType _ _ := λ w, (Some (inl (ENew "no supervisor factory registered for worker type")), w);
|}.

(** The supervisors of a hierarchy of at most [n + 1] levels. *)
Fixpoint Tower `{WorkerTypes} (n : nat) : Type :=
  match n with O => Supervisor Empty_set | S n => Supervisor (Tower n) end.

Fixpoint tower_interface `{WorkerTypes} {W D : Type} `{World W} `{!WorkerCode W} `{!WorkerStore D} `{!Runners W}
    `{!Interference W} `{JSON} `{!FSMManager.MapOrder W} (n : nat) : SupervisorInterface (Tower n) W D :=
  match n with
  | O => supervisor_interface (C := Empty_set)
  | S n => let i := tower_interface n in supervisor_interface (C := Tower n)
  end.
