(* ===== verification/SupervisorFacts.v ===== *)
(** * SupervisorFacts: rules and invariants of the supervisors

    Rules for the steps of the supervisors' monad, the laws of the interfaces,
    and what every tick keeps: the number of restarts of the collector stays
    within its bound, and a supervisor that counts restarts never panics over
    them. *)

From S2P Require Import Prelude GoRuntime GoBytes StateMonad PanicMonad Documents WorkerConfig Supervisor SupervisorWorker SupervisorTree.
From S2P Require S6Status TriangularStore DocumentStore FSMManager.
Local Open Scope Z_scope.

Create HintDb frame discriminated.

(** ** Rules *)

Section rules.
Context `{WorkerTypes} {C W D : Type}.
Implicit Types (s : SupState C W D) (R : SupState C W D → Prop).

Lemma pwp_liftW {A} (f : W → A * W) (Q : A → SupState C W D → Prop) R s :
  (∀ a w, f (env s) = (a, w) → Q a (mkState (sup s) w (db s))) → pwp (liftW f) Q R s.
Proof. unfold pwp, liftW. destruct (f (env s)) as [a w]. auto. Qed.

Lemma pwp_liftD {A} (f : St D A) (Q : A → SupState C W D → Prop) R s :
  (∀ a d, f (db s) = (a, d) → Q a (mkState (sup s) (env s) d)) → pwp (liftD f) Q R s.
Proof. unfold pwp, liftD. destruct (f (db s)) as [a d]. auto. Qed.

Lemma pwp_liftPW {A} (f : P W A) (Q : A → SupState C W D → Prop) R s :
  (∀ a w, f (env s) = (Some a, w) → Q a (mkState (sup s) w (db s))) →
  (∀ w, f (env s) = (None, w) → R (mkState (sup s) w (db s))) → pwp (liftPW f) Q R s.
Proof. unfold pwp, liftPW. destruct (f (env s)) as [[a|] w]; auto. Qed.

Lemma pwp_on_sup f (Q : () → SupState C W D → Prop) R s :
  Q tt (mkState (f (sup s)) (env s) (db s)) → pwp (on_sup f) Q R s.
Proof. done. Qed.

Lemma pwp_sup_gets {A} (f : Supervisor C → A) (Q : A → SupState C W D → Prop) R s : Q (f (sup s)) s → pwp (sup_gets f) Q R s.
Proof. done. Qed.

Lemma pwp_on_child {A} name (m : P (C * (W * D)) A) (Q : A → SupState C W D → Prop) R s :
  match children (registry (sup s)) !! name with
  | None => R s
  | Some c => ∀ r c' w d, m (c, (env s, db s)) = (r, (c', (w, d))) →
      let s' := mkState (set_registry (upd_children (insert name c')) (sup s)) w d in
      match r with Some a => Q a s' | None => R s' end
  end → pwp (on_child name m) Q R s.
Proof.
  unfold pwp, on_child. destruct (children (registry (sup s)) !! name) as [c|]; [|done].
  destruct (m (c, (env s, db s))) as [r [c' [w d]]]. intros H'. by apply (H' r c' w d).
Qed.

Lemma pwp_with_child {A} c (m : P (C * (W * D)) A) (Q : A * C → SupState C W D → Prop) R s :
  (∀ r c' w d, m (c, (env s, db s)) = (r, (c', (w, d))) →
     match r with Some a => Q (a, c') (mkState (sup s) w d) | None => R (mkState (sup s) w d) end) →
  pwp (with_child c m) Q R s.
Proof.
  unfold pwp, with_child. destruct (m (c, (env s, db s))) as [r [c' [w d]]]. intros H'.
  specialize (H' r c' w d eq_refl). by destruct r.
Qed.
End rules.

(** ** Invariants of the supervisor itself *)

(** Every computation of these files keeps a property of the supervisor's own
    fields when the updates it makes do. *)
Section keeps.
Context `{WorkerTypes} {C W D : Type} `{World W} `{!WorkerCode W} `{!WorkerStore D} `{!Runners W} `{!Interference W}.
Context (I : Supervisor C → Prop).
Local Abbreviation keeps := (p_keeps (λ s : SupState C W D, I (sup s))).

Lemma keeps_liftW {A} (f : W → A * W) : keeps (liftW f).
Proof. intros s Hs. by apply pwp_liftW. Qed.
Lemma keeps_liftD {A} (f : St D A) : keeps (liftD f).
Proof. intros s Hs. by apply pwp_liftD. Qed.
Lemma keeps_liftPW {A} (f : P W A) : keeps (liftPW f).
Proof. intros s Hs. by apply pwp_liftPW. Qed.
Lemma keeps_sup_gets {A} (f : Supervisor C → A) : keeps (sup_gets f).
Proof. intros s Hs. done. Qed.
Lemma keeps_on_sup f : (∀ s, I s → I (f s)) → keeps (on_sup f).
Proof. intros Hf s Hs. by apply Hf. Qed.
Lemma keeps_with_child {A} c (m : P (C * (W * D)) A) : keeps (with_child c m).
Proof. intros s Hs. apply pwp_with_child. by intros [] ? ? ? _. Qed.
Lemma keeps_on_child {A} name (m : P (C * (W * D)) A) :
  (∀ c s, I s → I (set_registry (upd_children (insert name c)) s)) → keeps (on_child name m).
Proof.
  intros Hf s Hs. apply pwp_on_child. destruct (_ !! _) as [c|]; [|done].
  intros r c' w d _. destruct r; by apply Hf.
Qed.
End keeps.

(** Take a computation apart, one rule for each form. *)
Ltac keep :=
  repeat lazymatch goal with
  | |- p_keeps _ (_ ≫= _) => apply p_keeps_bind; [|intros ?]
  | |- p_keeps _ (mret _) => apply p_keeps_ret
  | |- p_keeps _ p_panic => apply p_keeps_panic
  | |- p_keeps _ (liftW _) => apply keeps_liftW
  | |- p_keeps _ (liftD _) => apply keeps_liftD
  | |- p_keeps _ (liftPW _) => apply keeps_liftPW
  | |- p_keeps _ (sup_gets _) => apply keeps_sup_gets
  | |- p_keeps _ (get_worker _) => apply keeps_sup_gets
  | |- p_keeps _ get_settings => apply keeps_sup_gets
  | |- p_keeps _ get_health => apply keeps_sup_gets
  | |- p_keeps _ (with_child _ _) => apply keeps_with_child
  | |- p_keeps _ (p_for _ _) => apply p_keeps_for; intros ?
  | |- p_keeps _ (recover_with _ _) => apply p_keeps_recover
  | |- p_keeps _ (match ?x with _ => _ end) => destruct x
  | |- p_keeps _ (let _ := _ in _) => cbv zeta
  end.

(** A computation that leaves alone whatever [I] is about: its updates all
    commute with [I]. *)
Section frame.
Context `{WorkerTypes} {C W D : Type} `{World W} `{!WorkerCode W} `{!WorkerStore D} `{!Runners W} `{!Interference W}.
Context `{JSON} `{!FSMManager.MapOrder W} `{!SupervisorInterface C W D}.
Context (I : Supervisor C → Prop).
Context (I_spec : ∀ f s, I s → I (set_spec f s)) (I_registry : ∀ f s, I s → I (set_registry f s)).
Context (I_caches : ∀ f s, I s → I (set_caches f s)) (I_running : ∀ f s, I s → I (set_running f s)).
Context (I_circuit : ∀ b s, I s → I (set_health (upd_circuit b) s)).
Context (I_panic : ∀ b s, I s → I (set_health (upd_panicCircuit b) s)).
Context (I_panics : ∀ l s, I s → I (set_health (upd_panics l) s)).
Context (I_reset : ∀ s, I s → I (set_health reset_restarts s)).
Local Abbreviation keeps := (p_keeps (λ s : SupState C W D, I (sup s))).

Local Ltac upd := apply keeps_on_sup; intros s0 Hs0; first
  [ done | by apply I_spec | by apply I_registry | by apply I_caches | by apply I_running | by apply I_circuit
  | by apply I_panic | by apply I_panics | by apply I_reset | case_match; [by apply I_running|done] ].
Local Ltac go := keep; try upd; try (apply keeps_on_child; intros; by apply I_registry).

Lemma frame_on_registry f : keeps (on_registry f).
Proof. unfold on_registry. go. Qed.
Lemma frame_on_worker id f : keeps (on_worker id f).
Proof. apply frame_on_registry. Qed.
Lemma frame_started_Load : keeps started_Load.
Proof. unfold started_Load. go. Qed.
Lemma frame_Since t : keeps (Since t).
Proof. unfold Since. go. Qed.
Hint Resolve frame_on_registry frame_on_worker frame_started_Load frame_Since : frame.
Local Ltac frame := repeat (first [solve [eauto with frame]|progress go]).

Lemma frame_stored ctx id : keeps (storedLifecycleFlags ctx id).
Proof. unfold storedLifecycleFlags. frame. Qed.
Lemma frame_edit ctx id e b t1 t2 t3 : keeps (edit_desired ctx id e b t1 t2 t3).
Proof. unfold edit_desired. frame. Qed.
Hint Resolve frame_stored frame_edit : frame.
Lemma frame_requestShutdown ctx id r : keeps (requestShutdown ctx id r).
Proof. unfold requestShutdown. frame. Qed.
Lemma frame_setDisabled ctx id b : keeps (setDisabled ctx id b).
Proof. unfold setDisabled. frame. Qed.
Lemma frame_clear ctx id : keeps (clearShutdownRequested ctx id).
Proof. unfold clearShutdownRequested. frame. Qed.
Lemma frame_load_flags ctx id : keeps (loadStoredLifecycleFlags ctx id).
Proof. unfold loadStoredLifecycleFlags. frame. Qed.
Lemma frame_save_derived ctx d id u : keeps (saveDerivedDesiredState ctx d id u).
Proof. unfold saveDerivedDesiredState. frame. Qed.
Lemma frame_derive w u : keeps (deriveDesiredStateCached w u).
Proof. unfold deriveDesiredStateCached. frame. Qed.
Lemma frame_fresh t : keeps (checkDataFreshness t).
Proof. unfold checkDataFreshness, Check, IsTimeout. frame. Qed.
Lemma frame_IsTimeout t : keeps (IsTimeout t).
Proof. unfold IsTimeout. frame. Qed.
Lemma frame_stopWorker ctx w : keeps (stopWorker ctx w).
Proof. unfold stopWorker. frame. Qed.
Hint Resolve frame_requestShutdown frame_setDisabled frame_clear frame_load_flags frame_save_derived frame_derive
  frame_fresh frame_IsTimeout frame_stopWorker : frame.
Lemma frame_RemoveWorkerForRestart ctx id : keeps (RemoveWorkerForRestart ctx id).
Proof. unfold RemoveWorkerForRestart. frame. Qed.
Lemma frame_getStartedContext : keeps getStartedContext.
Proof. unfold getStartedContext. frame. Qed.
Lemma frame_startWorker ctx w : keeps (startWorker ctx w).
Proof. unfold startWorker. frame. Qed.
Hint Resolve frame_RemoveWorkerForRestart frame_getStartedContext frame_startWorker : frame.
Lemma frame_startWorkerProcesses id : keeps (startWorkerProcesses id).
Proof. unfold startWorkerProcesses. frame. Qed.
Lemma frame_tombstone ctx id : keeps (tombstoneWorker ctx id).
Proof. unfold tombstoneWorker. frame. Qed.
Lemma frame_AddWorker i w : keeps (AddWorker i w).
Proof.
  unfold AddWorker, deriveInitialDesired, collectInitialObservation, saveIdentity, nextStartupCount, saveInitialState, newWorkerContext.
  frame.
Qed.
Hint Resolve frame_startWorkerProcesses frame_tombstone frame_AddWorker : frame.
Lemma frame_handleWorkerRestart ctx id : keeps (handleWorkerRestart ctx id).
Proof. unfold handleWorkerRestart, on_health. frame. Qed.
Lemma frame_retry : keeps retryPendingReAdds.
Proof. unfold retryPendingReAdds, range_keys. frame. Qed.
Lemma frame_checkRestartTimeouts : keeps checkRestartTimeouts.
Proof. unfold checkRestartTimeouts, force_reset, range_keys. frame. Qed.
Lemma frame_remove_worker ctx id : keeps (remove_worker ctx id).
Proof. unfold remove_worker, shutdown_child, range_keys. frame. Qed.
Hint Resolve frame_handleWorkerRestart frame_retry frame_checkRestartTimeouts frame_remove_worker : frame.
Lemma frame_processSignal ctx id sg : keeps (processSignal ctx id sg).
Proof. unfold processSignal. frame. Qed.
Hint Resolve frame_processSignal : frame.
Lemma frame_finish_step ctx id f t r : keeps (finish_step ctx id f t r).
Proof. unfold finish_step. frame. Qed.
Hint Resolve frame_finish_step : frame.
Lemma frame_step_worker ctx id sn : keeps (step_worker ctx id sn).
Proof. unfold step_worker. frame. Qed.
Hint Resolve frame_step_worker : frame.
Lemma frame_gated_step ctx id sn : keeps (gated_step ctx id sn).
Proof. unfold gated_step. frame. Qed.

Lemma frame_reconcileChildren specs : keeps (reconcileChildren specs).
Proof.
  unfold reconcileChildren, reconcile_spec, create_child, adopt_child, applyDisableMapping, apply_disabled, request_removal,
    reap_children, forget_child, range_keys.
  frame.
Qed.
Lemma frame_tick_children ctx : keeps (tick_children ctx).
Proof. unfold tick_children, tick_child, range_keys. frame. Qed.
Lemma frame_validate specs : keeps (validate_children specs).
Proof. unfold validate_children. frame. Qed.
Hint Resolve frame_gated_step frame_reconcileChildren frame_tick_children frame_validate : frame.
Lemma frame_tick_hierarchy ctx id d doc e : keeps (tick_hierarchy ctx id d doc e).
Proof. unfold tick_hierarchy, wanted_children. frame. Qed.
Hint Resolve frame_tick_hierarchy : frame.
Lemma frame_infra_gate : keeps infra_gate.
Proof. unfold infra_gate, CheckChildConsistency, range_keys, on_health. frame. Qed.
Lemma frame_panic_gate : keeps panic_gate.
Proof. unfold panic_gate, PanicCount, on_health. frame. Qed.
Lemma frame_recover_tick : keeps recover_tick.
Proof. unfold recover_tick, RecordPanic, PanicCount, on_health. frame. Qed.
Hint Resolve frame_infra_gate frame_panic_gate frame_recover_tick : frame.

(** Only the restart of a collector is left. *)
Context (I_restart : ∀ id, keeps (restartCollector id)).
Hint Resolve I_restart : frame.

Lemma frame_tickWorker ctx id : keeps (tickWorker ctx id).
Proof. unfold tickWorker, stale_observation, on_health. frame. Qed.
Hint Resolve frame_tickWorker : frame.
Lemma frame_tick ctx : keeps (tick ctx).
Proof. unfold tick, tick_body, tick_workers, tick_first, range_keys. frame. Qed.
End frame.

(** ** The restarts of the collector *)

(** Readings of the clock do not go back. *)
Class MonotoneClock (W : Type) `{World W} := clock_le : ∀ w, (clock w).1 <= (clock (clock w).2).1.

Section restarts.
Context `{WorkerTypes} {C W D : Type} `{World W} `{!WorkerCode W} `{!WorkerStore D} `{!Runners W} `{!Interference W}.
Context `{JSON} `{!FSMManager.MapOrder W} `{!SupervisorInterface C W D}.
Implicit Types (s : SupState C W D).

(** Invariant I1 of [supervisor.go]. *)
Definition restarts_ok (x : Supervisor C) : Prop :=
  0 <= restartCount (health x) <= maxRestartAttempts (settings x).

Lemma restartCollector_ok id : p_keeps (λ s : SupState C W D, restarts_ok (sup s)) (restartCollector id).
Proof.
  intros s Hs. unfold restartCollector.
  apply pwp_bind, pwp_sup_gets, pwp_bind, pwp_sup_gets. destruct (Z.leb_spec (maxRestartAttempts (settings (sup s))) (restartCount (health (sup s)))); [done|].
  apply pwp_bind, (pwp_mono _ (λ _ s', sup s' = sup s) _ (λ s', sup s' = sup s)); [| |by intros s' ->].
  { destruct (_ =? 0); [done|]. apply pwp_bind. unfold Since. by apply pwp_bind, pwp_liftW. }
  intros [] s' Es; [apply pwp_ret; by rewrite Es|]. apply pwp_bind, pwp_liftW. intros now w _.
  unfold restarts_ok in Hs. apply pwp_bind, pwp_on_sup. cbn [sup env db set_health health]. rewrite Es.
  apply pwp_bind, pwp_sup_gets.
  assert (Hk : ∀ A (m : P (SupState C W D) A), p_keeps (λ s, restarts_ok (sup s)) m →
    ∀ w d, pwp m (λ _ s, restarts_ok (sup s)) (λ s, restarts_ok (sup s))
      (mkState (set_health (upd_restarts (restartCount (health (sup s)) + 1) now) (sup s)) w d)).
  { intros A m Hm w0 d0. apply Hm. unfold restarts_ok. simpl. lia. }
  apply Hk. destruct (_ !! _); keep. by apply keeps_on_sup.
Qed.

Lemma tick_restarts_ok ctx : p_keeps (λ s : SupState C W D, restarts_ok (sup s)) (tick ctx).
Proof.
  apply frame_tick; try done; [|intros; apply restartCollector_ok].
  unfold restarts_ok. simpl. lia.
Qed.
End restarts.
