(* ===== verification/SupervisorLaws.v ===== *)
(** * SupervisorLaws: what the supervisors rely on, and a system that has it

    The laws of the types of the workers and of the store, over the desired
    states the store holds, and a small concrete system (workers, store, clock
    and goroutines) that satisfies them, on which the concrete runs are
    evaluated. *)

From S2P Require Import Prelude GoRuntime GoBytes StateMonad PanicMonad Documents WorkerConfig Supervisor SupervisorWorker SupervisorTree SupervisorFacts.
From S2P Require TriangularStore DocumentStore FSMManager.
Local Open Scope Z_scope.

(** ** Laws *)

(** The value of a flag in a document. *)
Definition doc_flag (field : string) (doc : Document) : bool := bool_decide (doc !! field = Some (VBool true)).

(** The flags of a desired state are the fields [ShutdownRequested] and
    [Disabled] of its JSON object, and the setters set them. *)
Class WorkerTypesLaws `{WorkerTypes} := {
  document_flags d doc : desired_document d = inr doc →
    doc_flag FieldShutdownRequested doc = IsShutdownRequested d ∧ doc_flag FieldDisabled doc = IsDisabled d;
  set_shutdown b d d' : SetShutdownRequested b d = Some d' → IsShutdownRequested d' = b ∧ IsDisabled d' = IsDisabled d;
  set_disabled b d d' : Supervisor.SetDisabled b d = Some d' → IsDisabled d' = b ∧ IsShutdownRequested d' = IsShutdownRequested d;
}.

(** [stored d] is the desired state of each worker, by type and id, as it would
    be loaded.  A save that fails stores nothing; one that succeeds stores a
    state with the flags of its document; nothing else changes a desired state. *)
Class WorkerStoreLaws (D : Type) `{WorkerStore D} := {
  stored : D → string → string → option Desired;
  stored_LoadSnapshot ctx wt id d : stored (LoadSnapshot ctx wt id d).2 = stored d;
  stored_LoadObserved ctx wt id d : stored (LoadObservedTyped ctx wt id d).2 = stored d;
  stored_LoadDesired ctx wt id d : stored (LoadDesiredTyped ctx wt id d).2 = stored d;
  stored_SaveIdentity ctx wt id doc d : stored (SaveIdentity ctx wt id doc d).2 = stored d;
  stored_SaveObserved ctx wt id doc d : stored (SaveObserved ctx wt id doc d).2 = stored d;
  stored_Tombstone ctx wt id by_ d : stored (Tombstone ctx wt id by_ d).2 = stored d;
  stored_ClearTombstone ctx wt id d : stored (ClearTombstone ctx wt id d).2 = stored d;
  loaded_state ctx wt id d x : (LoadDesiredTyped ctx wt id d).1 = inr x → stored d wt id = Some x;
  loaded_missing ctx wt id d err : (LoadDesiredTyped ctx wt id d).1 = inl err → IsErr err DocumentStore.ErrNotFound = true →
    stored d wt id = None;
  saved_failed ctx wt id doc d err : (SaveDesired ctx wt id doc d).1 = Some err → stored (SaveDesired ctx wt id doc d).2 = stored d;
  saved_other ctx wt id doc d wt' id' : (wt', id') ≠ (wt, id) →
    stored (SaveDesired ctx wt id doc d).2 wt' id' = stored d wt' id';
  saved_state ctx wt id doc d : (SaveDesired ctx wt id doc d).1 = None →
    ∃ x, stored (SaveDesired ctx wt id doc d).2 wt id = Some x ∧
         IsShutdownRequested x = doc_flag FieldShutdownRequested doc ∧ IsDisabled x = doc_flag FieldDisabled doc;
}.

(** ** A concrete system *)

Record DemoDesired := mkDemo { demo_shutdown : bool; demo_disabled : bool }.

(** A worker is the name of its initial state; an action its own name; an
    observation its time stamp. *)
#[export] Instance demo_types : WorkerTypes := {|
  Worker := string; State := string; Action := string; Desired := DemoDesired; Observed := Z;
  GetInitialState w := Some w;
  state_String st := st;
  state_LifecyclePhase st := if bool_decide (st = "stopped") then PhaseStopped else PhaseRunningHealthy;
  action_Name a := a;
  IsShutdownRequested := demo_shutdown;
  IsDisabled := demo_disabled;
  SetShutdownRequested b d := Some (mkDemo b (demo_disabled d));
  Supervisor.SetDisabled b d := Some (mkDemo (demo_shutdown d) b);
  GetChildrenSpecs _ := None;
  GetTimestamp o := o;
  SetCollectedAt t _ := Some t;
  StartupCount _ := None;
  SetFrameworkMetrics _ o := Some o;
  desired_document d := inr (<[FieldShutdownRequested := VBool (demo_shutdown d)]> {[FieldDisabled := VBool (demo_disabled d)]});
  observed_document _ := inr ∅;
|}.

(** The world: the time, what the executors were given, whether [Shutdown] was called. *)
Record DemoWorld := mkDemoWorld { demo_now : Z; demo_log : list string; demo_called : bool }.
#[export] Instance demo_world : World DemoWorld := {| clock w := (demo_now w, w); randw w := (0, w) |}.

Definition demo_log_add (x : string) (w : DemoWorld) : () * DemoWorld :=
  (tt, mkDemoWorld (demo_now w) (demo_log w ++ [x]) (demo_called w)).

#[export] Instance demo_runners : Runners DemoWorld := {|
  NewRunners _ w := (1, w);
  collector_Start _ _ w := (Some tt, (demo_log_add "start" w).2);
  collector_Stop _ _ w := demo_log_add "stop" w;
  collector_Restart _ w := (Some tt, (demo_log_add "restart" w).2);
  collector_TriggerNow _ w := (tt, w);
  collector_IsRunning _ w := (true, w);
  CollectFinalObservation _ _ w := (Some None, w);
  executor_Start _ _ w := (tt, w);
  executor_Shutdown _ w := (tt, w);
  HasActionInProgress _ _ w := (false, w);
  EnqueueAction _ name _ w := (None, (demo_log_add name w).2);
|}.
#[export] Instance demo_interference : Interference DemoWorld := {|
  shutdown_called w := (demo_called w, w); force_exit w := (false, w) |}.
#[export] Program Instance demo_order : FSMManager.MapOrder DemoWorld := {| FSMManager.map_order l w := (l, w) |}.
Next Obligation. done. Qed.
#[export] Instance demo_json : JSON := λ v, inr [].

(** Workers whose state machine is [next]; a specification with the text
    "broken" is a config error. *)
Definition demo_code (next : string → WorkerSnapshot → NextResult) : WorkerCode DemoWorld := {|
  Next st sn w := (Some (next st sn), w);
  DeriveDesiredState _ u w :=
    (Some match u with
          | Some u => if bool_decide (WorkerConfig.Config u = "broken") then inl (EConfig "config" None) else inr (mkDemo false false)
          | None => inr (mkDemo false false)
          end, w);
  CollectObservedState _ _ _ w := (Some (inr (demo_now w)), w);
  NewWorkerByType _ _ _ w := (Some (inr "start"), w);
  ListRegisteredTypes w := (["demo"], w);
  ListSupervisorTypes w := (["demo"], w);
|}.

Record DemoStore := mkDemoStore {
  demo_desired : gmap (string * string) DemoDesired; demo_observed : gmap (string * string) Z }.

Definition demo_load {A} (m : gmap (string * string) A) (wt id : string) : GoErr + A :=
  match m !! (wt, id) with Some x => inr x | None => inl DocumentStore.ErrNotFound end.

#[export] Instance demo_store : WorkerStore DemoStore := {|
  LoadSnapshot _ wt id d :=
    (inr (TriangularStore.mkSnapshot None None (if demo_observed d !! (wt, id) is Some _ then Some ∅ else None)), d);
  LoadObservedTyped _ wt id d := (demo_load (demo_observed d) wt id, d);
  LoadDesiredTyped _ wt id d := (demo_load (demo_desired d) wt id, d);
  SaveIdentity _ _ _ _ d := (None, d);
  SaveDesired _ wt id doc d :=
    (None, mkDemoStore (<[(wt, id) := mkDemo (doc_flag FieldShutdownRequested doc) (doc_flag FieldDisabled doc)]> (demo_desired d))
             (demo_observed d));
  SaveObserved _ wt id _ d := (None, mkDemoStore (demo_desired d) (<[(wt, id) := 1000 * Second]> (demo_observed d)));
  Tombstone _ _ _ _ d := (None, d);
  ClearTombstone _ _ _ d := (None, d);
|}.

#[export] Instance demo_types_laws : WorkerTypesLaws.
Proof.
  split.
  - intros d doc [= <-]. unfold doc_flag. by destruct d as [[] []].
  - by intros b d d' [= <-].
  - by intros b d d' [= <-].
Qed.

#[export] Program Instance demo_store_laws : WorkerStoreLaws DemoStore := {| stored d wt id := demo_desired d !! (wt, id) |}.
Solve Obligations with try done.
Next Obligation. intros ctx wt id d x. simpl. unfold demo_load. destruct (_ !! _); congruence. Qed.
Next Obligation. intros ctx wt id d err. simpl. unfold demo_load. destruct (_ !! _); congruence. Qed.
Next Obligation. intros ctx wt id doc d wt' id' Hne. simpl. by rewrite lookup_insert_ne by congruence. Qed.
Next Obligation. intros ctx wt id doc d _. simpl. eexists. rewrite lookup_insert_eq. by split. Qed.
#[export] Instance demo_clock : MonotoneClock DemoWorld.
Proof. intros w. simpl. lia. Qed.

(** A supervisor of one worker, "w", in "running". *)
Definition demo_config : Config := mkConfig "demo" 0 ∅ no_spec default_health.
Definition demo_worker (g : Gate) : WorkerContext :=
  mkWorkerContext (mkIdentity "w" "w" "demo" "w(demo)") "stopped" 1 (Some "running") "initial" PhaseUnknown "" g (mkStats 0 ∅ ∅ 0)
    None 0 0 1.
Definition demo_sup (ws : gmap string WorkerContext) (h : Health) : Supervisor Empty_set :=
  mkSupervisor (new_settings demo_config 0) (mkSpec no_spec ∅ "" ∅) (mkRegistry ws ∅ ∅ ∅ ∅ ∅) (mkCaches "" None ∅) h
    (mkRunning true false Background 0).
Definition demo_health : Health := mkHealth 0 0 false false [].
(** The observation of [at_], the desired state [d], at the time [now]. *)
Definition demo_data (at_ : Z) (d : DemoDesired) : DemoStore := mkDemoStore {[("demo", "w") := d]} {[("demo", "w") := at_]}.
Definition demo_state (ws : gmap string WorkerContext) (h : Health) (now at_ : Z) (d : DemoDesired)
    : SupState Empty_set DemoWorld DemoStore := mkState (demo_sup ws h) (mkDemoWorld now [] false) (demo_data at_ d).
Definition demo_next (st : string) (sn : WorkerSnapshot) : NextResult := mkNext (Some st) (Some "act") "" None SignalNone.

(** ** A parent and its child *)

Definition demo_spec (name cfg : string) : ChildSpec := mkChildSpec name "demo" (mkUserSpec cfg no_variables) ∅ true.
(** The parent has the worker "p", its child "c" the worker "w". *)
Definition demo_parent (h : Health) (ws : gmap string WorkerContext) (now : Z) (d : DemoDesired)
    : SupState (Supervisor Empty_set) DemoWorld DemoStore :=
  mkState (mkSupervisor (new_settings demo_config 0) (mkSpec no_spec ∅ "" ∅)
             (mkRegistry {["p" := demo_worker open_gate]} {["c" := demo_sup ws h]} ∅ ∅ ∅ ∅) (mkCaches "" None ∅) demo_health
             (mkRunning true false Background 0)) (mkDemoWorld now [] false) (demo_data (1 * Second) d).
