(* ===== verification/SupervisorSafety.v ===== *)
(** * SupervisorSafety: what a supervisor guarantees its workers

    The theorems about the tick of a worker: the state machine is asked only on
    fresh data, an action is followed by an observation, the collector is
    restarted within bounds and then given up, and the lifecycle flags survive
    every derivation. *)

From S2P Require Import Prelude GoRuntime GoBytes StateMonad PanicMonad Documents WorkerConfig Supervisor SupervisorWorker SupervisorTree SupervisorFacts SupervisorLaws.
From S2P Require S6Status TriangularStore DocumentStore FSMManager.
Local Open Scope Z_scope.

(** ** The trust boundary *)

Section gates.
Context `{WorkerTypes} {C W D : Type} `{World W} `{!MonotoneClock W} `{!WorkerStore D} `{!Interference W}.
Context `{!FSMManager.MapOrder W} `{!SupervisorInterface C W D}.
Context (code : WorkerCode W) (run : Runners W).

(** The same workers with another state machine, the same executors doing
    something else with an action. *)
Definition other_next (next : State → WorkerSnapshot → P W NextResult) : WorkerCode W := {|
  Next := next; DeriveDesiredState := @DeriveDesiredState _ _ code; CollectObservedState := @CollectObservedState _ _ code;
  NewWorkerByType := @NewWorkerByType _ _ code; ListRegisteredTypes := @ListRegisteredTypes _ _ code;
  ListSupervisorTypes := @ListSupervisorTypes _ _ code |}.
Definition other_enqueue (enqueue : Z → string → Action → W → option GoErr * W) : Runners W := {|
  NewRunners := @NewRunners _ _ run; collector_Start := @collector_Start _ _ run; collector_Stop := @collector_Stop _ _ run;
  collector_Restart := @collector_Restart _ _ run; collector_TriggerNow := @collector_TriggerNow _ _ run;
  collector_IsRunning := @collector_IsRunning _ _ run; CollectFinalObservation := @CollectFinalObservation _ _ run;
  executor_Start := @executor_Start _ _ run; executor_Shutdown := @executor_Shutdown _ _ run;
  HasActionInProgress := @HasActionInProgress _ _ run; EnqueueAction := enqueue |}.
Local Abbreviation tick' c r := (@tickWorker _ C W D _ c _ r _ _ _).

Implicit Types (s : SupState C W D).

(** What the tick loads, one after the other. *)
Definition loads (ctx : Ctx) (wt id : string) (d : D) (sn : TriangularStore.Snapshot) (o : Observed) (x : Desired) (d' : D) : Prop :=
  ∃ d1 d2, LoadSnapshot ctx wt id d = (inr sn, d1) ∧ LoadObservedTyped ctx wt id d1 = (inr o, d2) ∧
           LoadDesiredTyped ctx wt id d2 = (inr x, d').

Lemma IsTimeout_eq t s :
  IsTimeout t s = (Some (timeout (settings (sup s)) <=? S6Status.time_Sub (clock (env s)).1 t),
                   mkState (sup s) (clock (env s)).2 (db s)).
Proof. cbv [IsTimeout get_settings sup_gets p_gets Since liftW mbind P_bind mret P_ret]. by destruct (clock (env s)). Qed.
Lemma Check_eq t s :
  Check t s = (Some (S6Status.time_Sub (clock (env s)).1 t <? staleThreshold (settings (sup s))),
               mkState (sup s) (clock (env s)).2 (db s)).
Proof. cbv [Check get_settings sup_gets p_gets Since liftW mbind P_bind mret P_ret]. by destruct (clock (env s)). Qed.

Lemma stale_not_fresh t s :
  staleThreshold (settings (sup s)) <= S6Status.time_Sub (clock (env s)).1 t →
  ∃ w, checkDataFreshness t s = (Some false, mkState (sup s) w (db s)).
Proof.
  intros Ht. unfold checkDataFreshness, mbind, P_bind. rewrite IsTimeout_eq.
  destruct (_ <=? _); [by eexists|]. rewrite Check_eq. cbn [sup env]. eexists. f_equal. f_equal. apply Z.ltb_ge.
  pose proof (clock_le (env s)) as Hc. unfold S6Status.time_Sub in *. lia.
Qed.

(** A tick that reaches the decision about the freshness. *)
Lemma tickWorker_loaded (c : WorkerCode W) (r : Runners W) ctx id s w sn o x d' doc :
  workers (registry (sup s)) !! id = Some w →
  loads ctx (workerType (settings (sup s))) id (db s) sn o x d' → TriangularStore.Observed sn = Some doc →
  @tickWorker _ C W D _ c _ r _ _ _ ctx id s =
    (fresh ← (if IsShutdownRequested x then mret true else checkDataFreshness (GetTimestamp o));
     if negb fresh then @stale_observation _ C W D _ _ r ctx id (GetTimestamp o)
     else _ ← on_health reset_restarts; @gated_step _ C W D _ c _ r _ _ _ ctx id (snapshot_of id w sn o x))
    (mkState (set_registry (upd_workers (alter (wc_observed (GetTimestamp o)) id)) (sup s)) (env s) d').
Proof.
  intros Hw (d1 & d2 & E1 & E2 & E3) Ho.
  unfold tickWorker, get_worker, get_settings, sup_gets, p_gets, mbind at 1 2 3, P_bind at 1 2 3. rewrite Hw. cbn [sup].
  unfold liftD at 1. rewrite E1. cbn [sup env db]. rewrite bool_decide_false by (by rewrite Ho).
  unfold mbind at 1, P_bind at 1, liftD at 1. cbn [sup env db]. rewrite E2.
  unfold mbind at 1, P_bind at 1, liftD at 1. cbn [sup env db]. by rewrite E3.
Qed.

(** A tick that does not get there does the same for any workers and executors. *)
Lemma tickWorker_loads ctx id s w :
  workers (registry (sup s)) !! id = Some w →
  (∃ sn o x d' doc, loads ctx (workerType (settings (sup s))) id (db s) sn o x d' ∧ TriangularStore.Observed sn = Some doc) ∨
  ∃ res d', ∀ (c : WorkerCode W) (r : Runners W),
    @tickWorker _ C W D _ c _ r _ _ _ ctx id s = (res, mkState (sup s) (env s) d').
Proof.
  intros Hw. unfold tickWorker, get_worker, get_settings, sup_gets, p_gets, liftD, loads.
  cbv [mbind P_bind mret P_ret]. rewrite Hw. cbn [sup env db].
  destruct (LoadSnapshot _ _ _ _) as [[e|sn] d1] eqn:E1; [right; by eexists _, _|].
  case_bool_decide as Ho; [right; by eexists _, _|].
  destruct (TriangularStore.Observed sn) as [doc|] eqn:Ed; [|done]. cbn [sup env db].
  destruct (LoadObservedTyped _ _ _ _) as [[e|o] d2] eqn:E2; [right; by eexists _, _|]. cbn [sup env db].
  destruct (LoadDesiredTyped _ _ _ _) as [[e|x] d3] eqn:E3; [right; by eexists _, _|].
  left. exists sn, o, x, d3, doc. split; [|done]. by exists d1, d2.
Qed.

(** The state and the gate of a worker are as they were. *)
Definition unmoved (id : string) (w : WorkerContext) (x : Supervisor C) : Prop :=
  ∃ w', workers (registry x) !! id = Some w' ∧ currentState w' = currentState w ∧ gate w' = gate w.

Lemma unmoved_alter id w id' f x :
  (∀ v, currentState (f v) = currentState v ∧ gate (f v) = gate v) → unmoved id w x →
  unmoved id w (set_registry (upd_workers (alter f id')) x).
Proof.
  intros Hf (v & Hv & Hs & Hg). unfold unmoved. cbn [registry set_registry workers upd_workers].
  destruct (decide (id' = id)) as [->|Hne].
  - exists (f v). rewrite lookup_alter_eq, Hv. destruct (Hf v) as [-> ->]. by split.
  - exists v. by rewrite lookup_alter_ne.
Qed.

Lemma stale_unmoved ctx id t w id' :
  p_keeps (λ s : SupState C W D, unmoved id' w (sup s)) (@stale_observation _ C W D _ _ run ctx id t).
Proof.
  unfold stale_observation, IsTimeout, Since, requestShutdown, edit_desired, restartCollector, Since, on_health.
  keep; apply keeps_on_sup; intros s0 Hs0; [done|]. by apply unmoved_alter.
Qed.

(** C10: The trust boundary (I3).  When the observation a tick loads is older than
    the threshold and no shutdown is requested, the tick does not depend on the
    state machine of the worker nor on what an executor does with an action:
    neither is asked.  The worker stays in its state. *)
Theorem next_needs_fresh_data ctx id s w sn o x d' doc next enqueue :
  workers (registry (sup s)) !! id = Some w →
  loads ctx (workerType (settings (sup s))) id (db s) sn o x d' → TriangularStore.Observed sn = Some doc →
  IsShutdownRequested x = false →
  staleThreshold (settings (sup s)) <= S6Status.time_Sub (clock (env s)).1 (GetTimestamp o) →
  tick' (other_next next) (other_enqueue enqueue) ctx id s = tick' code run ctx id s ∧
  unmoved id w (sup (tick' code run ctx id s).2).
Proof.
  intros Hw Hl Ho Hx Ht. rewrite !(tickWorker_loaded _ _ _ _ _ _ _ _ _ _ _ Hw Hl Ho), Hx.
  set (s1 := mkState _ _ _). destruct (stale_not_fresh (GetTimestamp o) s1 Ht) as [w1 Ef].
  unfold mbind, P_bind. rewrite Ef. split; [reflexivity|]. cbn [negb].
  assert (Hs : unmoved id w (sup (mkState (sup s1) w1 (db s1)))).
  { apply unmoved_alter; [|by exists w]. intros v. unfold wc_observed. destruct (currentState v) eqn:E; by rewrite <- E. }
  pose proof (stale_unmoved ctx id (GetTimestamp o) w id _ Hs) as Hk. unfold pwp in Hk.
  by destruct (stale_observation _ _ _ _) as [[] ].
Qed.
End gates.

(** ** Actions and observations *)

Section gating.
Context `{WorkerTypes} {C W D : Type} `{World W} `{!WorkerStore D} `{!Interference W}.
Context `{!FSMManager.MapOrder W} `{!SupervisorInterface C W D}.
Context (code : WorkerCode W) (run : Runners W).
Implicit Types (s : SupState C W D).
Local Abbreviation tick' c r := (@tickWorker _ C W D _ c _ r _ _ _).

Fixpoint tick_many (c : WorkerCode W) (r : Runners W) (id : string) (ctxs : list Ctx) : P (SupState C W D) (list (option GoErr)) :=
  match ctxs with
  | [] => mret []
  | ctx :: ctxs => e ← tick' c r ctx id; es ← tick_many c r id ctxs; mret (e :: es)
  end.

(** The worker waits, since an action on the observation of [t], in [st]. *)
Definition waiting (wt id : string) (st : option State) (t : Time) (x : Supervisor C) : Prop :=
  workerType (settings x) = wt ∧
  ∃ w, workers (registry x) !! id = Some w ∧ currentState w = st ∧ actionPending (gate w) = true ∧ lastActionObsTime (gate w) = t.

Lemma waiting_alter wt id st t id' f x :
  (∀ v, currentState (f v) = currentState v ∧ actionPending (gate (f v)) = actionPending (gate v) ∧
        lastActionObsTime (gate (f v)) = lastActionObsTime (gate v)) →
  waiting wt id st t x → waiting wt id st t (set_registry (upd_workers (alter f id')) x).
Proof.
  intros Hf (Hwt & v & Hv & Hs & Hp & Ht). split; [done|]. cbn [registry set_registry workers upd_workers].
  destruct (decide (id' = id)) as [->|Hne].
  - exists (f v). rewrite lookup_alter_eq, Hv. by destruct (Hf v) as (-> & -> & ->).
  - exists v. by rewrite lookup_alter_ne.
Qed.

Context (wt id : string) (st : option State) (t : Time).
Context (next : State → WorkerSnapshot → P W NextResult) (enqueue : Z → string → Action → W → option GoErr * W).
Local Abbreviation I := (λ s : SupState C W D, waiting wt id st t (sup s)).
Local Abbreviation code' := (other_next code next).
Local Abbreviation run' := (other_enqueue run enqueue).

Lemma waiting_stale ctx o : p_keeps I (@stale_observation _ C W D _ _ run ctx id o).
Proof.
  unfold stale_observation, IsTimeout, Since, requestShutdown, edit_desired, restartCollector, Since, on_health.
  keep; apply keeps_on_sup; intros s0 Hs0; [done|]. by apply waiting_alter.
Qed.

Lemma waiting_gate ctx sn :
  GetTimestamp (snap_Observed sn) <= t → IsShutdownRequested (snap_Desired sn) = false →
  p_agree I (λ _, True) (@gated_step _ C W D _ code _ run _ _ _ ctx id sn) (@gated_step _ C W D _ code' _ run' _ _ _ ctx id sn).
Proof.
  intros Ho Hx. unfold gated_step.
  eapply (p_agree_bind _ _ _ _ _ (λ w, ∃ v, w = Some v ∧ actionPending (gate v) = true ∧ lastActionObsTime (gate v) = t)).
  { apply p_agree_refl. intros s (Hwt & v & Hv & Hs & Hp & Ht). split; [by exists v|]. split; [done|]. by exists v. }
  intros w (v & -> & Hp & Ht). rewrite Hp, Hx, Ht. cbn [negb andb]. rewrite (proj2 (Z.ltb_ge _ _)) by done.
  apply p_agree_keeps. keep. apply keeps_on_sup. intros s0 Hs0. by apply waiting_alter.
Qed.

(** The next tick loads no newer observation, and no request to shut down. *)
Definition no_news (ctx : Ctx) (d : D) : Prop :=
  ∀ sn o x d', loads ctx wt id d sn o x d' → GetTimestamp o <= t ∧ IsShutdownRequested x = false.
Fixpoint quiet (ctxs : list Ctx) (s : SupState C W D) : Prop :=
  match ctxs with
  | [] => True
  | ctx :: ctxs => no_news ctx (db s) ∧ quiet ctxs (tick' code run ctx id s).2
  end.

Lemma waiting_tick ctx s :
  waiting wt id st t (sup s) → no_news ctx (db s) →
  tick' code run ctx id s = tick' code' run' ctx id s ∧ waiting wt id st t (sup (tick' code run ctx id s).2).
Proof.
  intros Hs Hd. pose proof Hs as (Hwt & w & Hw & _).
  destruct (tickWorker_loads ctx id s w Hw) as [(sn & o & x & d' & doc & Hl & Ho)|(r & d' & E)]; [|by rewrite !E].
  rewrite !(tickWorker_loaded _ _ _ _ _ _ _ _ _ _ _ Hw Hl Ho).
  destruct (Hd sn o x d') as [Hto Hx]; [by rewrite <- Hwt|]. rewrite Hx. set (s1 := mkState _ _ _).
  assert (Hs1 : waiting wt id st t (sup s1)).
  { apply waiting_alter; [|done]. intros v. unfold wc_observed. destruct (currentState v) eqn:E; by rewrite <- E. }
  eapply (p_agree_elim I _ _ (λ _, True)); [|exact Hs1]. clear s1 Hs1.
  eapply (p_agree_bind _ _ _ _ _ (λ _, True)).
  { apply p_agree_keeps. unfold checkDataFreshness, IsTimeout, Check, Since. keep. }
  intros [] _; cbn [negb].
  - eapply (p_agree_bind _ _ _ _ _ (λ _, True)); [apply p_agree_keeps; by apply keeps_on_sup|]. intros _ _. by apply waiting_gate.
  - apply p_agree_keeps, waiting_stale.
Qed.

(** C11: Actions wait for an observation.  After an action on an observation,
    and as long as no newer one is loaded and no shutdown is requested, the
    ticks of the worker, however many, do not depend on its state machine nor on
    what an executor does with an action: no second action is enqueued.  The
    worker stays in its state and goes on waiting for an observation newer than
    the one it acted on. *)
Theorem actions_wait_for_observation ctxs s :
  waiting wt id st t (sup s) → quiet ctxs s →
  tick_many code run id ctxs s = tick_many code' run' id ctxs s ∧ waiting wt id st t (sup (tick_many code run id ctxs s).2).
Proof.
  revert s. induction ctxs as [|ctx ctxs IH]; intros s Hs Hq; [done|]. destruct Hq as [Hd Hq].
  destruct (waiting_tick ctx s Hs Hd) as [E Hw]. simpl. unfold mbind, P_bind, mret, P_ret. rewrite <- E.
  destruct (tick' code run ctx id s) as [[e|] s1]; [|done]. destruct (IH s1 Hw Hq) as [E' Hw']. rewrite <- E'.
  by destruct (tick_many code run id ctxs s1) as [[] ?].
Qed.
End gating.

(** ** On the concrete system *)

Lemma next_needs_fresh_data_witness :
  let s := demo_state {["w" := demo_worker open_gate]} demo_health (11 * Second) (1 * Second) (mkDemo false false) in
  let wild := λ _ _, p_panic in
  let refuse := λ _ _ _ w, (Some (ENew "refused"), w) in
  @tickWorker _ Empty_set _ _ _ (other_next (demo_code demo_next) wild) _ (other_enqueue demo_runners refuse) _ _ _ Background "w" s =
  @tickWorker _ Empty_set _ _ _ (demo_code demo_next) _ demo_runners _ _ _ Background "w" s ∧
  unmoved "w" (demo_worker open_gate) (sup (@tickWorker _ Empty_set _ _ _ (demo_code demo_next) _ demo_runners _ _ _ Background "w" s).2).
Proof.
  intros s wild refuse.
  eapply (next_needs_fresh_data (demo_code demo_next) demo_runners Background "w" s (demo_worker open_gate)
            (TriangularStore.mkSnapshot None None (Some ∅)) (1 * Second) (mkDemo false false) (db s) ∅ wild refuse);
    [reflexivity| |reflexivity..|by vm_compute].
  exists (db s), (db s). by split_and!.
Defined.

Lemma actions_wait_for_observation_witness :
  let g := mkGate true (1 * Second) 0 in
  let s := demo_state {["w" := demo_worker g]} demo_health (5 * Second) (1 * Second) (mkDemo false false) in
  let wild := λ _ _, p_panic in
  let refuse := λ _ _ _ w, (Some (ENew "refused"), w) in
  let ctxs := [Background; Background] in
  tick_many (C := Empty_set) (demo_code demo_next) demo_runners "w" ctxs s =
  tick_many (C := Empty_set) (other_next (demo_code demo_next) wild) (other_enqueue demo_runners refuse) "w" ctxs s ∧
  waiting "demo" "w" (Some "running") (1 * Second)
    (sup (tick_many (C := Empty_set) (demo_code demo_next) demo_runners "w" ctxs s).2).
Proof.
  intros g s wild refuse ctxs. apply actions_wait_for_observation.
  - split; [reflexivity|]. exists (demo_worker g). by split_and!.
  - split; [|split; [|done]]; intros sn o x d' (d1 & d2 & E1 & E2 & E3); vm_compute in E1, E2, E3; simplify_eq; by vm_compute.
Defined.
