(* ===== verification/SupervisorFlags.v ===== *)
(** * SupervisorFlags: the lifecycle flags, and a collector given up

    The flags [ShutdownRequested] and [Disabled] of a stored desired state
    survive the derivations of that state, whoever sets them in between; and a
    collector that stays unresponsive is restarted a bounded number of times,
    after which the worker is asked to shut down. *)

From S2P Require Import Prelude GoRuntime GoBytes StateMonad PanicMonad Documents WorkerConfig Supervisor SupervisorWorker SupervisorTree SupervisorFacts SupervisorLaws SupervisorSafety.
From S2P Require S6Status TriangularStore DocumentStore FSMManager.
Local Open Scope Z_scope.

(** ** The flags *)

Lemma doc_flag_insert field field' b doc :
  doc_flag field (<[field' := VBool b]> doc) = if decide (field' = field) then b else doc_flag field doc.
Proof.
  unfold doc_flag. destruct (decide (field' = field)) as [->|Hne].
  - rewrite lookup_insert_eq. by destruct b.
  - by rewrite lookup_insert_ne.
Qed.

Lemma doc_flag_other field field' v doc : field' ≠ field → doc_flag field (<[field' := v]> doc) = doc_flag field doc.
Proof. intros Hne. unfold doc_flag. by rewrite lookup_insert_ne. Qed.

(** The flags of the store end up in the document, next to its own. *)
Lemma doc_flag_flags flags doc :
  doc_flag FieldShutdownRequested (flags_document flags doc) = flags.1 || doc_flag FieldShutdownRequested doc ∧
  doc_flag FieldDisabled (flags_document flags doc) = flags.2 || doc_flag FieldDisabled doc.
Proof. destruct flags as [[] []]; unfold flags_document; simpl; by rewrite ?doc_flag_insert. Qed.

Lemma doc_flag_user_spec field u doc :
  field ≠ "originalUserSpec" → doc_flag field (with_user_spec u doc) = doc_flag field doc.
Proof. intros Hne. unfold with_user_spec. case_match; [|done]. by rewrite doc_flag_other. Qed.

Section flags.
Context `{WorkerTypes, !WorkerTypesLaws} {C W D : Type} `{World W} `{!WorkerStore D, !WorkerStoreLaws D}.
Context (wt id : string).
Implicit Types (s : SupState C W D) (f : bool * bool).

(** The worker's stored state has at least the flags [f]. *)
Definition flagged f (d : D) : Prop :=
  ∃ x, stored d wt id = Some x ∧ (f.1 → IsShutdownRequested x) ∧ (f.2 → IsDisabled x).
Definition others_stored (d d' : D) : Prop := ∀ wt' id', (wt', id') ≠ (wt, id) → stored d' wt' id' = stored d wt' id'.

(** The invariant of an operation on the worker's desired state, started from [d0]. *)
Definition flags_kept f (d0 : D) s : Prop := workerType (settings (sup s)) = wt ∧ flagged f (db s) ∧ others_stored d0 (db s).

Lemma save_flagged ctx doc f d0 x w d :
  flags_kept f d0 (mkState x w d) → (f.1 → doc_flag FieldShutdownRequested doc) → (f.2 → doc_flag FieldDisabled doc) →
  flags_kept f d0 (mkState x w (SaveDesired ctx wt id doc d).2).
Proof.
  intros (Hwt & Hd & Ho) Hs Hdis. split; [done|]. cbn [db] in *. split.
  - unfold flagged. destruct (SaveDesired ctx wt id doc d).1 as [err|] eqn:E.
    + by rewrite (saved_failed _ _ _ _ _ _ E).
    + destruct (saved_state _ _ _ _ _ E) as (y & Hy & E1 & E2). exists y. by rewrite E1, E2.
  - intros wt' id' Hne. rewrite saved_other by done. by apply Ho.
Qed.

Lemma load_flagged ctx f d0 x w d : flags_kept f d0 (mkState x w d) → flags_kept f d0 (mkState x w (LoadDesiredTyped ctx wt id d).2).
Proof. unfold flags_kept, flagged, others_stored. cbn [db sup]. by rewrite stored_LoadDesired. Qed.

(** What a loaded state says is what is stored. *)
Lemma loaded_flagged ctx f d y : flagged f d → (LoadDesiredTyped ctx wt id d).1 = inr y →
  (f.1 → IsShutdownRequested y) ∧ (f.2 → IsDisabled y).
Proof. intros (x & Hx & Hf) E. apply loaded_state in E. by simplify_eq. Qed.

Lemma stored_flags_kept f d0 ctx s :
  flags_kept f d0 s →
  pwp (storedLifecycleFlags ctx id)
    (λ r s', flags_kept f d0 s' ∧ ∀ flags, r = inr flags → (f.1 → flags.1) ∧ (f.2 → flags.2)) (flags_kept f d0) s.
Proof.
  intros Hs. pose proof Hs as (Hwt & Hf & _). unfold storedLifecycleFlags. apply pwp_bind, pwp_sup_gets, pwp_bind, pwp_liftD.
  rewrite Hwt. intros r d E. assert (d = (LoadDesiredTyped ctx wt id (db s)).2) as -> by (by rewrite E).
  apply pwp_ret. split; [apply load_flagged; by destruct s|]. intros flags Er. destruct r as [err|y].
  - destruct Hf as (x & Hx & _). destruct (IsErr err _) eqn:Ee; [|done].
    assert (stored (db s) wt id = None); [|congruence]. eapply (loaded_missing ctx); [|exact Ee]. by rewrite E.
  - simplify_eq. eapply loaded_flagged; [done|]. by rewrite E.
Qed.

Lemma toDocument_flags what (y : Desired) id' doc :
  toDocument what (desired_document y) id' = inr doc →
  doc_flag FieldShutdownRequested doc = IsShutdownRequested y ∧ doc_flag FieldDisabled doc = IsDisabled y.
Proof.
  unfold toDocument. destruct (desired_document y) as [|doc0] eqn:E; [done|]. intros [= <-].
  rewrite !doc_flag_other by done. by apply document_flags.
Qed.

Lemma derive_flags_kept f d0 ctx y u s :
  flags_kept f d0 s →
  pwp (saveDerivedDesiredState ctx y id u) (λ _, flags_kept f d0) (flags_kept f d0) s.
Proof.
  intros Hs. unfold saveDerivedDesiredState. destruct (toDocument _ _ _) as [|doc]; [done|]. cbv zeta.
  apply pwp_bind. eapply pwp_mono; [by apply stored_flags_kept| |done].
  intros [err|flags] s' [Hs' Hfl]; [done|]. specialize (Hfl _ eq_refl) as [H1' H2'].
  apply pwp_bind, pwp_sup_gets, pwp_bind, pwp_liftD. destruct Hs' as (Hwt & Hs'). rewrite Hwt. intros e d E.
  apply pwp_ret. replace d with (SaveDesired ctx wt id (flags_document flags (with_user_spec u doc)) (db s')).2 by (by rewrite E).
  destruct (doc_flag_flags flags (with_user_spec u doc)) as [Ea Eb].
  apply save_flagged; [by destruct s'|..]; rewrite ?Ea, ?Eb, orb_True; auto.
Qed.

(** The three setters, when the edit keeps the flags. *)
Lemma edit_flags_kept f d0 ctx edit ok t1 t2 t3 s :
  (∀ y y', edit y = Some y' → (f.1 → IsShutdownRequested y → IsShutdownRequested y') ∧ (f.2 → IsDisabled y → IsDisabled y')) →
  flags_kept f d0 s → pwp (edit_desired ctx id edit ok t1 t2 t3) (λ _, flags_kept f d0) (flags_kept f d0) s.
Proof.
  intros Hedit Hs. pose proof Hs as (Hwt & Hf & _). unfold edit_desired. apply pwp_bind, pwp_sup_gets, pwp_bind, pwp_liftD. rewrite Hwt.
  intros r d E. assert (d = (LoadDesiredTyped ctx wt id (db s)).2) as -> by (by rewrite E).
  assert (Hs' : flags_kept f d0 (mkState (sup s) (env s) (LoadDesiredTyped ctx wt id (db s)).2)) by (apply load_flagged; by destruct s).
  destruct r as [err|y]; [by destruct (_ && _)|].
  destruct (loaded_flagged ctx f (db s) y Hf) as [Ey1 Ey2]; [by rewrite E|].
  destruct (edit y) as [y'|] eqn:Ey; [|done]. destruct (Hedit _ _ Ey) as [Hy1 Hy2].
  destruct (toDocument _ _ _) as [|doc] eqn:Ed; [done|]. apply toDocument_flags in Ed as [Ed1 Ed2].
  apply pwp_bind, pwp_liftD. intros e d Es. apply pwp_ret. cbn [db sup env] in *.
  replace d with (SaveDesired ctx wt id doc (LoadDesiredTyped ctx wt id (db s)).2).2 by (by rewrite Es).
  apply save_flagged; [done|..]; rewrite ?Ed1, ?Ed2; naive_solver.
Qed.

(** Who writes the desired state of a running worker: its tick, and its parent. *)
Inductive FlagOp := OpDerive (desired : Desired) (u : UserSpec) | OpShutdown (reason : string) | OpDisable (disabled : bool).
Definition flag_op (ctx : Ctx) (op : FlagOp) : P (SupState C W D) () :=
  match op with
  | OpDerive desired u => _ ← saveDerivedDesiredState ctx desired id u; mret tt
  | OpShutdown reason => _ ← requestShutdown ctx id reason; mret tt
  | OpDisable disabled => _ ← setDisabled ctx id disabled; mret tt
  end.

Lemma flag_op_kept f d0 ctx op s :
  (f.2 → op ≠ OpDisable false) → flags_kept f d0 s → pwp (flag_op ctx op) (λ _, flags_kept f d0) (flags_kept f d0) s.
Proof.
  intros Hop Hs. destruct op as [y u|reason|b]; simpl; apply pwp_bind.
  - by apply derive_flags_kept.
  - unfold requestShutdown. apply pwp_bind, pwp_sup_gets. case_match; [|done]. apply edit_flags_kept; [|done].
    intros y y' E. apply set_shutdown in E as [-> ->]. by split.
  - unfold setDisabled. apply pwp_bind, pwp_sup_gets. case_match; [|done]. apply edit_flags_kept; [|done].
    intros y y' E. apply set_disabled in E as [-> ->]. split; [done|]. destruct b; naive_solver.
Qed.

(** C13: The lifecycle flags survive.  Whatever states the worker derives, with
    the requests of its parent in between, in any order and whatever the store
    answers, a stored request to shut down stays stored, and a disabled worker
    stays disabled unless it is enabled.  No other worker's state changes. *)
Theorem lifecycle_flags_survive ctx ops f s :
  workerType (settings (sup s)) = wt → flagged f (db s) → (f.2 → OpDisable false ∉ ops) →
  let d' := db (p_for (flag_op ctx) ops s).2 in flagged f d' ∧ others_stored (db s) d'.
Proof.
  intros Hwt Hf Hops. assert (Hs : flags_kept f (db s) s) by (by split_and!).
  assert (Hw : pwp (p_for (flag_op ctx) ops) (λ _, flags_kept f (db s)) (flags_kept f (db s)) s).
  { apply pwp_for; [|done]. intros op s' Hin Hs'. apply flag_op_kept; [|done]. intros Hf2 ->. by apply Hops. }
  unfold pwp in Hw. simpl. destruct (p_for _ _ _) as [[] s']; by destruct Hw as (_ & Hw1 & Hw2).
Qed.
End flags.

Lemma lifecycle_flags_survive_witness :
  let s := demo_state {["w" := demo_worker open_gate]} demo_health (5 * Second) (1 * Second) (mkDemo true true) in
  let ops := [OpDerive (mkDemo false false) (mkUserSpec "x" no_variables); OpDisable true; OpShutdown "again"] in
  let d' := db (p_for (flag_op (C := Empty_set) "w" Background) ops s).2 in
  flagged "demo" "w" (true, true) d' ∧ others_stored "demo" "w" (db s) d'.
Proof.
  intros s ops. apply lifecycle_flags_survive; [reflexivity| |].
  - exists (mkDemo true true). by split_and!.
  - intros _ Hin. unfold ops in Hin. rewrite !elem_of_cons in Hin. by destruct Hin as [|[|[|?%elem_of_nil]]].
Defined.
