(* ===== verification/SupervisorGiveUp.v ===== *)
(** * SupervisorGiveUp: a collector that stays unresponsive

    A worker whose observation stays older than the timeout: its collector is
    restarted as often as the settings allow, spaced by the backoff, and then
    the worker is asked to shut down. *)

From S2P Require Import Prelude GoRuntime GoBytes StateMonad PanicMonad Documents WorkerConfig Supervisor SupervisorWorker SupervisorTree SupervisorFacts SupervisorLaws SupervisorSafety SupervisorFlags.
From S2P Require S6Status TriangularStore DocumentStore FSMManager.
Local Open Scope Z_scope.

Definition unresponsive : GoErr := ENew "collector unresponsive, shutdown requested".

Section stalled.
Context `{WorkerTypes} {C W D : Type} `{World W} `{!MonotoneClock W} `{!WorkerStore D} `{!Interference W}.
Context `{!FSMManager.MapOrder W} `{!SupervisorInterface C W D} `{!WorkerCode W} `{!Runners W}.
Context (id : string).
Implicit Types (s : SupState C W D).

(** Between two ticks the time passes: the tick starts in the world [w]. *)
Definition tick_at (ctx : Ctx) (w : W) : P (SupState C W D) (option GoErr) := λ s,
  tickWorker ctx id (mkState (sup s) w (db s)).
Fixpoint run_ticks (ticks : list (Ctx * W)) : P (SupState C W D) (list (option GoErr)) :=
  match ticks with
  | [] => mret []
  | (ctx, w) :: ticks => e ← tick_at ctx w; es ← run_ticks ticks; mret (e :: es)
  end.

(** The observation the tick will load is older than the timeout, no shutdown
    is requested, and the backoff since the last restart is over. *)
Definition stalled (ctx : Ctx) (w : W) s : Prop :=
  (lastRestart (health (sup s)) = 0 ∨
   lastRestart (health (sup s)) + restart_backoff (restartCount (health (sup s))) <= (clock w).1) ∧
  ∃ sn o x d' doc, loads ctx (workerType (settings (sup s))) id (db s) sn o x d' ∧ TriangularStore.Observed sn = Some doc ∧
    IsShutdownRequested x = false ∧ timeout (settings (sup s)) <= (clock w).1 - GetTimestamp o.
Fixpoint all_stalled (ticks : list (Ctx * W)) s : Prop :=
  match ticks with
  | [] => True
  | (ctx, w) :: ticks => stalled ctx w s ∧ all_stalled ticks (tick_at ctx w s).2
  end.

Lemma Since_eq t s : Since t s = (Some (S6Status.time_Sub (clock (env s)).1 t), mkState (sup s) (clock (env s)).2 (db s)).
Proof. cbv [Since liftW mbind P_bind mret P_ret]. by destruct (clock (env s)). Qed.

(** No duration of the settings overflows. *)
Definition settings_fit (x : Settings) : Prop := timeout x < 2 ^ 63 ∧ restart_backoff (maxRestartAttempts x) < 2 ^ 63.

Lemma timed_out x now t : settings_fit x → timeout x <= now - t → (timeout x <=? S6Status.time_Sub now t) = true.
Proof. intros [Hx _] Ht. apply Z.leb_le. unfold S6Status.time_Sub. lia. Qed.

(** A tick of a stalled worker ends as a restart of its collector does. *)
Lemma stalled_tick ctx w s v :
  settings_fit (settings (sup s)) → workers (registry (sup s)) !! id = Some v → stalled ctx w s →
  ∃ w' d' at_ t, (clock w).1 <= (clock w').1 ∧ timeout (settings (sup s)) <= (clock w').1 - t ∧
    (∃ sn o x, loads ctx (workerType (settings (sup s))) id (db s) sn o x d') ∧
    tick_at ctx w s = stale_observation ctx id t
      (mkState (set_registry (upd_workers (alter (wc_observed at_) id)) (sup s)) w' d').
Proof.
  intros Hfit Hv (Hb & sn & o & x & d' & doc & Hl & Ho & Hx & Ht).
  unfold tick_at. rewrite (tickWorker_loaded _ _ _ _ (mkState (sup s) w (db s)) v sn o x d' doc) by done. rewrite Hx. cbn [sup env db].
  unfold checkDataFreshness, mbind, P_bind. rewrite IsTimeout_eq. cbn [sup env db set_registry settings].
  rewrite timed_out by done. cbn [negb].
  exists (clock w).2, d', (GetTimestamp o), (GetTimestamp o).
  pose proof (clock_le w). split_and!; [done|lia|by eexists _, _, _|done].
Qed.

Lemma restarted s v :
  settings_fit (settings (sup s)) → workers (registry (sup s)) !! id = Some v →
  (∀ r w, (collector_Restart r w).1 = Some tt) →
  0 <= restartCount (health (sup s)) < maxRestartAttempts (settings (sup s)) →
  lastRestart (health (sup s)) = 0 ∨ lastRestart (health (sup s)) + restart_backoff (restartCount (health (sup s))) <= (clock (env s)).1 →
  ∃ s', restartCollector id s = (Some None, s') ∧ settings (sup s') = settings (sup s) ∧ db s' = db s ∧
    restartCount (health (sup s')) = restartCount (health (sup s)) + 1 ∧ (clock (env s)).1 <= lastRestart (health (sup s')) ∧
    workers (registry (sup s')) !! id = Some (wc_restarted v).
Proof.
  intros [_ Hfit] Hv Hr Hc Hb. unfold restartCollector, get_settings, get_health, sup_gets, p_gets, mbind, P_bind.
  rewrite (proj2 (Z.leb_gt _ _)) by lia.
  assert (Hw : ∃ w, (clock (env s)).1 <= (clock w).1 ∧
    (if lastRestart (health (sup s)) =? 0 then mret false
     else elapsed ← Since (lastRestart (health (sup s))); mret (elapsed <? restart_backoff (restartCount (health (sup s))))) s =
    (Some false, mkState (sup s) w (db s))).
  { destruct (Z.eqb_spec (lastRestart (health (sup s))) 0); [exists (env s); by destruct s|].
    unfold mbind, P_bind. rewrite Since_eq. exists (clock (env s)).2. split; [apply clock_le|].
    unfold mret, P_ret. do 2 f_equal. apply Z.ltb_ge. unfold S6Status.time_Sub, restart_backoff, Second, Millisecond in *. lia. }
  destruct Hw as (w & Hw & E). unfold mbind, P_bind in E. rewrite E. unfold liftW. cbn [sup env db].
  destruct (clock w) as [now w1] eqn:Ec. unfold on_health, on_sup, p_modify, get_worker, sup_gets, p_gets. cbn [sup env db].
  cbn [set_health registry]. rewrite Hv. unfold on_worker, on_registry, on_sup, p_modify, liftPW. cbn [sup env db].
  destruct (collector_Restart (runners v) w1) as [r w2] eqn:Er. assert (r = Some tt) as -> by (rewrite <- (Hr (runners v) w1); by rewrite Er).
  eexists. split; [reflexivity|]. cbn. by rewrite lookup_alter_eq, Hv.
Qed.

Lemma stale_restarts ctx t s v :
  settings_fit (settings (sup s)) → workers (registry (sup s)) !! id = Some v →
  (∀ r w, (collector_Restart r w).1 = Some tt) → timeout (settings (sup s)) <= (clock (env s)).1 - t →
  0 <= restartCount (health (sup s)) < maxRestartAttempts (settings (sup s)) →
  lastRestart (health (sup s)) = 0 ∨ lastRestart (health (sup s)) + restart_backoff (restartCount (health (sup s))) <= (clock (env s)).1 →
  ∃ s', stale_observation ctx id t s = (Some None, s') ∧ settings (sup s') = settings (sup s) ∧ db s' = db s ∧
    restartCount (health (sup s')) = restartCount (health (sup s)) + 1 ∧ (clock (env s)).1 <= lastRestart (health (sup s')) ∧
    workers (registry (sup s')) !! id = Some (wc_restarted v).
Proof.
  intros Hfit Hv Hr Ht Hc Hb. unfold stale_observation, mbind, P_bind. rewrite IsTimeout_eq. cbn [sup].
  rewrite timed_out by done. unfold get_settings, get_health, sup_gets, p_gets. cbn [sup]. rewrite (proj2 (Z.leb_gt _ _)) by lia.
  pose proof (clock_le (env s)).
  destruct (restarted (mkState (sup s) (clock (env s)).2 (db s)) v) as (s' & E & Hs & Hd & Hn & Hl & Hv'); cbn [sup env db] in *;
    [done..|destruct Hb; [by left|right; lia]|].
  rewrite E. exists s'. split_and!; try done. lia.
Qed.

(** The store answers, and the desired states can be asked to shut down. *)
Record reliable `{!WorkerStoreLaws D} : Prop := {
  reliable_load ctx wt d y : stored d wt id = Some y → (LoadDesiredTyped ctx wt id d).1 = inr y;
  reliable_save ctx wt doc d : (SaveDesired ctx wt id doc d).1 = None;
  reliable_set y : is_Some (SetShutdownRequested true y);
  reliable_document y : ∃ doc, desired_document y = inr doc;
}.

Lemma shutdown_stored `{!WorkerTypesLaws, !WorkerStoreLaws D} ctx reason s v y :
  reliable → workers (registry (sup s)) !! id = Some v → stored (db s) (workerType (settings (sup s))) id = Some y →
  ∃ d, requestShutdown ctx id reason s = (Some None, mkState (sup s) (env s) d) ∧
       flagged (workerType (settings (sup s))) id (true, false) d.
Proof.
  intros Hrel Hv Hy. unfold requestShutdown, edit_desired, get_worker, get_settings, sup_gets, p_gets, liftD, mbind, P_bind.
  rewrite Hv. pose proof (reliable_load Hrel ctx _ _ _ Hy) as El.
  destruct (LoadDesiredTyped ctx _ id (db s)) as [r d1]. cbn [fst] in El. subst r.
  destruct (reliable_set Hrel y) as [y' Ey]. rewrite Ey. apply set_shutdown in Ey as [Ey _].
  destruct (reliable_document Hrel y') as [doc Ed]. unfold toDocument. rewrite Ed. apply document_flags in Ed as [Ed _].
  cbn [sup env db]. set (doc' := <[_ := _]> doc). pose proof (reliable_save Hrel ctx (workerType (settings (sup s))) doc' d1) as Es.
  destruct (saved_state _ _ _ _ _ Es) as (z & Hz & Ez & _). destruct (SaveDesired _ _ _ _ _) as [e d2]. cbn [fst snd] in *. subst e.
  exists d2. split; [reflexivity|]. exists z. rewrite Ez. unfold doc'. rewrite doc_flag_other by done. rewrite Ed, Ey. by split_and!.
Qed.

Lemma loads_stored `{!WorkerStoreLaws D} ctx wt d sn o x d' : loads ctx wt id d sn o x d' → stored d' wt id = Some x.
Proof.
  intros (d1 & d2 & _ & _ & E). pose proof (loaded_state ctx wt id d2 x) as Hx.
  pose proof (stored_LoadDesired ctx wt id d2) as Hd. rewrite E in Hx, Hd. simpl in *. rewrite Hd. by apply Hx.
Qed.

(** C12: A collector that stays unresponsive is given up.  When every tick of a
    worker loads an observation older than the timeout, at least the backoff
    after the last restart, each tick restarts the collector and returns no
    error until the number of restarts the settings allow is reached; the next
    tick restarts nothing, returns an error and has stored the request to shut
    the worker down. *)
Theorem collector_is_given_up `{!WorkerTypesLaws, !WorkerStoreLaws D} ticks s v :
  settings_fit (settings (sup s)) → restarts_ok (sup s) → reliable → (∀ r w, (collector_Restart r w).1 = Some tt) →
  workers (registry (sup s)) !! id = Some v → all_stalled ticks s →
  let left := Z.to_nat (maxRestartAttempts (settings (sup s)) - restartCount (health (sup s))) in
  length ticks = S left →
  ∃ s' v', run_ticks ticks s = (Some (replicate left None ++ [Some unresponsive]), s') ∧
    restartCount (health (sup s')) = maxRestartAttempts (settings (sup s)) ∧
    workers (registry (sup s')) !! id = Some v' ∧ collectorRestarts v' = collectorRestarts v + Z.of_nat left ∧
    flagged (workerType (settings (sup s))) id (true, false) (db s').
Proof.
  revert s v. induction ticks as [|[ctx w] ticks IH]; intros s v Hfit Hok Hrel Hr Hv Hst left Hlen; [done|].
  destruct Hst as [Hs Hst]. destruct (stalled_tick ctx w s v Hfit Hv Hs) as (w' & d' & at_ & t & Hw & Ht & (sn & o & x & Hl) & E).
  cbn [run_ticks]. unfold mbind, P_bind. rewrite E in *. set (s1 := mkState _ w' d') in *.
  assert (Hv1 : workers (registry (sup s1)) !! id = Some (wc_observed at_ v)) by (cbn; by rewrite lookup_alter_eq, Hv).
  destruct Hs as [Hb _]. unfold restarts_ok in Hok.
  destruct (decide (restartCount (health (sup s)) < maxRestartAttempts (settings (sup s)))) as [Hlt|Hge].
  - destruct (stale_restarts ctx t s1 _ Hfit Hv1 Hr Ht) as (s2 & E2 & Hset & Hdb & Hcount & Hlast & Hv2);
      [by split; [apply Hok|]|destruct Hb; [by left|right; cbn in *; lia]|].
    rewrite E2 in *. cbn [snd] in Hst. assert (Hleft : left = S (Z.to_nat (maxRestartAttempts (settings (sup s2)) - restartCount (health (sup s2))))).
    { unfold left. rewrite Hset, Hcount. cbn. lia. }
    destruct (IH s2 (wc_restarted (wc_observed at_ v))) as (s' & v' & E' & Hc' & Hv' & Hr' & Hf'); try done.
    { by rewrite Hset. } { unfold restarts_ok. rewrite Hset, Hcount. cbn. lia. } { simpl in Hlen. lia. }
    rewrite E'. exists s', v'. rewrite Hleft. rewrite Hset in *. split_and!; try done. rewrite Hr'.
    unfold wc_observed. destruct (currentState v); cbn; lia.
  - destruct ticks; [|simpl in Hlen; lia]. destruct left eqn:El; [|lia].
    unfold stale_observation, mbind, P_bind. rewrite IsTimeout_eq, timed_out by done.
    unfold get_settings, get_health, sup_gets, p_gets. cbn [sup]. rewrite (proj2 (Z.leb_le _ _)) by (cbn; lia).
    destruct (shutdown_stored ctx "collector unresponsive" (mkState (sup s1) (clock (env s1)).2 (db s1)) _ x Hrel Hv1) as (d & E2 & Hf).
    { eapply loads_stored. exact Hl. }
    rewrite E2. eexists _, _. split; [reflexivity|]. cbn. split_and!; [cbn; lia|exact Hv1| |exact Hf].
    unfold wc_observed. destruct (currentState v); cbn; lia.
Qed.
End stalled.

Lemma demo_reliable : reliable (D := DemoStore) "w".
Proof.
  split; [|done|by eexists|by eexists].
  intros ctx wt d y Hy. simpl in *. unfold demo_load. by rewrite Hy.
Qed.

(** Ticks at 30, 40, 50 and 60 seconds, on an observation of the first second. *)
Lemma collector_is_given_up_witness :
  let s := demo_state {["w" := demo_worker open_gate]} demo_health (5 * Second) (1 * Second) (mkDemo false false) in
  let ticks := (λ n, (Background, mkDemoWorld (n * 10 * Second) [] false)) <$> [3; 4; 5; 6] in
  ∃ s' v', @run_ticks _ Empty_set _ _ _ _ _ _ _ (demo_code demo_next) _ "w" ticks s = (Some [None; None; None; Some unresponsive], s') ∧
    restartCount (health (sup s')) = 3 ∧ workers (registry (sup s')) !! "w" = Some v' ∧ collectorRestarts v' = 3 ∧
    flagged "demo" "w" (true, false) (db s').
Proof.
  intros s ticks.
  refine (@collector_is_given_up _ Empty_set _ _ _ _ _ _ _ _ (demo_code demo_next) _ "w" _ _ ticks s (demo_worker open_gate)
            _ _ demo_reliable (λ _ _, eq_refl) eq_refl _ eq_refl).
  - by split.
  - by split.
  - assert (Hst : ∀ w s, (lastRestart (health (sup s)) = 0 ∨
        lastRestart (health (sup s)) + restart_backoff (restartCount (health (sup s))) <= demo_now w) →
      db s = demo_data (1 * Second) (mkDemo false false) → workerType (settings (sup s)) = "demo" →
      timeout (settings (sup s)) <= demo_now w - 1 * Second → @stalled _ Empty_set _ _ _ _ "w" Background w s).
    { intros w s0 Hb Hd Hwt Ht. split; [done|]. rewrite Hd, Hwt.
      eexists (TriangularStore.mkSnapshot None None (Some ∅)), (1 * Second), (mkDemo false false), _, ∅.
      split_and!; [by eexists _, _|done..]. }
    unfold ticks. do 4 (split; [apply Hst; [vm_compute; first [by left|by right]|by vm_compute..]|]). done.
Defined.
