(* ===== verification/SupervisorChildren.v ===== *)
(** * SupervisorChildren: what a supervisor does to its children

    The theorems about the tree: after a reconciliation the children are those
    of the specifications and those still shutting down, and a child with an
    open circuit stops its parent for good. *)

From S2P Require Import Prelude GoRuntime GoBytes StateMonad PanicMonad Documents WorkerConfig Supervisor SupervisorWorker SupervisorTree SupervisorFacts SupervisorLaws.
From S2P Require S6Status TriangularStore DocumentStore FSMManager.
Local Open Scope Z_scope.

(** ** An open circuit *)

Section frozen.
Context `{WorkerTypes} {C W D : Type} `{World W} `{!WorkerCode W} `{!WorkerStore D} `{!Runners W} `{!Interference W}.
Context `{JSON} `{!FSMManager.MapOrder W} `{!SupervisorInterface C W D}.
Implicit Types (s : SupState C W D).

(** A running supervisor with the children [cs], on the store [d]. *)
Definition holding (cs : gmap string C) (d : D) s : Prop :=
  children (registry (sup s)) = cs ∧ started (running (sup s)) = true ∧ db s = d.

Lemma holding_liftW {A} cs d (f : W → A * W) : p_total (holding cs d) (liftW f).
Proof. intros s Hs. by apply pwp_liftW. Qed.
Lemma holding_on_sup cs d f :
  (∀ x : Supervisor C, children (registry (f x)) = children (registry x) ∧ started (running (f x)) = started (running x)) →
  p_total (holding cs d) (on_sup f).
Proof. intros Hf s (Hc & Hr & Hd). apply pwp_on_sup. destruct (Hf (sup s)) as [E1 E2]. unfold holding. cbn. by rewrite E1, E2. Qed.

Local Ltac hold := repeat first
  [ apply p_total_bind; [|intros ?] | apply p_total_for; intros ? | apply p_total_ret | apply p_total_gets
  | apply holding_liftW | apply holding_on_sup; by intros [] | case_match ].

Lemma holding_restart_timeouts cs d : p_total (holding cs d) checkRestartTimeouts.
Proof.
  unfold checkRestartTimeouts, force_reset, range_keys, Since, get_worker, sup_gets, on_worker, on_registry. hold.
Qed.
Lemma holding_panic_gate cs d : p_total (holding cs d) panic_gate.
Proof. unfold panic_gate, PanicCount, get_health, sup_gets, on_health. hold. Qed.

Lemma first_open_some (cs : gmap string C) order name c :
  name ∈ order → cs !! name = Some c → child_isCircuitOpen c = true → is_Some (first_open cs order).
Proof.
  intros Hin Hc Ho. induction order as [|x order IH]; [by apply elem_of_nil in Hin|]. simpl.
  apply elem_of_cons in Hin as [->|Hin]; [by rewrite Hc, Ho|]. destruct (cs !! x); [case_match; [by eexists|]|]; by apply IH.
Qed.

Definition circuit_error (e : option GoErr) : Prop := e = Some ErrPanicCircuitOpen ∨ e = Some ErrInfraCircuitOpen.

Lemma gate_closed cs d name c s :
  (∀ w, (shutdown_called w).1 = false) → cs !! name = Some c → child_isCircuitOpen c = true →
  holding cs d s → pwp infra_gate (λ b s', b = true ∧ holding cs d s') (λ _, False) s.
Proof.
  intros Hsd Hc Ho Hs. unfold infra_gate, started_Load, CheckChildConsistency, range_keys, on_health.
  apply pwp_bind, pwp_bind, pwp_liftW. intros b w E. assert (b = false) as -> by (by rewrite <- (Hsd (env s)), E).
  apply pwp_bind, pwp_on_sup, pwp_sup_gets. destruct Hs as (Hcs & Hst & Hd). cbn [sup]. unfold id. rewrite Hst. cbn [negb].
  apply pwp_bind, pwp_bind, pwp_sup_gets, pwp_bind, pwp_liftW. intros order w' Eo. apply pwp_ret. cbn [sup]. rewrite Hcs.
  destruct (first_open_some cs order name c) as [x ->]; [|done..|].
  { assert (order = (FSMManager.map_order (map_to_list cs).*1 w).1) as ->
      by (cbn [env sup] in Eo; rewrite Hcs in Eo; by rewrite Eo).
    rewrite FSMManager.map_order_perm. apply list_elem_of_fmap. exists (name, c). split; [done|]. by apply elem_of_map_to_list. }
  by apply pwp_bind, pwp_on_sup, pwp_ret.
Qed.

Lemma frozen_tick cs d name c ctx s :
  (∀ w, (shutdown_called w).1 = false) → cs !! name = Some c → child_isCircuitOpen c = true →
  holding cs d s → pwp (tick ctx) (λ e s', circuit_error e ∧ holding cs d s') (λ _, False) s.
Proof.
  intros Hsd Hc Ho Hs. unfold tick. apply pwp_recover.
  assert (Hb : pwp (tick_body ctx) (λ e s', circuit_error e ∧ holding cs d s') (λ _, False) s); [|by eapply pwp_mono; [exact Hb|..]].
  unfold tick_body. apply pwp_bind. eapply pwp_mono; [by apply holding_panic_gate| |done].
  intros [] s1 Hs1; [split; [by left|done]|]. apply pwp_bind, pwp_on_sup, pwp_bind.
  eapply pwp_mono; [by apply holding_restart_timeouts| |done]. intros u s2 Hs2. apply pwp_bind.
  eapply pwp_mono; [exact (gate_closed _ _ _ _ _ Hsd Hc Ho Hs2)| |done]. intros b s3 [-> Hs3]. split; [by right|done].
Qed.

Fixpoint tick_times (ctxs : list Ctx) : P (SupState C W D) (list (option GoErr)) :=
  match ctxs with
  | [] => mret []
  | ctx :: ctxs => e ← tick ctx; es ← tick_times ctxs; mret (e :: es)
  end.

(** C15: An open circuit below stops everything above, for good.  As long as
    nobody shuts a supervisor down, one whose child has an open circuit returns
    a circuit error from every tick: it ticks neither its worker nor any child
    and stores nothing.  A child closes its circuit only in a tick of its own,
    so that none of these ticks closes it. *)
Theorem open_child_freezes_the_parent ctxs s name c :
  (∀ w, (shutdown_called w).1 = false) → started (running (sup s)) = true →
  children (registry (sup s)) !! name = Some c → child_isCircuitOpen c = true →
  ∃ es s', tick_times ctxs s = (Some es, s') ∧ length es = length ctxs ∧ Forall circuit_error es ∧
    children (registry (sup s')) = children (registry (sup s)) ∧ db s' = db s.
Proof.
  intros Hsd Hst Hc Ho.
  assert (Hall : ∀ s', holding (children (registry (sup s))) (db s) s' →
    pwp (tick_times ctxs) (λ es s'', (length es = length ctxs ∧ Forall circuit_error es) ∧
      holding (children (registry (sup s))) (db s) s'') (λ _, False) s').
  { induction ctxs as [|ctx ctxs IH]; intros s' Hs'; [by split_and!|]. simpl. apply pwp_bind.
    eapply pwp_mono; [by eapply frozen_tick| |done]. intros e s1 [He Hs1]. apply pwp_bind.
    eapply pwp_mono; [by apply IH| |done]. intros es s2 [[Hl Hes] Hs2]. apply pwp_ret.
    split_and!; [simpl; by rewrite Hl|by constructor|apply Hs2..]. }
  specialize (Hall s). unfold pwp in Hall. destruct (tick_times ctxs s) as [[es|] s']; [|by destruct Hall].
  destruct Hall as [[Hl Hes] (Hcs & _ & Hd)]; [done|]. by exists es, s'.
Qed.
End frozen.

(** Nobody calls [Shutdown]. *)
#[local] Instance undisturbed : Interference DemoWorld := {| shutdown_called w := (false, w); force_exit w := (false, w) |}.
#[local] Instance demo_workers : WorkerCode DemoWorld := demo_code demo_next.

Lemma open_child_freezes_the_parent_witness :
  let s := demo_parent (mkHealth 0 0 false true [1; 2; 3]) {["w" := demo_worker open_gate]} (5 * Second) (mkDemo false false) in
  ∃ es s', tick_times [Background; Background] s = (Some es, s') ∧ length es = 2%nat ∧ Forall circuit_error es ∧
    children (registry (sup s')) = children (registry (sup s)) ∧ db s' = db s.
Proof.
  intros s. by apply (open_child_freezes_the_parent [Background; Background] s "c"
    (demo_sup {["w" := demo_worker open_gate]} (mkHealth 0 0 false true [1; 2; 3]))).
Defined.
