(* ===== verification/SupervisorReconcile.v ===== *)
(** * SupervisorReconcile: the children and their specifications

    What a reconciliation of the children leaves: the children of the
    specifications, and those removed from them that still have workers, which
    are exactly the ones pending removal. *)

From S2P Require Import Prelude GoRuntime GoBytes StateMonad PanicMonad Documents WorkerConfig Supervisor SupervisorWorker SupervisorTree SupervisorFacts SupervisorLaws.
From S2P Require S6Status TriangularStore DocumentStore FSMManager.
Local Open Scope Z_scope.

Section reconcile.
Context `{WorkerTypes} {C W D : Type} `{World W} `{!WorkerCode W} `{!WorkerStore D} `{!Runners W} `{!Interference W}.
Context `{JSON} `{!FSMManager.MapOrder W} `{!SupervisorInterface C W D}.
Implicit Types (s : SupState C W D) (p lo hi dm : gset string).

Definition child_names (x : Supervisor C) : gset string := dom (children (registry x)).
Definition pending (x : Supervisor C) : gset string := pendingRemoval (registry x).

(** The names pending removal, and bounds for those of the children. *)
Definition between p lo hi (x : Supervisor C) : Prop := pending x = p ∧ lo ⊆ child_names x ∧ child_names x ⊆ hi.
Local Abbreviation keeps I := (p_keeps (λ s : SupState C W D, I (sup s))).

Lemma keeps_on_known {A} (I : Supervisor C → Prop) name (m : P (C * (W * D)) A) :
  (∀ c x, is_Some (children (registry x) !! name) → I x → I (set_registry (upd_children (insert name c)) x)) →
  keeps I (on_child name m).
Proof.
  intros Hf s Hs. apply pwp_on_child. destruct (_ !! _) as [c|] eqn:E; [|done].
  intros r c' w d _. destruct r; apply Hf; eauto.
Qed.

Lemma between_known p lo hi {A} name (m : P (C * (W * D)) A) : keeps (between p lo hi) (on_child name m).
Proof.
  apply keeps_on_known. intros c x Hx (Hp & Hlo & Hhi). unfold between, child_names. cbn. rewrite dom_insert_lookup_L by done. done.
Qed.
Lemma between_on_sup p lo hi f :
  (∀ x : Supervisor C, pending (f x) = pending x ∧ child_names (f x) = child_names x) → keeps (between p lo hi) (on_sup f).
Proof. intros Hf. apply keeps_on_sup. intros x Hx. unfold between. by destruct (Hf x) as [-> ->]. Qed.

Local Ltac between := keep; try (apply between_known); try (apply between_on_sup; intros x; first [done|by case_match]).

Lemma between_create p lo hi cs : spec_Name cs ∈ hi → keeps (between p lo hi) (create_child cs).
Proof.
  intros Hn. unfold create_child, adopt_child, range_keys, getStartedContext, started_Load, on_registry. between.
  apply keeps_on_sup. intros x (Hp & Hlo & Hhi). unfold between, child_names. cbn. rewrite dom_insert_L. set_solver.
Qed.

Lemma between_disabled p lo hi ctx specs : keeps (between p lo hi) (applyDisableMapping ctx specs).
Proof. unfold applyDisableMapping, apply_disabled. between. Qed.

Definition names (specs : list ChildSpec) : gset string := list_to_set (spec_Name <$> specs).

Lemma spec_step p lo hi cs s :
  p ⊆ lo → spec_Name cs ∈ hi → between p lo hi (sup s) →
  pwp (reconcile_spec cs) (λ _ s', between (p ∖ {[spec_Name cs]}) lo hi (sup s')) (λ _, True) s.
Proof.
  intros Hp Hn Hs. unfold reconcile_spec. apply pwp_bind, pwp_sup_gets. destruct (_ !! _) as [c|] eqn:E.
  - apply pwp_bind, pwp_sup_gets, pwp_bind, pwp_on_sup, pwp_on_sup. destruct Hs as (Hpe & Hlo & Hhi).
    unfold between, pending, child_names in *. cbn. rewrite dom_alter_L, Hpe. done.
  - eapply pwp_mono; [by eapply between_create| |done]. intros u' s' Hs'. replace (p ∖ {[spec_Name cs]}) with p; [done|].
    apply not_elem_of_dom in E. destruct Hs as (_ & Hlo & _). unfold child_names in Hlo. set_solver.
Qed.

Lemma specs_loop p lo hi specs s :
  p ⊆ lo → names specs ⊆ hi → between p lo hi (sup s) →
  pwp (p_for reconcile_spec specs) (λ _ s', between (p ∖ names specs) lo hi (sup s')) (λ _, True) s.
Proof.
  revert p s. induction specs as [|cs specs IH]; intros p s Hp Hn Hs; simpl.
  { apply pwp_ret. by replace (p ∖ names []) with p by set_solver. }
  apply pwp_bind. eapply pwp_mono; [apply (spec_step p lo hi); set_solver| |done].
  intros u s' Hs'. eapply pwp_mono; [apply (IH (p ∖ {[spec_Name cs]})); [set_solver..|exact Hs']| |done].
  intros u' s'' Hs''. by replace (p ∖ names (cs :: specs)) with (p ∖ {[spec_Name cs]} ∖ names specs) by set_solver.
Qed.

(** Ask the children that are not in the specifications to shut down. *)
Lemma removal_loop p dm l order s :
  between p dm dm (sup s) →
  pwp (p_for (request_removal l) order) (λ _ s', between (p ∪ (list_to_set order ∖ list_to_set l)) dm dm (sup s')) (λ _, True) s.
Proof.
  revert p s. induction order as [|n order IH]; intros p s Hs; simpl.
  { apply pwp_ret. by replace (p ∪ _) with p by set_solver. }
  apply pwp_bind. eapply (pwp_mono _ (λ _ s', between (p ∪ ({[n]} ∖ list_to_set l)) dm dm (sup s'))); [| |done].
  - unfold request_removal. apply pwp_bind, pwp_sup_gets. destruct (decide (n ∈ l)) as [Hin|Hnin].
    { rewrite bool_decide_true by done. apply pwp_ret. by replace (p ∪ _) with p by set_solver. }
    rewrite bool_decide_false by done. replace (p ∪ ({[n]} ∖ list_to_set l)) with ({[n]} ∪ p) by set_solver.
    pose proof Hs as (Hp & Hd). unfold pending in Hp. rewrite Hp. simpl. case_bool_decide.
    { apply pwp_ret. by replace ({[n]} ∪ p) with p by set_solver. }
    apply pwp_bind, pwp_on_sup, pwp_bind. eapply pwp_mono; [apply (between_known ({[n]} ∪ p) dm dm)|done|done].
    unfold between, pending. cbn. by rewrite Hp.
  - intros u s' Hs'. eapply pwp_mono; [apply IH; exact Hs'| |done]. intros u' s'' Hs''.
    by replace (p ∪ ({[n]} ∪ list_to_set order) ∖ list_to_set l) with
      (p ∪ {[n]} ∖ list_to_set l ∪ list_to_set order ∖ list_to_set l) by set_solver.
Qed.

(** ** Reaping *)

Lemma collect_reaped_spec (cs : gmap string C) order name :
  name ∈ collect_reaped cs order ↔ name ∈ order ∧ ∃ c, cs !! name = Some c ∧ child_ListWorkers c = [].
Proof.
  induction order as [|n order IH]; simpl; [set_solver|].
  destruct (cs !! n) as [c|] eqn:E; [case_bool_decide|]; rewrite ?elem_of_cons, IH; naive_solver.
Qed.

Lemma forget_loop l s :
  pwp (p_for forget_child l) (λ _ s', pending (sup s') = pending (sup s) ∖ list_to_set l ∧
    ∀ n, children (registry (sup s')) !! n = if decide (n ∈ l) then None else children (registry (sup s)) !! n) (λ _, True) s.
Proof.
  revert s. induction l as [|x l IH]; intros s; simpl; [apply pwp_ret; split; [set_solver|done]|].
  apply pwp_bind, pwp_on_sup. eapply pwp_mono; [apply IH| |done]. intros u' s' [Hp Hc]. split.
  - rewrite Hp. unfold pending. cbn. set_solver.
  - intros n. rewrite Hc. cbn. destruct (decide (n ∈ l)), (decide (n ∈ x :: l)) as [Hin|Hnin]; try done; [set_solver|..].
    + apply elem_of_cons in Hin as [->|]; [by rewrite lookup_delete_eq|done].
    + rewrite lookup_delete_ne by set_solver. done.
Qed.

Lemma reap_post s :
  pending (sup s) ⊆ child_names (sup s) →
  pwp reap_children (λ _ s', let cs' := children (registry (sup s')) in
    pending (sup s') = pending (sup s) ∩ dom cs' ∧ child_names (sup s) ∖ pending (sup s) ⊆ dom cs' ∧ dom cs' ⊆ child_names (sup s) ∧
    ∀ n c, cs' !! n = Some c → n ∈ pending (sup s) → child_ListWorkers c ≠ []) (λ _, True) s.
Proof.
  intros Hp. unfold reap_children, range_keys. apply pwp_bind, pwp_sup_gets, pwp_bind, pwp_liftW. intros order w Eo.
  assert (Hord : ∀ n, n ∈ order ↔ n ∈ pending (sup s)).
  { intros n. assert (order = (FSMManager.map_order (elements (pending (sup s))) (env s)).1) as -> by (unfold pending; by rewrite Eo).
    by rewrite FSMManager.map_order_perm, elem_of_elements. }
  apply pwp_bind, pwp_sup_gets, pwp_bind, pwp_on_sup. cbv zeta. cbn [sup]. set (cs := children (registry (sup s))) in *.
  set (R := collect_reaped cs order). set (s1 := mkState _ _ _).
  apply pwp_bind. eapply (pwp_mono _ (λ _ s', pending (sup s') = pending (sup s) ∧ ∀ n, n ∉ R → children (registry (sup s')) !! n = cs !! n));
    [| |done].
  { apply (pwp_for _ _ (λ s', pending (sup s') = pending (sup s) ∧ ∀ n, n ∉ R → children (registry (sup s')) !! n = cs !! n) (λ _, True)).
    - intros x s' Hx [Hp' Hc']. apply pwp_on_child. destruct (_ !! x); [|done]. intros [] c' w' d' _; [|done].
      split; [done|]. intros n Hn. cbn. rewrite lookup_insert_ne by (by intros ->). by apply Hc'.
    - split; [|done]. unfold pending, child_names in *. cbn. set_solver. }
  intros u s2 [Hp2 Hc2]. eapply pwp_mono; [apply forget_loop| |done]. intros u' s' [Hp' Hc'].
  assert (Hcs : ∀ n, children (registry (sup s')) !! n = if decide (n ∈ R) then None else cs !! n).
  { intros n. rewrite Hc'. destruct (decide (n ∈ R)); [done|by apply Hc2]. }
  assert (Hdom : ∀ n, n ∈ dom (children (registry (sup s'))) ↔ n ∈ child_names (sup s) ∧ n ∉ R).
  { intros n. rewrite elem_of_dom, Hcs. unfold child_names. rewrite elem_of_dom. destruct (decide (n ∈ R)); [|naive_solver].
    split; [by intros [? ?]|naive_solver]. }
  assert (HR : ∀ n, n ∈ R → n ∈ pending (sup s)) by (intros n [Hn _]%collect_reaped_spec; by apply Hord).
  cbv zeta. split_and!.
  - apply set_eq. intros n. rewrite Hp', Hp2, elem_of_difference, elem_of_intersection, Hdom, elem_of_list_to_set. set_solver.
  - intros n. rewrite Hdom, elem_of_difference. naive_solver.
  - intros n. rewrite Hdom. naive_solver.
  - intros n c Hn Hnp Hl. rewrite Hcs in Hn. destruct (decide (n ∈ R)) as [|HnR]; [done|].
    apply HnR, collect_reaped_spec. split; [by apply Hord|eauto].
Qed.

(** Only children can be pending removal. *)
Definition pending_known (x : Supervisor C) : Prop := pending x ⊆ child_names x.

(** The names of the children, in the order a [range] takes them. *)
Lemma range_children (x : Supervisor C) (w : W) order w' :
  FSMManager.map_order (map_to_list (children (registry x))).*1 w = (order, w') → list_to_set order = child_names x.
Proof.
  intros Eo. apply set_eq. intros n. rewrite elem_of_list_to_set.
  assert (order = (FSMManager.map_order (map_to_list (children (registry x))).*1 w).1) as -> by (by rewrite Eo).
  rewrite FSMManager.map_order_perm. unfold child_names. rewrite elem_of_dom, list_elem_of_fmap. split.
  - intros ([n' c] & -> & Hc%elem_of_map_to_list). by eexists.
  - intros [c Hc]. exists (n, c). split; [done|]. by apply elem_of_map_to_list.
Qed.

Ltac keep_pending :=
  repeat first [progress keep | apply keeps_on_known; intros ? ? [? ?] ? | apply keeps_on_sup; intros ? ?];
  unfold pending_known, pending, child_names in *; try case_match; cbn in *;
  rewrite ?dom_insert_L, ?dom_alter_L, ?dom_delete_L; set_solver.

Lemma pending_kept_removal l order s :
  list_to_set order ⊆ child_names (sup s) → pending_known (sup s) →
  pwp (p_for (request_removal l) order) (λ _ s', pending_known (sup s')) (λ s', pending_known (sup s')) s.
Proof.
  set (I := λ x : Supervisor C, list_to_set order ⊆ child_names x ∧ pending_known x). intros Ho Hs.
  eapply (pwp_mono _ (λ _ s', I (sup s')) _ (λ s', I (sup s'))); [|unfold I; naive_solver..].
  apply (pwp_for _ _ (λ s', I (sup s'))); [|done]. intros n s' Hn Hs'. unfold request_removal.
  apply pwp_bind, pwp_sup_gets. destruct (_ || _); [done|]. apply pwp_bind, pwp_on_sup.
  assert (Hk : keeps I (_ ← on_child n (child_RequestShutdown Background "removed_from_specs"); mret tt)).
  { keep. apply keeps_on_known. unfold I, pending_known, pending, child_names. intros c x [c' Hc] [H1' H2']. cbn.
    rewrite dom_insert_L. set_solver. }
  apply Hk. unfold I, pending_known, pending, child_names in *. cbn. set_solver.
Qed.

Lemma pending_kept specs : keeps pending_known (reconcileChildren specs).
Proof.
  unfold reconcileChildren, range_keys. apply p_keeps_bind; [|intros u1; apply p_keeps_bind].
  - unfold reconcile_spec, create_child, adopt_child, range_keys, getStartedContext, started_Load, on_registry. keep_pending.
  - unfold applyDisableMapping, apply_disabled. keep_pending.
  - intros u2 s Hs. apply pwp_bind, pwp_sup_gets, pwp_bind, pwp_liftW. intros order w Eo. apply pwp_bind.
    eapply pwp_mono; [apply pending_kept_removal; [|exact Hs]| |done].
    { by rewrite (range_children _ _ _ _ Eo). }
    assert (Hk : keeps pending_known reap_children).
    { unfold reap_children, forget_child, range_keys, on_registry. keep_pending. }
    intros u3 s' Hs'. by apply Hk.
Qed.

(** C14: The children follow the specifications.  When a reconciliation
    returns, the children pending removal are exactly those that are not in the
    specifications, and each of them still had workers when it was left; a child
    of the specifications is kept, and none appears from nowhere.  Whether it
    returns or panics, only children are pending removal. *)
Theorem children_follow_specs specs s :
  pending_known (sup s) →
  pwp (reconcileChildren specs)
    (λ _ s', let cs' := children (registry (sup s')) in
      pending (sup s') = dom cs' ∖ names specs ∧
      (∀ n c, cs' !! n = Some c → n ∉ names specs → child_ListWorkers c ≠ []) ∧
      child_names (sup s) ∩ names specs ⊆ dom cs' ∧ dom cs' ⊆ child_names (sup s) ∪ names specs)
    (λ s', pending_known (sup s')) s.
Proof.
  intros Hk. eapply pwp_split; [|exact (pending_kept specs s Hk)].
  unfold reconcileChildren, range_keys. set (p := pending (sup s) ∖ names specs).
  set (hi := child_names (sup s) ∪ names specs).
  apply pwp_bind. eapply pwp_mono; [apply (specs_loop (pending (sup s)) (child_names (sup s)) hi); [exact Hk|set_solver|split_and!; set_solver]| |done].
  intros u1 s1 Hs1. apply pwp_bind. eapply pwp_mono; [apply (between_disabled p); exact Hs1| |done].
  intros u2 s2 Hs2. apply pwp_bind, pwp_sup_gets, pwp_bind, pwp_liftW. intros order w Eo.
  set (dm := child_names (sup s2)). assert (Hord : list_to_set order = dm) by (by eapply range_children).
  destruct Hs2 as (Hp2 & Hlo & Hhi). apply pwp_bind.
  eapply pwp_mono; [apply (removal_loop p dm (spec_Name <$> specs) order); by split_and!| |done].
  intros u3 s3 (Hp3 & Hd1 & Hd2). rewrite Hord in Hp3. fold (names specs) in Hp3.
  eapply pwp_mono; [apply reap_post; set_solver| |done]. intros u4 s4 (Hp4 & Hlo4 & Hhi4 & Hw). cbv zeta. split_and!.
  - rewrite Hp4, Hp3. set_solver.
  - intros n c Hn Hnn. eapply Hw; [exact Hn|]. rewrite Hp3. apply elem_of_dom_2 in Hn. set_solver.
  - set_solver.
  - set_solver.
Qed.
End reconcile.

(** ** On the concrete system *)

#[local] Instance demo_workers : WorkerCode DemoWorld := demo_code demo_next.

(** One child is removed from the specifications while its worker runs, one is new. *)
Lemma children_follow_specs_witness :
  let s := demo_parent demo_health {["w" := demo_worker open_gate]} (5 * Second) (mkDemo false false) in
  let specs := [demo_spec "d" ""] in
  pwp (reconcileChildren specs)
    (λ _ s', let cs' := children (registry (sup s')) in
      pending (sup s') = dom cs' ∖ names specs ∧
      (∀ n c, cs' !! n = Some c → n ∉ names specs → child_ListWorkers c ≠ []) ∧
      child_names (sup s) ∩ names specs ⊆ dom cs' ∧ dom cs' ⊆ child_names (sup s) ∪ names specs)
    (λ s', pending_known (sup s')) s ∧
  elements (pending (sup (reconcileChildren specs s).2)) = ["c"] ∧
  elements (child_names (sup (reconcileChildren specs s).2)) = ["c"; "d"].
Proof.
  intros s specs. split; [|by vm_compute]. apply children_follow_specs. unfold pending_known. set_solver.
Defined.

(** A child that leaves the specifications and comes back is no longer pending
    removal, but the request to shut its worker down stays stored. *)
Example reappeared_child_shuts_down :
  let s := demo_parent demo_health {["w" := demo_worker open_gate]} (5 * Second) (mkDemo false false) in
  let s1 := (reconcileChildren [] s).2 in
  let s2 := (reconcileChildren [demo_spec "c" ""] s1).2 in
  elements (pending (sup s1)) = ["c"] ∧ elements (pending (sup s2)) = [] ∧
  demo_desired (db s2) !! ("demo", "w") = Some (mkDemo true false).
Proof. by vm_compute. Qed.

(** When the worker has gone, the child stays as an empty supervisor, and is
    never made again. *)
Example reappeared_child_stays_empty :
  let s := demo_parent demo_health ∅ (5 * Second) (mkDemo false false) in
  let s' := (reconcileChildren [demo_spec "c" ""] s).2 in
  child_ListWorkers <$> children (registry (sup s')) !! "c" = Some [].
Proof. by vm_compute. Qed.

(** A restart that is forced after its timeout leaves the request to shut down
    that began it: the worker's next removal is for good. *)
Example forced_restart_removes :
  let s := demo_state {["w" := demo_worker open_gate]} demo_health (5 * Second) (1 * Second) (mkDemo false false) in
  let s1 := (processSignal Background "w" SignalNeedsRestart s).2 in
  let s2 := (checkRestartTimeouts (mkState (sup s1) (mkDemoWorld (40 * Second) [] false) (db s1))).2 in
  let s3 := (processSignal Background "w" SignalNeedsRemoval s2).2 in
  demo_desired (db s2) !! ("demo", "w") = Some (mkDemo true false) ∧ pendingRestart (registry (sup s2)) = ∅ ∧
  workers (registry (sup s3)) = ∅ ∧ pendingReAdds (registry (sup s3)) = ∅.
Proof. by vm_compute. Qed.

(** Only the specifications that changed are validated, so that a second one
    of the same name passes when the first is known already. *)
Example duplicate_name_passes :
  let s := demo_parent demo_health ∅ (5 * Second) (mkDemo false false) in
  let s1 := (validate_children [demo_spec "c" "x"] s).2 in
  (validate_children [demo_spec "c" "x"; demo_spec "c" "y"] s).1 = Some (Some (EWrap "invalid child specifications: "
    (ENew "child spec validation failed: duplicate name"))) ∧
  (validate_children [demo_spec "c" "x"; demo_spec "c" "y"] s1).1 = Some None.
Proof. by vm_compute. Qed.
