(* ===== verification/DataModel.v ===== *)
(** * DataModel: validation of data models

    Models [pkg/datamodel/validator.go] over the types of
    [pkg/config/config.go]: a data model is a tree of fields whose leaves carry
    a payload shape or refer to another model.  The four traversals of the
    validator share the shape of [walk].

    A Go map is the list of its entries in the order [range] takes them.  The
    validator appends to one slice of errors and keeps one map of the
    references it is inside of; both are its state, next to the world that
    decides when the context ends. *)

From S2P Require Import Prelude GoRuntime GoBytes StateMonad.
From Stdlib Require Import Ascii.
Local Open Scope nat_scope.

(** ** config.go *)

Record ModelRef := mkModelRef { ref_Name : string; ref_Version : string }.

#[warnings="-register-all"]
Inductive PayloadField := mkPayloadField (Type_ : string) (sub : list (string * PayloadField)).
Record PayloadShape := mkShape { Fields : list (string * PayloadField) }.

(** A nil map of subfields is [None]. *)
#[warnings="-register-all"]
Inductive Field := mkField (shape : string) (ref : option ModelRef) (rel : option PayloadShape)
  (subs : option (list (string * Field))).
Definition Structure : Type := list (string * Field).

Definition PayloadShape_of (f : Field) : string := let 'mkField s _ _ _ := f in s.
Definition ModelRef_of (f : Field) : option ModelRef := let 'mkField _ r _ _ := f in r.
Definition Relational (f : Field) : option PayloadShape := let 'mkField _ _ r _ := f in r.
Definition Subfields (f : Field) : option Structure := let 'mkField _ _ _ s := f in s.

Record DataModelsConfig := mkModels { Versions : gmap string Structure; model_Name : string; Description : string }.

(** Without the default bridges, a list nothing reads. *)
Record DataContractsConfig := mkContract { contract_Name : string; contract_Model : option ModelRef }.

(** ** The state of a validation *)

Record ValidationError := mkVError { Path : string; Message : string }.
(** [ValidationError.Error]. *)
Definition verror_Error (e : ValidationError) : string := "validation error at path '" +:+ Path e +:+ "': " +:+ Message e.

Record VState (W : Type) := mkV { verrors : list ValidationError; visited : gset string; world : W }.
Arguments mkV {W} _ _ _. Arguments verrors {W} _. Arguments visited {W} _. Arguments world {W} _.

Definition join_path (path name : string) : string := if bool_decide (path = "") then name else path +:+ "." +:+ name.

Section validator.
Context {W : Type} `{World W}.
Local Abbreviation VM := (St (VState W)).

Definition add_error (path message : string) : VM () := λ s,
  (tt, mkV (verrors s ++ [mkVError path message]) (visited s) (world s)).
Definition mark (key : string) : VM () := λ s, (tt, mkV (verrors s) ({[key]} ∪ visited s) (world s)).
Definition unmark (key : string) : VM () := λ s, (tt, mkV (verrors s) (visited s ∖ {[key]}) (world s)).
Definition is_visited (key : string) : VM bool := λ s, (bool_decide (key ∈ visited s), s).
Definition read_ctx (ctx : Ctx) : VM (option GoErr) := λ s,
  let (e, w) := ctx_Err ctx (world s) in (e, mkV (verrors s) (visited s) w).

(** The check at the head of every step: whether to go on. *)
Definition enter (ctx : Ctx) (path : string) : VM bool :=
  e ← read_ctx ctx;
  match e with
  | None => mret true
  | Some err => _ ← add_error path ("validation cancelled: " +:+ Error err); mret false
  end.

(** ** The traversal *)

Definition each (visit : string → Field → VM ()) : Structure → VM () :=
  fix go l := match l with [] => mret tt | (name, f) :: l => _ ← visit name f; go l end.

Section walk.
Context (ctx : Ctx) (visit : string → string → Field → VM bool).

(** [visit name path f] says whether to go on below [f]. *)
Fixpoint walk_below (f : Field) (path : string) : VM () :=
  match f with
  | mkField _ _ _ None => mret tt
  | mkField _ _ _ (Some l) =>
      ok ← enter ctx path;
      if ok : bool then
        each (λ name f,
          let currentPath := join_path path name in
          deeper ← visit name currentPath f;
          if deeper : bool then walk_below f currentPath else mret tt) l
      else mret tt
  end.
Definition walk (l : Structure) (path : string) : VM () := walk_below (mkField "" None None (Some l)) path.
End walk.

(** ** The structure *)

Definition name_char (a : ascii) : bool :=
  let n := Ascii.nat_of_ascii a in
  (97 <=? n) && (n <=? 122) || (65 <=? n) && (n <=? 90) || (48 <=? n) && (n <=? 57) || (n =? 45) || (n =? 95).

Definition validateFieldNameWithPath (fieldName currentPath : string) : VM () :=
  if bool_decide (fieldName = "") then add_error currentPath "field name cannot be empty"
  else
    _ ← (if contains fieldName "." then add_error currentPath "field name cannot contain dots" else mret tt);
    if forallb name_char (lit fieldName) then mret tt
    else add_error currentPath "field name can only contain letters, numbers, dashes, and underscores".

Definition digit_char (a : ascii) : bool := let n := Ascii.nat_of_ascii a in (48 <=? n) && (n <=? 57).
(** [versionRegex]: [^v\d+$]. *)
Definition version_matches (v : string) : bool :=
  match lit v with
  | a :: b :: l => bool_decide (a = "v"%char) && forallb digit_char (b :: l)
  | _ => false
  end.

Definition validateRefModelFormat (modelRef : ModelRef) (path : string) : VM () :=
  _ ← (if bool_decide (ref_Name modelRef = "") then add_error path "_refModel must have a model name specified" else mret tt);
  if bool_decide (ref_Version modelRef = "") then add_error path "_refModel must have a version specified"
  else if negb (version_matches (ref_Version modelRef))
  then add_error path ("version '" +:+ ref_Version modelRef +:+ "' does not match pattern ^v\d+$")
  else if bool_decide (ref_Version modelRef = "v0") then add_error path "version must start at v1, v0 is not allowed"
  else mret tt.

Definition add_if (b : bool) (path message : string) : VM () := if b then add_error path message else mret tt.

Definition hasPayloadShape (f : Field) : bool := bool_decide (PayloadShape_of f ≠ "").
Definition hasRefModel (f : Field) : bool := bool_decide (is_Some (ModelRef_of f)).
Definition hasSubfields (f : Field) : bool := match Subfields f with Some (_ :: _) => true | _ => false end.
Definition hasRelational (f : Field) : bool := match Relational f with Some _ => true | None => false end.

Definition validateFieldCombinations (f : Field) (path : string) : VM () :=
  _ ← add_if (hasPayloadShape f && hasRefModel f) path "field cannot have both _payloadshape and _refModel";
  _ ← add_if (hasSubfields f && hasRefModel f) path "field cannot have both subfields and _refModel";
  _ ← add_if (hasRelational f && hasPayloadShape f) path "field cannot have both _relational and _payloadshape";
  _ ← add_if (hasRelational f && hasRefModel f) path "field cannot have both _relational and _refModel";
  add_if (hasRelational f && hasSubfields f) path "field with _relational cannot have subfields".

Definition isLeafNode (f : Field) : bool := match Subfields f with None => true | Some _ => false end.

Definition validateLeafNode (f : Field) (path : string) : VM () :=
  if hasRefModel f && negb (hasPayloadShape f) && negb (hasRelational f) then mret tt
  else if hasPayloadShape f && negb (hasRefModel f) && negb (hasRelational f) then mret tt
  else if hasRelational f && negb (hasPayloadShape f) && negb (hasRefModel f) then
    match Relational f with
    | Some r => add_if (bool_decide (Fields r = [])) path "_relational must have at least one field"
    | None => mret tt
    end
  else add_if (negb (hasPayloadShape f) && negb (hasRefModel f) && negb (hasRelational f)) path
         "leaf nodes must contain _payloadshape, _relational, or _refModel".

Definition check_content (f : Field) (path : string) : VM () :=
  _ ← validateFieldCombinations f path;
  if isLeafNode f then validateLeafNode f path
  else add_if (hasPayloadShape f) path "non-leaf nodes (folders) cannot have _payloadshape".

(** [validateField]: the recursion into the subfields of a folder is the
    traversal's. *)
Definition validateField (ctx : Ctx) (f : Field) (path : string) : VM bool :=
  ok ← enter ctx path;
  if negb ok then mret false
  else
    _ ← match ModelRef_of f with Some r => validateRefModelFormat r path | None => mret tt end;
    _ ← check_content f path;
    mret true.

Definition visit_structure (ctx : Ctx) (name path : string) (f : Field) : VM bool :=
  _ ← validateFieldNameWithPath name path; validateField ctx f path.
Definition validateStructure (ctx : Ctx) : Structure → string → VM () := walk ctx (visit_structure ctx).

(** ** Payload shapes *)

Definition validateSinglePayloadShape (payloadShape path : string) (payloadShapes : gmap string PayloadShape) : VM () :=
  match payloadShapes !! payloadShape with
  | Some _ => mret tt
  | None => add_error path ("referenced payload shape '" +:+ payloadShape +:+ "' does not exist")
  end.

Definition visit_shape (payloadShapes : gmap string PayloadShape) (name path : string) (f : Field) : VM bool :=
  _ ← (if hasPayloadShape f then validateSinglePayloadShape (PayloadShape_of f) path payloadShapes else mret tt);
  mret true.
Definition validateStructurePayloadShapes (ctx : Ctx) (payloadShapes : gmap string PayloadShape) : Structure → string → VM () :=
  walk ctx (visit_shape payloadShapes).

(** ** References *)

Section references.
Context (ctx : Ctx) (allDataModels : gmap string DataModelsConfig).

Definition reference_key (r : ModelRef) : string := ref_Name r +:+ ":" +:+ ref_Version r.

(** [room] is 10 minus the depth of the code; [below] validates the structure
    referred to, one level deeper. *)
Definition validateSingleReference (room : nat) (below : Structure → string → VM ()) (modelRef : ModelRef) (path : string) : VM () :=
  ok ← enter ctx path;
  if negb ok then mret tt
  else if bool_decide (room = O) then
    add_error path "reference validation depth limit exceeded (10 levels) - possible deep nesting or circular reference"
  else
    let referenceKey := reference_key modelRef in
    seen ← is_visited referenceKey;
    if seen : bool then add_error path ("circular reference detected: " +:+ referenceKey)
    else
      match allDataModels !! ref_Name modelRef with
      | None => add_error path ("referenced model '" +:+ ref_Name modelRef +:+ "' does not exist")
      | Some referencedModel =>
          match Versions referencedModel !! ref_Version modelRef with
          | None => add_error path ("referenced model '" +:+ ref_Name modelRef +:+ "' version '" +:+ ref_Version modelRef +:+ "' does not exist")
          | Some structure =>
              _ ← mark referenceKey;
              _ ← below structure (path +:+ "." +:+ referenceKey);
              unmark referenceKey
          end
      end.

Definition visit_reference (room : nat) (below : Structure → string → VM ()) (name path : string) (f : Field) : VM bool :=
  _ ← match ModelRef_of f with Some r => validateSingleReference room below r path | None => mret tt end;
  mret true.

Fixpoint validateStructureReferences (room : nat) : Structure → string → VM () :=
  walk ctx (visit_reference room
    (match room with O => λ _ _, mret tt | S room => validateStructureReferences room end)).
End references.

(** ** The methods of the validator *)

Definition error_list (head : string) (es : list ValidationError) : GoErr :=
  ENew (foldl (λ acc e, acc +:+ String (Ascii.ascii_of_nat 10) ("  - " +:+ verror_Error e)) head es).

(** The check of the context, a traversal with an empty slice of errors, and
    the errors it found. *)
Definition collect (ctx : Ctx) (head : string) (m : VM ()) : St W (option GoErr) := λ w,
  let (e, w) := ctx_Err ctx w in
  match e with
  | Some err => (Some err, w)
  | None =>
      let '(_, s) := m (mkV [] ∅ w) in
      (match verrors s with [] => None | es => Some (error_list head es) end, world s)
  end.

Definition validateDataModel (ctx : Ctx) (dm : Structure) : St W (option GoErr) :=
  collect ctx "data model structure validation failed:" (validateStructure ctx dm "").
Definition ValidateStructureOnly : Ctx → Structure → St W (option GoErr) := validateDataModel.

Definition validatePayloadShapes (ctx : Ctx) (dm : Structure) (payloadShapes : gmap string PayloadShape) : St W (option GoErr) :=
  collect ctx "data model payload shape validation failed:" (validateStructurePayloadShapes ctx payloadShapes dm "").

Definition max_depth : nat := 10.
Definition validateReferences (ctx : Ctx) (dm : Structure) (allDataModels : gmap string DataModelsConfig) : St W (option GoErr) :=
  collect ctx "data model reference validation failed:" (validateStructureReferences ctx allDataModels max_depth dm "").

Definition ts_shape (type_ : string) : PayloadShape :=
  mkShape [("timestamp_ms", mkPayloadField "number" []); ("value", mkPayloadField type_ [])].
Definition ensure_shape (name type_ : string) (m : gmap string PayloadShape) : gmap string PayloadShape :=
  match m !! name with Some _ => m | None => <[name := ts_shape type_]> m end.
Definition ensureDefaultPayloadShapes (m : gmap string PayloadShape) : gmap string PayloadShape :=
  ensure_shape "timeseries-boolean" "boolean"
    (ensure_shape "timeseries-string" "string" (ensure_shape "timeseries-number" "number" m)).

Definition ValidateWithReferences (ctx : Ctx) (dm : Structure) (allDataModels : gmap string DataModelsConfig)
    (payloadShapes : gmap string PayloadShape) : St W (option GoErr) :=
  let enrichedPayloadShapes := ensureDefaultPayloadShapes payloadShapes in
  e ← ValidateStructureOnly ctx dm;
  match e with
  | Some err => mret (Some err)
  | None =>
      e ← validatePayloadShapes ctx dm enrichedPayloadShapes;
      match e with
      | Some err => mret (Some err)
      | None => validateReferences ctx dm allDataModels
      end
  end.
End validator.
