(* ===== verification/DataModelFacts.v ===== *)
(** * DataModelFacts: what the validator of data models accepts

    The specification of a valid data model, by its fields, its payload shapes
    and the chains of references that start in it, and the proof that the
    validator accepts exactly the valid ones. *)

From S2P Require Import Prelude GoRuntime GoBytes StateMonad DataModel.
From Stdlib Require Import Ascii.
Local Open Scope nat_scope.

(** ** The specification *)

Section Field_ind.
Context (P : Field → Prop) (HP : ∀ shape ref rel subs,
  match subs with Some l => Forall (λ nf, P nf.2) l | None => True end → P (mkField shape ref rel subs)).

Fixpoint Field_ind' (f : Field) : P f :=
  match f with
  | mkField shape ref rel None => HP shape ref rel None I
  | mkField shape ref rel (Some l) => HP shape ref rel (Some l)
      ((fix go l : Forall (λ nf, P nf.2) l := match l with
         | [] => Forall_nil_2 _ | nf :: l => Forall_cons_2 (λ nf, P nf.2) nf l (Field_ind' nf.2) (go l) end) l)
  end.
End Field_ind.

(** All the fields of a structure, at any depth, with their names. *)
Definition flat (below : Field → list (string * Field)) : Structure → list (string * Field) :=
  fix go l := match l with [] => [] | (name, f) :: l => (name, f) :: below f ++ go l end.
Fixpoint fields_below (f : Field) : list (string * Field) :=
  match f with mkField _ _ _ (Some l) => flat fields_below l | mkField _ _ _ None => [] end.
Definition fields_of : Structure → list (string * Field) := flat fields_below.

Record ref_ok (r : ModelRef) : Prop := {
  ref_named : ref_Name r ≠ "";
  ref_version : version_matches (ref_Version r) = true;
  ref_not_v0 : ref_Version r ≠ "v0";
}.

(** A leaf has exactly one content; a folder has none, unless it is empty. *)
Definition content_ok (f : Field) : Prop :=
  match Subfields f with
  | None =>
      (PayloadShape_of f ≠ "" ∧ ModelRef_of f = None ∧ Relational f = None) ∨
      (PayloadShape_of f = "" ∧ is_Some (ModelRef_of f) ∧ Relational f = None) ∨
      (PayloadShape_of f = "" ∧ ModelRef_of f = None ∧ ∃ r, Relational f = Some r ∧ Fields r ≠ [])
  | Some l =>
      PayloadShape_of f = "" ∧ (l ≠ [] → ModelRef_of f = None ∧ Relational f = None) ∧
      (ModelRef_of f = None ∨ Relational f = None)
  end.

Record node_ok (nf : string * Field) : Prop := {
  node_named : nf.1 ≠ "" ∧ forallb name_char (lit nf.1) = true;
  node_ref : ∀ r, ModelRef_of nf.2 = Some r → ref_ok r;
  node_content : content_ok nf.2;
}.

Definition shapes_known (shapes : gmap string PayloadShape) (nf : string * Field) : Prop :=
  PayloadShape_of nf.2 = "" ∨ is_Some (shapes !! PayloadShape_of nf.2).

Section spec.
Context (models : gmap string DataModelsConfig).

Definition lookup_ref (r : ModelRef) : option Structure := m ← models !! ref_Name r; Versions m !! ref_Version r.
Definition refers (l : Structure) (r : ModelRef) : Prop := ∃ name f, (name, f) ∈ fields_of l ∧ ModelRef_of f = Some r.

(** Every reference leads to a model, through at most [n] references. *)
Fixpoint resolves (n : nat) (l : Structure) : Prop :=
  ∀ r, refers l r → match n with O => False | S n => ∃ l', lookup_ref r = Some l' ∧ resolves n l' end.

(** [n] references lead from one structure to another. *)
Inductive chain : nat → Structure → Structure → Prop :=
  | chain_here l : chain 0 l l
  | chain_step n l r l' l'' : refers l r → lookup_ref r = Some l' → chain n l' l'' → chain (S n) l l''.

Lemma resolves_le n m l : n ≤ m → resolves n l → resolves m l.
Proof.
  revert m l. induction n as [|n IH]; intros m l Hle Hl; destruct m as [|m]; try lia; intros r Hr; specialize (Hl r Hr); try done.
  destruct Hl as (l' & Hl' & Hn). exists l'. split; [done|]. apply IH; [lia|done].
Qed.

Lemma resolves_chain k n l l' : resolves n l → chain k l l' → k ≤ n ∧ resolves (n - k) l'.
Proof.
  intros Hl Hc. revert n Hl. induction Hc as [l|k l r l1 l2 Hr Hl1 Hc IH]; intros n Hl; [split; [lia|by rewrite Nat.sub_0_r]|].
  destruct n as [|n]; [by apply Hl in Hr|]. destruct (Hl r Hr) as (l1' & E & Hn). rewrite Hl1 in E. simplify_eq.
  destruct (IH n Hn) as [Hle Hres]. split; [lia|done].
Qed.

Lemma chain_app k k' l l' l'' : chain k l l' → chain k' l' l'' → chain (k + k') l l''.
Proof. induction 1; simpl; [done|]. intros. econstructor; eauto. Qed.

(** No structure of a finite unfolding leads back to itself. *)
Lemma resolves_acyclic k n l : resolves n l → chain (S k) l l → False.
Proof.
  revert l. induction (lt_wf n) as [n _ IH]; intros l Hn Hc.
  destruct (resolves_chain _ _ _ _ Hn Hc) as [Hle Hr]. eapply (IH (n - S k)); [lia|exact Hr|exact Hc].
Qed.
End spec.

(** ** Runs that find no error *)

Section runs.
Context {W : Type} `{World W}.
Local Abbreviation VM := (St (VState W)).

(** Errors are only ever added. *)
Definition grows {A} (m : VM A) : Prop := ∀ s, verrors s `prefix_of` verrors (m s).2.
Definition silent {A} (m : VM A) (s : VState W) : Prop := verrors (m s).2 = verrors s.

Lemma grows_ret {A} (a : A) : grows (mret a).
Proof. by intros s. Qed.
Lemma grows_bind {A B} (m : VM A) (f : A → VM B) : grows m → (∀ a, grows (f a)) → grows (m ≫= f).
Proof.
  intros Hm Hf s. unfold mbind, St_bind. specialize (Hm s). destruct (m s) as [a s']. etrans; [exact Hm|apply Hf].
Qed.
Lemma grows_add path msg : grows (add_error path msg).
Proof. intros s. by eexists. Qed.
Lemma grows_same {A} (m : VM A) : (∀ s, verrors (m s).2 = verrors s) → grows m.
Proof. intros Hm s. by rewrite Hm. Qed.
Lemma grows_read ctx : grows (read_ctx ctx).
Proof. apply grows_same. intros s. unfold read_ctx. by destruct (ctx_Err ctx (world s)). Qed.
Lemma grows_mark k : grows (mark k).
Proof. by apply grows_same. Qed.
Lemma grows_unmark k : grows (unmark k).
Proof. by apply grows_same. Qed.
Lemma grows_visited k : grows (is_visited k).
Proof. by apply grows_same. Qed.
Lemma grows_each visit l : (∀ name f, grows (visit name f)) → grows (each visit l).
Proof. intros Hv. induction l as [|[name f] l IH]; simpl; [apply grows_ret|apply grows_bind; [apply Hv|by intros _]]. Qed.

End runs.

Create HintDb grows discriminated.
#[export] Hint Resolve grows_ret grows_add grows_read grows_mark grows_unmark grows_visited : grows.
Ltac grow := repeat first [ progress eauto with grows | lazymatch goal with |- ∀ _, _ => intros ? end | apply grows_bind; [|intros ?] | case_match ].

Section silent_runs.
Context {W : Type} `{World W}.
Local Abbreviation VM := (St (VState W)).
Implicit Types (s : VState W) (visit : string → string → Field → VM bool).

Lemma grows_enter ctx path : grows (enter ctx path).
Proof. unfold enter. grow. Qed.
Hint Resolve grows_enter : grows.
Lemma grows_walk_below ctx (visit : string → string → Field → VM bool) f path : (∀ name path f, grows (visit name path f)) → grows (walk_below ctx visit f path).
Proof.
  intros Hv. revert path. induction f as [shape ref rel [l|] IH] using Field_ind'; intros path; simpl; [|apply grows_ret].
  apply grows_bind; [apply grows_enter|intros []; [|apply grows_ret]].
  induction IH as [|[name f] l Hf _ IHl]; simpl; [apply grows_ret|]. apply grows_bind; [|by intros _].
  apply grows_bind; [apply Hv|intros []; [apply Hf|apply grows_ret]].
Qed.
Lemma grows_walk ctx visit l path : (∀ name path f, grows (visit name path f)) → grows (walk ctx visit l path).
Proof. apply grows_walk_below. Qed.

Lemma silent_bind {A B} (m : VM A) (f : A → VM B) s :
  grows m → (∀ a, grows (f a)) → silent (m ≫= f) s → silent m s ∧ silent (f (m s).1) (m s).2.
Proof.
  intros Hm Hf. unfold silent, mbind, St_bind. specialize (Hm s). destruct (m s) as [a s']. cbn [fst snd] in *. intros E.
  specialize (Hf a s'). rewrite E in Hf. assert (verrors s' = verrors s); [|by rewrite E].
  destruct Hm as [k Hk], Hf as [k' Hk']. rewrite Hk in Hk' |- *.
  rewrite <- app_assoc in Hk'. assert (Hlen := f_equal length Hk'). rewrite !length_app in Hlen.
  destruct k; [by rewrite app_nil_r|]. simpl in Hlen. lia.
Qed.

Lemma silent_add path msg s : ¬ silent (add_error path msg) s.
Proof. unfold silent. simpl. intros E. apply (f_equal length) in E. rewrite length_app in E. simpl in E. lia. Qed.
Lemma silent_add_if b path msg s : silent (add_if b path msg) s ↔ b = false.
Proof. destruct b; simpl; [split; [by intros ?%silent_add|done]|done]. Qed.
Lemma silent_enter ctx path s : silent (enter ctx path) s → (enter ctx path s).1 = true.
Proof.
  unfold enter. intros Hs. apply silent_bind in Hs as [_ Hs]; [|grow..]. unfold mbind, St_bind in *.
  destruct (read_ctx ctx s) as [[err|] s1]; [|done]. cbn [fst snd] in Hs. exfalso.
  apply (silent_bind (add_error _ _)) in Hs as [Hs _]; [|grow..]. by apply silent_add in Hs.
Qed.

(** A silent traversal is silent at every field. *)
Lemma walk_below_silent ctx visit f path s :
  (∀ name path f, grows (visit name path f)) →
  (∀ name path f s, silent (visit name path f) s → (visit name path f s).1 = true) →
  silent (walk_below ctx visit f path) s →
  ∀ name x, (name, x) ∈ fields_below f → ∃ p s', silent (visit name p x) s'.
Proof.
  intros Hv Hd. revert path s. induction f as [shape ref rel [l|] IH] using Field_ind'; intros path s Hs; simpl in *; [|set_solver].
  assert (Hg : ∀ l', grows (each (λ name f, deeper ← visit name (join_path path name) f;
      if deeper : bool then walk_below ctx visit f (join_path path name) else mret tt) l')).
  { intros l'. apply grows_each. intros name f. grow. by apply grows_walk_below. }
  apply silent_bind in Hs as [He Hs]; [|grow|by intros []; [apply Hg|apply grows_ret]].
  apply silent_enter in He. rewrite He in Hs. clear He. revert Hs. generalize ((enter ctx path s).2). clear s.
  induction IH as [|[name f] l Hf _ IHl]; intros s Hs; simpl in *; [set_solver|].
  apply silent_bind in Hs as [Hs Hl]; [|grow; by apply grows_walk_below|by intros _].
  apply silent_bind in Hs as [Hvis Hb]; [|apply Hv|grow; by apply grows_walk_below].
  rewrite (Hd _ _ _ _ Hvis) in Hb. intros n x Hin. apply elem_of_cons in Hin as [[= -> ->]|Hin]; [by eexists _, _|].
  apply elem_of_app in Hin as [Hin|Hin]; [by eapply Hf|by eapply IHl].
Qed.
Lemma walk_silent ctx visit l path s :
  (∀ name path f, grows (visit name path f)) →
  (∀ name path f s, silent (visit name path f) s → (visit name path f s).1 = true) →
  silent (walk ctx visit l path) s →
  ∀ name x, (name, x) ∈ fields_of l → ∃ p s', silent (visit name p x) s'.
Proof. intros Hv Hd Hs. by apply (walk_below_silent ctx visit (mkField "" None None (Some l)) path s). Qed.

(** ** Runs on a context that does not end *)

Definition never_ends (ctx : Ctx) : Prop := ∀ t, ctx_Err_at ctx t = None.

(** The state but for the world. *)
Definition same_state (s s' : VState W) : Prop := verrors s' = verrors s ∧ visited s' = visited s.

Lemma enter_goes_on ctx path s : never_ends ctx → ∃ s', enter ctx path s = (true, s') ∧ same_state s s'.
Proof.
  intros Hc. unfold enter, mbind, St_bind, read_ctx, ctx_Err. destruct (clock (world s)) as [t w]. rewrite Hc.
  by eexists.
Qed.

(** A traversal that finds every field in order leaves the state as it was. *)
Lemma walk_below_clean ctx visit f path s V :
  never_ends ctx →
  (∀ name x p s, (name, x) ∈ fields_below f → visited s = V → ∃ s', visit name p x s = (true, s') ∧ same_state s s') →
  visited s = V → ∃ s', walk_below ctx visit f path s = (tt, s') ∧ same_state s s'.
Proof.
  intros Hc. revert path s. induction f as [shape ref rel [l|] IH] using Field_ind'; intros path s Hv Hs; simpl in *; [|by eexists].
  destruct (enter_goes_on ctx path s Hc) as (s1 & E & Hs1). unfold mbind at 1, St_bind at 1. rewrite E.
  assert (Hs1V : visited s1 = V) by (destruct Hs1; congruence).
  enough (∃ s', each (λ name f, deeper ← visit name (join_path path name) f;
      if deeper : bool then walk_below ctx visit f (join_path path name) else mret tt) l s1 = (tt, s') ∧ same_state s1 s') as (s' & E' & Hs').
  { exists s'. split; [done|]. unfold same_state in *. intuition congruence. }
  clear E Hs s Hs1. revert s1 Hs1V. induction IH as [|[name f] l Hf _ IHl]; intros s Hs; simpl in *; [by exists s|].
  destruct (Hv name f (join_path path name) s) as (s1 & E1 & Hs1); [by left|done|].
  assert (visited s1 = V) as Hs1V by (destruct Hs1; congruence).
  destruct (Hf (join_path path name) s1) as (s2 & E2 & Hs2); [intros n x p s' Hin; apply Hv; apply elem_of_cons; right; set_solver|done|].
  assert (visited s2 = V) as Hs2V by (destruct Hs2; congruence).
  destruct (IHl) with (s1 := s2) as (s3 & E3 & Hs3); [intros n x p s' Hin; apply Hv; apply elem_of_cons; right; set_solver|done|].
  exists s3. unfold mbind, St_bind. rewrite E1. cbn beta iota. rewrite E2. split; [exact E3|].
  unfold same_state in *. intuition congruence.
Qed.
End silent_runs.
#[export] Hint Resolve grows_enter : grows.

Section visits.
Context {W : Type} `{World W}.
Local Abbreviation VM := (St (VState W)).

Lemma walk_clean ctx (visit : string → string → Field → VM bool) l path s V :
  never_ends ctx →
  (∀ name x p s, (name, x) ∈ fields_of l → visited s = V → ∃ s', visit name p x s = (true, s') ∧ same_state s s') →
  visited s = V → ∃ s', walk ctx visit l path s = (tt, s') ∧ same_state s s'.
Proof. intros Hc Hv. by apply (walk_below_clean ctx visit (mkField "" None None (Some l)) path s V). Qed.

(** ** The structure *)

Lemma name_no_dot s : forallb name_char (lit s) = true → contains s "." = false.
Proof.
  unfold lit. induction s as [|a s IH]; [done|]. simpl. intros [Ha Hs]%andb_true_iff. rewrite IH by done.
  rewrite orb_false_r. apply andb_false_iff. left. apply bool_decide_eq_false. by intros <-.
Qed.

Lemma name_silent n p (s : VState W) : silent (validateFieldNameWithPath n p) s ↔ n ≠ "" ∧ forallb name_char (lit n) = true.
Proof.
  unfold validateFieldNameWithPath. case_bool_decide as Hn; [split; [by intros ?%silent_add|naive_solver]|].
  split.
  - intros Hs. split; [done|]. apply silent_bind in Hs as [_ Hs]; [|grow..]. destruct (forallb _ _); [done|]. by apply silent_add in Hs.
  - intros [_ Hf]. rewrite name_no_dot, Hf by done. done.
Qed.
Lemma name_clean n p (s : VState W) : n ≠ "" → forallb name_char (lit n) = true → validateFieldNameWithPath n p s = (tt, s).
Proof. intros Hn Hf. unfold validateFieldNameWithPath. by rewrite bool_decide_false, name_no_dot, Hf. Qed.

Lemma ref_silent r p (s : VState W) : silent (validateRefModelFormat r p) s → ref_ok r.
Proof.
  intros Hs. unfold validateRefModelFormat in Hs. apply silent_bind in Hs as [Hn Hs]; [|grow..].
  destruct (bool_decide_reflect (ref_Name r = "")); [by apply silent_add in Hn|].
  destruct (bool_decide_reflect (ref_Version r = "")); [by apply silent_add in Hs|]. revert Hs.
  destruct (version_matches _) eqn:Ev; [|by intros ?%silent_add]. simpl. case_bool_decide; [by intros ?%silent_add|]. by split.
Qed.
Lemma ref_clean r p (s : VState W) : ref_ok r → validateRefModelFormat r p s = (tt, s).
Proof.
  intros [Hn Hv H0]. unfold validateRefModelFormat.
  assert (Hv' : ref_Version r ≠ "") by (intros E; by rewrite E in Hv).
  by rewrite (bool_decide_false _ Hn), (bool_decide_false _ Hv'), Hv, (bool_decide_false _ H0).
Qed.

Lemma grows_add_if b p msg : grows (W := W) (add_if b p msg).
Proof. unfold add_if. grow. Qed.
Hint Resolve grows_add_if : grows.

Lemma app_self {A} (l k : list A) : l ++ k = l ↔ k = [].
Proof. split; [|intros ->; by rewrite app_nil_r]. intros E. apply (app_inv_head l). by rewrite app_nil_r. Qed.

Lemma content_silent f p (s : VState W) : silent (check_content f p) s ↔ content_ok f.
Proof.
  unfold check_content, validateFieldCombinations, validateLeafNode, content_ok, silent.
  destruct f as [shape [r|] [[fs]|] [[|x l]|]]; destruct (decide (shape = "")) as [->|Hne];
    unfold hasPayloadShape, hasRefModel, hasRelational, hasSubfields, mbind, St_bind, mret, St_ret; cbn -[add_if];
    rewrite ?(bool_decide_true (shape ≠ "")) by done; rewrite ?(bool_decide_false ("" ≠ "")) by (intros E; by apply E);
    try destruct fs; cbn; rewrite <- ?app_assoc, ?app_self; naive_solver.
Qed.

Lemma content_clean f p (s : VState W) : content_ok f → check_content f p s = (tt, s).
Proof.
  unfold check_content, validateFieldCombinations, validateLeafNode, content_ok.
  destruct f as [shape [r|] [[fs]|] [[|x l]|]]; destruct (decide (shape = "")) as [->|Hne];
    unfold hasPayloadShape, hasRefModel, hasRelational, hasSubfields, mbind, St_bind, mret, St_ret; cbn -[add_if];
    rewrite ?(bool_decide_true (shape ≠ "")) by done; rewrite ?(bool_decide_false ("" ≠ "")) by (intros E; by apply E);
    try destruct fs; cbn; naive_solver.
Qed.

Lemma grows_name n p : grows (W := W) (validateFieldNameWithPath n p).
Proof. unfold validateFieldNameWithPath. grow. Qed.
Lemma grows_ref r p : grows (W := W) (validateRefModelFormat r p).
Proof. unfold validateRefModelFormat. grow. Qed.
Lemma grows_content f p : grows (W := W) (check_content f p).
Proof. unfold check_content, validateFieldCombinations, validateLeafNode. grow. Qed.
Hint Resolve grows_name grows_ref grows_content : grows.
Lemma returns_bind {A B} (m : VM A) (f : A → VM B) (b : B) s : (∀ a s, (f a s).1 = b) → ((m ≫= f) s).1 = b.
Proof. intros Hf. unfold mbind, St_bind. destruct (m s). apply Hf. Qed.

Lemma grows_field ctx f path : grows (validateField ctx f path).
Proof. unfold validateField. grow. Qed.
Hint Resolve grows_field : grows.
Lemma grows_structure ctx n p f : grows (visit_structure ctx n p f).
Proof. unfold visit_structure. grow. Qed.

Lemma structure_silent ctx n p f s : silent (visit_structure ctx n p f) s → node_ok (n, f) ∧ (visit_structure ctx n p f s).1 = true.
Proof.
  intros Hs. unfold visit_structure in *. apply silent_bind in Hs as [Hn Hs]; [|grow..].
  apply name_silent in Hn as [Hn1 Hn2]. unfold mbind at 1, St_bind at 1. rewrite name_clean in * by done. cbn [fst snd] in *.
  unfold validateField in *. apply silent_bind in Hs as [He Hs]; [|grow..]. apply silent_enter in He. rewrite He in Hs. cbn [negb] in Hs.
  apply silent_bind in Hs as [Hr Hs]; [|grow..]. apply silent_bind in Hs as [Hc _]; [|grow..]. apply content_silent in Hc.
  split.
  - split; [done| |done]. cbn. intros r Er. rewrite Er in Hr. by eapply ref_silent.
  - unfold mbind at 1, St_bind at 1. destruct (enter ctx p s) as [b s1]. cbn in He. subst b. cbn [negb].
    apply returns_bind. intros _ s2. by apply returns_bind.
Qed.

Lemma structure_clean ctx n p f s :
  never_ends ctx → node_ok (n, f) → ∃ s', visit_structure ctx n p f s = (true, s') ∧ same_state s s'.
Proof.
  intros Hc [[Hn1 Hn2] Hr Hk]. cbn in *. unfold visit_structure. unfold mbind at 1, St_bind at 1. rewrite name_clean by done.
  unfold validateField. destruct (enter_goes_on ctx p s Hc) as (s1 & E & Hs1).
  unfold mbind, St_bind. rewrite E. cbn [negb]. destruct (ModelRef_of f) as [r|].
  - rewrite ref_clean by auto. rewrite content_clean by done. by exists s1.
  - cbn. rewrite content_clean by done. by exists s1.
Qed.
End visits.

Section shapes.
Context {W : Type} `{World W}.
Implicit Types (s : VState W).

Lemma grows_shape shapes n p f : grows (W := W) (visit_shape shapes n p f).
Proof. unfold visit_shape, validateSinglePayloadShape. grow. Qed.

Lemma shape_silent shapes n p f s :
  silent (visit_shape shapes n p f) s → shapes_known shapes (n, f) ∧ (visit_shape shapes n p f s).1 = true.
Proof.
  intros Hs. split; [|by apply returns_bind]. unfold visit_shape in Hs.
  apply silent_bind in Hs as [Hs _]; [|unfold validateSinglePayloadShape; grow..]. unfold shapes_known, hasPayloadShape in *. cbn.
  destruct (decide (PayloadShape_of f = "")) as [|Hne]; [by left|right]. rewrite bool_decide_true in Hs by done.
  unfold validateSinglePayloadShape in Hs. destruct (shapes !! _); [by eexists|by apply silent_add in Hs].
Qed.

Lemma shape_clean shapes n p f s : shapes_known shapes (n, f) → visit_shape shapes n p f s = (true, s).
Proof.
  intros Hk. unfold visit_shape, hasPayloadShape, shapes_known in *. cbn in Hk. case_bool_decide as Hne; [|done].
  destruct Hk as [|[x Hx]]; [done|]. unfold validateSinglePayloadShape. by rewrite Hx.
Qed.
End shapes.

(** ** References *)

Lemma app_last_sep {A} (a : A) l l' k k' : a ∉ k → a ∉ k' → l ++ a :: k = l' ++ a :: k' → l = l' ∧ k = k'.
Proof.
  intros Hk Hk' E. apply app_eq_app in E as [m [[-> E]|[-> E]]]; (destruct m as [|b m]; [by simplify_eq/=; rewrite app_nil_r|]);
    exfalso; simplify_eq/=; [apply Hk'|apply Hk]; apply elem_of_app; right; left.
Qed.

(** No version of a model has a colon in its name. *)
Definition plain_versions (models : gmap string DataModelsConfig) : Prop :=
  ∀ name m v l, models !! name = Some m → Versions m !! v = Some l → ":"%char ∉ lit v.

Lemma lit_app (a b : string) : lit (a +:+ b) = lit a ++ lit b.
Proof. unfold lit. induction a as [|x a IH]; [done|]. change (String.list_ascii_of_string (String x (a +:+ b)) = x :: (String.list_ascii_of_string a ++ String.list_ascii_of_string b)). cbn. by rewrite IH. Qed.
Lemma lit_inj (a b : string) : lit a = lit b → a = b.
Proof. unfold lit. intros E. by rewrite <- (String.string_of_list_ascii_of_string a), E, String.string_of_list_ascii_of_string. Qed.

Lemma key_inj models r r' l l' :
  plain_versions models → lookup_ref models r = Some l → lookup_ref models r' = Some l' →
  reference_key r = reference_key r' → r = r'.
Proof.
  intros Hp Hr Hr' E. unfold lookup_ref in *. apply bind_Some in Hr as (m & Hm & Hv). apply bind_Some in Hr' as (m' & Hm' & Hv').
  apply (f_equal lit) in E. unfold reference_key in E. rewrite !lit_app in E.
  apply (app_last_sep ":"%char) in E as [En Ev]; [|exact (Hp _ _ _ _ Hm Hv)|exact (Hp _ _ _ _ Hm' Hv')].
  destruct r, r'. cbn in *. by rewrite (lit_inj _ _ En), (lit_inj _ _ Ev).
Qed.

Section references.
Context {W : Type} `{World W}.
Context (ctx : Ctx) (models : gmap string DataModelsConfig).
Implicit Types (s : VState W).

Lemma grows_single room below r p : (∀ l p, grows (W := W) (below l p)) → grows (validateSingleReference ctx models room below r p).
Proof. intros Hb. unfold validateSingleReference. cbv zeta. grow. Qed.
Lemma grows_visit_reference room below n p f :
  (∀ l p, grows (W := W) (below l p)) → grows (visit_reference ctx models room below n p f).
Proof. intros Hb. unfold visit_reference. pose proof grows_single. grow. Qed.
Lemma grows_references room l p : grows (W := W) (validateStructureReferences ctx models room l p).
Proof.
  revert l p. induction room as [|room IH]; intros l p; apply grows_walk; intros n q f; apply grows_visit_reference; [|done].
  intros. apply grows_ret.
Qed.

Lemma reference_silent room below r p s :
  (∀ l p, grows (W := W) (below l p)) → silent (validateSingleReference ctx models room below r p) s →
  room ≠ O ∧ ∃ l q s', lookup_ref models r = Some l ∧ silent (below l q) s'.
Proof.
  intros Hb Hs. unfold validateSingleReference in Hs. cbv zeta in Hs. apply silent_bind in Hs as [He Hs]; [|grow..].
  apply silent_enter in He. rewrite He in Hs. cbn [negb] in Hs. case_bool_decide; [by apply silent_add in Hs|].
  split; [done|]. apply silent_bind in Hs as [_ Hs]; [|grow..].
  destruct (is_visited _ _).1; [by apply silent_add in Hs|].
  unfold lookup_ref. destruct (models !! ref_Name r) as [m|]; cbn; [|by apply silent_add in Hs].
  destruct (Versions m !! ref_Version r) as [l|]; [|by apply silent_add in Hs].
  apply silent_bind in Hs as [_ Hs]; [|grow..]. apply silent_bind in Hs as [Hs _]; [|grow..].
  eexists l, _, _. by split.
Qed.

(** Soundness: whatever the context does. *)
Lemma references_silent room l p s : silent (validateStructureReferences ctx models room l p) s → resolves models room l.
Proof.
  revert l p s. induction room as [|room IH]; intros l p s Hs r (n & f & Hin & Hr).
  - destruct (walk_silent ctx (visit_reference ctx models 0 (λ _ _, mret tt)) l p s) with (name := n) (x := f) as (q & s' & Hv); try done.
    { intros. apply grows_visit_reference. intros. apply grows_ret. } { intros. by apply returns_bind. }
    unfold visit_reference in Hv. rewrite Hr in Hv. apply silent_bind in Hv as [Hv _]; [|apply grows_single; intros; apply grows_ret|grow].
    apply reference_silent in Hv as [Hv _]; [done|]. intros. apply grows_ret.
  - destruct (walk_silent ctx (visit_reference ctx models (S room) (validateStructureReferences ctx models room)) l p s)
      with (name := n) (x := f) as (q & s' & Hv); try done.
    { intros. apply grows_visit_reference, grows_references. } { intros. by apply returns_bind. }
    unfold visit_reference in Hv. rewrite Hr in Hv. apply silent_bind in Hv as [Hv _]; [|apply grows_single, grows_references|grow].
    apply reference_silent in Hv as [_ (l' & q' & s'' & Hl' & Hv)]; [|apply grows_references]. exists l'. split; [done|]. by eapply IH.
Qed.

Lemma references_clean room l p s :
  never_ends ctx → plain_versions models → resolves models room l →
  (∀ r l', lookup_ref models r = Some l' → reference_key r ∈ visited s → ∃ k, chain models k l' l) →
  ∃ s', validateStructureReferences ctx models room l p s = (tt, s') ∧ same_state s s'.
Proof.
  intros Hc Hp. revert l p s. induction room as [|room IH]; intros l p s Hl HV.
  - apply walk_clean with (V := visited s); [done| |done]. intros n f q s1 Hin _. unfold visit_reference.
    destruct (ModelRef_of f) as [r|] eqn:Er; [|by exists s1]. by destruct (Hl r ltac:(by exists n, f)).
  - apply walk_clean with (V := visited s); [done| |done]. intros n f q s1 Hin Hs1. unfold visit_reference.
    destruct (ModelRef_of f) as [r|] eqn:Er; [|by exists s1].
    assert (Hr : refers l r) by (by exists n, f). destruct (Hl r Hr) as (l' & Hl' & Hres).
    assert (Hk : reference_key r ∉ visited s1).
    { rewrite Hs1. intros Hin'. destruct (HV r l' Hl' Hin') as [k Hch]. eapply (resolves_acyclic models k); [exact Hres|].
      replace (S k) with (k + 1) by lia. eapply chain_app; [exact Hch|]. econstructor; [done..|constructor]. }
    unfold validateSingleReference. cbv zeta. destruct (enter_goes_on ctx q s1 Hc) as (s2 & E & [Hs2 Hs2V]).
    unfold mbind, St_bind. rewrite E. cbn [negb]. rewrite bool_decide_false by done. unfold is_visited at 1.
    rewrite bool_decide_false by by rewrite Hs2V. unfold lookup_ref in Hl'. apply bind_Some in Hl' as (m & Hm & Hv).
    rewrite Hm, Hv. unfold mark.
    edestruct (IH l') as (s3 & E3 & [H3 H3V]); [done| |rewrite E3].
    2:{ eexists. split; [reflexivity|]. unfold same_state. cbn [verrors visited]. rewrite H3, H3V. cbn [verrors visited].
        split; [done|]. rewrite Hs2V. set_solver. }
    assert (Hlr : lookup_ref models r = Some l') by (unfold lookup_ref; by rewrite Hm).
    intros r0 l0 Hr0. cbn [visited]. rewrite elem_of_union, elem_of_singleton, Hs2V, Hs1. intros [Hkk|Hin'].
    + assert (r0 = r) as -> by (by eapply key_inj). rewrite Hlr in Hr0. simplify_eq. exists 0. constructor.
    + destruct (HV r0 l0 Hr0 Hin') as [k Hch]. exists (k + 1). eapply chain_app; [exact Hch|]. econstructor; [done..|constructor].
Qed.
End references.
