(* ===== verification/DataModelValidity.v ===== *)
(** * DataModelValidity: the validator accepts exactly the valid data models

    What [ValidateWithReferences] decides, against the specification of
    [DataModelFacts]: an accepted model is valid whatever the context did
    meanwhile, its references form no cycle and go at most ten deep; and a
    valid model is accepted as long as the context does not end. *)

From S2P Require Import Prelude GoRuntime GoBytes StateMonad DataModel DataModelFacts.
From Stdlib Require Import Ascii.
Local Open Scope nat_scope.

Record valid_model (models : gmap string DataModelsConfig) (shapes : gmap string PayloadShape) (dm : Structure) : Prop := {
  valid_nodes : Forall node_ok (fields_of dm);
  valid_shapes : Forall (shapes_known (ensureDefaultPayloadShapes shapes)) (fields_of dm);
  valid_references : resolves models max_depth dm;
}.

Section validity.
Context {W : Type} `{World W}.
Implicit Types (ctx : Ctx) (m : St (VState W) ()).

Lemma collect_none ctx head m w : (collect ctx head m w).1 = None → ∃ w', silent m (mkV [] ∅ w').
Proof.
  unfold collect. destruct (ctx_Err ctx w) as [[err|] w1]; [done|]. intros Hn. exists w1. revert Hn. unfold silent.
  destruct (m (mkV [] ∅ w1)) as [u s]. cbn. by destruct (verrors s).
Qed.

Lemma collect_clean ctx head m w : never_ends ctx →
  (∀ w', ∃ s', m (mkV [] ∅ w') = (tt, s') ∧ same_state (mkV [] ∅ w') s') → (collect ctx head m w).1 = None.
Proof.
  intros Hc Hm. unfold collect, ctx_Err. destruct (clock w) as [t w1]. rewrite Hc.
  destruct (Hm w1) as (s' & -> & [E _]). cbn in E. by rewrite E.
Qed.

Lemma structure_accepted ctx dm w : (ValidateStructureOnly ctx dm w).1 = None → Forall node_ok (fields_of dm).
Proof.
  intros [w' Hs]%collect_none. apply Forall_forall. intros [n f] Hin.
  destruct (walk_silent ctx (visit_structure ctx) dm "" (mkV [] ∅ w')) with (name := n) (x := f) as (p & s' & Hv); try done.
  - intros. apply grows_structure.
  - intros. by eapply structure_silent.
  - by apply structure_silent in Hv as [? _].
Qed.

Lemma shapes_accepted ctx dm shapes w : (validatePayloadShapes ctx dm shapes w).1 = None → Forall (shapes_known shapes) (fields_of dm).
Proof.
  intros [w' Hs]%collect_none. apply Forall_forall. intros [n f] Hin.
  destruct (walk_silent ctx (visit_shape shapes) dm "" (mkV [] ∅ w')) with (name := n) (x := f) as (p & s' & Hv); try done.
  - intros. apply grows_shape.
  - intros. by eapply shape_silent.
  - by apply shape_silent in Hv as [? _].
Qed.

Lemma accepted_valid ctx dm models shapes w :
  (ValidateWithReferences ctx dm models shapes w).1 = None → valid_model models shapes dm.
Proof.
  unfold ValidateWithReferences, mbind, St_bind.
  destruct (ValidateStructureOnly ctx dm w) as [[e|] w1] eqn:E1; [done|].
  destruct (validatePayloadShapes ctx dm _ w1) as [[e|] w2] eqn:E2; [done|]. intros [w' Hs]%collect_none.
  split; [apply (structure_accepted ctx dm w); by rewrite E1|apply (shapes_accepted ctx dm _ w1); by rewrite E2|].
  by eapply references_silent.
Qed.

Lemma structure_valid ctx dm w : never_ends ctx → Forall node_ok (fields_of dm) → (ValidateStructureOnly ctx dm w).1 = None.
Proof.
  rewrite Forall_forall. intros Hc Hn. apply collect_clean; [done|]. intros w'. eapply walk_clean; [done| |done].
  intros n f p s Hin _. apply structure_clean; [done|]. by apply Hn.
Qed.
Lemma shapes_valid ctx dm shapes w :
  never_ends ctx → Forall (shapes_known shapes) (fields_of dm) → (validatePayloadShapes ctx dm shapes w).1 = None.
Proof.
  rewrite Forall_forall. intros Hc Hs. apply collect_clean; [done|]. intros w'. eapply walk_clean; [done| |done].
  intros n f p s Hin _. exists s. split; [|done]. apply shape_clean. by apply Hs.
Qed.
Lemma valid_accepted ctx dm models shapes w :
  never_ends ctx → plain_versions models → valid_model models shapes dm → (ValidateWithReferences ctx dm models shapes w).1 = None.
Proof.
  intros Hc Hp [Hn Hs Hr]. unfold ValidateWithReferences, mbind, St_bind.
  pose proof (structure_valid ctx dm w Hc Hn) as E1. destruct (ValidateStructureOnly ctx dm w) as [e w1]. cbn in E1. subst e.
  pose proof (shapes_valid ctx dm _ w1 Hc Hs) as E2. destruct (validatePayloadShapes _ _ _ w1) as [e w2]. cbn in E2. subst e.
  apply collect_clean; [done|]. intros w'. apply references_clean; [done..|]. set_solver.
Qed.

(** C26: Validating a data model against all the others says yes only to a
    model that is well formed at every depth, names known payload shapes and
    refers to existing versions, whose chains of references are at most ten
    long and never come back to a structure they passed: whatever the context
    did meanwhile, an interrupted validation is not taken for a success. *)
Theorem accepted_models_are_sound ctx dm models shapes w :
  (ValidateWithReferences ctx dm models shapes w).1 = None →
  valid_model models shapes dm ∧
  ∀ k l, chain models k dm l → k ≤ max_depth ∧ (∀ r, refers l r → is_Some (lookup_ref models r)) ∧ ∀ j, ¬ chain models (S j) l l.
Proof.
  intros Hv%accepted_valid. split; [done|]. intros k l Hc. destruct Hv as [_ _ Hr].
  destruct (resolves_chain _ _ _ _ _ Hr Hc) as [Hle Hl]. split; [done|]. split.
  - intros r Hr'. destruct (max_depth - k) as [|n]; [by apply Hl in Hr'|]. destruct (Hl r Hr') as (l' & -> & _). by eexists.
  - intros j Hj. by eapply resolves_acyclic.
Qed.

(** C29: Conversely a model that satisfies the specification is accepted, in
    whatever order the maps are visited, unless the context ends. *)
Theorem valid_models_are_accepted ctx dm models shapes w :
  never_ends ctx → plain_versions models →
  (ValidateWithReferences ctx dm models shapes w).1 = None ↔ valid_model models shapes dm.
Proof. intros Hc Hp. split; [apply accepted_valid|by apply valid_accepted]. Qed.
End validity.

(** ** A model with a folder, a reference and an inline shape *)

Definition demo_leaf : Field := mkField "timeseries-number" None None None.
Definition demo_ref (name version : string) : Field := mkField "" (Some (mkModelRef name version)) None None.
Definition demo_folder (l : Structure) : Field := mkField "" None None (Some l).
Definition demo_shape : PayloadShape := mkShape [("serial", mkPayloadField "string" [])].
Definition demo_model : Structure :=
  [("motor", demo_folder [("speed", demo_leaf); ("left", demo_ref "sensor" "v1"); ("right", demo_ref "sensor" "v1")]);
   ("plate", mkField "" None (Some demo_shape) None)].
Definition demo_models : gmap string DataModelsConfig := {["sensor" := mkModels {["v1" := [("value", demo_leaf)]]} "sensor" ""]}.

Lemma demo_versions : plain_versions demo_models.
Proof.
  unfold demo_models. intros name m v l [<- <-]%lookup_singleton_Some Hv. cbn in Hv. apply lookup_singleton_Some in Hv as [<- _].
  vm_compute. intros Hin. repeat (apply elem_of_cons in Hin as [?|Hin]; [done|]). by apply elem_of_nil in Hin.
Qed.
Lemma demo_never_ends : never_ends Background.
Proof. by intros t. Qed.

(** Two fields may refer to the same model. *)
Lemma accepted_models_are_sound_witness :
  (ValidateWithReferences Background demo_model demo_models ∅ 0%Z).1 = None ∧ valid_model demo_models ∅ demo_model.
Proof.
  assert ((ValidateWithReferences Background demo_model demo_models ∅ 0%Z).1 = None) as Hn by (vm_compute; reflexivity).
  split; [exact Hn|]. exact (proj1 (accepted_models_are_sound _ _ _ _ _ Hn)).
Defined.

Lemma valid_models_are_accepted_witness : valid_model demo_models ∅ demo_model.
Proof.
  apply (valid_models_are_accepted Background demo_model demo_models ∅ 0%Z); [exact demo_never_ends|exact demo_versions|].
  vm_compute. reflexivity.
Defined.

(** Two models that refer to each other are refused. *)
Definition demo_cycle : gmap string DataModelsConfig :=
  {["a" := mkModels {["v1" := [("b", demo_ref "b" "v1")]]} "a" ""; "b" := mkModels {["v1" := [("a", demo_ref "a" "v1")]]} "b" ""]}.
Example cycle_is_refused : (ValidateWithReferences Background [("a", demo_ref "a" "v1")] demo_cycle ∅ 0%Z).1 ≠ None.
Proof. vm_compute. discriminate. Qed.

(** The version v0 is refused, v00 is not. *)
Example v0_and_v00 :
  (ValidateStructureOnly Background [("a", demo_ref "a" "v0")] 0%Z).1 ≠ None ∧
  (ValidateStructureOnly Background [("a", demo_ref "a" "v00")] 0%Z).1 = None.
Proof. vm_compute. split; [discriminate|reflexivity]. Qed.
