(* ===== verification/Translator.v ===== *)
(** * Translator: from data models to the schemas of the registry

    Models [pkg/datamodel/translator.go]: the extraction of the virtual paths
    of a model and of the models it refers to, grouped by payload shape, the
    JSON schema of a shape and the subject names.

    The two extractions of the code share [extract]; they differ in the guard
    at the head of a structure and in what a reference contributes.  A schema
    is a [Value]; the order in which a [range] takes the shapes is the
    parameter [range]. *)

From S2P Require Import Prelude GoRuntime GoBytes StateMonad Documents DataModel.
From stdpp Require Import sorting.
From Stdlib Require Import Ascii.
Local Open Scope nat_scope.

(** ** Computations that fail with an error *)

Definition ES (S A : Type) : Type := S → (GoErr + A) * S.
#[export] Instance ES_ret S : MRet (ES S) := λ A a s, (inr a, s).
#[export] Instance ES_bind S : MBind (ES S) := λ A B f m s,
  let (r, s') := m s in match r with inl e => (inl e, s') | inr a => f a s' end.
Definition fail {S A} (e : GoErr) : ES S A := λ s, (inl e, s).
(** [defer cleanup]. *)
Definition deferred {S A} (cleanup : S → S) (m : ES S A) : ES S A := λ s, let (r, s') := m s in (r, cleanup s').

(** The head of the functions that look at the context first. *)
Definition alive `{World W} (ctx : Ctx) : ES W () := λ w,
  let (e, w) := ctx_Err ctx w in (match e with Some err => inl err | None => inr tt end, w).

(** [sort.Strings]. *)
Definition string_le (a b : string) : Prop := String.leb a b = true.
#[export] Instance string_le_dec a b : Decision (string_le a b).
Proof. unfold string_le. apply _. Defined.
Definition sort_Strings (l : list string) : list string := merge_sort string_le l.

(** ** Virtual paths *)

(** The paths of a model by their payload shape. *)
Abbreviation Paths := (gmap string (list string)).

Definition add_path (shape path : string) (acc : Paths) : Paths := <[shape := default [] (acc !! shape) ++ [path]]> acc.
Definition mergePathsByShape (dest src : Paths) : Paths := union_with (λ d s, Some (d ++ s)) dest src.
Definition sort_paths (acc : Paths) : Paths := sort_Strings <$> acc.
Definition syntheticName (fieldPath : string) : string := "__relational_" +:+ fieldPath +:+ "__".

(** [payloadShapes] and [visitedModels], which the extraction mutates. *)
Record TState (W : Type) := mkT { payload_shapes : gmap string PayloadShape; visitedModels : gset string; t_world : W }.
Arguments mkT {W} _ _ _. Arguments payload_shapes {W} _. Arguments visitedModels {W} _. Arguments t_world {W} _.

Section extraction.
Context {W : Type} `{World W}.
Local Abbreviation TM := (ES (TState W)).

Definition in_world {A} (m : ES W A) : TM A := λ s,
  let (r, w) := m (t_world s) in (r, mkT (payload_shapes s) (visitedModels s) w).
Definition put_shape (name : string) (r : PayloadShape) : TM () := λ s,
  (inr tt, mkT (<[name := r]> (payload_shapes s)) (visitedModels s) (t_world s)).
Definition enter_model (key : string) : TM () := λ s, (inr tt, mkT (payload_shapes s) ({[key]} ∪ visitedModels s) (t_world s)).
Definition leave_model (key : string) (s : TState W) : TState W := mkT (payload_shapes s) (visitedModels s ∖ {[key]}) (t_world s).
Definition inside_model (key : string) : TM bool := λ s, (inr (bool_decide (key ∈ visitedModels s)), s).

Definition gather (visit : string → Field → Paths → TM Paths) : Structure → Paths → TM Paths :=
  fix go l acc := match l with [] => mret acc | (name, f) :: l => acc ← visit name f acc; go l acc end.

Section extract.
Context (ctx : Ctx) (guard : string → TM ()) (resolve : ModelRef → string → TM Paths).

(** One field; [below] extracts its subfields. *)
Definition extract_field (below : Field → string → TM Paths) (fieldPath : string) (f : Field) (acc : Paths) : TM Paths :=
  if bool_decide (PayloadShape_of f ≠ "") then mret (add_path (PayloadShape_of f) fieldPath acc)
  else
    match Relational f with
    | Some r => _ ← put_shape (syntheticName fieldPath) r; mret (add_path (syntheticName fieldPath) fieldPath acc)
    | None =>
        acc ← match Subfields f with
              | Some _ => subPaths ← below f fieldPath; mret (mergePathsByShape acc subPaths)
              | None => mret acc
              end;
        match ModelRef_of f with
        | Some r => refPaths ← resolve r fieldPath; mret (mergePathsByShape acc refPaths)
        | None => mret acc
        end
    end.

Fixpoint extract_below (f : Field) (currentPath : string) : TM Paths :=
  match f with
  | mkField _ _ _ None => mret ∅
  | mkField _ _ _ (Some l) =>
      _ ← in_world (alive ctx);
      _ ← guard currentPath;
      acc ← gather (λ name f acc, extract_field extract_below (join_path currentPath name) f acc) l ∅;
      mret (sort_paths acc)
  end.
Definition extract (l : Structure) (currentPath : string) : TM Paths := extract_below (mkField "" None None (Some l)) currentPath.
End extract.

(** References contribute nothing. *)
Definition extractVirtualPaths (ctx : Ctx) : Structure → string → TM Paths :=
  extract ctx (λ _, mret tt) (λ _ _, mret ∅).

Section references.
Context (ctx : Ctx) (allDataModels : gmap string DataModelsConfig).

Definition resolveModelReference (below : Structure → string → TM Paths) (modelRef : ModelRef) (currentPath : string) : TM Paths :=
  let refKey := reference_key modelRef in
  seen ← inside_model refKey;
  if seen : bool then fail (ENew ("circular reference detected: " +:+ refKey +:+ " at path '" +:+ currentPath +:+ "'"))
  else
    match allDataModels !! ref_Name modelRef with
    | None => fail (ENew ("referenced model '" +:+ ref_Name modelRef +:+ "' does not exist at path '" +:+ currentPath +:+ "'"))
    | Some referencedModel =>
        match Versions referencedModel !! ref_Version modelRef with
        | None => fail (ENew ("referenced model '" +:+ ref_Name modelRef +:+ "' version '" +:+ ref_Version modelRef +:+ "' does not exist at path '" +:+ currentPath +:+ "'"))
        | Some structure => _ ← enter_model refKey; deferred (leave_model refKey) (below structure currentPath)
        end
    end.

(** [room] is 10 minus the depth of the code. *)
Definition depth_guard (room : nat) (currentPath : string) : TM () :=
  if bool_decide (room = O) then fail (ENew ("reference resolution depth limit exceeded at path '" +:+ currentPath +:+ "'")) else mret tt.

Fixpoint extractVirtualPathsWithReferences (room : nat) : Structure → string → TM Paths :=
  extract ctx (depth_guard room)
    (resolveModelReference (match room with O => λ _ _, mret ∅ | S room => extractVirtualPathsWithReferences room end)).
End references.
End extraction.

(** ** Schemas *)

(** A Go map literal, and a [[]string]. *)
Definition VObject (l : list (string * Value)) : Value := VMap (map_to_list (list_to_map l : gmap string Value)).
Definition VStrings (l : list string) : Value := VList (VString <$> l).

Definition convertTypeToJSONSchema (umhType : string) : GoErr + string :=
  if bool_decide (umhType = "number") then inr "number"
  else if bool_decide (umhType = "string") then inr "string"
  else if bool_decide (umhType = "boolean") then inr "boolean"
  else if bool_decide (umhType = "integer") then inr "integer"
  else inl (ENew ("unsupported UMH type: " +:+ umhType)).

Definition Type_of (p : PayloadField) : string := let 'mkPayloadField t _ := p in t.

(** The loop of [generateFieldsSchema] over the fields of a shape. *)
Fixpoint convert_fields (l : list (string * PayloadField)) (properties : gmap string Value) (required : list string) : GoErr + gmap string Value * list string :=
  match l with
  | [] => inr (properties, required)
  | (fieldName, field) :: l =>
      match convertTypeToJSONSchema (Type_of field) with
      | inl err => inl (EWrap ("failed to convert type for field '" +:+ fieldName +:+ "': ") err)
      | inr jsonType => convert_fields l (<[fieldName := VObject [("type", VString jsonType)]]> properties) (required ++ [fieldName])
      end
  end.

Definition generateFieldsSchema (payloadShape : PayloadShape) : GoErr + Value :=
  match convert_fields (Fields payloadShape) ∅ [] with
  | inl err => inl err
  | inr (properties, required) =>
      inr (VObject [("type", VString "object"); ("properties", VMap (map_to_list properties));
                    ("required", VStrings (sort_Strings required)); ("additionalProperties", VBool false)])
  end.

(** The schema of a shape and its paths. *)
Definition schema_of (virtualPaths : list string) (fieldsSchema : Value) : Value :=
  VObject [("type", VString "object");
    ("properties", VObject [("virtual_path", VObject [("type", VString "string"); ("enum", VStrings virtualPaths)]); ("fields", fieldsSchema)]);
    ("required", VStrings ["virtual_path"; "fields"]); ("additionalProperties", VBool false)].

Definition generateSubjectName (contractName version payloadShape : string) : string :=
  let contractName := if has_prefix "_" contractName then contractName else "_" +:+ contractName in
  if contains contractName "_v" then contractName +:+ "-" +:+ payloadShape
  else
    let version := if has_prefix "v" version then version else "v" +:+ version in
    contractName +:+ "_" +:+ version +:+ "-" +:+ payloadShape.

Record SchemaTranslationResult := mkResult { Schemas : gmap string Value; PayloadShapeUsage : Paths }.

Definition GetAllSubjectNames (result : SchemaTranslationResult) : list string :=
  sort_Strings (map_to_list (Schemas result)).*1.
(** The JSON text of a schema is a [VText]. *)
Definition GetSchemaAsJSON (result : SchemaTranslationResult) (subjectName : string) : GoErr + Value :=
  match Schemas result !! subjectName with
  | None => inl (ENew ("schema not found for subject '" +:+ subjectName +:+ "'"))
  | Some schema => inr (VText schema)
  end.

Section translate.
Context {W : Type} `{World W} (range : Paths → list (string * list string)).
Local Abbreviation WM := (ES W).

Definition generateJSONSchema (ctx : Ctx) (virtualPaths : list string) (payloadShape : PayloadShape) : WM Value :=
  _ ← alive ctx;
  match generateFieldsSchema payloadShape with
  | inl err => fail (EWrap "failed to generate fields schema: " err)
  | inr fieldsSchema => mret (schema_of virtualPaths fieldsSchema)
  end.

(** [fmt.Errorf(prefix + "%w", err)] on the way out. *)
Definition wrapped {S A} (prefix : string) (m : ES S A) : ES S A := λ s,
  let (r, s') := m s in (match r with inl e => inl (EWrap prefix e) | inr a => inr a end, s').

(** The loop over the shapes. *)
Fixpoint generate_schemas (ctx : Ctx) (contractName version : string) (shapes : gmap string PayloadShape)
    (l : list (string * list string)) (schemas : gmap string Value) : WM (gmap string Value) :=
  match l with
  | [] => mret schemas
  | (payloadShape, virtualPaths) :: l =>
      _ ← alive ctx;
      match shapes !! payloadShape with
      | None => fail (ENew ("payload shape '" +:+ payloadShape +:+ "' not found in configuration"))
      | Some shapeConfig =>
          schema ← wrapped ("failed to generate JSON schema for payload shape '" +:+ payloadShape +:+ "': ")
                     (generateJSONSchema ctx virtualPaths shapeConfig);
          generate_schemas ctx contractName version shapes l (<[generateSubjectName contractName version payloadShape := schema]> schemas)
      end
  end.

(** A validation, and an extraction from the enriched shapes, which also gives
    the shapes it left. *)
Definition validated (prefix : string) (m : St W (option GoErr)) : WM () := λ w,
  let (e, w) := m w in (match e with Some err => inl (EWrap prefix err) | None => inr tt end, w).
Definition extracted (prefix : string) (shapes : gmap string PayloadShape) (m : ES (TState W) Paths) : WM (Paths * gmap string PayloadShape) := λ w,
  let (r, s) := m (mkT shapes ∅ w) in
  (match r with inl err => inl (EWrap prefix err) | inr paths => inr (paths, payload_shapes s) end, t_world s).

Definition TranslateDataModel (ctx : Ctx) (contractName version : string) (dataModel : Structure)
    (payloadShapes : gmap string PayloadShape) (allDataModels : gmap string DataModelsConfig) : WM SchemaTranslationResult :=
  _ ← alive ctx;
  let enrichedPayloadShapes := ensureDefaultPayloadShapes payloadShapes in
  '(pathsByShape, shapes) ← (
    if bool_decide (allDataModels ≠ ∅) then
      _ ← validated "data model reference validation failed: " (ValidateWithReferences ctx dataModel allDataModels enrichedPayloadShapes);
      extracted "failed to resolve virtual paths with references: " enrichedPayloadShapes
        (extractVirtualPathsWithReferences ctx allDataModels max_depth dataModel "")
    else
      _ ← validated "data model validation failed: " (ValidateStructureOnly ctx dataModel);
      extracted "failed to extract virtual paths: " enrichedPayloadShapes (extractVirtualPaths ctx dataModel ""));
  schemas ← generate_schemas ctx contractName version shapes (range pathsByShape) ∅;
  mret (mkResult schemas pathsByShape).
End translate.
