(* ===== verification/TranslatorFacts.v ===== *)
(** * TranslatorFacts: what a translation of a data model consists of

    The leaves of a model with the models it refers to, the proof that the
    extraction groups exactly them, and the conditions under which a
    translation succeeds. *)

From S2P Require Import Prelude GoRuntime GoBytes StateMonad Documents DataModel DataModelFacts DataModelValidity Translator.
From stdpp Require Import sorting.
From Stdlib Require Import Ascii.
Local Open Scope nat_scope.

(** ** The specification *)

(** [leaf l path shape q]: the structure [l] placed at [path] has a leaf of
    the payload shape [shape] at the virtual path [q]. *)
Inductive leaf (models : gmap string DataModelsConfig) : Structure → string → string → string → Prop :=
  | leaf_shape l path name f : (name, f) ∈ l → PayloadShape_of f ≠ "" → leaf models l path (PayloadShape_of f) (join_path path name)
  | leaf_relational l path name f r : (name, f) ∈ l → PayloadShape_of f = "" → Relational f = Some r →
      leaf models l path (syntheticName (join_path path name)) (join_path path name)
  | leaf_sub l path name f l' shape q : (name, f) ∈ l → PayloadShape_of f = "" → Relational f = None → Subfields f = Some l' →
      leaf models l' (join_path path name) shape q → leaf models l path shape q
  | leaf_ref l path name f r l' shape q : (name, f) ∈ l → PayloadShape_of f = "" → Relational f = None → ModelRef_of f = Some r →
      lookup_ref models r = Some l' → leaf models l' (join_path path name) shape q → leaf models l path shape q.

(** The leaves under one field. *)
Definition leaf_at (models : gmap string DataModelsConfig) (f : Field) (p shape q : string) : Prop :=
  if bool_decide (PayloadShape_of f ≠ "") then shape = PayloadShape_of f ∧ q = p
  else match Relational f with
    | Some _ => shape = syntheticName p ∧ q = p
    | None => (∃ l, Subfields f = Some l ∧ leaf models l p shape q) ∨
              (∃ r l, ModelRef_of f = Some r ∧ lookup_ref models r = Some l ∧ leaf models l p shape q)
    end.

Lemma leaf_fields models l path shape q :
  leaf models l path shape q ↔ ∃ name f, (name, f) ∈ l ∧ leaf_at models f (join_path path name) shape q.
Proof.
  unfold leaf_at. split.
  - intros [? ? n f|? ? n f|? ? n f|? ? n f]; exists n, f; (split; [done|]); case_bool_decide; try done; simplify_option_eq; try done; naive_solver.
  - intros (n & f & Hin & Hl). case_bool_decide as Hs; [destruct Hl as [-> ->]; by apply leaf_shape|].
    destruct (Relational f) as [r|] eqn:Er; [destruct Hl as [-> ->]; by eapply leaf_relational|].
    destruct Hl as [(l' & ? & ?)|(r & l' & ? & ? & ?)]; [by eapply leaf_sub|by eapply leaf_ref].
Qed.

(** [declared l path q r]: the structure [l] placed at [path] has a leaf at the
    virtual path [q] that declares the fields of its shape itself, in [r]. *)
Inductive declared (models : gmap string DataModelsConfig) : Structure → string → string → PayloadShape → Prop :=
  | declared_here l path name f r : (name, f) ∈ l → PayloadShape_of f = "" → Relational f = Some r → declared models l path (join_path path name) r
  | declared_sub l path name f l' q r : (name, f) ∈ l → PayloadShape_of f = "" → Relational f = None → Subfields f = Some l' →
      declared models l' (join_path path name) q r → declared models l path q r
  | declared_ref l path name f m l' q r : (name, f) ∈ l → PayloadShape_of f = "" → Relational f = None → ModelRef_of f = Some m →
      lookup_ref models m = Some l' → declared models l' (join_path path name) q r → declared models l path q r.

(** What the fields under one field declare. *)
Definition declared_at (models : gmap string DataModelsConfig) (f : Field) (p q : string) (r : PayloadShape) : Prop :=
  PayloadShape_of f = "" ∧
  match Relational f with
  | Some r' => q = p ∧ r = r'
  | None => (∃ l, Subfields f = Some l ∧ declared models l p q r) ∨
            (∃ m l, ModelRef_of f = Some m ∧ lookup_ref models m = Some l ∧ declared models l p q r)
  end.

Lemma declared_fields models l path q r :
  declared models l path q r ↔ ∃ name f, (name, f) ∈ l ∧ declared_at models f (join_path path name) q r.
Proof.
  unfold declared_at. split.
  - intros [? ? n f|? ? n f|? ? n f]; exists n, f; (split; [done|]); (split; [done|]); simplify_option_eq; naive_solver.
  - intros (n & f & Hin & Hs & Hd). destruct (Relational f) as [r'|] eqn:Er; [destruct Hd as [-> ->]; by eapply declared_here|].
    destruct Hd as [(l' & ? & ?)|(m & l' & ? & ? & ?)]; [by eapply declared_sub|by eapply declared_ref].
Qed.

(** The configuration of the payload shape [sh] in a translation of [dm]: what a
    leaf of that shape declares, or what [shapes] says. *)
Definition shape_config (models : gmap string DataModelsConfig) (shapes : gmap string PayloadShape) (dm : Structure) (sh : string) (sc : PayloadShape) : Prop :=
  (∃ q, sh = syntheticName q ∧ declared models dm "" q sc) ∨
  ((∀ q r, declared models dm "" q r → sh ≠ syntheticName q) ∧ shapes !! sh = Some sc).

(** ** Paths by shape *)

Definition paths_of (acc : Paths) (shape : string) : list string := default [] (acc !! shape).
(** No shape without a path. *)
Definition no_empty (acc : Paths) : Prop := ∀ shape, acc !! shape ≠ Some [].

Lemma add_path_of shape path acc sh q :
  q ∈ paths_of (add_path shape path acc) sh ↔ q ∈ paths_of acc sh ∨ (sh = shape ∧ q = path).
Proof.
  unfold paths_of, add_path. destruct (decide (sh = shape)) as [->|Hne]; [rewrite lookup_insert_eq|rewrite lookup_insert_ne by done]; cbn.
  - rewrite elem_of_app, list_elem_of_singleton. naive_solver.
  - naive_solver.
Qed.
Lemma merge_of d s sh q : q ∈ paths_of (mergePathsByShape d s) sh ↔ q ∈ paths_of d sh ∨ q ∈ paths_of s sh.
Proof.
  unfold paths_of, mergePathsByShape. rewrite lookup_union_with. destruct (d !! sh), (s !! sh); cbn; rewrite ?elem_of_app; set_solver.
Qed.
Lemma sort_of acc sh q : q ∈ paths_of (sort_paths acc) sh ↔ q ∈ paths_of acc sh.
Proof.
  unfold paths_of, sort_paths. rewrite lookup_fmap. destruct (acc !! sh) as [l|]; cbn; [|done].
  unfold sort_Strings. by rewrite merge_sort_Permutation.
Qed.
Lemma no_empty_add shape path acc : no_empty acc → no_empty (add_path shape path acc).
Proof. intros Ha sh. unfold add_path. destruct (decide (sh = shape)) as [->|Hne]; [rewrite lookup_insert_eq|by rewrite lookup_insert_ne]. by destruct (default _ _). Qed.
Lemma no_empty_merge d s : no_empty d → no_empty s → no_empty (mergePathsByShape d s).
Proof.
  intros Hd Hs sh. specialize (Hd sh). specialize (Hs sh). unfold mergePathsByShape. rewrite lookup_union_with.
  destruct (d !! sh) as [[|? ?]|], (s !! sh) as [[|? ?]|]; done.
Qed.
Lemma no_empty_sort acc : no_empty acc → no_empty (sort_paths acc).
Proof.
  intros Ha sh. unfold sort_paths. rewrite lookup_fmap. intros (l & E & El)%fmap_Some. apply (Ha sh). rewrite E. f_equal.
  apply Permutation_nil_r. rewrite El. symmetry. apply merge_sort_Permutation.
Qed.
Lemma no_empty_leaf acc sh : no_empty acc → is_Some (acc !! sh) → ∃ q, q ∈ paths_of acc sh.
Proof. intros Ha [[|q l] E]; [by apply Ha in E|]. exists q. unfold paths_of. rewrite E. by left. Qed.

#[export] Instance string_le_total : Total string_le.
Proof. intros a b. unfold string_le. destruct (String.leb_total a b); auto. Qed.
Lemma sort_sorted acc sh l : sort_paths acc !! sh = Some l → Sorted string_le l.
Proof. unfold sort_paths. rewrite lookup_fmap. intros (l0 & _ & ->)%fmap_Some. apply Sorted_merge_sort, _. Qed.

(** ** Runs *)

Section runs.
Context {S : Type}.

Lemma es_bind_ok {A B} (m : ES S A) (f : A → ES S B) s b s' :
  (m ≫= f) s = (inr b, s') ↔ ∃ a s1, m s = (inr a, s1) ∧ f a s1 = (inr b, s').
Proof. unfold mbind, ES_bind. destruct (m s) as [[e|a] s1]; naive_solver. Qed.
Lemma es_ret_ok {A} (a b : A) (s s' : S) : (mret a : ES S A) s = (inr b, s') ↔ a = b ∧ s = s'.
Proof. unfold mret, ES_ret. naive_solver. Qed.

(** A run that succeeds. *)
Definition succeeds {A} (m : ES S A) (s : S) (Q : A → S → Prop) : Prop := ∃ a s', m s = (inr a, s') ∧ Q a s'.
Lemma succeeds_bind {A B} (m : ES S A) (f : A → ES S B) s Q :
  succeeds m s (λ a s', succeeds (f a) s' Q) → succeeds (m ≫= f) s Q.
Proof. intros (a & s1 & E1 & b & s2 & E2 & HQ). exists b, s2. split; [|done]. apply es_bind_ok. naive_solver. Qed.
Lemma succeeds_ret {A} (a : A) s (Q : A → S → Prop) : Q a s → succeeds (mret a) s Q.
Proof. intros HQ. by exists a, s. Qed.
Lemma succeeds_mono {A} (m : ES S A) s (Q Q' : A → S → Prop) : succeeds m s Q → (∀ a s', Q a s' → Q' a s') → succeeds m s Q'.
Proof. intros (a & s' & E & HQ) H. exists a, s'. auto. Qed.
End runs.

(** ** The extraction finds the leaves *)

Section extraction.
Context {W : Type} `{World W}.
Context (models : gmap string DataModelsConfig) (ctx : Ctx).
Local Abbreviation TM := (ES (TState W)).
Implicit Types (s : TState W) (guard : string → TM ()) (resolve : ModelRef → string → TM Paths).

(** What a successful extraction gives: the leaves [P], grouped. *)
Definition finds (P : string → string → Prop) (paths : Paths) : Prop :=
  no_empty paths ∧ ∀ sh q, q ∈ paths_of paths sh ↔ P sh q.

(** A reference contributes the leaves of the structure it leads to. *)
Definition resolves_to_leaves (resolve : ModelRef → string → TM Paths) : Prop := ∀ r p s a s',
  resolve r p s = (inr a, s') → finds (λ sh q, ∃ l, lookup_ref models r = Some l ∧ leaf models l p sh q) a.

Lemma field_finds resolve below p f acc (P : string → string → Prop) s acc' s' :
  resolves_to_leaves resolve →
  (∀ l s a s', Subfields f = Some l → below f p s = (inr a, s') → finds (leaf models l p) a) →
  finds P acc → extract_field resolve below p f acc s = (inr acc', s') →
  finds (λ sh q, P sh q ∨ leaf_at models f p sh q) acc'.
Proof.
  intros Hres Hbelow [Hne Hacc] E. unfold extract_field in E. unfold leaf_at. case_bool_decide.
  { apply es_ret_ok in E as [<- _]. split; [by apply no_empty_add|]. intros sh q. rewrite add_path_of. naive_solver. }
  destruct (Relational f) as [r|].
  { apply es_bind_ok in E as (? & s1 & _ & E). apply es_ret_ok in E as [<- _]. split; [by apply no_empty_add|].
    intros sh q. rewrite add_path_of. naive_solver. }
  apply es_bind_ok in E as (acc1 & s1 & E1 & E2).
  assert (finds (λ sh q, P sh q ∨ ∃ l, Subfields f = Some l ∧ leaf models l p sh q) acc1) as [Hne1 H1].
  { destruct (Subfields f) as [l|]; [|apply es_ret_ok in E1 as [<- _]; split; [done|naive_solver]].
    apply es_bind_ok in E1 as (sub & s2 & Eb & E1). apply es_ret_ok in E1 as [<- _]. destruct (Hbelow l _ _ _ eq_refl Eb) as [Hs Hsub].
    split; [by apply no_empty_merge|]. intros sh q. rewrite merge_of, Hacc, Hsub. naive_solver. }
  destruct (ModelRef_of f) as [r|]; [|apply es_ret_ok in E2 as [<- _]; split; [done|naive_solver]].
  apply es_bind_ok in E2 as (refs & s2 & Er & E2). apply es_ret_ok in E2 as [<- _]. destruct (Hres _ _ _ _ _ Er) as [Hs Hsub].
  split; [by apply no_empty_merge|]. intros sh q. rewrite merge_of, H1, Hsub. naive_solver.
Qed.

Lemma extract_below_finds guard resolve f path s paths s' l : resolves_to_leaves resolve → Subfields f = Some l →
  extract_below ctx guard resolve f path s = (inr paths, s') → finds (leaf models l path) paths.
Proof.
  intros Hres. revert path s paths s' l. induction f as [shape ref rel [l|] IH] using Field_ind'; intros path s paths s' l' El E; [|done].
  cbn in El. injection El as <-. simpl in E. apply es_bind_ok in E as (? & s1 & _ & E). apply es_bind_ok in E as (? & s2 & _ & E).
  apply es_bind_ok in E as (acc & s3 & E & E'). apply es_ret_ok in E' as [<- _].
  assert (finds (λ _ _, False) ∅) as H0 by (split; [done|unfold paths_of; set_solver]). revert E H0. generalize (∅ : Paths) at 1 2.
  assert (∀ k P acc0 s2, Forall (λ nf, nf ∈ l) k → finds P acc0 →
    gather (λ name f acc, extract_field resolve (extract_below ctx guard resolve) (join_path path name) f acc) k acc0 s2 = (inr acc, s3) →
    finds (λ sh q, P sh q ∨ ∃ name f, (name, f) ∈ k ∧ leaf_at models f (join_path path name) sh q) acc) as Hg.
  { clear s s1 s2 s'. intros k. induction k as [|[name f] k IHk]; intros P acc0 s2 Hk HP E; simpl in E.
    - apply es_ret_ok in E as [<- _]. destruct HP as [Hne HP]. split; [done|]. intros sh q. rewrite HP. set_solver.
    - apply es_bind_ok in E as (acc1 & s4 & E1 & E2). apply Forall_cons in Hk as [Hf Hk]. rewrite Forall_forall in IH.
      specialize (IH _ Hf). cbn in IH. eapply field_finds in E1; [|done| |exact HP].
      + destruct (IHk _ _ _ Hk E1 E2) as [Hne Hacc]. split; [done|]. intros sh q. rewrite Hacc. setoid_rewrite elem_of_cons. naive_solver.
      + intros l1 s5 a s6 Hl1 Ha. by eapply IH. }
  intros acc0 E H0. destruct (Hg l _ _ _ (proj2 (Forall_forall _ _) (λ _ Hin, Hin)) H0 E) as [Hne Hacc].
  split; [by apply no_empty_sort|]. intros sh q. rewrite sort_of, Hacc, leaf_fields. naive_solver.
Qed.

Lemma no_reference_finds : models = ∅ → resolves_to_leaves (λ _ _, mret ∅).
Proof.
  intros -> r p s a s' E. apply es_ret_ok in E as [<- _]. split; [done|]. intros sh q. unfold paths_of, lookup_ref. rewrite !lookup_empty.
  cbn. set_solver.
Qed.

Lemma resolve_finds below : (∀ l p s a s', below l p s = (inr a, s') → finds (leaf models l p) a) →
  resolves_to_leaves (resolveModelReference models below).
Proof.
  intros Hb r p s a s' E. unfold resolveModelReference in E. cbv zeta in E. apply es_bind_ok in E as (b & s1 & _ & E).
  destruct b; [done|]. unfold lookup_ref. destruct (models !! ref_Name r) as [m|]; [|done]. cbn.
  destruct (Versions m !! ref_Version r) as [l|]; [|done]. apply es_bind_ok in E as (? & s2 & _ & E).
  unfold deferred in E. destruct (below l p s2) as [[e|a'] s3] eqn:Eb; [done|]. injection E as <- _.
  apply Hb in Eb as [Hne Hl]. split; [done|]. intros sh q. rewrite Hl. naive_solver.
Qed.

Lemma with_references_finds room l p s paths s' :
  extractVirtualPathsWithReferences ctx models room l p s = (inr paths, s') → finds (leaf models l p) paths.
Proof.
  revert l p s paths s'. induction room as [|room IH]; intros l p s paths s' E.
  - unfold extractVirtualPathsWithReferences, extract in E. simpl in E. apply es_bind_ok in E as (? & s1 & _ & E).
    by apply es_bind_ok in E as (? & s2 & ? & E).
  - eapply (extract_below_finds _ _ (mkField "" None None (Some l))); [|done|exact E]. by apply resolve_finds.
Qed.
End extraction.

(** ** The shapes an extraction adds *)

Section additions.
Context {W : Type} `{World W}.
Context (models : gmap string DataModelsConfig) (ctx : Ctx).
Local Abbreviation TM := (ES (TState W)).
Implicit Types (s : TState W) (guard : string → TM ()) (resolve : ModelRef → string → TM Paths) (P Q : string → PayloadShape → Prop).

(** The shapes after a run: those of the leaves [P], and else those before. *)
Definition adds P s s' : Prop := ∀ sh,
  (∃ q r, sh = syntheticName q ∧ P q r ∧ payload_shapes s' !! sh = Some r) ∨
  ((∀ q r, P q r → sh ≠ syntheticName q) ∧ payload_shapes s' !! sh = payload_shapes s !! sh).

Lemma adds_same P s s' : (∀ q r, ¬ P q r) → payload_shapes s' = payload_shapes s → adds P s s'.
Proof. intros Hp E sh. right. rewrite E. split; [|done]. intros q r Hq. by apply Hp in Hq. Qed.
Lemma adds_iff P Q s s' : (∀ q r, P q r ↔ Q q r) → adds P s s' → adds Q s s'.
Proof. intros Hpq Ha sh. destruct (Ha sh) as [(q & r & ? & ? & ?)|[Hn ?]]; [left; exists q, r; naive_solver|right; naive_solver]. Qed.
Lemma adds_trans P Q s s1 s' : adds P s s1 → adds Q s1 s' → adds (λ q r, P q r ∨ Q q r) s s'.
Proof.
  intros H1 H2 sh. destruct (H2 sh) as [(q & r & ? & ? & ?)|[Hn2 E2]]; [left; naive_solver|].
  destruct (H1 sh) as [(q & r & ? & ? & ?)|[Hn1 E1]]; [left; exists q, r; rewrite E2; naive_solver|].
  right. rewrite E2. split; [|done]. intros q r [?|?]; [by eapply Hn1|by eapply Hn2].
Qed.
Lemma adds_put p r s s' a : put_shape (syntheticName p) r s = (inr a, s') → adds (λ q x, q = p ∧ x = r) s s'.
Proof.
  intros [= _ <-] sh. cbn. destruct (decide (sh = syntheticName p)) as [->|Hne].
  - left. exists p, r. by rewrite lookup_insert_eq.
  - right. rewrite lookup_insert_ne by done. split; [by intros q x [-> _]|done].
Qed.

Definition resolves_adds resolve : Prop := ∀ m p s a s',
  resolve m p s = (inr a, s') → adds (λ q r, ∃ l, lookup_ref models m = Some l ∧ declared models l p q r) s s'.

Lemma field_adds resolve below p f acc s acc' s' :
  resolves_adds resolve →
  (∀ l s a s', Subfields f = Some l → below f p s = (inr a, s') → adds (declared models l p) s s') →
  extract_field resolve below p f acc s = (inr acc', s') → adds (declared_at models f p) s s'.
Proof.
  intros Hres Hbelow E. unfold extract_field in E. unfold declared_at. case_bool_decide as Hs.
  { apply es_ret_ok in E as [_ <-]. apply adds_same; [naive_solver|done]. }
  assert (PayloadShape_of f = "") as Hs' by (destruct (decide (PayloadShape_of f = "")); tauto).
  destruct (Relational f) as [r|].
  { apply es_bind_ok in E as (? & s1 & E1 & E). apply es_ret_ok in E as [_ <-]. eapply adds_iff; [|by eapply adds_put]. naive_solver. }
  apply es_bind_ok in E as (acc1 & s1 & E1 & E2).
  apply (adds_iff (λ q r, (∃ l, Subfields f = Some l ∧ declared models l p q r) ∨
    (∃ m l, ModelRef_of f = Some m ∧ lookup_ref models m = Some l ∧ declared models l p q r))); [naive_solver|]. apply (adds_trans _ _ s s1).
  - destruct (Subfields f) as [l|]; [|apply es_ret_ok in E1 as [_ <-]; apply adds_same; [naive_solver|done]].
    apply es_bind_ok in E1 as (sub & s2 & Eb & E1). apply es_ret_ok in E1 as [_ <-]. eapply adds_iff; [|by eapply Hbelow]. naive_solver.
  - destruct (ModelRef_of f) as [m|]; [|apply es_ret_ok in E2 as [_ <-]; apply adds_same; [naive_solver|done]].
    apply es_bind_ok in E2 as (refs & s2 & Er & E2). apply es_ret_ok in E2 as [_ <-]. eapply adds_iff; [|by eapply Hres]. naive_solver.
Qed.

Lemma alive_adds s a s' : in_world (alive ctx) s = (inr a, s') → payload_shapes s' = payload_shapes s.
Proof. unfold in_world. destruct (alive ctx (t_world s)). by intros [= _ <-]. Qed.

Lemma extract_below_adds guard resolve f path s paths s' l :
  (∀ p s a s', guard p s = (inr a, s') → payload_shapes s' = payload_shapes s) → resolves_adds resolve → Subfields f = Some l →
  extract_below ctx guard resolve f path s = (inr paths, s') → adds (declared models l path) s s'.
Proof.
  intros Hg Hres. revert path s paths s' l. induction f as [shape ref rel [l|] IH] using Field_ind'; intros path s paths s' l' El E; [|done].
  cbn in El. injection El as <-. simpl in E. apply es_bind_ok in E as (? & s1 & E1 & E). apply es_bind_ok in E as (? & s2 & E2 & E).
  apply alive_adds in E1. apply Hg in E2. apply es_bind_ok in E as (acc & s3 & E & E'). apply es_ret_ok in E' as [_ <-].
  assert (∀ k acc0 s2, Forall (λ nf, nf ∈ l) k →
    gather (λ name f acc, extract_field resolve (extract_below ctx guard resolve) (join_path path name) f acc) k acc0 s2 = (inr acc, s3) →
    adds (λ q r, ∃ name f, (name, f) ∈ k ∧ declared_at models f (join_path path name) q r) s2 s3) as Hgo.
  { clear s s1 s2 E E1 E2. intros k. induction k as [|[name f] k IHk]; intros acc0 s2 Hk E; simpl in E.
    - apply es_ret_ok in E as [_ <-]. apply adds_same; [set_solver|done].
    - apply es_bind_ok in E as (acc1 & s4 & E1 & E2). apply Forall_cons in Hk as [Hf Hk]. rewrite Forall_forall in IH.
      specialize (IH _ Hf). cbn in IH. apply (field_adds resolve) in E1; [|done|intros; by eapply IH].
      eapply adds_iff; [|by eapply adds_trans, IHk]. intros q r. setoid_rewrite elem_of_cons. naive_solver. }
  apply Hgo in E; [|by apply Forall_forall]. eapply adds_iff; [|eapply adds_trans; [apply (adds_same (λ _ _, False) s s2); [tauto|congruence]|exact E]].
  intros q r. rewrite declared_fields. tauto.
Qed.

Lemma no_reference_adds : models = ∅ → resolves_adds (λ _ _, mret ∅).
Proof.
  intros Hm m p s a s' E. apply es_ret_ok in E as [_ <-]. apply adds_same; [|done]. intros q r (l & Hl & _).
  unfold lookup_ref in Hl. by rewrite Hm, lookup_empty in Hl.
Qed.

Lemma resolve_adds below : (∀ l p s a s', below l p s = (inr a, s') → adds (declared models l p) s s') →
  resolves_adds (resolveModelReference models below).
Proof.
  intros Hb m p s a s' E. unfold resolveModelReference in E. cbv zeta in E. apply es_bind_ok in E as (b & s1 & [= _ <-] & E).
  destruct b; [done|]. unfold lookup_ref. destruct (models !! ref_Name m) as [d|]; [|done]. cbn.
  destruct (Versions d !! ref_Version m) as [l|]; [|done]. apply es_bind_ok in E as (? & s2 & [= _ <-] & E).
  unfold deferred in E. destruct (below l p _) as [[e|a'] s3] eqn:Eb; [done|]. injection E as _ <-.
  apply Hb in Eb. apply (adds_iff (declared models l p)); [naive_solver|]. exact Eb.
Qed.

Lemma with_references_adds room l p s paths s' :
  extractVirtualPathsWithReferences ctx models room l p s = (inr paths, s') → adds (declared models l p) s s'.
Proof.
  assert (∀ room p s a s', depth_guard room p s = (inr a, s') → payload_shapes s' = payload_shapes s) as Hg.
  { intros k q s0 a s1. unfold depth_guard. case_bool_decide; [done|]. by intros [= _ <-]. }
  revert l p s paths s'. induction room as [|room IH]; intros l p s paths s' E.
  - unfold extractVirtualPathsWithReferences, extract in E. simpl in E. apply es_bind_ok in E as (? & s1 & _ & E).
    by apply es_bind_ok in E as (? & s2 & ? & E).
  - eapply (extract_below_adds _ _ (mkField "" None None (Some l))); [apply Hg| |done|exact E]. by apply resolve_adds.
Qed.

Lemma adds_config shapes dm w s' :
  adds (declared models dm "") (mkT shapes ∅ w) s' → ∀ sh sc, payload_shapes s' !! sh = Some sc → shape_config models shapes dm sh sc.
Proof.
  intros Ha sh sc E. destruct (Ha sh) as [(q & r & Hq & Hd & E')|[Hn E']]; [left; exists q; split; [done|]; congruence|right].
  split; [done|]. by rewrite <- E.
Qed.
End additions.
