(* ===== verification/TranslatorProperties.v ===== *)
(** * TranslatorProperties: which data models translate, and to what

    A translation that succeeds gives exactly the leaves of the model, and a
    valid model translates unless a chain of ten references starts in it or a
    shape it uses is unknown or of an unsupported type. *)

From S2P Require Import Prelude GoRuntime GoBytes StateMonad Documents DataModel DataModelFacts DataModelValidity Translator TranslatorFacts.
From stdpp Require Import sorting.
From Stdlib Require Import Ascii.
Local Open Scope nat_scope.

(** ** Extractions that succeed *)

Definition supported_type (t : string) : bool :=
  bool_decide (t = "number") || bool_decide (t = "string") || bool_decide (t = "boolean") || bool_decide (t = "integer").
Definition supported (ps : PayloadShape) : Prop := Forall (λ nf, supported_type (Type_of nf.2) = true) (Fields ps).

Lemma supported_generates ps : supported ps → ∃ v, generateFieldsSchema ps = inr v.
Proof.
  intros Hs. unfold generateFieldsSchema.
  assert (∀ l props req, Forall (λ nf : string * PayloadField, supported_type (Type_of nf.2) = true) l → ∃ r, convert_fields l props req = inr r) as Hc.
  { intros l. induction l as [|[n f] l IH]; intros props req Hl; [by eexists|]. apply Forall_cons in Hl as [Hf Hl]. cbn in *.
    unfold supported_type in Hf. unfold convertTypeToJSONSchema. repeat case_bool_decide; try done; by apply IH. }
  destruct (Hc _ ∅ [] Hs) as [[props req] ->]. by eexists.
Qed.

(** What the translation asks of a field beyond its validity. *)
Definition translatable_field (shapes : gmap string PayloadShape) (f : Field) : Prop :=
  (PayloadShape_of f ≠ "" → ∃ ps, shapes !! PayloadShape_of f = Some ps ∧ supported ps) ∧
  (∀ r, Relational f = Some r → supported r).
(** ... and of the fields of every structure that a model leads to. *)
Definition translatable (models : gmap string DataModelsConfig) (shapes : gmap string PayloadShape) (dm : Structure) : Prop :=
  ∀ k l n f, chain models k dm l → (n, f) ∈ fields_of l → translatable_field shapes f.

Section runs.
Context {W : Type} `{World W}.
Context (ctx : Ctx) (models : gmap string DataModelsConfig) (shapes : gmap string PayloadShape) (Hctx : never_ends ctx).
Local Abbreviation TM := (ES (TState W)).
Implicit Types (s : TState W) (guard : string → TM ()) (resolve : ModelRef → string → TM Paths).

(** The schema of a shape can be generated. *)
Definition ready s (sh : string) : Prop := ∃ ps, payload_shapes s !! sh = Some ps ∧ supported ps.
Definition based s : Prop := ∀ sh ps, shapes !! sh = Some ps → supported ps → ready s sh.
Definition covered (acc : Paths) s : Prop := ∀ sh, is_Some (acc !! sh) → ready s sh.
Definition extends s s' : Prop := visitedModels s' = visitedModels s ∧ ∀ sh, ready s sh → ready s' sh.
Definition done_well s (acc : Paths) s' : Prop := extends s s' ∧ covered acc s'.

Lemma extends_trans s1 s2 s3 : extends s1 s2 → extends s2 s3 → extends s1 s3.
Proof. intros [E1 H1] [E2 H2]. split; [by rewrite E2|auto]. Qed.
Lemma based_extends s s' : based s → extends s s' → based s'.
Proof. intros Hb [_ He] sh ps Hs Hsup. apply He. by eapply Hb. Qed.
Lemma covered_extends acc s s' : covered acc s → extends s s' → covered acc s'.
Proof. intros Hc [_ He] sh Hsh. auto. Qed.
Lemma covered_add acc sh p s : covered acc s → ready s sh → covered (add_path sh p acc) s.
Proof.
  intros Hc Hr sh'. unfold add_path. destruct (decide (sh' = sh)) as [->|Hne]; [done|]. rewrite lookup_insert_ne by done. apply Hc.
Qed.
Lemma covered_merge d d' s : covered d s → covered d' s → covered (mergePathsByShape d d') s.
Proof.
  intros Hd Hd' sh. unfold mergePathsByShape. rewrite lookup_union_with. specialize (Hd sh). specialize (Hd' sh).
  destruct (d !! sh), (d' !! sh); naive_solver.
Qed.
Lemma covered_sort acc s : covered acc s → covered (sort_paths acc) s.
Proof. intros Hc sh. unfold sort_paths. rewrite lookup_fmap, fmap_is_Some. apply Hc. Qed.

Lemma put_extends sh r s : supported r → extends s (mkT (<[sh := r]> (payload_shapes s)) (visitedModels s) (t_world s)) ∧
  ready (mkT (<[sh := r]> (payload_shapes s)) (visitedModels s) (t_world s)) sh.
Proof.
  intros Hr. split; [split; [done|]|exists r; cbn; by rewrite lookup_insert_eq]. intros sh' (ps & E & Hps). unfold ready. cbn.
  destruct (decide (sh = sh')) as [->|Hne]; [exists r; by rewrite lookup_insert_eq|exists ps; by rewrite lookup_insert_ne].
Qed.

Lemma field_runs resolve below p f acc s :
  translatable_field shapes f → based s → covered acc s →
  (∀ s1, Subfields f ≠ None → extends s s1 → succeeds (below f p) s1 (done_well s1)) →
  (∀ r s1, ModelRef_of f = Some r → extends s s1 → succeeds (resolve r p) s1 (done_well s1)) →
  succeeds (extract_field resolve below p f acc) s (done_well s).
Proof.
  intros [Hshape Hrel] Hb Hc Hbelow Hres. unfold extract_field. case_bool_decide as Hs.
  { destruct (Hshape Hs) as (ps & E & Hps). apply succeeds_ret. split; [done|]. apply covered_add; [done|]. by eapply Hb. }
  destruct (Relational f) as [r|].
  { destruct (put_extends (syntheticName p) r s (Hrel r eq_refl)) as [He Hr]. apply succeeds_bind. eexists _, _. split; [reflexivity|].
    apply succeeds_ret. split; [done|]. apply covered_add; [by eapply covered_extends|done]. }
  apply succeeds_bind. apply (succeeds_mono _ _ (done_well s)).
  { destruct (Subfields f) as [l|]; [|by apply succeeds_ret]. apply succeeds_bind. eapply succeeds_mono; [by apply Hbelow|].
    intros sub s1 [He Hsub]. apply succeeds_ret. split; [done|]. apply covered_merge; [by eapply covered_extends|done]. }
  intros acc1 s1 [He1 Hc1]. destruct (ModelRef_of f) as [r|]; [|by apply succeeds_ret].
  apply succeeds_bind. eapply succeeds_mono; [by apply Hres|]. intros refs s2 [He2 Hrefs]. apply succeeds_ret.
  split; [by eapply extends_trans|]. apply covered_merge; [by eapply covered_extends|done].
Qed.

Lemma alive_runs s : ∃ w, in_world (alive ctx) s = (inr tt, mkT (payload_shapes s) (visitedModels s) w).
Proof. unfold in_world, alive, ctx_Err. destruct (clock (t_world s)) as [t w]. rewrite Hctx. by exists w. Qed.

Lemma extract_below_runs guard resolve f path s :
  (∀ p s, guard p s = (inr tt, s)) → based s →
  (∀ n x, (n, x) ∈ fields_below f → translatable_field shapes x ∧
    ∀ r p s1, ModelRef_of x = Some r → extends s s1 → succeeds (resolve r p) s1 (done_well s1)) →
  succeeds (extract_below ctx guard resolve f path) s (done_well s).
Proof.
  intros Hg. revert path s. induction f as [shape ref rel [l|] IH] using Field_ind'; intros path s Hb Hf; simpl.
  2:{ apply succeeds_ret. split; [done|]. by intros sh [? ?]. }
  apply succeeds_bind. destruct (alive_runs s) as [w Ew]. eexists _, _. split; [exact Ew|]. apply succeeds_bind.
  eexists _, _. split; [apply Hg|]. set (s0 := mkT _ _ w). assert (He0 : extends s s0) by done.
  apply succeeds_bind. enough (succeeds (gather (λ name f acc, extract_field resolve (extract_below ctx guard resolve) (join_path path name) f acc) l ∅) s0
    (done_well s0)) as Hgo.
  { eapply succeeds_mono; [exact Hgo|]. intros acc s1 [He Hc]. apply succeeds_ret. split; [by eapply extends_trans|by apply covered_sort]. }
  assert (Hc0 : covered ∅ s0) by (by intros sh [? ?]). assert (Hb0 : based s0) by (by eapply based_extends).
  clearbody s0. revert s0 He0 Hc0 Hb0. generalize (∅ : Paths).
  induction IH as [|[name f] l Hfield _ IHl]; intros acc s0 He0 Hc0 Hb0; simpl; [by apply succeeds_ret|].
  apply succeeds_bind. destruct (Hf name f) as [Htr Href]; [by left|]. eapply succeeds_mono.
  - apply field_runs; [done..| |].
    + intros s1 _ He1. apply Hfield; [by eapply based_extends|]. intros n x Hin. destruct (Hf n x) as [Ht Hr]; [simpl; set_solver|].
      split; [done|]. intros r p s2 Er He2. apply Hr; [done|]. eapply extends_trans; [|exact He2]. by eapply extends_trans.
    + intros r s1 Er He1. apply Href; [done|]. by eapply extends_trans.
  - intros acc1 s1 [He1 Hc1]. eapply succeeds_mono; [apply IHl|].
    + intros n x Hin. apply (Hf n). simpl. set_solver.
    + by eapply extends_trans.
    + done.
    + by eapply based_extends.
    + intros acc2 s2 [He2 Hc2]. split; [by eapply extends_trans|done].
Qed.

Lemma deferred_ok {A} (c : TState W → TState W) (m : TM A) s a s' : m s = (inr a, s') → deferred c m s = (inr a, c s').
Proof. unfold deferred. by intros ->. Qed.

(** The references a structure is inside of lead to it. *)
Definition leads_here (V : gset string) (l : Structure) : Prop :=
  ∀ r l', lookup_ref models r = Some l' → reference_key r ∈ V → ∃ k, chain models k l' l.

Lemma references_run room l p s :
  plain_versions models → resolves models room l → translatable models shapes l → based s → leads_here (visitedModels s) l →
  succeeds (extractVirtualPathsWithReferences ctx models (S room) l p) s (done_well s).
Proof.
  intros Hp. revert l p s. induction room as [|room IH]; intros l p s Hl Ht Hb HV; apply extract_below_runs; [done..| |done|done|];
    intros n f Hin; (split; [by eapply (Ht 0); [constructor|]|]); intros r q s1 Er [HeV He].
  { by destruct (Hl r ltac:(by exists n, f)). }
  assert (Hr : refers l r) by (by exists n, f). destruct (Hl r Hr) as (l' & Hl' & Hres).
  assert (Hstep : chain models 1 l l') by (econstructor; [done..|constructor]).
  assert (Hk : reference_key r ∉ visitedModels s1).
  { rewrite HeV. intros Hin'. destruct (HV r l' Hl' Hin') as [k Hch]. eapply (resolves_acyclic models k); [exact Hres|].
    replace (S k) with (k + 1) by lia. by eapply chain_app. }
  unfold resolveModelReference. cbv zeta. apply succeeds_bind. eexists _, _. split; [reflexivity|]. rewrite bool_decide_false by done.
  assert (Hl2 := Hl'). unfold lookup_ref in Hl2. apply bind_Some in Hl2 as (m & -> & ->). apply succeeds_bind. eexists _, _. split; [reflexivity|].
  destruct (IH l' q (mkT (payload_shapes s1) ({[reference_key r]} ∪ visitedModels s1) (t_world s1))) as (a & s2 & E & [HV2 He2] & Hc2); [done| | | |].
  - intros k l0 n0 f0 Hc0. apply (Ht (1 + k)). by eapply chain_app.
  - exact (based_extends s s1 Hb (conj HeV He)).
  - intros r0 l0 Hr0. cbn [visitedModels]. rewrite elem_of_union, elem_of_singleton, HeV. intros [Hkk|Hin'].
    + assert (r0 = r) as -> by (by eapply key_inj). rewrite Hl' in Hr0. simplify_eq. exists 0. constructor.
    + destruct (HV r0 l0 Hr0 Hin') as [k Hch]. exists (k + 1). by eapply chain_app.
  - exists a, (leave_model (reference_key r) s2). split; [apply deferred_ok; exact E|]. split; [|exact Hc2].
    split; [|exact He2]. unfold leave_model. cbn [visitedModels]. rewrite HV2. cbn [visitedModels]. set_solver.
Qed.
End runs.

(** ** The translation *)

Lemma subject_inj contract version sh sh' :
  generateSubjectName contract version sh = generateSubjectName contract version sh' → sh = sh'.
Proof.
  unfold generateSubjectName. cbv zeta. intros E. do 2 case_match; repeat (apply (inj (String.append _)) in E); done.
Qed.

Lemma ensure_shape_same name t m : is_Some (m !! name) → ensure_shape name t m = m.
Proof. unfold ensure_shape. by intros [? ->]. Qed.
Lemma ensure_shape_lookup name t m sh : is_Some (m !! sh) → is_Some (ensure_shape name t m !! sh).
Proof. unfold ensure_shape. case_match; [done|]. intros Hm. destruct (decide (name = sh)) as [->|]; [by rewrite lookup_insert_eq|by rewrite lookup_insert_ne]. Qed.
Lemma ensure_shape_has name t m : is_Some (ensure_shape name t m !! name).
Proof. unfold ensure_shape. destruct (m !! name) eqn:E; [by rewrite E|by rewrite lookup_insert_eq]. Qed.
Lemma ensure_twice m : ensureDefaultPayloadShapes (ensureDefaultPayloadShapes m) = ensureDefaultPayloadShapes m.
Proof.
  unfold ensureDefaultPayloadShapes at 1. assert (∀ n, n ∈ ["timeseries-number"; "timeseries-string"; "timeseries-boolean"] →
    is_Some (ensureDefaultPayloadShapes m !! n)) as Hd.
  { unfold ensureDefaultPayloadShapes. intros n Hn. repeat (apply elem_of_cons in Hn as [->|Hn]; [eauto using ensure_shape_lookup, ensure_shape_has|]). set_solver. }
  rewrite (ensure_shape_same "timeseries-number") by (apply Hd; set_solver).
  rewrite (ensure_shape_same "timeseries-string") by (apply Hd; set_solver). apply ensure_shape_same, Hd. set_solver.
Qed.

Section translation.
Context {W : Type} `{World W} (range : Paths → list (string * list string)) (range_perm : ∀ m, range m ≡ₚ map_to_list m).

(** The schemas of a list of shapes with their paths. *)
Definition schema_from (shapes : gmap string PayloadShape) (contract version : string) (l : list (string * list string)) (subject : string) (schema : Value) : Prop :=
  ∃ sh paths sc fields, (sh, paths) ∈ l ∧ subject = generateSubjectName contract version sh ∧
    shapes !! sh = Some sc ∧ generateFieldsSchema sc = inr fields ∧ schema = schema_of paths fields.

Lemma generate_schemas_exact ctx contract version shapes l acc w schemas w' :
  NoDup l.*1 → (∀ sh, sh ∈ l.*1 → acc !! generateSubjectName contract version sh = None) →
  generate_schemas ctx contract version shapes l acc w = (inr schemas, w') →
  ∀ subject schema, schemas !! subject = Some schema ↔ acc !! subject = Some schema ∨ schema_from shapes contract version l subject schema.
Proof.
  unfold schema_from. revert acc w. induction l as [|[sh paths] l IH]; intros acc w Hnd Hacc E; simpl in E.
  { apply es_ret_ok in E as [<- _]. set_solver. }
  apply es_bind_ok in E as (? & w1 & _ & E). destruct (shapes !! sh) as [sc|] eqn:Esc; [|by inversion E].
  apply es_bind_ok in E as (schema & w2 & E1 & E). unfold wrapped, generateJSONSchema in E1.
  destruct (generateFieldsSchema sc) as [e|fields] eqn:Ef; [by destruct (alive ctx w1) as [[]] eqn:Ea; unfold mbind, ES_bind in E1; rewrite Ea in E1|].
  assert (schema = schema_of paths fields) as ->.
  { unfold mbind, ES_bind in E1. destruct (alive ctx w1) as [[]]; [done|]. by injection E1. }
  rewrite fmap_cons in Hnd, Hacc. apply NoDup_cons in Hnd as [Hsh Hnd]. intros subject schema. etrans; [eapply IH; [exact Hnd| |exact E]|].
  { intros sh' Hin. rewrite lookup_insert_ne; [apply Hacc; by right|]. intros Es%subject_inj. by subst. }
  rewrite lookup_insert_Some. setoid_rewrite elem_of_cons. specialize (Hacc sh ltac:(by left)). split.
  - intros [[[<- <-]|[_ ?]]|(sh' & ?)]; [right; naive_solver|by left|right; exists sh'; naive_solver].
  - intros [Hs|(sh' & ps & sc' & fs & [[= -> ->]|Hin] & -> & Hsc & Hfs & ->)]; [left; right|left; left|right; naive_solver].
    + split; [|done]. intros Es. rewrite Es in Hacc. congruence.
    + split; [done|]. congruence.
Qed.

Lemma generate_schemas_runs ctx contract version shapes l acc w : never_ends ctx →
  (∀ sh paths, (sh, paths) ∈ l → ∃ sc, shapes !! sh = Some sc ∧ supported sc) →
  ∃ schemas w', generate_schemas (W := W) ctx contract version shapes l acc w = (inr schemas, w').
Proof.
  intros Hc. revert acc w. induction l as [|[sh paths] l IH]; intros acc w Hl; [by eexists _, _|]. simpl.
  assert (∀ w, ∃ w', alive ctx w = (inr tt, w')) as Ha.
  { intros w0. unfold alive, ctx_Err. destruct (clock w0) as [t w1]. rewrite Hc. by eexists. }
  destruct (Ha w) as [w1 E1]. unfold mbind at 1, ES_bind at 1. rewrite E1. destruct (Hl sh paths) as (sc & -> & Hsc); [by left|].
  destruct (supported_generates sc Hsc) as [fields Ef]. unfold wrapped, generateJSONSchema. rewrite Ef.
  destruct (Ha w1) as [w2 E2]. unfold mbind, ES_bind. rewrite E2. apply IH. intros sh' ps' Hin. eapply Hl. by right.
Qed.

Lemma generate_schemas_all ctx contract version shapes l acc w schemas w' :
  generate_schemas (W := W) ctx contract version shapes l acc w = (inr schemas, w') →
  ∀ sh paths, (sh, paths) ∈ l → ∃ sc fields, shapes !! sh = Some sc ∧ generateFieldsSchema sc = inr fields.
Proof.
  revert acc w. induction l as [|[sh paths] l IH]; intros acc w E; simpl in E; [set_solver|].
  apply es_bind_ok in E as (? & w1 & _ & E). destruct (shapes !! sh) as [sc|] eqn:Esc; [|by inversion E].
  apply es_bind_ok in E as (schema & w2 & E1 & E). intros sh' ps' [[= -> ->]|Hin]%elem_of_cons; [|by eapply IH].
  exists sc. unfold wrapped, generateJSONSchema, mbind, ES_bind in E1. destruct (generateFieldsSchema sc); [|by eexists].
  by destruct (alive ctx w1) as [[]].
Qed.

Lemma extract_sorted ctx guard resolve l p (s : TState W) paths s' :
  extract ctx guard resolve l p s = (inr paths, s') → ∃ acc, paths = sort_paths acc.
Proof.
  unfold extract. simpl. intros E. apply es_bind_ok in E as (? & ? & _ & E). apply es_bind_ok in E as (? & ? & _ & E).
  apply es_bind_ok in E as (acc & ? & _ & E). apply es_ret_ok in E as [<- _]. by eexists.
Qed.

(** The paths of a model and the shapes after their extraction, with and
    without references. *)
Definition virtual_paths ctx models shapes dm : ES W (Paths * gmap string PayloadShape) :=
  if bool_decide (models ≠ ∅) then
    _ ← validated "data model reference validation failed: " (ValidateWithReferences ctx dm models shapes);
    extracted "failed to resolve virtual paths with references: " shapes (extractVirtualPathsWithReferences ctx models max_depth dm "")
  else
    _ ← validated "data model validation failed: " (ValidateStructureOnly ctx dm);
    extracted "failed to extract virtual paths: " shapes (extractVirtualPaths ctx dm "").

Lemma virtual_paths_exact ctx models shapes dm w paths shapes' w' :
  virtual_paths ctx models shapes dm w = (inr (paths, shapes'), w') →
  finds (leaf models dm "") paths ∧ (∀ sh l, paths !! sh = Some l → Sorted string_le l) ∧
  (∀ sh sc, shapes' !! sh = Some sc → shape_config models shapes dm sh sc).
Proof.
  assert (∀ prefix (m : ES (TState W) Paths) w, extracted prefix shapes m w = (inr (paths, shapes'), w') →
    ∃ s', m (mkT shapes ∅ w) = (inr paths, s') ∧ payload_shapes s' = shapes') as Hx.
  { intros prefix m w0 E. unfold extracted in E. destruct (m _) as [[e|a] s1]; [done|]. injection E as -> <- _. by exists s1. }
  unfold virtual_paths. case_bool_decide as Hm; intros E; apply es_bind_ok in E as (? & w1 & _ & E); apply Hx in E as (s' & E & <-).
  - split; [by eapply with_references_finds|]. apply with_references_adds in E as Ha. split; [|by eapply adds_config].
    apply extract_sorted in E as [acc ->]. intros sh l. apply sort_sorted.
  - assert (models = ∅) as Hm' by (destruct (decide (models = ∅)); tauto). split; [|split].
    + eapply (extract_below_finds models ctx _ _ (mkField "" None None (Some dm))); [|done|exact E]. by apply no_reference_finds.
    + apply extract_sorted in E as [acc ->]. intros sh l. apply sort_sorted.
    + eapply adds_config, (extract_below_adds models ctx _ _ (mkField "" None None (Some dm))); [|by apply no_reference_adds|done|exact E].
      intros p s a s1 Hg. by apply es_ret_ok in Hg as [_ <-].
Qed.

Lemma virtual_paths_run ctx models shapes dm w :
  never_ends ctx → plain_versions models → valid_model models shapes dm → resolves models 9 dm →
  translatable models (ensureDefaultPayloadShapes shapes) dm →
  ∃ paths shapes' w', virtual_paths ctx models (ensureDefaultPayloadShapes shapes) dm w = (inr (paths, shapes'), w') ∧
    ∀ sh, is_Some (paths !! sh) → ∃ sc, shapes' !! sh = Some sc ∧ supported sc.
Proof.
  intros Hc Hp Hv Hr Ht. set (e := ensureDefaultPayloadShapes shapes) in *.
  assert (∀ prefix (m : ES (TState W) Paths) w, succeeds m (mkT e ∅ w) (done_well (mkT e ∅ w)) → ∃ paths shapes' w',
    extracted prefix e m w = (inr (paths, shapes'), w') ∧ ∀ sh, is_Some (paths !! sh) → ∃ sc, shapes' !! sh = Some sc ∧ supported sc) as Hx.
  { intros prefix m w0 (a & s & E & _ & Hcov). unfold extracted. rewrite E. by eexists _, _, _. }
  assert (∀ prefix (m : St W (option GoErr)), (m w).1 = None → ∃ w1, validated prefix m w = (inr tt, w1)) as Hval.
  { intros prefix m Hm. unfold validated. destruct (m w) as [o w1]. cbn in Hm. subst o. by eexists. }
  assert (Hb : ∀ w, based e (mkT e ∅ w : TState W)) by (intros w0 sh ps Hsh Hsup; by exists ps).
  unfold virtual_paths. case_bool_decide as Hm; unfold mbind, ES_bind.
  - destruct (Hval "data model reference validation failed: " (ValidateWithReferences ctx dm models e)) as [w1 ->].
    { apply valid_accepted; [done..|]. destruct Hv as [? Hs ?]. split; [done| |done]. unfold e. by rewrite ensure_twice. }
    apply Hx. apply references_run with (shapes := e); [done..|]. intros r l _. set_solver.
  - destruct (Hval "data model validation failed: " (ValidateStructureOnly ctx dm)) as [w1 ->].
    { apply structure_valid; [done|]. by destruct Hv. }
    apply Hx. apply extract_below_runs with (shapes := e); [done..|]. intros n f Hin.
    split; [by eapply (Ht 0); [constructor|]|]. intros. apply succeeds_ret. split; [done|by intros sh [? ?]].
Qed.

(** C27: A translation that succeeds has grouped exactly the leaves of the model
    and of the models it refers to, sorted within each payload shape, and holds
    one schema per shape in use and no other: under the subject of that shape,
    made of its paths and of the fields of the shape as a relational leaf of
    that name declares them or else as the configuration (or a default) does;
    whatever the order of the maps and whatever the context did. *)
Theorem translation_is_exact ctx contract version dm shapes models w res w' :
  TranslateDataModel range ctx contract version dm shapes models w = (inr res, w') →
  (∀ sh q, q ∈ paths_of (PayloadShapeUsage res) sh ↔ leaf models dm "" sh q) ∧
  (∀ sh l, PayloadShapeUsage res !! sh = Some l → l ≠ [] ∧ Sorted string_le l) ∧
  (∀ sh l, PayloadShapeUsage res !! sh = Some l → ∃ sc fields,
     shape_config models (ensureDefaultPayloadShapes shapes) dm sh sc ∧ generateFieldsSchema sc = inr fields ∧
     Schemas res !! generateSubjectName contract version sh = Some (schema_of l fields)) ∧
  (∀ subject schema, Schemas res !! subject = Some schema → ∃ sh l,
     PayloadShapeUsage res !! sh = Some l ∧ subject = generateSubjectName contract version sh).
Proof.
  intros E. unfold TranslateDataModel in E. apply es_bind_ok in E as (? & w1 & _ & E). cbv zeta in E.
  apply es_bind_ok in E as ([paths shapes'] & w2 & E1 & E). apply es_bind_ok in E as (schemas & w3 & E2 & E). apply es_ret_ok in E as [<- _].
  apply (virtual_paths_exact ctx models) in E1 as ([Hne Hleaf] & Hsorted & Hshapes). cbn.
  pose proof (generate_schemas_all _ _ _ _ _ _ _ _ _ E2) as Hall.
  assert (Hex : ∀ subject schema, schemas !! subject = Some schema ↔ (∅ : gmap string Value) !! subject = Some schema ∨
    schema_from shapes' contract version (range paths) subject schema).
  { eapply generate_schemas_exact; [rewrite range_perm; apply NoDup_fst_map_to_list|done|exact E2]. }
  assert (Hin : ∀ sh l, (sh, l) ∈ range paths ↔ paths !! sh = Some l) by (intros; by rewrite range_perm, elem_of_map_to_list).
  split; [done|]. split; [intros sh l Hl; split; [intros ->; by apply Hne in Hl|by eapply Hsorted]|]. split.
  - intros sh l Hl. apply Hin in Hl as Hl'. destruct (Hall _ _ Hl') as (sc & fields & Hsc & Hf). exists sc, fields.
    split; [by apply Hshapes|]. split; [done|]. apply Hex. right. by exists sh, l, sc, fields.
  - intros subject schema [?|(sh & l & sc & fields & Hl & -> & _)]%Hex; [done|]. exists sh, l. by rewrite <- Hin.
Qed.

(** A valid model translates when no chain of ten references starts in it
    and the shapes its structures use, also those of the models it refers to,
    are known and of supported types, unless the context ends. *)
Theorem valid_models_translate ctx contract version dm shapes models w :
  never_ends ctx → plain_versions models → valid_model models shapes dm → resolves models 9 dm →
  translatable models (ensureDefaultPayloadShapes shapes) dm →
  ∃ res w', TranslateDataModel range ctx contract version dm shapes models w = (inr res, w').
Proof.
  intros Hc Hp Hv Hr Ht. unfold TranslateDataModel, alive, ctx_Err, mbind at 1, ES_bind at 1. destruct (clock w) as [t w1]. rewrite Hc. cbv zeta.
  destruct (virtual_paths_run ctx models shapes dm w1) as (paths & shapes' & w2 & E & Hcov); [done..|]. unfold virtual_paths in E.
  unfold mbind at 1, ES_bind at 1. rewrite E.
  destruct (generate_schemas_runs ctx contract version shapes' (range paths) ∅ w2) as (schemas & w3 & E3); [done| |].
  { intros sh l. rewrite range_perm, elem_of_map_to_list. intros Hl. apply Hcov. by eexists. }
  unfold mbind, ES_bind. rewrite E3. by eexists _, _.
Qed.
End translation.

(** ** Examples *)

Lemma map_to_list_perm (m : Paths) : map_to_list m ≡ₚ map_to_list m.
Proof. done. Qed.

Definition demo_translation := TranslateDataModel map_to_list Background "_pump" "v1" demo_model ∅ demo_models 0%Z.

Lemma translation_is_exact_witness : ∃ res, demo_translation.1 = inr res ∧
  paths_of (PayloadShapeUsage res) "timeseries-number" = ["motor.left.value"; "motor.right.value"; "motor.speed"] ∧
  GetAllSubjectNames res = ["_pump_v1-__relational_plate__"; "_pump_v1-timeseries-number"] ∧
  ∀ sh q, q ∈ paths_of (PayloadShapeUsage res) sh ↔ leaf demo_models demo_model "" sh q.
Proof.
  destruct demo_translation as [[e|res] w'] eqn:E; [vm_compute in E; discriminate|]. exists res. split; [reflexivity|].
  pose proof (translation_is_exact (W := Z) map_to_list map_to_list_perm Background "_pump" "v1" demo_model ∅ demo_models 0%Z res w' E) as [Hleaf _]. vm_compute in E. injection E as <- _.
  split; [reflexivity|]. split; [reflexivity|]. exact Hleaf.
Defined.

(** A model that refers to a chain of [n - 1] others. *)
Fixpoint link (k : nat) : string := match k with O => "m" | S k => "m" +:+ link k end.
Definition chain_models (n : nat) : gmap string DataModelsConfig :=
  list_to_map ((λ k, (link k, mkModels {["v1" := if bool_decide (k < n) then [("next", demo_ref (link (S k)) "v1")] else [("value", demo_leaf)]]} (link k) "")) <$> seq 1 n).
Definition chain_head : Structure := [("next", demo_ref (link 1) "v1")].

(** Ten references pass the validation and fail the translation. *)
Example ten_references_do_not_translate :
  (ValidateWithReferences Background chain_head (chain_models 10) ∅ 0%Z).1 = None ∧
  (TranslateDataModel map_to_list Background "_chain" "v1" chain_head ∅ (chain_models 10) 0%Z).1 =
    inl (EWrap "failed to resolve virtual paths with references: "
      (ENew "reference resolution depth limit exceeded at path 'next.next.next.next.next.next.next.next.next.next'")) ∧
  ∃ res, (TranslateDataModel map_to_list Background "_chain" "v1" chain_head ∅ (chain_models 9) 0%Z).1 = inr res.
Proof. vm_compute. repeat split; try reflexivity. by eexists. Qed.

(** The shapes of the models referred to are not validated. *)
Definition unknown_shape_models : gmap string DataModelsConfig :=
  {["sensor" := mkModels {["v1" := [("value", mkField "timeseries-nubmer" None None None)]]} "sensor" ""]}.
Example unknown_shape_of_a_reference_passes :
  (ValidateWithReferences Background [("s", demo_ref "sensor" "v1")] unknown_shape_models ∅ 0%Z).1 = None ∧
  (TranslateDataModel map_to_list Background "_s" "v1" [("s", demo_ref "sensor" "v1")] ∅ unknown_shape_models 0%Z).1 =
    inl (ENew "payload shape 'timeseries-nubmer' not found in configuration").
Proof. vm_compute. split; reflexivity. Qed.

(** A name that merely contains the letters of a version prefix is taken for a
    name with a version: two versions share their subjects. *)
Example subject_without_version sh :
  generateSubjectName "_pump_vibration" "v1" sh = generateSubjectName "_pump_vibration" "v2" sh.
Proof. reflexivity. Qed.


(** The structures a model leads to, given as a list. *)
Lemma translatable_closed models shapes (ls : list Structure) dm : dm ∈ ls →
  Forall (λ l, Forall (λ nf, translatable_field shapes nf.2 ∧
    ∀ r, ModelRef_of nf.2 = Some r → match lookup_ref models r with Some l' => l' ∈ ls | None => True end) (fields_of l)) ls →
  translatable models shapes dm.
Proof.
  intros Hdm Hls k l n f Hc. revert Hdm. induction Hc as [l|k l r l1 l2 (n1 & f1 & Hin & Er) Hl1 Hc IH]; intros Hl Hf;
    rewrite Forall_forall in Hls; specialize (Hls l Hl); rewrite Forall_forall in Hls.
  - by apply (Hls (n, f)).
  - apply IH; [|done]. destruct (Hls _ Hin) as [_ Href]. specialize (Href r Er). by rewrite Hl1 in Href.
Qed.

Lemma demo_leaf_translatable : translatable_field (ensureDefaultPayloadShapes ∅) demo_leaf.
Proof. split; [|done]. intros _. eexists. split; [vm_compute; reflexivity|]. by repeat constructor. Qed.
Lemma demo_translatable : translatable demo_models (ensureDefaultPayloadShapes ∅) demo_model.
Proof.
  apply (translatable_closed _ _ [demo_model; [("value", demo_leaf)]]); [by left|].
  assert (∀ r, ModelRef_of (demo_ref "sensor" "v1") = Some r →
    match lookup_ref demo_models r with Some l' => l' ∈ [demo_model; [("value", demo_leaf)]] | None => True end) as Href.
  { intros r [= <-]. by right; left. }
  apply Forall_forall. intros l Hl. apply Forall_forall. intros nf Hnf.
  apply elem_of_cons in Hl as [->|[->|[]%elem_of_nil]%elem_of_cons].
  - do 5 (apply elem_of_cons in Hnf as [->|Hnf]; [split; [first [exact demo_leaf_translatable|split; [done|]; intros r [= <-]; by repeat constructor]|try done]|]).
    by apply elem_of_nil in Hnf.
  - apply elem_of_cons in Hnf as [->|[]%elem_of_nil]. by split; [exact demo_leaf_translatable|].
Qed.

Lemma valid_models_translate_witness : ∃ res w', demo_translation = (inr res, w').
Proof.
  apply (valid_models_translate (W := Z) map_to_list map_to_list_perm Background "_pump" "v1" demo_model ∅ demo_models 0%Z).
  - exact demo_never_ends.
  - exact demo_versions.
  - apply (accepted_valid Background _ _ _ 0%Z). vm_compute. reflexivity.
  - apply (references_silent Background demo_models 9 demo_model "" (mkV [] ∅ 0%Z)). vm_compute. reflexivity.
  - exact demo_translatable.
Defined.
