(* ===== verification/SchemaRegistry.v ===== *)
(** * SchemaRegistry: the reconciliation of the schema registry

    Models [pkg/service/redpanda/schema_registry.go]: a cycle of five phases
    that reads the subjects of a registry over HTTP, compares them with the
    subjects that the data contracts translate to, deletes the unknown ones and
    adds the missing ones, and which an error suspends until the next call.

    The HTTP client, the registry behind it and the texts of decoding errors
    are the class [HTTP]; a JSON text is represented by the value it stands for
    ([None] for bytes that are no JSON text).  The order in which [range] takes
    the entries of a map is the world's. *)

From S2P Require Import Prelude Float64 GoRuntime GoBytes StateMonad FSMManager Documents DataModel DataModelFacts Translator.
From Stdlib Require Import Ascii.
Local Open Scope Z_scope.

(** ** HTTP *)

Inductive Method := GET | DELETE | POST.
Record Request := mkRequest { req_Method : Method; req_URL : string; req_Body : option Value }.

(** What [io.ReadAll] gives for a body. *)
Inductive Body := ReadFails (err : GoErr) | BodyText (json : option Value).
Record Response := mkResponse { StatusCode : Z; resp_Body : Body }.

Class HTTP (W : Type) := {
  http_NewRequest : string → option GoErr;
  http_Do : Ctx → Request → W → (GoErr + option Response) * W;
  json_Unmarshal_error : option Value → GoErr;
  sprintf_s : Value → string;
}.

(** ** The data of the registry *)

Inductive SchemaRegistryPhase :=
  | SchemaRegistryPhaseLookup | SchemaRegistryPhaseDecode | SchemaRegistryPhaseCompare
  | SchemaRegistryPhaseRemoveUnknown | SchemaRegistryPhaseAddNew.
#[export] Instance phase_eq_dec : EqDecision SchemaRegistryPhase.
Proof. solve_decision. Defined.

Definition Millis (n : Z) : Z := n * Millisecond.
Definition MinimumLookupTime : Z := Millis 25.
Definition MinimumDecodeTime : Z := Millis 5.
Definition MinimumCompareTime : Z := Millis 5.
Definition MinimumRemoveTime : Z := Millis 30.
Definition MinimumAddTime : Z := Millis 35.

(** The HTTP client and the buffer of the URL builder are left out; the base
    of the URLs is the address. *)
Record SchemaRegistry := mkRegistry {
  lastOperationTime : option Z;
  missingInRegistry : gmap string Value;
  inRegistryButUnknownLocally : gset string;
  skipPrefixes : list string;
  currentPhase : SchemaRegistryPhase;
  currentOperationSubject : string;
  lastError : string;
  schemaRegistryAddress : string;
  rawSubjectsData : option Value;
  registrySubjects : list string;
  totalReconciliations : Z;
  successfulOperations : Z;
  failedOperations : Z;
}.

Definition DefaultSchemaRegistryAddress : string := "http://localhost:8081".
Definition NewSchemaRegistry (address : string) : SchemaRegistry :=
  mkRegistry None ∅ ∅ [] SchemaRegistryPhaseLookup "" "" address None [] 0 0 0.

Definition set_phase p r := mkRegistry (lastOperationTime r) (missingInRegistry r) (inRegistryButUnknownLocally r) (skipPrefixes r)
  p (currentOperationSubject r) (lastError r) (schemaRegistryAddress r) (rawSubjectsData r) (registrySubjects r)
  (totalReconciliations r) (successfulOperations r) (failedOperations r).
Definition set_subject s r := mkRegistry (lastOperationTime r) (missingInRegistry r) (inRegistryButUnknownLocally r) (skipPrefixes r)
  (currentPhase r) s (lastError r) (schemaRegistryAddress r) (rawSubjectsData r) (registrySubjects r)
  (totalReconciliations r) (successfulOperations r) (failedOperations r).
Definition set_raw v r := mkRegistry (lastOperationTime r) (missingInRegistry r) (inRegistryButUnknownLocally r) (skipPrefixes r)
  (currentPhase r) (currentOperationSubject r) (lastError r) (schemaRegistryAddress r) v (registrySubjects r)
  (totalReconciliations r) (successfulOperations r) (failedOperations r).
Definition set_subjects l r := mkRegistry (lastOperationTime r) (missingInRegistry r) (inRegistryButUnknownLocally r) (skipPrefixes r)
  (currentPhase r) (currentOperationSubject r) (lastError r) (schemaRegistryAddress r) (rawSubjectsData r) l
  (totalReconciliations r) (successfulOperations r) (failedOperations r).
Definition set_queues m u r := mkRegistry (lastOperationTime r) m u (skipPrefixes r)
  (currentPhase r) (currentOperationSubject r) (lastError r) (schemaRegistryAddress r) (rawSubjectsData r) (registrySubjects r)
  (totalReconciliations r) (successfulOperations r) (failedOperations r).
Definition set_skipPrefixes l r := mkRegistry (lastOperationTime r) (missingInRegistry r) (inRegistryButUnknownLocally r) l
  (currentPhase r) (currentOperationSubject r) (lastError r) (schemaRegistryAddress r) (rawSubjectsData r) (registrySubjects r)
  (totalReconciliations r) (successfulOperations r) (failedOperations r).
Definition begin_call r := mkRegistry (lastOperationTime r) (missingInRegistry r) (inRegistryButUnknownLocally r) (skipPrefixes r)
  (currentPhase r) (currentOperationSubject r) (lastError r) (schemaRegistryAddress r) (rawSubjectsData r) (registrySubjects r)
  (wrap_i64 (totalReconciliations r + 1)) (successfulOperations r) (failedOperations r).
(** The bookkeeping at the end of a call. *)
Definition end_call (err : option GoErr) (now : Z) r := mkRegistry (Some now) (missingInRegistry r) (inRegistryButUnknownLocally r) (skipPrefixes r)
  (currentPhase r) (currentOperationSubject r) (match err with Some e => Error e | None => "" end) (schemaRegistryAddress r)
  (rawSubjectsData r) (registrySubjects r) (totalReconciliations r)
  (match err with Some _ => successfulOperations r | None => wrap_i64 (successfulOperations r + 1) end)
  (match err with Some _ => wrap_i64 (failedOperations r + 1) | None => failedOperations r end).

Definition subjectsURL (r : SchemaRegistry) : string := schemaRegistryAddress r +:+ "/subjects".
Definition subjectURL (r : SchemaRegistry) (subject : string) : string := schemaRegistryAddress r +:+ "/subjects/" +:+ subject.
Definition subjectVersionsURL (r : SchemaRegistry) (subject : string) : string :=
  schemaRegistryAddress r +:+ "/subjects/" +:+ subject +:+ "/versions".

Record RState (W : Type) := mkRS { reg : SchemaRegistry; r_world : W }.
Arguments mkRS {W} _ _. Arguments reg {W} _. Arguments r_world {W} _.

Section registry.
Context {W : Type} `{World W} `{HTTP W} `{MapOrder W}.
Local Abbreviation RM := (ES (RState W)).

Definition get_reg : RM SchemaRegistry := λ s, (inr (reg s), s).
Definition on_reg (f : SchemaRegistry → SchemaRegistry) : RM () := λ s, (inr tt, mkRS (f (reg s)) (r_world s)).
Definition in_env {A} (m : St W A) : RM A := λ s, let (a, w) := m (r_world s) in (inr a, mkRS (reg s) w).
Definition or_error {A} (e : option GoErr) (m : RM A) : RM A := match e with Some err => fail err | None => m end.

(** ** What the phases share *)

Definition enough_time (ctx : Ctx) (minTime : Z) (text : string) : RM () :=
  match ctx_Deadline ctx with
  | None => mret tt
  | Some deadline =>
      now ← in_env clock;
      let remaining := deadline - now in
      if remaining <=? 0 then fail (ENew "context deadline already passed")
      else if remaining <? minTime then fail (ENew ("insufficient time remaining in context (< " +:+ text +:+ ")"))
      else mret tt
  end.

Definition createTimeoutContext (ctx : Ctx) (minTime : Z) : RM Ctx :=
  timeout ← match ctx_Deadline ctx with
            | Some deadline => now ← in_env clock; mret (if deadline - now <? minTime then deadline - now else minTime)
            | None => mret minTime
            end;
  in_env (WithTimeout ctx timeout).

(** Build a request and send it; an error of the client gets a prefix. *)
Definition send (ctx : Ctx) (minTime : Z) (r : Request) (wrap : GoErr → GoErr) (nil_response : string) : RM Response :=
  timeoutCtx ← createTimeoutContext ctx minTime;
  or_error (http_NewRequest (req_URL r)) (
    resp ← in_env (http_Do timeoutCtx r);
    match resp with
    | inl err => fail (wrap err)
    | inr None => fail (ENew nil_response)
    | inr (Some resp) => mret resp
    end).

Definition extractResponseBody (resp : Response) : GoErr + option Value :=
  match resp_Body resp with
  | ReadFails err => inl (EWrap "failed to read response body: " err)
  | BodyText json => inr json
  end.

(** The [error_code] and [message] of a body that is a JSON object. *)
Definition error_object (resp : Response) : option (gmap string Value) :=
  match extractResponseBody resp with
  | inr (Some (VMap l)) => Some (list_to_map l)
  | inr (Some VNil) => Some ∅
  | _ => None
  end.
Definition error_code (resp : Response) : option Z :=
  m ← error_object resp; match m !! "error_code" with Some (VFloat64 f) => Some (ftrunc f) | _ => None end.
Definition error_message (resp : Response) : string :=
  match error_object resp ≫= (λ m, m !! "message") with
  | Some (VString s) => s | Some v => sprintf_s v | None => sprintf_s VNil
  end.
Definition client_error (resp : Response) : bool := (400 <=? StatusCode resp) && (StatusCode resp <? 500).

(** ** The phases *)

(** A phase returns whether to go to the next one; an error of the code always
    comes with [false]. *)
Definition lookup_phase (ctx : Ctx) : RM bool :=
  _ ← enough_time ctx MinimumLookupTime "25ms";
  r ← get_reg;
  resp ← send ctx MinimumLookupTime (mkRequest GET (subjectsURL r) None) id "received nil response from schema registry";
  if negb (StatusCode resp =? 200) then fail (ENew ("schema registry lookup failed with status " +:+ pretty (StatusCode resp)))
  else
    match extractResponseBody resp with
    | inl err => fail (EWrap "failed to extract response body: " err)
    | inr bodyBytes => _ ← on_reg (set_raw bodyBytes); mret true
    end.

(** [json.Unmarshal] into a [[]string]: [null] is the zero value. *)
Definition unmarshal_string (v : Value) : option string :=
  match v with VString s => Some s | VNil => Some "" | _ => None end.
Definition unmarshal_strings (v : option Value) : GoErr + list string :=
  match v with
  | Some VNil => inr []
  | Some (VList l) => match mapM unmarshal_string l with Some subjects => inr subjects | None => inl (json_Unmarshal_error v) end
  | _ => inl (json_Unmarshal_error v)
  end.

Definition decode (ctx : Ctx) : RM bool :=
  _ ← enough_time ctx MinimumDecodeTime "5ms";
  r ← get_reg;
  match unmarshal_strings (rawSubjectsData r) with
  | inl err => fail (EWrap "failed to decode subjects: " err)
  | inr subjects => _ ← on_reg (λ r, set_raw None (set_subjects subjects r)); mret true
  end.

Definition isSkippedSubject (r : SchemaRegistry) (subject : string) : bool :=
  existsb (λ prefix, has_prefix prefix subject) (skipPrefixes r).

Definition missing (expected : gmap string Value) (r : SchemaRegistry) : gmap string Value :=
  filter (λ kv, kv.1 ∉ registrySubjects r) expected.
Definition unknown (expected : gmap string Value) (r : SchemaRegistry) : gset string :=
  list_to_set (filter (λ subject, expected !! subject = None ∧ isSkippedSubject r subject = false) (registrySubjects r)).

Definition compare (ctx : Ctx) (expectedSubjects : gmap string Value) : RM bool :=
  _ ← enough_time ctx MinimumCompareTime "5ms";
  _ ← on_reg (λ r, set_queues (missing expectedSubjects r) (unknown expectedSubjects r) r);
  mret true.

(** The outcome of a deletion by its response. *)
Definition delete_error (subjectToRemove : string) (resp : Response) : option GoErr :=
  if bool_decide (StatusCode resp ∈ [200; 204; 404]) then None
  else if client_error resp then
    match error_code resp with
    | Some c =>
        if bool_decide (c ∈ [40401; 40406]) then None
        else if c =? 42206 then Some (ENew ("cannot delete subject " +:+ subjectToRemove +:+ ": schema has references (error 42206)"))
        else Some (ENew ("delete subject " +:+ subjectToRemove +:+ " failed with custom error " +:+ pretty c))
    | None => Some (ENew ("delete subject " +:+ subjectToRemove +:+ " returned client error status " +:+ pretty (StatusCode resp)))
    end
  else Some (ENew ("delete subject " +:+ subjectToRemove +:+ " returned status " +:+ pretty (StatusCode resp))).

Definition removeUnknown (ctx : Ctx) : RM bool :=
  _ ← enough_time ctx MinimumRemoveTime "30ms";
  r ← get_reg;
  order ← in_env (map_order (elements (inRegistryButUnknownLocally r)));
  match order with
  | [] => mret true
  | subjectToRemove :: _ =>
      _ ← on_reg (set_subject subjectToRemove);
      resp ← send ctx MinimumRemoveTime (mkRequest DELETE (subjectURL r subjectToRemove) None)
               (EWrap ("failed to delete subject " +:+ subjectToRemove +:+ ": "))
               ("received nil response from schema registry for DELETE " +:+ subjectToRemove);
      or_error (delete_error subjectToRemove resp) (
        _ ← on_reg (λ r, set_queues (missingInRegistry r) (inRegistryButUnknownLocally r ∖ {[subjectToRemove]}) r);
        r ← get_reg;
        mret (bool_decide (inRegistryButUnknownLocally r = ∅)))
  end.

(** The outcome of an addition by its response. *)
Definition add_error_status (subjectToAdd : string) (status : Z) : GoErr :=
  if status =? 400 then ENew ("add subject " +:+ subjectToAdd +:+ " failed: bad request (400)")
  else if status =? 401 then ENew ("add subject " +:+ subjectToAdd +:+ " failed: unauthorized (401)")
  else if status =? 403 then ENew ("add subject " +:+ subjectToAdd +:+ " failed: forbidden (403)")
  else if status =? 422 then ENew ("add subject " +:+ subjectToAdd +:+ " failed: schema validation error (422)")
  else ENew ("add subject " +:+ subjectToAdd +:+ " failed with client error status " +:+ pretty status).
Definition post_error (subjectToAdd : string) (resp : Response) : option GoErr :=
  if bool_decide (StatusCode resp ∈ [201; 200; 409]) then None
  else if client_error resp then
    match error_code resp with
    | Some c => Some (ENew ("add subject " +:+ subjectToAdd +:+ " failed with custom error " +:+ pretty c +:+ ": " +:+ error_message resp))
    | None => Some (add_error_status subjectToAdd (StatusCode resp))
    end
  else Some (ENew ("add subject " +:+ subjectToAdd +:+ " returned status " +:+ pretty (StatusCode resp))).

(** [json.Marshal] of the payload does not fail: it holds two strings. *)
Definition payload (schemaDefinition : Value) : Value := VObject [("schema", schemaDefinition); ("schemaType", VString "JSON")].

Definition addNew (ctx : Ctx) : RM bool :=
  _ ← enough_time ctx MinimumAddTime "35ms";
  r ← get_reg;
  order ← in_env (map_order (map_to_list (missingInRegistry r)).*1);
  match order with
  | [] => mret true
  | subjectToAdd :: _ =>
      let schemaDefinition := default VNil (missingInRegistry r !! subjectToAdd) in
      _ ← on_reg (set_subject subjectToAdd);
      resp ← send ctx MinimumAddTime (mkRequest POST (subjectVersionsURL r subjectToAdd) (Some (payload schemaDefinition)))
               (EWrap ("failed to add subject " +:+ subjectToAdd +:+ ": "))
               ("received nil response from schema registry for POST " +:+ subjectToAdd);
      or_error (post_error subjectToAdd resp) (
        _ ← on_reg (λ r, set_queues (delete subjectToAdd (missingInRegistry r)) (inRegistryButUnknownLocally r) r);
        r ← get_reg;
        mret (bool_decide (missingInRegistry r = ∅)))
  end.

Definition getNextPhase (r : SchemaRegistry) (phase : SchemaRegistryPhase) (changePhase : bool) : SchemaRegistryPhase :=
  if negb changePhase then phase
  else
    match phase with
    | SchemaRegistryPhaseLookup => SchemaRegistryPhaseDecode
    | SchemaRegistryPhaseDecode => SchemaRegistryPhaseCompare
    | SchemaRegistryPhaseCompare =>
        if negb (bool_decide (inRegistryButUnknownLocally r = ∅)) then SchemaRegistryPhaseRemoveUnknown
        else if negb (bool_decide (missingInRegistry r = ∅)) then SchemaRegistryPhaseAddNew
        else SchemaRegistryPhaseLookup
    | SchemaRegistryPhaseRemoveUnknown =>
        if negb (bool_decide (inRegistryButUnknownLocally r = ∅)) then SchemaRegistryPhaseRemoveUnknown else SchemaRegistryPhaseAddNew
    | SchemaRegistryPhaseAddNew =>
        if negb (bool_decide (missingInRegistry r = ∅)) then SchemaRegistryPhaseAddNew else SchemaRegistryPhaseLookup
    end.

(** ** The cycle *)

Definition run_phase (ctx : Ctx) (expectedSubjects : gmap string Value) (phase : SchemaRegistryPhase) : RM bool :=
  match phase with
  | SchemaRegistryPhaseLookup => lookup_phase ctx
  | SchemaRegistryPhaseDecode => decode ctx
  | SchemaRegistryPhaseCompare => compare ctx expectedSubjects
  | SchemaRegistryPhaseRemoveUnknown => removeUnknown ctx
  | SchemaRegistryPhaseAddNew => addNew ctx
  end.

Definition in_sync (r : SchemaRegistry) : bool :=
  bool_decide (currentPhase r = SchemaRegistryPhaseLookup) && bool_decide (missingInRegistry r = ∅) && bool_decide (inRegistryButUnknownLocally r = ∅).
Definition advance (r : SchemaRegistry) : SchemaRegistry := set_phase (getNextPhase r (currentPhase r) true) r.

(** One turn of the loop: an error ends it, [true] says that all is done. *)
Definition turn (ctx : Ctx) (expectedSubjects : gmap string Value) : RM bool :=
  e ← in_env (ctx_Err ctx);
  or_error e (
    r ← get_reg;
    changePhase ← run_phase ctx expectedSubjects (currentPhase r);
    if changePhase : bool then _ ← on_reg advance; r ← get_reg; mret (in_sync r)
    else mret false).

Fixpoint reconcileInternal (fuel : nat) (ctx : Ctx) (expectedSubjects : gmap string Value) : M (RState W) (option GoErr) := λ s,
  match fuel with
  | O => None
  | S fuel =>
      match turn ctx expectedSubjects s with
      | (inl err, s) => Some (Some err, s)
      | (inr true, s) => Some (None, s)
      | (inr false, s) => reconcileInternal fuel ctx expectedSubjects s
      end
  end.

Definition ReconcileWithSchemas (fuel : nat) (ctx : Ctx) (schemas : gmap string Value) : M (RState W) (option GoErr) := λ s,
  match reconcileInternal fuel ctx schemas (mkRS (begin_call (reg s)) (r_world s)) with
  | None => None
  | Some (err, s) => let (now, w) := clock (r_world s) in Some (err, mkRS (end_call err now (reg s)) w)
  end.
End registry.

(** ** The subjects that are wanted *)

Definition models_by_name (dataModels : list DataModelsConfig) : gmap string DataModelsConfig :=
  foldl (λ m model, <[model_Name model := model]> m) ∅ dataModels.

Record Expected := mkExpected { expectedSubjects : gmap string Value; skipped : list string; skipErrs : list GoErr }.
Definition skip (contract : DataContractsConfig) (err : GoErr) (x : Expected) : Expected :=
  mkExpected (expectedSubjects x) (skipped x ++ [contract_Name contract +:+ "-"]) (skipErrs x ++ [err]).
Definition expect (schemas : gmap string Value) (x : Expected) : Expected :=
  mkExpected ((VText <$> schemas) ∪ expectedSubjects x) (skipped x) (skipErrs x).

Section expected.
Context {W : Type} `{World W} (range : Paths → list (string * list string)).
Local Abbreviation WM := (ES W).

(** A translation whose error is a value of the loop. *)
Definition try_translate {A} (m : WM A) : WM (GoErr + A) := λ w, let (r, w) := m w in (inr r, w).

Definition translate_contract (ctx : Ctx) (payloadShapes : gmap string PayloadShape) (allDataModels : gmap string DataModelsConfig)
    (contract : DataContractsConfig) (x : Expected) : WM Expected :=
  match contract_Model contract with
  | None => mret x
  | Some ref =>
      match allDataModels !! ref_Name ref with
      | None => mret (skip contract (ENew ("data contract '" +:+ contract_Name contract +:+ "' references unknown model '" +:+ ref_Name ref +:+ "'")) x)
      | Some referencedModel =>
          match Versions referencedModel !! ref_Version ref with
          | None => mret (skip contract (ENew ("data contract '" +:+ contract_Name contract +:+ "' references unknown version '" +:+
                      ref_Version ref +:+ "' of model '" +:+ ref_Name ref +:+ "'")) x)
          | Some modelVersion =>
              r ← try_translate (TranslateDataModel range ctx (contract_Name contract) (ref_Version ref) modelVersion payloadShapes allDataModels);
              mret match r with
                   | inl err => skip contract (EWrap ("failed to translate data contract '" +:+ contract_Name contract +:+ "': ") err) x
                   | inr result => expect (Schemas result) x
                   end
          end
      end
  end.

Fixpoint translate_contracts (ctx : Ctx) (payloadShapes : gmap string PayloadShape) (allDataModels : gmap string DataModelsConfig)
    (l : list DataContractsConfig) (x : Expected) : WM Expected :=
  match l with
  | [] => mret x
  | contract :: l =>
      _ ← alive ctx;
      x ← translate_contract ctx payloadShapes allDataModels contract x;
      translate_contracts ctx payloadShapes allDataModels l x
  end.

(** An error stands for the [nil] map: the context ended. *)
Definition translateToSchemas (ctx : Ctx) (dataModels : list DataModelsConfig) (dataContracts : list DataContractsConfig)
    (payloadShapes : gmap string PayloadShape) : WM Expected :=
  translate_contracts ctx payloadShapes (models_by_name dataModels) dataContracts (mkExpected ∅ [] []).

Context `{HTTP W} `{MapOrder W}.

Definition Reconcile (fuel : nat) (ctx : Ctx) (dataModels : list DataModelsConfig) (dataContracts : list DataContractsConfig)
    (payloadShapes : gmap string PayloadShape) : M (RState W) (option GoErr) := λ s,
  match translateToSchemas ctx dataModels dataContracts payloadShapes (r_world s) with
  | (inl err, w) =>
      let (now, w) := clock w in
      Some (Some (EWrap "failed to translate data models to schemas: " err), mkRS (end_call (Some err) now (begin_call (reg s))) w)
  | (inr x, w) =>
      match ReconcileWithSchemas fuel ctx (expectedSubjects x) (mkRS (set_skipPrefixes (skipped x) (reg s)) w) with
      | None => None
      | Some (reconcileErr, s) =>
          Some (match skipErrs x with
                | [] => reconcileErr
                | errs => Some (EWrap "some data contracts could not be translated to schemas: "
                            (EJoin (EJoin errs :: match reconcileErr with Some e => [e] | None => [] end)))
                end, s)
      end
  end.
End expected.

(** ** Metrics *)

Record SchemaRegistryMetrics := mkMetrics {
  m_LastOperationTime : option Z; m_CurrentPhase : SchemaRegistryPhase; m_LastError : string;
  m_TotalReconciliations : Z; m_SuccessfulOperations : Z; m_FailedOperations : Z; SubjectsToAdd : nat; SubjectsToRemove : nat }.
Definition GetMetrics (r : SchemaRegistry) : SchemaRegistryMetrics :=
  mkMetrics (lastOperationTime r) (currentPhase r) (lastError r) (totalReconciliations r) (successfulOperations r) (failedOperations r)
    (size (missingInRegistry r)) (size (inRegistryButUnknownLocally r)).
