(* ===== verification/SchemaRegistryFacts.v ===== *)
(** * SchemaRegistryFacts: what a phase of the registry changes, and that a cycle ends

    The effect of each phase on the queues, whatever the registry answers, and
    the proof that the loop over the phases always returns. *)

From S2P Require Import Prelude Float64 GoRuntime GoBytes StateMonad FSMManager Documents DataModel DataModelFacts Translator TranslatorFacts SchemaRegistry.
Local Open Scope Z_scope.

Section phases.
Context {W : Type} `{World W} `{HTTP W} `{MapOrder W}.
Local Abbreviation RM := (ES (RState W)).
Implicit Types (s : RState W) (ctx : Ctx).

(** ** Runs that leave the registry's own state alone *)

Definition steady {A} (m : RM A) : Prop := ∀ s, reg (m s).2 = reg s.

Lemma steady_ret {A} (a : A) : steady (mret a).
Proof. by intros s. Qed.
Lemma steady_fail {A} e : steady (A := A) (fail e).
Proof. by intros s. Qed.
Lemma steady_get : steady get_reg.
Proof. by intros s. Qed.
Lemma steady_env {A} (m : St W A) : steady (in_env m).
Proof. intros s. unfold in_env. by destruct (m (r_world s)). Qed.
Lemma steady_bind {A B} (m : RM A) (f : A → RM B) : steady m → (∀ a, steady (f a)) → steady (m ≫= f).
Proof. intros Hm Hf s. unfold mbind, ES_bind. specialize (Hm s). destruct (m s) as [[e|a] s1]; [done|]. etrans; [apply Hf|exact Hm]. Qed.
Lemma steady_or {A} e (m : RM A) : steady m → steady (or_error e m).
Proof. by destruct e. Qed.

Lemma steady_time ctx minTime text : steady (enough_time ctx minTime text).
Proof.
  unfold enough_time. case_match; [|apply steady_ret]. apply steady_bind; [apply steady_env|intros now]. cbv zeta.
  repeat case_match; (apply steady_fail || apply steady_ret).
Qed.
Lemma steady_send ctx minTime r wrap text : steady (send ctx minTime r wrap text).
Proof.
  unfold send, createTimeoutContext. apply steady_bind.
  - apply steady_bind; [|intros; apply steady_env]. case_match; [|apply steady_ret]. apply steady_bind; [apply steady_env|intros; apply steady_ret].
  - intros timeoutCtx. apply steady_or, steady_bind; [apply steady_env|intros resp]. repeat case_match; (apply steady_fail || apply steady_ret).
Qed.

(** A run that succeeds ends in [Q], one that fails in [R]. *)
Definition ewp {A} (m : RM A) (Q : A → RState W → Prop) (R : RState W → Prop) s : Prop :=
  match m s with (inr a, s') => Q a s' | (inl _, s') => R s' end.

Lemma ewp_bind {A B} (m : RM A) (f : A → RM B) Q R s : ewp m (λ a s', ewp (f a) Q R s') R s → ewp (m ≫= f) Q R s.
Proof. unfold ewp, mbind, ES_bind. by destruct (m s) as [[e|a] s1]. Qed.
Lemma ewp_steady {A} (m : RM A) (Q : A → RState W → Prop) (R : RState W → Prop) s : steady m →
  (∀ s', reg s' = reg s → R s') → (∀ a s', reg s' = reg s → Q a s') → ewp m Q R s.
Proof. intros Hm HR HQ. specialize (Hm s). unfold ewp. destruct (m s) as [[e|a] s1]; auto. Qed.
Lemma ewp_mono {A} (m : RM A) (Q Q' : A → RState W → Prop) (R R' : RState W → Prop) s :
  ewp m Q R s → (∀ a s', Q a s' → Q' a s') → (∀ s', R s' → R' s') → ewp m Q' R' s.
Proof. unfold ewp. destruct (m s) as [[e|a] s1]; auto. Qed.
Lemma ewp_or {A} e (m : RM A) Q (R : RState W → Prop) s : R s → ewp m Q R s → ewp (or_error e m) Q R s.
Proof. by destruct e. Qed.
Lemma ewp_env {A} (m : St W A) (Q : A → RState W → Prop) R s : Q (m (r_world s)).1 (mkRS (reg s) (m (r_world s)).2) → ewp (in_env m) Q R s.
Proof. unfold ewp, in_env. by destruct (m (r_world s)). Qed.
Lemma ewp_get (Q : SchemaRegistry → RState W → Prop) R s : Q (reg s) s → ewp get_reg Q R s.
Proof. done. Qed.
Lemma ewp_on f (Q : () → RState W → Prop) R s : Q tt (mkRS (f (reg s)) (r_world s)) → ewp (on_reg f) Q R s.
Proof. done. Qed.

(** ** Phases *)

(** What a phase changes when it fails. *)
Definition same_work (r r' : SchemaRegistry) : Prop :=
  missingInRegistry r' = missingInRegistry r ∧ inRegistryButUnknownLocally r' = inRegistryButUnknownLocally r ∧
  currentPhase r' = currentPhase r ∧ skipPrefixes r' = skipPrefixes r ∧ schemaRegistryAddress r' = schemaRegistryAddress r ∧
  rawSubjectsData r' = rawSubjectsData r ∧ registrySubjects r' = registrySubjects r.
Lemma same_work_refl r : same_work r r.
Proof. by repeat split. Qed.
Hint Resolve same_work_refl : core.
Lemma same_work_subject x r : same_work r (set_subject x r).
Proof. by repeat split. Qed.

Lemma lookup_effect ctx s : ewp (lookup_phase ctx) (λ b s', b = true ∧ ∃ raw, reg s' = set_raw raw (reg s)) (λ s', same_work (reg s) (reg s')) s.
Proof.
  apply ewp_bind, ewp_steady; [apply steady_time|by intros s' ->|intros u s1 E1]. apply ewp_bind, ewp_get, ewp_bind, ewp_steady; [apply steady_send|intros s'; by rewrite E1; intros ->|].
  intros resp s2 E2. rewrite E1 in E2. case_match; [by rewrite <- E2|]. case_match; [by rewrite <- E2|].
  apply ewp_bind, ewp_on. split; [done|]. eexists. cbn. by rewrite E2.
Qed.

Lemma decode_effect ctx s : ewp (decode ctx) (λ b s', b = true ∧ ∃ l, unmarshal_strings (rawSubjectsData (reg s)) = inr l ∧ reg s' = set_raw None (set_subjects l (reg s)))
  (λ s', same_work (reg s) (reg s')) s.
Proof.
  apply ewp_bind, ewp_steady; [apply steady_time|by intros s' ->|intros u s1 E1]. apply ewp_bind, ewp_get. rewrite E1.
  case_match eqn:El; [by rewrite <- E1|]. apply ewp_bind, ewp_on. cbn. rewrite E1. eauto.
Qed.

Lemma compare_effect ctx expected s : ewp (compare ctx expected)
  (λ b s', b = true ∧ reg s' = set_queues (missing expected (reg s)) (unknown expected (reg s)) (reg s)) (λ s', same_work (reg s) (reg s')) s.
Proof.
  apply ewp_bind, ewp_steady; [apply steady_time|by intros s' ->|intros u s1 E1]. apply ewp_bind, ewp_on. cbn. by rewrite E1.
Qed.

(** One subject is taken off a queue, or the queue was empty. *)
Lemma remove_effect ctx s : ewp (removeUnknown ctx)
  (λ b s', ∃ u, same_work (set_queues (missingInRegistry (reg s)) u (reg s)) (reg s') ∧ b = bool_decide (u = ∅) ∧
     (u = inRegistryButUnknownLocally (reg s) ∧ u = ∅ ∨ ∃ x, x ∈ inRegistryButUnknownLocally (reg s) ∧ u = inRegistryButUnknownLocally (reg s) ∖ {[x]}))
  (λ s', same_work (reg s) (reg s')) s.
Proof.
  apply ewp_bind, ewp_steady; [apply steady_time|by intros s' ->|intros u s1 E1]. apply ewp_bind, ewp_get, ewp_bind, ewp_env. cbn. rewrite E1.
  pose proof (map_order_perm (elements (inRegistryButUnknownLocally (reg s))) (r_world s1)) as Hp. destruct (map_order _ _) as [[|x l] w]; cbn in *.
  { apply Permutation_nil_l in Hp; symmetry in Hp; apply elements_empty_inv, leibniz_equiv in Hp. exists ∅. rewrite bool_decide_true by done. split; [|naive_solver].
    repeat split; by rewrite ?E1, ?Hp. }
  apply ewp_bind, ewp_on, ewp_bind, ewp_steady; [apply steady_send|intros s' ->; apply same_work_subject|]. intros resp s2 E2. cbn in E2.
  apply ewp_or; [rewrite E2; apply same_work_subject|]. apply ewp_bind, ewp_on, ewp_bind, ewp_get. cbn. rewrite E2. cbn.
  eexists. split; [by repeat split|]. split; [done|]. right. exists x. split; [|done]. apply elem_of_elements. rewrite <- Hp. by left.
Qed.

Lemma add_effect ctx s : ewp (addNew ctx)
  (λ b s', ∃ m, same_work (set_queues m (inRegistryButUnknownLocally (reg s)) (reg s)) (reg s') ∧ b = bool_decide (m = ∅) ∧
     (m = missingInRegistry (reg s) ∧ m = ∅ ∨ ∃ x, is_Some (missingInRegistry (reg s) !! x) ∧ m = delete x (missingInRegistry (reg s))))
  (λ s', same_work (reg s) (reg s')) s.
Proof.
  apply ewp_bind, ewp_steady; [apply steady_time|by intros s' ->|intros u s1 E1]. apply ewp_bind, ewp_get, ewp_bind, ewp_env. cbn. rewrite E1.
  pose proof (map_order_perm (map_to_list (missingInRegistry (reg s))).*1 (r_world s1)) as Hp. destruct (map_order _ _) as [[|x l] w]; cbn in *.
  { apply Permutation_nil_l in Hp; symmetry in Hp; apply fmap_nil_inv, map_to_list_empty_iff in Hp. exists ∅. rewrite bool_decide_true by done. split; [|naive_solver].
    repeat split; by rewrite ?E1, ?Hp. }
  apply ewp_bind, ewp_on, ewp_bind, ewp_steady; [apply steady_send|intros s' ->; apply same_work_subject|]. intros resp s2 E2. cbn in E2.
  apply ewp_or; [rewrite E2; apply same_work_subject|]. apply ewp_bind, ewp_on, ewp_bind, ewp_get. cbn. rewrite E2. cbn.
  eexists. split; [by repeat split|]. split; [done|]. right. exists x. split; [|done].
  assert (x ∈ (map_to_list (missingInRegistry (reg s))).*1) as ([k v] & -> & Hkv)%list_elem_of_fmap by (rewrite <- Hp; by left).
  apply elem_of_map_to_list in Hkv. by eexists.
Qed.

(** ** The state machine of the cycle *)

(** One turn of the loop that does not fail, up to the bookkeeping. *)
Inductive phase_step (expected : gmap string Value) (r : SchemaRegistry) : SchemaRegistry → Prop :=
  | step_lookup raw : currentPhase r = SchemaRegistryPhaseLookup →
      phase_step expected r (set_phase SchemaRegistryPhaseDecode (set_raw raw r))
  | step_decode l : currentPhase r = SchemaRegistryPhaseDecode → unmarshal_strings (rawSubjectsData r) = inr l →
      phase_step expected r (set_phase SchemaRegistryPhaseCompare (set_raw None (set_subjects l r)))
  | step_compare r1 : currentPhase r = SchemaRegistryPhaseCompare → r1 = set_queues (missing expected r) (unknown expected r) r →
      phase_step expected r (set_phase (getNextPhase r1 SchemaRegistryPhaseCompare true) r1)
  | step_remove x u : currentPhase r = SchemaRegistryPhaseRemoveUnknown → x ∈ inRegistryButUnknownLocally r → u = inRegistryButUnknownLocally r ∖ {[x]} →
      phase_step expected r (set_phase (if bool_decide (u = ∅) then SchemaRegistryPhaseAddNew else SchemaRegistryPhaseRemoveUnknown)
        (set_queues (missingInRegistry r) u r))
  | step_removed : currentPhase r = SchemaRegistryPhaseRemoveUnknown → inRegistryButUnknownLocally r = ∅ →
      phase_step expected r (set_phase SchemaRegistryPhaseAddNew r)
  | step_add x m : currentPhase r = SchemaRegistryPhaseAddNew → is_Some (missingInRegistry r !! x) → m = delete x (missingInRegistry r) →
      phase_step expected r (set_phase (if bool_decide (m = ∅) then SchemaRegistryPhaseLookup else SchemaRegistryPhaseAddNew)
        (set_queues m (inRegistryButUnknownLocally r) r))
  | step_added : currentPhase r = SchemaRegistryPhaseAddNew → missingInRegistry r = ∅ →
      phase_step expected r (set_phase SchemaRegistryPhaseLookup r).

Definition turned (expected : gmap string Value) s (done : bool) s' : Prop :=
  ∃ r', phase_step expected (reg s) r' ∧ same_work r' (reg s') ∧ done = in_sync (reg s').

Lemma finish_advance expected s s1 r' : phase_step expected (reg s) r' → same_work r' (advance (reg s1)) →
  ewp (_ ← on_reg advance; r ← get_reg; mret (in_sync r)) (turned expected s) (λ s', same_work (reg s) (reg s')) s1.
Proof. intros Hs Hw. apply ewp_bind, ewp_on, ewp_bind, ewp_get. by exists r'. Qed.
Lemma finish_stay expected s s1 r' : phase_step expected (reg s) r' → same_work r' (reg s1) → currentPhase r' ≠ SchemaRegistryPhaseLookup →
  turned expected s false s1.
Proof.
  intros Hs Hw Hp. exists r'. split; [done|]. split; [done|]. unfold in_sync. rewrite (bool_decide_false (currentPhase _ = _)); [done|].
  destruct Hw as (_ & _ & -> & _). done.
Qed.

Lemma turn_effect ctx expected s : ewp (turn ctx expected) (turned expected s) (λ s', same_work (reg s) (reg s')) s.
Proof.
  apply ewp_bind, ewp_steady; [apply steady_env|by intros s' ->|intros e s1 E1]. apply ewp_or; [by rewrite E1|].
  apply ewp_bind, ewp_get, ewp_bind. rewrite E1. destruct (currentPhase (reg s)) eqn:Ep; cbn [run_phase].
  - eapply ewp_mono; [apply lookup_effect| |by rewrite E1]. intros b s2 (-> & raw & E2). rewrite E1 in E2.
    eapply finish_advance; [by apply (step_lookup _ _ raw)|]. unfold advance. rewrite E2. cbn. rewrite Ep. by repeat split.
  - eapply ewp_mono; [apply decode_effect| |by rewrite E1]. intros b s2 (-> & l & El & E2). rewrite E1 in El, E2.
    eapply finish_advance; [by apply (step_decode _ _ l)|]. unfold advance. rewrite E2. cbn. rewrite Ep. by repeat split.
  - eapply ewp_mono; [apply compare_effect| |by rewrite E1]. intros b s2 (-> & E2). rewrite E1 in E2.
    eapply finish_advance; [by eapply step_compare|]. unfold advance. rewrite E2. cbn [currentPhase set_queues]. by rewrite Ep.
  - eapply ewp_mono; [apply remove_effect| |by rewrite E1]. intros b s2 (u & Hw & -> & Hu). rewrite E1 in Hw, Hu.
    destruct Hw as (Hm & Hun & Hp & Hskip & Haddr & Hraw & Hsub). cbn in *.
    case_bool_decide as Hemp.
    + destruct Hu as [[Hu _]|(x & Hx & Hu)].
      * eapply finish_advance; [apply step_removed; [done|congruence]|]. unfold advance. cbn. rewrite Hp, Ep. cbn. rewrite Hun.
        rewrite bool_decide_true by done. cbn. repeat split; cbn; congruence.
      * eapply finish_advance; [by apply (step_remove _ _ x u)|]. unfold advance. cbn. rewrite Hp, Ep. cbn. rewrite Hun.
        rewrite bool_decide_true by done. cbn. repeat split; cbn; congruence.
    + destruct Hu as [[_ Hu]|(x & Hx & Hu)]; [done|]. eapply finish_stay; [by apply (step_remove _ _ x u)| |]; rewrite bool_decide_false by done; [|done].
      repeat split; cbn; congruence.
  - eapply ewp_mono; [apply add_effect| |by rewrite E1]. intros b s2 (m & Hw & -> & Hm0). rewrite E1 in Hw, Hm0.
    destruct Hw as (Hm & Hun & Hp & Hskip & Haddr & Hraw & Hsub). cbn in *.
    case_bool_decide as Hemp.
    + destruct Hm0 as [[Hu _]|(x & Hx & Hu)].
      * eapply finish_advance; [apply step_added; [done|congruence]|]. unfold advance. cbn. rewrite Hp, Ep. cbn. rewrite Hm.
        rewrite bool_decide_true by done. cbn. repeat split; cbn; congruence.
      * eapply finish_advance; [by apply (step_add _ _ x m)|]. unfold advance. cbn. rewrite Hp, Ep. cbn. rewrite Hm.
        rewrite bool_decide_true by done. cbn. repeat split; cbn; congruence.
    + destruct Hm0 as [[_ Hu]|(x & Hx & Hu)]; [done|]. eapply finish_stay; [by apply (step_add _ _ x m)| |]; rewrite bool_decide_false by done; [|done].
      repeat split; cbn; congruence.
Qed.

(** ** The loop returns *)

Definition ends ctx expected s : Prop := ∃ n a, ∀ m, (n ≤ m)%nat → reconcileInternal m ctx expected s = Some a.

Lemma ends_turn ctx expected s :
  (∀ s' r', phase_step expected (reg s) r' → same_work r' (reg s') → in_sync (reg s') = false → ends ctx expected s') → ends ctx expected s.
Proof.
  intros Hs. pose proof (turn_effect ctx expected s) as He. unfold ewp in He. destruct (turn ctx expected s) as [[e|[]] s'] eqn:E.
  - exists 1%nat, (Some e, s'). intros [|m] Hm; [lia|]. simpl. by rewrite E.
  - exists 1%nat, (None, s'). intros [|m] Hm; [lia|]. simpl. by rewrite E.
  - destruct He as (r' & Hstep & Hw & Hsync). destruct (Hs s' r' Hstep Hw (eq_sym Hsync)) as (n & a & Hn).
    exists (S n), a. intros [|m] Hm; [lia|]. simpl. rewrite E. apply Hn. lia.
Qed.

(** The phase and queues after a step. *)
Lemma same_phase r r' : same_work r r' → currentPhase r' = currentPhase r ∧ missingInRegistry r' = missingInRegistry r ∧
  inRegistryButUnknownLocally r' = inRegistryButUnknownLocally r.
Proof. by intros (-> & -> & -> & _). Qed.

Section endings.
Context (ctx : Ctx) (expected : gmap string Value).
Local Abbreviation returns := (ends ctx expected).

(** The queue of additions empties; what then happens in the lookup phase is
    [Hlookup]. *)
Lemma ends_add s : (∀ s', currentPhase (reg s') = SchemaRegistryPhaseLookup → in_sync (reg s') = false →
    inRegistryButUnknownLocally (reg s') = inRegistryButUnknownLocally (reg s) → missingInRegistry (reg s') = ∅ → returns s') →
  currentPhase (reg s) = SchemaRegistryPhaseAddNew → returns s.
Proof.
  remember (size (missingInRegistry (reg s))) as n eqn:En. revert s En. induction n as [|n IH]; intros s En Hl Hp; apply ends_turn;
    intros s' r' Hstep (Ep & Em & Eu)%same_phase Hsync; inversion Hstep as [| | | | |x m _ Hx ->|_ Hx]; try congruence; subst r'; cbn in Ep, Em, Eu.
  - destruct Hx as [v Hv]. symmetry in En. apply map_size_empty_iff in En. by rewrite En in Hv.
  - by apply Hl; [..|rewrite Em].
  - case_bool_decide; [by apply Hl; [..|rewrite Em]|]. apply IH; [|rewrite Eu; exact Hl|done]. rewrite Em, map_size_delete_Some by done. lia.
  - by apply Hl; [..|rewrite Em].
Qed.

Lemma in_sync_empty r : currentPhase r = SchemaRegistryPhaseLookup → missingInRegistry r = ∅ → inRegistryButUnknownLocally r = ∅ → in_sync r = true.
Proof. intros Hp Hm Hu. unfold in_sync. by rewrite !bool_decide_true. Qed.

Lemma ends_add_clean s : currentPhase (reg s) = SchemaRegistryPhaseAddNew → inRegistryButUnknownLocally (reg s) = ∅ → returns s.
Proof. intros Hp Hu. apply ends_add; [|done]. intros s' Hp' Hsync Hu' Hm'. rewrite in_sync_empty in Hsync; congruence. Qed.

Lemma ends_remove s : currentPhase (reg s) = SchemaRegistryPhaseRemoveUnknown → returns s.
Proof.
  remember (size (inRegistryButUnknownLocally (reg s))) as n eqn:En. revert s En. induction n as [|n IH]; intros s En Hp; apply ends_turn;
    intros s' r' Hstep (Ep & Em & Eu)%same_phase Hsync; inversion Hstep as [| | |x u _ Hx ->|_ Hx| |]; try congruence; subst r'; cbn in Ep, Em, Eu.
  - symmetry in En. apply size_empty_inv in En. set_solver.
  - apply ends_add_clean; congruence.
  - case_bool_decide; [apply ends_add_clean; congruence|]. apply IH; [|done]. rewrite Eu, size_difference, size_singleton by set_solver. lia.
  - apply ends_add_clean; congruence.
Qed.

Lemma ends_compare s : currentPhase (reg s) = SchemaRegistryPhaseCompare → returns s.
Proof.
  intros Hp. apply ends_turn. intros s' r' Hstep (Ep & Em & Eu)%same_phase Hsync. inversion Hstep as [| |r1 _ Er1| | | |]; try congruence.
  subst r'. cbn -[getNextPhase] in Ep, Em, Eu. clear Hstep. unfold getNextPhase in Ep. cbn [negb] in Ep.
  case_bool_decide as Hu; cbn [negb] in Ep; [|by apply ends_remove]. case_bool_decide as Hm; cbn [negb] in Ep; [|apply ends_add_clean; congruence].
  rewrite in_sync_empty in Hsync; congruence.
Qed.

Lemma ends_lookup s : currentPhase (reg s) = SchemaRegistryPhaseLookup → returns s.
Proof.
  intros Hp. apply ends_turn. intros s' r' Hstep (Ep & _)%same_phase _. inversion Hstep; try congruence. subst r'. cbn in Ep.
  apply ends_turn. intros s2 r2 Hstep2 (Ep2 & _)%same_phase _. inversion Hstep2; try congruence. subst r2. by apply ends_compare.
Qed.

Lemma always_ends s : returns s.
Proof.
  destruct (currentPhase (reg s)) eqn:Hp; [by apply ends_lookup| |by apply ends_compare|by apply ends_remove|].
  - apply ends_turn. intros s2 r2 Hstep2 (Ep2 & _)%same_phase _. inversion Hstep2; try congruence. subst r2. by apply ends_compare.
  - apply ends_add; [|done]. intros s' Hp' _ _ _. by apply ends_lookup.
Qed.
End endings.
End phases.
