(* ===== verification/SchemaRegistryRequests.v ===== *)
(** * SchemaRegistryRequests: which requests the reconciliation sends

    Every call returns; the requests of a call that starts with a lookup are
    one lookup, the deletions of unknown subjects and the additions of missing
    ones, in this order; and a phase that cannot succeed is never left: no
    later call looks at the registry or at the configuration again. *)

From S2P Require Import Prelude Float64 GoRuntime GoBytes StateMonad FSMManager Documents DataModel DataModelFacts Translator TranslatorFacts SchemaRegistry SchemaRegistryFacts.
Local Open Scope Z_scope.

(** ** Termination *)

Section returns.
Context {W : Type} `{World W} `{HTTP W} `{MapOrder W}.

(** C28: A call of [Reconcile] returns, whatever the registry answers, in
    whatever phase the last call stopped: there is a number of turns of the
    loop after which the result no longer depends on the bound. *)
Theorem reconcile_returns range ctx dataModels dataContracts payloadShapes (s : RState W) :
  ∃ n err s', ∀ fuel, (n ≤ fuel)%nat → Reconcile range fuel ctx dataModels dataContracts payloadShapes s = Some (err, s').
Proof.
  unfold Reconcile, ReconcileWithSchemas. destruct (translateToSchemas range ctx dataModels dataContracts payloadShapes (r_world s)) as [[e|x] w].
  { destruct (clock w) as [now w0]. eexists O, _, _. intros fuel _. reflexivity. }
  destruct (always_ends ctx (expectedSubjects x) (mkRS (begin_call (set_skipPrefixes (skipped x) (reg s))) w)) as (n & [err s'] & Hn).
  destruct (clock (r_world s')) as [now w'] eqn:Ec. eexists n, _, _. intros fuel Hf. cbn [reg r_world]. rewrite Hn by done. rewrite Ec. reflexivity.
Qed.
End returns.

(** ** The requests of a run *)

Section trace.
Context {W : Type} `{World W} `{HTTP W} `{MapOrder W}.

(** The world with the requests sent so far. *)
Definition Traced : Type := W * list Request.
#[local] Instance traced_world : World Traced := {
  clock w := let (t, w0) := clock w.1 in (t, (w0, w.2));
  randw w := let (k, w0) := randw w.1 in (k, (w0, w.2));
}.
#[local] Instance traced_http : HTTP Traced := {
  http_NewRequest := http_NewRequest (W := W);
  http_Do ctx r w := let (resp, w0) := http_Do ctx r w.1 in (resp, (w0, w.2 ++ [r]));
  json_Unmarshal_error := json_Unmarshal_error (W := W);
  sprintf_s := sprintf_s (W := W);
}.
#[local] Program Instance traced_order : MapOrder Traced := {| map_order l w := let (k, w0) := map_order l w.1 in (k, (w0, w.2)) |}.
Next Obligation. intros l [w t]. cbn. pose proof (map_order_perm l w). by destruct (map_order l w). Qed.

Local Abbreviation RM := (ES (RState Traced)).
Implicit Types (s : RState Traced) (ctx : Ctx).
Definition log s : list Request := (r_world s).2.

(** Runs that send nothing, and runs that send at most one request of [P]. *)
Definition quiet {A} (m : RM A) : Prop := ∀ s, log (m s).2 = log s.
Definition sends {A} (P : Request → Prop) (m : RM A) (s : RState Traced) : Prop :=
  log (m s).2 = log s ∨ ∃ q, P q ∧ log (m s).2 = log s ++ [q].

Lemma quiet_same {A} (m : RM A) : (∀ s, r_world (m s).2 = r_world s) → quiet m.
Proof. intros Hm s. unfold log. by rewrite Hm. Qed.
Lemma quiet_ret {A} (a : A) : quiet (mret a).
Proof. by apply quiet_same. Qed.
Lemma quiet_fail {A} e : quiet (A := A) (fail e).
Proof. by apply quiet_same. Qed.
Lemma quiet_get : quiet get_reg.
Proof. by apply quiet_same. Qed.
Lemma quiet_on f : quiet (on_reg f).
Proof. by apply quiet_same. Qed.
Lemma quiet_env {A} (m : St Traced A) : (∀ w, (m w).2.2 = w.2) → quiet (in_env m).
Proof. intros Hm s. unfold log, in_env. specialize (Hm (r_world s)). by destruct (m (r_world s)). Qed.
Lemma quiet_clock : quiet (in_env clock).
Proof. apply quiet_env. intros [w t]. cbn. by destruct (clock w). Qed.
Lemma quiet_order l : quiet (in_env (map_order l)).
Proof. apply quiet_env. intros [w t]. cbn. by destruct (map_order l w). Qed.
Lemma quiet_ctx ctx : quiet (in_env (ctx_Err ctx)).
Proof. apply quiet_env. intros [w t]. unfold ctx_Err. cbn. by destruct (clock w). Qed.
Lemma quiet_timeout ctx d : quiet (in_env (WithTimeout ctx d)).
Proof. apply quiet_env. intros [w t]. unfold WithTimeout. cbn. by destruct (clock w). Qed.
Lemma quiet_bind {A B} (m : RM A) (f : A → RM B) : quiet m → (∀ a, quiet (f a)) → quiet (m ≫= f).
Proof. intros Hm Hf s. unfold mbind, ES_bind. specialize (Hm s). destruct (m s) as [[e|a] s1]; [done|]. etrans; [apply Hf|exact Hm]. Qed.
Lemma quiet_or {A} e (m : RM A) : quiet m → quiet (or_error e m).
Proof. by destruct e. Qed.
Lemma quiet_time ctx minTime text : quiet (enough_time ctx minTime text).
Proof.
  unfold enough_time. case_match; [|apply quiet_ret]. apply quiet_bind; [apply quiet_clock|intros now]. cbv zeta.
  repeat case_match; (apply quiet_fail || apply quiet_ret).
Qed.
Lemma quiet_createTimeout ctx d : quiet (createTimeoutContext ctx d).
Proof.
  unfold createTimeoutContext. apply quiet_bind; [|intros; apply quiet_timeout]. case_match; [|apply quiet_ret].
  apply quiet_bind; [apply quiet_clock|intros; apply quiet_ret].
Qed.

Lemma sends_quiet {A} P (m : RM A) s : quiet m → sends P m s.
Proof. by left. Qed.
(** A quiet computation before or after a request. *)
Lemma sends_bind {A B} (P : Request → Prop) (m : RM A) (f : A → RM B) s :
  quiet m → (∀ a s', m s = (inr a, s') → sends P (f a) s') → sends P (m ≫= f) s.
Proof.
  intros Hm Hf. unfold sends, mbind, ES_bind. specialize (Hm s). destruct (m s) as [[e|a] s1]; [by left|]. cbn in Hm. rewrite <- Hm. by apply Hf.
Qed.
Lemma sends_then {A B} P (m : RM A) (f : A → RM B) s : sends P m s → (∀ a, quiet (f a)) → sends P (m ≫= f) s.
Proof.
  intros Hm Hf. unfold sends, mbind, ES_bind in *. destruct (m s) as [[e|a] s1]; [done|]. destruct Hm as [Hm|(q & Hq & Hm)]; [left|right; exists q; split; [done|]]; (etrans; [apply Hf|exact Hm]).
Qed.
Lemma sends_send (P : Request → Prop) ctx d q wrap text s : P q → sends P (send ctx d q wrap text) s.
Proof.
  intros Hq. apply sends_bind; [apply quiet_createTimeout|intros c s1 _]. unfold or_error. case_match; [by apply sends_quiet, quiet_fail|].
  apply sends_then; [|intros; repeat case_match; (apply quiet_fail || apply quiet_ret)].
  right. exists q. split; [done|]. unfold log, in_env. cbn. by destruct (http_Do c q (r_world s1).1).
Qed.

(** The requests that a phase may send. *)
Definition allowed (r : SchemaRegistry) (q : Request) : Prop :=
  match currentPhase r with
  | SchemaRegistryPhaseLookup => q = mkRequest GET (subjectsURL r) None
  | SchemaRegistryPhaseRemoveUnknown => ∃ x, x ∈ inRegistryButUnknownLocally r ∧ q = mkRequest DELETE (subjectURL r x) None
  | SchemaRegistryPhaseAddNew => ∃ x schema, missingInRegistry r !! x = Some schema ∧ q = mkRequest POST (subjectVersionsURL r x) (Some (payload schema))
  | _ => False
  end.

Lemma lookup_sends ctx s P : (P (mkRequest GET (subjectsURL (reg s)) None)) → sends P (lookup_phase ctx) s.
Proof.
  intros HP. apply sends_bind; [apply quiet_time|intros u s1 E1]. pose proof (steady_time ctx MinimumLookupTime "25ms" s) as Es. rewrite E1 in Es. cbn in Es.
  apply sends_bind; [apply quiet_get|intros r s2 [= <- <-]]. rewrite Es. apply sends_then; [by apply sends_send|].
  intros resp. case_match; [apply quiet_fail|]. case_match; [apply quiet_fail|]. apply quiet_bind; [apply quiet_on|intros; apply quiet_ret].
Qed.
Lemma decode_quiet ctx : quiet (decode ctx).
Proof.
  apply quiet_bind; [apply quiet_time|intros u]. apply quiet_bind; [apply quiet_get|intros r]. case_match; [apply quiet_fail|].
  apply quiet_bind; [apply quiet_on|intros; apply quiet_ret].
Qed.
Lemma compare_quiet ctx expected : quiet (compare ctx expected).
Proof. apply quiet_bind; [apply quiet_time|intros u]. apply quiet_bind; [apply quiet_on|intros; apply quiet_ret]. Qed.

Lemma remove_sends ctx s (P : Request → Prop) :
  (∀ x, x ∈ inRegistryButUnknownLocally (reg s) → P (mkRequest DELETE (subjectURL (reg s) x) None)) → sends P (removeUnknown ctx) s.
Proof.
  intros HP. apply sends_bind; [apply quiet_time|intros u s1 E1]. pose proof (steady_time ctx MinimumRemoveTime "30ms" s) as Es. rewrite E1 in Es. cbn in Es.
  apply sends_bind; [apply quiet_get|intros r s2 [= <- <-]]. rewrite Es. apply sends_bind; [apply quiet_order|intros order s2 E2].
  destruct order as [|x l]; [apply sends_quiet, quiet_ret|]. assert (x ∈ inRegistryButUnknownLocally (reg s)) as Hx.
  { apply elem_of_elements. pose proof (map_order_perm (elements (inRegistryButUnknownLocally (reg s))) (r_world s1)) as Hp. unfold in_env in E2.
    destruct (map_order _ (r_world s1)). injection E2 as -> _. cbn in Hp. rewrite <- Hp. by left. }
  apply sends_bind; [apply quiet_on|intros u2 s3 _]. apply sends_then; [apply sends_send; auto|]. intros resp. apply quiet_or.
  apply quiet_bind; [apply quiet_on|intros ?]. apply quiet_bind; [apply quiet_get|intros; apply quiet_ret].
Qed.

Lemma add_sends ctx s (P : Request → Prop) :
  (∀ x schema, missingInRegistry (reg s) !! x = Some schema → P (mkRequest POST (subjectVersionsURL (reg s) x) (Some (payload schema)))) → sends P (addNew ctx) s.
Proof.
  intros HP. apply sends_bind; [apply quiet_time|intros u s1 E1]. pose proof (steady_time ctx MinimumAddTime "35ms" s) as Es. rewrite E1 in Es. cbn in Es.
  apply sends_bind; [apply quiet_get|intros r s2 [= <- <-]]. rewrite Es. apply sends_bind; [apply quiet_order|intros order s2 E2].
  destruct order as [|x l]; [apply sends_quiet, quiet_ret|]. assert (∃ schema, missingInRegistry (reg s) !! x = Some schema) as [schema Hx].
  { pose proof (map_order_perm (map_to_list (missingInRegistry (reg s))).*1 (r_world s1)) as Hp. unfold in_env in E2.
    destruct (map_order _ (r_world s1)). injection E2 as -> _. cbn in Hp.
    assert (x ∈ (map_to_list (missingInRegistry (reg s))).*1) as ([k v] & -> & Hkv)%list_elem_of_fmap by (rewrite <- Hp; by left).
    apply elem_of_map_to_list in Hkv. by eexists. }
  rewrite Hx. cbn [default]. apply sends_bind; [apply quiet_on|intros u2 s3 _]. apply sends_then; [apply sends_send; auto|]. intros resp. apply quiet_or.
  apply quiet_bind; [apply quiet_on|intros ?]. apply quiet_bind; [apply quiet_get|intros; apply quiet_ret].
Qed.

Lemma turn_sends ctx expected s : sends (allowed (reg s)) (turn ctx expected) s.
Proof.
  apply sends_bind; [apply quiet_ctx|intros e s1 E1]. pose proof (steady_env (ctx_Err ctx) s) as Es. rewrite E1 in Es. cbn in Es.
  unfold or_error. case_match; [apply sends_quiet, quiet_fail|]. apply sends_bind; [apply quiet_get|intros r s2 [= <- <-]].
  apply sends_then; [|intros []; [apply quiet_bind; [apply quiet_on|intros ?]; apply quiet_bind; [apply quiet_get|intros; apply quiet_ret]|apply quiet_ret]].
  unfold allowed. rewrite <- Es. destruct (currentPhase (reg s1)); cbn [run_phase].
  - by apply lookup_sends.
  - apply sends_quiet, decode_quiet.
  - apply sends_quiet, compare_quiet.
  - apply remove_sends. eauto.
  - apply add_sends. eauto.
Qed.

(** ** Requests of one call *)

Section one_call.
Context (expected : gmap string Value).

(** A justified deletion and a justified addition, by the subjects that the
    registry listed and the prefixes of the contracts that failed. *)
Definition justified_delete (r : SchemaRegistry) (q : Request) : Prop := ∃ x, q = mkRequest DELETE (subjectURL r x) None ∧
  x ∈ registrySubjects r ∧ expected !! x = None ∧ isSkippedSubject r x = false.
Definition justified_add (r : SchemaRegistry) (q : Request) : Prop := ∃ x schema,
  q = mkRequest POST (subjectVersionsURL r x) (Some (payload schema)) ∧ expected !! x = Some schema ∧ x ∉ registrySubjects r.

Definition queues_ok (r : SchemaRegistry) : Prop :=
  (∀ x, x ∈ inRegistryButUnknownLocally r → x ∈ registrySubjects r ∧ expected !! x = None ∧ isSkippedSubject r x = false) ∧
  (∀ x schema, missingInRegistry r !! x = Some schema → expected !! x = Some schema ∧ x ∉ registrySubjects r).

(** What a call has sent when it is in a phase, and when it ends. *)
Definition sent (t0 : list Request) (r : SchemaRegistry) (t : list Request) (gets dels posts : list Request) : Prop :=
  t = t0 ++ gets ++ dels ++ posts ∧ (gets = [] ∨ gets = [mkRequest GET (subjectsURL r) None]) ∧
  Forall (justified_delete r) dels ∧ Forall (justified_add r) posts.
Definition so_far (t0 : list Request) (r : SchemaRegistry) (t : list Request) : Prop :=
  match currentPhase r with
  | SchemaRegistryPhaseLookup => sent t0 r t [] [] []
  | SchemaRegistryPhaseDecode | SchemaRegistryPhaseCompare => ∃ gets, sent t0 r t gets [] []
  | SchemaRegistryPhaseRemoveUnknown => queues_ok r ∧ ∃ gets dels, sent t0 r t gets dels []
  | SchemaRegistryPhaseAddNew => queues_ok r ∧ inRegistryButUnknownLocally r = ∅ ∧ ∃ gets dels posts, sent t0 r t gets dels posts
  end.
Definition in_all (t0 : list Request) (r : SchemaRegistry) (t : list Request) : Prop := ∃ gets dels posts, sent t0 r t gets dels posts.

(** All of it depends on the address, the listed subjects and the prefixes only. *)
Definition same_view (r r' : SchemaRegistry) : Prop :=
  schemaRegistryAddress r' = schemaRegistryAddress r ∧ registrySubjects r' = registrySubjects r ∧ skipPrefixes r' = skipPrefixes r.
Lemma sent_view t0 r r' t gets dels posts : same_view r r' → sent t0 r t gets dels posts → sent t0 r' t gets dels posts.
Proof.
  intros (Ea & Es & Ek) (-> & Hg & Hd & Hp). unfold sent, justified_delete, justified_add, isSkippedSubject, subjectURL, subjectVersionsURL, subjectsURL in *.
  by rewrite Ea, Es, Ek.
Qed.
Lemma queues_ok_view r r' : same_view r r' → missingInRegistry r' = missingInRegistry r →
  inRegistryButUnknownLocally r' = inRegistryButUnknownLocally r → queues_ok r → queues_ok r'.
Proof. intros (Ea & Es & Ek) Em Eu. unfold queues_ok, isSkippedSubject. by rewrite Es, Ek, Em, Eu. Qed.
Lemma same_work_view r r' : same_work r r' → same_view r r'.
Proof. intros (_ & _ & _ & ? & ? & _ & ?). done. Qed.
Lemma so_far_work t0 r r' t : same_work r r' → so_far t0 r t → so_far t0 r' t.
Proof.
  intros Hw. pose proof (same_work_view r r' Hw) as Hv. destruct Hw as (Em & Eu & Ep & _). unfold so_far. rewrite Ep. destruct (currentPhase r).
  - by apply sent_view.
  - intros (g & Hs). exists g. by eapply sent_view.
  - intros (g & Hs). exists g. by eapply sent_view.
  - intros [Hq (g & d & Hs)]. split; [by eapply queues_ok_view|]. exists g, d. by eapply sent_view.
  - intros [Hq [Hu (g & d & p & Hs)]]. split; [by eapply queues_ok_view|]. split; [congruence|]. exists g, d, p. by eapply sent_view.
Qed.
Lemma so_far_all t0 r t : so_far t0 r t → in_all t0 r t.
Proof. unfold so_far, in_all. destruct (currentPhase r); naive_solver. Qed.
Lemma in_all_view t0 r r' t : same_view r r' → in_all t0 r t → in_all t0 r' t.
Proof. intros Hv (g & d & p & Hs). exists g, d, p. by eapply sent_view. Qed.

Lemma compared_ok r : queues_ok (set_queues (missing expected r) (unknown expected r) r).
Proof.
  split; cbn; [intros x|intros x schema]; [unfold unknown; rewrite elem_of_list_to_set, list_elem_of_filter; naive_solver|].
  unfold missing. rewrite map_lookup_filter_Some. naive_solver.
Qed.

(** The same at the end of a turn in the lookup phase, which has sent a lookup. *)
Definition at_end (t0 : list Request) (r : SchemaRegistry) (t : list Request) : Prop :=
  match currentPhase r with SchemaRegistryPhaseLookup => ∃ gets, sent t0 r t gets [] [] | _ => so_far t0 r t end.
Lemma so_far_at_end t0 r t : so_far t0 r t → at_end t0 r t.
Proof. unfold at_end. destruct (currentPhase r) eqn:Ep; try done. unfold so_far. rewrite Ep. eauto. Qed.
Lemma at_end_all t0 r t : at_end t0 r t → in_all t0 r t.
Proof. unfold at_end. destruct (currentPhase r); [|apply so_far_all..]. intros (g & Hs). by exists g, [], []. Qed.

(** One more request of the current phase. *)
Lemma request_at_end t0 r t q : so_far t0 r t → allowed r q → at_end t0 r (t ++ [q]).
Proof.
  unfold so_far, allowed, at_end, so_far. destruct (currentPhase r); try done.
  - intros (-> & _ & Hd & Hp) ->. exists [mkRequest GET (subjectsURL r) None]. split; [by rewrite !app_nil_r|]. auto.
  - intros [[Hq Hm] (g & d & -> & Hg & Hd & Hp)] (x & Hx & ->). split; [done|]. exists g, (d ++ [mkRequest DELETE (subjectURL r x) None]).
    split; [by rewrite !app_nil_r, <- !app_assoc|]. split; [done|]. split; [|done]. apply Forall_app. split; [done|]. constructor; [|done].
    exists x. destruct (Hq x Hx) as (? & ? & ?). done.
  - intros [[Hd0 Hq] [Hu (g & d & p & -> & Hg & Hd & Hp)]] (x & schema & Hx & ->). split; [done|]. split; [done|].
    exists g, d, (p ++ [mkRequest POST (subjectVersionsURL r x) (Some (payload schema))]).
    split; [by rewrite <- !app_assoc|]. split; [done|]. split; [done|]. apply Forall_app. split; [done|]. constructor; [|done].
    exists x, schema. by destruct (Hq x schema Hx).
Qed.

Lemma step_so_far t0 r r' t : at_end t0 r t → phase_step expected r r' →
  same_view r r' ∧ so_far t0 r' t ∨ in_sync r' = true ∧ same_view r r' ∨ currentPhase r = SchemaRegistryPhaseDecode ∧ so_far t0 r' t.
Proof.
  unfold at_end, so_far. intros Ht Hs. destruct Hs as [raw Hp|l Hp Hl|r1 Hp ->|x u Hp Hx ->|Hp Hu|x m Hp Hx ->|Hp Hm]; rewrite Hp in Ht; cbn -[getNextPhase].
  - left. split; [done|]. exact Ht.
  - right; right. split; [done|]. destruct Ht as (g & E & Hg & _). exists g. split; [exact E|]. split; [exact Hg|]. auto.
  - unfold getNextPhase. cbn [negb]. pose proof (compared_ok r) as Hq. cbn in Hq |- *. destruct Ht as (g & Ht).
    case_bool_decide as Hu; cbn [negb]; [|left; split; [done|]; split; [exact Hq|]; by exists g, []].
    case_bool_decide as Hm; cbn [negb]; [right; left; by rewrite in_sync_empty|]. left. split; [done|]. split; [exact Hq|]. split; [done|]. by exists g, [], [].
  - left. split; [done|]. destruct Ht as [Hq (g & d & Ht)].
    assert (queues_ok (set_queues (missingInRegistry r) (inRegistryButUnknownLocally r ∖ {[x]}) r)) as Hq'.
    { destruct Hq as [Hq1 Hq2]. split; [|exact Hq2]. cbn. intros y Hy. apply Hq1. set_solver. }
    case_bool_decide as Hu; (split; [exact Hq'|]); [split; [done|]; by exists g, d, []|by exists g, d].
  - left. split; [done|]. destruct Ht as [Hq (g & d & Ht)]. split; [exact Hq|]. split; [done|]. by exists g, d, [].
  - destruct Ht as [Hq [Hu Ht]]. case_bool_decide as Hm; [right; left; by rewrite in_sync_empty|]. left. split; [done|].
    split; [|split; [exact Hu|exact Ht]]. destruct Hq as [Hq1 Hq2]. split; [exact Hq1|]. cbn. intros y schema Hy. apply Hq2.
    by apply lookup_delete_Some in Hy as [_ ?].
  - right; left. destruct Ht as [_ [Hu _]]. by rewrite in_sync_empty.
Qed.

Lemma loop_sends fuel ctx t0 s err s' :
  so_far t0 (reg s) (log s) → reconcileInternal fuel ctx expected s = Some (err, s') → in_all t0 (reg s') (log s').
Proof.
  revert s. induction fuel as [|fuel IH]; intros s Hs E; [done|]. simpl in E.
  pose proof (turn_sends ctx expected s) as Hq. pose proof (turn_effect ctx expected s) as He. unfold ewp, sends in *.
  assert (at_end t0 (reg s) (log (turn ctx expected s).2)) as Hend.
  { destruct Hq as [->|(q & Hq & ->)]; [by apply so_far_at_end|by apply request_at_end]. }
  destruct (turn ctx expected s) as [[e|done] s1]; cbn in Hend.
  - injection E as <- <-. apply at_end_all in Hend. eapply in_all_view; [|exact Hend]. by apply same_work_view.
  - destruct He as (r' & Hstep & Hw & ->). assert (in_sync (reg s1) = in_sync r') as Hsync.
    { destruct Hw as (Em & Eu & Ep & _). unfold in_sync. by rewrite Em, Eu, Ep. }
    pose proof (step_so_far _ _ _ _ Hend Hstep) as Hstep'. rewrite Hsync in E.
    destruct (in_sync r') eqn:Es.
    + injection E as <- <-. destruct Hstep' as [[Hv _]|[[_ Hv]|[Hp Hfar]]].
      * eapply in_all_view; [by apply same_work_view|]. eapply in_all_view; [exact Hv|]. by apply at_end_all.
      * eapply in_all_view; [by apply same_work_view|]. eapply in_all_view; [exact Hv|]. by apply at_end_all.
      * eapply in_all_view; [by apply same_work_view|]. by apply so_far_all.
    + apply (IH s1); [|exact E]. eapply so_far_work; [exact Hw|]. destruct Hstep' as [[_ ?]|[[? _]|[_ ?]]]; done.
Qed.
End one_call.

(** C24: The requests of a call that starts with the lookup phase are at most one
    lookup, then deletions, then additions: a deletion names a subject that the
    registry listed, that no contract asks for and that does not begin with the
    name of a contract that failed to translate and a dash; an addition carries the
    schema of an expected subject that the registry did not list. *)
Theorem requests_are_justified fuel ctx expected s err s' :
  currentPhase (reg s) = SchemaRegistryPhaseLookup → ReconcileWithSchemas fuel ctx expected s = Some (err, s') →
  ∃ gets dels posts, log s' = log s ++ gets ++ dels ++ posts ∧ (gets = [] ∨ gets = [mkRequest GET (subjectsURL (reg s')) None]) ∧
    Forall (justified_delete expected (reg s')) dels ∧ Forall (justified_add expected (reg s')) posts.
Proof.
  intros Hp E. unfold ReconcileWithSchemas in E.
  destruct (reconcileInternal _ _ _ _) as [[e s1]|] eqn:E1; [|done]. apply (loop_sends expected fuel ctx (log s)) in E1.
  2:{ unfold so_far. cbn. rewrite Hp. split; [by rewrite app_nil_r|]. auto. }
  pose proof (quiet_clock s1) as Hq. unfold in_env in Hq. destruct (clock (r_world s1)) as [now w]. injection E as <- <-. cbn in Hq.
  assert (log (mkRS (end_call e now (reg s1)) w) = log s1) as -> by exact Hq. eapply in_all_view; [|exact E1]. done.
Qed.

(** ** Phases that are never left *)

(** The registry always answers a request with an error. *)
Definition refuses (q : Request) (outcome : Response → option GoErr) : Prop := ∀ ctx (w : W),
  match (http_Do ctx q w).1 with inr (Some resp) => is_Some (outcome resp) | _ => True end.

Definition stuck (r : SchemaRegistry) : Prop :=
  match currentPhase r with
  | SchemaRegistryPhaseDecode => ∃ e, unmarshal_strings (rawSubjectsData r) = inl e
  | SchemaRegistryPhaseRemoveUnknown => ∃ x, inRegistryButUnknownLocally r = {[x]} ∧
      refuses (mkRequest DELETE (subjectURL r x) None) (delete_error x)
  | SchemaRegistryPhaseAddNew => ∃ x schema, missingInRegistry r = {[x := schema]} ∧
      refuses (mkRequest POST (subjectVersionsURL r x) (Some (payload schema))) (post_error x)
  | _ => False
  end.

(** A computation that cannot succeed. *)
Definition must_fail {A} (m : RM A) s : Prop := ewp m (λ _ _, False) (λ _, True) s.

Lemma send_refused ctx d q wrap text outcome s : refuses q outcome →
  ewp (send ctx d q wrap text) (λ resp s', reg s' = reg s ∧ is_Some (outcome resp)) (λ _, True) s.
Proof.
  intros Hr. apply ewp_bind, ewp_steady; [|done|intros c s1 E1].
  { unfold createTimeoutContext. apply steady_bind; [|intros; apply steady_env]. case_match; [|apply steady_ret]. apply steady_bind; [apply steady_env|intros; apply steady_ret]. }
  apply ewp_or; [done|]. apply ewp_bind, ewp_env. cbn. specialize (Hr c (r_world s1).1). destruct (http_Do c q (r_world s1).1) as [[e|[resp|]] w]; cbn in *; done.
Qed.

Lemma stuck_fails ctx expected s : stuck (reg s) → must_fail (turn ctx expected) s.
Proof.
  intros Hs. unfold must_fail. apply ewp_bind, ewp_steady; [apply steady_env|done|intros e s1 E1]. apply ewp_or; [done|].
  apply ewp_bind, ewp_get, ewp_bind. rewrite E1. unfold stuck in Hs. destruct (currentPhase (reg s)); try done; cbn [run_phase].
  - destruct Hs as [e1 Hs]. apply ewp_bind, ewp_steady; [apply steady_time|done|intros u s2 E2]. apply ewp_bind, ewp_get. rewrite E2, E1, Hs. done.
  - destruct Hs as (x & Hx & Href). apply ewp_bind, ewp_steady; [apply steady_time|done|intros u s2 E2]. apply ewp_bind, ewp_get, ewp_bind, ewp_env.
    rewrite E2, E1, Hx. pose proof (map_order_perm (elements ({[x]} : gset string)) (r_world s2)) as Hp. rewrite elements_singleton in Hp.
    apply Permutation_singleton_r in Hp. rewrite elements_singleton, Hp. apply ewp_bind, ewp_on, ewp_bind.
    eapply ewp_mono; [apply send_refused; exact Href| |done]. intros resp s3 [_ [err Herr]]. by rewrite Herr.
  - destruct Hs as (x & schema & Hx & Href). apply ewp_bind, ewp_steady; [apply steady_time|done|intros u s2 E2]. apply ewp_bind, ewp_get, ewp_bind, ewp_env.
    rewrite E2, E1, Hx. pose proof (map_order_perm (map_to_list ({[x := schema]} : gmap string Value)).*1 (r_world s2)) as Hp.
    rewrite map_to_list_singleton in Hp |- *. cbn [fmap list_fmap fst] in Hp |- *. apply Permutation_singleton_r in Hp. rewrite Hp.
    rewrite lookup_singleton_eq. apply ewp_bind, ewp_on, ewp_bind.
    eapply ewp_mono; [apply send_refused; exact Href| |done]. intros resp s3 [_ [err Herr]]. by rewrite Herr.
Qed.

(** Calls with whatever contracts: the prefixes of those that failed, the
    context and the subjects that are expected. *)
Definition call (fuel : nat) (c : list string * Ctx * gmap string Value) : M (RState Traced) (option GoErr) := λ s,
  ReconcileWithSchemas fuel c.1.2 c.2 (mkRS (set_skipPrefixes c.1.1 (reg s)) (r_world s)).
Fixpoint run_calls (fuel : nat) (l : list (list string * Ctx * gmap string Value)) : M (RState Traced) (list (option GoErr)) :=
  match l with
  | [] => mret []
  | c :: l => err ← call fuel c; errs ← run_calls fuel l; mret (err :: errs)
  end.

(** What a stuck call leaves. *)
Definition same_queues (r r' : SchemaRegistry) : Prop :=
  currentPhase r' = currentPhase r ∧ rawSubjectsData r' = rawSubjectsData r ∧ missingInRegistry r' = missingInRegistry r ∧
  inRegistryButUnknownLocally r' = inRegistryButUnknownLocally r ∧ schemaRegistryAddress r' = schemaRegistryAddress r.
Lemma stuck_same r r' : same_queues r r' → stuck r → stuck r'.
Proof. intros (Ep & Er & Em & Eu & Ea). unfold stuck, subjectURL, subjectVersionsURL. by rewrite Ep, Er, Em, Eu, Ea. Qed.
Lemma allowed_same r r' q : same_queues r r' → allowed r' q → allowed r q.
Proof. intros (Ep & Er & Em & Eu & Ea). unfold allowed, subjectURL, subjectVersionsURL, subjectsURL. by rewrite Ep, Em, Eu, Ea. Qed.

Lemma stuck_call fuel c s : stuck (reg s) → ∃ err s' t, call (S fuel) c s = Some (Some err, s') ∧ same_queues (reg s) (reg s') ∧
  log s' = log s ++ t ∧ Forall (allowed (reg s)) t.
Proof.
  intros Hs. destruct c as [[prefixes ctx] expected]. unfold call, ReconcileWithSchemas. cbn [fst snd reg r_world].
  set (s0 := mkRS (begin_call (set_skipPrefixes prefixes (reg s))) (r_world s)). assert (Hs0 : stuck (reg s0)) by exact Hs.
  pose proof (stuck_fails ctx expected s0 Hs0) as Hf. pose proof (turn_effect ctx expected s0) as He. pose proof (turn_sends ctx expected s0) as Hq.
  unfold must_fail, ewp in Hf, He. unfold sends in Hq. cbn [reconcileInternal]. destruct (turn ctx expected s0) as [[e|b] s1]; [|done].
  pose proof (quiet_clock s1) as Hclock. unfold in_env in Hclock. destruct (clock (r_world s1)) as [now w]. unfold log in Hclock. cbn in Hclock, Hq.
  assert (Hqueues : same_queues (reg s) (reg s1)) by (destruct He as (? & ? & ? & ? & ? & ? & ?); done).
  destruct Hq as [Hq|(q & Hq1 & Hq)].
  - eexists e, _, []. split; [reflexivity|]. split; [exact Hqueues|]. unfold log in *. cbn. rewrite app_nil_r, Hclock, Hq. done.
  - eexists e, _, [q]. split; [reflexivity|]. split; [exact Hqueues|]. unfold log in *. cbn. rewrite Hclock, Hq. split; [done|]. by repeat constructor.
Qed.

(** C25: A phase that cannot succeed is never left: once the listed subjects were
    no list of names, or the one subject left to delete or to add is refused,
    every later call fails, whatever contracts it is given, and sends nothing
    but that one deletion or addition: the registry is not looked up again, and
    a corrected contract has no effect. *)
Theorem stuck_phase_is_never_left fuel l s : stuck (reg s) → ∃ errs s' t, run_calls (S fuel) l s = Some (errs, s') ∧
  Forall is_Some errs ∧ same_queues (reg s) (reg s') ∧ log s' = log s ++ t ∧ Forall (λ q, allowed (reg s) q ∧ req_Method q ≠ GET) t.
Proof.
  intros Hs. assert (Hget : ∀ q, allowed (reg s) q → req_Method q ≠ GET).
  { intros q. unfold allowed. unfold stuck in Hs. destruct (currentPhase (reg s)); try done; [by intros (x & _ & ->)|by intros (x & sc & _ & ->)]. }
  enough (∃ errs s' t, run_calls (S fuel) l s = Some (errs, s') ∧ Forall is_Some errs ∧ same_queues (reg s) (reg s') ∧
    log s' = log s ++ t ∧ Forall (allowed (reg s)) t) as (errs & s1 & t & E1 & E2 & E3 & E4 & E5).
  { exists errs, s1, t. repeat (split; [done|]). eapply Forall_impl; [exact E5|]. auto. }
  clear Hget. revert s Hs. induction l as [|c l IH]; intros s Hs.
  - exists [], s, []. by rewrite app_nil_r.
  - destruct (stuck_call fuel c s Hs) as (err & s1 & t & E & Hq & Ht & Hall).
    destruct (IH s1) as (errs & s2 & t2 & E2 & Herrs & Hq2 & Ht2 & Hall2); [by eapply stuck_same|].
    exists (Some err :: errs), s2, (t ++ t2). split; [|split; [by constructor|split; [|split]]].
    + cbn [run_calls]. unfold mbind, M_bind. rewrite E, E2. done.
    + destruct Hq as (? & ? & ? & ? & ?), Hq2 as (? & ? & ? & ? & ?). repeat split; congruence.
    + by rewrite Ht2, Ht, <- app_assoc.
    + apply Forall_app. split; [done|]. eapply Forall_impl; [exact Hall2|]. intros q. by apply allowed_same.
Qed.
End trace.
