(* ===== verification/SchemaRegistrySync.v ===== *)
(** * SchemaRegistrySync: what the reconciliation does to a registry that works

    With a registry that lists its subjects and carries out every deletion and
    addition, a call that starts with a lookup leaves exactly the expected
    subjects and the protected ones; subjects that were there keep the schema
    they had.  The examples show what that means for contracts that change or
    fail. *)

From S2P Require Import Prelude Float64 GoRuntime GoBytes StateMonad FSMManager Documents DataModel DataModelFacts DataModelValidity Translator TranslatorFacts TranslatorProperties SchemaRegistry SchemaRegistryFacts.
Local Open Scope Z_scope.

(** A registry at [address] that does what it is asked. *)
Class Cooperative (W : Type) `{World W} `{HTTP W} `{MapOrder W} (address : string) := {
  content : W → gmap string Value;
  coop_request url : http_NewRequest url = None;
  coop_get ctx w : ∃ l w', http_Do ctx (mkRequest GET (address +:+ "/subjects") None) w =
    (inr (Some (mkResponse 200 (BodyText (Some (VList (VString <$> l)))))), w') ∧ l ≡ₚ (map_to_list (content w)).*1 ∧ content w' = content w;
  coop_delete ctx x w : ∃ status body w', http_Do ctx (mkRequest DELETE (address +:+ "/subjects/" +:+ x) None) w =
    (inr (Some (mkResponse status body)), w') ∧ status ∈ [200; 204] ∧ content w' = delete x (content w);
  coop_post ctx x v w : ∃ status body w', http_Do ctx (mkRequest POST (address +:+ "/subjects/" +:+ x +:+ "/versions") (Some v)) w =
    (inr (Some (mkResponse status body)), w') ∧ status ∈ [200; 201] ∧ content w' = <[x := v]> (content w);
  coop_clock w : content (clock w).2 = content w;
  coop_order l w : content (map_order l w).2 = content w;
}.

Section sync.
Context {W : Type} `{Cooperative W address}.
Context (ctx : Ctx) (Hctx : never_ends ctx).
Local Abbreviation RM := (ES (RState W)).
Implicit Types (s : RState W).

Lemma no_deadline : ctx_Deadline ctx = None.
Proof.
  specialize (Hctx (default 0 (ctx_Deadline ctx))). unfold ctx_Err_at, passed in Hctx. destruct (ctx_Deadline ctx) as [d|]; [|done]. cbn in Hctx.
  rewrite Z.leb_refl in Hctx. destruct (ctx_cancelled_at ctx) as [c|]; [|done]. destruct (c <=? d); [|done]. by destruct (_ <? d).
Qed.

(** The state but for the clock and the like. *)
Definition undisturbed s s' : Prop := reg s' = reg s ∧ content (r_world s') = content (r_world s).

Lemma time_runs minTime text s : enough_time ctx minTime text s = (inr tt, s).
Proof. unfold enough_time. by rewrite no_deadline. Qed.
Lemma ctx_runs s : ∃ s', in_env (ctx_Err ctx) s = (inr None, s') ∧ undisturbed s s'.
Proof.
  unfold in_env, ctx_Err. pose proof (coop_clock (r_world s)) as Hc. destruct (clock (r_world s)) as [t w]. rewrite Hctx. eexists. split; [done|]. done.
Qed.
Lemma order_runs l s : ∃ k s', in_env (map_order l) s = (inr k, s') ∧ k ≡ₚ l ∧ undisturbed s s'.
Proof.
  unfold in_env. pose proof (coop_order l (r_world s)) as Hc. pose proof (map_order_perm l (r_world s)) as Hp. destruct (map_order l (r_world s)) as [k w].
  eexists _, _. split; [done|]. done.
Qed.
Lemma bind_run {A B} (m : RM A) (f : A → RM B) s a s1 : m s = (inr a, s1) → (m ≫= f) s = f a s1.
Proof. unfold mbind, ES_bind. by intros ->. Qed.
(** Sending a request that the registry answers. *)
Lemma send_runs d q wrap text s : ∃ c s1, undisturbed s s1 ∧
  ∀ resp w, http_Do c q (r_world s1) = (inr (Some resp), w) → send ctx d q wrap text s = (inr resp, mkRS (reg s) w).
Proof.
  unfold send, createTimeoutContext. rewrite no_deadline. unfold mbind, ES_bind, mret, ES_ret, in_env, WithTimeout.
  pose proof (coop_clock (r_world s)) as Hc. destruct (clock (r_world s)) as [t w1]. eexists _, (mkRS (reg s) w1). split; [done|].
  intros resp w Hdo. cbn in Hdo. unfold or_error. rewrite coop_request. unfold mbind, ES_bind, in_env. cbn. by rewrite Hdo.
Qed.

Section expected.
Context (expected : gmap string Value) (before : gmap string Value) (prefixes : list string).

Definition protected (x : string) : bool := existsb (λ prefix, has_prefix prefix x) prefixes.
(** What the registry should hold in the end. *)
Definition target (x : string) : option Value :=
  match before !! x with
  | Some v => if bool_decide (is_Some (expected !! x)) || protected x then Some v else None
  | None => payload <$> expected !! x
  end.

(** What is left to do once the comparison is made. *)
Definition remaining (r : SchemaRegistry) (c : gmap string Value) : Prop :=
  ∀ x, target x = match missingInRegistry r !! x with
                  | Some v => Some (payload v)
                  | None => if bool_decide (x ∈ inRegistryButUnknownLocally r) then None else c !! x
                  end.

Definition on_the_way s : Prop :=
  skipPrefixes (reg s) = prefixes ∧ schemaRegistryAddress (reg s) = address ∧
  match currentPhase (reg s) with
  | SchemaRegistryPhaseLookup => content (r_world s) = before
  | SchemaRegistryPhaseDecode => content (r_world s) = before ∧
      ∃ l, rawSubjectsData (reg s) = Some (VList (VString <$> l)) ∧ l ≡ₚ (map_to_list before).*1
  | SchemaRegistryPhaseCompare => content (r_world s) = before ∧ registrySubjects (reg s) ≡ₚ (map_to_list before).*1
  | SchemaRegistryPhaseRemoveUnknown => remaining (reg s) (content (r_world s)) ∧ (∀ x, x ∈ inRegistryButUnknownLocally (reg s) → missingInRegistry (reg s) !! x = None)
  | SchemaRegistryPhaseAddNew => remaining (reg s) (content (r_world s)) ∧ inRegistryButUnknownLocally (reg s) = ∅
  end.
Definition arrived s : Prop := currentPhase (reg s) = SchemaRegistryPhaseLookup ∧ ∀ x, content (r_world s) !! x = target x.

Lemma listed x l : l ≡ₚ (map_to_list before).*1 → x ∈ l ↔ is_Some (before !! x).
Proof.
  intros ->. rewrite list_elem_of_fmap. split; [intros ([k v] & -> & Hkv); apply elem_of_map_to_list in Hkv; by eexists|].
  intros [v Hv]. exists (x, v). by rewrite elem_of_map_to_list.
Qed.

Lemma compared_remaining r c : skipPrefixes r = prefixes → c = before → registrySubjects r ≡ₚ (map_to_list before).*1 →
  remaining (set_queues (missing expected r) (unknown expected r) r) c ∧ (∀ x, x ∈ unknown expected r → missing expected r !! x = None).
Proof.
  intros Hp -> Hl. assert (Hin : ∀ x, x ∈ registrySubjects r ↔ is_Some (before !! x)) by (intros x; by apply listed). split.
  - intros x. cbn. unfold target, missing, unknown. destruct (before !! x) as [v|] eqn:Hv.
    + assert (x ∈ registrySubjects r) as Hx by (apply Hin; by eexists).
      rewrite (proj2 (map_lookup_filter_None _ _ _)) by (right; naive_solver).
      unfold protected. rewrite <- Hp. fold (isSkippedSubject r x). destruct (expected !! x) as [e|] eqn:He.
      * rewrite (bool_decide_true (is_Some _)) by (by eexists). cbn. rewrite bool_decide_false; [done|].
        rewrite elem_of_list_to_set, list_elem_of_filter. rewrite He. naive_solver.
      * rewrite (bool_decide_false (is_Some _)) by (by intros [? ?]). cbn. destruct (isSkippedSubject r x) eqn:Hs.
        { rewrite bool_decide_false; [done|]. rewrite elem_of_list_to_set, list_elem_of_filter. rewrite Hs. naive_solver. }
        rewrite bool_decide_true; [done|]. rewrite elem_of_list_to_set, list_elem_of_filter. done.
    + assert (x ∉ registrySubjects r) as Hx by (rewrite Hin, Hv; by intros [? ?]). destruct (expected !! x) as [e|] eqn:He.
      * rewrite (proj2 (map_lookup_filter_Some _ _ _ _) (conj He Hx)). done.
      * rewrite (proj2 (map_lookup_filter_None _ _ _)) by (by left). rewrite bool_decide_false; [done|].
        rewrite elem_of_list_to_set, list_elem_of_filter. naive_solver.
  - intros x. unfold unknown, missing. rewrite elem_of_list_to_set, list_elem_of_filter. intros [[He _] Hx]. apply map_lookup_filter_None. by left.
Qed.

Lemma lookup_runs s : schemaRegistryAddress (reg s) = address → ∃ l s', lookup_phase ctx s = (inr true, s') ∧
  reg s' = set_raw (Some (VList (VString <$> l))) (reg s) ∧ l ≡ₚ (map_to_list (content (r_world s))).*1 ∧ content (r_world s') = content (r_world s).
Proof.
  intros Ha. unfold lookup_phase. rewrite (bind_run _ _ _ _ _ (time_runs _ _ s)), (bind_run get_reg _ s _ _ eq_refl). unfold subjectsURL. rewrite Ha.
  destruct (send_runs MinimumLookupTime (mkRequest GET (address +:+ "/subjects") None) id "received nil response from schema registry" s) as (c & s1 & [_ Hc] & Hsend).
  destruct (coop_get c (r_world s1)) as (l & w & Hdo & Hl & Hw). rewrite (bind_run _ _ _ _ _ (Hsend _ _ Hdo)). cbn. eexists l, _. split; [done|].
  split; [done|]. cbn. split; [by rewrite <- Hc|by rewrite Hw].
Qed.

Lemma unmarshal_list l : unmarshal_strings (Some (VList (VString <$> l))) = inr l.
Proof. unfold unmarshal_strings. assert (mapM unmarshal_string (VString <$> l) = Some l) as ->; [|done]. induction l as [|x l IH]; [done|]. cbn. by rewrite IH. Qed.

Lemma decode_runs l s : rawSubjectsData (reg s) = Some (VList (VString <$> l)) →
  decode ctx s = (inr true, mkRS (set_raw None (set_subjects l (reg s))) (r_world s)).
Proof. intros Hraw. unfold decode. rewrite (bind_run _ _ _ _ _ (time_runs _ _ s)), (bind_run get_reg _ s _ _ eq_refl). by rewrite Hraw, unmarshal_list. Qed.

Lemma compare_runs s : compare ctx expected s = (inr true, mkRS (set_queues (missing expected (reg s)) (unknown expected (reg s)) (reg s)) (r_world s)).
Proof. unfold compare. by rewrite (bind_run _ _ _ _ _ (time_runs _ _ s)). Qed.

Lemma remove_runs s : schemaRegistryAddress (reg s) = address → ∃ s', if bool_decide (inRegistryButUnknownLocally (reg s) = ∅)
  then removeUnknown ctx s = (inr true, s') ∧ undisturbed s s'
  else ∃ x u, x ∈ inRegistryButUnknownLocally (reg s) ∧ u = inRegistryButUnknownLocally (reg s) ∖ {[x]} ∧
    removeUnknown ctx s = (inr (bool_decide (u = ∅)), s') ∧ reg s' = set_queues (missingInRegistry (reg s)) u (set_subject x (reg s)) ∧
    content (r_world s') = delete x (content (r_world s)).
Proof.
  intros Ha. unfold removeUnknown. rewrite (bind_run _ _ _ _ _ (time_runs _ _ s)), (bind_run get_reg _ s _ _ eq_refl).
  destruct (order_runs (elements (inRegistryButUnknownLocally (reg s))) s) as (k & s1 & E1 & Hk & [Hr1 Hc1]). rewrite (bind_run _ _ _ _ _ E1). case_bool_decide as Hu.
  { rewrite Hu, elements_empty in Hk. apply Permutation_nil_r in Hk as ->. by exists s1. }
  destruct k as [|x k]; [apply Permutation_nil_l in Hk; symmetry in Hk; by apply elements_empty_inv, leibniz_equiv in Hk|].
  cbv beta iota zeta. rewrite (bind_run (on_reg _) _ s1 _ _ eq_refl). unfold subjectURL. rewrite Ha.
  destruct (send_runs MinimumRemoveTime (mkRequest DELETE (address +:+ "/subjects/" +:+ x) None) (EWrap ("failed to delete subject " +:+ x +:+ ": "))
    ("received nil response from schema registry for DELETE " +:+ x) (mkRS (set_subject x (reg s1)) (r_world s1))) as (c & s2 & [_ Hc2] & Hsend).
  destruct (coop_delete c x (r_world s2)) as (status & body & w & Hdo & Hst & Hw). rewrite (bind_run _ _ _ _ _ (Hsend _ _ Hdo)). unfold delete_error. cbn [StatusCode].
  rewrite bool_decide_true by set_solver. cbn. rewrite Hr1. eexists. exists x, (inRegistryButUnknownLocally (reg s) ∖ {[x]}).
  split; [apply elem_of_elements; rewrite <- Hk; by left|]. split; [done|]. split; [reflexivity|]. split; [done|]. cbn. rewrite Hw, Hc2. cbn. by rewrite Hc1.
Qed.

Lemma add_runs s : schemaRegistryAddress (reg s) = address → ∃ s', if bool_decide (missingInRegistry (reg s) = ∅)
  then addNew ctx s = (inr true, s') ∧ undisturbed s s'
  else ∃ x v m, missingInRegistry (reg s) !! x = Some v ∧ m = delete x (missingInRegistry (reg s)) ∧
    addNew ctx s = (inr (bool_decide (m = ∅)), s') ∧ reg s' = set_queues m (inRegistryButUnknownLocally (reg s)) (set_subject x (reg s)) ∧
    content (r_world s') = <[x := payload v]> (content (r_world s)).
Proof.
  intros Ha. unfold addNew. rewrite (bind_run _ _ _ _ _ (time_runs _ _ s)), (bind_run get_reg _ s _ _ eq_refl).
  destruct (order_runs (map_to_list (missingInRegistry (reg s))).*1 s) as (k & s1 & E1 & Hk & [Hr1 Hc1]). rewrite (bind_run _ _ _ _ _ E1). case_bool_decide as Hm.
  { rewrite Hm in Hk. apply Permutation_nil_r in Hk as ->. by exists s1. }
  destruct k as [|x k]; [apply Permutation_nil_l in Hk; symmetry in Hk; by apply fmap_nil_inv, map_to_list_empty_iff in Hk|].
  assert (∃ v, missingInRegistry (reg s) !! x = Some v) as [v Hv].
  { assert (x ∈ (map_to_list (missingInRegistry (reg s))).*1) as ([y v] & -> & Hkv)%list_elem_of_fmap by (rewrite <- Hk; by left).
    apply elem_of_map_to_list in Hkv. by eexists. }
  cbv beta iota zeta. rewrite (bind_run (on_reg _) _ s1 _ _ eq_refl). unfold subjectVersionsURL. rewrite Ha, Hv. cbn [default].
  destruct (send_runs MinimumAddTime (mkRequest POST (address +:+ "/subjects/" +:+ x +:+ "/versions") (Some (payload v))) (EWrap ("failed to add subject " +:+ x +:+ ": "))
    ("received nil response from schema registry for POST " +:+ x) (mkRS (set_subject x (reg s1)) (r_world s1))) as (c & s2 & [_ Hc2] & Hsend).
  destruct (coop_post c x (payload v) (r_world s2)) as (status & body & w & Hdo & Hst & Hw). rewrite (bind_run _ _ _ _ _ (Hsend _ _ Hdo)). unfold post_error. cbn [StatusCode].
  rewrite bool_decide_true by set_solver. cbn. rewrite Hr1. eexists. exists x, v, (delete x (missingInRegistry (reg s))).
  split; [done|]. split; [done|]. split; [reflexivity|]. split; [done|]. cbn. rewrite Hw, Hc2. cbn. by rewrite Hc1.
Qed.

(** A turn whose phase succeeds. *)
Lemma turn_of_phase s s1 b s2 : in_env (ctx_Err ctx) s = (inr None, s1) → run_phase ctx expected (currentPhase (reg s1)) s1 = (inr b, s2) →
  turn ctx expected s = if b : bool then (inr (in_sync (advance (reg s2))), mkRS (advance (reg s2)) (r_world s2)) else (inr false, s2).
Proof. intros E1 E2. unfold turn, mbind, ES_bind. rewrite E1. unfold or_error, get_reg at 1. rewrite E2. by destruct b. Qed.

Definition progresses s (done : bool) s' : Prop := if done then arrived s' else on_the_way s'.

Lemma remaining_deleted r c x u : remaining r c → x ∈ inRegistryButUnknownLocally r → missingInRegistry r !! x = None →
  u = inRegistryButUnknownLocally r ∖ {[x]} → remaining (set_queues (missingInRegistry r) u r) (delete x c).
Proof.
  intros Hr Hx Hm -> y. rewrite (Hr y). cbn. destruct (missingInRegistry r !! y) as [v|] eqn:Hy; [done|].
  destruct (decide (y = x)) as [->|Hne].
  - rewrite bool_decide_true by done. rewrite bool_decide_false by set_solver. by rewrite lookup_delete_eq.
  - rewrite lookup_delete_ne by done. assert (y ∈ inRegistryButUnknownLocally r ↔ y ∈ inRegistryButUnknownLocally r ∖ {[x]}) as Hiff by set_solver.
    by rewrite (bool_decide_ext _ _ Hiff).
Qed.
Lemma remaining_added r c x v m : remaining r c → inRegistryButUnknownLocally r = ∅ → missingInRegistry r !! x = Some v →
  m = delete x (missingInRegistry r) → remaining (set_queues m (inRegistryButUnknownLocally r) r) (<[x := payload v]> c).
Proof.
  intros Hr Hu Hv -> y. rewrite (Hr y). cbn. rewrite Hu. destruct (decide (y = x)) as [->|Hne].
  - rewrite Hv, lookup_delete_eq, lookup_insert_eq. by rewrite bool_decide_false by set_solver.
  - rewrite lookup_delete_ne, lookup_insert_ne by done. done.
Qed.
Lemma remaining_none r c : remaining r c → missingInRegistry r = ∅ → inRegistryButUnknownLocally r = ∅ → ∀ x, c !! x = target x.
Proof. intros Hr Hm Hu x. rewrite (Hr x), Hm, Hu, lookup_empty. by rewrite bool_decide_false by set_solver. Qed.
(** Only the two queues matter. *)
Lemma remaining_same r r' c : missingInRegistry r' = missingInRegistry r → inRegistryButUnknownLocally r' = inRegistryButUnknownLocally r →
  remaining r c → remaining r' c.
Proof. intros Hm Hu Hr x. rewrite (Hr x), Hm, Hu. done. Qed.

Lemma advanced_add s : skipPrefixes (reg s) = prefixes → schemaRegistryAddress (reg s) = address →
  remaining (reg s) (content (r_world s)) → inRegistryButUnknownLocally (reg s) = ∅ → currentPhase (reg s) = SchemaRegistryPhaseAddNew →
  missingInRegistry (reg s) = ∅ → ∃ s', (inr (in_sync (advance (reg s))) : GoErr + bool, mkRS (advance (reg s)) (r_world s)) = (inr true, s') ∧ arrived s'.
Proof.
  intros Hk Ha Hr Hu Hp Hm. unfold advance. rewrite Hp. unfold getNextPhase. cbn [negb]. rewrite (bool_decide_true (_ = ∅)) by done. cbn [negb].
  rewrite in_sync_empty by done. eexists. split; [reflexivity|]. split; [done|]. cbn. by apply (remaining_none (reg s)).
Qed.

Lemma in_sync_false r : currentPhase r ≠ SchemaRegistryPhaseLookup → in_sync r = false.
Proof. intros Hp. unfold in_sync. by rewrite (bool_decide_false (currentPhase r = _)). Qed.

Lemma turn_progress s : on_the_way s → ∃ done s', turn ctx expected s = (inr done, s') ∧ progresses s done s'.
Proof.
  intros (Hk & Ha & Hs). destruct (ctx_runs s) as (s1 & E1 & [Hr1 Hc1]). rewrite <- Hr1 in Hk, Ha. unfold progresses.
  destruct (currentPhase (reg s)) eqn:Hp; rewrite <- Hr1 in Hp; rewrite <- ?Hc1, <- ?Hr1 in Hs.
  - destruct (lookup_runs s1 Ha) as (l & s2 & E2 & Hr2 & Hl & Hc2). rewrite (turn_of_phase s s1 true s2) by (done || by rewrite Hp).
    eexists _, _. split; [reflexivity|]. unfold advance, in_sync. rewrite Hr2. cbn. rewrite Hp. cbn.
    split; [exact Hk|]. split; [exact Ha|]. cbn. split; [by rewrite Hc2|]. exists l. split; [done|]. by rewrite Hl, Hs.
  - destruct Hs as (Hb & l & Hraw & Hl). pose proof (decode_runs l s1 Hraw) as E2. rewrite (turn_of_phase s s1 true _ E1) by (rewrite Hp; exact E2).
    eexists _, _. split; [reflexivity|]. unfold advance, in_sync. cbn. rewrite Hp. cbn. done.
  - destruct Hs as [Hb Hl]. pose proof (compare_runs s1) as E2. rewrite (turn_of_phase s s1 true _ E1) by (rewrite Hp; exact E2).
    destruct (compared_remaining (reg s1) (content (r_world s1)) Hk Hb Hl) as [Hrem Hdis].
    eexists _, _. split; [reflexivity|]. set (r2 := set_queues _ _ _) in *. cbn [reg r_world]. unfold advance.
    assert (currentPhase r2 = SchemaRegistryPhaseCompare) as -> by exact Hp. unfold getNextPhase. cbn [negb].
    case_bool_decide as Hu; cbn [negb]; [|done]. case_bool_decide as Hm; cbn [negb]; [|unfold in_sync; cbn; by rewrite ?bool_decide_false by done].
    rewrite in_sync_empty by done. split; [done|]. cbn. by apply (remaining_none r2).
  - destruct Hs as [Hrem Hdis]. destruct (remove_runs s1 Ha) as (s2 & Hs2). case_bool_decide as Hu.
    + destruct Hs2 as [E2 [Hr2 Hc2]]. rewrite (turn_of_phase s s1 true s2) by (done || by rewrite Hp). eexists _, _. split; [reflexivity|].
      unfold advance. rewrite Hr2, Hp. unfold getNextPhase. cbn [negb]. rewrite bool_decide_true by done. rewrite in_sync_false by done.
      unfold on_the_way. cbn. by rewrite Hc2.
    + destruct Hs2 as (x & u & Hx & Eu & E2 & Hr2 & Hc2). rewrite (turn_of_phase s s1 _ s2 E1) by (rewrite Hp; exact E2).
      pose proof (remaining_deleted _ _ _ _ Hrem Hx (Hdis _ Hx) Eu) as Hrem2. case_bool_decide as Hemp; (eexists _, _; split; [reflexivity|]).
      * unfold advance. rewrite Hr2. cbn [currentPhase set_queues set_subject]. rewrite Hp. unfold getNextPhase. cbn [negb inRegistryButUnknownLocally set_queues].
        rewrite bool_decide_true by done. rewrite in_sync_false by done. unfold on_the_way. cbn. by rewrite Hc2.
      * unfold on_the_way. rewrite Hr2. cbn. rewrite Hp, Hc2. split; [done|]. split; [done|]. split; [done|]. subst u. intros y Hy. apply Hdis. set_solver.
  - destruct Hs as [Hrem Hu]. destruct (add_runs s1 Ha) as (s2 & Hs2). case_bool_decide as Hm.
    + destruct Hs2 as [E2 [Hr2 Hc2]]. rewrite (turn_of_phase s s1 true s2) by (done || by rewrite Hp).
      destruct (advanced_add s2) as (s3 & -> & Harr); [congruence|congruence|by rewrite Hr2, Hc2|congruence|congruence|congruence|]. by exists true, s3.
    + destruct Hs2 as (x & v & m & Hv & Em & E2 & Hr2 & Hc2). rewrite (turn_of_phase s s1 _ s2 E1) by (rewrite Hp; exact E2).
      pose proof (remaining_added _ _ _ _ _ Hrem Hu Hv Em) as Hrem2. case_bool_decide as Hemp.
      * destruct (advanced_add s2) as (s3 & -> & Harr); [by rewrite Hr2|by rewrite Hr2|rewrite Hr2, Hc2; exact Hrem2|by rewrite Hr2|by rewrite Hr2|by rewrite Hr2|]. by exists true, s3.
      * eexists _, _. split; [reflexivity|]. unfold on_the_way. rewrite Hr2. cbn. rewrite Hp, Hc2. done.
Qed.

Lemma loop_arrives fuel s err s' : on_the_way s → reconcileInternal fuel ctx expected s = Some (err, s') → err = None ∧ arrived s'.
Proof.
  revert s. induction fuel as [|fuel IH]; intros s Hs E; [done|]. cbn [reconcileInternal] in E.
  destruct (turn_progress s Hs) as (done & s1 & E1 & Hprog). rewrite E1 in E. destruct done; [by injection E as <- <-|]. by apply (IH s1).
Qed.
End expected.

(** C23: On a registry that works, a call that starts with the lookup phase
    returns without an error and leaves exactly this: every subject that was
    there keeps its schema if it is expected or begins with the name of a
    contract that failed and a dash, and is deleted otherwise; every expected subject that
    was not there is added with its schema; and the next call starts with a
    lookup again. *)
Theorem registry_is_synchronised expected s :
  currentPhase (reg s) = SchemaRegistryPhaseLookup → schemaRegistryAddress (reg s) = address →
  ∃ n s', (∀ fuel, (n ≤ fuel)%nat → ReconcileWithSchemas fuel ctx expected s = Some (None, s')) ∧
    currentPhase (reg s') = SchemaRegistryPhaseLookup ∧
    ∀ x, content (r_world s') !! x = target expected (content (r_world s)) (skipPrefixes (reg s)) x.
Proof.
  intros Hp Ha. set (s0 := mkRS (begin_call (reg s)) (r_world s)).
  destruct (always_ends ctx expected s0) as (n & [err s1] & Hn).
  destruct (loop_arrives expected (content (r_world s)) (skipPrefixes (reg s)) n s0 err s1) as [-> [Hp1 Hc1]]; [|by apply Hn|].
  { unfold on_the_way. cbn. by rewrite Hp. }
  pose proof (coop_clock (r_world s1)) as Hc. destruct (clock (r_world s1)) as [now w] eqn:Ec. exists n, (mkRS (end_call None now (reg s1)) w).
  split; [|split; [done|]; intros x; cbn; rewrite <- Hc1; f_equal; exact Hc].
  intros fuel Hf. unfold ReconcileWithSchemas. fold s0. rewrite Hn by done. by rewrite Ec.
Qed.
End sync.
