(* ===== verification/SchemaRegistryExamples.v ===== *)
(** * SchemaRegistryExamples: a registry, and what the reconciliation does to it

    A registry that works, which shows that the hypotheses of the theorems on
    the schema registry hold somewhere, and the runs in which schemas are lost
    or left behind. *)

From S2P Require Import Prelude Float64 GoRuntime GoBytes StateMonad FSMManager Documents DataModel DataModelFacts DataModelValidity Translator TranslatorFacts TranslatorProperties SchemaRegistry SchemaRegistryFacts SchemaRegistryRequests SchemaRegistrySync.
Local Open Scope Z_scope.

(** ** A registry *)

(** The schemas by subject, and the number of deletions that still fail. *)
Record DemoRegistry := mkDemo { stored : gmap string Value; failures : nat }.
Definition here : string := DefaultSchemaRegistryAddress.

#[local] Instance demo_world : World DemoRegistry := {| clock w := (0, w); randw w := (0, w) |}.
#[local] Program Instance demo_order : MapOrder DemoRegistry := {| map_order l w := (l, w) |}.
Next Obligation. done. Qed.

(** The text between a prefix and a suffix. *)
Definition between (a c s : string) : string := String.substring (String.length a) (String.length s - String.length a - String.length c) s.
Lemma length_app_string (a b : string) : String.length (a +:+ b) = (String.length a + String.length b)%nat.
Proof. induction a as [|x a IH]; [done|]. change (S (String.length (a +:+ b)) = S (String.length a + String.length b)). by rewrite IH. Qed.
Lemma substring_app (a b c : string) : String.substring (String.length a) (String.length b) (a +:+ b +:+ c) = b.
Proof.
  induction a as [|x a IH]; [|exact IH]. induction b as [|x b IHb]; [by destruct c|]. change (String x (String.substring 0 (String.length b) (b +:+ c)) = String x b).
  f_equal. exact IHb.
Qed.
Lemma between_app a b c : between a c (a +:+ b +:+ c) = b.
Proof.
  unfold between. rewrite !length_app_string. replace (_ + (_ + _) - _ - _)%nat with (String.length b) by lia. apply substring_app.
Qed.

Definition answer (status : Z) (json : option Value) : GoErr + option Response := inr (Some (mkResponse status (BodyText json))).
Definition subjects_of (w : DemoRegistry) : Value := VList (VString <$> (map_to_list (stored w)).*1).

(** A registry that carries out what it is asked. *)
Definition carry_out (q : Request) (w : DemoRegistry) : (GoErr + option Response) * DemoRegistry :=
  match req_Method q with
  | GET => (answer 200 (Some (subjects_of w)), w)
  | DELETE => (answer 200 None, mkDemo (delete (between (here +:+ "/subjects/") "" (req_URL q)) (stored w)) (failures w))
  | POST => (answer 200 None, mkDemo (<[between (here +:+ "/subjects/") "/versions" (req_URL q) := default VNil (req_Body q)]> (stored w)) (failures w))
  end.
#[local] Instance demo_http : HTTP DemoRegistry := {|
  http_NewRequest _ := None; http_Do _ q w := carry_out q w;
  json_Unmarshal_error _ := ENew "json: cannot unmarshal"; sprintf_s _ := "" |}.

Lemma url_app (x c : string) : here +:+ "/subjects/" +:+ x +:+ c = (here +:+ "/subjects/") +:+ x +:+ c.
Proof. reflexivity. Qed.

#[local] Program Instance demo_cooperative : Cooperative DemoRegistry here := {| content := stored |}.
Next Obligation. done. Qed.
Next Obligation. intros ctx w. cbn. by eexists _, _. Qed.
Next Obligation.
  intros ctx x w. cbn [http_Do demo_http]. unfold carry_out. cbn [req_Method req_URL stored].
  pose proof (between_app (here +:+ "/subjects/") x "") as E. rewrite (string_app_nil_r x) in E. unfold answer.
  eexists _, _, _. split; [reflexivity|]. split; [set_solver|]. cbn [stored]. by rewrite <- E at 2.
Qed.
Next Obligation.
  intros ctx x v w. cbn [http_Do demo_http]. unfold carry_out. cbn [req_Method req_URL stored].
  pose proof (between_app (here +:+ "/subjects/") x "/versions") as E. unfold answer.
  eexists _, _, _. split; [reflexivity|]. split; [set_solver|]. cbn [stored req_Body default]. by rewrite <- E at 2.
Qed.
Next Obligation. done. Qed.
Next Obligation. done. Qed.

(** ** Witnesses *)

Definition fresh (m : gmap string Value) : RState DemoRegistry := mkRS (NewSchemaRegistry here) (mkDemo m O).
Definition held (r : option (option GoErr * RState DemoRegistry)) : option (list string) := (λ p, (map_to_list (stored (r_world p.2))).*1) <$> r.

Definition demo_expected : gmap string Value := {["_pump_v1-timeseries-number" := VText VNil]}.

Lemma registry_is_synchronised_witness :
  held (ReconcileWithSchemas 10 Background demo_expected (fresh {["_old_v1-timeseries-number" := VText VNil]})) = Some ["_pump_v1-timeseries-number"] ∧
  ∃ n s', (∀ fuel, (n ≤ fuel)%nat → ReconcileWithSchemas fuel Background demo_expected (fresh {["_old_v1-timeseries-number" := VText VNil]}) = Some (None, s')) ∧
    currentPhase (reg s') = SchemaRegistryPhaseLookup.
Proof.
  split; [vm_compute; reflexivity|].
  destruct (registry_is_synchronised (W := DemoRegistry) (address := here) Background demo_never_ends demo_expected
    (fresh {["_old_v1-timeseries-number" := VText VNil]}) eq_refl eq_refl) as (n & s' & Hrun & Hp & _).
  exists n, s'. split; [exact Hrun|exact Hp].
Defined.

(** The requests of that run. *)
Definition traced_fresh (m : gmap string Value) : RState (Traced (W := DemoRegistry)) := mkRS (NewSchemaRegistry here) (mkDemo m O, []).
Definition traced_run := ReconcileWithSchemas (W := Traced (W := DemoRegistry)) (H := traced_world) (H0 := traced_http) (H1 := traced_order)
  10 Background demo_expected (traced_fresh {["_old_v1-timeseries-number" := VText VNil]}).

Lemma requests_are_justified_witness : ∃ err s', traced_run = Some (err, s') ∧
  log s' = [mkRequest GET (here +:+ "/subjects") None; mkRequest DELETE (here +:+ "/subjects/_old_v1-timeseries-number") None;
            mkRequest POST (here +:+ "/subjects/_pump_v1-timeseries-number/versions") (Some (payload (VText VNil)))] ∧
  ∃ gets dels posts, log s' = gets ++ dels ++ posts ∧ Forall (justified_delete demo_expected (reg s')) dels.
Proof.
  destruct traced_run as [[err s']|] eqn:E; [|vm_compute in E; discriminate]. exists err, s'. split; [reflexivity|].
  pose proof (requests_are_justified (W := DemoRegistry) 10 Background demo_expected (traced_fresh {["_old_v1-timeseries-number" := VText VNil]}) err s' eq_refl E)
    as (gets & dels & posts & Ht & _ & Hd & _).
  split; [vm_compute in E; injection E as <- <-; reflexivity|]. exists gets, dels, posts. split; [exact Ht|exact Hd].
Defined.

(** A response that was no list of names. *)
Definition undecodable : RState (Traced (W := DemoRegistry)) :=
  mkRS (set_raw (Some (VMap [])) (set_phase SchemaRegistryPhaseDecode (NewSchemaRegistry here))) (mkDemo ∅ O, []).

Lemma stuck_phase_is_never_left_witness : stuck (W := DemoRegistry) (reg undecodable) ∧
  ∃ errs s' t, run_calls (W := DemoRegistry) 10 [([], Background, demo_expected); ([], Background, ∅)] undecodable = Some (errs, s') ∧ Forall is_Some errs ∧ log s' = t.
Proof.
  assert (stuck (W := DemoRegistry) (reg undecodable)) as Hs by (eexists; reflexivity). split; [exact Hs|].
  destruct (stuck_phase_is_never_left (W := DemoRegistry) 9 [([], Background, demo_expected); ([], Background, ∅)] undecodable Hs)
    as (errs & s' & t & Hrun & Herrs & _ & Ht & _).
  exists errs, s', (log s'). split; [exact Hrun|]. split; [exact Herrs|reflexivity].
Defined.

(** ** Schemas that are lost or left behind *)

Definition pump_model (l : Structure) : DataModelsConfig := mkModels {["v1" := l]} "pump" "".
Definition reconcile (contract : string) (l : Structure) (m : gmap string Value) : option (list string) :=
  held (Reconcile map_to_list 10 Background [pump_model l] [mkContract contract (Some (mkModelRef "pump" "v1"))] ∅ (fresh m)).

(** A contract whose model does not translate any more loses its schemas unless
    its name carries the version: the subjects of [_pump] begin with [_pump_v1-],
    the protected prefix is [_pump-]. *)
Example failed_contract_loses_its_schemas :
  reconcile "_pump" [("speed", demo_leaf)] ∅ = Some ["_pump_v1-timeseries-number"] ∧
  reconcile "_pump" [("speed", demo_ref "unknown" "v1")] {["_pump_v1-timeseries-number" := VNil]} = Some [] ∧
  reconcile "_pump_v1" [("speed", demo_ref "unknown" "v1")] {["_pump_v1-timeseries-number" := VNil]} = Some ["_pump_v1-timeseries-number"].
Proof. vm_compute. repeat split. Qed.

(** Subjects are compared by name: a schema that has changed is not sent. *)
Example changed_schema_is_not_sent :
  (λ p, stored (r_world p.2)) <$> Reconcile map_to_list 10 Background [pump_model [("speed", demo_leaf); ("power", demo_leaf)]]
    [mkContract "_pump" (Some (mkModelRef "pump" "v1"))] ∅ (fresh {["_pump_v1-timeseries-number" := VNil]}) =
  Some {["_pump_v1-timeseries-number" := VNil]}.
Proof. vm_compute. reflexivity. Qed.

(** A call that goes on with the queue of an earlier one deletes a subject that
    is expected by now, and reports success. *)
Definition flaky_http : HTTP DemoRegistry := {|
  http_NewRequest _ := None;
  http_Do _ q w := match req_Method q, failures w with DELETE, S n => (answer 503 None, mkDemo (stored w) n) | _, _ => carry_out q w end;
  json_Unmarshal_error _ := ENew "json: cannot unmarshal"; sprintf_s _ := "" |}.
Definition two_calls : option (option GoErr * option GoErr * gmap string Value) :=
  match ReconcileWithSchemas (H0 := flaky_http) 10 Background ∅ (mkRS (NewSchemaRegistry here) (mkDemo demo_expected 1)) with
  | Some (e1, s) => match ReconcileWithSchemas (H0 := flaky_http) 10 Background demo_expected s with
                    | Some (e2, s) => Some (e1, e2, stored (r_world s)) | None => None end
  | None => None
  end.
Example expected_subject_is_deleted :
  two_calls = Some (Some (ENew "delete subject _pump_v1-timeseries-number returned status 503"), None, ∅).
Proof. vm_compute. reflexivity. Qed.
