(* ===== verification/Configuration.v ===== *)
(** * Configuration: the configuration of an instance and its form in the file

    Models the types of [pkg/config/config.go] with
    [pkg/config/yamlParsing.go] and [ParseConfig] of [pkg/config/manager.go].
    In memory every protocol converter and stream processor carries its whole
    configuration; in the file those that refer to a template carry the name of
    the template only.

    The blocks the manager hands on without looking into them are the types of
    [Blocks]; [gopkg.in/yaml.v3], which reads and writes the file, is the class
    [Yaml].  Values are immutable here, so that a deep copy is the value
    itself; maps and lists that are nil are empty. *)

From S2P Require Import Prelude GoRuntime GoBytes StateMonad FSMManager FileSystem Documents DataModel Translator.
From Stdlib Require Import Ascii.
Local Open Scope Z_scope.

(** ** Blocks that are handed on *)

(** The service configuration of a data flow, the templates of protocol
    converters and stream processors, and what the internal and the agent's
    section hold besides the fields below. *)
Class Blocks := {
  DFCBlock : Type; PCBlock : Type; SPBlock : Type; InternalBlock : Type; AgentBlock : Type;
  DFCBlock_dec :: EqDecision DFCBlock;
  PCBlock_dec :: EqDecision PCBlock;
  SPBlock_dec :: EqDecision SPBlock;
  InternalBlock_dec :: EqDecision InternalBlock;
  AgentBlock_dec :: EqDecision AgentBlock;
  PC_zero : PCBlock; SP_zero : SPBlock; Internal_zero : InternalBlock; Agent_zero : AgentBlock;
}.

(** ** config.go *)

Record VariableBundle := mkVariables { User : gmap string Value; Global : gmap string Value; Internal_vars : gmap string Value }.

(** What [ProtocolConverterConfig] and [StreamProcessorConfig] share, with the
    specification of the service inlined: [T] is the type of the block, [X]
    the fields only one of the two has. *)
Record Templated (T X : Type) := mkTemplated {
  tpl_Name : string; tpl_DesiredFSMState : string;
  Variables : VariableBundle; tpl_Location : gmap string string; TemplateRef : string; tpl_Config : T;
  more : X }.
Arguments mkTemplated {T X} _ _ _ _ _ _ _. Arguments tpl_Name {T X} _. Arguments tpl_DesiredFSMState {T X} _.
Arguments Variables {T X} _. Arguments tpl_Location {T X} _. Arguments TemplateRef {T X} _. Arguments tpl_Config {T X} _. Arguments more {T X} _.

Record PCMore := mkPCMore { ReadDFCDesiredState : string; WriteDFCDesiredState : string; pc_DebugLevel : bool; pc_anchors : string * bool }.
Record SPMore := mkSPMore { sp_anchors : string * bool }.

Record TimescaleConfig := mkTimescale {
  SSLRootCert : string; SSLCert : string; SSLKey : string; Host : string; Password : string; Database : string;
  Username : string; SSLMode : string; ts_Port : Z }.
#[export] Instance TimescaleConfig_dec : EqDecision TimescaleConfig.
Proof. solve_decision. Defined.
Record HistorianConfig := mkHistorian { Timescale : TimescaleConfig }.
#[export] Instance HistorianConfig_dec : EqDecision HistorianConfig.
Proof. solve_decision. Defined.

Section configuration.
Context `{Blocks}.

(** What an [interface{}] of the templates section holds: the tree the decoder
    made, or a template the manager put there. *)
Inductive Content := CTree (v : Value) | CPC (t : PCBlock) | CSP (t : SPBlock).

Record DataFlowComponentConfig := mkDFC {
  dfc_Name : string; dfc_DesiredFSMState : string; dfc_Service : DFCBlock; dfc_DebugLevel : bool; HasAnchors : bool }.

Record TemplatesConfig := mkTemplates { tpl_PC : gmap string Content; tpl_SP : gmap string Content }.

(** The rest of the Redpanda and topic browser sections is in the block. *)
Record InternalConfig := mkInternal {
  Redpanda_DesiredFSMState : string; TopicBrowser_DesiredFSMState : string;
  DefaultTopicCleanupPolicy : string; DefaultTopicRetentionMs : Z; internal_rest : InternalBlock }.
Definition zero_Internal : InternalConfig := mkInternal "" "" "" 0 Internal_zero.
#[global] Instance InternalConfig_dec : EqDecision InternalConfig.
Proof. solve_decision. Defined.

Record AgentConfig := mkAgent {
  Location : gmap Z string; ReleaseChannel : string; MetricsPort : Z; APIURL : string; AuthToken : string;
  AllowInsecureTLS : bool; EnableResourceLimitBlocking : bool; agent_rest : AgentBlock }.
#[global] Instance AgentConfig_dec : EqDecision AgentConfig.
Proof. solve_decision. Defined.

Definition ProtocolConverterConfig : Type := Templated PCBlock PCMore.
Definition StreamProcessorConfig : Type := Templated SPBlock SPMore.

Record FullConfig := mkFull {
  Templates : TemplatesConfig;
  PayloadShapes : gmap string PayloadShape;
  Historian : option HistorianConfig;
  DataModels : list DataModelsConfig;
  DataContracts : list DataContractsConfig;
  DataFlow : list DataFlowComponentConfig;
  ProtocolConverter : list ProtocolConverterConfig;
  StreamProcessor : list StreamProcessorConfig;
  Internal : InternalConfig;
  Agent : AgentConfig }.

Definition no_templates : TemplatesConfig := mkTemplates ∅ ∅.
Definition zero_Agent : AgentConfig := mkAgent ∅ "" 0 "" "" false false Agent_zero.
Definition zero_FullConfig : FullConfig := mkFull no_templates ∅ None [] [] [] [] [] zero_Internal zero_Agent.

Definition set_Templates x (c : FullConfig) := mkFull x (PayloadShapes c) (Historian c) (DataModels c) (DataContracts c) (DataFlow c) (ProtocolConverter c) (StreamProcessor c) (Internal c) (Agent c).
Definition set_Historian x (c : FullConfig) := mkFull (Templates c) (PayloadShapes c) x (DataModels c) (DataContracts c) (DataFlow c) (ProtocolConverter c) (StreamProcessor c) (Internal c) (Agent c).
Definition set_DataModels x (c : FullConfig) := mkFull (Templates c) (PayloadShapes c) (Historian c) x (DataContracts c) (DataFlow c) (ProtocolConverter c) (StreamProcessor c) (Internal c) (Agent c).
Definition set_DataContracts x (c : FullConfig) := mkFull (Templates c) (PayloadShapes c) (Historian c) (DataModels c) x (DataFlow c) (ProtocolConverter c) (StreamProcessor c) (Internal c) (Agent c).
Definition set_DataFlow x (c : FullConfig) := mkFull (Templates c) (PayloadShapes c) (Historian c) (DataModels c) (DataContracts c) x (ProtocolConverter c) (StreamProcessor c) (Internal c) (Agent c).
Definition set_ProtocolConverter x (c : FullConfig) := mkFull (Templates c) (PayloadShapes c) (Historian c) (DataModels c) (DataContracts c) (DataFlow c) x (StreamProcessor c) (Internal c) (Agent c).
Definition set_StreamProcessor x (c : FullConfig) := mkFull (Templates c) (PayloadShapes c) (Historian c) (DataModels c) (DataContracts c) (DataFlow c) (ProtocolConverter c) x (Internal c) (Agent c).
Definition set_Internal x (c : FullConfig) := mkFull (Templates c) (PayloadShapes c) (Historian c) (DataModels c) (DataContracts c) (DataFlow c) (ProtocolConverter c) (StreamProcessor c) x (Agent c).
Definition set_Agent x (c : FullConfig) := mkFull (Templates c) (PayloadShapes c) (Historian c) (DataModels c) (DataContracts c) (DataFlow c) (ProtocolConverter c) (StreamProcessor c) (Internal c) x.
End configuration.

Definition set_Config {T X} (t : T) (i : Templated T X) : Templated T X :=
  mkTemplated (tpl_Name i) (tpl_DesiredFSMState i) (Variables i) (tpl_Location i) (TemplateRef i) t (more i).
Definition set_TemplateRef {T X} (r : string) (i : Templated T X) : Templated T X :=
  mkTemplated (tpl_Name i) (tpl_DesiredFSMState i) (Variables i) (tpl_Location i) r (tpl_Config i) (more i).
Definition set_Location {T X} (l : gmap string string) (i : Templated T X) : Templated T X :=
  mkTemplated (tpl_Name i) (tpl_DesiredFSMState i) (Variables i) l (TemplateRef i) (tpl_Config i) (more i).
Definition set_Variables {T X} (v : VariableBundle) (i : Templated T X) : Templated T X :=
  mkTemplated (tpl_Name i) (tpl_DesiredFSMState i) v (tpl_Location i) (TemplateRef i) (tpl_Config i) (more i).
Definition set_User (u : gmap string Value) (v : VariableBundle) : VariableBundle := mkVariables u (Global v) (Internal_vars v).

(** ** The YAML library *)

Class Yaml `{Blocks} := {
  (** [yaml.Marshal] of a configuration. *)
  yaml_Marshal : FullConfig → GoErr + bytes;
  (** A decoder with [KnownFields] that decodes onto a configuration. *)
  yaml_Decode : bool → bytes → FullConfig → GoErr + FullConfig;
  (** [yaml.Marshal] of a template and [yaml.Unmarshal] into its type. *)
  yaml_MarshalContent : Content → GoErr + bytes;
  yaml_UnmarshalPC : bytes → GoErr + PCBlock;
  yaml_UnmarshalSP : bytes → GoErr + SPBlock;
}.

(** ** Quoted strings *)

Definition hex_digit (d : nat) : ascii := Ascii.ascii_of_nat (if (d <? 10)%nat then 48 + d else 87 + d).
Definition quote_char (a : ascii) : string :=
  match Ascii.nat_of_ascii a with
  | 34%nat => String "\" (String a "")
  | 92%nat => "\\"
  | 7%nat => "\a" | 8%nat => "\b" | 12%nat => "\f" | 10%nat => "\n" | 13%nat => "\r" | 9%nat => "\t" | 11%nat => "\v"
  | n => if ((n <? 32) || (n =? 127))%nat then "\x" +:+ String (hex_digit (n / 16)) (String (hex_digit (n mod 16)) "") else String a ""
  end.
(** [%q], for text all of whose characters beyond ASCII are printable. *)
Definition quoted (s : string) : string :=
  let q := String (Ascii.ascii_of_nat 34) "" in
  q +:+ foldr (λ a r, quote_char a +:+ r) "" (String.list_ascii_of_string s) +:+ q.

(** ** yamlParsing.go *)

(** [fmt.Errorf] around the error of a computation. *)
Definition annotate {S A} (f : GoErr → GoErr) (m : ES S A) : ES S A := λ s,
  let (r, s') := m s in (match r with inl e => inl (f e) | inr a => inr a end, s').
Definition of_result {S A} (r : GoErr + A) : ES S A := λ s, (r, s).

Section conversion.
Context `{Yaml} {W : Type} `{World W} `{MapOrder W}.
Local Abbreviation WM := (ES W).

(** The order in which [range] takes the keys of a map. *)
Definition range_keys (keys : list string) : WM (list string) := λ w, let (l, w') := map_order keys w in (inr l, w').

(** The templates of the file as the blocks they stand for. *)
Fixpoint load_templates {T} (kind : string) (unmarshal : bytes → GoErr + T) (ctx : Ctx) (contents : gmap string Content)
    (names : list string) (acc : gmap string T) : WM (gmap string T) :=
  match names with
  | [] => mret acc
  | templateName :: names =>
      _ ← alive ctx;
      match contents !! templateName with
      | None => load_templates kind unmarshal ctx contents names acc
      | Some templateContent =>
          templateBytes ← annotate (EWrap ("failed to marshal " +:+ kind +:+ " template " +:+ templateName +:+ ": "))
                            (of_result (yaml_MarshalContent templateContent));
          template ← annotate (EWrap ("failed to unmarshal " +:+ kind +:+ " template " +:+ templateName +:+ ": "))
                       (of_result (unmarshal templateBytes));
          load_templates kind unmarshal ctx contents names (<[templateName := template]> acc)
      end
  end.

Definition resolve_one {T X} (kind : string) (templates : gmap string T) (i : Templated T X) : WM (Templated T X) :=
  if bool_decide (TemplateRef i = "") then mret i
  else match templates !! TemplateRef i with
       | None => fail (ENew (kind +:+ " template reference " +:+ quoted (TemplateRef i) +:+ " not found for " +:+ kind +:+ " " +:+ tpl_Name i))
       | Some template => mret (set_Config template i)
       end.

Fixpoint resolve {T X} (kind : string) (templates : gmap string T) (ctx : Ctx) (l : list (Templated T X)) : WM (list (Templated T X)) :=
  match l with
  | [] => mret []
  | i :: l =>
      _ ← alive ctx;
      i ← resolve_one kind templates i;
      l ← resolve kind templates ctx l;
      mret (i :: l)
  end.

Definition pc_kind : string := "protocol converter".
Definition sp_kind : string := "stream processor".

Definition convertYamlToSpec (ctx : Ctx) (config : FullConfig) : WM FullConfig :=
  _ ← alive ctx;
  pcNames ← range_keys (map_to_list (tpl_PC (Templates config))).*1;
  pcTemplates ← load_templates pc_kind yaml_UnmarshalPC ctx (tpl_PC (Templates config)) pcNames ∅;
  spNames ← range_keys (map_to_list (tpl_SP (Templates config))).*1;
  spTemplates ← load_templates sp_kind yaml_UnmarshalSP ctx (tpl_SP (Templates config)) spNames ∅;
  pcs ← resolve pc_kind pcTemplates ctx (ProtocolConverter config);
  sps ← resolve sp_kind spTemplates ctx (StreamProcessor config);
  mret (set_Templates no_templates (set_StreamProcessor sps (set_ProtocolConverter pcs config))).

(** An instance that refers to a template, without what the template holds and
    without the variables that are computed. *)
Definition stripped {T X} (zero : T) (i : Templated T X) : Templated T X :=
  set_Variables (set_User (delete "location_path" (delete "location" (User (Variables i)))) (Variables i)) (set_Config zero i).

(** The walk over the instances: the roots and the references of children. *)
Record Walk (T : Type) := mkWalk { roots : gmap string T; pendingRefs : gset string }.
Arguments mkWalk {T} _ _. Arguments roots {T} _. Arguments pendingRefs {T} _.

Definition note {T X} `{EqDecision T} (kind : string) (i : Templated T X) (x : Walk T) : WM (Walk T) :=
  let tr := TemplateRef i in
  if bool_decide (tr = tpl_Name i) then
    match roots x !! tr with
    | Some prev =>
        if bool_decide (prev = tpl_Config i) then mret x
        else fail (ENew ("duplicate " +:+ kind +:+ " root " +:+ quoted tr +:+ " with different Config blocks"))
    | None => mret (mkWalk (<[tr := tpl_Config i]> (roots x)) (pendingRefs x))
    end
  else mret (mkWalk (roots x) ({[tr]} ∪ pendingRefs x)).

Fixpoint collect {T X} `{EqDecision T} (kind : string) (zero : T) (ctx : Ctx) (l : list (Templated T X)) (x : Walk T)
    : WM (list (Templated T X) * Walk T) :=
  match l with
  | [] => mret ([], x)
  | i :: l =>
      _ ← alive ctx;
      if bool_decide (TemplateRef i = "") then
        r ← collect kind zero ctx l x; mret (i :: r.1, r.2)
      else
        x ← note kind i x;
        r ← collect kind zero ctx l x; mret (stripped zero i :: r.1, r.2)
  end.

(** The references that no root answers. *)
Definition orphans {T} (x : Walk T) : gset string := filter (λ ref, roots x !! ref = None) (pendingRefs x).

Fixpoint inline_orphans {T X} (ctx : Ctx) (refs : gset string) (l : list (Templated T X)) : WM (list (Templated T X)) :=
  match l with
  | [] => mret []
  | i :: l =>
      _ ← alive ctx;
      l ← inline_orphans ctx refs l;
      mret ((if bool_decide (TemplateRef i ∈ refs ∧ TemplateRef i ≠ "") then set_TemplateRef "" i else i) :: l)
  end.

(** The first orphan [range] comes to. *)
Definition first_orphan {T} (x : Walk T) : WM (option string) :=
  refs ← range_keys (elements (pendingRefs x));
  mret (head (filter (λ ref, roots x !! ref = None) refs)).

Definition convertSpecToYaml (ctx : Ctx) (spec : FullConfig) : WM FullConfig :=
  _ ← alive ctx;
  r ← collect pc_kind PC_zero ctx (ProtocolConverter spec) (mkWalk ∅ ∅);
  let '(pcs, pc) := r in
  q ← collect sp_kind SP_zero ctx (StreamProcessor spec) (mkWalk ∅ ∅);
  let '(sps, sp) := q in
  missing ← first_orphan pc;
  match missing with
  | Some ref => fail (ENew (pc_kind +:+ " references unknown template " +:+ quoted ref))
  | None =>
      sps ← (if decide (orphans sp = ∅) then mret sps else inline_orphans ctx (orphans sp) sps);
      mret (set_Templates (mkTemplates ((CPC <$> roots pc) ∪ tpl_PC (Templates spec)) ((CSP <$> roots sp) ∪ tpl_SP (Templates spec)))
             (set_StreamProcessor sps (set_ProtocolConverter pcs spec)))
  end.

(** ** Reading the file *)

Definition DefaultEnableResourceLimitBlocking : bool := true.
Definition configWithDefaults : FullConfig :=
  set_Agent (mkAgent ∅ "" 0 "" "" false DefaultEnableResourceLimitBlocking Agent_zero) zero_FullConfig.

Definition no_sections (c : FullConfig) : bool :=
  bool_decide (tpl_PC (Templates c) = ∅ ∧ tpl_SP (Templates c) = ∅ ∧ PayloadShapes c = ∅ ∧ Historian c = None ∧ Internal c = zero_Internal) &&
  match DataModels c, DataContracts c, DataFlow c, ProtocolConverter c, StreamProcessor c with
  | [], [], [], [], [] => true
  | _, _, _, _, _ => false
  end.
(** [reflect.DeepEqual] with the zero configuration and with the defaults. *)
Definition isEmptyConfig (c : FullConfig) : bool :=
  no_sections c && bool_decide (Agent c = zero_Agent ∨ Agent c = Agent configWithDefaults).

Definition ParseConfig (data : bytes) (ctx : Ctx) (allowUnknownFields : bool) : WM FullConfig :=
  rawConfig ← annotate (EWrap "failed to decode config: ") (of_result (yaml_Decode (negb allowUnknownFields) data configWithDefaults));
  annotate (EWrap "failed to resolve protocol converter template references: ") (convertYamlToSpec ctx rawConfig).
End conversion.
Arguments mkWalk {T} _ _. Arguments roots {T} _. Arguments pendingRefs {T} _.
