(* ===== verification/ConfigTemplates.v ===== *)
(** * ConfigTemplates: what writing a configuration to the file keeps

    A configuration that is written with its templates factored out and read
    again is the one before, provided every reference has its root and the
    instances that share a template share its block.  In general the blocks of
    the roots win, and a stream processor whose root is missing loses its
    block. *)

From S2P Require Import Prelude GoRuntime GoBytes StateMonad FSMManager Documents DataModel DataModelFacts Translator Configuration.
Local Open Scope Z_scope.

(** ** What the file says *)

Section meaning.
Context {T X : Type}.
Implicit Types (i : Templated T X) (l : list (Templated T X)).

Definition is_root (i : Templated T X) : Prop := TemplateRef i ≠ "" ∧ TemplateRef i = tpl_Name i.
#[global] Instance is_root_dec i : Decision (is_root i).
Proof. unfold is_root. apply _. Defined.

(** The block of the first root for a reference. *)
Definition root_block (l : list (Templated T X)) (ref : string) : option T :=
  tpl_Config <$> head (filter (λ i, is_root i ∧ TemplateRef i = ref) l).

(** What becomes of an instance that is written and read again. *)
Definition reread (zero : T) (l : list (Templated T X)) (i : Templated T X) : Templated T X :=
  if bool_decide (TemplateRef i = "") then i
  else match root_block l (TemplateRef i) with
       | Some t => stripped t i
       | None => set_TemplateRef "" (stripped zero i)
       end.

(** Every reference leads to a root, instances that share a template share its
    block, and the variables that are computed are not stored. *)
Record closed (l : list (Templated T X)) : Prop := {
  closed_root i : i ∈ l → TemplateRef i ≠ "" → ∃ r, r ∈ l ∧ is_root r ∧ TemplateRef r = TemplateRef i;
  closed_block i j : i ∈ l → j ∈ l → TemplateRef i ≠ "" → TemplateRef i = TemplateRef j → tpl_Config i = tpl_Config j;
  closed_vars i : i ∈ l → TemplateRef i ≠ "" → User (Variables i) !! "location" = None ∧ User (Variables i) !! "location_path" = None;
}.

Definition roots_agree (l : list (Templated T X)) : Prop :=
  ∀ i j, i ∈ l → j ∈ l → is_root i → is_root j → TemplateRef i = TemplateRef j → tpl_Config i = tpl_Config j.

Lemma root_block_some l ref t : root_block l ref = Some t → ∃ r, r ∈ l ∧ is_root r ∧ TemplateRef r = ref ∧ tpl_Config r = t.
Proof.
  unfold root_block. intros H. destruct (filter _ l) as [|r k] eqn:E; [done|]. injection H as <-.
  assert (r ∈ filter (λ i, is_root i ∧ TemplateRef i = ref) l) as Hr by (rewrite E; by left).
  apply list_elem_of_filter in Hr as [[? ?] ?]. by exists r.
Qed.

Lemma root_block_root l r : roots_agree l → r ∈ l → is_root r → root_block l (TemplateRef r) = Some (tpl_Config r).
Proof.
  intros Ha Hr Hroot. destruct (root_block l (TemplateRef r)) as [t|] eqn:E.
  - apply root_block_some in E as (r' & Hr' & Hroot' & Heq & <-). f_equal. by apply Ha.
  - unfold root_block in E. apply fmap_None in E.
    assert (r ∈ filter (λ i, is_root i ∧ TemplateRef i = TemplateRef r) l) as Hf by (by apply list_elem_of_filter).
    by destruct (filter _ l); [apply not_elem_of_nil in Hf|].
Qed.

Lemma closed_nil : closed [].
Proof. split; [intros i|intros i j|intros i]; by intros ?%not_elem_of_nil. Qed.

Lemma closed_agree l : closed l → roots_agree l.
Proof. intros Hc i j Hi Hj [Hn _] _. by apply Hc. Qed.

Lemma stripped_same zero i : User (Variables i) !! "location" = None → User (Variables i) !! "location_path" = None →
  stripped zero i = set_Config zero i.
Proof.
  intros H1 H2. unfold stripped. rewrite (delete_id _ "location"), delete_id by done. by destruct i as [? ? [? ? ?] ? ? ? ?].
Qed.

Lemma set_Config_same i : set_Config (tpl_Config i) i = i.
Proof. by destruct i. Qed.

Lemma reread_closed zero l : closed l → reread zero l <$> l = l.
Proof.
  intros Hc. rewrite <- (list_fmap_id l) at 3. apply Forall_fmap_ext_1, Forall_forall. intros i Hi. unfold reread.
  case_bool_decide as Href; [done|]. destruct (closed_root l Hc i Hi Href) as (r & Hr & Hroot & Heq).
  rewrite <- Heq, (root_block_root l r) by (done || by apply closed_agree). rewrite (closed_block l Hc r i) by (done || (rewrite Heq; done)).
  rewrite stripped_same by (by apply (closed_vars l Hc)). apply set_Config_same.
Qed.

Lemma root_block_snoc l i ref :
  root_block (l ++ [i]) ref = match root_block l ref with
                              | Some t => Some t
                              | None => if decide (is_root i ∧ TemplateRef i = ref) then Some (tpl_Config i) else None
                              end.
Proof.
  unfold root_block. rewrite filter_app, filter_cons, filter_nil. destruct (filter _ l) as [|r k]; [|done].
  cbn. by case_decide.
Qed.

Lemma agree_app_l l k : roots_agree (l ++ k) → roots_agree l.
Proof. intros Ha i j Hi Hj. apply Ha; set_solver. Qed.

Lemma agree_snoc l i : roots_agree l → (is_root i → ∀ t, root_block l (TemplateRef i) = Some t → t = tpl_Config i) → roots_agree (l ++ [i]).
Proof.
  intros Ha Hi a b Hina Hinb Hra Hrb Heq. apply elem_of_app in Hina as [Hina| ->%list_elem_of_singleton], Hinb as [Hinb| ->%list_elem_of_singleton].
  - by apply Ha.
  - apply (Hi Hrb). rewrite <- Heq. by apply root_block_root.
  - symmetry. apply (Hi Hra). rewrite Heq. by apply root_block_root.
  - done.
Qed.
End meaning.

(** ** The walks *)

Section walks.
Context `{Yaml} {W : Type} `{World W} `{MapOrder W}.
Context (ctx : Ctx) (Hctx : never_ends ctx).

Lemma alive_goes_on (w : W) : ∃ w', alive ctx w = (inr tt, w').
Proof. unfold alive, ctx_Err. destruct (clock w) as [t w']. rewrite Hctx. by exists w'. Qed.

Ltac step_alive w w' :=
  destruct (alive_goes_on w) as [w' ->].

Definition strip_if {T X} (zero : T) (i : Templated T X) : Templated T X :=
  if bool_decide (TemplateRef i = "") then i else stripped zero i.

(** What the walk has seen after it saw [l]. *)
Record walked {T X} (l : list (Templated T X)) (x : Walk T) : Prop := {
  walked_agree : roots_agree l;
  walked_roots ref : roots x !! ref = root_block l ref;
  walked_refs ref : ref ∈ pendingRefs x ↔ ∃ i, i ∈ l ∧ TemplateRef i = ref ∧ ref ≠ "" ∧ ¬ is_root i;
}.

Lemma note_walks {T X} `{EqDecision T} kind (i : Templated T X) l x (w : W) : TemplateRef i ≠ "" → walked l x →
  match note kind i x w with
  | (inr x', w') => w' = w ∧ walked (l ++ [i]) x'
  | (inl _, _) => ¬ roots_agree (l ++ [i])
  end.
Proof.
  intros Href [Ha Hr Hp]. unfold note. case_bool_decide as Hname.
  - assert (is_root i) as Hroot by done. pose proof (Hr (TemplateRef i)) as Hri. destruct (roots x !! TemplateRef i) as [prev|] eqn:E.
    + case_bool_decide as Hprev; cbn.
      * split; [done|]. split.
        -- apply agree_snoc; [done|]. congruence.
        -- intros ref. rewrite root_block_snoc, Hr. destruct (root_block l ref) eqn:Eb; [done|]. case_decide as Hd; [|done]. destruct Hd as [_ <-]. congruence.
        -- intros ref. rewrite Hp. split; [intros (j & Hj & ?); exists j; set_solver|].
           intros (j & [Hj| ->%list_elem_of_singleton]%elem_of_app & ? & ? & ?); [by exists j|done].
      * intros Hagree. apply Hprev. rewrite Hri in E. symmetry in Hri. apply root_block_some in Hri as (r & Hrl & Hrr & Heq & <-).
        apply Hagree; set_solver.
    + cbn. split; [done|]. split; cbn.
      * apply agree_snoc; [done|]. congruence.
      * intros ref. rewrite root_block_snoc. destruct (decide (ref = TemplateRef i)) as [->|Hne].
        -- rewrite lookup_insert_eq, <- Hri. by rewrite decide_True.
        -- rewrite lookup_insert_ne, Hr, decide_False by naive_solver. by destruct (root_block l ref).
      * intros ref. rewrite Hp. split; [intros (j & Hj & ?); exists j; set_solver|].
        intros (j & [Hj| ->%list_elem_of_singleton]%elem_of_app & ? & ? & ?); [by exists j|done].
  - assert (¬ is_root i) as Hroot by (unfold is_root; naive_solver). cbn. split; [done|]. split; cbn.
    + by apply agree_snoc.
    + intros ref. rewrite root_block_snoc, Hr. destruct (root_block l ref); [done|]. by rewrite decide_False by naive_solver.
    + intros ref. rewrite elem_of_union, elem_of_singleton, Hp. split.
      * intros [->|(j & Hj & ?)]; [exists i|exists j]; set_solver.
      * intros (j & [Hj| ->%list_elem_of_singleton]%elem_of_app & ? & ? & ?); [right; by exists j|by left].
Qed.

Lemma skip_walks {T X} (i : Templated T X) l x : TemplateRef i = "" → walked l x → walked (l ++ [i]) x.
Proof.
  intros Href [Ha Hr Hp]. assert (¬ is_root i) by (unfold is_root; naive_solver). split.
  - by apply agree_snoc.
  - intros ref. rewrite root_block_snoc, Hr. destruct (root_block l ref); [done|]. by rewrite decide_False by naive_solver.
  - intros ref. rewrite Hp. split; [intros (j & Hj & ?); exists j; set_solver|].
    intros (j & [Hj| ->%list_elem_of_singleton]%elem_of_app & ? & ? & ?); [by exists j|congruence].
Qed.

Lemma collect_walks {T X} `{EqDecision T} kind zero (l : list (Templated T X)) : ∀ pre x (w : W), walked pre x →
  match collect kind zero ctx l x w with
  | (inr (l', x'), _) => l' = strip_if zero <$> l ∧ walked (pre ++ l) x'
  | (inl _, _) => ¬ roots_agree (pre ++ l)
  end.
Proof.
  induction l as [|i l IH]; intros pre x w Hx; cbn [collect].
  { by rewrite app_nil_r. }
  unfold mbind, ES_bind. step_alive w w1. replace (pre ++ i :: l) with ((pre ++ [i]) ++ l) by (by rewrite <- app_assoc).
  unfold strip_if. cbn [fmap list_fmap]. case_bool_decide as Href.
  - specialize (IH _ x w1 (skip_walks i pre x Href Hx)). destruct (collect _ _ _ _ _ _) as [[e|[l' x']] w2]; [done|].
    destruct IH as [-> ?]. done.
  - pose proof (note_walks kind i pre x w1 Href Hx) as Hn. destruct (note kind i x w1) as [[e|x1] w2].
    { intros Ha. apply Hn. by apply agree_app_l in Ha. }
    destruct Hn as [-> Hx1]. specialize (IH _ x1 w1 Hx1). destruct (collect _ _ _ _ _ _) as [[e|[l' x']] w3]; [done|].
    destruct IH as [-> ?]. done.
Qed.

Lemma walked_nil {T X} : @walked T X [] (mkWalk ∅ ∅).
Proof. split; [by intros ? ? ?%not_elem_of_nil|done|]. intros ref. cbn. set_solver. Qed.

Lemma first_orphan_runs {T} (x : Walk T) (w : W) : ∃ r w', first_orphan x w = (inr r, w') ∧ (r = None ↔ orphans x = ∅).
Proof.
  unfold first_orphan, range_keys, mbind, ES_bind. pose proof (map_order_perm (elements (pendingRefs x)) w) as Hp.
  destruct (map_order _ w) as [l w1]. cbn in *. eexists _, w1. split; [done|].
  assert (∀ ref, ref ∈ filter (λ ref, roots x !! ref = None) l ↔ ref ∈ orphans x) as Hin.
  { intros ref. rewrite list_elem_of_filter, Hp, elem_of_elements. unfold orphans. by rewrite elem_of_filter. }
  destruct (filter _ l) as [|r k]; cbn; split; try done.
  - intros _. apply elem_of_equiv_empty_L. intros ref Href. by apply Hin, not_elem_of_nil in Href.
  - intros Ho. exfalso. assert (r ∈ orphans x) as Hr by (apply Hin; by left). rewrite Ho in Hr. by apply not_elem_of_empty in Hr.
Qed.

Definition inlined {T X} (refs : gset string) (i : Templated T X) : Templated T X :=
  if bool_decide (TemplateRef i ∈ refs ∧ TemplateRef i ≠ "") then set_TemplateRef "" i else i.

Lemma inline_runs {T X} refs (l : list (Templated T X)) : ∀ w : W, ∃ w', inline_orphans ctx refs l w = (inr (inlined refs <$> l), w').
Proof.
  induction l as [|i l IH]; intros w; cbn [inline_orphans]; [by exists w|].
  unfold mbind, ES_bind. step_alive w w1. destruct (IH w1) as [w2 ->]. by exists w2.
Qed.

Lemma inlined_none {T X} (l : list (Templated T X)) : inlined ∅ <$> l = l.
Proof.
  rewrite <- (list_fmap_id l) at 2. apply list_fmap_ext. intros k i _. unfold inlined.
  rewrite bool_decide_false; [done|]. set_solver.
Qed.

Lemma orphans_spec {T X} (l : list (Templated T X)) x ref : walked l x →
  ref ∈ orphans x ↔ root_block l ref = None ∧ ∃ i, i ∈ l ∧ TemplateRef i = ref ∧ ref ≠ "".
Proof.
  intros [Ha Hr Hp]. unfold orphans. rewrite elem_of_filter, Hp, Hr. split.
  - intros [? (i & ? & ? & ? & ?)]. split; [done|]. by exists i.
  - intros [Hn (i & Hi & Heq & Hne)]. split; [done|]. exists i. split_and!; try done.
    intros Hroot. rewrite <- Heq in Hn. by rewrite root_block_root in Hn.
Qed.

(** ** The layout of the file *)

Record laid_out (spec y : FullConfig) : Prop := {
  laid_rest : y = set_Templates (Templates y) (set_StreamProcessor (StreamProcessor y) (set_ProtocolConverter (ProtocolConverter y) spec));
  laid_templates : ∃ rp rs, Templates y = mkTemplates (CPC <$> rp) (CSP <$> rs) ∧
    (∀ ref, rp !! ref = root_block (ProtocolConverter spec) ref) ∧ (∀ ref, rs !! ref = root_block (StreamProcessor spec) ref);
  laid_pc : ProtocolConverter y = strip_if PC_zero <$> ProtocolConverter spec;
  laid_sp : ∃ refs, StreamProcessor y = inlined refs <$> (strip_if SP_zero <$> StreamProcessor spec) ∧
    ∀ ref, ref ∈ refs ↔ root_block (StreamProcessor spec) ref = None ∧ ∃ i, i ∈ StreamProcessor spec ∧ TemplateRef i = ref ∧ ref ≠ "";
  laid_known i : i ∈ ProtocolConverter spec → TemplateRef i ≠ "" → is_Some (root_block (ProtocolConverter spec) (TemplateRef i));
}.

Lemma spec_to_yaml_runs spec (w : W) : Templates spec = no_templates →
  match convertSpecToYaml ctx spec w with
  | (inr y, _) => laid_out spec y
  | (inl _, _) => ¬ roots_agree (ProtocolConverter spec) ∨ ¬ roots_agree (StreamProcessor spec) ∨
      ∃ i, i ∈ ProtocolConverter spec ∧ TemplateRef i ≠ "" ∧ root_block (ProtocolConverter spec) (TemplateRef i) = None
  end.
Proof.
  intros Hnone. unfold convertSpecToYaml. unfold mbind at 1, ES_bind at 1. step_alive w w1. unfold mbind at 1, ES_bind at 1.
  pose proof (collect_walks pc_kind PC_zero (ProtocolConverter spec) [] _ w1 walked_nil) as Hpc.
  destruct (collect pc_kind _ _ _ _ w1) as [[e|[pcs pc]] w2]; [by left|]. destruct Hpc as [-> Hpc]. unfold mbind at 1, ES_bind at 1.
  pose proof (collect_walks sp_kind SP_zero (StreamProcessor spec) [] _ w2 walked_nil) as Hsp.
  destruct (collect sp_kind _ _ _ _ w2) as [[e|[sps sp]] w3]; [by right; left|]. destruct Hsp as [-> Hsp]. cbn [app] in *.
  unfold mbind at 1, ES_bind at 1. destruct (first_orphan_runs pc w3) as (missing & w4 & -> & Ho). destruct missing as [ref|].
  - right; right. assert (orphans pc ≠ ∅) as Hne by naive_solver. apply set_choose_L in Hne as [r Hr].
    apply (orphans_spec _ _ _ Hpc) in Hr as [? (i & ? & <- & ?)]. by exists i.
  - unfold mbind at 1, ES_bind at 1. 
    match goal with |- context [(if decide (orphans sp = ∅) then ?a else ?b) w4] =>
      assert (∃ w5, (if decide (orphans sp = ∅) then a else b) w4 = (inr (inlined (orphans sp) <$> (strip_if SP_zero <$> StreamProcessor spec)), w5)) as [w5 ->]
    end.
    { case_decide as Hd; [|apply inline_runs]. exists w4. by rewrite Hd, inlined_none. }
    cbn. rewrite Hnone. split; cbn.
    + by destruct spec.
    + exists (roots pc), (roots sp). rewrite !(right_id_L ∅ (∪)). split_and!; [done|apply Hpc|apply Hsp].
    + done.
    + eexists. split; [done|]. intros ref. by apply orphans_spec.
    + intros i Hi Href. destruct (root_block _ _) eqn:E; [done|]. exfalso.
      assert (TemplateRef i ∈ orphans pc) as Hin by (apply (orphans_spec _ _ _ Hpc); split; [done|by exists i]).
      rewrite (proj1 Ho eq_refl) in Hin. by apply not_elem_of_empty in Hin.
Qed.

(** ** Reading it again *)

Lemma load_runs {T} kind unmarshal contents (tpls : gmap string T) names : ∀ acc (w : W),
  (∀ n, n ∈ names → ∃ c b t, contents !! n = Some c ∧ yaml_MarshalContent c = inr b ∧ unmarshal b = inr t ∧ tpls !! n = Some t) →
  ∃ m w', load_templates kind unmarshal ctx contents names acc w = (inr m, w') ∧
    ∀ n, m !! n = if decide (n ∈ names) then tpls !! n else acc !! n.
Proof.
  induction names as [|n names IH]; intros acc w Hn; cbn [load_templates].
  { exists acc, w. split; [done|]. intros n. by rewrite decide_False by apply not_elem_of_nil. }
  unfold mbind, ES_bind. step_alive w w1. destruct (Hn n) as (c & b & t & -> & Hc & Hb & Ht); [by left|].
  unfold annotate, of_result. rewrite Hc, Hb. destruct (IH (<[n := t]> acc) w1) as (m & w2 & -> & Hm); [intros k Hk; apply Hn; by right|].
  exists m, w2. split; [done|]. intros k. rewrite Hm. destruct (decide (k ∈ names)) as [Hk|Hk].
  - by rewrite decide_True by (by right).
  - destruct (decide (k = n)) as [->|Hne].
    + rewrite lookup_insert_eq, decide_True by (by left). done.
    + rewrite lookup_insert_ne, decide_False by set_solver. done.
Qed.

Lemma load_all {T} kind unmarshal contents (tpls : gmap string T) (w : W) : dom contents = dom tpls →
  (∀ n t, tpls !! n = Some t → ∃ c b, contents !! n = Some c ∧ yaml_MarshalContent c = inr b ∧ unmarshal b = inr t) →
  ∃ names w', range_keys (map_to_list contents).*1 w = (inr names, w') ∧
    ∃ w'', load_templates kind unmarshal ctx contents names ∅ w' = (inr tpls, w'').
Proof.
  intros Hdom Hok. unfold range_keys. pose proof (map_order_perm (map_to_list contents).*1 w) as Hp.
  destruct (map_order _ w) as [names w1]. cbn in Hp. exists names, w1. split; [done|].
  assert (∀ n, n ∈ names ↔ n ∈ dom tpls) as Hin.
  { intros n. rewrite Hp, <- Hdom, elem_of_dom, list_elem_of_fmap. split.
    - intros ([k c] & -> & Hk). exists c. by apply elem_of_map_to_list.
    - intros [c Hc]. exists (n, c). split; [done|]. by apply elem_of_map_to_list. }
  destruct (load_runs kind unmarshal contents tpls names ∅ w1) as (m & w2 & -> & Hm).
  { intros n [t Ht]%Hin%elem_of_dom. destruct (Hok n t Ht) as (c & b & ? & ? & ?). by exists c, b, t. }
  exists w2. do 2 f_equal. apply map_eq. intros n. rewrite Hm. case_decide as Hd; [done|].
  rewrite lookup_empty. symmetry. apply not_elem_of_dom. by rewrite <- Hin.
Qed.

Definition resolved {T X} (tpls : gmap string T) (i : Templated T X) : Templated T X :=
  if bool_decide (TemplateRef i = "") then i else match tpls !! TemplateRef i with Some t => set_Config t i | None => i end.

Lemma resolve_runs {T X} kind tpls (l : list (Templated T X)) : ∀ w : W,
  (∀ i, i ∈ l → TemplateRef i ≠ "" → is_Some (tpls !! TemplateRef i)) →
  ∃ w', resolve kind tpls ctx l w = (inr (resolved tpls <$> l), w').
Proof.
  induction l as [|i l IH]; intros w Hl; cbn [resolve]; [by exists w|].
  unfold mbind, ES_bind. step_alive w w1. unfold resolve_one, fail. cbn [fmap list_fmap]. unfold resolved at 1.
  destruct (IH w1) as [w2 Hw2]; [intros j Hj; apply Hl; by right|]. case_bool_decide as Href; cbn.
  - rewrite Hw2. by exists w2.
  - destruct (Hl i) as [t ->]; [by left|done|]. cbn. rewrite Hw2. by exists w2.
Qed.

Lemma reread_pc {T X} zero (rp : gmap string T) (l : list (Templated T X)) i : (∀ ref, rp !! ref = root_block l ref) →
  is_Some (root_block l (TemplateRef i)) ∨ TemplateRef i = "" → resolved rp (strip_if zero i) = reread zero l i.
Proof.
  intros Hrp Hi. unfold resolved, strip_if, reread. destruct (bool_decide (TemplateRef i = "")) eqn:Href; [by rewrite Href|].
  cbn. rewrite Href, Hrp. apply bool_decide_eq_false in Href. destruct Hi as [[t ->]|]; [|done]. done.
Qed.

Lemma reread_sp {T X} zero (rs : gmap string T) refs (l : list (Templated T X)) i : i ∈ l → (∀ ref, rs !! ref = root_block l ref) →
  (∀ ref, ref ∈ refs ↔ root_block l ref = None ∧ ∃ i, i ∈ l ∧ TemplateRef i = ref ∧ ref ≠ "") →
  resolved rs (inlined refs (strip_if zero i)) = reread zero l i.
Proof.
  intros Hil Hrs Hrefs. unfold resolved, strip_if, reread, inlined. destruct (bool_decide (TemplateRef i = "")) eqn:Href.
  { rewrite (bool_decide_false (_ ∧ _)); [by rewrite Href|]. apply bool_decide_eq_true in Href. naive_solver. }
  apply bool_decide_eq_false in Href. cbn. destruct (decide (TemplateRef i ∈ refs)) as [Hin|Hin];
    [rewrite (bool_decide_true (_ ∧ _)) by done|rewrite (bool_decide_false (_ ∧ _)) by naive_solver].
  - apply Hrefs in Hin as [Hnone _]. by rewrite Hnone.
  - cbn. rewrite bool_decide_false, Hrs by done. destruct (root_block l (TemplateRef i)) eqn:E; [done|]. exfalso. apply Hin.
    apply Hrefs. split; [done|]. by exists i.
Qed.
End walks.

(** The configuration the file stands for. *)
Definition reread_spec `{Blocks} (spec : FullConfig) : FullConfig :=
  set_StreamProcessor (reread SP_zero (StreamProcessor spec) <$> StreamProcessor spec)
    (set_ProtocolConverter (reread PC_zero (ProtocolConverter spec) <$> ProtocolConverter spec) spec).

(** ** The library keeps what it stores *)

(** [storable c]: the file says all of [c]; [read_content] is what the decoder
    makes of a template. *)
Class YamlLaws `{Yaml} := {
  storable : FullConfig → Prop;
  read_content : Content → Content;
  decode_marshal c data : storable c → yaml_Marshal c = inr data →
    yaml_Decode true data configWithDefaults =
    inr (set_Templates (mkTemplates (read_content <$> tpl_PC (Templates c)) (read_content <$> tpl_SP (Templates c))) c);
  unmarshal_pc c name t : storable c → tpl_PC (Templates c) !! name = Some (CPC t) →
    ∃ b, yaml_MarshalContent (read_content (CPC t)) = inr b ∧ yaml_UnmarshalPC b = inr t;
  unmarshal_sp c name t : storable c → tpl_SP (Templates c) !! name = Some (CSP t) →
    ∃ b, yaml_MarshalContent (read_content (CSP t)) = inr b ∧ yaml_UnmarshalSP b = inr t;
}.

Section roundtrip.
Context `{YamlLaws} {W : Type} `{World W} `{MapOrder W}.

Lemma yaml_to_spec_runs ctx spec y (w : W) : never_ends ctx → laid_out spec y → storable y → Templates spec = no_templates →
  ∃ w', convertYamlToSpec ctx
    (set_Templates (mkTemplates (read_content <$> tpl_PC (Templates y)) (read_content <$> tpl_SP (Templates y))) y) w = (inr (reread_spec spec), w').
Proof.
  intros Hctx [Hrest (rp & rs & Ht & Hrp & Hrs) Hpc (refs & Hsp & Hrefs) Hknown] Hst Hnone. unfold convertYamlToSpec.
  unfold mbind at 1, ES_bind at 1. destruct (alive_goes_on ctx Hctx w) as [w1 ->]. cbn [Templates tpl_PC tpl_SP set_Templates].
  rewrite Ht in *. cbn [tpl_PC tpl_SP] in *.
  destruct (load_all ctx Hctx pc_kind yaml_UnmarshalPC (read_content <$> (CPC <$> rp)) rp w1) as (names & w2 & Hn & w3 & Hl).
  { by rewrite !dom_fmap_L. }
  { intros n t Hnt. destruct (unmarshal_pc y n t Hst) as (b & ? & ?); [by rewrite Ht; cbn; rewrite lookup_fmap, Hnt|].
    exists (read_content (CPC t)), b. by rewrite !lookup_fmap, Hnt. }
  unfold mbind at 1, ES_bind at 1. rewrite Hn. unfold mbind at 1, ES_bind at 1. rewrite Hl. clear names w2 Hn Hl.
  destruct (load_all ctx Hctx sp_kind yaml_UnmarshalSP (read_content <$> (CSP <$> rs)) rs w3) as (names & w4 & Hn & w5 & Hl).
  { by rewrite !dom_fmap_L. }
  { intros n t Hnt. destruct (unmarshal_sp y n t Hst) as (b & ? & ?); [by rewrite Ht; cbn; rewrite lookup_fmap, Hnt|].
    exists (read_content (CSP t)), b. by rewrite !lookup_fmap, Hnt. }
  unfold mbind at 1, ES_bind at 1. rewrite Hn. unfold mbind at 1, ES_bind at 1. rewrite Hl. clear names w4 Hn Hl.
  cbn [ProtocolConverter StreamProcessor set_Templates]. rewrite Hpc, Hsp.
  destruct (resolve_runs ctx Hctx pc_kind rp (strip_if PC_zero <$> ProtocolConverter spec) w5) as [w6 Hr].
  { intros i (j & -> & Hj)%list_elem_of_fmap. unfold strip_if. case_bool_decide; [done|]. cbn. rewrite Hrp. by apply Hknown. }
  unfold mbind at 1, ES_bind at 1. rewrite Hr.
  destruct (resolve_runs ctx Hctx sp_kind rs (inlined refs <$> (strip_if SP_zero <$> StreamProcessor spec)) w6) as [w7 Hr'].
  { intros i (j & -> & (k & -> & Hk)%list_elem_of_fmap)%list_elem_of_fmap. unfold inlined. case_bool_decide as Hin; [done|].
    intros Hne. rewrite Hrs. destruct (root_block _ _) eqn:E; [done|]. exfalso. apply Hin. split; [|done]. apply Hrefs. split; [done|].
    exists k. revert Hne E. unfold strip_if. by case_bool_decide. }
  unfold mbind at 1, ES_bind at 1. rewrite Hr'. exists w7. unfold mret, ES_ret. do 2 f_equal. unfold reread_spec. rewrite Hrest.
  unfold set_Templates, set_StreamProcessor, set_ProtocolConverter; cbn. rewrite Hnone. f_equal.
  - rewrite <- list_fmap_compose. apply Forall_fmap_ext_1, Forall_forall. intros i Hi. apply reread_pc; [done|].
    destruct (decide (TemplateRef i = "")); [by right|left; by apply Hknown].
  - rewrite <- !list_fmap_compose. apply Forall_fmap_ext_1, Forall_forall. intros i Hi. by apply reread_sp.
Qed.
End roundtrip.

(** ** What the file keeps *)

Section kept.
Context `{YamlLaws} {W : Type} `{World W} `{MapOrder W}.

Lemma written_and_read ctx spec y data (w w1 w2 : W) : never_ends ctx → Templates spec = no_templates →
  convertSpecToYaml ctx spec w = (inr y, w1) → storable y → yaml_Marshal y = inr data →
  ∃ w3, ParseConfig data ctx false w2 = (inr (reread_spec spec), w3).
Proof.
  intros Hctx Hnone Hconv Hst Hdata. pose proof (spec_to_yaml_runs ctx Hctx spec w Hnone) as Hl. rewrite Hconv in Hl.
  unfold ParseConfig, mbind, ES_bind, annotate, of_result. cbn [negb]. rewrite (decode_marshal y data Hst Hdata).
  destruct (yaml_to_spec_runs ctx spec y w2 Hctx Hl Hst Hnone) as [w3 Hr]. rewrite Hr. by exists w3.
Qed.

Lemma closed_is_written ctx spec (w : W) : never_ends ctx → Templates spec = no_templates →
  closed (ProtocolConverter spec) → roots_agree (StreamProcessor spec) →
  ∃ y w1, convertSpecToYaml ctx spec w = (inr y, w1).
Proof.
  intros Hctx Hnone Hpc Hsp. pose proof (spec_to_yaml_runs ctx Hctx spec w Hnone) as Hl.
  destruct (convertSpecToYaml ctx spec w) as [[e|y] w1]; [|by exists y, w1]. exfalso.
  destruct Hl as [Hl|[Hl|(i & Hi & Href & Hb)]]; [by apply Hl, closed_agree|done|].
  destruct (closed_root _ Hpc i Hi Href) as (r & Hr & Hroot & Heq). rewrite <- Heq, root_block_root in Hb; [done|by apply closed_agree|done|done].
Qed.

Lemma reread_spec_closed spec : closed (ProtocolConverter spec) → closed (StreamProcessor spec) → reread_spec spec = spec.
Proof. intros Hp Hs. unfold reread_spec. rewrite !reread_closed by done. by destruct spec. Qed.

(** C16: A configuration in which every template reference leads to a root and
    instances that share a template share its block can be written, and reading
    the file gives exactly the configuration back: factoring the templates out
    and expanding them again are inverse to each other. *)
Theorem configuration_survives_the_file ctx spec (w : W) :
  never_ends ctx → Templates spec = no_templates → closed (ProtocolConverter spec) → closed (StreamProcessor spec) →
  ∃ y w1, convertSpecToYaml ctx spec w = (inr y, w1) ∧
    ∀ data w2, storable y → yaml_Marshal y = inr data → ∃ w3, ParseConfig data ctx false w2 = (inr spec, w3).
Proof.
  intros Hctx Hnone Hp Hs. destruct (closed_is_written ctx spec w Hctx Hnone Hp (closed_agree _ Hs)) as (y & w1 & Hy).
  exists y, w1. split; [done|]. intros data w2 Hst Hdata.
  destruct (written_and_read ctx spec y data w w1 w2 Hctx Hnone Hy Hst Hdata) as [w3 Hr]. exists w3. by rewrite Hr, reread_spec_closed.
Qed.

(** A stream processor that refers to a template no stream processor is the
    root of is written without its block and without its reference. *)
Theorem orphan_loses_its_block ctx spec y data (w w1 w2 : W) i : never_ends ctx → Templates spec = no_templates →
  convertSpecToYaml ctx spec w = (inr y, w1) → storable y → yaml_Marshal y = inr data →
  i ∈ StreamProcessor spec → TemplateRef i ≠ "" → root_block (StreamProcessor spec) (TemplateRef i) = None →
  ∃ c w3, ParseConfig data ctx false w2 = (inr c, w3) ∧
    ∃ j, j ∈ StreamProcessor c ∧ tpl_Name j = tpl_Name i ∧ tpl_Config j = SP_zero ∧ TemplateRef j = "".
Proof.
  intros Hctx Hnone Hy Hst Hdata Hi Href Horph. destruct (written_and_read ctx spec y data w w1 w2 Hctx Hnone Hy Hst Hdata) as [w3 Hr].
  exists (reread_spec spec), w3. split; [done|]. exists (reread SP_zero (StreamProcessor spec) i). split.
  - cbn. apply list_elem_of_fmap. by exists i.
  - unfold reread. rewrite bool_decide_false, Horph by done. done.
Qed.
End kept.
