(* ===== verification/ConfigManager.v ===== *)
(** * ConfigManager: the cache of the configuration file and its writers

    Models [FileConfigManager] and [FileConfigManagerWithBackoff] of
    [pkg/config/manager.go].  The manager keeps the last configuration it read
    with the modification time of the file; when the time changes a goroutine
    reads the file anew while [GetConfig] goes on to answer from the cache.

    That goroutine is the field [refreshing]: [refresh_load] and
    [refresh_store] are its two steps, which may come at any time after
    [GetConfig] started it.  The semaphores behind the mutexes
    ([golang.org/x/sync]) are the class [Semaphores]. *)

From S2P Require Import Prelude Float64 GoRuntime GoBytes StateMonad Backoff FSMManager FileSystem Documents DataModel Translator Configuration.
Local Open Scope Z_scope.

(** ** Semaphores *)

Inductive Mutex := mutexAtomicUpdate | mutexReadOrWrite.
Class Semaphores (S : Type) := { Acquire : Mutex → Ctx → Z → St S (option GoErr) }.
Definition AmountReadersForConfigFile : Z := 100.

Section locks.
Context {S : Type} `{Semaphores S}.
(** [CtxMutex.Lock], [CtxRWMutex.RLock] and [CtxRWMutex.Lock]. *)
Definition Lock (ctx : Ctx) : St S (option GoErr) := Acquire mutexAtomicUpdate ctx 1.
Definition RW_RLock (ctx : Ctx) : St S (option GoErr) := Acquire mutexReadOrWrite ctx 1.
Definition RW_Lock (ctx : Ctx) : St S (option GoErr) := Acquire mutexReadOrWrite ctx AmountReadersForConfigFile.
End locks.

(** ** Constants and texts *)

Definition DefaultConfigPath : bytes := lit "/data/config.yaml".
Definition ConfigBackupDir : bytes := lit "/data/config-backups".
Definition ConfigBackupMaxEntries : nat := 100.
Definition ConfigGetConfigTimeout : Z := 80 * Millisecond.
Definition ConfigBackgroundRefreshTimeout : Z := 5 * Second.
(** The permissions 0666. *)
Definition mode_666 : Z := 438.
(** [os.ErrNotExist]. *)
Definition ErrNotExist : GoErr := ESentinel "os" "file does not exist".

(** [time.Time.Format] for [RFC3339] and for the names of backups, in UTC. *)
Definition RFC3339 (t : Time) : string := time_text (t / nano * nano).
Definition backup_name (t : Time) : string :=
  let secs := t / nano in
  let '(y, m, d) := civil (secs / 86400) in
  let s := secs mod 86400 in
  str_of (pad 10 4 y ++ pad 10 2 m ++ pad 10 2 d ++ lit "T" ++ pad 10 2 (s / 3600) ++ pad 10 2 (s / 60 mod 60) ++ pad 10 2 (s mod 60) ++
          lit "." ++ pad 10 9 (t mod nano) ++ lit "Z.yaml").

Definition ReleaseChannels : list string := ["nightly"; "stable"; "enterprise"].
Definition valid_channel `{Blocks} (c : FullConfig) : FullConfig :=
  if bool_decide (ReleaseChannel (Agent c) ∈ ReleaseChannels) then c
  else set_Agent (mkAgent (Location (Agent c)) "n/a" (MetricsPort (Agent c)) (APIURL (Agent c)) (AuthToken (Agent c))
         (AllowInsecureTLS (Agent c)) (EnableResourceLimitBlocking (Agent c)) (agent_rest (Agent c))) c.

(** ** The state *)

Section state.
Context `{Blocks}.

(** A background refresh: started for a modification time, or done with reading. *)
Inductive Refresh := Started (modTime : Time) | ReadDone (modTime : Time) (config : FullConfig) (raw : bytes) (err : option GoErr).

Record Manager := mkManager {
  configPath : bytes;
  cacheModTime : Time;
  cacheError : option GoErr;
  cacheConfig : FullConfig;
  cacheRawConfig : bytes;
  backupCount : Z;
  backupEnabled : bool;
  refreshing : option Refresh }.

Definition set_cache (t : Time) (c : FullConfig) (raw : bytes) (err : option GoErr) (m : Manager) : Manager :=
  mkManager (configPath m) t err c raw (backupCount m) (backupEnabled m) (refreshing m).
Definition set_refreshing (r : option Refresh) (m : Manager) : Manager :=
  mkManager (configPath m) (cacheModTime m) (cacheError m) (cacheConfig m) (cacheRawConfig m) (backupCount m) (backupEnabled m) r.
Definition count_backup (m : Manager) : Manager :=
  mkManager (configPath m) (cacheModTime m) (cacheError m) (cacheConfig m) (cacheRawConfig m) (wrap_u64 (backupCount m + 1)) (backupEnabled m) (refreshing m).
Definition set_backupEnabled (b : bool) (m : Manager) : Manager :=
  mkManager (configPath m) (cacheModTime m) (cacheError m) (cacheConfig m) (cacheRawConfig m) (backupCount m) b (refreshing m).
Definition IsZero (t : Time) : bool := t =? 0.
End state.

(** The manager with the file system and the world around it. *)
Record CState `{Blocks} (S : Type) := mkCS { cm : Manager; cfs : S }.
Arguments mkCS {_ S} _ _. Arguments cm {_ S} _. Arguments cfs {_ S} _.

Section manager.
Context `{Yaml} {S : Type} `{World S} `{Service S} `{MapOrder S} `{Semaphores S}.
Local Abbreviation CM := (ES (CState S)).

Definition in_fs {A} (m : St S A) : CM A := λ s, let (a, w) := m (cfs s) in (inr a, mkCS (cm s) w).
Definition in_fs_err {A} (m : ES S A) : CM A := λ s, let (r, w) := m (cfs s) in (r, mkCS (cm s) w).
Definition get_cm : CM Manager := λ s, (inr (cm s), s).
Definition on_cm (f : Manager → Manager) : CM () := λ s, (inr tt, mkCS (f (cm s)) (cfs s)).
(** A call whose only answer is an error. *)
Definition tried (f : GoErr → GoErr) (m : St S (option GoErr)) : CM () :=
  e ← in_fs m; match e with Some err => fail (f err) | None => mret tt end.
Definition lifted {A} (m : St S A) : ES S A := λ w, let (a, w') := m w in (inr a, w').

(** ** Reading *)

Definition readAndParseConfig (ctx : Ctx) (path : bytes) : ES S (FullConfig * bytes) :=
  readFileCtx ← lifted (WithTimeout ctx (ConfigGetConfigTimeout / 2));
  r ← lifted (ReadFile readFileCtx path);
  match r.2 with
  | Some err => fail (EWrap "failed to read config file: " err)
  | None =>
      _ ← alive ctx;
      config ← annotate (EWrap "failed to parse config file: ") (ParseConfig r.1 ctx false);
      _ ← alive ctx;
      if isEmptyConfig config then fail (ENew ("config file is empty: " +:+ str path))
      else mret (valid_channel config, r.1)
  end.

(** The three results of the function in Go. *)
Definition three_results (r : GoErr + FullConfig * bytes) : FullConfig * bytes * option GoErr :=
  match r with inl e => (zero_FullConfig, [], Some e) | inr (c, raw) => (c, raw, None) end.

Definition GetConfig (ctx : Ctx) : CM FullConfig :=
  _ ← tried (EWrap "failed to lock config file: ") (RW_RLock ctx);
  _ ← in_fs_err (alive ctx);
  m ← get_cm;
  _ ← tried (EWrap "failed to create config directory: ") (EnsureDirectory ctx (Dir (configPath m)));
  _ ← in_fs_err (alive ctx);
  r ← in_fs (FileExists ctx (configPath m));
  match r with
  | (_, Some err) => fail (EWrap ("failed to check if config file exists in " +:+ str (configPath m) +:+ ": ") err)
  | (false, None) => fail (ENew ("config file does not exist: " +:+ str (configPath m)))
  | (true, None) =>
      st ← in_fs (Stat ctx (configPath m));
      match st with
      | (_, Some err) =>
          if IsErr err ErrNotExist then fail (ENew ("config file does not exist: " +:+ str (configPath m)))
          else fail (EWrap "failed to stat config file: " err)
      | (None, None) => fail (ENew ("stat returned nil for config file: " +:+ str (configPath m)))
      | (Some info, None) =>
          if negb (IsZero (cacheModTime m)) && (ModTime info =? cacheModTime m) then mret (cacheConfig m)
          else
            _ ← (match refreshing m with
                 | Some _ => mret tt
                 | None => on_cm (set_refreshing (Some (Started (ModTime info))))
                 end);
            if isEmptyConfig (cacheConfig m) then
              fail (match cacheError m with None => ENew "cached config is empty. may be fixed by a background refresh" | Some err => err end)
            else match cacheError m with Some err => fail err | None => mret (cacheConfig m) end
      end
  end.

(** The goroutine of [backgroundRefresh]: it reads the file ... *)
Definition refresh_load (s : CState S) : CState S :=
  match refreshing (cm s) with
  | Some (Started modTime) =>
      let (ctx, w) := WithTimeout Background ConfigBackgroundRefreshTimeout (cfs s) in
      let (r, w) := readAndParseConfig ctx (configPath (cm s)) w in
      let '(config, raw, err) := three_results r in
      mkCS (set_refreshing (Some (ReadDone modTime config raw err)) (cm s)) w
  | _ => s
  end.
(** ... and stores what it read. *)
Definition refresh_store (s : CState S) : CState S :=
  match refreshing (cm s) with
  | Some (ReadDone modTime config raw err) => mkCS (set_refreshing None (set_cache modTime config raw err (cm s))) (cfs s)
  | _ => s
  end.
Definition backgroundRefresh (s : CState S) : CState S := refresh_store (refresh_load s).

Definition NewFileConfigManager (w : S) : CState S :=
  let (initCtx, w) := WithTimeout Background ConfigBackgroundRefreshTimeout w in
  let (r, w) := readAndParseConfig initCtx DefaultConfigPath w in
  let '(config, raw, err) := three_results r in
  let (st, w) := Stat initCtx DefaultConfigPath w in
  mkCS (match st with
        | (Some info, None) => mkManager DefaultConfigPath (ModTime info) err config raw 0 false None
        | (_, statErr) => mkManager DefaultConfigPath 0 statErr zero_FullConfig [] 0 false None
        end) w.

(** ** Backups *)

(** The names of the backups, oldest first. *)
Definition yaml_names (entries : list DirEntry) : list string :=
  sort_Strings (str_of <$> (FileSystem.Name <$> filter (λ e, IsDir e = false ∧ drop (length (FileSystem.Name e) - 5) (FileSystem.Name e) = lit ".yaml") entries)).
Definition backup_path (name : string) : bytes := Join [ConfigBackupDir; lit name].

Definition getLatestBackupContent (ctx : Ctx) : St S (option bytes) :=
  r ← ReadDir ctx ConfigBackupDir;
  match r.2, last (yaml_names r.1) with
  | Some _, _ | None, None => mret None
  | None, Some latest =>
      d ← ReadFile ctx (backup_path latest);
      mret (match d.2 with Some _ => None | None => Some d.1 end)
  end.

Fixpoint remove_backups (ctx : Ctx) (names : list string) : St S () :=
  match names with
  | [] => mret tt
  | name :: names => _ ← Remove ctx (backup_path name); remove_backups ctx names
  end.

(** The names beyond the newest [ConfigBackupMaxEntries]. *)
Definition toRemove (names : list string) : list string := take (length names - ConfigBackupMaxEntries) names.

Definition cleanupOldBackups (ctx : Ctx) : St S () :=
  r ← ReadDir ctx ConfigBackupDir;
  match r.2 with
  | Some _ => mret tt
  | None => remove_backups ctx (toRemove (yaml_names r.1))
  end.

(** Whether a backup was made. *)
Definition write_backup (ctx : Ctx) (path : bytes) : St S bool :=
  ex ← FileExists ctx path;
  match ex with
  | (true, None) =>
      content ← ReadFile ctx path;
      match content.2 with
      | Some _ => mret false
      | None =>
          e ← EnsureDirectory ctx ConfigBackupDir;
          match e with
          | Some _ => mret false
          | None =>
              latest ← getLatestBackupContent ctx;
              if bool_decide (latest = Some content.1) then mret false
              else
                now ← clock;
                e ← WriteFile ctx (backup_path (backup_name now)) content.1 mode_666;
                match e with
                | Some _ => mret false
                | None => _ ← cleanupOldBackups ctx; mret true
                end
          end
      end
  | _ => mret false
  end.

Definition createConfigBackup (ctx : Ctx) : CM () :=
  m ← get_cm;
  if backupEnabled m then
    made ← in_fs (write_backup ctx (configPath m));
    if (made : bool) then on_cm count_backup else mret tt
  else mret tt.

(** ** Writing *)

(** A file system that reports no error gives the info. *)
Definition mod_time_of (info : option FileInfo) : Time := match info with Some fi => ModTime fi | None => 0 end.

Definition writeConfig (ctx : Ctx) (config : FullConfig) : CM () :=
  _ ← tried (EWrap "failed to lock config file: ") (RW_Lock ctx);
  _ ← in_fs_err (alive ctx);
  m ← get_cm;
  _ ← tried (EWrap "failed to create config directory: ") (EnsureDirectory ctx (Dir (configPath m)));
  yamlConfig ← annotate (EWrap "failed to convert spec to yaml: ") (in_fs_err (convertSpecToYaml ctx config));
  data ← annotate (EWrap "failed to marshal config: ") (of_result (yaml_Marshal yamlConfig));
  _ ← tried (EWrap "failed to write config file: ") (WriteFile ctx (configPath m) data mode_666);
  _ ← createConfigBackup ctx;
  st ← in_fs (Stat ctx (configPath m));
  match st.2 with
  | Some err => fail (EWrap "failed to get file stats: " err)
  | None => on_cm (λ m, set_cache (mod_time_of st.1) config data (cacheError m) m)
  end.

Definition WriteYAMLConfigFromString (ctx : Ctx) (configStr : bytes) (expectedModTime : string) : CM () :=
  first ← (λ s, let (r, w) := ParseConfig configStr ctx false (cfs s) in (inr r, mkCS (cm s) w));
  _ ← (match first with
       | inr _ => mret tt
       | inl _ => _ ← annotate (EWrap "failed to parse config: ") (in_fs_err (ParseConfig configStr ctx true)); mret tt
       end);
  _ ← tried (EWrap "failed to lock config file: ") (RW_Lock ctx);
  m ← get_cm;
  _ ← (if bool_decide (expectedModTime = "") then mret tt
       else
         st ← in_fs (Stat ctx (configPath m));
         match st with
         | (_, Some err) => if IsErr err ErrNotExist then mret tt else fail (EWrap "failed to stat config file: " err)
         | (None, None) => fail (ENew ("stat returned nil for config file: " +:+ str (configPath m)))
         | (Some info, None) =>
             if bool_decide (RFC3339 (ModTime info) = expectedModTime) then mret tt
             else fail (ENew ("concurrent modification detected: file modified at " +:+ RFC3339 (ModTime info) +:+ ", expected " +:+ expectedModTime))
         end);
  _ ← tried (EWrap "failed to create config directory: ") (EnsureDirectory ctx (Dir (configPath m)));
  _ ← tried (EWrap "failed to write config file: ") (WriteFile ctx (configPath m) configStr mode_666);
  _ ← createConfigBackup ctx;
  st ← in_fs (Stat ctx (configPath m));
  match st.2 with
  | Some err => fail (EWrap "failed to get file stats: " err)
  | None =>
      new ← (λ s, let (r, w) := ParseConfig configStr ctx true (cfs s) in (inr r, mkCS (cm s) w));
      match new with
      | inl err =>
          _ ← on_cm (set_cache 0 zero_FullConfig [] (Some err));
          fail (EWrap "failed to parse new config for cache update: " err)
      | inr newConfig => on_cm (set_cache (mod_time_of st.1) newConfig configStr None)
      end
  end.

(** ** The start of the process *)

Definition NewInstanceRedpandaTopicCleanupPolicy : string := "delete".
Definition NewInstanceRedpandaTopicRetentionMs : Z := 604800000.

(** What a first start begins with, and what an existing file is merged into. *)
Definition start_Agent : AgentConfig := mkAgent ∅ "" 8080 "" "" false DefaultEnableResourceLimitBlocking Agent_zero.
Definition first_boot : FullConfig :=
  set_Agent start_Agent (set_Internal (mkInternal "" "" NewInstanceRedpandaTopicCleanupPolicy NewInstanceRedpandaTopicRetentionMs Internal_zero) zero_FullConfig).

Definition or_string (a b : string) : string := if bool_decide (a ≠ "") then a else b.
Definition override_Agent (o a : AgentConfig) : AgentConfig :=
  mkAgent (if bool_decide (default "" (Location o !! 0) ≠ "") then Location o else Location a)
    (or_string (ReleaseChannel o) (ReleaseChannel a)) (if 0 <? MetricsPort o then MetricsPort o else MetricsPort a)
    (or_string (APIURL o) (APIURL a)) (or_string (AuthToken o) (AuthToken a)) (AllowInsecureTLS o || AllowInsecureTLS a)
    (EnableResourceLimitBlocking a) (agent_rest a).
Definition override_Internal (o a : InternalConfig) : InternalConfig :=
  mkInternal (or_string (Redpanda_DesiredFSMState a) (Redpanda_DesiredFSMState o)) (or_string (TopicBrowser_DesiredFSMState a) (TopicBrowser_DesiredFSMState o))
    (DefaultTopicCleanupPolicy a) (DefaultTopicRetentionMs a) (internal_rest a).
Definition apply_overrides (o c : FullConfig) : FullConfig :=
  set_Internal (override_Internal (Internal o) (Internal c)) (set_Agent (override_Agent (Agent o) (Agent c)) c).

Definition GetConfigWithOverwritesOrCreateNew (ctx : Ctx) (configOverride : FullConfig) : CM FullConfig :=
  _ ← in_fs_err (alive ctx);
  m ← get_cm;
  ex ← in_fs (FileExists ctx (configPath m));
  config ← (match ex with
            | (_, Some err) => fail (EWrap "failed to check config file existence: " err)
            | (true, None) => annotate (EWrap "failed to get config that exists: ") (GetConfig ctx)
            | (false, None) => mret first_boot
            end);
  let config := apply_overrides configOverride config in
  _ ← annotate (EWrap "failed to write new config: ") (writeConfig ctx config);
  mret config.

(** ** What callers ask for *)

Definition GetConfigAsString (ctx : Ctx) : CM bytes :=
  _ ← annotate (EWrap "failed to get config: ") (GetConfig ctx);
  m ← get_cm; mret (cacheRawConfig m).
Definition GetCacheModTimeWithoutUpdate (m : Manager) : Time := cacheModTime m.
Definition UpdateAndGetCacheModTime (ctx : Ctx) : CM Time :=
  _ ← annotate (EWrap "failed to get config: ") (GetConfig ctx);
  m ← get_cm; mret (GetCacheModTimeWithoutUpdate m).
End manager.

(** ** With back-off *)

(** [FileConfigManagerWithBackoff]. *)
Record BState `{Blocks} (S : Type) := mkBS { configManager : CState S; backoffManager : BackoffManager }.
Arguments mkBS {_ S} _ _. Arguments configManager {_ S} _. Arguments backoffManager {_ S} _.

Section with_backoff.
Context `{Yaml} {S : Type} `{World S} `{Service S} `{MapOrder S} `{Semaphores S}.
Local Abbreviation BM := (ES (BState S)).

(** Ten minutes of ticks of a tenth of a second. *)
Definition DefaultTickerTime : Z := 100 * Millisecond.
Definition NewFileConfigManagerWithBackoff (w : S) : BState S :=
  mkBS (NewFileConfigManager w)
    (NewBackoffManager (mkConfig (cfg_InitialInterval DefaultConfig) (cfg_MaxInterval DefaultConfig) (Z.quot (600 * Second) DefaultTickerTime))).

Definition delegate {A} (m : ES (CState S) A) : BM A := λ s,
  let (r, c) := m (configManager s) in (r, mkBS c (backoffManager s)).
(** The head of every method that hands on to the wrapped manager. *)
Definition guarded_delegate {A} (ctx : Ctx) (m : ES (CState S) A) : BM A :=
  _ ← delegate (in_fs_err (alive ctx)); delegate m.

Definition on_backoff (f : BackoffManager → BackoffManager) : BM () := λ s, (inr tt, mkBS (configManager s) (f (backoffManager s))).

(** The call of the wrapped manager and what its result does to the back-off. *)
Definition fetch_config (ctx : Ctx) (tick : Z) : BM FullConfig := λ s,
  let (r, s) := (getConfigCtx ← delegate (in_fs (WithTimeout ctx ConfigGetConfigTimeout)); delegate (GetConfig getConfigCtx)) s in
  match r with
  | inl err =>
      let (random, w) := rand_Float64 (cfs (configManager s)) in
      (inl err, mkBS (mkCS (cm (configManager s)) w) (SetError (Some err) tick random (backoffManager s)).2)
  | inr config => (inr config, mkBS (configManager s) (Backoff.Reset (backoffManager s)))
  end.

Definition GetConfig_with_backoff (ctx : Ctx) (tick : Z) : BM FullConfig :=
  _ ← delegate (in_fs_err (alive ctx));
  b ← (λ s, (inr (backoffManager s), s));
  if ShouldSkipOperation tick b then
    match GetBackoffError tick b with Some err => fail err | None => mret zero_FullConfig end
  else fetch_config ctx tick.

Definition SetConfigBackupEnabled (enabled : bool) : BM () := delegate (on_cm (set_backupEnabled enabled)).
Definition GetConfigAsString_with_backoff (ctx : Ctx) : BM bytes :=
  _ ← annotate (EWrap "failed to get config: ") (GetConfig_with_backoff ctx 0);
  delegate (m ← get_cm; mret (cacheRawConfig m)).
Definition Reset_backoff : BM () := on_backoff Backoff.Reset.
Definition IsPermanentFailure (s : BState S) : bool := IsPermanentlyFailed (backoffManager s).
End with_backoff.
