(* ===== verification/ConfigEdits.v ===== *)
(** * ConfigEdits: the atomic edits of the configuration

    Models the [Atomic...] methods of [pkg/config/manager.go],
    [datamodel.go], [datacontract.go], [protocolconverter.go] and
    [streamprocessor.go].  Each takes the mutex of the edits, reads the
    configuration, decides what to do with it and writes the result; what
    differs is the decision, a function of the configuration, and
    [atomically] is what they share.

    [github.com/google/uuid] is the class [Uuids]. *)

From S2P Require Import Prelude GoRuntime GoBytes StateMonad FSMManager FileSystem Documents DataModel Translator Configuration ConfigManager.
From Stdlib Require Import Ascii.
Local Open Scope Z_scope.

(** ** Identifiers *)

Class Uuids := { UUID : Type; UUID_dec :: EqDecision UUID; uuid_NewSHA1 : string → UUID; uuid_String : UUID → string }.
Definition GenerateUUIDFromName `{Uuids} (name : string) : UUID := uuid_NewSHA1 name.

(** ** Decisions *)

(** Return an error, return a value without writing, or write and return it. *)
Inductive Edit `{Blocks} (A : Type) := Refuse (err : GoErr) | Keep (a : A) | Write (c : FullConfig) (a : A).
Arguments Refuse {_ A} _. Arguments Keep {_ A} _. Arguments Write {_ A} _ _.

Section edits.
Context `{Blocks} `{Uuids}.

Definition taken (kind name : string) : GoErr :=
  ENew ("another " +:+ kind +:+ " with name " +:+ quoted name +:+ " already exists – choose a unique name").
Definition has_name {A} (name_of : A → string) (name : string) (l : list A) : bool := existsb (λ x, bool_decide (name_of x = name)) l.

(** *** The location *)

Record EditInstanceLocationModel := mkLocationModel {
  Enterprise : string; Site : option string; Area : option string; Line : option string; WorkCell : option string }.

Definition put (k : Z) (v : option string) (m : gmap Z string) : gmap Z string := match v with Some v => <[k := v]> m | None => m end.
Definition new_location (location : EditInstanceLocationModel) : gmap Z string :=
  put 4 (WorkCell location) (put 3 (Line location) (put 2 (Area location) (put 1 (Site location) {[0 := Enterprise location]}))).
Definition location_strings (m : gmap Z string) : gmap string string :=
  list_to_map ((λ kv, (str (itoa kv.1), kv.2)) <$> map_to_list m).
Definition with_location {T X} (levels : gmap string string) (i : Templated T X) : Templated T X :=
  set_Location (levels ∪ tpl_Location i) i.

Definition set_location (location : EditInstanceLocationModel) (c : FullConfig) : Edit () :=
  let loc := new_location location in
  let a := Agent c in
  Write (set_StreamProcessor (with_location (location_strings loc) <$> StreamProcessor c)
          (set_ProtocolConverter (with_location (location_strings loc) <$> ProtocolConverter c)
            (set_Agent (mkAgent loc (ReleaseChannel a) (MetricsPort a) (APIURL a) (AuthToken a) (AllowInsecureTLS a)
              (EnableResourceLimitBlocking a) (agent_rest a)) c))) tt.

(** *** Data flow components *)

Definition dfc_kind : string := "dataflow component".
Definition dfc_is (id : UUID) (d : DataFlowComponentConfig) : Prop := GenerateUUIDFromName (dfc_Name d) = id.
#[global] Instance dfc_is_dec id d : Decision (dfc_is id d).
Proof. unfold dfc_is. apply _. Defined.
Definition unknown_id (kind : string) (id : UUID) : GoErr := ENew (kind +:+ " with UUID " +:+ uuid_String id +:+ " not found").

Definition add_dataflowcomponent (dfc : DataFlowComponentConfig) (c : FullConfig) : Edit () :=
  if has_name dfc_Name (dfc_Name dfc) (DataFlow c) then Refuse (taken dfc_kind (dfc_Name dfc))
  else Write (set_DataFlow (DataFlow c ++ [dfc]) c) tt.

Definition delete_dataflowcomponent (id : UUID) (c : FullConfig) : Edit () :=
  if existsb (λ d, bool_decide (dfc_is id d)) (DataFlow c) then Write (set_DataFlow (filter (λ d, ¬ dfc_is id d) (DataFlow c)) c) tt
  else Refuse (unknown_id dfc_kind id).

Definition edit_dataflowcomponent (id : UUID) (dfc : DataFlowComponentConfig) (c : FullConfig) : Edit DataFlowComponentConfig :=
  if existsb (λ d, bool_decide (dfc_Name d = dfc_Name dfc ∧ ¬ dfc_is id d)) (DataFlow c) then Refuse (taken dfc_kind (dfc_Name dfc))
  else match list_find (dfc_is id) (DataFlow c) with
       | None => Refuse (unknown_id dfc_kind id)
       | Some (i, old) =>
           if HasAnchors old then
             Refuse (ENew ("dataFlowComponentConfig for " +:+ uuid_String id +:+ " is defined via YAML anchors/aliases; " +:+
               "please edit the file manually or see https://docs.umh.app/reference/configuration-reference for more details"))
           else Write (set_DataFlow (<[i := dfc]> (DataFlow c)) c) old
       end.

(** *** Protocol converters and stream processors *)

Definition refers_to_root {T X} (l : list (Templated T X)) (i : Templated T X) : bool :=
  existsb (λ r, bool_decide (tpl_Name r = TemplateRef i ∧ TemplateRef r = tpl_Name r)) l.

(** The list with one more instance. *)
Definition add_templated {T X} (kind : string) (i : Templated T X) (l : list (Templated T X)) : GoErr + list (Templated T X) :=
  if has_name tpl_Name (tpl_Name i) l then inl (taken kind (tpl_Name i))
  else if bool_decide (TemplateRef i ≠ "" ∧ TemplateRef i ≠ tpl_Name i) && negb (refers_to_root l i) then
    inl (ENew ("template " +:+ quoted (TemplateRef i) +:+ " not found for child " +:+ tpl_Name i))
  else inr (l ++ [i]).

Definition add_protocolconverter (pc : ProtocolConverterConfig) (c : FullConfig) : Edit () :=
  match add_templated pc_kind pc (ProtocolConverter c) with
  | inl err => Refuse err
  | inr l => Write (set_ProtocolConverter l c) tt
  end.

Definition pc_is (id : UUID) (i : ProtocolConverterConfig) : Prop := GenerateUUIDFromName (tpl_Name i) = id.
#[global] Instance pc_is_dec id i : Decision (pc_is id i).
Proof. unfold pc_is. apply _. Defined.

Definition is_root_b {T X} (i : Templated T X) : bool := bool_decide (TemplateRef i ≠ "" ∧ TemplateRef i = tpl_Name i).
(** The instances other than number [n] that refer to [from] refer to [to]. *)
Definition rename_ref {T X} (n : nat) (from to : string) (l : list (Templated T X)) : list (Templated T X) :=
  imap (λ k i, if bool_decide (k ≠ n ∧ TemplateRef i = from) then set_TemplateRef to i else i) l.
Definition others {A} (n : nat) (P : A → bool) (l : list A) : nat := length (filter (λ x, x = true) (imap (λ k x, bool_decide (k ≠ n) && P x) l)).

Definition edit_protocolconverter (id : UUID) (pc : ProtocolConverterConfig) (c : FullConfig) : Edit ProtocolConverterConfig :=
  match list_find (pc_is id) (ProtocolConverter c) with
  | None => Refuse (unknown_id pc_kind id)
  | Some (n, old) =>
      if (0 <? others n (λ i, bool_decide (tpl_Name i = tpl_Name pc)) (ProtocolConverter c))%nat then Refuse (taken pc_kind (tpl_Name pc))
      else
        let l := if is_root_b old && is_root_b pc && bool_decide (tpl_Name old ≠ tpl_Name pc)
                 then rename_ref n (tpl_Name old) (tpl_Name pc) (ProtocolConverter c) else ProtocolConverter c in
        if negb (is_root_b old) && bool_decide (TemplateRef pc ≠ "") then
          Refuse (ENew ("cannot edit child " +:+ quoted (tpl_Name old) +:+ "; it is not a root. Edit the root instead: " +:+ quoted (TemplateRef old)))
        else Write (set_ProtocolConverter (<[n := pc]> l) c) old
  end.

Definition delete_protocolconverter (id : UUID) (c : FullConfig) : Edit () :=
  match list_find (pc_is id) (ProtocolConverter c) with
  | None => Refuse (unknown_id pc_kind id)
  | Some (n, target) =>
      let childCount := others n (λ i, bool_decide (TemplateRef i = tpl_Name target)) (ProtocolConverter c) in
      if is_root_b target && (0 <? childCount)%nat then
        Refuse (ENew ("cannot delete root " +:+ quoted (tpl_Name target) +:+ "; " +:+ str (itoa (Z.of_nat childCount)) +:+ " dependent converters exist"))
      else Write (set_ProtocolConverter (delete n (ProtocolConverter c)) c) tt
  end.

Definition add_streamprocessor (sp : StreamProcessorConfig) (c : FullConfig) : Edit () :=
  match add_templated sp_kind sp (StreamProcessor c) with
  | inl err => Refuse err
  | inr l => Write (set_StreamProcessor l c) tt
  end.

Definition unknown_name (kind name : string) : GoErr := ENew (kind +:+ " with name " +:+ quoted name +:+ " not found").

Definition edit_streamprocessor (sp : StreamProcessorConfig) (c : FullConfig) : Edit StreamProcessorConfig :=
  match list_find (λ i, tpl_Name i = tpl_Name sp) (StreamProcessor c) with
  | None => Refuse (unknown_name sp_kind (tpl_Name sp))
  | Some (n, old) =>
      if bool_decide (TemplateRef old ≠ "" ∧ TemplateRef old ≠ tpl_Name old) then
        Refuse (ENew ("cannot edit child stream processor " +:+ quoted (tpl_Name sp) +:+ " directly – edit the root template " +:+
          quoted (TemplateRef old) +:+ " instead"))
      else Write (set_StreamProcessor (<[n := sp]> (StreamProcessor c)) c) old
  end.

Definition delete_streamprocessor (name : string) (c : FullConfig) : Edit () :=
  match list_find (λ i, tpl_Name i = name) (StreamProcessor c) with
  | None => Refuse (unknown_name sp_kind name)
  | Some (n, target) =>
      let child := if bool_decide (TemplateRef target = tpl_Name target)
                   then head (filter (λ i, tpl_Name i ≠ name ∧ TemplateRef i = name) (StreamProcessor c)) else None in
      match child with
      | Some i => Refuse (ENew ("cannot delete root stream processor " +:+ quoted name +:+ " because child " +:+ quoted (tpl_Name i) +:+ " depends on it"))
      | None => Write (set_StreamProcessor (delete n (StreamProcessor c)) c) tt
      end
  end.

(** *** Data models and data contracts *)

Definition dm_kind : string := "data model".
Definition add_datamodel (name : string) (dmVersion : Structure) (description : string) (c : FullConfig) : Edit () :=
  if has_name model_Name name (DataModels c) then Refuse (taken dm_kind name)
  else Write (set_DataModels (DataModels c ++ [mkModels {["v1" := dmVersion]} name description]) c) tt.

(** The number of a version key. *)
Definition version_number (versionKey : string) : option Z :=
  match versionKey with String "v" rest => ParseInt (lit rest) 10 | _ => None end.
Definition maxVersion (versions : gmap string Structure) : Z :=
  foldl (λ m kv, match version_number kv.1 with Some n => if m <? n then n else m | None => m end) 0 (map_to_list versions).
Definition next_key (versions : gmap string Structure) : string := "v" +:+ str (itoa (wrap_i64 (maxVersion versions + 1))).

Definition edit_datamodel (name : string) (dmVersion : Structure) (description : string) (c : FullConfig) : Edit () :=
  match list_find (λ d, model_Name d = name) (DataModels c) with
  | None => Refuse (unknown_name dm_kind name)
  | Some (n, d) =>
      Write (set_DataModels (<[n := mkModels (<[next_key (Versions d) := dmVersion]> (Versions d)) (model_Name d) description]> (DataModels c)) c) tt
  end.

Definition delete_datamodel (name : string) (c : FullConfig) : Edit () :=
  match list_find (λ d, model_Name d = name) (DataModels c) with
  | None => Refuse (unknown_name dm_kind name)
  | Some (n, _) => Write (set_DataModels (delete n (DataModels c)) c) tt
  end.

Definition add_datacontract (dataContract : DataContractsConfig) (c : FullConfig) : Edit () :=
  if has_name contract_Name (contract_Name dataContract) (DataContracts c) then Refuse (taken "data contract" (contract_Name dataContract))
  else Write (set_DataContracts (DataContracts c ++ [dataContract]) c) tt.

(** *** The historian *)

Definition ErrHistorianNotConfigured : GoErr := ESentinel "config" "historian is not configured".
Definition ErrHistorianAlreadyConfigured : GoErr := ESentinel "config" "historian is already configured".

Definition set_historian (historian : HistorianConfig) (c : FullConfig) : Edit () :=
  match Historian c with
  | Some h => if bool_decide (h = historian) then Keep tt else Refuse ErrHistorianAlreadyConfigured
  | None => Write (set_Historian (Some historian) c) tt
  end.

Definition set_Password (p : string) (h : HistorianConfig) : HistorianConfig :=
  let t := Timescale h in
  mkHistorian (mkTimescale (SSLRootCert t) (SSLCert t) (SSLKey t) (Host t) p (Database t) (Username t) (SSLMode t) (ts_Port t)).
Definition edit_historian (historian : HistorianConfig) (c : FullConfig) : Edit () :=
  match Historian c with
  | None => Refuse ErrHistorianNotConfigured
  | Some h =>
      let historian := if bool_decide (Password (Timescale historian) = "") then set_Password (Password (Timescale h)) historian else historian in
      Write (set_Historian (Some historian) c) tt
  end.

Definition delete_historian (c : FullConfig) : Edit () := Write (set_Historian None c) tt.
End edits.

(** ** The methods *)

Section atomic.
Context `{Yaml} `{Uuids} {S : Type} `{World S} `{Service S} `{MapOrder S} `{Semaphores S}.
Local Abbreviation CM := (ES (CState S)).

(** The first half of an edit, up to the decision, and the second. *)
Definition begin_edit (ctx : Ctx) : CM FullConfig :=
  _ ← tried (EWrap "failed to lock config file: ") (Lock ctx);
  annotate (EWrap "failed to get config: ") (GetConfig ctx).
Definition commit_edit {A} (ctx : Ctx) (e : Edit A) : CM A :=
  match e with
  | Refuse err => fail err
  | Keep a => mret a
  | Write c a => _ ← annotate (EWrap "failed to write config: ") (writeConfig ctx c); mret a
  end.
Definition atomically {A} (ctx : Ctx) (edit : FullConfig → Edit A) : CM A := c ← begin_edit ctx; commit_edit ctx (edit c).

Definition AtomicSetLocation ctx location := atomically ctx (set_location location).
Definition AtomicAddDataflowcomponent ctx dfc := atomically ctx (add_dataflowcomponent dfc).
Definition AtomicDeleteDataflowcomponent ctx id := atomically ctx (delete_dataflowcomponent id).
Definition AtomicEditDataflowcomponent ctx id dfc := atomically ctx (edit_dataflowcomponent id dfc).
Definition AtomicAddProtocolConverter ctx pc := atomically ctx (add_protocolconverter pc).
Definition AtomicEditProtocolConverter ctx id pc := atomically ctx (edit_protocolconverter id pc).
Definition AtomicDeleteProtocolConverter ctx id := atomically ctx (delete_protocolconverter id).
Definition AtomicAddStreamProcessor ctx sp := atomically ctx (add_streamprocessor sp).
Definition AtomicEditStreamProcessor ctx sp := atomically ctx (edit_streamprocessor sp).
Definition AtomicDeleteStreamProcessor ctx name := atomically ctx (delete_streamprocessor name).
Definition AtomicAddDataModel ctx name dmVersion description := atomically ctx (add_datamodel name dmVersion description).
Definition AtomicEditDataModel ctx name dmVersion description := atomically ctx (edit_datamodel name dmVersion description).
Definition AtomicDeleteDataModel ctx name := atomically ctx (delete_datamodel name).
Definition AtomicAddDataContract ctx dataContract := atomically ctx (add_datacontract dataContract).
Definition AtomicSetHistorian ctx historian := atomically ctx (set_historian historian).
Definition AtomicEditHistorian ctx historian := atomically ctx (edit_historian historian).
Definition AtomicDeleteHistorian ctx := atomically ctx delete_historian.
End atomic.
