(* ===== verification/ConfigEditFacts.v ===== *)
(** * ConfigEditFacts: what the edits of the configuration keep

    Every edit keeps the names of each kind of component unique; versions of
    data models and data contracts are never changed, only added; an edit of a
    closed configuration gives a closed one, so that the file says what the
    cache holds, unless it changes the block of a root others refer to. *)

From S2P Require Import Prelude GoRuntime GoBytes StateMonad FSMManager FileSystem Documents DataModel DataModelFacts Translator Configuration ConfigTemplates ConfigManager ConfigEdits.
From Stdlib Require Import Ascii.
Local Open Scope Z_scope.

(** ** The edits as values *)

Section operations.
Context `{Blocks} `{Uuids}.

Inductive Operation :=
  | OpSetLocation (l : EditInstanceLocationModel)
  | OpAddDFC (d : DataFlowComponentConfig) | OpDeleteDFC (id : UUID) | OpEditDFC (id : UUID) (d : DataFlowComponentConfig)
  | OpAddPC (i : ProtocolConverterConfig) | OpEditPC (id : UUID) (i : ProtocolConverterConfig) | OpDeletePC (id : UUID)
  | OpAddSP (i : StreamProcessorConfig) | OpEditSP (i : StreamProcessorConfig) | OpDeleteSP (name : string)
  | OpAddModel (name : string) (v : Structure) (description : string) | OpEditModel (name : string) (v : Structure) (description : string)
  | OpDeleteModel (name : string)
  | OpAddContract (d : DataContractsConfig)
  | OpSetHistorian (h : HistorianConfig) | OpEditHistorian (h : HistorianConfig) | OpDeleteHistorian.

Definition written {A} (e : Edit A) : option FullConfig := match e with Write c _ => Some c | _ => None end.

(** The configuration an operation writes. *)
Definition run_op (o : Operation) (c : FullConfig) : option FullConfig :=
  match o with
  | OpSetLocation l => written (set_location l c)
  | OpAddDFC d => written (add_dataflowcomponent d c)
  | OpDeleteDFC id => written (delete_dataflowcomponent id c)
  | OpEditDFC id d => written (edit_dataflowcomponent id d c)
  | OpAddPC i => written (add_protocolconverter i c)
  | OpEditPC id i => written (edit_protocolconverter id i c)
  | OpDeletePC id => written (delete_protocolconverter id c)
  | OpAddSP i => written (add_streamprocessor i c)
  | OpEditSP i => written (edit_streamprocessor i c)
  | OpDeleteSP n => written (delete_streamprocessor n c)
  | OpAddModel n v d => written (add_datamodel n v d c)
  | OpEditModel n v d => written (edit_datamodel n v d c)
  | OpDeleteModel n => written (delete_datamodel n c)
  | OpAddContract d => written (add_datacontract d c)
  | OpSetHistorian h => written (set_historian h c)
  | OpEditHistorian h => written (edit_historian h c)
  | OpDeleteHistorian => written (delete_historian c)
  end.

Record unique_names (c : FullConfig) : Prop := {
  unique_dfc : NoDup (dfc_Name <$> DataFlow c);
  unique_pc : NoDup (tpl_Name <$> ProtocolConverter c);
  unique_sp : NoDup (tpl_Name <$> StreamProcessor c);
  unique_dm : NoDup (model_Name <$> DataModels c);
  unique_dc : NoDup (contract_Name <$> DataContracts c);
}.
End operations.

(** ** Lists with unique names *)

Section names.
Context {A : Type} (f : A → string).
Implicit Types (l : list A).

Lemma has_name_false n l : has_name f n l = false → n ∉ f <$> l.
Proof.
  unfold has_name. intros He (x & -> & Hx)%list_elem_of_fmap. apply not_true_iff_false in He. apply He, existsb_exists.
  exists x. split; [by apply list_elem_of_In|by apply bool_decide_eq_true].
Qed.

Lemma nodup_add x l : NoDup (f <$> l) → has_name f (f x) l = false → NoDup (f <$> (l ++ [x])).
Proof.
  intros Hl Hn%has_name_false. rewrite fmap_app, NoDup_app. split_and!; [done| |apply NoDup_singleton].
  intros n Hin ->%list_elem_of_singleton. done.
Qed.

Lemma nodup_filter P `{∀ x, Decision (P x)} l : NoDup (f <$> l) → NoDup (f <$> filter P l).
Proof.
  induction l as [|x l IH]; [done|]. rewrite filter_cons. cbn. intros [Hx Hl]%NoDup_cons. case_decide; [|by apply IH].
  cbn. apply NoDup_cons. split; [|by apply IH]. intros (y & Heq & [_ Hy]%list_elem_of_filter)%list_elem_of_fmap.
  apply Hx. rewrite Heq. apply list_elem_of_fmap. by exists y.
Qed.

Lemma nodup_delete n l : NoDup (f <$> l) → NoDup (f <$> delete n l).
Proof.
  intros Hl. rewrite list_fmap_delete. eapply sublist_NoDup; [exact Hl|apply sublist_delete].
Qed.

Lemma nodup_insert n x l : NoDup (f <$> l) → (∀ k y, l !! k = Some y → f y = f x → k = n) → NoDup (f <$> <[n := x]> l).
Proof.
  intros Hl Hx. apply NoDup_alt. intros i j s. rewrite !list_lookup_fmap. intros Hi Hj.
  pose proof (proj1 (NoDup_alt (f <$> l)) Hl) as Hn. destruct (decide (n < length l)%nat) as [Hlen|Hlen].
  2:{ rewrite list_insert_ge in Hi, Hj by lia. eapply Hn; rewrite list_lookup_fmap; eauto. }
  destruct (decide (i = n)) as [->|Hin], (decide (j = n)) as [->|Hjn]; [done| | |].
  - rewrite list_lookup_insert_eq in Hi by done. rewrite list_lookup_insert_ne in Hj by done. destruct (l !! j) as [y|] eqn:E; [|done].
    symmetry. apply (Hx j y E). naive_solver.
  - rewrite list_lookup_insert_ne in Hi by done. rewrite list_lookup_insert_eq in Hj by done. destruct (l !! i) as [y|] eqn:E; [|done].
    apply (Hx i y E). naive_solver.
  - rewrite list_lookup_insert_ne in Hi, Hj by done. eapply Hn; rewrite list_lookup_fmap; eauto.
Qed.


Lemma nodup_index l k n x y : NoDup (f <$> l) → l !! k = Some x → l !! n = Some y → f x = f y → k = n.
Proof.
  intros Hl Hk Hn Heq. eapply (proj1 (NoDup_alt _) Hl k n (f x)); rewrite list_lookup_fmap; [by rewrite Hk|by rewrite Hn, Heq].
Qed.
End names.

(** ** What the parts of an edit do *)

Section parts.
Context {T X : Type}.
Implicit Types (l : list (Templated T X)) (i : Templated T X).

Lemma add_templated_ok kind i l l' : add_templated kind i l = inr l' →
  l' = l ++ [i] ∧ has_name tpl_Name (tpl_Name i) l = false ∧
  (TemplateRef i ≠ "" → TemplateRef i ≠ tpl_Name i → ∃ r, r ∈ l ∧ tpl_Name r = TemplateRef i ∧ TemplateRef r = tpl_Name r).
Proof.
  unfold add_templated. destruct (has_name _ _ _); [done|]. case_bool_decide as Hc; cbn.
  - destruct (refers_to_root l i) eqn:E; [|done]. intros [= <-]. split_and!; [done..|]. intros _ _.
    apply existsb_exists in E as (r & Hr%list_elem_of_In & Heq%bool_decide_eq_true). exists r. naive_solver.
  - intros [= <-]. split_and!; [done..|]. naive_solver.
Qed.

Lemma others_none {A} n (P : A → bool) (l : list A) : others n P l = 0%nat → ∀ k x, l !! k = Some x → k ≠ n → P x = false.
Proof.
  unfold others. intros Ho k x Hk Hne. apply nil_length_inv in Ho. destruct (P x) eqn:E; [|done]. exfalso.
  assert (true ∈ filter (λ x, x = true) (imap (λ k x, bool_decide (k ≠ n) && P x) l)) as Hin.
  { apply list_elem_of_filter. split; [done|]. apply list_elem_of_lookup. exists k. rewrite list_lookup_imap, Hk. cbn.
    by rewrite bool_decide_true, E. }
  rewrite Ho in Hin. by apply not_elem_of_nil in Hin.
Qed.

Lemma rename_ref_names n a b l : tpl_Name <$> rename_ref n a b l = tpl_Name <$> l.
Proof.
  apply list_eq. intros k. rewrite !list_lookup_fmap. unfold rename_ref. rewrite list_lookup_imap.
  destruct (l !! k); [|done]. cbn. by case_bool_decide.
Qed.

Lemma rename_ref_same n a l : rename_ref n a a l = l.
Proof.
  apply list_eq. intros k. unfold rename_ref. rewrite list_lookup_imap. destruct (l !! k) as [i|]; [|done]. cbn.
  case_bool_decide as Hd; [|done]. destruct Hd as [_ <-]. by destruct i.
Qed.

Lemma fmap_names {f : Templated T X → Templated T X} l : (∀ i, tpl_Name (f i) = tpl_Name i) → tpl_Name <$> (f <$> l) = tpl_Name <$> l.
Proof. intros Hf. rewrite <- list_fmap_compose. apply list_fmap_ext. intros k i _. apply Hf. Qed.

Lemma nodup_edit n i l l' : NoDup (tpl_Name <$> l) → tpl_Name <$> l' = tpl_Name <$> l →
  (∀ k j, l !! k = Some j → tpl_Name j = tpl_Name i → k = n) → NoDup (tpl_Name <$> <[n := i]> l').
Proof.
  intros Hl Heq Hi. apply nodup_insert; [by rewrite Heq|]. intros k j Hj Hn.
  assert ((tpl_Name <$> l) !! k = Some (tpl_Name j)) as Hk by (by rewrite <- Heq, list_lookup_fmap, Hj).
  rewrite list_lookup_fmap in Hk. destruct (l !! k) as [j'|] eqn:E; [|done]. apply (Hi k j' E). injection Hk as Hk. by rewrite Hk.
Qed.
End parts.

Section invariant.
Context `{Blocks} `{Uuids}.

Lemma edit_pc_written id i c c' : run_op (OpEditPC id i) c = Some c' → ∃ n old l,
  list_find (pc_is id) (ProtocolConverter c) = Some (n, old) ∧ c' = set_ProtocolConverter (<[n := i]> l) c ∧
  l = (if is_root_b old && is_root_b i then rename_ref n (tpl_Name old) (tpl_Name i) (ProtocolConverter c) else ProtocolConverter c) ∧
  ∀ k j, ProtocolConverter c !! k = Some j → tpl_Name j = tpl_Name i → k = n.
Proof.
  cbn. unfold edit_protocolconverter. destruct (list_find _ _) as [[n old]|] eqn:Ef; [|done].
  destruct (0 <? others _ _ _)%nat eqn:Eo; [done|].
  destruct (negb (is_root_b old) && _); [done|]. intros [= <-]. exists n, old. eexists. split_and!; [done|done| |].
  - destruct (is_root_b old && is_root_b i); cbn [andb]; [|done]. case_bool_decide as Hd; [done|]. symmetry.
    assert (tpl_Name old = tpl_Name i) as -> by (destruct (decide (tpl_Name old = tpl_Name i)); [done|by destruct Hd]). apply rename_ref_same.
  - intros k j Hj Heq. destruct (decide (k = n)); [done|]. exfalso. apply Nat.ltb_ge in Eo.
    pose proof (others_none n _ _ (proj1 (Nat.le_0_r _) Eo) k j Hj) as Hf. cbn in Hf.
    by apply bool_decide_eq_false in Hf.
Qed.

(** No two data flow components have the same identifier, which is a hash of
    the name. *)
Definition distinct_ids (c : FullConfig) : Prop := ∀ x y, x ∈ DataFlow c → y ∈ DataFlow c →
  GenerateUUIDFromName (dfc_Name x) = GenerateUUIDFromName (dfc_Name y) → dfc_Name x = dfc_Name y.

Lemma edit_dfc_written id d c c' : distinct_ids c → NoDup (dfc_Name <$> DataFlow c) → run_op (OpEditDFC id d) c = Some c' →
  ∃ n, c' = set_DataFlow (<[n := d]> (DataFlow c)) c ∧ ∀ k y, DataFlow c !! k = Some y → dfc_Name y = dfc_Name d → k = n.
Proof.
  intros Hinj Hdfc. cbn. unfold edit_dataflowcomponent. destruct (existsb _ _) eqn:E; [done|]. destruct (list_find _ _) as [[n old]|] eqn:Ef; [|done].
  destruct (HasAnchors old); [done|]. intros [= <-]. exists n. split; [done|]. intros k y Hk Hy.
  apply list_find_Some in Ef as (Hn & Hid & _). assert (dfc_is id y) as Hyid.
  { destruct (decide (dfc_is id y)); [done|]. exfalso. apply not_true_iff_false in E. apply E, existsb_exists. exists y.
    split; [by eapply list_elem_of_In, list_elem_of_lookup_2|by apply bool_decide_eq_true]. }
  assert (dfc_Name y = dfc_Name old) as Heq by (apply Hinj; [by eapply list_elem_of_lookup_2..|unfold dfc_is in *; congruence]).
  by eapply nodup_index.
Qed.

Lemma edit_sp_written i c c' : NoDup (tpl_Name <$> StreamProcessor c) → run_op (OpEditSP i) c = Some c' →
  ∃ n old, StreamProcessor c !! n = Some old ∧ c' = set_StreamProcessor (<[n := i]> (StreamProcessor c)) c ∧
    ∀ k y, StreamProcessor c !! k = Some y → tpl_Name y = tpl_Name i → k = n.
Proof.
  intros Hsp. cbn. unfold edit_streamprocessor. destruct (list_find _ _) as [[n old]|] eqn:Ef; [|done]. case_bool_decide; [done|].
  intros [= <-]. apply list_find_Some in Ef as (Hn & Hid & _). exists n, old. split_and!; [done..|]. intros k y Hk Hy.
  eapply nodup_index; [exact Hsp|exact Hk|exact Hn|congruence].
Qed.

(** C17: The names of data flow components, protocol converters, stream
    processors, data models and data contracts stay unique under every edit, as
    long as no two data flow components of the configuration have the same
    identifier (a hash of the name, by which the edits find them). *)
Theorem edits_keep_names_unique (o : Operation) (c c' : FullConfig) : distinct_ids c →
  unique_names c → run_op o c = Some c' → unique_names c'.
Proof.
  intros Hinj [Hdfc Hpc Hsp Hdm Hdc] Ho. destruct o.
  - injection Ho as <-. split; cbn; rewrite ?fmap_names; done.
  - cbn in Ho. unfold add_dataflowcomponent in Ho. destruct (has_name _ _ _) eqn:E; [done|]. injection Ho as <-. split; cbn; try done. by apply nodup_add.
  - cbn in Ho. unfold delete_dataflowcomponent in Ho. destruct (existsb _ _); [|done]. injection Ho as <-. split; cbn; try done. by apply nodup_filter.
  - destruct (edit_dfc_written _ _ _ _ Hinj Hdfc Ho) as (n & -> & Hu). split; cbn; try done. by apply nodup_insert.
  - cbn in Ho. unfold add_protocolconverter in Ho. destruct (add_templated _ _ _) as [|l] eqn:E; [done|]. injection Ho as <-.
    apply add_templated_ok in E as (-> & ? & _). split; cbn; try done. by apply nodup_add.
  - destruct (edit_pc_written _ _ _ _ Ho) as (n & old & l & _ & -> & -> & Hu).
    split; cbn; try done. destruct (is_root_b old && is_root_b i); (eapply nodup_edit; [exact Hpc| |done]); [apply rename_ref_names|done].
  - cbn in Ho. unfold delete_protocolconverter in Ho. destruct (list_find _ _) as [[n old]|]; [|done]. destruct (is_root_b old && _); [done|].
    injection Ho as <-. split; cbn; try done. by apply nodup_delete.
  - cbn in Ho. unfold add_streamprocessor in Ho. destruct (add_templated _ _ _) as [|l] eqn:E; [done|]. injection Ho as <-.
    apply add_templated_ok in E as (-> & ? & _). split; cbn; try done. by apply nodup_add.
  - destruct (edit_sp_written _ _ _ Hsp Ho) as (n & old & _ & -> & Hu). split; cbn; try done. by apply nodup_insert.
  - cbn in Ho. unfold delete_streamprocessor in Ho. destruct (list_find _ _) as [[n old]|]; [|done]. destruct (if bool_decide _ then _ else _); [done|].
    injection Ho as <-. split; cbn; try done. by apply nodup_delete.
  - cbn in Ho. unfold add_datamodel in Ho. destruct (has_name _ _ _) eqn:E; [done|]. injection Ho as <-. split; cbn; try done. by apply nodup_add.
  - cbn in Ho. unfold edit_datamodel in Ho. destruct (list_find _ _) as [[n d]|] eqn:Ef; [|done]. injection Ho as <-. split; cbn; try done.
    apply list_find_Some in Ef as (Hn & Hid & _). rewrite list_fmap_insert. cbn. rewrite list_insert_id; [done|]. by rewrite list_lookup_fmap, Hn.
  - cbn in Ho. unfold delete_datamodel in Ho. destruct (list_find _ _) as [[n d]|]; [|done]. injection Ho as <-. split; cbn; try done. by apply nodup_delete.
  - cbn in Ho. unfold add_datacontract in Ho. destruct (has_name _ _ _) eqn:E; [done|]. injection Ho as <-. split; cbn; try done. by apply nodup_add.
  - cbn in Ho. unfold set_historian in Ho. destruct (Historian c); [by case_bool_decide|]. by injection Ho as <-.
  - cbn in Ho. unfold edit_historian in Ho. destruct (Historian c); [|done]. by injection Ho as <-.
  - by injection Ho as <-.
Qed.
End invariant.

(** ** Data models and contracts only grow *)

Section growth.
Context `{Blocks} `{Uuids}.

(** Break up the decision of an edit down to what it writes. *)
Local Ltac decided Ho := cbn in Ho; repeat (case_match; try discriminate Ho); injection Ho as <-.

Lemma models_untouched o c c' : run_op o c = Some c' →
  match o with OpAddModel _ _ _ | OpEditModel _ _ _ | OpDeleteModel _ => True | _ => DataModels c' = DataModels c end ∧
  match o with OpAddContract _ => True | _ => DataContracts c' = DataContracts c end.
Proof.
  intros Ho. destruct o; cbn in Ho;
    unfold set_location, add_dataflowcomponent, delete_dataflowcomponent, edit_dataflowcomponent, add_protocolconverter,
      edit_protocolconverter, delete_protocolconverter, add_streamprocessor, edit_streamprocessor, delete_streamprocessor, add_datamodel,
      edit_datamodel, delete_datamodel, add_datacontract, set_historian, edit_historian, delete_historian in Ho; decided Ho; done.
Qed.

Lemma maxVersion_step l : ∀ m, m <= foldl (λ m (kv : string * Structure), match version_number kv.1 with Some n => if m <? n then n else m | None => m end) m l ∧
  ∀ k v n, (k, v) ∈ l → version_number k = Some n →
    n <= foldl (λ m (kv : string * Structure), match version_number kv.1 with Some n => if m <? n then n else m | None => m end) m l.
Proof.
  induction l as [|[k v] l IH]; intros m; cbn [foldl fst]; [split; [lia|by intros ? ? ? ?%not_elem_of_nil]|].
  set (m' := match version_number k with Some n => if m <? n then n else m | None => m end). destruct (IH m') as [Hm Hl].
  assert (m <= m' ∧ ∀ n, version_number k = Some n → n <= m') as [Hmm Hk].
  { unfold m'. destruct (version_number k) as [n0|]; [|split; [lia|done]]. split; [zcases; lia|]. intros n [= <-]. zcases; lia. }
  split; [lia|]. intros k' v' n [[= <- <-]|Hin]%elem_of_cons Hn; [specialize (Hk n Hn); lia|by eapply Hl].
Qed.

Lemma version_number_next m : 0 <= m < 2 ^ 63 - 1 → version_number ("v" +:+ str (itoa (wrap_i64 (m + 1)))) = Some (m + 1).
Proof.
  intros Hm. rewrite wrap_i64_small by lia.
  change (ParseInt (lit (str (itoa (m + 1)))) 10 = Some (m + 1)). unfold lit, str. rewrite String.list_ascii_of_string_of_list_ascii.
  apply ParseInt_itoa. lia.
Qed.

Lemma next_key_fresh versions : maxVersion versions < 2 ^ 63 - 1 → versions !! next_key versions = None.
Proof.
  intros Hm. destruct (versions !! next_key versions) as [v|] eqn:E; [|done]. exfalso.
  destruct (maxVersion_step (map_to_list versions) 0) as [Hge Hle]. fold (maxVersion versions) in *.
  pose proof (Hle (next_key versions) v (maxVersion versions + 1)) as Hn. cbn beta in Hn.
  enough (maxVersion versions + 1 <= maxVersion versions) by lia. apply Hn; [by apply elem_of_map_to_list|by apply version_number_next].
Qed.

(** C18: An edit never changes a version of a data model or a data contract: the
    contracts keep their places, and a model keeps its versions unless the
    edit deletes the model.  The next version gets a number above all others,
    as long as the numbers fit into an [int]. *)
Theorem versions_only_grow (o : Operation) (c c' : FullConfig) :
  (∀ d, d ∈ DataModels c → maxVersion (Versions d) < 2 ^ 63 - 1) → run_op o c = Some c' →
  DataContracts c `prefix_of` DataContracts c' ∧
  ∀ d, d ∈ DataModels c → o = OpDeleteModel (model_Name d) ∨
    ∃ d', d' ∈ DataModels c' ∧ model_Name d' = model_Name d ∧ Versions d ⊆ Versions d'.
Proof.
  intros Hmax Ho. destruct (models_untouched o c c' Ho) as [Hm Hc]. split.
  - destruct o; rewrite ?Hc; try done. cbn in Ho. unfold add_datacontract in Ho. decided Ho. by apply prefix_app_r.
  - intros d Hd. destruct o; try (rewrite Hm; right; by exists d); cbn in Ho.
    + unfold add_datamodel in Ho. decided Ho. right. exists d. cbn. set_solver.
    + unfold edit_datamodel in Ho. destruct (list_find _ _) as [[n e]|] eqn:Ef; [|done]. injection Ho as <-. right.
      apply list_find_Some in Ef as (Hn & Hid & _). apply list_elem_of_lookup in Hd as [k Hk]. cbn. destruct (decide (k = n)) as [->|Hne].
      * rewrite Hn in Hk. injection Hk as <-. eexists. split; [apply list_elem_of_lookup_2 with n, list_lookup_insert_eq; by eapply lookup_lt_Some|].
        split; [done|]. cbn. apply insert_subseteq, next_key_fresh, Hmax. by eapply list_elem_of_lookup_2.
      * exists d. split; [|done]. apply list_elem_of_lookup_2 with k. by rewrite list_lookup_insert_ne.
    + unfold delete_datamodel in Ho. destruct (list_find _ _) as [[n e]|] eqn:Ef; [|done]. injection Ho as <-.
      apply list_find_Some in Ef as (Hn & Hid & _). apply list_elem_of_lookup in Hd as [k Hk]. destruct (decide (k = n)) as [->|Hne].
      * left. congruence.
      * right. exists d. split; [|done]. cbn. apply list_elem_of_lookup. destruct (decide (k < n)%nat).
        -- exists k. by rewrite list_lookup_delete_lt.
        -- exists (k - 1)%nat. rewrite list_lookup_delete_ge by lia. by replace (S (k - 1)) with k by lia.
Qed.
End growth.

(** ** Templates *)

Section closed_lists.
Context {T X : Type}.
Implicit Types (l : list (Templated T X)) (i : Templated T X).

Definition vars_free (i : Templated T X) : Prop :=
  TemplateRef i ≠ "" → User (Variables i) !! "location" = None ∧ User (Variables i) !! "location_path" = None.
(** No instance but number [n] refers to [ref]. *)
Definition apart (l : list (Templated T X)) (n : nat) (ref : string) : Prop :=
  ∀ k j, l !! k = Some j → k ≠ n → TemplateRef j ≠ "" → TemplateRef j ≠ ref.

Lemma closed_add l i : closed l → vars_free i → (∀ r, r ∈ l → TemplateRef r = TemplateRef i → TemplateRef i ≠ "" → tpl_Config r = tpl_Config i) →
  (TemplateRef i ≠ "" → TemplateRef i ≠ tpl_Name i → ∃ r, r ∈ l ∧ tpl_Name r = TemplateRef i ∧ TemplateRef r = tpl_Name r) → closed (l ++ [i]).
Proof.
  intros Hc Hv Hb Hr. split.
  - intros j [Hj| ->%list_elem_of_singleton]%elem_of_app Href.
    + destruct (closed_root l Hc j Hj Href) as (r & ? & ?). exists r. split; [set_solver|done].
    + destruct (decide (TemplateRef i = tpl_Name i)) as [Heq|Hne]; [exists i; split_and!; [set_solver|by split|done]|].
      destruct (Hr Href Hne) as (r & ? & ? & ?). exists r. split_and!; [set_solver|split; congruence|congruence].
  - intros j k [Hj| ->%list_elem_of_singleton]%elem_of_app [Hk| ->%list_elem_of_singleton]%elem_of_app Href Heq.
    + by apply (closed_block l Hc).
    + apply Hb; [done..|congruence].
    + symmetry. apply Hb; congruence.
    + done.
  - intros j [Hj| ->%list_elem_of_singleton]%elem_of_app Href; [by apply (closed_vars l Hc)|by apply Hv].
Qed.

Lemma elem_of_others l n i : i ∈ delete n l → i ∈ l.
Proof. apply sublist_subseteq, sublist_delete. Qed.

Lemma elem_of_delete_ne l n k i : l !! k = Some i → k ≠ n → i ∈ delete n l.
Proof.
  intros Hk Hne. apply list_elem_of_lookup. destruct (decide (k < n)%nat).
  - exists k. by rewrite list_lookup_delete_lt.
  - exists (k - 1)%nat. rewrite list_lookup_delete_ge by lia. by replace (S (k - 1)) with k by lia.
Qed.

Lemma elem_of_delete_inv l n i : i ∈ delete n l → ∃ k, l !! k = Some i ∧ k ≠ n.
Proof.
  intros [k Hk]%list_elem_of_lookup. destruct (decide (k < n)%nat).
  - rewrite list_lookup_delete_lt in Hk by done. exists k. split; [done|lia].
  - rewrite list_lookup_delete_ge in Hk by lia. exists (S k). split; [done|lia].
Qed.

Lemma closed_delete l n target : closed l → l !! n = Some target → (is_root target → apart l n (tpl_Name target)) → closed (delete n l).
Proof.
  intros Hc Hn Ha. split.
  - intros i (k & Hk & Hne)%elem_of_delete_inv Href. assert (i ∈ l) as Hi by (by eapply list_elem_of_lookup_2).
    destruct (closed_root l Hc i Hi Href) as (r & Hr & Hroot & Heq). apply list_elem_of_lookup in Hr as [m Hm].
    exists r. split; [|done]. apply (elem_of_delete_ne l n m); [done|]. intros ->. rewrite Hn in Hm. injection Hm as <-.
    apply (Ha Hroot k i Hk Hne Href). destruct Hroot. congruence.
  - intros i j Hi%elem_of_others Hj%elem_of_others. by apply (closed_block l Hc).
  - intros i Hi%elem_of_others. by apply (closed_vars l Hc).
Qed.

Lemma insert_as_delete l n i : (n < length l)%nat → <[n := i]> l ≡ₚ delete n l ++ [i].
Proof.
  intros Hn. rewrite insert_take_drop by done. rewrite delete_take_drop. cbn.
  rewrite <- app_assoc. apply Permutation_app_head. by rewrite <- Permutation_cons_append.
Qed.

Lemma closed_perm l l' : l ≡ₚ l' → closed l → closed l'.
Proof.
  intros Hp Hc. split.
  - intros i Hi Href. rewrite <- Hp in Hi. destruct (closed_root l Hc i Hi Href) as (r & Hr & ?). exists r. by rewrite <- Hp.
  - intros i j Hi Hj. rewrite <- Hp in Hi, Hj. by apply (closed_block l Hc).
  - intros i Hi. rewrite <- Hp in Hi. by apply (closed_vars l Hc).
Qed.

Lemma closed_replace l n old i : closed l → l !! n = Some old → apart l n (tpl_Name old) → apart l n (tpl_Name i) → vars_free i →
  (TemplateRef i = "" ∨ is_root i) → closed (<[n := i]> l).
Proof.
  intros Hc Hn Ho Hi Hv Hk. pose proof (lookup_lt_Some _ _ _ Hn) as Hlt. eapply closed_perm; [symmetry; by apply insert_as_delete|].
  apply closed_add; [by eapply closed_delete|done| |].
  - intros r (k & Hr & Hne)%elem_of_delete_inv Heq Href. destruct Hk as [|[_ Hname]]; [done|]. exfalso. apply (Hi k r Hr Hne); congruence.
  - intros Href Hne. destruct Hk as [|[_ ?]]; done.
Qed.

Lemma closed_fmap (f : Templated T X → Templated T X) l :
  (∀ i, tpl_Name (f i) = tpl_Name i ∧ TemplateRef (f i) = TemplateRef i ∧ tpl_Config (f i) = tpl_Config i ∧ Variables (f i) = Variables i) →
  closed l → closed (f <$> l).
Proof.
  intros Hf Hc. split.
  - intros ? (i & -> & Hi)%list_elem_of_fmap Href. destruct (Hf i) as (? & Hr & ?). rewrite Hr in Href.
    destruct (closed_root l Hc i Hi Href) as (r & ? & [? ?] & ?). exists (f r). destruct (Hf r) as (? & ? & ?).
    split_and!; [by apply list_elem_of_fmap; exists r|split; congruence|congruence].
  - intros ? ? (i & -> & Hi)%list_elem_of_fmap (j & -> & Hj)%list_elem_of_fmap. destruct (Hf i) as (? & -> & -> & ?), (Hf j) as (? & -> & -> & ?).
    by apply (closed_block l Hc).
  - intros ? (i & -> & Hi)%list_elem_of_fmap. destruct (Hf i) as (? & -> & ? & ->). by apply (closed_vars l Hc).
Qed.

(** What is in a list in which the root number [n] has been replaced and the
    instances that referred to it renamed. *)
Lemma renamed_elem l n old i x : l !! n = Some old → is_root old →
  x ∈ <[n := i]> (rename_ref n (tpl_Name old) (tpl_Name i) l) ↔
  x = i ∨ ∃ k j, l !! k = Some j ∧ k ≠ n ∧ x = if bool_decide (TemplateRef j = tpl_Name old) then set_TemplateRef (tpl_Name i) j else j.
Proof.
  intros Hn Hroot. assert (n < length (rename_ref n (tpl_Name old) (tpl_Name i) l))%nat as Hlt.
  { unfold rename_ref. rewrite length_imap. by eapply lookup_lt_Some. }
  rewrite list_elem_of_lookup. split.
  - intros [k Hk]. destruct (decide (k = n)) as [->|Hne]; [left; rewrite list_lookup_insert_eq in Hk by done; congruence|right].
    rewrite list_lookup_insert_ne in Hk by done. unfold rename_ref in Hk. rewrite list_lookup_imap in Hk.
    destruct (l !! k) as [j|] eqn:Ej; [|done]. injection Hk as <-. exists k, j. split_and!; [done..|]. repeat case_bool_decide; tauto.
  - intros [->|(k & j & Hj & Hne & ->)]; [exists n; by rewrite list_lookup_insert_eq|exists k]. rewrite list_lookup_insert_ne by done.
    unfold rename_ref. rewrite list_lookup_imap, Hj. cbn. f_equal. repeat case_bool_decide; tauto.
Qed.

(** A root that stays a root with the same block may be renamed. *)
Lemma closed_rename l n old i : closed l → l !! n = Some old → is_root old → is_root i → tpl_Config i = tpl_Config old → vars_free i →
  (∀ k j, l !! k = Some j → tpl_Name j = tpl_Name i → k = n) → closed (<[n := i]> (rename_ref n (tpl_Name old) (tpl_Name i) l)).
Proof.
  intros Hc Hn Hold Hi Hblock Hv Hu. assert (Hin : old ∈ l) by (by eapply list_elem_of_lookup_2).
  assert (Hfree : ∀ j, j ∈ l → TemplateRef j = tpl_Name i → TemplateRef j = tpl_Name old).
  { intros j Hj Hr. destruct (closed_root l Hc j Hj) as (r & [m Hm]%list_elem_of_lookup & [_ ?] & ?); [by destruct Hi; congruence|].
    assert (m = n) as -> by (apply (Hu m r Hm); congruence). rewrite Hn in Hm. injection Hm as <-. congruence. }
  assert (Hfrom : ∀ x, x ∈ <[n := i]> (rename_ref n (tpl_Name old) (tpl_Name i) l) → ∃ o, o ∈ l ∧ tpl_Config x = tpl_Config o ∧
    TemplateRef x = (if bool_decide (TemplateRef o = tpl_Name old) then tpl_Name i else TemplateRef o) ∧ (x = i ∨ Variables x = Variables o)).
  { intros x Hx. apply renamed_elem in Hx as [->|(k & j & Hj & _ & ->)]; [|exists j|done..].
    - exists old. destruct Hold, Hi. rewrite bool_decide_true by done. by split_and!; [| | |left].
    - split; [by eapply list_elem_of_lookup_2|]. case_bool_decide; by split_and!; [| |right]. }
  destruct Hold as [Hold1 Hold2]. split.
  - intros x Hx Href. apply renamed_elem in Hx as [->|(k & j & Hj & Hne & ->)]; [exists i; split_and!; [apply renamed_elem; [done..|by left]|done..]| |done|done].
    case_bool_decide as Hr; [exists i; destruct Hi; split_and!; [apply renamed_elem; [done..|by left]|done..]|].
    destruct (closed_root l Hc j) as (r & [m Hm]%list_elem_of_lookup & Hroot & Heq); [by eapply list_elem_of_lookup_2|done|].
    exists r. split_and!; [|done..]. apply renamed_elem; [done..|]. right. exists m, r. rewrite bool_decide_false by congruence.
    split_and!; [done| |done]. intros ->. congruence.
  - intros x y (o & Ho & -> & Hx & _)%Hfrom (o' & Ho' & -> & Hy & _)%Hfrom Href Heq. rewrite Hx, Hy in Heq. rewrite Hx in Href.
    apply (closed_block l Hc); [done..| |]; repeat case_bool_decide; try congruence; exfalso; eauto.
  - intros x (o & Ho & _ & Hx & [->|Hvars])%Hfrom Href; [by apply Hv|]. rewrite Hvars. apply (closed_vars l Hc o Ho). rewrite Hx in Href. case_bool_decide; congruence.
Qed.

Lemma rename_ref_none n a b l : a ≠ "" → apart l n a → rename_ref n a b l = l.
Proof.
  intros Hne Ha. apply list_eq. intros k. unfold rename_ref. rewrite list_lookup_imap. destruct (l !! k) as [j|] eqn:E; [|done]. cbn.
  case_bool_decide as Hd; [|done]. destruct Hd as [Hk <-]. by destruct (Ha k j E Hk Hne).
Qed.
End closed_lists.

Section closed_configurations.
Context `{Blocks} `{Uuids}.

Local Ltac decided Ho := cbn in Ho; repeat (case_match; try discriminate Ho); injection Ho as <-.

Record closed_config (c : FullConfig) : Prop := {
  cc_templates : Templates c = no_templates;
  cc_pc : closed (ProtocolConverter c);
  cc_sp : closed (StreamProcessor c);
}.

Definition same_block {T X} (l : list (Templated T X)) (i : Templated T X) : Prop :=
  ∀ r, r ∈ l → TemplateRef r = TemplateRef i → TemplateRef i ≠ "" → tpl_Config r = tpl_Config i.

(** An instance that is added has the block of its template.  One that is
    replaced becomes an instance without a template or a root; and if others
    refer to it, it was and stays a root, with the same block. *)
Definition replaces {T X} (l : list (Templated T X)) (n : nat) (old i : Templated T X) : Prop :=
  vars_free i ∧ (TemplateRef i = "" ∨ is_root i) ∧
  (apart l n (tpl_Name old) ∨ (is_root old ∧ is_root i ∧ tpl_Config i = tpl_Config old)).
Definition fits (o : Operation) (c : FullConfig) : Prop :=
  match o with
  | OpAddPC i => vars_free i ∧ same_block (ProtocolConverter c) i
  | OpAddSP i => vars_free i ∧ same_block (StreamProcessor c) i
  | OpEditPC id i => ∀ n old, list_find (pc_is id) (ProtocolConverter c) = Some (n, old) → replaces (ProtocolConverter c) n old i
  | OpEditSP i => ∀ n old, list_find (λ j, tpl_Name j = tpl_Name i) (StreamProcessor c) = Some (n, old) → replaces (StreamProcessor c) n old i
  | _ => True
  end.

Lemma templated_untouched o c c' : run_op o c = Some c' → Templates c' = Templates c ∧
  match o with OpSetLocation _ | OpAddPC _ | OpEditPC _ _ | OpDeletePC _ => True | _ => ProtocolConverter c' = ProtocolConverter c end ∧
  match o with OpSetLocation _ | OpAddSP _ | OpEditSP _ | OpDeleteSP _ => True | _ => StreamProcessor c' = StreamProcessor c end.
Proof.
  intros Ho. destruct o; cbn in Ho;
    unfold set_location, add_dataflowcomponent, delete_dataflowcomponent, edit_dataflowcomponent, add_protocolconverter,
      edit_protocolconverter, delete_protocolconverter, add_streamprocessor, edit_streamprocessor, delete_streamprocessor, add_datamodel,
      edit_datamodel, delete_datamodel, add_datacontract, set_historian, edit_historian, delete_historian in Ho; decided Ho; done.
Qed.

Lemma is_root_b_true {T X} (i : Templated T X) : is_root_b i = true ↔ is_root i.
Proof. unfold is_root_b, is_root. by rewrite bool_decide_eq_true. Qed.

(** What the edits of an instance leave, with the references renamed or not. *)
Lemma replaces_closed {T X} (l : list (Templated T X)) n old i : closed l → l !! n = Some old → replaces l n old i →
  (∀ k j, l !! k = Some j → tpl_Name j = tpl_Name i → k = n) →
  closed (<[n := i]> (if is_root_b old && is_root_b i then rename_ref n (tpl_Name old) (tpl_Name i) l else l)).
Proof.
  intros Hc Hn (Hv & Hk & Hr) Hu. destruct Hr as [Ha|(Ho & Hi & Hblock)].
  - assert (apart l n (tpl_Name i)) as Hai.
    { intros k j Hj Hne Href Heq. destruct (closed_root l Hc j) as (r & [m Hm]%list_elem_of_lookup & [_ ?] & ?);
        [by eapply list_elem_of_lookup_2|done|]. assert (m = n) as -> by (apply (Hu m r Hm); congruence).
      rewrite Hn in Hm. injection Hm as <-. apply (Ha k j Hj Hne Href). congruence. }
    assert ((if is_root_b old && is_root_b i then rename_ref n (tpl_Name old) (tpl_Name i) l else l) = l) as ->; [|by eapply closed_replace].
    destruct (is_root_b old) eqn:E; [|done]. apply is_root_b_true in E as [? ?]. destruct (is_root_b i); [|done].
    apply rename_ref_none; [congruence|done].
  - rewrite (proj2 (is_root_b_true old)), (proj2 (is_root_b_true i)) by done. by eapply closed_rename.
Qed.

Lemma delete_pc_closed id c c' : closed (ProtocolConverter c) → run_op (OpDeletePC id) c = Some c' → closed (ProtocolConverter c').
Proof.
  intros Hc Ho. cbn in Ho. unfold delete_protocolconverter in Ho. destruct (list_find _ _) as [[n old]|] eqn:Ef; [|done].
  apply list_find_Some in Ef as (Hn & Hid & _).
  destruct (is_root_b old) eqn:Er; cbn in Ho.
  - destruct (others n _ _) as [|m] eqn:Eo; [|done]. injection Ho as <-. eapply closed_delete; [done..|].
    intros _ k j Hj Hne Href Heq. pose proof (others_none n _ _ Eo k j Hj Hne) as Hf. by apply bool_decide_eq_false in Hf.
  - injection Ho as <-. eapply closed_delete; [done..|]. rewrite <- is_root_b_true. congruence.
Qed.

Lemma delete_sp_closed name c c' : NoDup (tpl_Name <$> StreamProcessor c) → closed (StreamProcessor c) →
  run_op (OpDeleteSP name) c = Some c' → closed (StreamProcessor c').
Proof.
  intros Hu Hc Ho. cbn in Ho. unfold delete_streamprocessor in Ho. destruct (list_find _ _) as [[n old]|] eqn:Ef; [|done].
  apply list_find_Some in Ef as (Hn & Hname & _). case_bool_decide as Hroot.
  - destruct (filter _ _) as [|x l] eqn:E; [|done]. injection Ho as <-. eapply closed_delete; [done..|].
    intros _ k j Hj Hne Href Heq. assert (j ∈ filter (λ i, tpl_Name i ≠ name ∧ TemplateRef i = name) (StreamProcessor c)) as Hin.
    { apply list_elem_of_filter. split; [|by eapply list_elem_of_lookup_2]. split; [|congruence]. intros Hjn. apply Hne.
      eapply nodup_index; [exact Hu|exact Hj|exact Hn|congruence]. }
    rewrite E in Hin. by apply not_elem_of_nil in Hin.
  - injection Ho as <-. eapply closed_delete; [done..|]. intros [_ Hr]. by destruct Hroot.
Qed.

Lemma edit_closed o c c' : closed_config c → unique_names c → fits o c → run_op o c = Some c' → closed_config c'.
Proof.
  intros [Ht Hp Hs] Hu Hf Ho. destruct (templated_untouched o c c' Ho) as (Hct & Hcp & Hcs). split; [by rewrite Hct| |].
  - destruct o; try (by rewrite Hcp); cbn in Hf.
    + injection Ho as <-. cbn. by apply closed_fmap.
    + cbn in Ho. unfold add_protocolconverter in Ho. destruct (add_templated _ _ _) as [|l] eqn:E; [done|]. injection Ho as <-.
      apply add_templated_ok in E as (-> & _ & Hr). destruct Hf. by apply closed_add.
    + destruct (edit_pc_written _ _ _ _ Ho) as (n & old & l & Hfind & -> & -> & Hun). cbn.
      apply replaces_closed; [done|by apply list_find_Some in Hfind as (? & _)|by apply Hf|done].
    + by eapply delete_pc_closed.
  - destruct o; try (by rewrite Hcs); cbn in Hf.
    + injection Ho as <-. cbn. by apply closed_fmap.
    + cbn in Ho. unfold add_streamprocessor in Ho. destruct (add_templated _ _ _) as [|l] eqn:E; [done|]. injection Ho as <-.
      apply add_templated_ok in E as (-> & _ & Hr). destruct Hf. by apply closed_add.
    + cbn in Ho. unfold edit_streamprocessor in Ho. destruct (list_find _ _) as [[n old]|] eqn:Ef; [|done]. case_bool_decide; [done|].
      injection Ho as <-. pose proof (proj1 (list_find_Some _ _ _ _) Ef) as (Hn & Hname & _). cbn.
      assert (closed (<[n := i]> (if is_root_b old && is_root_b i then rename_ref n (tpl_Name old) (tpl_Name i) (StreamProcessor c)
        else StreamProcessor c))) as Hcl; [|by rewrite <- Hname, rename_ref_same in Hcl; destruct (_ && _) in Hcl].
      apply replaces_closed; [done..|by apply Hf|]. intros k j Hk Hj.
      eapply nodup_index; [exact (unique_sp _ Hu)|exact Hk|exact Hn|congruence].
    + eapply delete_sp_closed; [apply Hu|done|done].
Qed.
End closed_configurations.

Section read_back.
Context `{YamlLaws} `{Uuids} {W : Type} `{World W} `{MapOrder W}.

(** C19: The file says what the cache holds after an edit: an edit of a closed
    configuration gives a closed one, which can be written, and reading the
    file again gives exactly the configuration the manager keeps in its cache -
    if an instance that is added has the block of its template, and one that is
    replaced becomes standalone or a root and, when others refer to it, was and
    stays a root (under any name) with the same block. *)
Theorem edits_agree_with_the_file (o : Operation) (ctx : Ctx) (c c' : FullConfig) (w : W) :
  never_ends ctx → closed_config c → unique_names c → fits o c → run_op o c = Some c' →
  closed_config c' ∧ ∃ y w1, convertSpecToYaml ctx c' w = (inr y, w1) ∧
    ∀ data w2, storable y → yaml_Marshal y = inr data → ∃ w3, ParseConfig data ctx false w2 = (inr c', w3).
Proof.
  intros Hctx Hc Hu Hf Ho. destruct (edit_closed o c c' Hc Hu Hf Ho) as [Ht Hp Hs]. split; [done|].
  destruct (closed_is_written ctx c' w Hctx Ht Hp (closed_agree _ Hs)) as (y & w1 & Hy). exists y, w1. split; [done|].
  intros data w2 Hst Hdata. destruct (written_and_read ctx c' y data w w1 w2 Hctx Ht Hy Hst Hdata) as [w3 Hr]. exists w3.
  by rewrite Hr, reread_spec_closed.
Qed.

(** Without that, they disagree: when the block of a root changes, the cache
    keeps the old block for its children, and the file has the new one. *)
Theorem edited_root_leaves_children_behind (id : UUID) (i : ProtocolConverterConfig) (c c' : FullConfig) n old k child :
  list_find (pc_is id) (ProtocolConverter c) = Some (n, old) → is_root old → is_root i → tpl_Name i = tpl_Name old →
  run_op (OpEditPC id i) c = Some c' → roots_agree (ProtocolConverter c') →
  ProtocolConverter c !! k = Some child → k ≠ n → TemplateRef child = tpl_Name old → tpl_Config i ≠ tpl_Config child →
  child ∈ ProtocolConverter c' ∧
  ∃ j, j ∈ ProtocolConverter (reread_spec c') ∧ tpl_Name j = tpl_Name child ∧ tpl_Config j = tpl_Config i ∧ tpl_Config j ≠ tpl_Config child.
Proof.
  intros Hfind Hroot Hiroot Hname Ho Hagree Hk Hkn Href Hblock. pose proof (proj1 (list_find_Some _ _ _ _) Hfind) as (Hn & _ & _).
  cbn in Ho. unfold edit_protocolconverter in Ho. rewrite Hfind in Ho. destruct (0 <? others _ _ _)%nat; [done|].
  rewrite (proj2 (is_root_b_true old) Hroot), (proj2 (is_root_b_true i) Hiroot), (bool_decide_false (tpl_Name old ≠ tpl_Name i)) in Ho
    by (intros Hf; by apply Hf).
  cbn in Ho. injection Ho as <-. cbn in *. assert (child ∈ <[n := i]> (ProtocolConverter c)) as Hin.
  { apply list_elem_of_lookup_2 with k. by rewrite list_lookup_insert_ne. }
  split; [done|]. exists (reread PC_zero (<[n := i]> (ProtocolConverter c)) child). split; [by apply list_elem_of_fmap; exists child|].
  destruct Hiroot as [Hne Heq]. assert (TemplateRef child = TemplateRef i) as Hci by congruence. unfold reread.
  rewrite bool_decide_false by congruence. rewrite Hci, (root_block_root _ i); [done|done| |done].
  apply list_elem_of_lookup_2 with n, list_lookup_insert_eq. by eapply lookup_lt_Some.
Qed.
End read_back.
