(* ===== verification/ConfigCache.v ===== *)
(** * ConfigCache: what the manager answers and what it leaves in the file

    With a file system that answers, and as long as only the manager writes: a
    configuration that was written is what the next call returns and what the
    file holds; a file that changed is returned after one refresh.  A file that
    cannot be read is returned as an empty configuration, without an error,
    and overwritten at the next start. *)

From S2P Require Import Prelude Float64 GoRuntime GoBytes StateMonad Backoff FSMManager FileSystem Documents DataModel DataModelFacts Translator Configuration ConfigTemplates ConfigManager ConfigEdits.
From stdpp Require Import sorting.
From Stdlib Require Import Ascii.
Local Open Scope Z_scope.

(** ** A file system that answers *)

(** A name of a directory entry. *)
Definition plain (name : bytes) : Prop := (slash ∉ name) ∧ (name ≠ lit "..").

(** [steady s t d]: the file at [path] has the contents [d], written at [t], and
    stays so unless somebody writes it. *)
Class SteadyFile (S : Type) `{World S} `{Service S} `{MapOrder S} `{Semaphores S} (path : bytes) := {
  steady : S → Time → bytes → Prop;
  steady_time s t d : steady s t d → t ≠ 0;
  backups_apart name : plain (lit name) → backup_path name ≠ path;
  clock_steady s t d : steady s t d → steady (clock s).2 t d;
  order_steady l s t d : steady s t d → steady (map_order l s).2 t d;
  Acquire_steady mu ctx n s t d : never_ends ctx → steady s t d → ∃ s', Acquire mu ctx n s = (None, s') ∧ steady s' t d;
  EnsureDirectory_steady ctx q s t d : steady s t d → steady (EnsureDirectory ctx q s).2 t d;
  EnsureDirectory_answers ctx s t d : never_ends ctx → steady s t d → (EnsureDirectory ctx (Dir path) s).1 = None;
  FileExists_steady ctx s t d : steady s t d → steady (FileExists ctx path s).2 t d;
  FileExists_answers ctx s t d : never_ends ctx → steady s t d → (FileExists ctx path s).1 = (true, None);
  Stat_steady ctx s t d : steady s t d → steady (Stat ctx path s).2 t d;
  Stat_answers ctx s t d : never_ends ctx → steady s t d → ∃ fi, (Stat ctx path s).1 = (Some fi, None) ∧ ModTime fi = t;
  Stat_time ctx s t d fi : steady s t d → (Stat ctx path s).1 = (Some fi, None) → ModTime fi = t;
  ReadFile_steady ctx q s t d : steady s t d → steady (ReadFile ctx q s).2 t d;
  ReadFile_contents ctx s t d : steady s t d → (ReadFile ctx path s).1.2 = None → (ReadFile ctx path s).1.1 = d;
  ReadDir_steady ctx q s t d : steady s t d → steady (ReadDir ctx q s).2 t d;
  ReadDir_plain ctx q s e : e ∈ (ReadDir ctx q s).1.1 → plain (FileSystem.Name e);
  WriteFile_elsewhere ctx q data m s t d : q ≠ path → steady s t d → steady (WriteFile ctx q data m s).2 t d;
  Remove_elsewhere ctx q s t d : q ≠ path → steady s t d → steady (Remove ctx q s).2 t d;
  WriteFile_there ctx data m s t d s' : steady s t d → WriteFile ctx path data m s = (None, s') → ∃ t', steady s' t' data;
}.

Section cache.
Context `{Yaml} {S : Type} `{World S} `{Service S} `{MapOrder S} `{Semaphores S} (path : bytes) `{!SteadyFile S path}.
Implicit Types (s : CState S) (w : S) (ctx : Ctx).

(** ** Programs that leave the file alone *)

Definition leaves {A} (m : ES S A) : Prop := ∀ w t d, steady w t d → steady (m w).2 t d.

Lemma leaves_ret {A} (a : A) : leaves (mret a).
Proof. by intros w t d. Qed.
Lemma leaves_fail {A} e : leaves (fail (A:=A) e).
Proof. by intros w t d. Qed.
Lemma leaves_of {A} (r : GoErr + A) : leaves (of_result r).
Proof. by intros w t d. Qed.
Lemma leaves_bind {A B} (m : ES S A) (f : A → ES S B) : leaves m → (∀ a, leaves (f a)) → leaves (m ≫= f).
Proof. intros Hm Hf w t d Hw. unfold mbind, ES_bind. specialize (Hm w t d Hw). destruct (m w) as [[e|a] w']; [done|by apply Hf]. Qed.
Lemma leaves_annotate {A} f (m : ES S A) : leaves m → leaves (annotate f m).
Proof. intros Hm w t d Hw. unfold annotate. specialize (Hm w t d Hw). by destruct (m w). Qed.
Lemma leaves_lifted {A} (m : St S A) : (∀ w t d, steady w t d → steady (m w).2 t d) → leaves (lifted m).
Proof. intros Hm w t d Hw. unfold lifted. specialize (Hm w t d Hw). by destruct (m w). Qed.
Lemma leaves_alive ctx : leaves (alive ctx).
Proof. intros w t d Hw. unfold alive, ctx_Err. pose proof (clock_steady w t d Hw) as Hc. by destruct (clock w). Qed.
Lemma leaves_range l : leaves (range_keys l).
Proof. intros w t d Hw. unfold range_keys. pose proof (order_steady l w t d Hw) as Hc. by destruct (map_order l w). Qed.
Lemma leaves_WithTimeout ctx n : leaves (lifted (WithTimeout ctx n)).
Proof. apply leaves_lifted. intros w t d Hw. unfold WithTimeout. pose proof (clock_steady w t d Hw). by destruct (clock w). Qed.
Hint Resolve leaves_ret leaves_fail leaves_of leaves_alive leaves_range leaves_WithTimeout : core.

Ltac leave := repeat first [solve [auto] | apply leaves_bind; [|intros ?] | apply leaves_annotate | case_match].

Lemma leaves_load {T} kind un ctx contents names : ∀ acc : gmap string T, leaves (load_templates kind un ctx contents names acc).
Proof. induction names as [|n names IH]; intros acc; cbn [load_templates]; leave. Qed.
Lemma leaves_resolve {T X} kind tpls ctx (l : list (Templated T X)) : leaves (resolve kind tpls ctx l).
Proof. induction l as [|i l IH]; cbn [resolve]; unfold resolve_one; leave. Qed.
Hint Resolve leaves_load leaves_resolve : core.

Lemma leaves_ParseConfig data ctx b : leaves (ParseConfig data ctx b).
Proof. unfold ParseConfig, convertYamlToSpec. leave; apply leaves_resolve. Qed.
Hint Resolve leaves_ParseConfig : core.

Lemma leaves_note {T X} `{EqDecision T} kind (i : Templated T X) x : leaves (note kind i x).
Proof. unfold note. leave. Qed.
Hint Resolve leaves_note : core.
Lemma leaves_collect {T X} `{EqDecision T} kind zero ctx (l : list (Templated T X)) : ∀ x, leaves (collect kind zero ctx l x).
Proof. induction l as [|i l IH]; intros x; cbn [collect]; leave. Qed.
Lemma leaves_inline {T X} ctx refs (l : list (Templated T X)) : leaves (inline_orphans ctx refs l).
Proof. induction l as [|i l IH]; cbn [inline_orphans]; leave. Qed.
Hint Resolve leaves_collect leaves_inline : core.
Lemma leaves_convert ctx c : leaves (convertSpecToYaml ctx c).
Proof. unfold convertSpecToYaml, first_orphan. leave; first [apply leaves_collect | apply leaves_inline]. Qed.

Lemma leaves_ReadFile ctx q : leaves (lifted (ReadFile ctx q)).
Proof. apply leaves_lifted. intros. by apply ReadFile_steady. Qed.
Hint Resolve leaves_ReadFile : core.
Lemma leaves_read ctx q : leaves (readAndParseConfig ctx q).
Proof. unfold readAndParseConfig. leave. Qed.

(** What was read is what the file holds. *)
Lemma read_is_current ctx w t d c raw w' : steady w t d → readAndParseConfig ctx path w = (inr (c, raw), w') → raw = d.
Proof.
  intros Hw. unfold readAndParseConfig, mbind, ES_bind. pose proof (leaves_WithTimeout ctx (ConfigGetConfigTimeout / 2) w t d Hw) as Hw1.
  destruct (lifted _ w) as [[e|rctx] w1]; [done|]. cbn in Hw1. unfold lifted.
  pose proof (ReadFile_contents rctx w1 t d Hw1) as Hd. destruct (ReadFile rctx path w1) as [[data e] w2]. cbn in *.
  destruct e as [err|]; [done|]. specialize (Hd eq_refl). subst. destruct (alive ctx w2) as [[e|[]] w3]; [done|].
  destruct (annotate _ _ w3) as [[e|c0] w4]; [done|]. destruct (alive ctx w4) as [[e|[]] w5]; [done|].
  destruct (isEmptyConfig c0); [done|]. by intros [= _ <- _].
Qed.

(** ** What [GetConfig] answers *)

Definition slow_answer (m : Manager) : GoErr + FullConfig :=
  if isEmptyConfig (cacheConfig m) then
    inl (match cacheError m with None => ENew "cached config is empty. may be fixed by a background refresh" | Some err => err end)
  else match cacheError m with Some err => inl err | None => inr (cacheConfig m) end.
Definition spawn (t : Time) (m : Manager) : Manager :=
  match refreshing m with Some _ => m | None => set_refreshing (Some (Started t)) m end.

Lemma tried_runs f (m : St S (option GoErr)) s : (m (cfs s)).1 = None → tried f m s = (inr tt, mkCS (cm s) (m (cfs s)).2).
Proof. intros Hm. unfold tried, in_fs, mbind, ES_bind. destruct (m (cfs s)) as [e w]. cbn in Hm. by subst. Qed.

Lemma in_fs_runs {A} (m : St S A) s : in_fs m s = (inr (m (cfs s)).1, mkCS (cm s) (m (cfs s)).2).
Proof. unfold in_fs. by destruct (m (cfs s)). Qed.

Lemma locked_runs f mu ctx n s t d : never_ends ctx → steady (cfs s) t d →
  ∃ w, tried f (Acquire mu ctx n) s = (inr tt, mkCS (cm s) w) ∧ steady w t d.
Proof.
  intros Hctx Hs. destruct (Acquire_steady mu ctx n (cfs s) t d Hctx Hs) as (w & E & Hw). exists w.
  rewrite tried_runs; by rewrite E.
Qed.

Lemma context_lives ctx s t d : never_ends ctx → steady (cfs s) t d →
  ∃ w, in_fs_err (alive ctx) s = (inr tt, mkCS (cm s) w) ∧ steady w t d.
Proof.
  intros Hctx Hs. destruct (alive_goes_on ctx Hctx (cfs s)) as [w E]. exists w. unfold in_fs_err. rewrite E. split; [done|].
  pose proof (leaves_alive ctx (cfs s) t d Hs) as Hw. by rewrite E in Hw.
Qed.

Lemma ensured_runs f ctx s t d : never_ends ctx → configPath (cm s) = path → steady (cfs s) t d →
  ∃ w, tried f (EnsureDirectory ctx (Dir (configPath (cm s)))) s = (inr tt, mkCS (cm s) w) ∧ steady w t d.
Proof.
  intros Hctx Hp Hs. rewrite Hp. eexists. rewrite tried_runs by (by eapply EnsureDirectory_answers). split; [done|].
  by apply EnsureDirectory_steady.
Qed.

Lemma GetConfig_runs ctx s t d : never_ends ctx → configPath (cm s) = path → steady (cfs s) t d → ∃ w, steady w t d ∧
  GetConfig ctx s = if decide (cacheModTime (cm s) = t) then (inr (cacheConfig (cm s)), mkCS (cm s) w)
                    else (slow_answer (cm s), mkCS (spawn t (cm s)) w).
Proof.
  intros Hctx Hp Hs. unfold GetConfig, RW_RLock. unfold mbind at 1, ES_bind at 1.
  destruct (locked_runs (EWrap "failed to lock config file: ") mutexReadOrWrite ctx 1 s t d Hctx Hs) as (w1 & -> & Hw1).
  unfold mbind at 1, ES_bind at 1. destruct (context_lives ctx (mkCS (cm s) w1) t d Hctx Hw1) as (w2 & -> & Hw2).
  unfold mbind at 1, ES_bind at 1, get_cm. cbn [cm]. unfold mbind at 1, ES_bind at 1.
  destruct (ensured_runs (EWrap "failed to create config directory: ") ctx (mkCS (cm s) w2) t d Hctx Hp Hw2) as (w3 & E & Hw3). cbn [cm] in E. rewrite E.
  unfold mbind at 1, ES_bind at 1. destruct (context_lives ctx (mkCS (cm s) w3) t d Hctx Hw3) as (w4 & -> & Hw4).
  unfold mbind at 1, ES_bind at 1. rewrite Hp, in_fs_runs. cbn [cfs cm]. rewrite (FileExists_answers ctx w4 t d) by done.
  pose proof (FileExists_steady ctx w4 t d Hw4) as Hw5. unfold mbind at 1, ES_bind at 1. rewrite in_fs_runs. cbn [cfs cm].
  destruct (Stat_answers ctx _ t d Hctx Hw5) as (fi & -> & Hfi). pose proof (Stat_steady ctx _ t d Hw5) as Hw6.
  eexists. split; [exact Hw6|]. rewrite Hfi. pose proof (steady_time _ _ _ Hw6) as Ht. case_decide as Hd.
  - rewrite Hd, Z.eqb_refl. unfold IsZero. by rewrite (proj2 (Z.eqb_neq t 0)).
  - rewrite (proj2 (Z.eqb_neq t (cacheModTime (cm s)))) by done. rewrite andb_false_r. unfold mbind at 1, ES_bind at 1, on_cm, spawn, slow_answer.
    destruct (refreshing (cm s)); cbn; (destruct (isEmptyConfig (cacheConfig (cm s))); [done|]); by destruct (cacheError (cm s)).
Qed.

(** ** What a refresh does *)

Lemma refresh_runs s t d : configPath (cm s) = path → steady (cfs s) t d → refreshing (cm s) = Some (Started t) →
  ∃ ctx w r w', steady w t d ∧ readAndParseConfig ctx path w = (r, w') ∧ steady w' t d ∧
    let '(config, raw, err) := three_results r in
    backgroundRefresh s = mkCS (set_refreshing None (set_cache t config raw err (cm s))) w'.
Proof.
  intros Hp Hs Hr. unfold backgroundRefresh, refresh_load. rewrite Hr, Hp.
  pose proof (leaves_WithTimeout Background ConfigBackgroundRefreshTimeout (cfs s) t d Hs) as Hw. unfold lifted in Hw.
  destruct (WithTimeout _ _ (cfs s)) as [ctx w]. cbn in Hw. pose proof (leaves_read ctx path w t d Hw) as Hw'.
  destruct (readAndParseConfig ctx path w) as [r w'] eqn:E. exists ctx, w, r, w'. split_and!; [done..|].
  destruct (three_results r) as [[config raw] err]. unfold refresh_store. cbn. done.
Qed.

(** The configuration a reading of the file gives. *)
Definition read_result (r : GoErr + FullConfig * bytes) : FullConfig := match r with inl _ => zero_FullConfig | inr (c, _) => c end.

(** C20: When the file has changed, [GetConfig] answers from the cache and starts
    a refresh; after the refresh it answers, without an error, the
    configuration that the refresh read from the contents of the file - or the
    empty configuration, also without an error, when it could not read it. *)
Theorem changed_file_is_read ctx s t d : never_ends ctx → configPath (cm s) = path → steady (cfs s) t d →
  cacheModTime (cm s) ≠ t → refreshing (cm s) = None →
  let (answer, s1) := GetConfig ctx s in
  answer = slow_answer (cm s) ∧
  ∃ rctx w r w', steady w t d ∧ readAndParseConfig rctx path w = (r, w') ∧ (∀ c raw, r = inr (c, raw) → raw = d) ∧
    (GetConfig ctx (backgroundRefresh s1)).1 = inr (read_result r) ∧
    refreshing (cm (GetConfig ctx (backgroundRefresh s1)).2) = None.
Proof.
  intros Hctx Hp Hs Hne Hr. destruct (GetConfig_runs ctx s t d Hctx Hp Hs) as (w1 & Hw1 & ->). rewrite decide_False by done.
  split; [done|]. unfold spawn. rewrite Hr. set (s1 := mkCS (set_refreshing (Some (Started t)) (cm s)) w1).
  destruct (refresh_runs s1 t d Hp Hw1 eq_refl) as (rctx & w & r & w' & Hw & Hread & Hw' & Hback). exists rctx, w, r, w'. split; [done|]. split; [done|]. split.
  { intros c raw ->. exact (read_is_current _ _ _ _ _ _ _ Hw Hread). }
  destruct (three_results r) as [[config raw] err] eqn:Er. rewrite Hback.
  destruct (GetConfig_runs ctx (mkCS (set_refreshing None (set_cache t config raw err (cm s1))) w') t d Hctx Hp Hw') as (w2 & _ & ->).
  cbn [cm cacheModTime set_refreshing set_cache]. rewrite decide_True by done. cbn. split; [|done].
  f_equal. destruct r as [e|[c raw']]; cbn in Er; injection Er as <- <- <-; done.
Qed.

(** ** Backups leave the file alone *)

Definition keeps_file {A} (m : St S A) : Prop := ∀ w t d, steady w t d → steady (m w).2 t d.
Lemma keeps_file_ret {A} (a : A) : keeps_file (mret a).
Proof. by intros w t d. Qed.
Lemma keeps_file_bind {A B} (m : St S A) (f : A → St S B) : keeps_file m → (∀ a, keeps_file (f a)) → keeps_file (m ≫= f).
Proof. intros Hm Hf w t d Hw. unfold mbind, St_bind. specialize (Hm w t d Hw). destruct (m w) as [a w']. by apply Hf. Qed.

Lemma lit_str_of b : lit (str_of b) = b.
Proof. apply String.list_ascii_of_string_of_list_ascii. Qed.

Lemma yaml_names_plain ctx q w n : n ∈ yaml_names (ReadDir ctx q w).1.1 → plain (lit n).
Proof.
  unfold yaml_names, sort_Strings. rewrite merge_sort_Permutation.
  intros (x & -> & (e & -> & [_ He]%list_elem_of_filter)%list_elem_of_fmap)%list_elem_of_fmap. rewrite lit_str_of. by eapply ReadDir_plain.
Qed.

Lemma pad_plain n v : slash ∉ pad 10 n v.
Proof.
  revert v. induction n as [|n IH]; intros v; cbn [pad]; [by apply not_elem_of_nil|].
  intros [Hin|Hin%list_elem_of_singleton]%elem_of_app; [by apply (IH (v / 10))|]. revert Hin.
  assert (v mod 10 ∈ seqZ 0 10) as Hd by (apply elem_of_seqZ; pose proof (Z.mod_pos_bound v 10); lia). revert Hd. generalize (v mod 10).
  refine (proj1 (Forall_forall (λ z, slash = digit z → False) (seqZ 0 10)) _).
  repeat constructor; by vm_compute.
Qed.

Lemma backup_name_plain t : plain (lit (backup_name t)).
Proof.
  unfold backup_name. destruct (civil _) as [[y m] d]. rewrite lit_str_of. split.
  - rewrite !not_elem_of_app. split_and!; try apply pad_plain;
      unfold lit; cbn [String.list_ascii_of_string]; repeat (apply not_elem_of_cons; split; [done|]); apply not_elem_of_nil.
  - intros E%(f_equal length). rewrite !length_app, !length_pad in E. cbn in E. lia.
Qed.

Lemma keeps_remove ctx names : (∀ n, n ∈ names → plain (lit n)) → keeps_file (remove_backups ctx names).
Proof.
  induction names as [|n names IH]; intros Hn; cbn [remove_backups]; [apply keeps_file_ret|]. apply keeps_file_bind; [|intros _; apply IH; set_solver].
  intros w t d Hw. apply Remove_elsewhere; [|done]. apply backups_apart, Hn. by left.
Qed.

Lemma keeps_cleanup ctx : keeps_file (cleanupOldBackups ctx).
Proof.
  intros w t d Hw. unfold cleanupOldBackups, mbind, St_bind. pose proof (ReadDir_steady ctx ConfigBackupDir w t d Hw) as Hw'.
  pose proof (yaml_names_plain ctx ConfigBackupDir w) as Hn. destruct (ReadDir _ _ w) as [r w']. cbn in *. destruct r.2; [done|].
  apply keeps_remove; [|done]. intros n Hin. apply Hn. unfold toRemove in Hin. eapply elem_of_take in Hin as (k & Hk & _). by eapply list_elem_of_lookup_2.
Qed.

Lemma keeps_latest ctx : keeps_file (getLatestBackupContent ctx).
Proof.
  unfold getLatestBackupContent. apply keeps_file_bind; [intros w t d; apply ReadDir_steady|]. intros r.
  destruct r.2, (last (yaml_names r.1)); try apply keeps_file_ret. apply keeps_file_bind; [intros w t d; apply ReadFile_steady|]. intros x. apply keeps_file_ret.
Qed.

Lemma keeps_backup ctx : keeps_file (write_backup ctx path).
Proof.
  unfold write_backup. apply keeps_file_bind; [intros w t d; apply FileExists_steady|]. intros [[] []]; try apply keeps_file_ret.
  apply keeps_file_bind; [intros w t d; apply ReadFile_steady|]. intros [content [e|]]; try apply keeps_file_ret.
  apply keeps_file_bind; [intros w t d; apply EnsureDirectory_steady|]. intros [e|]; try apply keeps_file_ret.
  apply keeps_file_bind; [apply keeps_latest|]. intros latest. case_bool_decide; [apply keeps_file_ret|].
  apply keeps_file_bind; [intros w t d; apply clock_steady|]. intros now.
  apply keeps_file_bind; [intros w t d; apply WriteFile_elsewhere, backups_apart, backup_name_plain|]. intros [e|]; try apply keeps_file_ret.
  apply keeps_file_bind; [apply keeps_cleanup|]. intros _. apply keeps_file_ret.
Qed.

Lemma backup_runs ctx s t d : configPath (cm s) = path → steady (cfs s) t d → ∃ n w, steady w t d ∧
  createConfigBackup ctx s = (inr tt, mkCS (mkManager path (cacheModTime (cm s)) (cacheError (cm s)) (cacheConfig (cm s)) (cacheRawConfig (cm s)) n
    (backupEnabled (cm s)) (refreshing (cm s))) w).
Proof.
  intros Hp Hs. unfold createConfigBackup. unfold mbind at 1, ES_bind at 1, get_cm. destruct s as [[p0 mt e0 c0 raw0 n0 b0 r0] w0].
  cbn in Hp, Hs |- *. subst p0. destruct b0; cbn.
  - unfold mbind, ES_bind. rewrite in_fs_runs. pose proof (keeps_backup ctx w0 t d Hs) as Hw. cbn.
    destruct (write_backup ctx path w0) as [made w]. cbn in *. by destruct made; eexists _, w.
  - by eexists n0, w0.
Qed.

(** ** Writing *)

(** A write that succeeds: the layout of the configuration is in the file, and
    the configuration in the cache. *)
Record took_effect ctx (c : FullConfig) (m m' : Manager) (w' : S) : Prop := {
  te_file : ∃ w y w1 data, convertSpecToYaml ctx c w = (inr y, w1) ∧ yaml_Marshal y = inr data ∧
    steady w' (cacheModTime m') data ∧ cacheRawConfig m' = data;
  te_config : cacheConfig m' = c;
  te_path : configPath m' = path;
  te_error : cacheError m' = cacheError m;
}.

(** A write that fails, of a configuration that cannot be laid out or stored. *)
Definition write_fails ctx (c : FullConfig) t d : Prop := ∃ w, steady w t d ∧
  ((∃ e, (convertSpecToYaml ctx c w).1 = inl e) ∨
   (∃ y w1 e, convertSpecToYaml ctx c w = (inr y, w1) ∧ yaml_Marshal y = inl e) ∨
   (∃ data w1, steady w1 t d ∧ (WriteFile ctx path data mode_666 w1).1 ≠ None)).

Lemma writeConfig_outcome ctx c s t d : never_ends ctx → configPath (cm s) = path → steady (cfs s) t d →
  match writeConfig ctx c s with
  | (inr _, s') => took_effect ctx c (cm s) (cm s') (cfs s')
  | (inl _, _) => write_fails ctx c t d
  end.
Proof.
  intros Hctx Hp Hs. unfold writeConfig, RW_Lock. unfold mbind at 1, ES_bind at 1.
  destruct (locked_runs (EWrap "failed to lock config file: ") mutexReadOrWrite ctx AmountReadersForConfigFile s t d Hctx Hs) as (w1 & -> & Hw1).
  unfold mbind at 1, ES_bind at 1. destruct (context_lives ctx (mkCS (cm s) w1) t d Hctx Hw1) as (w2 & -> & Hw2).
  unfold mbind at 1, ES_bind at 1, get_cm. cbn [cm]. unfold mbind at 1, ES_bind at 1.
  destruct (ensured_runs (EWrap "failed to create config directory: ") ctx (mkCS (cm s) w2) t d Hctx Hp Hw2) as (w3 & E & Hw3). cbn [cm] in E. rewrite E.
  clear E. unfold mbind at 1, ES_bind at 1. unfold annotate at 1, in_fs_err at 1. cbn [cfs cm].
  pose proof (leaves_convert ctx c w3 t d Hw3) as Hw4. destruct (convertSpecToYaml ctx c w3) as [[e|y] w4] eqn:Hconv.
  { exists w3. split; [done|]. left. exists e. by rewrite Hconv. }
  cbn in Hw4. unfold mbind at 1, ES_bind at 1. unfold annotate at 1, of_result at 1. destruct (yaml_Marshal y) as [e|data] eqn:Hdata.
  { exists w3. split; [done|]. right; left. by exists y, w4, e. }
  unfold mbind at 1, ES_bind at 1. rewrite Hp. destruct (WriteFile ctx path data mode_666 w4) as [[e|] w5] eqn:Hwrite.
  { unfold tried, mbind, ES_bind, in_fs. cbn [cfs cm]. rewrite Hwrite. exists w3. split; [done|]. right; right. exists data, w4. by rewrite Hwrite. }
  rewrite tried_runs by (by cbn; rewrite Hwrite). cbn [cfs cm]. rewrite Hwrite. cbn [snd].
  destruct (WriteFile_there ctx data mode_666 w4 t d w5 Hw4 Hwrite) as [t' Hw5]. unfold mbind at 1, ES_bind at 1.
  destruct (backup_runs ctx (mkCS (cm s) w5) t' data Hp Hw5) as (n & w6 & Hw6 & ->). unfold mbind at 1, ES_bind at 1. rewrite in_fs_runs. cbn [cfs cm].
  destruct (Stat_answers ctx w6 t' data Hctx Hw6) as (fi & -> & Hfi). pose proof (Stat_steady ctx w6 t' data Hw6) as Hw7.
  cbn [snd]. split; try done. cbn. rewrite Hfi. by exists w3, y, w4, data.
Qed.

Lemma writeConfig_runs ctx c s s' t d : never_ends ctx → configPath (cm s) = path → steady (cfs s) t d →
  writeConfig ctx c s = (inr tt, s') → took_effect ctx c (cm s) (cm s') (cfs s').
Proof. intros Hctx Hp Hs E. pose proof (writeConfig_outcome ctx c s t d Hctx Hp Hs) as Ho. by rewrite E in Ho. Qed.

(** What the first half of an edit gives. *)
Lemma begin_runs ctx s t d : never_ends ctx → configPath (cm s) = path → steady (cfs s) t d → ∃ w m, steady w t d ∧
  (begin_edit ctx s).2 = mkCS m w ∧ configPath m = path ∧ cacheConfig m = cacheConfig (cm s) ∧ cacheModTime m = cacheModTime (cm s) ∧
  cacheError m = cacheError (cm s) ∧ cacheRawConfig m = cacheRawConfig (cm s) ∧
  (begin_edit ctx s).1 = match (if decide (cacheModTime (cm s) = t) then inr (cacheConfig (cm s)) else slow_answer (cm s)) with
                         | inl e => inl (EWrap "failed to get config: " e) | inr c => inr c end.
Proof.
  intros Hctx Hp Hs. unfold begin_edit, Lock. unfold mbind, ES_bind.
  destruct (locked_runs (EWrap "failed to lock config file: ") mutexAtomicUpdate ctx 1 s t d Hctx Hs) as (w1 & -> & Hw1).
  destruct (GetConfig_runs ctx (mkCS (cm s) w1) t d Hctx Hp Hw1) as (w2 & Hw2 & Hget). unfold annotate. rewrite Hget. cbn [cm].
  destruct (decide (cacheModTime (cm s) = t)).
  - exists w2, (cm s). by split_and!.
  - exists w2, (spawn t (cm s)). unfold spawn. destruct (slow_answer (cm s)), (refreshing (cm s)); by split_and!.
Qed.

(** C21: An edit that returns without an error was decided on the configuration
    [GetConfig] gives, and takes effect at once: the next [GetConfig] returns
    the edited configuration, and the file holds its layout.  An edit that is
    refused leaves the cached configuration and the file as they were. *)
Theorem edits_take_effect {A} ctx (edit : FullConfig → Edit A) s t d : never_ends ctx → configPath (cm s) = path → steady (cfs s) t d →
  match (if decide (cacheModTime (cm s) = t) then inr (cacheConfig (cm s)) else slow_answer (cm s)) with
  | inl e => (atomically ctx edit s).1 = inl (EWrap "failed to get config: " e)
  | inr c =>
      match edit c, atomically ctx edit s with
      | Refuse e, (answer, s') => answer = inl e ∧ cacheConfig (cm s') = cacheConfig (cm s) ∧ steady (cfs s') t d
      | Keep a, (answer, s') => answer = inr a ∧ cacheConfig (cm s') = cacheConfig (cm s) ∧ steady (cfs s') t d
      | Write c' a, (inr b, s') => a = b ∧ took_effect ctx c' (cm s) (cm s') (cfs s') ∧
          (GetConfig ctx s').1 = inr c'
      | Write c' a, (inl e, s') => ∃ e', e = EWrap "failed to write config: " e'
      end
  end.
Proof.
  intros Hctx Hp Hs. destruct (begin_runs ctx s t d Hctx Hp Hs) as (w & m & Hw & Hst & Hmp & Hmc & Hmt & Hme & Hmr & Hans).
  unfold atomically, mbind, ES_bind. destruct (begin_edit ctx s) as [r s1]. cbn in Hst, Hans. subst s1.
  destruct (if decide _ then _ else _) as [e|c]; rewrite Hans; [done|]. unfold commit_edit. destruct (edit c) as [e|a|c' a]; [by cbn; rewrite Hmc..|].
  unfold mbind, ES_bind, annotate. destruct (writeConfig ctx c' (mkCS m w)) as [[e|[]] s'] eqn:Hwr; [by exists e|]. split; [done|].
  destruct (writeConfig_runs ctx c' (mkCS m w) s' t d Hctx Hmp Hw Hwr) as [(w1 & y & w2 & data & Hy & Hd & Hf & Hraw) Hc Hpath He].
  cbn [cm] in *. split.
  - split; cbn; try done; [by exists w1, y, w2, data|congruence].
  - destruct (GetConfig_runs ctx s' (cacheModTime (cm s')) data Hctx Hpath Hf) as (w3 & _ & ->). rewrite decide_True by done. by rewrite Hc.
Qed.
End cache.

(** ** The start *)

Section start.
Context `{Yaml} {S : Type} `{World S} `{Service S} `{MapOrder S} `{Semaphores S} `{!SteadyFile S DefaultConfigPath}.
Implicit Types (s : CState S) (w : S) (ctx : Ctx).
Local Abbreviation file_steady := (steady (path := DefaultConfigPath)).

(** The first reading fails, while the file's time can be read. *)
Definition starts_unread (w : S) : Prop :=
  let (initCtx, w1) := WithTimeout Background ConfigBackgroundRefreshTimeout w in
  let (r, w2) := readAndParseConfig initCtx DefaultConfigPath w1 in
  (∃ e, r = inl e) ∧ ∃ info, (Stat initCtx DefaultConfigPath w2).1 = (Some info, None).

(** The manager then starts with an empty configuration that is as new as the file. *)
Lemma start_without_a_configuration w t d : file_steady w t d → starts_unread w → ∃ e w',
  NewFileConfigManager w = mkCS (mkManager DefaultConfigPath t (Some e) zero_FullConfig [] 0 false None) w' ∧ file_steady w' t d.
Proof.
  intros Hw. unfold starts_unread, NewFileConfigManager.
  pose proof (leaves_WithTimeout DefaultConfigPath Background ConfigBackgroundRefreshTimeout w t d Hw) as Hw1. unfold lifted in Hw1.
  destruct (WithTimeout _ _ w) as [ctx w1]. cbn in Hw1. pose proof (leaves_read DefaultConfigPath ctx DefaultConfigPath w1 t d Hw1) as Hw2.
  destruct (readAndParseConfig ctx _ w1) as [r w2]. intros [[e ->] [info Hinfo]]. cbn in *. pose proof (Stat_steady ctx w2 t d Hw2) as Hw3.
  pose proof (Stat_time ctx w2 t d info Hw2 Hinfo) as <-. destruct (Stat _ _ w2) as [st w3]. cbn in *. subst st. by exists e, w3.
Qed.

(** Nothing stands in the way of writing the configuration [c]. *)
Definition can_write ctx (c : FullConfig) t d : Prop :=
  (∀ y w w1, convertSpecToYaml ctx c w = (inr y, w1) → ∃ data, yaml_Marshal y = inr data) ∧
  (∀ data w, file_steady w t d → (WriteFile ctx DefaultConfigPath data mode_666 w).1 = None).

Lemma overrides_can_be_written ctx o t d : never_ends ctx → can_write ctx (apply_overrides o zero_FullConfig) t d →
  ¬ write_fails DefaultConfigPath ctx (apply_overrides o zero_FullConfig) t d.
Proof.
  intros Hctx [Hm Hwr] (w & Hw & [[e He]|[(y & w1 & e & Hy & He)|(data & w1 & Hw1 & Hd)]]).
  - destruct (closed_is_written ctx (apply_overrides o zero_FullConfig) w) as (y & w1 & Hy); [done|done|apply closed_nil|apply closed_agree, closed_nil|].
    by rewrite Hy in He.
  - destruct (Hm y w w1 Hy) as [data Hdata]. congruence.
  - by apply Hd, Hwr.
Qed.

(** C22: A file whose first reading fails, while its modification time can be
    read, is taken for an empty configuration: the new manager records the
    error and the time of the file, and the start continues, without an error,
    with the overrides on top of the empty configuration and writes that over
    the file, if it can be written. *)
Theorem unreadable_file_is_overwritten ctx o w t d : never_ends ctx → file_steady w t d → starts_unread w →
  can_write ctx (apply_overrides o zero_FullConfig) t d →
  let s := NewFileConfigManager w in
  is_Some (cacheError (cm s)) ∧ file_steady (cfs s) t d ∧
  ∃ s', GetConfigWithOverwritesOrCreateNew ctx o s = (inr (apply_overrides o zero_FullConfig), s') ∧
    took_effect DefaultConfigPath ctx (apply_overrides o zero_FullConfig) (cm s) (cm s') (cfs s').
Proof.
  intros Hctx Hw Hu Hcan. cbv zeta. destruct (start_without_a_configuration w t d Hw Hu) as (e & w0 & -> & Hs).
  set (s := mkCS _ w0). split; [by eexists|]. split; [exact Hs|]. unfold GetConfigWithOverwritesOrCreateNew. unfold mbind at 1, ES_bind at 1.
  destruct (context_lives DefaultConfigPath ctx s t d Hctx Hs) as (w1 & -> & Hw1). unfold mbind at 1, ES_bind at 1, get_cm. cbn [cm].
  unfold mbind at 1, ES_bind at 1. rewrite in_fs_runs. cbn [cfs cm configPath s]. rewrite (FileExists_answers ctx w1 t d) by done.
  pose proof (FileExists_steady ctx w1 t d Hw1) as Hw2. unfold mbind at 1, ES_bind at 1. unfold annotate at 1.
  destruct (GetConfig_runs DefaultConfigPath ctx (mkCS (cm s) (FileExists ctx DefaultConfigPath w1).2) t d Hctx eq_refl Hw2) as (w3 & Hw3 & E). cbn [cm s] in E.
  rewrite E. rewrite decide_True by done. cbn [cacheConfig]. unfold mbind, ES_bind, annotate.
  pose proof (writeConfig_outcome DefaultConfigPath ctx (apply_overrides o zero_FullConfig) (mkCS (cm s) w3) t d Hctx eq_refl Hw3) as Hwr. cbn [cm s] in Hwr.
  destruct (writeConfig ctx _ _) as [[e'|[]] s']; [by destruct (overrides_can_be_written ctx o t d Hctx Hcan)|]. by exists s'.
Qed.
End start.
