(* ===== verification/ConfigExamples.v ===== *)
(** * ConfigExamples: a disk, a codec, and what the manager does with them

    An in-memory disk and a codec for small configurations show that the
    hypotheses of the theorems on the configuration manager hold somewhere; the
    runs show configurations that are lost. *)

From S2P Require Import Prelude Float64 GoRuntime GoBytes GoPaths StateMonad Backoff FSMManager FileSystem Documents DataModel DataModelFacts Translator Configuration ConfigTemplates ConfigManager ConfigEdits ConfigEditFacts ConfigCache.
From Stdlib Require Import Ascii.
Local Open Scope Z_scope.

(** ** A codec *)

#[local] Instance demo_blocks : Blocks := {|
  DFCBlock := string; PCBlock := string; SPBlock := string; InternalBlock := unit; AgentBlock := unit;
  PC_zero := ""; SP_zero := ""; Internal_zero := tt; Agent_zero := tt;
|}.

(** What the codec stores: the instances and the templates with their blocks,
    and three settings of the agent. *)
Abbreviation Row := (string * string * string)%type.
Abbreviation Parts := (list Row * list Row * list (string * string) * list (string * string) * (string * string * Z))%type.

Definition row {X} (i : Templated string X) : Row := (tpl_Name i, TemplateRef i, tpl_Config i).
Definition text (c : Content) : string := match c with CTree (VString t) => t | CTree _ => "" | CPC t => t | CSP t => t end.
Definition parts (c : FullConfig) : Parts :=
  (row <$> ProtocolConverter c, row <$> StreamProcessor c, prod_map id text <$> map_to_list (tpl_PC (Templates c)),
   prod_map id text <$> map_to_list (tpl_SP (Templates c)), (APIURL (Agent c), ReleaseChannel (Agent c), MetricsPort (Agent c))).

Definition no_variables : VariableBundle := mkVariables ∅ ∅ ∅.
Definition instance {X} (x : X) (r : Row) : Templated string X := let '(n, ref, b) := r in mkTemplated n "" no_variables ∅ ref b x.
Definition pc_more : PCMore := mkPCMore "" "" false ("", false).
Definition sp_more : SPMore := mkSPMore ("", false).
Definition demo_agent (a : string * string * Z) : AgentConfig := let '(url, channel, port) := a in mkAgent ∅ channel port url "" false true tt.
Definition tree (t : string) : Content := CTree (VString t).
Definition rebuild (p : Parts) : FullConfig :=
  let '(pcs, sps, tp, ts, a) := p in
  mkFull (mkTemplates (list_to_map (prod_map id tree <$> tp)) (list_to_map (prod_map id tree <$> ts))) ∅ None [] [] []
    (instance pc_more <$> pcs) (instance sp_more <$> sps) zero_Internal (demo_agent a).

Fixpoint bits (p : BinNums.positive) : bytes := match p with xH => [] | xO p => "0"%char :: bits p | xI p => "1"%char :: bits p end.
Fixpoint unbits (b : bytes) : option BinNums.positive :=
  match b with
  | [] => Some xH
  | a :: b => if bool_decide (a = "0"%char) then xO <$> unbits b else if bool_decide (a = "1"%char) then xI <$> unbits b else None
  end.
Lemma unbits_bits p : unbits (bits p) = Some p.
Proof. induction p as [p IH|p IH|]; cbn; by rewrite ?IH. Qed.

#[local] Instance demo_yaml : Yaml := {|
  yaml_Marshal c := inr (bits (encode (parts c)));
  yaml_Decode _ data _ := match unbits data ≫= decode with Some p => inr (rebuild p) | None => inl (ENew "yaml: line 1: did not find expected node content") end;
  yaml_MarshalContent c := inr (lit (text c));
  yaml_UnmarshalPC b := inr (str_of b);
  yaml_UnmarshalSP b := inr (str_of b);
|}.

Definition as_tree (c : Content) : Content := match c with CTree v => CTree v | CPC t => tree t | CSP t => tree t end.

#[local] Program Instance demo_yaml_laws : YamlLaws := {|
  storable c := rebuild (parts c) = set_Templates (mkTemplates (as_tree <$> tpl_PC (Templates c)) (as_tree <$> tpl_SP (Templates c))) c;
  read_content := as_tree;
|}.
Next Obligation. intros c data Hst [= <-]. cbn. by rewrite unbits_bits, <- Hst; cbn; rewrite decode_encode. Qed.
Next Obligation.
  intros c name t _ _. exists (lit t). split; [done|]. cbn. do 2 f_equal. apply String.string_of_list_ascii_of_string.
Qed.
Next Obligation.
  intros c name t _ _. exists (lit t). split; [done|]. cbn. do 2 f_equal. apply String.string_of_list_ascii_of_string.
Qed.

(** ** A disk *)

Record Disk := mkDisk { disk_time : Z; disk_files : gmap bytes (Time * bytes) }.
Definition set_files (m : gmap bytes (Time * bytes)) (w : Disk) : Disk := mkDisk (disk_time w + 1) m.
Definition answer {A} (a : A) : St Disk A := λ w, (a, w).

Definition entry_of (dir : bytes) (path : bytes) : option DirEntry :=
  let name := drop (length dir + 1) path in
  if is_prefix (dir ++ [slash]) path && bool_decide (slash ∉ name) && bool_decide (name ≠ lit "..") then Some (mkDirEntry name false) else None.

#[local] Instance demo_world : World Disk := {|
  clock w := (disk_time w, mkDisk (disk_time w + 1) (disk_files w));
  randw w := (0, w);
|}.
#[local] Program Instance demo_order : MapOrder Disk := {| map_order l w := (l, w) |}.
Next Obligation. done. Qed.
#[local] Instance demo_semaphores : Semaphores Disk := {| Acquire _ _ _ := answer None |}.
#[local] Instance demo_service : Service Disk := {|
  EnsureDirectory _ _ := answer None;
  ReadFile _ p w := (match disk_files w !! p with Some (_, d) => (d, None) | None => ([], Some ErrNotExist) end, w);
  ReadFileRange _ _ _ _ := answer None;
  WriteFile _ p d _ w := (None, set_files (<[p := (disk_time w, d)]> (disk_files w)) w);
  PathExists _ p w := ((bool_decide (is_Some (disk_files w !! p)), None), w);
  FileExists _ p w := ((bool_decide (is_Some (disk_files w !! p)), None), w);
  Remove _ p w := (None, set_files (delete p (disk_files w)) w);
  RemoveAll _ p w := (None, set_files (delete p (disk_files w)) w);
  Stat _ p w := (match disk_files w !! p with Some (t, d) => (Some (mkFileInfo t (Z.of_nat (length d)) false), None) | None => (None, Some ErrNotExist) end, w);
  Chmod _ _ _ := answer None;
  ReadDir _ q w := ((omap (λ kv, entry_of q kv.1) (map_to_list (disk_files w)), None), w);
  ExecuteCommand _ _ _ := answer ([], None);
  Chown _ _ _ _ := answer None;
  Glob _ _ := answer ([], None);
  Rename _ _ _ := answer None;
  Symlink _ _ _ := answer None;
|}.

Lemma backup_elsewhere name : plain (lit name) → backup_path name ≠ DefaultConfigPath.
Proof.
  intros [Hs Hd] E. assert (Forall proper [lit "data"; lit "config-backups"]) as Hp.
  { repeat constructor; try done; repeat (apply not_elem_of_cons; split; [done|]); apply not_elem_of_nil. }
  unfold backup_path in E. cbn [Join ConfigBackupDir lit String.list_ascii_of_string join_with] in E.
  pose proof (Clean_below [lit "data"; lit "config-backups"] (lit name)) as Hc.
  rewrite split_on_single in Hc by done. specialize (Hc ltac:(done) Hp ltac:(by constructor)).
  change (Clean (rooted [lit "data"; lit "config-backups"] ++ slash :: lit name) = DefaultConfigPath) in E. rewrite Hc in E.
  unfold kept in E. rewrite filter_cons in E. apply (f_equal (take 13)) in E. case_decide; cbn in E; done.
Qed.

Lemma entry_plain dir p e : entry_of dir p = Some e → plain (FileSystem.Name e).
Proof.
  unfold entry_of. destruct (is_prefix _ _); cbn [andb]; [|done]. case_bool_decide; cbn [andb]; [|done]. case_bool_decide; [|done].
  by intros [= <-].
Qed.

#[local, refine] Instance demo_steady : SteadyFile Disk DefaultConfigPath := {|
  steady w t d := disk_files w !! DefaultConfigPath = Some (t, d) ∧ 0 < t ∧ 0 < disk_time w;
|}.
Proof.
  - intros w t d (_ & ? & _). lia.
  - apply backup_elsewhere.
  - intros w t d (? & ? & ?). cbn. split_and!; [done|done|lia].
  - done.
  - intros mu ctx n w t d _ Hw. by exists w.
  - done.
  - done.
  - done.
  - intros ctx w t d _ (E & _). cbn [FileExists demo_service fst]. by rewrite E.
  - done.
  - intros ctx w t d _ (E & _). cbn [Stat demo_service fst]. rewrite E. by eexists.
  - intros ctx w t d fi (E & _). cbn [Stat demo_service fst]. rewrite E. by intros [= <-].
  - done.
  - intros ctx w t d (E & _). cbn [ReadFile demo_service fst snd]. by rewrite E.
  - done.
  - intros ctx q w e. cbn. intros (kv & _ & He)%list_elem_of_omap. by apply entry_plain in He.
  - intros ctx q data m w t d Hq (E & ? & ?). cbn [WriteFile demo_service snd set_files disk_files disk_time].
    split_and!; [by rewrite lookup_insert_ne|done|lia].
  - intros ctx q w t d Hq (E & ? & ?). cbn [Remove demo_service snd set_files disk_files disk_time].
    split_and!; [by rewrite lookup_delete_ne|done|lia].
  - intros ctx data m w t d w' (E & ? & ?) [= <-]. exists (disk_time w).
    cbn [set_files disk_files disk_time]. rewrite lookup_insert_eq. split_and!; [done|done|lia].
Defined.

(** Identifiers of 128 bits, from a hash under which names may collide. *)
Definition hash (n : string) : Z := foldl (λ h c, (h * 257 + Z.of_N (Ascii.N_of_ascii c) + 1) mod 2 ^ 128) 0 (lit n).
#[local] Instance demo_uuids : Uuids := {| UUID := Z; uuid_NewSHA1 := hash; uuid_String u := str (itoa u) |}.

(** ** Configurations *)

Definition bridge (name ref block : string) : ProtocolConverterConfig := instance pc_more (name, ref, block).
Definition processor (name ref block : string) : StreamProcessorConfig := instance sp_more (name, ref, block).
Definition config (pcs : list ProtocolConverterConfig) (sps : list StreamProcessorConfig) : FullConfig :=
  set_StreamProcessor sps (set_ProtocolConverter pcs (set_Agent (demo_agent ("https://management.umh.app", "stable", 8080)) zero_FullConfig)).
(** A root with a child, and a bridge without a template. *)
Definition plant : FullConfig := config [bridge "press" "press" "opcua"; bridge "press-2" "press" "opcua"; bridge "oven" "" "modbus"] [].

Lemma background_never_ends : never_ends Background.
Proof. done. Qed.

Definition file_of (c : FullConfig) : bytes :=
  match convertSpecToYaml Background c (mkDisk 1 ∅) with
  | (inr y, _) => match yaml_Marshal y with inr data => data | inl _ => [] end
  | _ => []
  end.
Definition disk_with (data : bytes) : Disk := mkDisk 10 {[DefaultConfigPath := (5, data)]}.
(** A manager that has read [c], on a disk whose file has changed or not. *)
Definition manager_of (t : Time) (c : FullConfig) (w : Disk) : CState Disk :=
  mkCS (mkManager DefaultConfigPath t None c (file_of c) 0 false None) w.
Definition names_after (r : (GoErr + FullConfig) * CState Disk) : option (list string) :=
  match r.1 with inl _ => None | inr c => Some (tpl_Name <$> ProtocolConverter c) end.

Lemma disk_steady data : steady (path := DefaultConfigPath) (disk_with data) 5 data.
Proof. cbn [steady demo_steady disk_with disk_files disk_time]. rewrite lookup_singleton_eq. by split_and!. Qed.

Ltac each H := repeat (apply elem_of_cons in H as [->|H]); try (by apply not_elem_of_nil in H).

Lemma plant_closed : closed (ProtocolConverter plant).
Proof.
  assert (bridge "press" "press" "opcua" ∈ ProtocolConverter plant) as Hroot by (by left). split.
  - intros i Hi Href. exists (bridge "press" "press" "opcua"). split; [done|]. split; [done|]. by each Hi.
  - intros i j Hi Hj. by each Hi; each Hj.
  - intros i Hi. by each Hi.
Qed.
Lemma plant_closed_config : closed_config plant.
Proof. split; [done|apply plant_closed|apply closed_nil]. Qed.
Lemma plant_unique : unique_names plant.
Proof. split; apply (bool_decide_unpack _); by vm_compute. Qed.

(** The file of [plant]. *)
Definition plant_layout : FullConfig := match (convertSpecToYaml Background plant (mkDisk 1 ∅)).1 with inr y => y | inl _ => zero_FullConfig end.
Definition plant_file : bytes := file_of plant.
Lemma plant_written : ∃ w, convertSpecToYaml Background plant (mkDisk 1 ∅) = (inr plant_layout, w).
Proof. eexists. by vm_compute. Qed.
Lemma plant_storable : storable plant_layout.
Proof. by vm_compute. Qed.
Lemma plant_marshal : yaml_Marshal plant_layout = inr plant_file.
Proof. by vm_compute. Qed.

Lemma configuration_survives_the_file_witness : ∃ y w1 w3, convertSpecToYaml Background plant (mkDisk 1 ∅) = (inr y, w1) ∧
  storable y ∧ yaml_Marshal y = inr plant_file ∧ ParseConfig plant_file Background false w1 = (inr plant, w3).
Proof.
  destruct (configuration_survives_the_file Background plant (mkDisk 1 ∅)) as (y & w1 & Hy & Hr);
    [apply background_never_ends|reflexivity|apply plant_closed|apply closed_nil|].
  destruct plant_written as [w Hw]. assert (y = plant_layout) as -> by congruence.
  destruct (Hr plant_file w1 plant_storable plant_marshal) as [w3 Hw3]. exists plant_layout, w1, w3.
  split; [exact Hy|]. split; [exact plant_storable|]. split; [exact plant_marshal|exact Hw3].
Defined.

(** Data flow components, and the replacement of one under another name. *)
Definition flow (name : string) : DataFlowComponentConfig := mkDFC name "active" "" false false.
Definition with_flows : FullConfig := set_DataFlow [flow "weld"; flow "paint"] plant.
Definition replace_paint : Operation := OpEditDFC (GenerateUUIDFromName "paint") (flow "coat").
Lemma edits_keep_names_unique_witness :
  run_op replace_paint with_flows = Some (set_DataFlow [flow "weld"; flow "coat"] plant) ∧
  unique_names (set_DataFlow [flow "weld"; flow "coat"] plant).
Proof.
  assert (run_op replace_paint with_flows = Some (set_DataFlow [flow "weld"; flow "coat"] plant)) as Ho by (vm_compute; reflexivity).
  split; [exact Ho|]. apply (edits_keep_names_unique replace_paint with_flows); [|split; apply (bool_decide_unpack _); by vm_compute|exact Ho].
  intros x y Hx Hy. by each Hx; each Hy.
Defined.

(** A data model with two versions. *)
Definition with_model : FullConfig := set_DataModels [mkModels {["v1" := []; "v7" := []]} "pump" ""] plant.
Definition with_model_edited : FullConfig := set_DataModels [mkModels {["v1" := []; "v7" := []; "v8" := []]} "pump" "new"] plant.
Lemma versions_only_grow_witness : run_op (OpEditModel "pump" [] "new") with_model = Some with_model_edited ∧
  ∃ d', d' ∈ DataModels with_model_edited ∧ model_Name d' = "pump" ∧ ({["v1" := []; "v7" := []]} : gmap string Structure) ⊆ Versions d'.
Proof.
  assert (run_op (OpEditModel "pump" [] "new") with_model = Some with_model_edited) as Ho by (vm_compute; reflexivity). split; [exact Ho|].
  destruct (versions_only_grow (OpEditModel "pump" [] "new") with_model with_model_edited) as [_ Hd]; [|exact Ho|].
  - intros d Hin. apply list_elem_of_singleton in Hin as ->. by vm_compute.
  - destruct (Hd (mkModels {["v1" := []; "v7" := []]} "pump" "")) as [He|He]; [by left|discriminate|exact He].
Defined.

(** The root "press" of a template becomes "hammer"; its child follows. *)
Definition rename_press : Operation := OpEditPC (GenerateUUIDFromName "press") (bridge "hammer" "hammer" "opcua").
Definition plant_renamed : FullConfig :=
  config [bridge "hammer" "hammer" "opcua"; bridge "press-2" "hammer" "opcua"; bridge "oven" "" "modbus"] [].
Lemma edits_agree_with_the_file_witness : run_op rename_press plant = Some plant_renamed ∧ closed_config plant_renamed ∧
  ∃ y w1, convertSpecToYaml Background plant_renamed (mkDisk 1 ∅) = (inr y, w1).
Proof.
  assert (run_op rename_press plant = Some plant_renamed) as Ho by (vm_compute; reflexivity). split; [exact Ho|].
  destruct (edits_agree_with_the_file rename_press Background plant plant_renamed (mkDisk 1 ∅))
    as (Hc & y & w1 & Hy & _); [apply background_never_ends|apply plant_closed_config|apply plant_unique| |exact Ho|].
  - intros n old Hf. vm_compute in Hf. injection Hf as <- <-. split; [by split|]. split; right; by split_and!.
  - split; [exact Hc|]. exists y, w1. exact Hy.
Defined.

(** ** Runs *)

(** The file was changed to something that is not YAML. *)
Definition broken : bytes := lit "{".
Definition broken_state : CState Disk := manager_of 1 plant (disk_with broken).

Lemma changed_file_is_read_witness : steady (path := DefaultConfigPath) (cfs broken_state) 5 broken ∧
  ∃ r, (GetConfig Background (backgroundRefresh (GetConfig Background broken_state).2)).1 = inr (read_result r) ∧
    (∀ c raw, r = inr (c, raw) → raw = broken).
Proof.
  split; [apply disk_steady|].
  pose proof (changed_file_is_read DefaultConfigPath Background broken_state 5 broken background_never_ends eq_refl (disk_steady broken)
    ltac:(discriminate) eq_refl) as Hr.
  destruct (GetConfig Background broken_state) as [answer s1]. destruct Hr as (_ & rctx & w & r & w' & _ & _ & Hd & Ha & _).
  exists r. split; [exact Ha|exact Hd].
Defined.

(** The plant is gone, and nobody hears of an error. *)
Example broken_file_empties_the_configuration :
  (GetConfig Background broken_state).1 = inr plant ∧
  (GetConfig Background (backgroundRefresh (GetConfig Background broken_state).2)).1 = inr zero_FullConfig.
Proof. split; vm_compute; reflexivity. Qed.

Lemma edits_take_effect_witness : steady (path := DefaultConfigPath) (cfs (manager_of 5 plant (disk_with plant_file))) 5 plant_file ∧
  match atomically Background (set_historian (mkHistorian (mkTimescale "" "" "" "db" "secret" "" "" "" 5432))) (manager_of 5 plant (disk_with plant_file)) with
  | (inr _, s') => is_Some (cacheConfig (cm s')).(Historian)
  | (inl e, _) => ∃ e', e = EWrap "failed to write config: " e'
  end.
Proof.
  split; [apply disk_steady|].
  pose proof (edits_take_effect DefaultConfigPath Background (set_historian (mkHistorian (mkTimescale "" "" "" "db" "secret" "" "" "" 5432)))
    (manager_of 5 plant (disk_with plant_file)) 5 plant_file background_never_ends eq_refl (disk_steady plant_file)) as He.
  destruct (atomically Background _ _) as [[e|a] s']; [exact He|]. destruct He as (_ & [_ Hc _ _] & _). rewrite Hc. by eexists.
Defined.

(** The process starts while the file cannot be read. *)
Definition restarted : CState Disk := NewFileConfigManager (disk_with broken).
Definition overrides : FullConfig := set_Agent (demo_agent ("https://management.umh.app", "stable", 0)) zero_FullConfig.

Lemma unreadable_file_is_overwritten_witness : is_Some (cacheError (cm restarted)) ∧
  ∃ s', GetConfigWithOverwritesOrCreateNew Background overrides restarted = (inr (apply_overrides overrides zero_FullConfig), s') ∧
    took_effect DefaultConfigPath Background (apply_overrides overrides zero_FullConfig) (cm restarted) (cm s') (cfs s').
Proof.
  destruct (unreadable_file_is_overwritten Background overrides (disk_with broken) 5 broken) as (He & _ & Hs).
  - apply background_never_ends.
  - apply disk_steady.
  - split; eexists; vm_compute; reflexivity.
  - split; [intros y w w1 _; by eexists|done].
  - split; [exact He|exact Hs].
Defined.

(** The names of the bridges the file holds. *)
Definition bridges_in_file (s : CState Disk) : option (list string) :=
  match disk_files (cfs s) !! DefaultConfigPath with
  | Some (_, data) => match (ParseConfig data Background false (cfs s)).1 with inr c => Some (tpl_Name <$> ProtocolConverter c) | inl _ => None end
  | None => None
  end.

(** Someone added the bridge "mill" to the file; an edit through the manager
    that comes before the refresh is decided on the old configuration. *)
Definition plant_and_mill : bytes := file_of (set_ProtocolConverter (ProtocolConverter plant ++ [bridge "mill" "" "s7"]) plant).
Definition edited_file : CState Disk := manager_of 1 plant (disk_with plant_and_mill).
Example edit_overwrites_a_changed_file :
  bridges_in_file edited_file = Some ["press"; "press-2"; "oven"; "mill"] ∧
  let (r, s) := AtomicAddProtocolConverter Background (bridge "saw" "" "s7") edited_file in
  r = inr tt ∧ bridges_in_file s = Some ["press"; "press-2"; "oven"; "saw"].
Proof. split; vm_compute; [reflexivity|split; reflexivity]. Qed.

(** A refresh that read the file before an edit and stores its result after it
    hides the edit, and the next edit undoes it. *)
Definition late_refresh : CState Disk :=
  let loading := refresh_load (GetConfig Background edited_file).2 in
  refresh_store (AtomicDeleteProtocolConverter Background (GenerateUUIDFromName "oven") loading).2.
Example late_refresh_undoes_an_edit :
  bridges_in_file late_refresh = Some ["press"; "press-2"] ∧
  names_after (GetConfig Background late_refresh) = Some ["press"; "press-2"; "oven"; "mill"] ∧
  bridges_in_file (AtomicAddProtocolConverter Background (bridge "saw" "" "s7") late_refresh).2 = Some ["press"; "press-2"; "oven"; "mill"; "saw"].
Proof. split; [|split]; vm_compute; reflexivity. Qed.

(** The edit of a root: the file has the new block for the child, the cache the
    old one. *)
Definition blocks (c : FullConfig) : list (string * string) := (λ i : ProtocolConverterConfig, (tpl_Name i, tpl_Config i)) <$> ProtocolConverter c.
Example child_keeps_the_old_block :
  let s := (AtomicEditProtocolConverter Background (GenerateUUIDFromName "press") (bridge "press" "press" "mqtt") (manager_of 5 plant (disk_with plant_file))).2 in
  match (GetConfig Background s).1, disk_files (cfs s) !! DefaultConfigPath with
  | inr c, Some (_, data) =>
      blocks c = [("press", "mqtt"); ("press-2", "opcua"); ("oven", "modbus")] ∧
      match (ParseConfig data Background false (cfs s)).1 with
      | inr c => blocks c = [("press", "mqtt"); ("press-2", "mqtt"); ("oven", "modbus")]
      | inl _ => False
      end
  | _, _ => False
  end.
Proof. vm_compute. split; reflexivity. Qed.
